(* ===== verification/_CoqProject ===== *)
-Q . S2P
Prelude.v
Text.v
Hostport.v
Duration.v
Base64.v
Netip.v
Names.v
Keytab.v
Failban.v
Replay.v
Flags.v
Model.v
Messages.v
Ticket.v
Secret.v
IdRange.v
Db.v
Principals.v
PrincipalFacts.v
Dialect.v
Migrate.v
Zone.v
ZoneFacts.v
Dns.v
DnsFacts.v
DockerDns.v
DockerFacts.v
DockerLoop.v
Directory.v
DirectoryFacts.v
Accounts.v
Sidgen.v
Certs.v
AccountsOk.v
LdapEntries.v
Ldap.v
LdapFacts.v
LdapSearch.v
LdapWrite.v
Sasl.v
SaslFacts.v
LdapSample.v
Jws.v
Oidc.v
OidcFacts.v
OidcSample.v
Bootstrap.v
BootstrapFacts.v
BootstrapTwice.v
Masterkey.v
Config.v
ConfigFacts.v
Krb5conf.v
Vault.v
Api.v
ApiHandlers.v
ApiKerberos.v
ApiRoutes.v
ApiFacts.v
ApiWrites.v
ApiTgs.v
ApiSample.v
Pac.v
PacFacts.v
Sfu.v
Kdc.v
As.v
Tgs.v
Server.v
KdcFacts.v
AsFacts.v
TgsFacts.v
NoReplay.v
KdcSample.v
Kpasswd.v
Serving.v
Startup.v
StartupFacts.v
Restart.v
Ktadd.v
