(* ===== verification/Prelude.v ===== *)
(** * ldap-kdc, verified

    ldap-kdc is one Go process that serves a directory of accounts as an LDAP server, a Kerberos KDC
    with a password service, an authoritative DNS server and an OpenID Connect provider, over one SQL
    database. This library models its own logic as executable Rocq functions and proves what they
    promise. Paths below are relative to src/internal.

    ** The parts and how they meet

    The process ([cmd/ldap-kdc]) loads its configuration ([config]), makes or reads the master key
    ([secret]), opens and migrates the database, brings the realm and the entries of a plan into place
    ([bootstrap]) and starts the servers the configuration enables. The store (package [store]) owns the
    database. The KDC ([kdc]) reads principals, accounts and trusts from it, writes back only the result
    of a pre-authentication, and keeps a replay cache. The password service ([kpasswd]) and the
    management interfaces change passwords through the store, which keeps the LDAP digest and the
    Kerberos keys of an account in step. The DNS server ([dnssrv]) answers from the configuration and
    from the zone the store keeps; container registration ([dockerdns]) follows a Docker daemon and
    writes to that zone beside the administrators. The LDAP server ([ldapsrv]) publishes the accounts and
    the groups as entries, authenticates binds against the store and a shared limiter of failures
    ([failban]), or by a ticket of the KDC (SASL), and lets accounts write as far as their capabilities
    reach. The OpenID Connect provider ([oidc]) signs accounts in with the decision of an LDAP bind and
    signs tokens ([jws]) with a key the store keeps sealed. The management API ([api]) is every operation
    of the store behind a token or the session of an administrator; it also drives the enrollment of the
    LDAPS certificate with a Vault ([vaultpki]), which signs in with a ticket of the KDC. [krb5conf]
    renders the clients' configuration from the service's own.

    ** Conventions

    A Go function is a Rocq function of the same name (a prefix or a suffix is added where Rocq has no
    methods, and a loop or a part of a long function is a definition of its own). A fallible function
    returns [outcome]: a value, an error, or [Panic] where Go panics. A stateful one is a computation
    [M St E A] of this file: state passing, where the state survives an error as the effects before
    an early return do; [Tx] is its instance for the store, [K] for the KDC, [H] for the provider's
    handlers, [A] for the management API's, [R] for the start of the process. What runs side by side is a
    step relation, one call or one transaction at a time. Integers are [Z] with their width written out
    ([wrap], [swrap]); bytes are [list byte]; a Go string is a sequence of bytes, and case folding and
    white space are those of ASCII. A time is a number of nanoseconds; the readings of the clock and the
    draws of the random source are numbered, so that a run is a function of them. A map is a [gmap];
    where Go ranges over one in an order of its own choosing the order is a parameter. Code outside the
    repository (go-krb5, bcrypt, TOTP, the DNS wire library, AEAD ciphers, ECDSA, JSON, YAML, the
    environment, URLs, files, sockets) is a class of functions or a parameter, and what the code relies on
    of it is a class of laws, each with an instance that a witness runs.

    ** The files

    - Prelude.v: integers, bytes, strings, time, results, the state monad, tactics ([run_inv],
      [simp_bool]); Text.v: package strings; Hostport.v: addresses, URLs and file names; Duration.v:
      durations as text; Base64.v: encoding/base64; Netip.v: net/netip.
    - Names.v: krbkeys/name.go. Keytab.v: krbkeys/keys.go, keytab.go, keytab_read.go.
    - Failban.v: failban/failban.go. Replay.v: kdc/replay.go.
    - Flags.v, Model.v (store/model.go), Messages.v (the Kerberos messages as records), Ticket.v
      (kdc/ticket.go), Secret.v (secret/secret.go, store/secret_value.go and the key contexts),
      Masterkey.v (the master key file of secret/secret.go), IdRange.v (store/idrange.go).
    - Db.v: the tables, the state and the transactions of the store (store/store.go). Migrate.v: its
      migrations. Dialect.v: store/dialect.go, sqlutil.go. Principals.v and PrincipalFacts.v:
      store/principals.go, aliases.go, trusts.go. Directory.v and DirectoryFacts.v: store/users.go, groups.go, attrs.go, capabilities.go,
      authority.go, login.go. Accounts.v: store/password.go, authenticate.go, account.go,
      bootstrap.go. Sidgen.v: EnsureIDRange of store/idrange.go. Certs.v: store/certificates.go.
      AccountsOk.v: the invariant of the account tables.
    - LdapEntries.v: ldapsrv/directory.go. Ldap.v: ldapsrv/handler.go, source.go, with its facts in
      LdapFacts.v (names, binds), LdapSearch.v and LdapWrite.v. Sasl.v and SaslFacts.v:
      ldapsrv/sasl.go. LdapSample.v: a directory the LDAP server is run on.
    - Zone.v and ZoneFacts.v: store/dns.go. Dns.v and DnsFacts.v: dnssrv/zone.go, server.go.
      DockerDns.v, DockerFacts.v and DockerLoop.v: dockerdns/dockerdns.go.
    - Jws.v: jws/jws.go. Oidc.v, OidcFacts.v and OidcSample.v: package oidc.
    - Bootstrap.v, BootstrapFacts.v and BootstrapTwice.v: bootstrap/bootstrap.go. Config.v and
      ConfigFacts.v: config/config.go. Krb5conf.v: krb5conf/krb5conf.go.
    - Vault.v: vaultpki/vaultpki.go, client.go. Api.v: api/auth.go, responses.go and the sessions.
      ApiHandlers.v and ApiKerberos.v: the handlers of package api. ApiRoutes.v: the table of routes of
      api/server.go. ApiFacts.v, ApiWrites.v and ApiTgs.v: their facts; ApiSample.v: requests that are run.
    - Pac.v and PacFacts.v: kdc/pac.go. Sfu.v: kdc/sfu.go, with MD5 written out. Kdc.v: the state of
      the KDC and the interface [KdcStore] by which it uses the store, with the instance [store_kdc].
      As.v and AsFacts.v: kdc/as.go. Tgs.v, TgsFacts.v and NoReplay.v: kdc/tgs.go. Server.v:
      kdc/server.go, errors.go. KdcFacts.v: what the exchanges share. KdcSample.v: a realm the KDC is run
      on.
    - Kpasswd.v: kpasswd/server.go. Serving.v: the loops and the shutdown of kdc/server.go and
      kpasswd/server.go, which have the same text.
    - Startup.v and StartupFacts.v: cmd/ldap-kdc/main.go, with Start of the servers. Restart.v: what a
      second start finds, and a service that is started. Ktadd.v: cmd/ldap-kdc/ktadd.go, krb5conf.go,
      health.go.

    ** What is proved

    - Kerberos, AS (AsFacts.v): a ticket needs the proof the realm or the principal requires; its
      times and flags obey the policy; a failed proof is counted. TGS (TgsFacts.v): every ticket comes
      from an authenticated request; a derived ticket never outlives or outranks the one it came from;
      referrals follow enabled trusts; renewal stays within the renewable life; delegation and protocol
      transition are only as far as the targets allow; and over every sequence of requests no
      authenticator is accepted twice (NoReplay.v).
    - PAC (PacFacts.v): the layout round trips, every signature verifies, a re-signed PAC relays what it
      was given; Kpasswd.v: a request changes the requester's own password or nothing; Serving.v:
      stopping drains both servers in as many steps as goroutines are left.
    - Store: the invariant of the principal tables under every operation, key rotation, exact lockout
      (PrincipalFacts.v); relative identifiers are never shared, and the group searches find exactly the
      transitive closure (DirectoryFacts.v); a password change reaches both sides (Accounts.v);
      a sealed key opens in its own row only (Secret.v); the account tables keep their invariant under
      every operation, a published certificate resolves to its account, and the listing in batches is
      the listing account by account (AccountsOk.v); services that migrate one database at the same time
      apply every migration once and in order (Migrate.v); the identifier range is pinned (Sidgen.v).
    - LDAP: a bind succeeds for an enabled account with its own password only, and every wrong password
      is counted (LdapFacts.v); a SASL bind needs a ticket that verifies, over both legs (SaslFacts.v);
      the name of every published entry resolves to the account or the group it was made from
      (LdapFacts.v); a search shows an account without the capability its own entry only, and memberOf
      and uniqueMember are inverse to one another (LdapSearch.v); what a modify or a delete changes needs
      the capability for it (LdapWrite.v).
    - Zone: the serial changes whenever the records do, and no owner's operation touches the other's
      records (ZoneFacts.v); the server is authoritative for exactly its zones, and reverse answers are
      the inverse of the address records (DnsFacts.v); container registration converges in two passes
      from whatever was there (DockerFacts.v), and in every run of its loop what is registered is
      running unless something is still to be read or was missed (DockerLoop.v).
    - OpenID Connect: over every history of requests, a token about a person needs an earlier sign-in of
      that person and the client's own code and verifier, a code is exchanged once, nobody is
      redirected to a place that is not registered, service accounts are gated by their group, the user
      information follows the account (OidcFacts.v); tokens verify and the signing key survives a
      restart (Jws.v).
    - Management: nothing behind the API is reached without the token or a session of an administrator,
      a session is given to administrators only and expires (ApiFacts.v); what the writing handlers do to
      the store (ApiWrites.v); no sequence of requests without an escape in a name takes the realm's
      ticket-granting principal away (ApiTgs.v). Vault: the credentials go to an address that is
      confidential only, and there is one renewal loop at a time (Vault.v).
    - Start: processes that make the master key at the same time agree on it (Masterkey.v); a
      configuration that loads is well-formed (ConfigFacts.v), no server refuses the settings it gets from
      such a one, and no socket outlives a start that fails or ends (StartupFacts.v); a plan leaves what
      is there alone and its second application changes nothing (BootstrapFacts.v, BootstrapTwice.v); a
      restart changes nothing and the realm's identity is decided once (Restart.v); a client reads from
      the rendered krb5.conf what the service runs with (Krb5conf.v); ktadd replaces a keytab whole or not
      at all and adds exactly the keys asked for (Ktadd.v).
    - The limiter refines its abstract specification (Failban.v); the replay cache is bounded
      (Replay.v); keytabs, names and ARPA names round trip (Keytab.v, Names.v, DnsFacts.v).

    ** Bounds

    Recursion that is not structural has a bound that is proved enough: the group search runs as many
    rounds as there are start nodes, inclusions and groups ([search_fuel], [bfs_terminates]); the keytab
    reader one round per byte of the file ([ParseKeytab_terminates]); the parser of an IPv6 address eight
    groups, which is how many there are; certificates are read in batches of a fixed size, one round per
    batch ([UserCertificates_batched]); the creation of the master key is six calls
    ([LoadOrCreateMasterKey_alone]). A database error (a lost connection, a full disk) is not
    modelled: a statement fails only where it breaks a constraint.

    ** What is not modelled

    The LDAP library applies scope, filter and the selection of attributes after the handler returned its
    entries, and reads the messages; both are outside the repository, and so are env.Parse and the YAML
    decoder. TLS, logging, metrics, the HTML pages and the embedded documentation, the OpenAPI document
    (api/spec.go), the HTTP clients of Docker and Vault, the Kerberos client of vaultpki/kerberos.go and
    the flags of the command line are I/O and glue. Apart from the step relations named above, mutexes
    are taken around whole operations, so an operation is one step. The opening of a driver and the
    text of the queries are not modelled: the tables are lists of rows, compared as
    SQLite's collation does on ASCII, and PostgreSQL's lock around the migrations is left out, since the
    theorem needs only the transactions. *)

From Stdlib Require Export ZArith Lia Bool Ascii.
From Stdlib Require Export String.
From Stdlib Require Export Strings.Byte.
From stdpp Require Export base tactics list gmap sets strings pretty sorting.

#[global] Open Scope Z_scope.
#[global] Open Scope stdpp_scope.
#[global] Set Default Goal Selector "!".

Create HintDb ldapkdc.
Create Rewrite HintDb gobytes.

(** ** Go's fixed-width integers *)

(** Conversion to an unsigned integer of [w] bits, as in [uint16(x)]. *)
Definition wrap (w x : Z) : Z := x mod 2 ^ w.

(** Conversion to a signed integer of [w] bits, as in [int32(x)]. *)
Definition swrap (w x : Z) : Z := (x + 2 ^ (w - 1)) mod 2 ^ w - 2 ^ (w - 1).

Definition max_int64 : Z := 2 ^ 63 - 1.
Definition min_int64 : Z := - 2 ^ 63.

Lemma wrap_small w x : 0 <= x < 2 ^ w -> wrap w x = x.
Proof. intros. unfold wrap. by apply Z.mod_small. Qed.

Lemma wrap_range w x : 0 <= w -> 0 <= wrap w x < 2 ^ w.
Proof. intros. unfold wrap. apply Z.mod_pos_bound, Z.pow_pos_nonneg; lia. Qed.

Lemma swrap_small w x : 0 < w -> - 2 ^ (w - 1) <= x < 2 ^ (w - 1) -> swrap w x = x.
Proof.
  intros Hw Hx. unfold swrap.
  assert (H2 : 2 ^ w = 2 * 2 ^ (w - 1)) by (rewrite <- Z.pow_succ_r by lia; f_equal; lia).
  rewrite Z.mod_small; lia.
Qed.

(** ** Bytes and byte order *)

Abbreviation bytes := (list Byte.byte).

Definition byte_of_Z (z : Z) : Byte.byte :=
  match Byte.of_N (Z.to_N (z mod 256)) with
  | Some b => b
  | None => Byte.x00
  end.

Definition Z_of_byte (b : Byte.byte) : Z := Z.of_N (Byte.to_N b).

Lemma Z_of_byte_range b : 0 <= Z_of_byte b < 256.
Proof.
  unfold Z_of_byte. pose proof (Byte.to_N_bounded b). lia.
Qed.

Lemma Z_of_byte_of_Z z : Z_of_byte (byte_of_Z z) = z mod 256.
Proof.
  unfold Z_of_byte, byte_of_Z.
  pose proof (Z.mod_pos_bound z 256 ltac:(lia)) as Hm.
  destruct (Byte.of_N (Z.to_N (z mod 256))) as [b|] eqn:E.
  - apply Byte.to_of_N in E. rewrite E. lia.
  - apply Byte.of_N_None_iff in E. lia.
Qed.

Lemma byte_of_Z_of_byte b : byte_of_Z (Z_of_byte b) = b.
Proof.
  unfold byte_of_Z, Z_of_byte.
  pose proof (Byte.to_N_bounded b).
  rewrite Z.mod_small by lia. rewrite N2Z.id.
  by rewrite Byte.of_to_N.
Qed.

Lemma byte_of_Z_eq z b : z mod 256 = Z_of_byte b -> byte_of_Z z = b.
Proof. intros E. rewrite <- (byte_of_Z_of_byte (byte_of_Z z)), Z_of_byte_of_Z, E. apply byte_of_Z_of_byte. Qed.

#[global] Instance byte_eq_dec : EqDecision Byte.byte := Byte.byte_eq_dec.
#[global] Program Instance byte_countable : Countable Byte.byte :=
  inj_countable Byte.to_N Byte.of_N _.
Next Obligation. intros b. apply Byte.of_to_N. Qed.

(** Big-endian and little-endian fixed-width encodings of [encoding/binary]. *)
Fixpoint put_be (n : nat) (z : Z) : bytes :=
  match n with
  | O => []
  | S n' => byte_of_Z (z / 256 ^ Z.of_nat n') :: put_be n' z
  end.

Definition get_be (l : bytes) : Z := fold_left (fun acc b => acc * 256 + Z_of_byte b) l 0.

Definition put_le (n : nat) (z : Z) : bytes := rev (put_be n z).
Definition get_le (l : bytes) : Z := get_be (rev l).

Lemma length_put_be n z : List.length (put_be n z) = n.
Proof. induction n as [|n IH]; [done|]. change (S (List.length (put_be n z)) = S n). by rewrite IH. Qed.

Lemma length_put_le n z : List.length (put_le n z) = n.
Proof. unfold put_le. by rewrite length_rev, length_put_be. Qed.

Lemma get_be_acc l a :
  fold_left (fun acc b => acc * 256 + Z_of_byte b) l a
  = a * 256 ^ Z.of_nat (List.length l) + get_be l.
Proof.
  unfold get_be. revert a. induction l as [|b l IH]; intros a; simpl.
  - lia.
  - rewrite IH, (IH (0 * 256 + Z_of_byte b)).
    rewrite Nat2Z.inj_succ, Z.pow_succ_r by lia. lia.
Qed.

Lemma get_be_cons b l :
  get_be (b :: l) = Z_of_byte b * 256 ^ Z.of_nat (List.length l) + get_be l.
Proof. unfold get_be at 1. simpl. by rewrite get_be_acc. Qed.

Lemma get_put_be n z : get_be (put_be n z) = z mod 256 ^ Z.of_nat n.
Proof.
  induction n as [|n IH].
  - simpl. by rewrite Z.mod_1_r.
  - change (put_be (S n) z) with (byte_of_Z (z / 256 ^ Z.of_nat n) :: put_be n z).
    rewrite get_be_cons, IH, Z_of_byte_of_Z, length_put_be.
    rewrite Nat2Z.inj_succ, Z.pow_succ_r, Z.mul_comm by lia.
    rewrite (Z.mul_comm 256).
    rewrite (Z.rem_mul_r z (256 ^ Z.of_nat n) 256) by lia. lia.
Qed.

Lemma get_put_le n z : get_le (put_le n z) = z mod 256 ^ Z.of_nat n.
Proof. unfold get_le, put_le. by rewrite rev_involutive, get_put_be. Qed.

Lemma get_be_range l : 0 <= get_be l < 256 ^ Z.of_nat (List.length l).
Proof.
  induction l as [|b l IH]; [unfold get_be; simpl; lia|].
  rewrite get_be_cons. cbn [List.length].
  pose proof (Z_of_byte_range b).
  rewrite Nat2Z.inj_succ, Z.pow_succ_r by lia.
  nia.
Qed.

Lemma put_be_mod n z m : (n <= m)%nat -> put_be n (z mod 256 ^ Z.of_nat m) = put_be n z.
Proof.
  induction n as [|n IH]; [done|]. intros Hle. cbn [put_be].
  rewrite IH by lia. f_equal.
  rewrite <- (byte_of_Z_of_byte (byte_of_Z (z / _))), <- (byte_of_Z_of_byte (byte_of_Z (_ / _))).
  f_equal. rewrite !Z_of_byte_of_Z.
  replace (Z.of_nat m) with (Z.of_nat n + (1 + (Z.of_nat m - Z.of_nat n - 1))) by lia.
  rewrite !Z.pow_add_r, Z.pow_1_r by lia.
  set (p := 256 ^ Z.of_nat n). set (q := 256 ^ (Z.of_nat m - Z.of_nat n - 1)).
  assert (0 < p) by (apply Z.pow_pos_nonneg; lia).
  assert (0 < q) by (apply Z.pow_pos_nonneg; lia).
  rewrite Z.rem_mul_r by lia.
  rewrite (Z.mul_comm p (z / p mod (256 * q))), Z.div_add by lia.
  rewrite Z.div_small by (apply Z.mod_pos_bound; lia). rewrite Z.add_0_l.
  rewrite Z.rem_mul_r by lia.
  rewrite (Z.mul_comm 256), Z.mod_add by lia. by apply Z.mod_mod.
Qed.

Lemma put_get_be l : put_be (List.length l) (get_be l) = l.
Proof.
  induction l as [|b l IH]; [done|].
  cbn [List.length put_be]. rewrite get_be_cons.
  pose proof (get_be_range l). pose proof (Z_of_byte_range b).
  f_equal.
  - rewrite Z.div_add_l by lia. rewrite (Z.div_small (get_be l)) by lia.
    rewrite Z.add_0_r. apply byte_of_Z_of_byte.
  - rewrite <- (put_be_mod _ _ (List.length l)) by lia.
    rewrite Z.add_comm, Z.mod_add by lia.
    rewrite Z.mod_small by lia. done.
Qed.

Arguments put_be : simpl never.

(** ** Strings

    A Go string is a sequence of bytes; here it is [String.string], whose characters are bytes.
    Case conversion and white space are the ASCII part of package [strings]: on strings of ASCII
    bytes the definitions below are the Go functions. *)

Definition bytes_of_string (s : string) : bytes := String.list_byte_of_string s.
Definition string_of_bytes (b : bytes) : string := String.string_of_list_byte b.

Lemma string_of_bytes_of_string s : string_of_bytes (bytes_of_string s) = s.
Proof. apply String.string_of_list_byte_of_string. Qed.

Lemma bytes_of_string_of_bytes b : bytes_of_string (string_of_bytes b) = b.
Proof. apply String.list_byte_of_string_of_list_byte. Qed.

Lemma length_bytes_of_string s : List.length (bytes_of_string s) = String.length s.
Proof.
  unfold bytes_of_string, String.list_byte_of_string.
  rewrite List.length_map. induction s as [|c s IH]; simpl; congruence.
Qed.

#[export] Hint Rewrite string_of_bytes_of_string bytes_of_string_of_bytes : gobytes.

Definition upper_ascii (c : ascii) : ascii :=
  let n := nat_of_ascii c in
  if ((97 <=? n) && (n <=? 122))%nat then ascii_of_nat (n - 32) else c.

Definition lower_ascii (c : ascii) : ascii :=
  let n := nat_of_ascii c in
  if ((65 <=? n) && (n <=? 90))%nat then ascii_of_nat (n + 32) else c.

Fixpoint string_map (f : ascii -> ascii) (s : string) : string :=
  match s with
  | EmptyString => EmptyString
  | String c s' => String (f c) (string_map f s')
  end.

Definition ToUpper (s : string) : string := string_map upper_ascii s.
Definition ToLower (s : string) : string := string_map lower_ascii s.
Definition EqualFold (s t : string) : bool := String.eqb (ToLower s) (ToLower t).

(** ASCII white space of [strings.TrimSpace]: tab, line feed, vertical tab, form feed, carriage
    return, space. *)
Definition is_space (c : ascii) : bool :=
  let n := nat_of_ascii c in
  (((9 <=? n) && (n <=? 13)) || (n =? 32))%nat.

Fixpoint trim_left (s : string) : string :=
  match s with
  | EmptyString => EmptyString
  | String c s' => if is_space c then trim_left s' else s
  end.

Fixpoint string_rev_app (s acc : string) : string :=
  match s with
  | EmptyString => acc
  | String c s' => string_rev_app s' (String c acc)
  end.
Definition string_rev (s : string) : string := string_rev_app s EmptyString.

Definition TrimSpace (s : string) : string :=
  string_rev (trim_left (string_rev (trim_left s))).

Definition HasPrefix (s p : string) : bool := String.prefix p s.

Definition HasSuffix (s p : string) : bool :=
  ((String.length p <=? String.length s)%nat &&
   String.eqb (String.substring (String.length s - String.length p) (String.length p) s) p).

(** [strings.Contains(s, c)] and [strings.Split(s, c)] for a separator of one byte. *)
Fixpoint contains_char (c : ascii) (s : string) : bool :=
  match s with
  | EmptyString => false
  | String d s' => Ascii.eqb d c || contains_char c s'
  end.

Fixpoint split_char (c : ascii) (s : string) : list string :=
  match s with
  | EmptyString => [EmptyString]
  | String d s' =>
      if Ascii.eqb d c then EmptyString :: split_char c s'
      else match split_char c s' with
           | [] => [String d EmptyString]
           | w :: ws => String d w :: ws
           end
  end.

(** [strings.Join]. *)
Fixpoint Join (sep : string) (l : list string) : string :=
  match l with
  | [] => EmptyString
  | [s] => s
  | s :: l' => s +:+ sep +:+ Join sep l'
  end.

Lemma string_app_cons c (s t : string) : String c s +:+ t = String c (s +:+ t).
Proof. reflexivity. Qed.

Lemma string_app_assoc (s t u : string) : (s +:+ t) +:+ u = s +:+ (t +:+ u).
Proof. induction s as [|c s IH]; [done|]. by rewrite !string_app_cons, IH. Qed.

Lemma string_app_nil_r (s : string) : s +:+ EmptyString = s.
Proof. induction s as [|c s IH]; [done|]. by rewrite !string_app_cons, IH. Qed.

Lemma upper_ascii_idemp c : upper_ascii (upper_ascii c) = upper_ascii c.
Proof. destruct c as [[] [] [] [] [] [] [] []]; reflexivity. Qed.

Lemma lower_upper_ascii c : lower_ascii (upper_ascii c) = lower_ascii c.
Proof. destruct c as [[] [] [] [] [] [] [] []]; reflexivity. Qed.

Lemma upper_lower_ascii c : upper_ascii (lower_ascii c) = upper_ascii c.
Proof. destruct c as [[] [] [] [] [] [] [] []]; reflexivity. Qed.

Lemma ToUpper_idemp s : ToUpper (ToUpper s) = ToUpper s.
Proof.
  unfold ToUpper. induction s as [|c s IH]; [done|].
  cbn [string_map]. by rewrite IH, upper_ascii_idemp.
Qed.

Lemma ToLower_ToUpper s : ToLower (ToUpper s) = ToLower s.
Proof.
  unfold ToLower, ToUpper. induction s as [|c s IH]; [done|].
  cbn [string_map]. by rewrite IH, lower_upper_ascii.
Qed.

Lemma ToUpper_ToLower s : ToUpper (ToLower s) = ToUpper s.
Proof.
  unfold ToLower, ToUpper. induction s as [|c s IH]; [done|].
  cbn [string_map]. by rewrite IH, upper_lower_ascii.
Qed.

Lemma EqualFold_upper s t : EqualFold s t = true <-> ToUpper s = ToUpper t.
Proof.
  unfold EqualFold. rewrite String.eqb_eq. split; intros H.
  - by rewrite <- (ToUpper_ToLower s), H, ToUpper_ToLower.
  - by rewrite <- (ToLower_ToUpper s), H, ToLower_ToUpper.
Qed.

Lemma EqualFold_refl s : EqualFold s s = true.
Proof. unfold EqualFold. apply String.eqb_refl. Qed.

Lemma EqualFold_sym s t : EqualFold s t = EqualFold t s.
Proof. unfold EqualFold. apply String.eqb_sym. Qed.

Lemma ToUpper_app s t : ToUpper (s +:+ t) = ToUpper s +:+ ToUpper t.
Proof.
  unfold ToUpper. induction s as [|c s IH]; [done|].
  rewrite string_app_cons. cbn [string_map]. by rewrite string_app_cons, IH.
Qed.

(** ** Time

    A [time.Time] is the number of nanoseconds since the Unix epoch; [zeroTime] is Go's zero
    value, the first instant of year 1. A [time.Duration] is a number of nanoseconds of 64 bits. *)

Abbreviation Time := Z (only parsing).
Abbreviation Duration := Z (only parsing).

Definition second : Z := 1000000000.
Definition zeroTime : Time := -62135596800 * second.

Definition IsZero (t : Time) : bool := t =? zeroTime.
Definition Before (t u : Time) : bool := t <? u.
Definition After (t u : Time) : bool := u <? t.
Definition Unix (t : Time) : Z := t / second.
Definition UnixTime (s : Z) : Time := s * second.

(** [t.Sub(u)] saturates at the ends of the range of a Duration. *)
Definition Sub (t u : Time) : Duration := Z.max min_int64 (Z.min max_int64 (t - u)).

Lemma Unix_UnixTime s : Unix (UnixTime s) = s.
Proof. unfold Unix, UnixTime, second. by rewrite Z.div_mul. Qed.

Lemma UnixTime_Unix_le t : UnixTime (Unix t) <= t < UnixTime (Unix t) + second.
Proof. unfold Unix, UnixTime, second. pose proof (Z.div_mod t 1000000000). pose proof (Z.mod_pos_bound t 1000000000). lia. Qed.

(** The skew test [skew := now.Sub(t); skew > d || skew < -d]. *)
Definition skewed (now t d : Z) : bool := (d <? Sub now t) || (Sub now t <? - d).

Lemma skewed_false now t d :
  0 <= d < max_int64 -> skewed now t d = false <-> Z.abs (now - t) <= d.
Proof.
  unfold skewed, Sub, max_int64, min_int64. intros.
  rewrite orb_false_iff, !Z.ltb_ge. lia.
Qed.

(** ** Results of fallible code

    Go code returns a value or an error; a [Panic] is the third outcome of the operations whose
    Go counterpart panics (a slice expression out of range, [MustParseName]). *)

Inductive outcome (E A : Type) : Type :=
| Ok (a : A)
| Err (e : E)
| Panic.
Arguments Ok {E A} a.
Arguments Err {E A} e.
Arguments Panic {E A}.

#[global] Instance outcome_ret {E} : MRet (outcome E) := fun A a => Ok a.
#[global] Instance outcome_bind {E} : MBind (outcome E) := fun A B f m =>
  match m with
  | Ok a => f a
  | Err e => Err e
  | Panic => Panic
  end.

(** A value or an error from an option, [guard] for an early return. *)
Definition or_err {E A} (e : E) (o : option A) : outcome E A :=
  match o with Some a => Ok a | None => Err e end.
Definition err_if {E} (b : bool) (e : E) : outcome E unit := if b then Err e else Ok tt.

(** Stateful code: the state survives an error, as the effects before an early return do. *)
Definition M (St E A : Type) : Type := St -> outcome E A * St.

#[global] Instance M_ret {St E} : MRet (M St E) := fun A a s => (Ok a, s).
#[global] Instance M_bind {St E} : MBind (M St E) := fun A B f m s =>
  match m s with
  | (Ok a, s') => f a s'
  | (Err e, s') => (Err e, s')
  | (Panic, s') => (Panic, s')
  end.

Definition lift {St E A} (m : outcome E A) : M St E A := fun s => (m, s).
Definition get {St E} : M St E St := fun s => (Ok s, s).
Definition put {St E} (s : St) : M St E unit := fun _ => (Ok tt, s).
Definition throw {St E A} (e : E) : M St E A := fun s => (Err e, s).
Definition throw_if {St E} (b : bool) (e : E) : M St E unit := lift (err_if b e).

Section Outcome.
Context {E A B : Type}.

Lemma outcome_bind_Ok (m : outcome E A) (f : A -> outcome E B) b :
  (x ← m; f x) = Ok b <-> exists a, m = Ok a /\ f a = Ok b.
Proof.
  unfold mbind, outcome_bind. destruct m; split; [eauto| |done| |done|].
  all: intros; destruct_and?; naive_solver.
Qed.

Lemma Ok_inj (a b : A) : Ok (E := E) a = Ok b -> b = a.
Proof. naive_solver. Qed.

Lemma or_err_Ok (e : E) (o : option A) a : or_err e o = Ok a <-> o = Some a.
Proof. destruct o; simpl; naive_solver. Qed.

Lemma err_if_Ok (c : bool) (e : E) u : err_if c e = Ok u <-> c = false.
Proof. destruct c, u; simpl; naive_solver. Qed.
End Outcome.

Lemma bind_run {St E A B} (f : A -> M St E B) (m : M St E A) (s : St) :
  mbind f m s = match m s with (Ok a, s') => f a s' | (Err e, s') => (Err e, s') | (Panic, s') => (Panic, s') end.
Proof. done. Qed.

Section Stateful.
Context {St E A B : Type}.

Lemma M_bind_Ok (m : M St E A) (f : A -> M St E B) b s s'' :
  (x ← m; f x) s = (Ok b, s'') <-> exists a s', m s = (Ok a, s') /\ f a s' = (Ok b, s'').
Proof.
  unfold mbind, M_bind. destruct (m s) as [[a|e|] s']; split; intros; naive_solver.
Qed.

Lemma M_lift_Ok (o : outcome E A) a (s s' : St) : lift o s = (Ok a, s') <-> o = Ok a /\ s' = s.
Proof. unfold lift. naive_solver. Qed.

Lemma M_ret_Ok (a a' : A) (s s' : St) :
  mret (M := M St E) a s = (Ok a', s') <-> a' = a /\ s' = s.
Proof. unfold mret, M_ret. naive_solver. Qed.

Lemma M_pair_Ok (a a' : A) (s s' : St) : (Ok (E := E) a, s) = (Ok a', s') <-> a' = a /\ s' = s.
Proof. naive_solver. Qed.

Lemma M_throw_if_Ok (c : bool) (e : E) u (s s' : St) :
  throw_if c e s = (Ok u, s') <-> c = false /\ s' = s.
Proof. unfold throw_if, lift. destruct c, u; simpl; naive_solver. Qed.
End Stateful.

(** ** Tactics *)

(** Turn boolean tests of the code into the propositions they decide. *)
Ltac simp_bool :=
  repeat match goal with
  | H : (_ && _) = true |- _ => apply andb_true_iff in H as [? ?]
  | H : (_ || _) = false |- _ => apply orb_false_iff in H as [? ?]
  | H : negb _ = true |- _ => apply negb_true_iff in H
  | H : negb _ = false |- _ => apply negb_false_iff in H
  | H : (_ <? _) = true |- _ => apply Z.ltb_lt in H
  | H : (_ <? _) = false |- _ => apply Z.ltb_ge in H
  | H : (_ <=? _) = true |- _ => apply Z.leb_le in H
  | H : (_ <=? _) = false |- _ => apply Z.leb_gt in H
  | H : (_ =? _) = true |- _ => apply Z.eqb_eq in H
  | H : (_ =? _) = false |- _ => apply Z.eqb_neq in H
  | H : bool_decide _ = true |- _ => apply bool_decide_eq_true_1 in H
  | H : bool_decide _ = false |- _ => apply bool_decide_eq_false_1 in H
  | H : String.eqb _ _ = true |- _ => apply String.eqb_eq in H
  | H : String.eqb _ _ = false |- _ => apply String.eqb_neq in H
  end.

(** Decompose a successful run into the runs of its parts. *)
Ltac run_inv :=
  repeat match goal with
  | H : (_ ← _; _) = Ok _ |- _ => apply outcome_bind_Ok in H as (? & ? & H); cbv beta in H
  | H : mbind _ _ = Ok _ |- _ => apply outcome_bind_Ok in H as (? & ? & H); cbv beta in H
  | H : mbind _ _ _ = (Ok _, _) |- _ => apply M_bind_Ok in H as (? & ? & ? & H); cbv beta in H
  | H : lift _ _ = (Ok _, _) |- _ => apply M_lift_Ok in H as [? ->]
  | H : throw_if _ _ _ = (Ok _, _) |- _ => apply M_throw_if_Ok in H as [? ->]
  | H : mret _ _ = (Ok _, _) |- _ => apply M_ret_Ok in H as [-> ->]
  | H : mret _ = Ok _ |- _ => unfold mret, outcome_ret in H
  | H : or_err _ _ = Ok _ |- _ => apply or_err_Ok in H
  | H : err_if _ _ = Ok _ |- _ => apply err_if_Ok in H
  | H : throw _ _ = (Ok _, _) |- _ => discriminate H
  | H : Ok _ = Ok _ |- _ => apply Ok_inj in H; try subst
  | H : Err _ = Ok _ |- _ => discriminate H
  | H : Panic = Ok _ |- _ => discriminate H
  | H : (Ok _, _) = (Ok _, _) |- _ => apply M_pair_Ok in H as [? ?]; try subst
  | H : (Err _, _) = (Ok _, _) |- _ => discriminate H
  | H : (Panic, _) = (Ok _, _) |- _ => discriminate H
  end.

(** Case analysis on the test of an [if] in a hypothesis. *)
Ltac case_if :=
  match goal with
  | H : context [if ?b then _ else _] |- _ => destruct b eqn:?
  | |- context [if ?b then _ else _] => destruct b eqn:?
  end.

(** ** Slices *)

(** [b[lo:hi]] for an expression whose backing array ends with [b]. *)
Definition slice {A} (lo hi : Z) (b : list A) : option (list A) :=
  if (0 <=? lo) && (lo <=? hi) && (hi <=? Z.of_nat (List.length b))
  then Some (take (Z.to_nat (hi - lo)) (drop (Z.to_nat lo) b))
  else None.

(** [copy(dst[off:], src)]: overwrite as much of [dst] from [off] as [src] fills. *)
Definition blit {A} (dst : list A) (off : nat) (src : list A) : list A :=
  take off dst ++ take (List.length dst - off) src ++ drop (off + List.length src) dst.

Lemma length_blit {A} (dst : list A) off src :
  (off <= List.length dst)%nat -> List.length (blit dst off src) = List.length dst.
Proof.
  intros H. unfold blit. rewrite !length_app, !length_take, length_drop. lia.
Qed.

Lemma lookup_blit_in {A} (dst src : list A) off i :
  (off + List.length src <= List.length dst)%nat -> (i < List.length src)%nat ->
  blit dst off src !! (off + i)%nat = src !! i.
Proof.
  intros H Hi. unfold blit.
  rewrite lookup_app_r by (rewrite length_take; lia).
  rewrite length_take, lookup_app_l by (rewrite length_take; lia).
  rewrite lookup_take_lt by lia. f_equal. lia.
Qed.

Lemma lookup_blit_out {A} (dst src : list A) off i :
  (off + List.length src <= List.length dst)%nat ->
  (i < off \/ off + List.length src <= i)%nat ->
  blit dst off src !! i = dst !! i.
Proof.
  intros H Hi. unfold blit. destruct Hi as [Hi|Hi].
  - rewrite lookup_app_l by (rewrite length_take; lia). by rewrite lookup_take_lt by lia.
  - rewrite lookup_app_r by (rewrite length_take; lia).
    rewrite length_take.
    rewrite lookup_app_r by (rewrite length_take; lia).
    rewrite length_take, lookup_drop. f_equal. lia.
Qed.

(** ** Lists *)

Definition contains_Z (x : Z) (l : list Z) : bool := existsb (Z.eqb x) l.

Lemma contains_Z_spec x l : contains_Z x l = true <-> x ∈ l.
Proof.
  unfold contains_Z. rewrite existsb_exists. split.
  - intros (y & Hin & ->%Z.eqb_eq). by apply list_elem_of_In.
  - intros H. exists x. split; [by apply list_elem_of_In|]. apply Z.eqb_refl.
Qed.

Lemma find_Some_elem {A} (f : A -> bool) l x : List.find f l = Some x -> x ∈ l /\ f x = true.
Proof. intros H. apply List.find_some in H as [H ?]. split; [|done]. by apply list_elem_of_In. Qed.

Lemma find_None_elem {A} (f : A -> bool) l : List.find f l = None -> forall x, x ∈ l -> f x = false.
Proof. intros H x Hx%list_elem_of_In. by eapply List.find_none. Qed.

(** A key that identifies the rows of a table still does after some of them are dropped. *)
Lemma NoDup_map_filter {A B} (k : A -> B) (P : A -> Prop) `{!forall x, Decision (P x)} l :
  NoDup (k <$> l) -> NoDup (k <$> filter P l).
Proof.
  induction l as [|x l IH]; [done|]. rewrite fmap_cons, NoDup_cons. intros [Hx Hl].
  rewrite filter_cons. case_decide; [|by apply IH].
  rewrite fmap_cons, NoDup_cons. split; [|by apply IH].
  rewrite list_elem_of_fmap. intros (y & Hk & Hy%list_elem_of_filter).
  apply Hx, list_elem_of_fmap. naive_solver.
Qed.

Lemma filter_none {A} (P : A -> Prop) `{!forall x, Decision (P x)} (l : list A) :
  (forall x, x ∈ l -> ~ P x) -> filter P l = [].
Proof.
  induction l as [|x l IH]; [done|]. intros Hl. rewrite filter_cons_False by (apply Hl; left).
  apply IH. intros y Hy. apply Hl. by right.
Qed.

Lemma filter_all {A} (P : A -> Prop) `{!forall x, Decision (P x)} (l : list A) :
  (forall x, x ∈ l -> P x) -> filter P l = l.
Proof.
  induction l as [|x l IH]; [done|]. intros Hl. rewrite filter_cons_True by (apply Hl; left).
  f_equal. apply IH. intros y Hy. apply Hl. by right.
Qed.

Lemma filter_ext_elem {A} (P Q : A -> Prop) `{!forall x, Decision (P x)} `{!forall x, Decision (Q x)} (l : list A) :
  (forall x, x ∈ l -> P x <-> Q x) -> filter P l = filter Q l.
Proof.
  induction l as [|x l IH]; [done|]. intros Hl.
  assert (IHl : filter P l = filter Q l) by (apply IH; intros y Hy; apply Hl; by right).
  destruct (decide (P x)) as [HP|HP].
  - rewrite !filter_cons_True; [by rewrite IHl|by apply Hl; [left|]|done].
  - rewrite !filter_cons_False; [done|by rewrite <- (Hl x) by left|done].
Qed.

(** ** Maps

    The order Go ranges over a map in: some order, each entry once. *)

Class MapRange : Type := map_range : forall A, gmap string A -> list (string * A).

Class MapRangeLaws `(MapRange) : Prop := map_range_perm A (m : gmap string A) : map_range A m ≡ₚ map_to_list m.

(** ** Sorting

    [ORDER BY] and the sort functions of the standard library, by insertion: elements that compare
    equal keep their order. *)

Fixpoint insert_by {A} (le : A -> A -> bool) (x : A) (l : list A) : list A :=
  match l with
  | [] => [x]
  | y :: l' => if le x y then x :: l else y :: insert_by le x l'
  end.

Definition sort_by {A} (le : A -> A -> bool) (l : list A) : list A := foldr (insert_by le) [] l.

Lemma insert_by_perm {A} (le : A -> A -> bool) x l : insert_by le x l ≡ₚ x :: l.
Proof.
  induction l as [|y l IH]; simpl; [done|]. case_match; [done|]. rewrite IH. constructor.
Qed.

Lemma sort_by_perm {A} (le : A -> A -> bool) l : sort_by le l ≡ₚ l.
Proof. induction l as [|x l IH]; simpl; [done|]. by rewrite insert_by_perm, IH. Qed.

(** A list already in order is left as it is. *)
Lemma sort_by_sorted {A} (le : A -> A -> bool) l : Sorted (fun x y => le x y = true) l -> sort_by le l = l.
Proof.
  induction 1 as [|x l Hs IH Hd]; [done|]. simpl. rewrite IH. destruct Hd as [|y l' Hle]; [done|].
  simpl. by rewrite Hle.
Qed.

Lemma elem_of_sort_by {A} (le : A -> A -> bool) l x : x ∈ sort_by le l <-> x ∈ l.
Proof. by rewrite sort_by_perm. Qed.

Lemma insert_by_sorted {A} (le : A -> A -> bool) x l :
  (forall a b, le a b = false -> le b a = true) ->
  Sorted (fun x y => le x y = true) l -> Sorted (fun x y => le x y = true) (insert_by le x l).
Proof.
  intros Htot. induction 1 as [|y l Hs IH Hd]; simpl; [by repeat constructor|].
  destruct (le x y) eqn:E; [by constructor; [constructor|constructor]|].
  constructor; [done|]. destruct Hd as [|z l' Hle]; simpl; [by constructor; apply Htot|].
  case_match; constructor; [by apply Htot|done].
Qed.

Lemma sorted_sort_by {A} (le : A -> A -> bool) l :
  (forall a b, le a b = false -> le b a = true) -> Sorted (fun x y => le x y = true) (sort_by le l).
Proof. intros Htot. induction l as [|x l IH]; simpl; [constructor|]. by apply insert_by_sorted. Qed.
