(* ===== verification/Text.v ===== *)
(** * Text: what the components use of package [strings], and the lemmas they share

    Suffixes, prefixes and separators of strings; the printed form of integers. *)

From S2P Require Import Prelude.

(** ** Operations *)

(** [strings.CutSuffix], [strings.TrimSuffix], [strings.CutPrefix], [strings.TrimPrefix]. *)
Definition CutSuffix (s suf : string) : option string :=
  if HasSuffix s suf then Some (String.substring 0 (String.length s - String.length suf) s) else None.
Definition TrimSuffix (s suf : string) : string := default s (CutSuffix s suf).

Definition CutPrefix (s p : string) : option string :=
  if HasPrefix s p then Some (String.substring (String.length p) (String.length s - String.length p) s) else None.
Definition TrimPrefix (s p : string) : string := default s (CutPrefix s p).

(** [strings.Cut] at a separator of one byte. *)
Fixpoint Cut (c : ascii) (s : string) : option (string * string) :=
  match s with
  | EmptyString => None
  | String d s' =>
      if Ascii.eqb d c then Some (EmptyString, s')
      else match Cut c s' with Some (a, b) => Some (String d a, b) | None => None end
  end.

Definition is_empty (s : string) : bool := (String.length s =? 0)%nat.
Definition non_empty (s : string) : bool := (0 <? String.length s)%nat.

(** [strconv.ParseUint(s, 10, bits)]. *)
Fixpoint parse_digits (acc : Z) (s : string) : option Z :=
  match s with
  | EmptyString => Some acc
  | String c s' =>
      let d := Z.of_nat (nat_of_ascii c) - 48 in
      if (0 <=? d) && (d <=? 9) then parse_digits (acc * 10 + d) s' else None
  end.

Definition ParseUint (bits : Z) (s : string) : option Z :=
  if (String.length s =? 0)%nat then None
  else match parse_digits 0 s with
       | Some v => if v <? 2 ^ bits then Some v else None
       | None => None
       end.

(** The value of a hexadecimal digit. *)
Definition hex_digit (c : ascii) : option Z :=
  let n := Z.of_nat (nat_of_ascii c) in
  if (48 <=? n) && (n <=? 57) then Some (n - 48)
  else if (97 <=? n) && (n <=? 102) then Some (n - 87)
  else if (65 <=? n) && (n <=? 70) then Some (n - 55) else None.

(** ** Length and substrings *)

Lemma length_app_string (s t : string) :
  String.length (s +:+ t) = (String.length s + String.length t)%nat.
Proof. induction s as [|c s IH]; [done|]. rewrite string_app_cons. simpl. by rewrite IH. Qed.

Lemma string_length_0 (s : string) : (String.length s =? 0)%nat = true <-> s = EmptyString.
Proof. destruct s; split; done. Qed.

Lemma is_empty_spec (s : string) : is_empty s = true <-> s = EmptyString.
Proof. apply string_length_0. Qed.

Lemma non_empty_spec (s : string) : non_empty s = true <-> s <> EmptyString.
Proof. destruct s; split; done. Qed.

Lemma substring_prefix (p t : string) :
  String.substring 0 (String.length p) (p +:+ t) = p.
Proof.
  induction p as [|c p IH]; [by destruct t|].
  rewrite string_app_cons. simpl. by rewrite IH.
Qed.

Lemma substring_all (s : string) : String.substring 0 (String.length s) s = s.
Proof. rewrite <- (string_app_nil_r s) at 2. apply substring_prefix. Qed.

Lemma substring_suffix (p t : string) :
  String.substring (String.length p) (String.length t) (p +:+ t) = t.
Proof.
  induction p as [|c p IH]; [apply substring_all|].
  rewrite string_app_cons. simpl. by rewrite IH.
Qed.

Lemma substring_split (s : string) n : (n <= String.length s)%nat ->
  s = String.substring 0 n s +:+ String.substring n (String.length s - n) s.
Proof.
  revert n. induction s as [|c s IH]; intros n Hn.
  - assert (n = 0%nat) as -> by (simpl in Hn; lia). done.
  - destruct n as [|n].
    + replace (String.length (String c s) - 0)%nat with (String.length (String c s)) by lia. by rewrite substring_all.
    + cbn [String.substring String.length Nat.sub]. rewrite string_app_cons. f_equal. apply IH. simpl in Hn. lia.
Qed.

Lemma length_substring (s : string) n m : (n + m <= String.length s)%nat -> String.length (String.substring n m s) = m.
Proof.
  revert n m. induction s as [|c s IH]; intros n m Hn; simpl in Hn.
  - by assert (n = 0%nat /\ m = 0%nat) as [-> ->] by lia.
  - destruct n as [|n]; [destruct m as [|m]; [done|]; cbn; by rewrite (IH 0%nat) by lia|]. cbn. apply IH. lia.
Qed.

Lemma string_app_inj_r (s t u : string) : s +:+ u = t +:+ u -> s = t.
Proof.
  revert t. induction s as [|c s IH]; intros [|d t]; rewrite ?string_app_cons; intros E; [done| | |].
  - apply (f_equal String.length) in E. cbn [String.length] in E. rewrite !length_app_string in E. cbn [String.length] in E. lia.
  - apply (f_equal String.length) in E. cbn [String.length] in E. rewrite !length_app_string in E. cbn [String.length] in E. lia.
  - injection E as -> E. f_equal. by apply IH.
Qed.

(** ** Suffixes and prefixes *)

Lemma HasSuffix_spec (s suf : string) : HasSuffix s suf = true <-> exists p, s = p +:+ suf.
Proof.
  unfold HasSuffix. rewrite andb_true_iff, Nat.leb_le, String.eqb_eq. split.
  - intros [Hle Heq]. exists (String.substring 0 (String.length s - String.length suf) s).
    rewrite (substring_split s (String.length s - String.length suf)) at 1 by lia. f_equal.
    rewrite <- Heq at 3. f_equal. lia.
  - intros [p ->]. rewrite length_app_string. split; [lia|].
    replace (String.length p + String.length suf - String.length suf)%nat with (String.length p) by lia.
    apply substring_suffix.
Qed.

Lemma CutSuffix_spec (s suf p : string) : CutSuffix s suf = Some p <-> s = p +:+ suf.
Proof.
  unfold CutSuffix. destruct (HasSuffix s suf) eqn:E.
  - apply HasSuffix_spec in E as [q ->]. rewrite length_app_string.
    replace (String.length q + String.length suf - String.length suf)%nat with (String.length q) by lia.
    rewrite substring_prefix. split; [by intros [= ->]|]. intros H%string_app_inj_r. by subst.
  - split; [done|]. intros ->. by rewrite (proj2 (HasSuffix_spec _ _)) in E by eauto.
Qed.

Lemma HasPrefix_app (p t : string) : HasPrefix (p +:+ t) p = true.
Proof.
  unfold HasPrefix. induction p as [|c p IH]; [by destruct t|].
  rewrite string_app_cons. simpl. destruct (ascii_dec c c); [done|congruence].
Qed.

Lemma HasPrefix_spec (s p : string) : HasPrefix s p = true <-> exists t, s = p +:+ t.
Proof.
  split; [|intros [t ->]; apply HasPrefix_app]. unfold HasPrefix. revert s.
  induction p as [|c p IH]; intros [|d s]; simpl; [by eexists|by eexists|done|].
  destruct (ascii_dec c d) as [->|]; [|done]. intros [t ->]%IH. by exists t.
Qed.

(** ** Separators *)

Lemma contains_char_app c (s t : string) : contains_char c (s +:+ t) = contains_char c s || contains_char c t.
Proof. induction s as [|d s IH]; [done|]. rewrite string_app_cons. simpl. by rewrite IH, orb_assoc. Qed.

(** Trimming leaves the characters that are no space. *)
Lemma contains_char_rev c s acc : contains_char c (string_rev_app s acc) = contains_char c s || contains_char c acc.
Proof.
  revert acc. induction s as [|d s IH]; intros acc; [done|]. cbn [string_rev_app contains_char]. rewrite IH. cbn [contains_char].
  by rewrite orb_assoc, (orb_comm (contains_char c s)).
Qed.

Lemma contains_char_trim_left c s : is_space c = false -> contains_char c (trim_left s) = contains_char c s.
Proof.
  intros Hc. induction s as [|d s IH]; [done|]. cbn [trim_left]. destruct (is_space d) eqn:E; [|done]. rewrite IH. cbn [contains_char].
  destruct (Ascii.eqb_spec d c) as [->|]; [congruence|done].
Qed.

Lemma contains_char_TrimSpace c s : is_space c = false -> contains_char c (TrimSpace s) = contains_char c s.
Proof.
  intros Hc. unfold TrimSpace, string_rev. rewrite contains_char_rev, orb_false_r, contains_char_trim_left, contains_char_rev, orb_false_r by done.
  by apply contains_char_trim_left.
Qed.

(** A separator that is in neither string tells the two apart. *)
Lemma string_sep_inj (c : ascii) (s s' t t' : string) :
  contains_char c s = false -> contains_char c s' = false ->
  s +:+ String c t = s' +:+ String c t' -> s = s' /\ t = t'.
Proof.
  revert s'. induction s as [|d s IH]; intros [|d' s'] Hs Hs'; rewrite ?string_app_cons; simpl in *.
  - intros [= ->]. done.
  - intros [= <- _]. by rewrite Ascii.eqb_refl in Hs'.
  - intros [= -> _]. by rewrite Ascii.eqb_refl in Hs.
  - intros [= -> Heq]. apply orb_false_iff in Hs as [? ?], Hs' as [? ?].
    destruct (IH s') as [-> ->]; done.
Qed.

Lemma split_char_app c (w t : string) : contains_char c w = false ->
  split_char c (w +:+ String c t) = w :: split_char c t.
Proof.
  induction w as [|d w IH]; simpl; rewrite ?string_app_cons; simpl; [by rewrite Ascii.eqb_refl|].
  intros [-> Hw]%orb_false_iff. by rewrite IH.
Qed.

Lemma split_char_none c (w : string) : contains_char c w = false -> split_char c w = [w].
Proof. induction w as [|d w IH]; simpl; [done|]. intros [-> Hw]%orb_false_iff. by rewrite IH. Qed.

(** [strings.Split] undoes [strings.Join]. *)
Lemma split_char_Join c (ws : list string) : ws <> [] -> Forall (fun w => contains_char c w = false) ws ->
  split_char c (Join (String c EmptyString) ws) = ws.
Proof.
  induction ws as [|w ws IH]; [done|]. intros _ [Hw Hws]%Forall_cons. destruct ws as [|v ws]; [by apply split_char_none|].
  cbn [Join]. rewrite string_app_cons. change (EmptyString +:+ Join (String c EmptyString) (v :: ws))
    with (Join (String c EmptyString) (v :: ws)).
  rewrite split_char_app by done. f_equal. by apply IH.
Qed.

(** ** Printed integers: digits and a sign *)

Definition is_digit (c : ascii) : bool := ((48 <=? nat_of_ascii c) && (nat_of_ascii c <=? 57))%nat.

Lemma pretty_N_char_digit (x : N) : is_digit (pretty_N_char x) = true.
Proof. unfold pretty_N_char. repeat case_match; reflexivity. Qed.

Lemma pretty_N_go_char c (x : N) s : is_digit c = false -> contains_char c s = false -> contains_char c (pretty_N_go x s) = false.
Proof.
  intros Hc. revert s. induction (N.lt_wf_0 x) as [x _ IH]. intros s Hs.
  destruct (decide (0 < x)%N) as [Hx|Hx].
  - rewrite pretty_N_go_step by done. apply IH; [by apply N.div_lt|].
    cbn [contains_char]. rewrite Hs. destruct (Ascii.eqb_spec (pretty_N_char (x mod 10)) c) as [E|]; [|done].
    rewrite <- E, pretty_N_char_digit in Hc. done.
  - replace x with 0%N by lia. by rewrite pretty_N_go_0.
Qed.

Lemma pretty_N_no_char c (x : N) : is_digit c = false -> contains_char c (pretty x) = false.
Proof.
  intros Hc. unfold pretty, pretty_N. case_decide; [|by apply pretty_N_go_char].
  cbn [contains_char]. destruct (Ascii.eqb_spec "0"%char c) as [E|]; [|done]. by rewrite <- E in Hc.
Qed.

Lemma pretty_Z_no_char c (z : Z) : is_digit c = false -> c <> "-"%char -> contains_char c (pretty z) = false.
Proof.
  intros Hc Hm. unfold pretty, pretty_Z. destruct z as [|p|p].
  - cbn [contains_char]. destruct (Ascii.eqb_spec "0"%char c) as [E|]; [|done]. by rewrite <- E in Hc.
  - by apply (pretty_N_no_char c (N.pos p)).
  - rewrite contains_char_app. cbn [contains_char]. destruct (Ascii.eqb_spec "-"%char c) as [E|]; [by destruct Hm|].
    by apply (pretty_N_no_char c (N.pos p)).
Qed.

(** ** Strings of a class of characters *)

Fixpoint all_chars (f : ascii -> bool) (s : string) : bool :=
  match s with
  | EmptyString => true
  | String c s' => f c && all_chars f s'
  end.

Lemma all_chars_app f (s t : string) : all_chars f (s +:+ t) = all_chars f s && all_chars f t.
Proof. induction s as [|c s IH]; [done|]. rewrite string_app_cons. simpl. by rewrite IH, andb_assoc. Qed.

Lemma all_chars_impl (f g : ascii -> bool) s : (forall c, f c = true -> g c = true) -> all_chars f s = true -> all_chars g s = true.
Proof.
  intros Hfg. induction s as [|c s IH]; [done|]. cbn [all_chars]. rewrite !andb_true_iff.
  intros [Hc Hs]. split; [by apply Hfg|by apply IH].
Qed.

Lemma all_chars_no_char f c s : f c = false -> all_chars f s = true -> contains_char c s = false.
Proof.
  intros Hc. induction s as [|d s IH]; [done|]. cbn [all_chars contains_char]. intros [Hd Hs]%andb_true_iff.
  rewrite IH by done. destruct (Ascii.eqb_spec d c) as [->|]; [congruence|done].
Qed.

Lemma all_chars_Join f sep (ws : list string) :
  all_chars f sep = true -> Forall (fun w => all_chars f w = true) ws -> all_chars f (Join sep ws) = true.
Proof.
  intros Hsep. induction 1 as [|w ws Hw Hws IH]; [done|]. destruct ws as [|v ws]; [done|].
  change (Join sep (w :: v :: ws)) with (w +:+ sep +:+ Join sep (v :: ws)).
  by rewrite !all_chars_app, Hw, Hsep, IH.
Qed.

Lemma pretty_N_go_digits (x : N) s : all_chars is_digit s = true -> all_chars is_digit (pretty_N_go x s) = true.
Proof.
  revert s. induction (N.lt_wf_0 x) as [x _ IH]. intros s Hs. destruct (decide (0 < x)%N) as [Hx|Hx].
  - rewrite pretty_N_go_step by done. apply IH; [by apply N.div_lt|]. cbn [all_chars]. by rewrite pretty_N_char_digit.
  - replace x with 0%N by lia. by rewrite pretty_N_go_0.
Qed.

Lemma pretty_Z_digits (z : Z) : 0 <= z -> all_chars is_digit (pretty z) = true.
Proof.
  intros Hz. assert (HN : forall n : N, all_chars is_digit (pretty n) = true).
  { intros n. unfold pretty, pretty_N. case_decide; [done|]. by apply pretty_N_go_digits. }
  destruct z as [|p|p]; [done|apply (HN (N.pos p))|lia].
Qed.

(** ** Trimming *)

Lemma string_rev_app_spec (s acc : string) : string_rev_app s acc = string_rev s +:+ acc.
Proof.
  unfold string_rev. revert acc. induction s as [|c s IH]; intros acc; [done|]. cbn [string_rev_app].
  rewrite IH, (IH (String c EmptyString)), string_app_assoc. done.
Qed.

Lemma string_rev_cons c s : string_rev (String c s) = string_rev s +:+ String c EmptyString.
Proof. unfold string_rev at 1. cbn [string_rev_app]. apply string_rev_app_spec. Qed.

Lemma string_rev_snoc s c : string_rev (s +:+ String c EmptyString) = String c (string_rev s).
Proof. induction s as [|d s IH]; [done|]. by rewrite string_app_cons, !string_rev_cons, IH. Qed.

Lemma string_rev_involutive s : string_rev (string_rev s) = s.
Proof. induction s as [|c s IH]; [done|]. by rewrite string_rev_cons, string_rev_snoc, IH. Qed.

Lemma all_chars_rev f s : all_chars f (string_rev s) = all_chars f s.
Proof.
  induction s as [|c s IH]; [done|]. rewrite string_rev_cons, all_chars_app, IH. simpl.
  by rewrite andb_true_r, andb_comm.
Qed.

Lemma TrimSpace_id s : all_chars (fun c => negb (is_space c)) s = true -> TrimSpace s = s.
Proof.
  assert (Hl : forall s, all_chars (fun c => negb (is_space c)) s = true -> trim_left s = s).
  { intros [|c t]; [done|]. cbn [all_chars trim_left]. intros [Hc _]%andb_true_iff. by destruct (is_space c). }
  intros Hs. unfold TrimSpace. rewrite (Hl s) by done. rewrite Hl by (by rewrite all_chars_rev).
  apply string_rev_involutive.
Qed.

Lemma string_rev_app_distr s t : string_rev (s +:+ t) = string_rev t +:+ string_rev s.
Proof.
  induction s as [|c s IH]; [by rewrite string_app_nil_r|]. by rewrite string_app_cons, !string_rev_cons, IH, string_app_assoc.
Qed.

(** A string that begins with no space. *)
Definition no_leading_space (s : string) : Prop := match s with EmptyString => True | String c _ => is_space c = false end.

Lemma trim_left_id s : no_leading_space s -> trim_left s = s.
Proof. destruct s as [|c s]; [done|]. cbn. by intros ->. Qed.
Lemma trim_left_starts s : no_leading_space (trim_left s).
Proof. induction s as [|c s IH]; [done|]. cbn [trim_left]. by destruct (is_space c) eqn:E. Qed.
Lemma trim_left_suffix s : exists p, s = p +:+ trim_left s.
Proof.
  induction s as [|c s [p IH]]; [by exists EmptyString|]. cbn [trim_left]. destruct (is_space c); [|by exists EmptyString].
  exists (String c p). by rewrite string_app_cons, <- IH.
Qed.

Lemma TrimSpace_idemp s : TrimSpace (TrimSpace s) = TrimSpace s.
Proof.
  unfold TrimSpace. set (u := trim_left s). set (v := trim_left (string_rev u)).
  assert (Hv : no_leading_space (string_rev v)).
  { destruct (trim_left_suffix (string_rev u)) as [p Hp]. fold v in Hp. apply (f_equal string_rev) in Hp.
    rewrite string_rev_involutive, string_rev_app_distr in Hp. pose proof (trim_left_starts s) as Hu. fold u in Hu. rewrite Hp in Hu.
    by destruct (string_rev v). }
  rewrite (trim_left_id (string_rev v)), string_rev_involutive, (trim_left_id v) by (done || apply trim_left_starts). done.
Qed.

(** Case is no matter of spaces. *)
Lemma is_space_upper c : is_space (upper_ascii c) = is_space c.
Proof. by destruct c as [[] [] [] [] [] [] [] []]. Qed.
Lemma trim_left_ToUpper s : trim_left (ToUpper s) = ToUpper (trim_left s).
Proof.
  induction s as [|c s IH]; [done|]. unfold ToUpper in *. cbn [string_map trim_left]. rewrite is_space_upper. by destruct (is_space c).
Qed.
Lemma string_rev_ToUpper s : string_rev (ToUpper s) = ToUpper (string_rev s).
Proof.
  induction s as [|c s IH]; [done|]. rewrite string_rev_cons, ToUpper_app, <- IH. unfold ToUpper. cbn [string_map]. apply string_rev_cons.
Qed.
Lemma TrimSpace_ToUpper s : TrimSpace (ToUpper s) = ToUpper (TrimSpace s).
Proof. unfold TrimSpace. by rewrite trim_left_ToUpper, string_rev_ToUpper, trim_left_ToUpper, string_rev_ToUpper. Qed.

Lemma ToLower_id s : all_chars (fun c => Ascii.eqb (lower_ascii c) c) s = true -> ToLower s = s.
Proof.
  unfold ToLower. induction s as [|c s IH]; [done|]. cbn [all_chars string_map].
  intros [->%Ascii.eqb_eq Hs]%andb_true_iff. by rewrite IH.
Qed.

Lemma string_snoc_inj (s t : string) c d : s +:+ String c EmptyString = t +:+ String d EmptyString -> s = t /\ c = d.
Proof.
  intros E. apply (f_equal string_rev) in E. rewrite !string_rev_snoc in E. injection E as -> E. split; [|done].
  by rewrite <- (string_rev_involutive s), E, string_rev_involutive.
Qed.

Lemma string_last (s : string) : s <> EmptyString -> exists t c, s = t +:+ String c EmptyString.
Proof.
  induction s as [|c s IH]; [done|]. intros _. destruct s as [|d s]; [by exists EmptyString, c|].
  destruct IH as (t & e & E); [done|]. exists (String c t), e. by rewrite E, string_app_cons.
Qed.

Lemma ToLower_app (s t : string) : ToLower (s +:+ t) = ToLower s +:+ ToLower t.
Proof.
  unfold ToLower. induction s as [|c s IH]; [done|].
  rewrite string_app_cons. cbn [string_map]. by rewrite string_app_cons, IH.
Qed.

Lemma lower_ascii_idemp c : lower_ascii (lower_ascii c) = lower_ascii c.
Proof. by destruct c as [[] [] [] [] [] [] [] []]. Qed.

Lemma ToLower_idemp s : ToLower (ToLower s) = ToLower s.
Proof. unfold ToLower. induction s as [|c s IH]; cbn [string_map]; [done|]. by rewrite lower_ascii_idemp, IH. Qed.

Lemma CutPrefix_app (p t : string) : CutPrefix (p +:+ t) p = Some t.
Proof.
  unfold CutPrefix. rewrite HasPrefix_app, length_app_string.
  replace (String.length p + String.length t - String.length p)%nat with (String.length t) by lia. f_equal. apply substring_suffix.
Qed.

Lemma TrimPrefix_app (p t : string) : TrimPrefix (p +:+ t) p = t.
Proof. unfold TrimPrefix. by rewrite CutPrefix_app. Qed.
