(* ===== verification/Hostport.v ===== *)
(** * Numbers, network addresses, URLs and file names as text

    What the components use of [strconv.Atoi], [net.SplitHostPort] and [net.JoinHostPort], of
    [net/url], and of [path/filepath] on Unix. *)

From S2P Require Import Prelude Text.

(** The last separator of a string. *)
Fixpoint CutLast (c : ascii) (s : string) : option (string * string) :=
  match s with
  | EmptyString => None
  | String d s' =>
      match CutLast c s' with
      | Some (a, b) => Some (String d a, b)
      | None => if Ascii.eqb d c then Some (EmptyString, s') else None
      end
  end.

Definition SplitHostPort (hostport : string) : option (string * string) :=
  '(before, port) ← CutLast ":"%char hostport;
  match hostport with
  | String "[" rest =>
      '(inside, after) ← Cut "]"%char rest;
      if String.eqb before ("[" +:+ inside +:+ "]") && negb (contains_char "["%char rest)
         && negb (contains_char "]"%char after) then Some (inside, port) else None
  | _ =>
      if contains_char ":"%char before || contains_char "["%char hostport || contains_char "]"%char hostport
      then None else Some (before, port)
  end.

(** The host [net.SplitHostPort] returns. *)
Definition SplitHost (hostport : string) : option string := fst <$> SplitHostPort hostport.

Definition JoinHostPort (host port : string) : string :=
  if contains_char ":"%char host then "[" +:+ host +:+ "]:" +:+ port else host +:+ ":" +:+ port.

(** [strconv.Atoi] at 64 bits. *)
Definition Atoi (s : string) : option Z :=
  let digits s := if is_empty s then None else parse_digits 0 s in
  v ← match s with
      | String "-" s' => Z.opp <$> digits s'
      | String "+" s' => digits s'
      | _ => digits s
      end;
  if (min_int64 <=? v) && (v <=? max_int64) then Some v else None.

Example SplitHost_sample :
  SplitHost "192.0.2.7:389" = Some "192.0.2.7" /\ SplitHost "[2001:db8::1]:389" = Some "2001:db8::1" /\
  SplitHost "2001:db8::1:389" = None /\ SplitHost "pipe" = None /\ Atoi "-5002" = Some (-5002) /\ Atoi "5 2" = None.
Proof. vm_compute. by split_and!. Qed.

(** ** Printing and reading *)

Lemma digit_char (x : N) : Z.of_nat (nat_of_ascii (pretty_N_char (x `mod` 10))) - 48 = Z.of_N (x `mod` 10).
Proof.
  assert (H : forall y : N, (y < 10)%N -> Z.of_nat (nat_of_ascii (pretty_N_char y)) - 48 = Z.of_N y).
  { intros y Hy. destruct y as [|p]; [done|]. do 9 (destruct p as [p|p|]; try reflexivity; try lia). }
  apply H. by apply N.mod_lt.
Qed.

Lemma parse_digits_go (x : N) (s : string) : parse_digits 0 (pretty_N_go x s) = parse_digits (Z.of_N x) s.
Proof.
  revert s. induction (N.lt_wf_0 x) as [x _ IH]. intros s. destruct (decide (0 < x)%N) as [Hx|Hx].
  - rewrite pretty_N_go_step, IH by (try apply N.div_lt; lia). cbn [parse_digits]. rewrite digit_char.
    assert (Hm : (x `mod` 10 < 10)%N) by by apply N.mod_lt. assert (Hdm := N.div_mod x 10 ltac:(done)).
    revert Hm Hdm. generalize (x `mod` 10)%N (x `div` 10)%N. intros m q Hm Hdm.
    assert (Hr : (0 <=? Z.of_N m) && (Z.of_N m <=? 9) = true) by (apply andb_true_iff; rewrite !Z.leb_le; lia). rewrite Hr.
    by replace (Z.of_N q * 10 + Z.of_N m) with (Z.of_N x) by lia.
  - replace x with 0%N by lia. by rewrite pretty_N_go_0.
Qed.

Lemma pretty_N_text (x : N) : exists c s, pretty x = String c s /\ is_digit c = true /\ parse_digits 0 (pretty x) = Some (Z.of_N x).
Proof.
  assert (Hp : parse_digits 0 (pretty x) = Some (Z.of_N x)).
  { unfold pretty, pretty_N. case_decide; [by subst|]. by rewrite parse_digits_go. }
  assert (Hd : all_chars is_digit (pretty x) = true).
  { destruct x as [|p]; [done|]. change (pretty (N.pos p)) with (pretty (Z.pos p)). by apply pretty_Z_digits. }
  destruct (pretty x) as [|c s] eqn:E.
  - cbn in Hp. injection Hp as Hp. assert (x = 0%N) as -> by lia. done.
  - exists c, s. cbn [all_chars] in Hd. by apply andb_true_iff in Hd as [? _].
Qed.

Lemma Atoi_pretty (z : Z) : min_int64 <= z <= max_int64 -> Atoi (pretty z) = Some z.
Proof.
  intros Hz. unfold Atoi.
  assert (Hend : forall v, v = z -> (if (min_int64 <=? v) && (v <=? max_int64) then Some v else None) = Some z).
  { intros v ->. assert (Hr : (min_int64 <=? z) && (z <=? max_int64) = true) by (apply andb_true_iff; rewrite !Z.leb_le; lia). by rewrite Hr. }
  assert (Hpos : forall n : N, Z.of_N n = z -> pretty z = pretty n -> (v ← match pretty z with
      | String "-" s' => Z.opp <$> (if is_empty s' then None else parse_digits 0 s')
      | String "+" s' => if is_empty s' then None else parse_digits 0 s'
      | _ => if is_empty (pretty z) then None else parse_digits 0 (pretty z) end;
      if (min_int64 <=? v) && (v <=? max_int64) then Some v else None) = Some z).
  { intros n En ->. destruct (pretty_N_text n) as (c & s & E & Hc & Hp). rewrite E in *.
    replace (match c with "-"%char => _ | "+"%char => _ | _ => _ end) with (parse_digits 0 (String c s)).
    - rewrite Hp. by apply Hend.
    - by destruct c as [[] [] [] [] [] [] [] []]. }
  destruct z as [|p|p]; [by apply (Hpos 0%N)|by apply (Hpos (N.pos p))|].
  change (pretty (Z.neg p)) with (String "-" (pretty (N.pos p))). destruct (pretty_N_text (N.pos p)) as (c & s & E & Hc & Hp).
  rewrite E in *. cbn [is_empty String.length Nat.eqb]. rewrite Hp. by apply Hend.
Qed.

Lemma CutLast_app c s t : contains_char c t = false -> CutLast c (s +:+ String c t) = Some (s, t).
Proof.
  intros Ht. assert (Hn : CutLast c t = None).
  { induction t as [|d t IH]; [done|]. cbn [contains_char CutLast] in *. apply orb_false_iff in Ht as [Hd Ht]. rewrite IH by done. by rewrite Hd. }
  induction s as [|d s IH]; [change (EmptyString +:+ ?x) with x; cbn [CutLast]; by rewrite Hn, Ascii.eqb_refl|].
  rewrite string_app_cons. cbn [CutLast]. by rewrite IH.
Qed.

Lemma Cut_app c s t : contains_char c s = false -> Cut c (s +:+ String c t) = Some (s, t).
Proof.
  induction s as [|d s IH]; intros Hs; [change (EmptyString +:+ ?x) with x; cbn [Cut]; by rewrite Ascii.eqb_refl|].
  cbn [contains_char] in Hs. apply orb_false_iff in Hs as [Hd Hs]. rewrite string_app_cons. cbn [Cut]. by rewrite Hd, IH.
Qed.

Lemma Cut_Some c s a b : Cut c s = Some (a, b) -> s = a +:+ String c b.
Proof.
  revert a b. induction s as [|d s IH]; intros a b; cbn; [done|].
  destruct (Ascii.eqb_spec d c) as [->|]; [by intros [= <- <-]|].
  destruct (Cut c s) as [[a' b']|] eqn:E; [|done]. intros [= <- <-]. rewrite string_app_cons. f_equal. by apply IH.
Qed.
Lemma Cut_first c s a b : Cut c s = Some (a, b) -> contains_char c a = false.
Proof.
  revert a b. induction s as [|d s IH]; intros a b; cbn; [done|]. destruct (Ascii.eqb d c) eqn:Ed; [by intros [= <- <-]|].
  destruct (Cut c s) as [[a' b']|] eqn:E; [|done]. intros [= <- <-]. cbn. rewrite Ed. by eapply IH.
Qed.
Lemma CutLast_None c s : CutLast c s = None -> contains_char c s = false.
Proof. induction s as [|d s IH]; cbn; [done|]. destruct (CutLast c s) as [[? ?]|]; [done|]. destruct (Ascii.eqb d c); [done|]. by rewrite IH. Qed.
Lemma CutLast_Some c s a b : CutLast c s = Some (a, b) -> s = a +:+ String c b /\ contains_char c b = false.
Proof.
  revert a b. induction s as [|d s IH]; intros a b; cbn; [done|]. destruct (CutLast c s) as [[a' b']|] eqn:E.
  - intros [= <- <-]. destruct (IH _ _ eq_refl) as [-> ?]. by rewrite string_app_cons.
  - destruct (Ascii.eqb_spec d c) as [->|]; [|done]. intros [= <- <-]. split; [done|]. by apply CutLast_None.
Qed.

(** The parts have no bracket, and the port no colon. *)
Lemma SplitHostPort_chars s h p : SplitHostPort s = Some (h, p) ->
  (contains_char "["%char h = false /\ contains_char "]"%char h = false) /\
  contains_char ":"%char p = false /\ contains_char "["%char p = false /\ contains_char "]"%char p = false.
Proof.
  unfold SplitHostPort. destruct (CutLast ":"%char s) as [[before port]|] eqn:El; [|done]. cbn [mbind option_bind]. apply CutLast_Some in El as [Es Hp].
  assert (Hplain : (if contains_char ":"%char before || contains_char "["%char s || contains_char "]"%char s then None else Some (before, port)) = Some (h, p) ->
    (contains_char "["%char h = false /\ contains_char "]"%char h = false) /\ contains_char ":"%char p = false /\ contains_char "["%char p = false /\ contains_char "]"%char p = false).
  { intros Hr. destruct (contains_char ":"%char before || _ || _) eqn:Eb; [done|]. injection Hr as -> ->. apply orb_false_iff in Eb as [[_ H1]%orb_false_iff H2].
    rewrite Es, contains_char_app in H1, H2. apply orb_false_iff in H1 as [? H1], H2 as [? H2]. cbn in H1, H2. done. }
  destruct s as [|c rest]; [exact Hplain|]. destruct (Ascii.eqb_spec c "["%char) as [->|Hc].
  - clear Hplain. destruct (Cut "]"%char rest) as [[inside after]|] eqn:Ec; [|done]. cbn [mbind option_bind].
    destruct (String.eqb_spec before ("[" +:+ inside +:+ "]")) as [->|]; [|done]. cbn [andb].
    destruct (contains_char "["%char rest) eqn:H1; [done|]. destruct (contains_char "]"%char after) eqn:H2; [done|]. cbn. intros [= -> ->].
    pose proof (Cut_first _ _ _ _ Ec) as H3. apply Cut_Some in Ec as Er. rewrite Er in H1, Es. rewrite contains_char_app in H1. apply orb_false_iff in H1 as [H1 H4].
    cbn in H4. assert (Ea : after = String ":" p).
    { rewrite !string_app_assoc in Es. change ("[" +:+ ?x) with (String "[" x) in Es. injection Es as Es. apply (inj (String.append h)) in Es. by injection Es. }
    subst after. cbn in H2, H4. done.
  - destruct c as [[] [] [] [] [] [] [] []]; try exact Hplain. by destruct Hc.
Qed.

(** What [JoinHostPort] puts together [SplitHostPort] takes apart. *)
Lemma SplitHostPort_JoinHostPort (h p : string) :
  contains_char "["%char h = false -> contains_char "]"%char h = false ->
  contains_char ":"%char p = false -> contains_char "["%char p = false -> contains_char "]"%char p = false ->
  SplitHostPort (JoinHostPort h p) = Some (h, p).
Proof.
  intros H1 H2 H3 H4 H5. unfold JoinHostPort. destruct (contains_char ":"%char h) eqn:Hc.
  - change ("[" +:+ h +:+ "]:" +:+ p) with (String "[" (h +:+ String "]" (String ":" p))). unfold SplitHostPort.
    replace (String "[" (h +:+ String "]" (String ":" p))) with (("[" +:+ h +:+ "]") +:+ String ":" p) at 1
      by (rewrite !string_app_assoc; done).
    rewrite CutLast_app by done. cbn [mbind option_bind]. rewrite Cut_app by done. cbn [mbind option_bind].
    rewrite String.eqb_refl, contains_char_app, H1. cbn [contains_char Ascii.eqb Bool.eqb orb]. by rewrite H4, H5.
  - change (h +:+ ":" +:+ p) with (h +:+ String ":" p). unfold SplitHostPort. rewrite CutLast_app by done. cbn [mbind option_bind].
    assert (Hb : contains_char "["%char (h +:+ String ":" p) = false) by (rewrite contains_char_app, H1; cbn; by rewrite H4).
    assert (Hb2 : contains_char "]"%char (h +:+ String ":" p) = false) by (rewrite contains_char_app, H2; cbn; by rewrite H5).
    destruct (h +:+ String ":" p) as [|c s] eqn:E; [by destruct h|]. rewrite Hc, Hb, Hb2.
    destruct (Ascii.eqb c "["%char) eqn:Ec; [cbn [contains_char] in Hb; by rewrite Ec in Hb|].
    by destruct c as [[] [] [] [] [] [] [] []].
Qed.

(** ** File names: what the configuration uses of package [path/filepath] on Unix *)

Definition separator : ascii := "/"%char.

Definition IsAbs (p : string) : bool := HasPrefix p "/".

(** The elements of a path with the empty ones and the dots left out and every [..] taken back, the
    last element first. *)
Fixpoint clean_elements (rooted : bool) (elements out : list string) : list string :=
  match elements with
  | [] => out
  | e :: rest =>
      if is_empty e || String.eqb e "." then clean_elements rooted rest out
      else if String.eqb e ".." then
        match out with
        | last :: out' => if String.eqb last ".." then clean_elements rooted rest (e :: out) else clean_elements rooted rest out'
        | [] => if rooted then clean_elements rooted rest [] else clean_elements rooted rest [e]
        end
      else clean_elements rooted rest (e :: out)
  end.

Definition Clean (p : string) : string :=
  let rooted := IsAbs p in
  let text := Join "/" (rev (clean_elements rooted (split_char separator p) [])) in
  if rooted then "/" +:+ text else if is_empty text then "." else text.

(** [Dir]: all but the last element. *)
Definition Dir (p : string) : string :=
  Clean (match CutLast separator p with Some (before, _) => before +:+ "/" | None => EmptyString end).

(** [Join] of two elements. *)
Definition filepath_Join (a b : string) : string :=
  if non_empty a then Clean (a +:+ "/" +:+ b) else if non_empty b then Clean b else EmptyString.

Example path_samples :
  Clean "a//b/./../c" = "a/c" /\ Clean "/../a" = "/a" /\ Clean "../../x/" = "../../x" /\ Clean "" = "." /\ Clean "/" = "/" /\
  Dir "/etc/ldap-kdc.yaml" = "/etc" /\ Dir "ldap-kdc.yaml" = "." /\ Dir "/x" = "/" /\
  filepath_Join "/etc" "master.key" = "/etc/master.key" /\ filepath_Join "." "master.key" = "master.key" /\ filepath_Join "/etc/kdc" "../k" = "/etc/k".
Proof. vm_compute. by split_and!. Qed.

(** ** Paths below an absolute one are absolute *)

Lemma IsAbs_cons s : IsAbs (String separator s) = true.
Proof. by destruct s. Qed.

Lemma IsAbs_spec p : IsAbs p = true -> exists s, p = String separator s.
Proof. intros [t ->]%HasPrefix_spec. by exists t. Qed.

Lemma IsAbs_Clean p : IsAbs p = true -> IsAbs (Clean p) = true.
Proof. intros E. unfold Clean. rewrite E. apply IsAbs_cons. Qed.

Lemma IsAbs_Dir p : IsAbs p = true -> IsAbs (Dir p) = true.
Proof.
  intros [s ->]%IsAbs_spec. unfold Dir. apply IsAbs_Clean. cbn [CutLast]. destruct (CutLast separator s) as [[a b]|]; [apply IsAbs_cons|done].
Qed.

Lemma IsAbs_Join a b : IsAbs a = true -> IsAbs (filepath_Join a b) = true.
Proof. intros [s ->]%IsAbs_spec. unfold filepath_Join. cbn [non_empty String.length Nat.ltb Nat.leb]. apply IsAbs_Clean, IsAbs_cons. Qed.

(** ** What the HTTP services share

    Of package [net/url], what the code uses of a URL and of its query; and where a request comes
    from. *)

(** [net/url]: a URL with its query parameters set, and the escaping of one parameter. *)
Class UrlLib : Type := {
  URL : Type;
  url_Parse : string -> option URL;
  url_Scheme : URL -> string;
  url_Host : URL -> string;
  url_Path : URL -> string;
  url_Set : list (string * string) -> URL -> URL;
  url_String : URL -> string;
  QueryEscape : string -> string;
  QueryUnescape : string -> option string;
}.

(** [url.Values]: the first value of every key. *)
Abbreviation Values := (gmap string string).
Definition Get (v : Values) (k : string) : string := default EmptyString (v !! k).
