(* ===== verification/Duration.v ===== *)
(** * Durations as text: [time.ParseDuration] and [Duration.String]

    The text of a duration in a request, a reply or the configuration. The fraction of a unit is
    computed in floating point, as the Go library does. *)

From Stdlib Require Import SpecFloat.
From S2P Require Import Prelude Text.

(** ** float64 *)

Definition f64 (z : Z) : spec_float := binary_normalize 53 1024 z 0 false.
Definition f64_mul : spec_float -> spec_float -> spec_float := SFmul 53 1024.
Definition f64_div : spec_float -> spec_float -> spec_float := SFdiv 53 1024.

(** [uint64(f)] for a number that fits. *)
Definition f64_trunc (f : spec_float) : Z :=
  match f with
  | S754_finite false m e => if 0 <=? e then Z.pos m * 2 ^ e else Z.pos m / 2 ^ (- e)
  | _ => 0
  end.

(** ** Parsing *)

Definition microsecond : Z := 1000.
Definition millisecond : Z := 1000000.
Definition minute : Z := 60 * second.
Definition hour : Z := 3600 * second.

(** The letter of a microsecond, in its two spellings. *)
Definition micro : string := String (ascii_of_nat 194) (String (ascii_of_nat 181) EmptyString).
Definition mu : string := String (ascii_of_nat 206) (String (ascii_of_nat 188) EmptyString).

Definition unitMap (u : string) : option Z :=
  if String.eqb u "ns" then Some 1
  else if String.eqb u "us" || String.eqb u (micro +:+ "s") || String.eqb u (mu +:+ "s") then Some microsecond
  else if String.eqb u "ms" then Some millisecond
  else if String.eqb u "s" then Some second
  else if String.eqb u "m" then Some minute
  else if String.eqb u "h" then Some hour
  else None.

Definition digit_value (c : ascii) : Z := Z.of_nat (nat_of_ascii c) - 48.

Fixpoint leadingInt (x : Z) (s : string) : option (Z * string) :=
  match s with
  | String c s' =>
      if negb (is_digit c) then Some (x, s)
      else if 2 ^ 63 / 10 <? x then None
      else
        let x := x * 10 + digit_value c in
        if 2 ^ 63 <? x then None else leadingInt x s'
  | EmptyString => Some (x, s)
  end.

(** The digits after the point; the scale is a power of ten. *)
Fixpoint leadingFraction (x : Z) (scale : Z) (overflow : bool) (s : string) : Z * Z * string :=
  match s with
  | String c s' =>
      if negb (is_digit c) then (x, scale, s)
      else if overflow then leadingFraction x scale true s'
      else if (2 ^ 63 - 1) / 10 <? x then leadingFraction x scale true s'
      else
        let y := x * 10 + digit_value c in
        if 2 ^ 63 <? y then leadingFraction x scale true s' else leadingFraction y (scale * 10) false s'
  | EmptyString => (x, scale, s)
  end.

(** The text up to the next digit or point. *)
Fixpoint unit_text (s : string) : string * string :=
  match s with
  | String c s' =>
      if Ascii.eqb c "."%char || is_digit c then (EmptyString, s)
      else let '(u, rest) := unit_text s' in (String c u, rest)
  | EmptyString => (EmptyString, EmptyString)
  end.

(** One number with its unit: what it adds, and what is left. *)
Definition duration_part (s : string) : option (Z * string) :=
  _ ← (match s with
       | String c _ => if Ascii.eqb c "."%char || is_digit c then Some tt else None
       | EmptyString => None
       end);
  '(v, s1) ← leadingInt 0 s;
  let pre := negb (String.length s =? String.length s1)%nat in
  let '(f, scale, s2, post) :=
    match s1 with
    | String "." s' =>
        let '(f, scale, s2) := leadingFraction 0 1 false s' in
        (f, scale, s2, negb (String.length s' =? String.length s2)%nat)
    | _ => (0, 1, s1, false)
    end in
  if negb pre && negb post then None
  else
    let '(u, rest) := unit_text s2 in
    if is_empty u then None
    else
      unit ← unitMap u;
      if 2 ^ 63 / unit <? v then None
      else
        let v := v * unit in
        let v := if 0 <? f then v + f64_trunc (f64_mul (f64 f) (f64_div (f64 unit) (f64 scale))) else v in
        if 2 ^ 63 <? v then None else Some (v, rest).

(** The loop; every round takes a part, so the length of the text bounds the rounds. *)
Fixpoint duration_parts (fuel : nat) (d : Z) (s : string) : option Z :=
  match s with
  | EmptyString => Some d
  | _ =>
      match fuel with
      | O => None
      | S fuel =>
          '(v, rest) ← duration_part s;
          let d := d + v in
          if 2 ^ 63 <? d then None else duration_parts fuel d rest
      end
  end.

Definition ParseDuration (s : string) : option Duration :=
  let '(neg, s) := match s with
                   | String "-" s' => (true, s')
                   | String "+" s' => (false, s')
                   | _ => (false, s)
                   end in
  if String.eqb s "0" then Some 0
  else if is_empty s then None
  else
    d ← duration_parts (String.length s) 0 s;
    if (neg : bool) then Some (swrap 64 (- d))
    else if 2 ^ 63 - 1 <? d then None else Some d.

(** ** Printing *)

(** [fmtFrac]: the point and the digits of the fraction, without trailing zeros; nothing at all when
    the fraction is zero. *)
Fixpoint fraction_digits (prec : nat) (v : Z) (tail : string) : string * Z :=
  match prec with
  | O => (if is_empty tail then EmptyString else "." +:+ tail, v)
  | S prec =>
      let digit := v mod 10 in
      fraction_digits prec (v / 10)
        (if is_empty tail && (digit =? 0) then EmptyString else String (ascii_of_nat (Z.to_nat (digit + 48))) tail)
  end.

Definition Duration_String (d : Duration) : string :=
  let neg := d <? 0 in
  let u := Z.abs d in
  (if neg then "-" else EmptyString) +:+
  (if u <? second then
     if u =? 0 then "0s"
     else
       let '(prec, unit) := if u <? microsecond then (O, "ns") else if u <? millisecond then (3%nat, micro +:+ "s") else (6%nat, "ms") in
       let '(frac, v) := fraction_digits prec u EmptyString in
       pretty v +:+ frac +:+ unit
   else
     let '(frac, v) := fraction_digits 9 u EmptyString in
     let secs := pretty (v mod 60) +:+ frac +:+ "s" in
     let v := v / 60 in
     if 0 <? v then
       let mins := pretty (v mod 60) +:+ "m" +:+ secs in
       let v := v / 60 in
       if 0 <? v then pretty v +:+ "h" +:+ mins else mins
     else secs).

Example duration_texts :
  ParseDuration "1h30m" = Some (5400 * second) /\ ParseDuration "-1.5s" = Some (-1500000000) /\
  ParseDuration "1.0000000001h" = Some 3600000000360 /\ ParseDuration ".5ms" = Some 500000 /\
  ParseDuration "0" = Some 0 /\ ParseDuration EmptyString = None /\ ParseDuration "10" = None /\ ParseDuration "." = None /\
  ParseDuration "2562047h47m16.854775807s" = Some max_int64 /\ ParseDuration "2562047h47m16.854775808s" = None /\
  ParseDuration "-2562047h47m16.854775808s" = Some min_int64 /\
  Duration_String (36000 * second) = "10h0m0s" /\ Duration_String (-1500000) = "-1.5ms" /\
  Duration_String (61 * second + 10) = "1m1.00000001s" /\ Duration_String 0 = "0s" /\
  ParseDuration (Duration_String max_int64) = Some max_int64.
Proof. vm_compute. by split_and!. Qed.

(** ** Whole seconds survive being printed and read *)


Definition starts_plain (s : string) : Prop :=
  match s with String c _ => is_digit c = false | EmptyString => True end.

Lemma leadingInt_stop x s : starts_plain s -> leadingInt x s = Some (x, s).
Proof. destruct s as [|c s]; [done|]. cbn [leadingInt starts_plain]. by intros ->. Qed.

Lemma digit_value_char (x : N) : digit_value (pretty_N_char (x `mod` 10)) = Z.of_N (x `mod` 10).
Proof.
  assert (H : forall y : N, (y < 10)%N -> digit_value (pretty_N_char y) = Z.of_N y).
  { intros y Hy. destruct y as [|p]; [done|]. do 9 (destruct p as [p|p|]; try reflexivity; try lia). }
  apply H. by apply N.mod_lt.
Qed.

Lemma leadingInt_go (x : N) (s : string) :
  Z.of_N x <= 2 ^ 63 -> leadingInt 0 (pretty_N_go x s) = leadingInt (Z.of_N x) s.
Proof.
  revert s. induction (N.lt_wf_0 x) as [x _ IH]. intros s Hx. destruct (decide (0 < x)%N) as [Hp|Hp].
  - pose proof (N.div_mod x 10 ltac:(lia)) as E. pose proof (N.mod_lt x 10 ltac:(lia)).
    assert (Hd : Z.of_N (x `div` 10) <= 2 ^ 63 / 10).
    { rewrite N2Z.inj_div. by apply Z.div_le_mono. }
    change (2 ^ 63 / 10) with 922337203685477580 in *. change (2 ^ 63) with 9223372036854775808 in *.
    rewrite pretty_N_go_step, IH by (try apply N.div_lt; lia). cbn [leadingInt].
    rewrite pretty_N_char_digit, digit_value_char. cbn [negb].
    replace (Z.of_N (x `div` 10) * 10 + Z.of_N (x `mod` 10)) with (Z.of_N x) by lia.
    change (2 ^ 63 / 10) with 922337203685477580 in *. change (2 ^ 63) with 9223372036854775808 in *.
    by rewrite !(proj2 (Z.ltb_ge _ _)) by lia.
  - replace x with 0%N by lia. by rewrite pretty_N_go_0.
Qed.

Lemma pretty_N_go_app (x : N) (s t : string) : pretty_N_go x s +:+ t = pretty_N_go x (s +:+ t).
Proof.
  revert s. induction (N.lt_wf_0 x) as [x _ IH]. intros s. destruct (decide (0 < x)%N) as [Hp|Hp].
  - rewrite (pretty_N_go_step x s), (pretty_N_go_step x (s +:+ t)), IH by (try apply N.div_lt; lia). done.
  - replace x with 0%N by lia. by rewrite !pretty_N_go_0.
Qed.

Lemma leadingInt_pretty (v : Z) (s : string) :
  0 <= v <= 2 ^ 63 -> starts_plain s -> leadingInt 0 (pretty v +:+ s) = Some (v, s).
Proof.
  intros Hv Hs. destruct v as [|p|p]; [exact (leadingInt_stop 0 s Hs)| |lia].
  change (pretty (Z.pos p)) with (pretty (N.pos p)). unfold pretty, pretty_N.
  rewrite decide_False, pretty_N_go_app, leadingInt_go by (done || lia). by apply leadingInt_stop.
Qed.

Lemma pretty_N_go_nonempty (x : N) (s : string) : s <> EmptyString -> pretty_N_go x s <> EmptyString.
Proof.
  revert s. induction (N.lt_wf_0 x) as [x _ IH]. intros s Hs. destruct (decide (0 < x)%N) as [Hp|Hp].
  - rewrite pretty_N_go_step by done. apply IH; [apply N.div_lt; lia|done].
  - replace x with 0%N by lia. by rewrite pretty_N_go_0.
Qed.

Lemma pretty_head (v : Z) (s : string) : 0 <= v -> exists c t, pretty v +:+ s = String c t /\ is_digit c = true.
Proof.
  intros Hv. pose proof (pretty_Z_digits v Hv) as Hd. assert (Hne : pretty v <> EmptyString).
  { destruct v as [|p|p]; [done| |lia]. change (pretty (Z.pos p)) with (pretty (N.pos p)). unfold pretty, pretty_N.
    rewrite decide_False, pretty_N_go_step by done. by apply pretty_N_go_nonempty. }
  destruct (pretty v : string) as [|c t]; [done|]. cbn [all_chars] in Hd. apply andb_true_iff in Hd as [Hc _].
  by exists c, (t +:+ s).
Qed.

(** A printed number and a unit are one part. *)
Lemma duration_part_pretty (v unit : Z) (u s : string) :
  0 <= v -> v * unit <= 2 ^ 63 -> 0 < unit -> unitMap u = Some unit -> is_empty u = false -> unit_text (u +:+ s) = (u, s) ->
  starts_plain (u +:+ s) -> (forall t, u +:+ s <> String "." t) ->
  duration_part (pretty v +:+ u +:+ s) = Some (v * unit, s).
Proof.
  intros Hv Hm Hu Hmap Hne Htext Hs Hdot. destruct (pretty_head v (u +:+ s) Hv) as (c & t & E & Hc).
  unfold duration_part. assert (Hv63 : v <= 2 ^ 63) by nia.
  rewrite leadingInt_pretty by done. rewrite E. rewrite Hc, orb_true_r. cbn [mbind option_bind].
  rewrite <- E, length_app_string.
  assert (Hl : (String.length (pretty v) =? 0)%nat = false).
  { destruct (pretty_head v EmptyString Hv) as (c' & t' & E' & _). rewrite string_app_nil_r in E'. by rewrite E'. }
  replace (String.length (pretty v) + String.length (u +:+ s) =? String.length (u +:+ s))%nat with false
    by (symmetry; apply Nat.eqb_neq; apply Nat.eqb_neq in Hl; lia).
  assert (Hif : match u +:+ s with String "." s' => let '(f, scale, s2) := leadingFraction 0 1 false s' in
     (f, scale, s2, negb (String.length s' =? String.length s2)%nat) | _ => (0, 1, u +:+ s, false) end = (0, 1, u +:+ s, false)).
  { destruct (u +:+ s) as [|d r]; [done|]. destruct (ascii_dec d "."%char) as [->|Hd]; [by destruct (Hdot r)|].
    destruct d as [[] [] [] [] [] [] [] []]; try reflexivity. by destruct Hd. }
  rewrite Hif. cbn [negb andb]. rewrite Htext, Hne, Hmap. cbn [mbind option_bind].
  rewrite (proj2 (Z.ltb_ge _ _)) by (apply Z.div_le_lower_bound; lia).
  change (0 <? 0) with false. cbn match. by rewrite (proj2 (Z.ltb_ge _ _)).
Qed.

Lemma duration_parts_nil fuel d : duration_parts fuel d EmptyString = Some d.
Proof. by destruct fuel. Qed.

Lemma duration_parts_step (fuel : nat) (d v unit : Z) (u s : string) :
  (u = "h" /\ unit = hour \/ u = "m" /\ unit = minute \/ u = "s" /\ unit = second) ->
  0 <= d -> 0 <= v -> d + v * unit <= 2 ^ 63 ->
  (s = EmptyString \/ exists c t, s = String c t /\ is_digit c = true) ->
  duration_parts (S fuel) d (pretty v +:+ u +:+ s) = duration_parts fuel (d + v * unit) s.
Proof.
  intros Hu Hd Hv Hm Hs. destruct (pretty_head v (u +:+ s) Hv) as (c & t & E & Hc).
  assert (Hrest : unit_text s = (EmptyString, s)).
  { destruct Hs as [->|(c' & t' & -> & Hc')]; [done|]. cbn [unit_text]. by rewrite Hc', orb_true_r. }
  assert (Hpart : duration_part (pretty v +:+ u +:+ s) = Some (v * unit, s)).
  { destruct Hu as [[-> ->]|[[-> ->]|[-> ->]]]; apply duration_part_pretty; try done; try lia;
      (etransitivity; [|exact (f_equal (fun '(u, rest) => (String _ u, rest)) Hrest)]; reflexivity). }
  rewrite E in *. cbn [duration_parts]. rewrite Hpart. cbn [mbind option_bind]. by rewrite (proj2 (Z.ltb_ge _ _)).
Qed.

(** The text of a positive number of seconds. *)
Definition hms (m : Z) : string :=
  let secs := pretty (m mod 60) +:+ "s" in
  if 0 <? m / 60 then
    let mins := pretty (m / 60 mod 60) +:+ "m" +:+ secs in
    if 0 <? m / 60 / 60 then pretty (m / 60 / 60) +:+ "h" +:+ mins else mins
  else secs.

Lemma fraction_whole (k : nat) (n : Z) : fraction_digits k (n * 10 ^ Z.of_nat k) EmptyString = (EmptyString, n).
Proof.
  induction k as [|k IH]; [cbn; by rewrite Z.mul_1_r|]. cbn [fraction_digits].
  replace (n * 10 ^ Z.of_nat (S k)) with (n * 10 ^ Z.of_nat k * 10) by (rewrite Nat2Z.inj_succ, Z.pow_succ_r; lia).
  rewrite Z.mod_mul, Z.div_mul by done. exact IH.
Qed.

Lemma Duration_String_seconds n : n <> 0 ->
  Duration_String (n * second) = (if n <? 0 then "-" else EmptyString) +:+ hms (Z.abs n).
Proof.
  intros Hn. unfold Duration_String. assert (E : Z.abs (n * second) = Z.abs n * second) by (unfold second; lia).
  rewrite E. rewrite (proj2 (Z.ltb_ge (Z.abs n * second) second)) by (unfold second; lia).
  change (Z.abs n * second) with (Z.abs n * 10 ^ Z.of_nat 9). rewrite fraction_whole.
  replace (n * second <? 0) with (n <? 0); [done|]. destruct (Z.ltb_spec n 0), (Z.ltb_spec (n * second) 0); unfold second in *; lia.
Qed.

Lemma pretty_length (v : Z) : 0 <= v -> (1 <= String.length (pretty v))%nat.
Proof.
  intros Hv. destruct (pretty_head v EmptyString Hv) as (c & t & E & _). rewrite string_app_nil_r in E. rewrite E. cbn. lia.
Qed.

Lemma hms_parts (m : Z) (fuel : nat) : 0 < m -> m * second <= 2 ^ 63 -> (String.length (hms m) <= fuel)%nat ->
  duration_parts fuel 0 (hms m) = Some (m * second).
Proof.
  intros Hm Hb. pose proof (Z.div_mod m 60 ltac:(lia)). pose proof (Z.mod_pos_bound m 60 ltac:(lia)).
  pose proof (Z.div_mod (m / 60) 60 ltac:(lia)). pose proof (Z.mod_pos_bound (m / 60) 60 ltac:(lia)).
  assert (0 <= m / 60) by (apply Z.div_pos; lia). assert (0 <= m / 60 / 60) by (apply Z.div_pos; lia).
  pose proof (pretty_length (m mod 60) ltac:(lia)). pose proof (pretty_length (m / 60 mod 60) ltac:(lia)).
  pose proof (pretty_length (m / 60 / 60) ltac:(lia)).
  unfold hms. rewrite <- (string_app_nil_r "s"). unfold hour, minute, second in *.
  destruct (Z.ltb_spec 0 (m / 60)) as [H60|H60]; [destruct (Z.ltb_spec 0 (m / 60 / 60)) as [H36|H36]|];
    rewrite !length_app_string; cbn [String.length]; intros Hf;
    (destruct fuel as [|[|[|fuel]]]; try (exfalso; lia)).
  - rewrite (duration_parts_step _ _ _ hour), (duration_parts_step _ _ _ minute), (duration_parts_step _ _ _ second)
      by (try solve [tauto | right; apply pretty_head; lia]; unfold hour, minute, second; lia).
    rewrite duration_parts_nil. f_equal. unfold hour, minute, second. lia.
  - rewrite (duration_parts_step _ _ _ minute), (duration_parts_step _ _ _ second)
      by (try solve [tauto | right; apply pretty_head; lia]; unfold hour, minute, second; lia).
    rewrite duration_parts_nil. f_equal. unfold minute, second. lia.
  - rewrite (duration_parts_step _ _ _ second) by (try tauto; unfold second; lia).
    rewrite duration_parts_nil. f_equal. unfold second. lia.
  - rewrite (duration_parts_step _ _ _ second) by (try tauto; unfold second; lia).
    rewrite duration_parts_nil. f_equal. unfold second. lia.
Qed.

Lemma hms_shape m : 0 < m -> exists c t, hms m = String c t /\ is_digit c = true /\ (2 <= String.length (hms m))%nat.
Proof.
  intros Hm. assert (0 <= m / 60) by (apply Z.div_pos; lia). assert (0 <= m / 60 / 60) by (apply Z.div_pos; lia).
  pose proof (Z.mod_pos_bound m 60 ltac:(lia)). pose proof (Z.mod_pos_bound (m / 60) 60 ltac:(lia)).
  assert (Hs : forall v u rest, 0 <= v -> exists c t, pretty v +:+ String u rest = String c t /\ is_digit c = true /\
    (2 <= String.length (pretty v +:+ String u rest))%nat).
  { intros v u rest Hv. destruct (pretty_head v (String u rest) Hv) as (c & t & E & Hc). exists c, t.
    split; [done|]. split; [done|]. rewrite length_app_string. cbn [String.length]. pose proof (pretty_length v Hv). lia. }
  unfold hms. destruct (0 <? m / 60); [destruct (0 <? m / 60 / 60)|]; apply Hs; lia.
Qed.

(** The text of a number of seconds ends with its unit. *)
Lemma seconds_text n : n <> 0 -> contains_char "s"%char (Duration_String (n * second)) = true.
Proof.
  intros Hn. rewrite Duration_String_seconds by done. rewrite contains_char_app. apply orb_true_iff. right. unfold hms.
  destruct (0 <? _); [destruct (0 <? _)|]; rewrite ?contains_char_app; cbn; by rewrite ?orb_true_r.
Qed.

(** A number of whole seconds that fits into a duration is read back from its text. *)
Lemma seconds_roundtrip (n : Z) : Z.abs (n * second) <= max_int64 -> ParseDuration (Duration_String (n * second)) = Some (n * second).
Proof.
  intros Hb. destruct (decide (n = 0)) as [->|Hn]; [vm_compute; reflexivity|].
  rewrite Duration_String_seconds by done. assert (Hp : 0 < Z.abs n) by lia.
  assert (Hb' : Z.abs n * second <= 2 ^ 63) by (unfold max_int64, second in *; lia).
  destruct (hms_shape (Z.abs n) Hp) as (c & t & E & Hc & Hl).
  pose proof (hms_parts (Z.abs n) _ Hp Hb' (le_n _)) as Hrun.
  assert (Hz : String.eqb (hms (Z.abs n)) "0" = false).
  { apply String.eqb_neq. intros E0. rewrite E0 in Hl. cbn in Hl. lia. }
  assert (He : is_empty (hms (Z.abs n)) = false) by (by rewrite E).
  unfold ParseDuration. destruct (Z.ltb_spec n 0).
  - change ("-" +:+ hms (Z.abs n)) with (String "-" (hms (Z.abs n))). cbv beta iota. rewrite Hz, He, Hrun. cbn [mbind option_bind]. f_equal. rewrite swrap_small.
    + unfold second. lia.
    + done.
    + unfold max_int64, second in *. lia.
  - replace (EmptyString +:+ hms (Z.abs n)) with (hms (Z.abs n)) by done.
    assert (Hsign : match hms (Z.abs n) with String "-" s' => (true, s') | String "+" s' => (false, s') | _ => (false, hms (Z.abs n)) end
             = (false, hms (Z.abs n))).
    { rewrite E. destruct c as [[] [] [] [] [] [] [] []]; try reflexivity; discriminate Hc. }
    rewrite Hsign, Hz, He, Hrun. cbn [mbind option_bind].
    rewrite (proj2 (Z.ltb_ge _ _)) by (unfold max_int64, second in *; lia). f_equal. lia.
Qed.
