(* ===== verification/Base64.v ===== *)
(** * [encoding/base64]: the two encodings the code uses

    [StdEncoding] pads with the equals sign; [RawURLEncoding] has an alphabet of its own and no
    padding. Decoding skips line breaks and is not strict about the bits that are left over, as Go's
    decoder is. *)

From S2P Require Import Prelude Text.

Record Encoding : Type := mkEncoding { e_62 : ascii; e_63 : ascii; e_padded : bool }.

Definition StdEncoding : Encoding := mkEncoding "+" "/" true.
Definition RawURLEncoding : Encoding := mkEncoding "-" "_" false.

Definition sextet_char (e : Encoding) (z : Z) : ascii :=
  if z <? 26 then ascii_of_nat (Z.to_nat (65 + z))
  else if z <? 52 then ascii_of_nat (Z.to_nat (71 + z))
  else if z <? 62 then ascii_of_nat (Z.to_nat (z - 4))
  else if z =? 62 then e_62 e else e_63 e.

Definition char_sextet (e : Encoding) (c : ascii) : option Z :=
  let n := Z.of_nat (nat_of_ascii c) in
  if (65 <=? n) && (n <=? 90) then Some (n - 65)
  else if (97 <=? n) && (n <=? 122) then Some (n - 71)
  else if (48 <=? n) && (n <=? 57) then Some (n + 4)
  else if Ascii.eqb c (e_62 e) then Some 62
  else if Ascii.eqb c (e_63 e) then Some 63
  else None.

Definition pad_char : ascii := "="%char.

(** The characters of a group of bits, [n] six at a time. *)
Definition quantum (e : Encoding) (n : nat) (bits : Z) : list ascii :=
  take n [sextet_char e (bits / 262144); sextet_char e (bits / 4096 mod 64);
          sextet_char e (bits / 64 mod 64); sextet_char e (bits mod 64)]
  ++ (if e_padded e then replicate (4 - n) pad_char else []).

Fixpoint encode (e : Encoding) (b : bytes) : list ascii :=
  match b with
  | [] => []
  | [x] => quantum e 2 (Z_of_byte x * 65536)
  | [x; y] => quantum e 3 (Z_of_byte x * 65536 + Z_of_byte y * 256)
  | x :: y :: z :: b' => quantum e 4 (Z_of_byte x * 65536 + Z_of_byte y * 256 + Z_of_byte z) ++ encode e b'
  end.

Definition EncodeToString (e : Encoding) (b : bytes) : string := string_of_list_ascii (encode e b).

(** The first [n] of the bytes of a group. *)
Definition group_bytes (n : nat) (s1 s2 s3 s4 : Z) : bytes :=
  let bits := s1 * 262144 + s2 * 4096 + s3 * 64 + s4 in
  take n [byte_of_Z (bits / 65536); byte_of_Z (bits / 256); byte_of_Z bits].

Fixpoint decode (e : Encoding) (l : list ascii) : option bytes :=
  match l with
  | [] => Some []
  | [_] => None
  | c1 :: c2 :: l1 =>
      s1 ← char_sextet e c1;
      s2 ← char_sextet e c2;
      match l1 with
      | [] => if e_padded e then None else Some (group_bytes 1 s1 s2 0 0)
      | c3 :: l2 =>
          if e_padded e && Ascii.eqb c3 pad_char then
            match l2 with
            | [c4] => if Ascii.eqb c4 pad_char then Some (group_bytes 1 s1 s2 0 0) else None
            | _ => None
            end
          else
            s3 ← char_sextet e c3;
            match l2 with
            | [] => if e_padded e then None else Some (group_bytes 2 s1 s2 s3 0)
            | c4 :: l3 =>
                if e_padded e && Ascii.eqb c4 pad_char then
                  match l3 with [] => Some (group_bytes 2 s1 s2 s3 0) | _ => None end
                else
                  s4 ← char_sextet e c4;
                  rest ← decode e l3;
                  Some (group_bytes 3 s1 s2 s3 s4 ++ rest)
            end
      end
  end.

Definition line_break (c : ascii) : bool := Ascii.eqb c "010"%char || Ascii.eqb c "013"%char.

Definition DecodeString (e : Encoding) (s : string) : option bytes :=
  decode e (filter (fun c => line_break c = false) (list_ascii_of_string s)).

(** ** What was encoded decodes *)

(** The alphabets the code uses. *)
Definition known (e : Encoding) : Prop := e = StdEncoding \/ e = RawURLEncoding.

Definition sextet_ok (e : Encoding) (z : Z) : bool :=
  let c := sextet_char e z in
  bool_decide (char_sextet e c = Some z) && negb (line_break c) && negb (Ascii.eqb c pad_char) && negb (Ascii.eqb c "."%char) &&
  (nat_of_ascii c <? 128)%nat.

Lemma sextets_ok e : known e -> forallb (sextet_ok e) (Z.of_nat <$> seq 0 64) = true.
Proof. intros [->| ->]; vm_compute; reflexivity. Qed.

Lemma sextet_char_ok e z : known e -> 0 <= z < 64 ->
  char_sextet e (sextet_char e z) = Some z /\ line_break (sextet_char e z) = false /\
  Ascii.eqb (sextet_char e z) pad_char = false /\ sextet_char e z <> "."%char /\
  (nat_of_ascii (sextet_char e z) <? 128)%nat = true.
Proof.
  intros He Hz. assert (Hok := sextets_ok e He). rewrite forallb_forall in Hok. specialize (Hok z).
  assert (Hin : In z (Z.of_nat <$> seq 0 64)).
  { apply list_elem_of_In, list_elem_of_fmap. exists (Z.to_nat z). split; [lia|]. apply elem_of_seq. lia. }
  specialize (Hok Hin). unfold sextet_ok in Hok.
  rewrite !andb_true_iff, !negb_true_iff, bool_decide_eq_true in Hok. destruct Hok as [[[[? ?] ?] ?%Ascii.eqb_neq] ?]. done.
Qed.

(** Six bits at a time and eight bits at a time are the same bits. *)
Ltac regrouped :=
  repeat match goal with |- context [Z_of_byte ?b] => lazymatch goal with H : 0 <= Z_of_byte b < 256 |- _ => fail | _ => pose proof (Z_of_byte_range b) end end;
  split_and!; try (Z.to_euclidean_division_equations; lia);
  unfold group_bytes; cbn [take]; repeat f_equal; apply byte_of_Z_eq; Z.to_euclidean_division_equations; lia.

Lemma regroup3 x y z (bits := Z_of_byte x * 65536 + Z_of_byte y * 256 + Z_of_byte z) :
  0 <= bits / 262144 < 64 /\ 0 <= bits / 4096 mod 64 < 64 /\ 0 <= bits / 64 mod 64 < 64 /\ 0 <= bits mod 64 < 64 /\
  group_bytes 3 (bits / 262144) (bits / 4096 mod 64) (bits / 64 mod 64) (bits mod 64) = [x; y; z].
Proof. subst bits. regrouped. Qed.

Lemma regroup2 x y (bits := Z_of_byte x * 65536 + Z_of_byte y * 256) :
  0 <= bits / 262144 < 64 /\ 0 <= bits / 4096 mod 64 < 64 /\ 0 <= bits / 64 mod 64 < 64 /\
  group_bytes 2 (bits / 262144) (bits / 4096 mod 64) (bits / 64 mod 64) 0 = [x; y].
Proof. subst bits. regrouped. Qed.

Lemma regroup1 x (bits := Z_of_byte x * 65536) :
  0 <= bits / 262144 < 64 /\ 0 <= bits / 4096 mod 64 < 64 /\ group_bytes 1 (bits / 262144) (bits / 4096 mod 64) 0 0 = [x].
Proof. subst bits. regrouped. Qed.

Lemma decode_quantum4 e s1 s2 s3 s4 l : known e -> 0 <= s1 < 64 -> 0 <= s2 < 64 -> 0 <= s3 < 64 -> 0 <= s4 < 64 ->
  decode e (sextet_char e s1 :: sextet_char e s2 :: sextet_char e s3 :: sextet_char e s4 :: l) =
    rest ← decode e l; Some (group_bytes 3 s1 s2 s3 s4 ++ rest).
Proof.
  intros He H1 H2 H3 H4. cbn [decode].
  destruct (sextet_char_ok e s1 He H1) as (-> & _), (sextet_char_ok e s2 He H2) as (-> & _),
    (sextet_char_ok e s3 He H3) as (-> & _ & -> & _), (sextet_char_ok e s4 He H4) as (-> & _ & -> & _).
  by rewrite andb_false_r.
Qed.

Lemma decode_quantum3 e s1 s2 s3 : known e -> 0 <= s1 < 64 -> 0 <= s2 < 64 -> 0 <= s3 < 64 ->
  decode e ([sextet_char e s1; sextet_char e s2; sextet_char e s3] ++ if e_padded e then [pad_char] else [])
    = Some (group_bytes 2 s1 s2 s3 0).
Proof.
  intros He H1 H2 H3. destruct (sextet_char_ok e s1 He H1) as (E1 & _), (sextet_char_ok e s2 He H2) as (E2 & _),
    (sextet_char_ok e s3 He H3) as (E3 & _ & Ep & _).
  destruct (e_padded e) eqn:Hp; cbn [app decode]; rewrite E1, E2, Hp, ?Ep; cbn [mbind option_bind andb]; rewrite E3; done.
Qed.

Lemma decode_quantum2 e s1 s2 : known e -> 0 <= s1 < 64 -> 0 <= s2 < 64 ->
  decode e ([sextet_char e s1; sextet_char e s2] ++ if e_padded e then [pad_char; pad_char] else [])
    = Some (group_bytes 1 s1 s2 0 0).
Proof.
  intros He H1 H2. destruct (sextet_char_ok e s1 He H1) as (E1 & _), (sextet_char_ok e s2 He H2) as (E2 & _).
  destruct (e_padded e) eqn:Hp; cbn [app decode]; rewrite E1, E2, Hp; done.
Qed.

(** Induction on bytes three at a time. *)
Lemma bytes3_ind (P : bytes -> Prop) :
  P [] -> (forall x, P [x]) -> (forall x y, P [x; y]) -> (forall x y z b, P b -> P (x :: y :: z :: b)) -> forall b, P b.
Proof.
  intros H0 H1 H2 H3. fix IH 1. intros [|x [|y [|z b]]]; [exact H0|apply H1|apply H2|apply H3, IH].
Qed.

Lemma decode_encode e b : known e -> decode e (encode e b) = Some b.
Proof.
  intros He. induction b as [|x|x y|x y z b IH] using bytes3_ind; [done|cbn [encode]; unfold quantum; cbn [take]..].
  - destruct (regroup1 x) as (B1 & B2 & Hr). change (replicate (4 - 2) pad_char) with [pad_char; pad_char].
    by rewrite decode_quantum2, Hr.
  - destruct (regroup2 x y) as (B1 & B2 & B3 & Hr). change (replicate (4 - 3) pad_char) with [pad_char].
    by rewrite decode_quantum3, Hr.
  - destruct (regroup3 x y z) as (B1 & B2 & B3 & B4 & Hr). change (replicate (4 - 4) pad_char) with (@nil ascii).
    replace (if e_padded e then [] else []) with (@nil ascii) by (by destruct (e_padded e)). cbn [app].
    rewrite decode_quantum4 by done. by rewrite IH, Hr.
Qed.

(** The characters of an encoding. *)
Lemma encode_Forall (P : ascii -> Prop) e b :
  (forall z, 0 <= z < 64 -> P (sextet_char e z)) -> P pad_char -> Forall P (encode e b).
Proof.
  intros Hs Hpad. assert (Hp : forall n, Forall P (if e_padded e then replicate n pad_char else []))
    by (intros n; destruct (e_padded e); [by apply Forall_replicate|constructor]).
  induction b as [|x|x y|x y z b IH] using bytes3_ind; [constructor|cbn [encode]; unfold quantum; cbn [take]..].
  - destruct (regroup1 x) as (B1 & B2 & _). apply Forall_app. split; [|apply Hp]. repeat constructor; by apply Hs.
  - destruct (regroup2 x y) as (B1 & B2 & B3 & _). apply Forall_app. split; [|apply Hp]. repeat constructor; by apply Hs.
  - destruct (regroup3 x y z) as (B1 & B2 & B3 & B4 & _). rewrite !Forall_app. split_and!; [|apply Hp|done]. repeat constructor; by apply Hs.
Qed.

(** No line break, no dot, and ASCII. *)
Lemma encode_chars e b : known e -> Forall (fun c => line_break c = false /\ c <> "."%char) (encode e b).
Proof.
  intros He. apply encode_Forall; [|by vm_compute]. intros z Hz. destruct (sextet_char_ok e z He Hz) as (_ & ? & _ & ? & _). done.
Qed.

Lemma DecodeString_EncodeToString e b : known e -> DecodeString e (EncodeToString e b) = Some b.
Proof.
  intros He. unfold DecodeString, EncodeToString. rewrite list_ascii_of_string_of_list_ascii, filter_all; [by apply decode_encode|].
  intros c Hc. assert (Hf := encode_chars e b He). rewrite Forall_forall in Hf. by apply Hf.
Qed.

Lemma EncodeToString_no_dot e b : known e -> contains_char "."%char (EncodeToString e b) = false.
Proof.
  intros He. unfold EncodeToString. induction (encode_chars e b He) as [|c l [_ Hc] _ IH]; [done|].
  cbn [string_of_list_ascii contains_char]. rewrite IH. by destruct (Ascii.eqb_spec c "."%char).
Qed.

Lemma EncodeToString_inj e b1 b2 : known e -> EncodeToString e b1 = EncodeToString e b2 -> b1 = b2.
Proof.
  intros He E. apply (f_equal (DecodeString e)) in E. rewrite !DecodeString_EncodeToString in E by done. by injection E.
Qed.
