(* ===== verification/Netip.v ===== *)
(** * IP addresses: what the components use of package [net/netip]

    [ParseAddr] and [Addr.String], with the zones and the embedded IPv4 forms of IPv6. *)

From S2P Require Import Prelude Text.

(** An address: four octets, or eight groups of 16 bits with a zone. *)
Inductive Addr : Type :=
| V4 (a b c d : Z)
| V6 (groups : list Z) (zone : string).

#[export] Instance Addr_eq_dec : EqDecision Addr.
Proof. solve_decision. Defined.

Definition Is4 (a : Addr) : bool := match a with V4 _ _ _ _ => true | V6 _ _ => false end.
Definition Is6 (a : Addr) : bool := negb (Is4 a).

Definition dot : ascii := "."%char.

(** ** Parsing *)

(** One field of an IPv4 address: no leading zero, at most 255. *)
Definition parse_octet (s : string) : option Z :=
  match s with
  | EmptyString => None
  | String "0"%char (String _ _) => None
  | _ => v ← parse_digits 0 s; if v <=? 255 then Some v else None
  end.

Definition parseIPv4Fields (s : string) : option (Z * Z * Z * Z) :=
  match split_char dot s with
  | [w1; w2; w3; w4] =>
      a ← parse_octet w1; b ← parse_octet w2; c ← parse_octet w3; d ← parse_octet w4; Some (a, b, c, d)
  | _ => None
  end.

(** The hexadecimal digits a string starts with, and the rest. *)
Fixpoint hex_prefix (s : string) : list Z * string :=
  match s with
  | EmptyString => ([], EmptyString)
  | String c s' => match hex_digit c with
                   | Some v => let '(vs, rest) := hex_prefix s' in (v :: vs, rest)
                   | None => ([], s)
                   end
  end.

Definition hex_value (ds : list Z) : Z := fold_left (fun acc d => acc * 16 + d) ds 0.

(** The loop of [parseIPv6]: the groups read, where [::] stood, and what is left. The fuel is the
    number of groups an address has room for. *)
Fixpoint parse_groups (fuel : nat) (s : string) (groups : list Z) (ellipsis : option nat) :
    option (list Z * option nat * string) :=
  match fuel with
  | O => Some (groups, ellipsis, s)
  | S fuel' =>
      let '(ds, rest) := hex_prefix s in
      if ((List.length ds =? 0) || (4 <? List.length ds))%nat then None
      else
        let groups' := groups ++ [hex_value ds] in
        match rest with
        | EmptyString => Some (groups', ellipsis, EmptyString)
        | String "."%char _ =>
            if (bool_decide (ellipsis = None) && negb (List.length groups =? 6)%nat) || (8 <? List.length groups + 2)%nat then None
            else '(a, b, c, d) ← parseIPv4Fields s;
                 Some (groups ++ [a * 256 + b; c * 256 + d], ellipsis, EmptyString)
        | String ":"%char EmptyString => None
        | String ":"%char (String ":"%char rest') =>
            match ellipsis with
            | Some _ => None
            | None => if is_empty rest' then Some (groups', Some (List.length groups'), EmptyString)
                      else parse_groups fuel' rest' groups' (Some (List.length groups'))
            end
        | String ":"%char rest' => parse_groups fuel' rest' groups' ellipsis
        | _ => None
        end
  end.

(** The zeros [::] stands for. *)
Definition expand (groups : list Z) (ellipsis : option nat) : option (list Z) :=
  match ellipsis with
  | None => if (List.length groups =? 8)%nat then Some groups else None
  | Some e => if (8 <=? List.length groups)%nat then None
              else Some (take e groups ++ replicate (8 - List.length groups) 0 ++ drop e groups)
  end.

Definition parseIPv6 (in_ : string) : option Addr :=
  '(s, zone) ← match Cut "%"%char in_ with
               | Some (s, zone) => if is_empty zone then None else Some (s, zone)
               | None => Some (in_, EmptyString)
               end;
  let '(s, start) := match CutPrefix s "::" with Some s' => (s', Some 0%nat) | None => (s, None) end in
  if bool_decide (start = Some 0%nat) && is_empty s then Some (V6 (replicate 8 0) zone)
  else
    '(groups, ellipsis, rest) ← parse_groups 8 s [] start;
    if negb (is_empty rest) then None
    else gs ← expand groups ellipsis; Some (V6 gs zone).

(** The first of [.], [:] and [%] decides what the string is. *)
Fixpoint addr_kind (s : string) : option ascii :=
  match s with
  | EmptyString => None
  | String c s' => if Ascii.eqb c "." || Ascii.eqb c ":" || Ascii.eqb c "%" then Some c else addr_kind s'
  end.

Definition ParseAddr (s : string) : option Addr :=
  match addr_kind s with
  | Some "."%char => '(a, b, c, d) ← parseIPv4Fields s; Some (V4 a b c d)
  | Some ":"%char => parseIPv6 s
  | _ => None
  end.

(** ** Printing *)

Definition string4 (a b c d : Z) : string := Join "." (pretty <$> [a; b; c; d]).

Definition hex_char (d : Z) : ascii := ascii_of_nat (Z.to_nat (if d <? 10 then 48 + d else 87 + d)).

(** [appendHex]: four bits at a time, without leading zeros. *)
Definition hex16 (g : Z) : string :=
  let d i := Z.land (Z.shiftr g (4 * i)) 15 in
  (if 0xfff <? g then String (hex_char (d 3)) EmptyString else EmptyString) +:+
  (if 0xff <? g then String (hex_char (d 2)) EmptyString else EmptyString) +:+
  (if 0xf <? g then String (hex_char (d 1)) EmptyString else EmptyString) +:+
  String (hex_char (d 0)) EmptyString.

Fixpoint zero_run (gs : list Z) : nat :=
  match gs with 0 :: gs' => S (zero_run gs') | _ => 0%nat end.

(** The longest run of at least two zero groups, the first of those of one length. *)
Definition longest_zeros (gs : list Z) : option (nat * nat) :=
  fold_left (fun best i =>
    let l := zero_run (drop i gs) in
    if ((2 <=? l) && (match best with Some (s, e) => e - s | None => 0 end <? l))%nat then Some (i, i + l)%nat else best)
    (seq 0 8) None.

Fixpoint print_groups (fuel : nat) (gs : list Z) (run : option (nat * nat)) (i : nat) : string :=
  match fuel with
  | O => EmptyString
  | S fuel' =>
      if (8 <=? i)%nat then EmptyString
      else if bool_decide (fst <$> run = Some i) then
        let e := default i (snd <$> run) in
        if (8 <=? e)%nat then "::" else "::" +:+ hex16 (nth e gs 0) +:+ print_groups fuel' gs run (S e)
      else (if (0 <? i)%nat then ":" else EmptyString) +:+ hex16 (nth i gs 0) +:+ print_groups fuel' gs run (S i)
  end.

Definition with_zone (s zone : string) : string := if is_empty zone then s else s +:+ "%" +:+ zone.

(** [Addr.String]. *)
Definition Addr_String (a : Addr) : string :=
  match a with
  | V4 a b c d => string4 a b c d
  | V6 [0; 0; 0; 0; 0; 0xffff; g; h] zone =>
      with_zone ("::ffff:" +:+ string4 (g / 256) (g mod 256) (h / 256) (h mod 256)) zone
  | V6 gs zone => with_zone (print_groups 9 gs (longest_zeros gs) 0) zone
  end.

Example parse_v6 : ParseAddr "2001:DB8::0:1%eth0" = Some (V6 [0x2001; 0xdb8; 0; 0; 0; 0; 0; 1] "eth0").
Proof. vm_compute. reflexivity. Qed.
Example print_v6 : Addr_String (V6 [0x2001; 0xdb8; 0; 0; 1; 0; 0; 1] "eth0") = "2001:db8::1:0:0:1%eth0".
Proof. vm_compute. reflexivity. Qed.
Example parse_v6_v4 : ParseAddr "::ffff:192.0.2.1" = Some (V6 [0; 0; 0; 0; 0; 0xffff; 0xc000; 0x201] "").
Proof. vm_compute. reflexivity. Qed.
Example print_v6_v4 : Addr_String (V6 [0; 0; 0; 0; 0; 0xffff; 0xc000; 0x201] "") = "::ffff:192.0.2.1".
Proof. vm_compute. reflexivity. Qed.
Example parse_bad : ParseAddr <$> ["192.0.2.01"; "192.0.2.256"; "1:2:3:4:5:6:7:8::"; ":1"; "1:"; "12345::"; "1.2.3"] = replicate 7 None.
Proof. vm_compute. reflexivity. Qed.

(** ** Octets and dotted quads *)

Definition octet (z : Z) : Prop := 0 <= z < 256.

Lemma parse_octet_pretty z : octet z -> parse_octet (pretty z) = Some z /\ contains_char dot (pretty z) = false.
Proof.
  intros Hz. split; [|by apply pretty_Z_no_char].
  assert (H : forallb (fun n => bool_decide (parse_octet (pretty (Z.of_nat n)) = Some (Z.of_nat n))) (seq 0 256) = true)
    by (vm_compute; reflexivity).
  rewrite forallb_forall in H. specialize (H (Z.to_nat z)). unfold octet in Hz.
  rewrite in_seq, Z2Nat.id, bool_decide_eq_true in H by lia. apply H. lia.
Qed.

Lemma parseIPv4Fields_join a b c d : octet a -> octet b -> octet c -> octet d ->
  parseIPv4Fields (Join "." (pretty <$> [a; b; c; d])) = Some (a, b, c, d).
Proof.
  intros Ha Hb Hc Hd. unfold parseIPv4Fields. rewrite (split_char_Join dot).
  - cbn [fmap list_fmap]. rewrite !(fun z H => proj1 (parse_octet_pretty z H)) by done. done.
  - done.
  - cbn [fmap list_fmap]. repeat constructor; by apply parse_octet_pretty.
Qed.

Lemma addr_kind_dotted (w rest : string) :
  (forall c, Ascii.eqb c "." || Ascii.eqb c ":" || Ascii.eqb c "%" = true -> contains_char c w = false) ->
  addr_kind (w +:+ String dot rest) = Some dot.
Proof.
  induction w as [|e w IH]; intros Hw; [done|]. rewrite string_app_cons. cbn [addr_kind].
  destruct (Ascii.eqb e "." || Ascii.eqb e ":" || Ascii.eqb e "%") eqn:E.
  - specialize (Hw e E). cbn [contains_char] in Hw. by rewrite Ascii.eqb_refl in Hw.
  - apply IH. intros c Hc. specialize (Hw c Hc). cbn [contains_char] in Hw. by apply orb_false_iff in Hw as [_ ?].
Qed.

(** [ParseAddr] reads back what [String] prints of an IPv4 address. *)
Lemma ParseAddr_string4 a b c d : octet a -> octet b -> octet c -> octet d ->
  ParseAddr (string4 a b c d) = Some (V4 a b c d).
Proof.
  intros Ha Hb Hc Hd. unfold ParseAddr, string4.
  assert (addr_kind (Join "." (pretty <$> [a; b; c; d])) = Some dot) as ->.
  { cbn [fmap list_fmap]. apply (addr_kind_dotted (pretty a)). intros e He. apply pretty_Z_no_char.
    - apply orb_true_iff in He as [He|He]; [apply orb_true_iff in He as [He|He]|]; apply Ascii.eqb_eq in He as ->; done.
    - intros ->. done. }
  unfold dot. by rewrite parseIPv4Fields_join.
Qed.
