(* ===== verification/Names.v ===== *)
(** * Kerberos principal names: package [krbkeys], name.go

    The parsed form of a principal name, its printer and parser, the wire form, and the tests the
    KDC makes on names. *)

From S2P Require Import Prelude Text.

(** [krbkeys.Name]: the components and the realm. *)
Record Name : Type := mkName {
  Components : list string;
  Realm : string;
}.

#[global] Instance Name_eq_dec : EqDecision Name.
Proof. solve_decision. Defined.

(** [types.PrincipalName] of the Kerberos library: the wire form. *)
Record PrincipalName : Type := mkPrincipalName {
  NameType : Z;
  NameString : list string;
}.

Definition KRB_NT_PRINCIPAL : Z := 1.
Definition KRB_NT_SRV_INST : Z := 2.

Definition slash : ascii := "/"%char.
Definition at_sign : ascii := "@"%char.
Definition backslash : ascii := "\"%char.

(** The errors of [ParseName]. *)
Inductive NameError : Type :=
| ErrEmptyName
| ErrNoRealm
| ErrEmptyComponent.

(** The loop of [lastUnescapedIndex] with [i] positions left to look at, from the end. *)
Fixpoint lastUnescapedIndex_from (s : string) (c : ascii) (i : nat) : option nat :=
  match i with
  | O => None
  | S i' =>
      match String.get i' s with
      | Some d =>
          if negb (Ascii.eqb d c) then lastUnescapedIndex_from s c i'
          else if (i' =? 0)%nat then Some i'
          else match String.get (i' - 1) s with
               | Some p => if negb (Ascii.eqb p backslash) then Some i'
                           else lastUnescapedIndex_from s c i'
               | None => None
               end
      | None => None
      end
  end.

Definition lastUnescapedIndex (s : string) (c : ascii) : option nat :=
  lastUnescapedIndex_from s c (String.length s).

(** [splitUnescaped]: [cur] is the builder, [esc] the escape flag; the words come out in order. *)
Fixpoint splitUnescaped_from (s : string) (sep : ascii) (cur : string) (esc : bool) : list string :=
  match s with
  | EmptyString => [cur]
  | String c s' =>
      if esc then splitUnescaped_from s' sep (cur +:+ String c EmptyString) false
      else if Ascii.eqb c backslash then splitUnescaped_from s' sep cur true
      else if Ascii.eqb c sep then cur :: splitUnescaped_from s' sep EmptyString false
      else splitUnescaped_from s' sep (cur +:+ String c EmptyString) false
  end.

Definition splitUnescaped (s : string) (sep : ascii) : list string :=
  splitUnescaped_from s sep EmptyString false.

Definition ParseName (s defaultRealm : string) : outcome NameError Name :=
  let s := TrimSpace s in
  _ ← err_if (is_empty s) ErrEmptyName;
  let '(realm, s) :=
    match lastUnescapedIndex s at_sign with
    | Some i => (String.substring (S i) (String.length s - S i) s, String.substring 0 i s)
    | None => (defaultRealm, s)
    end in
  let realm := ToUpper realm in
  _ ← err_if (is_empty realm) ErrNoRealm;
  let comps := splitUnescaped s slash in
  _ ← err_if (existsb is_empty comps) ErrEmptyComponent;
  mret (mkName comps realm).

Definition MustParseName {E} (s defaultRealm : string) : outcome E Name :=
  match ParseName s defaultRealm with
  | Ok n => Ok n
  | Err _ => Panic
  | Panic => Panic
  end.

Definition NameFromPrincipalName (pn : PrincipalName) (realm : string) : Name :=
  mkName (NameString pn) (ToUpper realm).

(** [Name.Principal]: the name without the realm. *)
Definition Principal_of (n : Name) : string := Join "/" (Components n).

(** [Name.String]. *)
Definition String_of (n : Name) : string := Principal_of n +:+ "@" +:+ Realm n.

Definition Type_of (n : Name) : Z :=
  if (1 <? List.length (Components n))%nat then KRB_NT_SRV_INST else KRB_NT_PRINCIPAL.

Definition PrincipalName_of (n : Name) : PrincipalName :=
  mkPrincipalName (Type_of n) (Components n).

Definition IsTGS (n : Name) : bool :=
  match Components n with
  | [c0; _] => String.eqb c0 "krbtgt"
  | _ => false
  end.

Definition IsChangePW (n : Name) : bool :=
  match Components n with
  | [c0; c1] => String.eqb c0 "kadmin" && String.eqb c1 "changepw"
  | _ => false
  end.

(** The loop of [Equal] over the components, the lengths already equal. *)
Fixpoint components_equal (a b : list string) : bool :=
  match a, b with
  | x :: a', y :: b' => String.eqb x y && components_equal a' b'
  | _, _ => true
  end.

Definition Equal (n o : Name) : bool :=
  if negb (List.length (Components n) =? List.length (Components o))%nat
     || negb (EqualFold (Realm n) (Realm o)) then false
  else components_equal (Components n) (Components o).

Definition DefaultSalt (n : Name) : string := Realm n +:+ Join "" (Components n).

(** ** Comparison *)

Lemma components_equal_spec a b :
  List.length a = List.length b -> components_equal a b = true <-> a = b.
Proof.
  revert b. induction a as [|x a IH]; intros [|y b] Hl; simpl in *; try done.
  rewrite andb_true_iff, String.eqb_eq, IH by lia. naive_solver.
Qed.

Lemma Equal_spec n o :
  Equal n o = true <-> Components n = Components o /\ ToUpper (Realm n) = ToUpper (Realm o).
Proof.
  unfold Equal. rewrite <- EqualFold_upper.
  destruct (Nat.eqb_spec (List.length (Components n)) (List.length (Components o))) as [Hl|Hl]; simpl.
  - destruct (EqualFold (Realm n) (Realm o)); simpl; [|naive_solver].
    rewrite components_equal_spec by done. naive_solver.
  - split; [done|]. intros [Hc _]. rewrite Hc in Hl. done.
Qed.

#[global] Instance Equal_equivalence : Equivalence (fun n o => Equal n o = true).
Proof.
  split.
  - intros n. by apply Equal_spec.
  - intros n o. rewrite !Equal_spec. naive_solver.
  - intros n o p. rewrite !Equal_spec. naive_solver congruence.
Qed.

Lemma NameFromPrincipalName_of n :
  ToUpper (Realm n) = Realm n -> NameFromPrincipalName (PrincipalName_of n) (Realm n) = n.
Proof. intros H. destruct n. unfold NameFromPrincipalName. simpl in *. by rewrite H. Qed.

(** ** Parsing what was printed *)

(** MIT's quoting: a separator inside a component is written after a backslash. *)
Fixpoint quote (s : string) : string :=
  match s with
  | EmptyString => EmptyString
  | String c s' =>
      if Ascii.eqb c slash || Ascii.eqb c at_sign
      then String backslash (String c (quote s'))
      else String c (quote s')
  end.

Definition quoted_principal (n : Name) : string := Join "/" (quote <$> Components n).
Definition quoted (n : Name) : string := quoted_principal n +:+ "@" +:+ Realm n.

Definition no_char (c : ascii) (s : string) : Prop := contains_char c s = false.

(** A string that is empty or ends with something other than a backslash. *)
Definition ends_plain (s : string) : Prop :=
  s = EmptyString \/ exists q c, s = q +:+ String c EmptyString /\ c <> backslash.

Lemma ends_plain_cons c s : c <> backslash -> ends_plain s -> ends_plain (String c s).
Proof.
  intros Hc [->|(q & d & -> & Hd)]; right.
  - by exists EmptyString, c.
  - exists (String c q), d. by rewrite string_app_cons.
Qed.

Lemma ends_plain_app s t : ends_plain t -> t <> EmptyString -> ends_plain (s +:+ t).
Proof.
  intros [->|(q & d & -> & Hd)] Hne; [done|]. right.
  exists (s +:+ q), d. by rewrite string_app_assoc.
Qed.

Lemma contains_char_cons c d s :
  no_char c (String d s) <-> d <> c /\ no_char c s.
Proof.
  unfold no_char. simpl. rewrite orb_false_iff, Ascii.eqb_neq. done.
Qed.

Lemma no_char_app c s t : no_char c s -> no_char c t -> no_char c (s +:+ t).
Proof.
  induction s as [|d s IH]; [done|]. rewrite string_app_cons, !contains_char_cons. naive_solver.
Qed.

Lemma ends_plain_quote s : no_char backslash s -> ends_plain (quote s).
Proof.
  induction s as [|c s IH]; [by left|]. rewrite contains_char_cons. intros [Hc Hs]. simpl.
  case_if; [|by apply ends_plain_cons; auto].
  destruct (quote s) as [|d t] eqn:E; [|].
  - right. exists (String backslash EmptyString), c. done.
  - rewrite <- E in *.
    replace (String backslash (String c (quote s)))
      with (String backslash (String c EmptyString) +:+ quote s) by done.
    apply ends_plain_app; [by apply IH|]. by rewrite E.
Qed.

Lemma ends_plain_join ws :
  Forall (no_char backslash) ws -> ends_plain (Join "/" (quote <$> ws)).
Proof.
  induction ws as [|w ws IH]; [by left|]. intros [Hw Hws]%Forall_cons.
  destruct ws as [|w' ws]; [by apply ends_plain_quote|].
  change (ends_plain (quote w +:+ "/" +:+ Join "/" (quote <$> w' :: ws))).
  rewrite <- string_app_assoc.
  destruct (Join "/" (quote <$> w' :: ws)) as [|c s] eqn:E.
  - rewrite string_app_nil_r. apply ends_plain_app; [|done]. right. by exists EmptyString, slash.
  - rewrite <- E in *. apply ends_plain_app; [by apply IH|]. by rewrite E.
Qed.

(** The parser's scan consumes a quoted component and adds the component to its builder. *)
Lemma splitUnescaped_quote w rest cur :
  no_char backslash w ->
  splitUnescaped_from (quote w +:+ rest) slash cur false
  = splitUnescaped_from rest slash (cur +:+ w) false.
Proof.
  revert cur. induction w as [|c w IH]; intros cur; [by rewrite string_app_nil_r|].
  rewrite contains_char_cons. intros [Hc Hw]. cbn [quote].
  assert (Hb : Ascii.eqb c backslash = false) by by apply Ascii.eqb_neq.
  replace (cur +:+ String c w) with ((cur +:+ String c EmptyString) +:+ w)
    by by rewrite string_app_assoc.
  destruct (Ascii.eqb c slash) eqn:Es; [|destruct (Ascii.eqb c at_sign)]; cbn [orb];
    rewrite !string_app_cons; cbn [splitUnescaped_from]; rewrite ?Hb, ?Es, ?Ascii.eqb_refl;
    by apply IH.
Qed.

Lemma splitUnescaped_join w ws cur :
  Forall (no_char backslash) (w :: ws) ->
  splitUnescaped_from (Join "/" (quote <$> w :: ws)) slash cur false = (cur +:+ w) :: ws.
Proof.
  revert w cur. induction ws as [|w' ws IH]; intros w cur [Hw Hws]%Forall_cons.
  - change (Join "/" (quote <$> [w])) with (quote w).
    rewrite <- (string_app_nil_r (quote w)). by rewrite splitUnescaped_quote.
  - change (Join "/" (quote <$> w :: w' :: ws))
      with (quote w +:+ "/" +:+ Join "/" (quote <$> w' :: ws)).
    rewrite splitUnescaped_quote by done.
    change ("/" +:+ Join "/" (quote <$> w' :: ws))
      with (String slash (Join "/" (quote <$> w' :: ws))).
    cbn [splitUnescaped_from]. f_equal. by rewrite IH.
Qed.

Lemma get_app_r (p t : string) i :
  String.get (String.length p + i) (p +:+ t) = String.get i t.
Proof. induction p as [|c p IH]; [done|]. rewrite string_app_cons. simpl. done. Qed.

Lemma get_app_l (p t : string) i :
  (i < String.length p)%nat -> String.get i (p +:+ t) = String.get i p.
Proof.
  revert i. induction p as [|c p IH]; intros i Hi; [simpl in Hi; lia|].
  rewrite string_app_cons. destruct i; simpl in *; [done|]. apply IH. lia.
Qed.

Lemma get_some s i : (i < String.length s)%nat -> exists c, String.get i s = Some c.
Proof.
  revert i. induction s as [|c s IH]; intros i Hi; [simpl in Hi; lia|].
  destruct i; simpl in *; [eauto|]. apply IH. lia.
Qed.

Lemma no_char_get c s i d : no_char c s -> String.get i s = Some d -> d <> c.
Proof.
  revert i. induction s as [|e s IH]; intros i; [by destruct i|].
  rewrite contains_char_cons. intros [He Hs]. destruct i; simpl; [naive_solver|]. by apply IH.
Qed.

(** The scan from the end passes over a tail that holds no separator. *)
Lemma lastUnescapedIndex_skip p t c k :
  no_char c t -> (k <= String.length t)%nat ->
  lastUnescapedIndex_from (p +:+ t) c (String.length p + k)
  = lastUnescapedIndex_from (p +:+ t) c (String.length p).
Proof.
  intros Ht. induction k as [|k IH]; intros Hk; [by rewrite Nat.add_0_r|].
  rewrite Nat.add_succ_r. cbn [lastUnescapedIndex_from]. rewrite get_app_r.
  destruct (get_some t k) as [d Hd]; [lia|]. rewrite Hd.
  rewrite (proj2 (Ascii.eqb_neq d c)) by by eapply no_char_get. simpl. apply IH. lia.
Qed.

Lemma lastUnescapedIndex_last p t :
  ends_plain p -> no_char at_sign t ->
  lastUnescapedIndex (p +:+ "@" +:+ t) at_sign = Some (String.length p).
Proof.
  intros Hp Ht. unfold lastUnescapedIndex.
  assert (Hl : String.length (p +:+ "@") = S (String.length p))
    by (rewrite length_app_string; simpl; lia).
  rewrite <- string_app_assoc, length_app_string.
  rewrite lastUnescapedIndex_skip by done. rewrite string_app_assoc, Hl.
  cbn [lastUnescapedIndex_from].
  rewrite <- (Nat.add_0_r (String.length p)) at 1. rewrite get_app_r. simpl.
  destruct Hp as [->|(q & c & -> & Hc)]; [done|].
  rewrite length_app_string. simpl. rewrite Nat.add_1_r. simpl. rewrite Nat.sub_0_r.
  rewrite string_app_assoc.
  rewrite <- (Nat.add_0_r (String.length q)), get_app_r. simpl.
  rewrite (proj2 (Ascii.eqb_neq c backslash)) by done. simpl.
  by rewrite Nat.add_0_r.
Qed.

(** A name that the printer and the parser agree on: at least one component, none of them empty
    or with a backslash in it; the realm upper-cased, not empty and free of the separator. *)
Definition printable (n : Name) : Prop :=
  Components n <> [] /\
  Forall (fun c => c <> EmptyString /\ no_char backslash c) (Components n) /\
  ToUpper (Realm n) = Realm n /\ Realm n <> EmptyString /\ no_char at_sign (Realm n) /\
  TrimSpace (quoted n) = quoted n.

Lemma is_empty_false s : s <> EmptyString -> is_empty s = false.
Proof. by destruct s. Qed.

Lemma existsb_is_empty l : Forall (fun c => c <> EmptyString) l -> existsb is_empty l = false.
Proof. induction 1 as [|c l Hc Hl IH]; [done|]. simpl. by rewrite is_empty_false, IH. Qed.

(** Components that need no quotation: a name made of them is read as they are joined. *)
Definition plain_component (w : string) : Prop :=
  w <> EmptyString /\ all_chars (fun c => negb (is_space c)) w = true /\ no_char slash w /\ no_char at_sign w /\ no_char backslash w.

Lemma quote_plain w : no_char slash w -> no_char at_sign w -> quote w = w.
Proof.
  induction w as [|c w IH]; [done|]. rewrite !contains_char_cons. intros [H1 H1'] [H2 H2']. cbn [quote].
  rewrite (proj2 (Ascii.eqb_neq c slash)), (proj2 (Ascii.eqb_neq c at_sign)) by done. cbn [orb]. by rewrite IH.
Qed.

Lemma lastUnescapedIndex_none s c : no_char c s -> lastUnescapedIndex s c = None.
Proof. intros Hs. exact (lastUnescapedIndex_skip EmptyString s c (String.length s) Hs (le_n _)). Qed.

Lemma ParseName_plain (w : string) (ws : list string) (realm : string) :
  Forall plain_component (w :: ws) -> realm <> EmptyString -> ParseName (Join "/" (w :: ws)) realm = Ok (mkName (w :: ws) (ToUpper realm)).
Proof.
  intros Hc Hr. unfold ParseName. set (text := Join "/" (w :: ws)).
  assert (Hq : text = Join "/" (quote <$> w :: ws)).
  { unfold text. f_equal. symmetry. rewrite <- (list_fmap_id (w :: ws)) at 2. apply list_fmap_ext. intros i v Hv.
    rewrite Forall_forall in Hc. destruct (Hc v) as (_ & _ & ? & ? & _); [by eapply list_elem_of_lookup_2|]. by apply quote_plain. }
  rewrite (TrimSpace_id text) by (apply all_chars_Join; [done|]; eapply Forall_impl; [exact Hc|]; by intros v (_ & ? & _)).
  rewrite is_empty_false.
  2: { unfold text. apply Forall_cons in Hc as [(Hne & _) _]. destruct w; [done|]. by destruct ws. }
  rewrite lastUnescapedIndex_none.
  2: { apply (all_chars_no_char (fun c => negb (Ascii.eqb c at_sign))); [done|]. apply all_chars_Join; [done|]. eapply Forall_impl; [exact Hc|].
       intros v (_ & _ & _ & Hat & _). clear -Hat. induction v as [|c v IH]; [done|]. apply contains_char_cons in Hat as [H1 H2].
       cbn [all_chars]. rewrite (proj2 (Ascii.eqb_neq c at_sign)) by done. by apply IH. }
  cbn [err_if mbind outcome_bind]. rewrite is_empty_false by (by destruct realm). cbn [err_if]. unfold splitUnescaped. rewrite Hq, splitUnescaped_join.
  2: { eapply Forall_impl; [exact Hc|]. by intros v (_ & _ & _ & _ & ?). }
  change (EmptyString +:+ w) with w. cbn [mbind outcome_bind]. rewrite existsb_is_empty; [done|]. eapply Forall_impl; [exact Hc|]. by intros v (? & _).
Qed.

(** Parsing a quoted name gives the name back, whatever the default realm. *)
Lemma ParseName_quoted (n : Name) (defaultRealm : string) :
  printable n -> ParseName (quoted n) defaultRealm = Ok n.
Proof.
  intros (Hne & Hcs & Hup & Hr & Hat & Htrim). unfold ParseName. rewrite Htrim.
  assert (Hbs : Forall (no_char backslash) (Components n)) by (eapply Forall_impl; [exact Hcs|]; naive_solver).
  assert (Hq : quoted n = quoted_principal n +:+ "@" +:+ Realm n) by done.
  rewrite is_empty_false
    by (rewrite Hq; by destruct (quoted_principal n)).
  rewrite Hq, lastUnescapedIndex_last by (done || by apply ends_plain_join).
  rewrite length_app_string, substring_prefix.
  replace (String.length (quoted_principal n) + String.length ("@" +:+ Realm n)
           - S (String.length (quoted_principal n)))%nat
    with (String.length (Realm n)) by (rewrite length_app_string; simpl; lia).
  replace (S (String.length (quoted_principal n)))
    with (String.length (quoted_principal n +:+ "@")) by (rewrite length_app_string; simpl; lia).
  rewrite <- string_app_assoc, substring_suffix, Hup. simpl.
  rewrite is_empty_false by done. simpl.
  unfold quoted_principal, splitUnescaped.
  destruct n as [[|w ws] realm]; [done|]. cbn [Components] in *.
  rewrite splitUnescaped_join by done.
  rewrite existsb_is_empty by (eapply Forall_impl; [exact Hcs|]; naive_solver). done.
Qed.

Lemma ParseName_quoted_witness :
  printable (mkName ["HTTP"; "www/a@b"] "EXAMPLE.COM") /\
  ParseName "HTTP/www\/a\@b@EXAMPLE.COM" "OTHER" = Ok (mkName ["HTTP"; "www/a@b"] "EXAMPLE.COM").
Proof.
  assert (H : printable (mkName ["HTTP"; "www/a@b"] "EXAMPLE.COM")).
  { repeat split; try done. repeat constructor; done. }
  split; [exact H|]. exact (ParseName_quoted _ "OTHER" H).
Defined.
