(* ===== verification/Keytab.v ===== *)
(** * Long-term keys and keytab files: package [krbkeys], keys.go, keytab.go, keytab_read.go

    The enctypes the service accepts, key derivation over the crypto library's enctypes, and the
    MIT keytab version 2 format: its writer, its reader and [MergeKeytab]. *)

From S2P Require Import Prelude Names.

(** ** keys.go *)

(** [krbkeys.Key]. *)
Record Key : Type := mkKey {
  EType : Z;
  Value : bytes;
  Salt : string;
  S2KParams : string;
}.

(** [types.EncryptionKey] of the Kerberos library. *)
Record EncryptionKey : Type := mkEncryptionKey {
  KeyType : Z;
  KeyValue : bytes;
}.

#[global] Instance EncryptionKey_eq_dec : EqDecision EncryptionKey.
Proof. solve_decision. Defined.
#[global] Instance Key_eq_dec : EqDecision Key.
Proof. solve_decision. Defined.

Definition EncryptionKey_of (k : Key) : EncryptionKey := mkEncryptionKey (EType k) (Value k).

(** The IANA numbers of the four AES enctypes. *)
Definition AES128_CTS_HMAC_SHA1_96 : Z := 17.
Definition AES256_CTS_HMAC_SHA1_96 : Z := 18.
Definition AES128_CTS_HMAC_SHA256_128 : Z := 19.
Definition AES256_CTS_HMAC_SHA384_192 : Z := 20.

Definition Supported (id : Z) : bool :=
  (id =? AES256_CTS_HMAC_SHA1_96) || (id =? AES128_CTS_HMAC_SHA1_96)
  || (id =? AES256_CTS_HMAC_SHA384_192) || (id =? AES128_CTS_HMAC_SHA256_128).

(** What the service uses of the crypto library's enctypes (go-krb5, package crypto and
    etypeID): the registry of names, and for a registered enctype its string-to-key function, its
    default parameters, and its random-to-key function. *)
Class EncTypeLib : Type := {
  ETypesByName : string -> option Z;
  GetEType : Z -> bool;
  GetDefaultStringToKeyParams : Z -> string;
  StringToKey : Z -> string -> string -> string -> option bytes;
  GetKeySeedBitLength : Z -> Z;
  RandomToKey : Z -> bytes -> bytes;
}.

Inductive KeyError : Type :=
| ErrUnknownEncType (name : string)
| ErrUnsupportedEncType (name : string)
| ErrNoEncTypes
| ErrEncType (id : Z)
| ErrDeriving (id : Z)
| ErrPasswordLength.

Section Keys.
Context `{EncTypeLib}.

(** The loop of [ResolveEncTypes]: [out] is the list built so far, which holds what [seen] maps. *)
Fixpoint ResolveEncTypes_from (names : list string) (out : list Z) : outcome KeyError (list Z) :=
  match names with
  | [] => mret out
  | n :: names' =>
      match ETypesByName (TrimSpace n) with
      | None => Err (ErrUnknownEncType n)
      | Some id =>
          if negb (Supported id) then Err (ErrUnsupportedEncType n)
          else if contains_Z id out then ResolveEncTypes_from names' out
          else ResolveEncTypes_from names' (out ++ [id])
      end
  end.

Definition ResolveEncTypes (names : list string) : outcome KeyError (list Z) :=
  out ← ResolveEncTypes_from names [];
  _ ← err_if (List.length out =? 0)%nat ErrNoEncTypes;
  mret out.

Fixpoint DeriveKeysWithSalt (password salt : string) (etypes : list Z) : outcome KeyError (list Key) :=
  match etypes with
  | [] => mret []
  | id :: etypes' =>
      _ ← err_if (negb (GetEType id)) (ErrEncType id);
      let params := GetDefaultStringToKeyParams id in
      kv ← or_err (ErrDeriving id) (StringToKey id password salt params);
      keys ← DeriveKeysWithSalt password salt etypes';
      mret (mkKey id kv salt params :: keys)
  end.

Definition DeriveKeys (password : string) (name : Name) (etypes : list Z) : outcome KeyError (list Key) :=
  DeriveKeysWithSalt password (DefaultSalt name) etypes.

(** [rand n i] is the [i]-th read of [n] random bytes. *)
Fixpoint RandomKeys (rand : nat -> nat -> bytes) (i : nat) (etypes : list Z) : outcome KeyError (list Key) :=
  match etypes with
  | [] => mret []
  | id :: etypes' =>
      _ ← err_if (negb (GetEType id)) (ErrEncType id);
      let seed := rand (Z.to_nat (GetKeySeedBitLength id / 8)) i in
      keys ← RandomKeys rand (S i) etypes';
      mret (mkKey id (RandomToKey id seed) EmptyString EmptyString :: keys)
  end.
End Keys.

Definition alphabet : string := "abcdefghijkmnopqrstuvwxyzABCDEFGHJKLMNPQRSTUVWXYZ23456789".

(** [RandomPassword(n)] on the [n] random bytes [b] it read. *)
Definition RandomPassword (n : Z) (b : bytes) : outcome KeyError string :=
  _ ← err_if (n <=? 0) ErrPasswordLength;
  mret (foldr (fun v s =>
      match String.get (Z.to_nat (Z_of_byte v mod Z.of_nat (String.length alphabet))) alphabet with
      | Some c => String c s
      | None => s
      end) EmptyString b).

(** ** keytab.go *)

Record KeytabEntry : Type := mkKeytabEntry {
  kt_Name : Name;
  kt_KVNO : Z;
  kt_Key : Key;
  kt_Timestamp : Time;
}.

Inductive KeytabError : Type :=
| ErrNoComponents
| ErrTooManyComponents
| ErrKeyTooLong
| ErrStringTooLong
| ErrNotKeytab
| ErrTruncatedKeytab
| ErrFuel.

Definition zlen {A} (l : list A) : Z := Z.of_nat (List.length l).

Definition writeCountedString (s : string) : outcome KeytabError bytes :=
  _ ← err_if (0xffff <? Z.of_nat (String.length s)) ErrStringTooLong;
  mret (put_be 2 (Z.of_nat (String.length s)) ++ bytes_of_string s).

Fixpoint writeCountedStrings (l : list string) : outcome KeytabError bytes :=
  match l with
  | [] => mret []
  | c :: l' => b ← writeCountedString c; bs ← writeCountedStrings l'; mret (b ++ bs)
  end.

(** The body of an entry; [now] is the clock's reading, used when the entry has no timestamp. *)
Definition marshalKeytabBody (now : Time) (e : KeytabEntry) : outcome KeytabError bytes :=
  _ ← err_if (zlen (Components (kt_Name e)) =? 0) ErrNoComponents;
  _ ← err_if (0x7fff <? zlen (Components (kt_Name e))) ErrTooManyComponents;
  _ ← err_if (0xffff <? zlen (Value (kt_Key e))) ErrKeyTooLong;
  realm ← writeCountedString (Realm (kt_Name e));
  comps ← writeCountedStrings (Components (kt_Name e));
  let ts := if IsZero (kt_Timestamp e) then now else kt_Timestamp e in
  mret (put_be 2 (zlen (Components (kt_Name e)))
        ++ realm ++ comps
        ++ put_be 4 (Type_of (kt_Name e))
        ++ put_be 4 (Unix ts)
        ++ put_be 1 (kt_KVNO e)
        ++ put_be 2 (EType (kt_Key e))
        ++ put_be 2 (zlen (Value (kt_Key e)))
        ++ Value (kt_Key e)
        ++ put_be 4 (kt_KVNO e)).

Definition marshalKeytabEntry (now : Time) (e : KeytabEntry) : outcome KeytabError bytes :=
  body ← marshalKeytabBody now e;
  mret (put_be 4 (zlen body) ++ body).

(** [clock i] is the reading for the [i]-th entry. *)
Fixpoint marshalKeytabEntries (clock : nat -> Time) (i : nat) (entries : list KeytabEntry) :
    outcome KeytabError bytes :=
  match entries with
  | [] => mret []
  | e :: es =>
      eb ← marshalKeytabEntry (clock i) e;
      rest ← marshalKeytabEntries clock (S i) es;
      mret (eb ++ rest)
  end.

Definition MarshalKeytab (clock : nat -> Time) (entries : list KeytabEntry) : outcome KeytabError bytes :=
  rest ← marshalKeytabEntries clock 0 entries;
  mret (Byte.x05 :: Byte.x02 :: rest).

(** ** keytab_read.go *)

(** A [bytes.Reader] is the bytes it has left. *)
Abbreviation Reader := (M bytes KeytabError).

Definition read_bytes (n : nat) : Reader bytes := fun r =>
  if (List.length r <? n)%nat then (Err ErrTruncatedKeytab, r) else (Ok (take n r), drop n r).

(** [binary.Read] of an unsigned integer of [n] bytes. *)
Definition read_uint (n : nat) : Reader Z := b ← read_bytes n; mret (get_be b).

Definition readCountedString : Reader string :=
  n ← read_uint 2; buf ← read_bytes (Z.to_nat n); mret (string_of_bytes buf).

Fixpoint readCountedStrings (n : nat) : Reader (list string) :=
  match n with
  | O => mret []
  | S n' => c ← readCountedString; cs ← readCountedStrings n'; mret (c :: cs)
  end.

Definition read_kvno32 (kvno8 : Z) : Reader Z := fun r =>
  if (4 <=? List.length r)%nat then read_uint 4 r else (Ok kvno8, r).

Definition parseKeytabEntry_reader : Reader KeytabEntry :=
  ncomp ← read_uint 2;
  realm ← readCountedString;
  comps ← readCountedStrings (Z.to_nat ncomp);
  nameType ← read_uint 4;
  ts ← read_uint 4;
  kvno8 ← read_uint 1;
  etype ← read_uint 2;
  keylen ← read_uint 2;
  key ← read_bytes (Z.to_nat keylen);
  kvno ← read_kvno32 kvno8;
  mret (mkKeytabEntry (mkName comps realm) kvno
          (mkKey etype key EmptyString EmptyString) (UnixTime ts)).

Definition parseKeytabEntry (b : bytes) : outcome KeytabError KeytabEntry :=
  fst (parseKeytabEntry_reader b).

(** The loop of [ParseKeytab]; each turn takes at least the four bytes of a size. *)
Fixpoint parse_entries (fuel : nat) (rest : bytes) (out : list KeytabEntry) :
    outcome KeytabError (list KeytabEntry) :=
  match fuel with
  | O => Err ErrFuel
  | S fuel' =>
      if (List.length rest =? 0)%nat then mret out
      else if (List.length rest <? 4)%nat then Err ErrTruncatedKeytab
      else
        let size := swrap 32 (get_be (take 4 rest)) in
        let rest := drop 4 rest in
        if size <? 0 then
          if zlen rest <? - size then Err ErrTruncatedKeytab
          else parse_entries fuel' (drop (Z.to_nat (- size)) rest) out
        else if (size =? 0) || (zlen rest <? size) then Err ErrTruncatedKeytab
        else
          e ← parseKeytabEntry (take (Z.to_nat size) rest);
          parse_entries fuel' (drop (Z.to_nat size) rest) (out ++ [e])
  end.

Definition ParseKeytab (data : bytes) : outcome KeytabError (list KeytabEntry) :=
  match data with
  | [] => mret []
  | b0 :: b1 :: rest =>
      if bool_decide (b0 = Byte.x05) && bool_decide (b1 = Byte.x02)
      then parse_entries (S (List.length rest)) rest []
      else Err ErrNotKeytab
  | _ => Err ErrNotKeytab
  end.

(** [fmt.Sprintf] of the identity of an entry. *)
Definition keytabEntryID (e : KeytabEntry) : string :=
  Join "/" (Components (kt_Name e)) +:+ "@" +:+ Realm (kt_Name e)
  +:+ "|" +:+ pretty (kt_KVNO e) +:+ "|" +:+ pretty (EType (kt_Key e)).

Definition MergeKeytab (existing added : list KeytabEntry) : list KeytabEntry :=
  let replaced : gset string := list_to_set (keytabEntryID <$> added) in
  filter (fun e => keytabEntryID e ∉ replaced) existing ++ added.

(** ** Reading back what was written *)

Lemma M_bind_run {St E A B} (m : M St E A) (f : A -> M St E B) s a s' :
  m s = (Ok a, s') -> (m ≫= f) s = f a s'.
Proof. intros H. unfold mbind, M_bind. by rewrite H. Qed.

Lemma read_bytes_app b r : read_bytes (List.length b) (b ++ r) = (Ok b, r).
Proof.
  unfold read_bytes. rewrite length_app.
  destruct (Nat.ltb_spec (List.length b + List.length r) (List.length b)); [lia|].
  by rewrite take_app_length, drop_app_length.
Qed.

Lemma read_uint_put n z r :
  0 <= z < 256 ^ Z.of_nat n -> read_uint n (put_be n z ++ r) = (Ok z, r).
Proof.
  intros Hz. unfold read_uint.
  rewrite (M_bind_run _ _ _ (put_be n z) r).
  - rewrite get_put_be, Z.mod_small by done. done.
  - rewrite <- (length_put_be n z) at 1. apply read_bytes_app.
Qed.

(** The same facts in the form the proofs use: a read at the head of a program. *)
Lemma read_uint_bind {B} n z r (f : Z -> Reader B) :
  0 <= z < 256 ^ Z.of_nat n -> (read_uint n ≫= f) (put_be n z ++ r) = f z r.
Proof. intros Hz. apply M_bind_run. by apply read_uint_put. Qed.

Lemma read_uint_bind_wrap {B} n z r (f : Z -> Reader B) :
  (read_uint n ≫= f) (put_be n z ++ r) = f (z mod 256 ^ Z.of_nat n) r.
Proof.
  rewrite <- (put_be_mod n z n) by lia. apply read_uint_bind, Z.mod_pos_bound. lia.
Qed.

Lemma read_bytes_bind {B} b r (f : bytes -> Reader B) :
  (read_bytes (List.length b) ≫= f) (b ++ r) = f b r.
Proof. apply M_bind_run, read_bytes_app. Qed.

(** Bounds on the fields of a keytab. *)
Ltac fits :=
  unfold zlen in *;
  repeat match goal with
  | |- context [256 ^ Z.of_nat ?n] =>
      let v := eval vm_compute in (256 ^ Z.of_nat n) in change (256 ^ Z.of_nat n) with v
  end; lia.

Lemma readCountedString_bind {B} s b r (f : string -> Reader B) :
  writeCountedString s = Ok b -> (readCountedString ≫= f) (b ++ r) = f s r.
Proof.
  unfold writeCountedString. intros H. run_inv. simp_bool. apply M_bind_run.
  unfold readCountedString. rewrite <- app_assoc, read_uint_bind by fits.
  rewrite Nat2Z.id, <- length_bytes_of_string, read_bytes_bind.
  by rewrite string_of_bytes_of_string.
Qed.

Lemma readCountedStrings_bind {B} l b r (f : list string -> Reader B) :
  writeCountedStrings l = Ok b -> (readCountedStrings (List.length l) ≫= f) (b ++ r) = f l r.
Proof.
  intros H. apply M_bind_run. revert b H.
  induction l as [|c l IH]; intros b H; cbn [writeCountedStrings] in H; run_inv; [done|].
  cbn [List.length readCountedStrings]. rewrite <- app_assoc.
  erewrite readCountedString_bind by eassumption.
  by rewrite (M_bind_run _ _ _ _ _ (IH _ ltac:(eassumption))).
Qed.

(** What an entry is after a trip through a file: the salt and string-to-key parameters are not
    part of the format, and the timestamp is a number of seconds of 32 bits. *)
Definition written_form (now : Time) (e : KeytabEntry) : KeytabEntry :=
  let ts := if IsZero (kt_Timestamp e) then now else kt_Timestamp e in
  mkKeytabEntry (kt_Name e) (kt_KVNO e)
    (mkKey (EType (kt_Key e)) (Value (kt_Key e)) EmptyString EmptyString)
    (UnixTime (wrap 32 (Unix ts))).

(** The numbers of an entry fit the fields they are written to. *)
Definition entry_fits (e : KeytabEntry) : Prop :=
  0 <= kt_KVNO e < 2 ^ 32 /\ 0 <= EType (kt_Key e) < 2 ^ 16.

Lemma parse_written_body now e body :
  marshalKeytabBody now e = Ok body -> entry_fits e ->
  parseKeytabEntry body = Ok (written_form now e).
Proof.
  unfold marshalKeytabBody. intros H [Hk He]. run_inv. simp_bool.
  unfold parseKeytabEntry, parseKeytabEntry_reader.
  set (ts := if IsZero (kt_Timestamp e) then now else kt_Timestamp e) in *.
  rewrite read_uint_bind by fits.
  erewrite readCountedString_bind by eassumption.
  unfold zlen at 1. rewrite Nat2Z.id.
  erewrite readCountedStrings_bind by eassumption.
  rewrite read_uint_bind by (unfold Type_of; case_if; vm_compute; split; congruence).
  rewrite !read_uint_bind_wrap.
  rewrite (Z.mod_small (EType _)), (Z.mod_small (zlen _)) by fits.
  unfold zlen at 1. rewrite Nat2Z.id, read_bytes_bind.
  rewrite <- (app_nil_r (put_be 4 (kt_KVNO e))).
  rewrite (M_bind_run _ _ _ (kt_KVNO e) []).
  - unfold written_form, ts, wrap. destruct e as [[] ? [] ?]. done.
  - unfold read_kvno32. rewrite length_app, length_put_be. cbn [Nat.leb Nat.add].
    apply read_uint_put. fits.
Qed.

Lemma marshalKeytabBody_nonempty now e body :
  marshalKeytabBody now e = Ok body -> 0 < zlen body.
Proof.
  unfold marshalKeytabBody. intros H. run_inv. unfold zlen. rewrite length_app, length_put_be. lia.
Qed.

Lemma parse_entries_entry fuel now e eb rest out :
  marshalKeytabEntry now e = Ok eb -> entry_fits e -> zlen eb <= 2 ^ 31 ->
  parse_entries (S fuel) (eb ++ rest) out = parse_entries fuel rest (out ++ [written_form now e]).
Proof.
  unfold marshalKeytabEntry. intros H Hf Hl. run_inv. rename x into body.
  pose proof (marshalKeytabBody_nonempty _ _ _ ltac:(eassumption)).
  unfold zlen in *. rewrite length_app, length_put_be in Hl.
  cbn [parse_entries]. unfold zlen. rewrite <- app_assoc.
  rewrite (take_app_length' (put_be 4 _)), (drop_app_length' (put_be 4 _))
    by by rewrite length_put_be.
  rewrite !length_app, length_put_be. cbn [Nat.add Nat.eqb Nat.ltb Nat.leb].
  rewrite get_put_be, Z.mod_small by fits.
  rewrite swrap_small by lia.
  replace (Z.of_nat (List.length body) <? 0) with false by lia.
  replace (Z.of_nat (List.length body) =? 0) with false by lia.
  rewrite (proj2 (Z.ltb_ge (Z.of_nat (List.length body + _)) _)) by lia.
  cbn [orb]. rewrite Nat2Z.id, take_app_length, drop_app_length.
  by rewrite (parse_written_body now e).
Qed.

Lemma parse_entries_hole fuel (h rest : bytes) out :
  0 < zlen h <= 2 ^ 31 ->
  parse_entries (S fuel) (put_be 4 (- zlen h) ++ h ++ rest) out = parse_entries fuel rest out.
Proof.
  unfold zlen. intros Hh. cbn [parse_entries]. unfold zlen.
  rewrite (take_app_length' (put_be 4 _)), (drop_app_length' (put_be 4 _))
    by by rewrite length_put_be.
  rewrite !length_app, length_put_be. cbn [Nat.add Nat.eqb Nat.ltb Nat.leb].
  assert (Hs : swrap 32 (get_be (put_be 4 (- Z.of_nat (List.length h)))) = - Z.of_nat (List.length h)).
  { rewrite get_put_be. change (256 ^ Z.of_nat 4) with (2 ^ 32). unfold swrap.
    rewrite Z.add_mod_idemp_l by lia. rewrite Z.mod_small; lia. }
  rewrite Hs, Z.opp_involutive.
  replace (- Z.of_nat (List.length h) <? 0) with true by lia.
  rewrite (proj2 (Z.ltb_ge (Z.of_nat (List.length h + _)) _)) by lia.
  rewrite Nat2Z.id. by rewrite drop_app_length.
Qed.

(** A keytab as an editor leaves it: entries, and holes where entries were deleted. *)
Inductive keytab_item : Type :=
| Entry (now : Time) (e : KeytabEntry)
| Hole (h : bytes).

Definition item_bytes (it : keytab_item) : outcome KeytabError bytes :=
  match it with
  | Entry now e => marshalKeytabEntry now e
  | Hole h => mret (put_be 4 (- zlen h) ++ h)
  end.

Fixpoint items_bytes (its : list keytab_item) : outcome KeytabError bytes :=
  match its with
  | [] => mret []
  | it :: its' => b ← item_bytes it; bs ← items_bytes its'; mret (b ++ bs)
  end.

Definition item_fits (it : keytab_item) : Prop :=
  match it with
  | Entry now e => entry_fits e /\ forall eb, marshalKeytabEntry now e = Ok eb -> zlen eb <= 2 ^ 31
  | Hole h => 0 < zlen h <= 2 ^ 31
  end.

Definition items_entries (its : list keytab_item) : list KeytabEntry :=
  flat_map (fun it => match it with Entry now e => [written_form now e] | Hole _ => [] end) its.

Lemma item_bytes_long it b : item_bytes it = Ok b -> (4 <= List.length b)%nat.
Proof.
  destruct it; cbn [item_bytes]; unfold marshalKeytabEntry; intros H; run_inv;
    rewrite length_app, length_put_be; lia.
Qed.

Lemma parse_entries_items its b fuel out :
  Forall item_fits its -> items_bytes its = Ok b -> (List.length b < fuel)%nat ->
  parse_entries fuel b out = Ok (out ++ items_entries its).
Proof.
  revert b fuel out. induction its as [|it its IH]; intros b fuel out Hf Hb Hfuel.
  - cbn [items_bytes] in Hb. run_inv. destruct fuel; [lia|]. cbn. by rewrite app_nil_r.
  - apply Forall_cons in Hf as [Hit Hits]. cbn [items_bytes] in Hb. run_inv.
    rename x into b0, x0 into bs.
    pose proof (item_bytes_long _ _ ltac:(eassumption)). rewrite length_app in Hfuel.
    destruct fuel as [|fuel]; [lia|].
    destruct it as [now e|h]; cbn [item_bytes item_fits items_entries flat_map] in *.
    + destruct Hit as [Hef Hlen]. rewrite (parse_entries_entry _ now e) by eauto.
      rewrite IH by (done || lia). by rewrite <- app_assoc.
    + run_inv. rewrite <- app_assoc, parse_entries_hole by done.
      rewrite IH by (done || lia). done.
Qed.

Lemma marshalKeytabEntries_items clock i es :
  marshalKeytabEntries clock i es = items_bytes (imap (fun j e => Entry (clock (i + j)%nat) e) es).
Proof.
  revert i. induction es as [|e es IH]; intros i; [done|].
  cbn [marshalKeytabEntries imap items_bytes item_bytes]. rewrite IH, Nat.add_0_r.
  rewrite (imap_ext (_ ∘ S) (fun j e => Entry (clock (S i + j)%nat) e) es); [done|].
  intros j e' _. simpl. do 2 f_equal. lia.
Qed.

Lemma items_bytes_elem its b it :
  items_bytes its = Ok b -> it ∈ its -> exists b', item_bytes it = Ok b' /\ zlen b' <= zlen b.
Proof.
  revert b. induction its as [|it' its IH]; intros b Hb Hin; [by apply elem_of_nil in Hin|].
  cbn [items_bytes] in Hb. run_inv. unfold zlen in *. rewrite length_app.
  apply elem_of_cons in Hin as [->|Hin]; [eexists; split; [done|lia]|].
  destruct (IH _ ltac:(done) Hin) as (b' & ? & ?). exists b'. split; [done|lia].
Qed.

Lemma items_entries_imap clock i es :
  items_entries (imap (fun j e => Entry (clock (i + j)%nat) e) es)
  = imap (fun j e => written_form (clock (i + j)%nat) e) es.
Proof.
  unfold items_entries. revert i. induction es as [|e es IH]; intros i; [done|].
  cbn [imap flat_map]. f_equal.
  etransitivity; [|etransitivity; [apply (IH (S i))|]].
  - f_equal. apply imap_ext. intros j ? _. simpl. do 2 f_equal. lia.
  - apply imap_ext. intros j ? _. simpl. f_equal. f_equal. lia.
Qed.

Lemma parse_items its b :
  Forall item_fits its -> items_bytes its = Ok b ->
  ParseKeytab (Byte.x05 :: Byte.x02 :: b) = Ok (items_entries its).
Proof. 
  intros Hf Hb. change (parse_entries (S (List.length b)) b [] = Ok (items_entries its)).
  rewrite (parse_entries_items its); [done|done|done|lia].
Qed.

(** The entries of a marshalled file, one after the other. *)
Lemma parse_marshalled (clock : nat -> Time) (es : list KeytabEntry) (b : bytes) :
  Forall entry_fits es -> zlen b <= 2 ^ 31 -> MarshalKeytab clock es = Ok b ->
  ParseKeytab b = Ok (imap (fun i e => written_form (clock i) e) es).
Proof.
  unfold MarshalKeytab. intros Hf Hl H. run_inv. rename x into r.
  rewrite marshalKeytabEntries_items in *.
  rewrite (parse_items (imap (fun j e => Entry (clock (0 + j)%nat) e) es)); [|  |done].
  - by rewrite items_entries_imap.
  - apply Forall_forall. intros it Hit.
    destruct (items_bytes_elem _ _ _ ltac:(done) Hit) as (b' & Hb' & Hle).
    apply list_elem_of_lookup in Hit as [j Hj].
    rewrite list_lookup_imap in Hj. destruct (es !! j) as [e|] eqn:He; [|done].
    simplify_eq/=. split.
    + by eapply Forall_lookup_1.
    + intros eb Heb. assert (eb = b') as -> by congruence.
      unfold zlen in *. simpl in Hl. lia.
Qed.

(** C40: a keytab written by [MarshalKeytab] is read back by [ParseKeytab] entry for entry, in order:
    the same name, key version, enctype and key, and the timestamp in whole seconds. *)
Theorem ParseKeytab_MarshalKeytab (clock : nat -> Time) (es : list KeytabEntry) (b : bytes) :
  Forall entry_fits es -> zlen b <= 2 ^ 31 -> MarshalKeytab clock es = Ok b ->
  ParseKeytab b = Ok (imap (fun i e => written_form (clock i) e) es).
Proof. intros Hf Hl Hm. exact (parse_marshalled clock es b Hf Hl Hm). Qed.

Definition sample_entry : KeytabEntry :=
  mkKeytabEntry (mkName ["HTTP"; "www.example.com"] "EXAMPLE.COM") 300
    (mkKey 18 [Byte.x01; Byte.xff] "salt" "params") (UnixTime 1700000000).

Lemma ParseKeytab_MarshalKeytab_witness :
  exists b, MarshalKeytab (fun _ => 0) [sample_entry; sample_entry] = Ok b /\
  ParseKeytab b = Ok [written_form 0 sample_entry; written_form 0 sample_entry].
Proof.
  eexists. split; [vm_compute; reflexivity|].
  refine (ParseKeytab_MarshalKeytab (fun _ => 0) [sample_entry; sample_entry] _ _ _ _).
  - repeat constructor; vm_compute; congruence.
  - vm_compute. congruence.
  - vm_compute. reflexivity.
Defined.

(** The holes a keytab editor leaves where it deleted entries do not disturb the entries
    around them. *)
Lemma ParseKeytab_holes (its : list keytab_item) (b : bytes) :
  Forall item_fits its -> items_bytes its = Ok b ->
  ParseKeytab (Byte.x05 :: Byte.x02 :: b) = Ok (items_entries its).
Proof. apply parse_items. Qed.

Lemma ParseKeytab_holes_witness :
  exists b, items_bytes [Hole [Byte.x07; Byte.x08]; Entry 0 sample_entry; Hole [Byte.x01]] = Ok b /\
  ParseKeytab (Byte.x05 :: Byte.x02 :: b) = Ok [written_form 0 sample_entry].
Proof.
  eexists. split; [vm_compute; reflexivity|].
  refine (ParseKeytab_holes [Hole [Byte.x07; Byte.x08]; Entry 0 sample_entry; Hole [Byte.x01]] _ _ _).
  - repeat (apply Forall_cons; split); [..|done]; split; [vm_compute; congruence|vm_compute; congruence| | |vm_compute; congruence|vm_compute; congruence].
    { split; split; vm_compute; congruence. }
    intros eb Heb. vm_compute in Heb. injection Heb as <-. vm_compute. congruence.
  - vm_compute. reflexivity.
Defined.

(** ** The reader always finishes *)

Lemma parseKeytabEntry_no_fuel b : parseKeytabEntry b <> Err ErrFuel.
Proof.
  assert (Hb : forall n r, fst (read_bytes n r) <> Err ErrFuel)
    by (intros; unfold read_bytes; case_if; done).
  assert (Hbind : forall A B (m : Reader A) (f : A -> Reader B) r,
    (forall r, fst (m r) <> Err ErrFuel) -> (forall a r, fst (f a r) <> Err ErrFuel) ->
    fst ((m ≫= f) r) <> Err ErrFuel).
  { intros A B m f r Hm Hf. unfold mbind, M_bind. specialize (Hm r).
    destruct (m r) as [[] ?]; simpl in *; naive_solver. }
  assert (Hu : forall n r, fst (read_uint n r) <> Err ErrFuel)
    by (intros; apply Hbind; [done|]; intros; done).
  assert (Hs : forall r, fst (readCountedString r) <> Err ErrFuel)
    by (intros; apply Hbind; [done|]; intros; apply Hbind; [done|]; intros; done).
  assert (Hss : forall n r, fst (readCountedStrings n r) <> Err ErrFuel).
  { induction n; [done|]. intros. apply Hbind; [done|]. intros. apply Hbind; [done|]. intros; done. }
  assert (Hk : forall k r, fst (read_kvno32 k r) <> Err ErrFuel)
    by (intros; unfold read_kvno32; case_if; [apply Hu|done]).
  unfold parseKeytabEntry, parseKeytabEntry_reader.
  repeat (apply Hbind; [done|]; intros). done.
Qed.

Lemma parse_entries_no_fuel fuel rest out :
  (List.length rest < fuel)%nat -> parse_entries fuel rest out <> Err ErrFuel.
Proof.
  revert rest out. induction fuel as [|fuel IH]; intros rest out Hl; [lia|].
  cbn [parse_entries].
  repeat case_if; try done.
  - apply IH. rewrite !length_drop. apply Nat.ltb_ge in Heqb0. lia.
  - pose proof (parseKeytabEntry_no_fuel
      (take (Z.to_nat (swrap 32 (get_be (take 4 rest)))) (drop 4 rest))) as Hp.
    destruct (parseKeytabEntry _); simpl; [|congruence|done].
    apply IH. rewrite !length_drop. apply Nat.ltb_ge in Heqb0. lia.
Qed.

(** [ParseKeytab] terminates on every input: the loop never takes more turns than the input has
    bytes, whatever sizes the input declares. *)
Lemma ParseKeytab_terminates (data : bytes) : ParseKeytab data <> Err ErrFuel.
Proof.
  destruct data as [|b0 [|b1 rest]]; [done|done|].
  cbn [ParseKeytab]. case_if; [|done]. apply parse_entries_no_fuel. lia.
Qed.

(** ** What was read is written as it was read *)

Definition as_read (e : KeytabEntry) : Prop := entry_fits e /\ forall now, written_form now e = e.

Lemma read_uint_range n r z r' : read_uint n r = (Ok z, r') -> 0 <= z < 256 ^ Z.of_nat n.
Proof.
  unfold read_uint. intros Hr. run_inv. unfold read_bytes in *. destruct (Nat.ltb_spec (List.length r) n); simplify_eq.
  pose proof (get_be_range (take n r)) as Hb. rewrite length_take, Nat.min_l in Hb by lia. exact Hb.
Qed.

Lemma parsed_as_read b e : parseKeytabEntry b = Ok e -> as_read e.
Proof.
  unfold parseKeytabEntry. destruct (parseKeytabEntry_reader b) as [r b'] eqn:E. cbn [fst]. intros ->. unfold parseKeytabEntry_reader in E. run_inv.
  repeat match goal with H : read_uint _ _ = (Ok _, _) |- _ => apply read_uint_range in H end.
  match goal with H : read_kvno32 ?k _ = (Ok ?v, _) |- _ => assert (Hk : 0 <= v < 2 ^ 32);
    [unfold read_kvno32 in H; case_if; [by apply read_uint_range in H|injection H as <- _; lia]|] end.
  split; [split; cbn; lia|]. intros now. unfold written_form. cbn [kt_Name kt_KVNO kt_Key kt_Timestamp EType Value].
  destruct (IsZero _) eqn:Ez; [|rewrite Unix_UnixTime, wrap_small by lia; reflexivity].
  unfold IsZero, UnixTime, zeroTime, second in Ez. apply Z.eqb_eq in Ez. lia.
Qed.

Lemma parse_entries_as_read fuel rest out es : Forall as_read out -> parse_entries fuel rest out = Ok es -> Forall as_read es.
Proof.
  revert rest out. induction fuel as [|fuel IH]; intros rest out Hout; cbn [parse_entries]; [done|].
  repeat case_if; try done; try (by intros [= <-]); [by apply IH|].
  destruct (parseKeytabEntry _) as [e|e|] eqn:Ee; [|done..]. cbn. apply IH, Forall_app. split; [done|].
  repeat constructor; by apply (parsed_as_read _ _ Ee).
Qed.

Lemma ParseKeytab_as_read b es : ParseKeytab b = Ok es -> Forall as_read es.
Proof.
  destruct b as [|b0 [|b1 rest]]; cbn [ParseKeytab]; [by intros [= <-]|done|]. case_if; [|done]. by apply parse_entries_as_read.
Qed.

(** ** Merging *)

Lemma NoDup_fmap_filter_app {A B} `{Countable B} (k : A -> B) (l1 l2 : list A) :
  NoDup (k <$> l1) -> NoDup (k <$> l2) ->
  NoDup (k <$> (filter (fun e => k e ∉ (list_to_set (k <$> l2) : gset B)) l1 ++ l2)).
Proof.
  intros H1 H2. rewrite fmap_app, NoDup_app. split_and!; [by apply NoDup_map_filter| |done].
  intros x (e & -> & [He _]%list_elem_of_filter)%list_elem_of_fmap Hin. set_solver.
Qed.

(** [MergeKeytab] replaces, per principal, key version and key type, what was there by what is
    added, keeps everything else in its order before it, introduces no duplicate, and merging the
    same entries twice changes nothing. *)
Lemma MergeKeytab_spec (existing added : list KeytabEntry) :
  (forall e, e ∈ MergeKeytab existing added <->
     e ∈ added \/ (e ∈ existing /\ keytabEntryID e ∉ keytabEntryID <$> added)) /\
  (exists kept, MergeKeytab existing added = kept ++ added /\ kept `sublist_of` existing) /\
  (NoDup (keytabEntryID <$> existing) -> NoDup (keytabEntryID <$> added) ->
     NoDup (keytabEntryID <$> MergeKeytab existing added)) /\
  MergeKeytab (MergeKeytab existing added) added = MergeKeytab existing added.
Proof.
  unfold MergeKeytab. split_and!.
  - intros e. rewrite elem_of_app, list_elem_of_filter, elem_of_list_to_set. tauto.
  - eexists. split; [done|]. apply sublist_filter.
  - apply NoDup_fmap_filter_app.
  - f_equal. rewrite filter_app. rewrite list_filter_filter.
    rewrite (list_filter_iff _ (fun e => keytabEntryID e ∉ (list_to_set (keytabEntryID <$> added) : gset string)))
      by tauto.
    rewrite <- (app_nil_r (filter _ existing)) at 2. f_equal.
    apply filter_none. set_solver.
Qed.

(** ** Enctypes *)

Section EncTypeFacts.
Context `{EncTypeLib}.

Lemma ResolveEncTypes_from_spec names out0 out :
  ResolveEncTypes_from names out0 = Ok out ->
  NoDup out0 -> Forall (fun id => Supported id = true) out0 ->
  NoDup out /\ Forall (fun id => Supported id = true) out /\
  (forall id, id ∈ out <-> id ∈ out0 \/ exists n, n ∈ names /\ ETypesByName (TrimSpace n) = Some id).
Proof.
  revert out0. induction names as [|n names IH]; intros out0 Hr Hnd Hs; cbn [ResolveEncTypes_from] in Hr.
  - run_inv. split_and!; [done|done|]. set_solver.
  - destruct (ETypesByName (TrimSpace n)) as [id|] eqn:En; [|done].
    destruct (Supported id) eqn:Es; [|done]. cbn [negb] in Hr.
    destruct (contains_Z id out0) eqn:Ec.
    + apply contains_Z_spec in Ec. destruct (IH _ Hr Hnd Hs) as (? & ? & Hiff).
      split_and!; [done|done|]. intros id'. rewrite Hiff. set_solver.
    + assert (id ∉ out0) by (rewrite <- contains_Z_spec; congruence).
      destruct (IH (out0 ++ [id]) Hr) as (? & ? & Hiff).
      * apply NoDup_app. split_and!; [done|set_solver|apply NoDup_singleton].
      * apply Forall_app. by split; [|apply Forall_singleton].
      * split_and!; [done|done|]. intros id'. rewrite Hiff, elem_of_app. set_solver.
Qed.

(** The enctypes a configuration resolves to are not empty, have no duplicate, are all of the
    AES enctypes the service stores keys for, and are exactly the ones the names stand for. *)
Lemma ResolveEncTypes_spec (names : list string) (out : list Z) :
  ResolveEncTypes names = Ok out ->
  out <> [] /\ NoDup out /\ Forall (fun id => id ∈ [17; 18; 19; 20]) out /\
  (forall id, id ∈ out <-> exists n, n ∈ names /\ ETypesByName (TrimSpace n) = Some id).
Proof.
  unfold ResolveEncTypes. intros Hr. run_inv.
  destruct (ResolveEncTypes_from_spec names [] _ ltac:(eassumption)) as (? & Hs & Hiff);
    [apply NoDup_nil_2|apply Forall_nil_2|].
  split_and!.
  - by intros ->.
  - done.
  - eapply Forall_impl; [exact Hs|]. intros id. unfold Supported. cbv beta.
    rewrite !orb_true_iff, !Z.eqb_eq. set_solver.
  - set_solver.
Qed.

Lemma DeriveKeysWithSalt_spec password salt etypes keys :
  DeriveKeysWithSalt password salt etypes = Ok keys ->
  EType <$> keys = etypes /\ Forall (fun k => Salt k = salt) keys /\
  Forall (fun k => StringToKey (EType k) password salt (S2KParams k) = Some (Value k)) keys.
Proof.
  revert keys. induction etypes as [|id etypes IH]; intros keys Hd; cbn [DeriveKeysWithSalt] in Hd.
  - run_inv. split_and!; [done|apply Forall_nil_2|apply Forall_nil_2].
  - run_inv. destruct (IH _ ltac:(eassumption)) as (He & Hs & Hv).
    split_and!; [cbn; by rewrite He|by apply Forall_cons|by apply Forall_cons].
Qed.
End EncTypeFacts.

(** A library with two registered enctypes, to run the definitions on. *)
Definition toy_enctypes : EncTypeLib := {|
  ETypesByName := fun n =>
    if String.eqb n "aes256-cts" then Some 18
    else if String.eqb n "aes128-cts" then Some 17
    else if String.eqb n "rc4-hmac" then Some 23 else None;
  GetEType := fun id => (id =? 17) || (id =? 18);
  GetDefaultStringToKeyParams := fun _ => "00001000";
  StringToKey := fun id p s k => Some (bytes_of_string (pretty id +:+ p +:+ s +:+ k));
  GetKeySeedBitLength := fun id => if id =? 17 then 128 else 256;
  RandomToKey := fun _ b => b;
|}.

Lemma ResolveEncTypes_spec_witness :
  ResolveEncTypes (H := toy_enctypes) [" aes256-cts"; "aes128-cts"; "aes256-cts"] = Ok [18; 17] /\
  NoDup [18; 17].
Proof.
  assert (Hr : ResolveEncTypes (H := toy_enctypes) [" aes256-cts"; "aes128-cts"; "aes256-cts"] = Ok [18; 17])
    by (vm_compute; reflexivity).
  split; [exact Hr|]. apply (ResolveEncTypes_spec (H := toy_enctypes) _ _ Hr).
Defined.

(** RC4 is refused even though the library knows it. *)
Example ResolveEncTypes_rc4 :
  ResolveEncTypes (H := toy_enctypes) ["aes256-cts"; "rc4-hmac"] = Err (ErrUnsupportedEncType "rc4-hmac").
Proof. reflexivity. Qed.
