(* ===== verification/Failban.v ===== *)
(** * Throttling of password guessing: package [failban]

    The limiter every door that takes a password shares: failures per source address, blocked
    sources, and the pruning that bounds the table. *)

From S2P Require Import Prelude.

(** [failban.Config]. *)
Record Config : Type := mkConfig {
  Enabled : bool;
  Threshold : Z;
  Window : Duration;
  BlockFor : Duration;
  PruneEvery : Duration;
  PruneOlder : Duration;
}.

(** [failban.source]. *)
Record source : Type := mkSource {
  failures : list Time;
  lastSeen : Time;
  blockedTo : Time;
}.

(** [failban.Limiter]; the configuration is fixed, so it is a parameter of the operations. *)
Record Limiter : Type := mkLimiter {
  sources : gmap string source;
  nextPrune : Time;
}.

Definition empty_source : source := mkSource [] zeroTime zeroTime.

Definition New (now : Time) : Limiter := mkLimiter ∅ now.

(** [pruneLocked]. *)
Definition pruneLocked (cfg : Config) (now : Time) (l : Limiter) : Limiter :=
  if Before now (nextPrune l) then l
  else
    let cutoff := now - PruneOlder cfg in
    mkLimiter
      (filter (fun '(_, s) => ~ (Before (lastSeen s) cutoff && After now (blockedTo s) = true))
         (sources l))
      (now + PruneEvery cfg).

Definition Blocked (cfg : Config) (now : Time) (addr : string) (l : Limiter) : bool * Limiter :=
  if negb (Enabled cfg) then (false, l)
  else
    let l := pruneLocked cfg now l in
    match sources l !! addr with
    | None => (false, l)
    | Some s =>
        (Before now (blockedTo s),
         mkLimiter (<[addr := mkSource (failures s) now (blockedTo s)]> (sources l)) (nextPrune l))
    end.

(** The failures that count: those after the cutoff, and the new one. *)
Definition counted (cfg : Config) (now : Time) (fs : list Time) : list Time :=
  filter (fun t => After t (now - Window cfg) = true) fs ++ [now].

Definition NoteFailure (cfg : Config) (now : Time) (addr : string) (l : Limiter) : Limiter :=
  if negb (Enabled cfg) then l
  else
    let s := default empty_source (sources l !! addr) in
    let fs := counted cfg now (failures s) in
    let s' :=
      if (0 <? Threshold cfg) && (Threshold cfg <=? Z.of_nat (List.length fs))
      then mkSource [] now (now + BlockFor cfg)
      else mkSource fs now (blockedTo s) in
    mkLimiter (<[addr := s']> (sources l)) (nextPrune l).

Definition NoteSuccess (cfg : Config) (now : Time) (addr : string) (l : Limiter) : Limiter :=
  if negb (Enabled cfg) then l
  else
    match sources l !! addr with
    | Some s => mkLimiter (<[addr := mkSource [] now (blockedTo s)]> (sources l)) (nextPrune l)
    | None => l
    end.

(** ** What the limiter promises

    The specification keeps every failure and every block for ever, and has no table to bound:
    for each address the failures since the last success or block, and the end of the last block. *)

Inductive event : Type :=
| Ask (addr : string)
| Failed (addr : string)
| Succeeded (addr : string).

Module Spec.

Definition state : Type := string -> list Time * Time.

Definition init : state := fun _ => ([], zeroTime).

Definition set (a : string) (v : list Time * Time) (σ : state) : state :=
  fun a' => if decide (a' = a) then v else σ a'.

Definition blocked (now : Time) (a : string) (σ : state) : bool := now <? snd (σ a).

Definition step (cfg : Config) (now : Time) (e : event) (σ : state) : state :=
  if negb (Enabled cfg) then σ else
  match e with
  | Ask _ => σ
  | Succeeded a => set a ([], snd (σ a)) σ
  | Failed a =>
      let fs := counted cfg now (fst (σ a)) in
      if (0 <? Threshold cfg) && (Threshold cfg <=? Z.of_nat (List.length fs))
      then set a ([], now + BlockFor cfg) σ
      else set a (fs, snd (σ a)) σ
  end.

Definition answer (cfg : Config) (now : Time) (e : event) (σ : state) : option bool :=
  match e with
  | Ask a => Some (Enabled cfg && blocked now a σ)
  | _ => None
  end.

Fixpoint run (cfg : Config) (tr : list (Time * event)) (σ : state) : list (option bool) :=
  match tr with
  | [] => []
  | (now, e) :: tr' => answer cfg now e σ :: run cfg tr' (step cfg now e σ)
  end.

End Spec.

(** The limiter on the same events. *)
Definition step (cfg : Config) (now : Time) (e : event) (l : Limiter) : option bool * Limiter :=
  match e with
  | Ask a => let '(b, l') := Blocked cfg now a l in (Some b, l')
  | Failed a => (None, NoteFailure cfg now a l)
  | Succeeded a => (None, NoteSuccess cfg now a l)
  end.

Fixpoint run (cfg : Config) (tr : list (Time * event)) (l : Limiter) : list (option bool) :=
  match tr with
  | [] => []
  | (now, e) :: tr' => let '(b, l') := step cfg now e l in b :: run cfg tr' l'
  end.

(** The readings of the clock do not go back. *)
Fixpoint clock_from (t : Time) (tr : list (Time * event)) : Prop :=
  match tr with
  | [] => True
  | (now, _) :: tr' => t <= now /\ clock_from now tr'
  end.

(** ** The simulation *)

Section Simulation.
Context (cfg : Config).

Definition live (now : Time) (fs : list Time) : list Time :=
  filter (fun t => After t (now - Window cfg) = true) fs.

(** What the table must still know of a source at [now], and later. *)
Definition agrees (now : Time) (s : source) (v : list Time * Time) : Prop :=
  live now (failures s) = live now (fst v) /\
  (forall t, now <= t -> (t <? blockedTo s) = (t <? snd v)).

Definition seen_ok (now : Time) (s : source) : Prop :=
  lastSeen s <= now /\ Forall (fun t => t <= lastSeen s) (failures s).

Definition sim (now : Time) (l : Limiter) (σ : Spec.state) : Prop :=
  zeroTime <= now /\
  forall a, agrees now (default empty_source (sources l !! a)) (σ a) /\
            (forall s, sources l !! a = Some s -> seen_ok now s).

Lemma live_live now now' fs : now <= now' -> live now' (live now fs) = live now' fs.
Proof.
  intros Hle. unfold live, After. rewrite list_filter_filter. apply list_filter_iff.
  intros t. simpl. rewrite !Z.ltb_lt. lia.
Qed.

Lemma agrees_later now now' s v : now <= now' -> agrees now s v -> agrees now' s v.
Proof.
  intros Hle [Hl Hb]. split.
  - rewrite <- (live_live now now'), Hl, live_live by done. done.
  - intros t Ht. apply Hb. lia.
Qed.

Lemma seen_later now now' s : now <= now' -> seen_ok now s -> seen_ok now' s.
Proof. intros Hle [Hl Hf]. split; [lia|done]. Qed.

Lemma sim_later now now' l σ : now <= now' -> sim now l σ -> sim now' l σ.
Proof.
  intros Hle [Hz H]. split; [lia|]. intros a. destruct (H a) as [Ha Hs].
  split; [by eapply agrees_later|]. intros s Hl. eapply seen_later; eauto.
Qed.

Lemma agrees_empty now v :
  zeroTime <= now -> live now (fst v) = [] -> (forall t, now <= t -> (t <? snd v) = false) ->
  agrees now empty_source v.
Proof.
  intros Hz Hl Hb. split; [by rewrite Hl|]. intros t Ht. rewrite (Hb t Ht). apply Z.ltb_ge. cbn [empty_source blockedTo]. lia.
Qed.

(** Nothing the pruning drops matters any more. *)
Lemma sim_prune now l σ :
  Window cfg <= PruneOlder cfg -> sim now l σ -> sim now (pruneLocked cfg now l) σ.
Proof.
  intros Hw [Hz H]. unfold pruneLocked. case_if; [done|]. split; [done|]. intros a. cbn [sources].
  destruct (H a) as [[Hl Hb] Hs]. split.
  2: { intros s [Hsl _]%map_lookup_filter_Some. eauto. }
  destruct (sources l !! a) as [s|] eqn:Ea; cycle 1.
  { rewrite map_lookup_filter_None_2 by auto. done. }
  destruct (decide (Before (lastSeen s) (now - PruneOlder cfg) && After now (blockedTo s) = true))
    as [Hd|Hd].
  - rewrite map_lookup_filter_None_2 by (right; intros ? ?; simplify_eq; tauto).
    destruct (Hs s eq_refl) as [_ Hf]. unfold Before, After in Hd. simp_bool. cbn [default id] in *.
    apply agrees_empty; [done| |].
    + rewrite <- Hl. apply filter_none. intros t Ht. unfold After. rewrite Z.ltb_lt.
      rewrite Forall_forall in Hf. specialize (Hf t Ht). lia.
    + intros t Ht. rewrite <- Hb by lia. apply Z.ltb_ge. lia.
  - rewrite (map_lookup_filter_Some_2 _ _ _ s) by done. done.
Qed.

Lemma sim_set now l σ a s v :
  sim now l σ -> agrees now s v -> seen_ok now s ->
  sim now (mkLimiter (<[a := s]> (sources l)) (nextPrune l)) (Spec.set a v σ).
Proof.
  intros [Hz H] Ha Hs. split; [done|]. intros b. cbn [sources]. unfold Spec.set.
  destruct (decide (b = a)) as [->|Hne].
  - rewrite lookup_insert_eq. cbn [default id]. split; [done|]. naive_solver.
  - rewrite lookup_insert_ne by done. apply H.
Qed.

Lemma counted_agrees now s v : agrees now s v -> counted cfg now (failures s) = counted cfg now (fst v).
Proof. intros [Hl _]. unfold counted. f_equal. apply Hl. Qed.

Lemma counted_seen now s :
  seen_ok now s -> Forall (fun t => t <= now) (counted cfg now (failures s)).
Proof.
  intros [Hl Hf]. apply Forall_app. split; [|apply Forall_singleton; lia].
  rewrite Forall_forall in *. intros t [_ Ht]%list_elem_of_filter. specialize (Hf t Ht). lia.
Qed.

Lemma sim_seen now l σ a : sim now l σ -> seen_ok now (default empty_source (sources l !! a)).
Proof.
  intros [Hz H]. destruct (H a) as [_ Hs]. destruct (sources l !! a) as [s|]; [by apply Hs|].
  split; [done|apply Forall_nil_2].
Qed.

Lemma sim_failure now l σ a :
  Enabled cfg = true -> sim now l σ ->
  sim now (NoteFailure cfg now a l) (Spec.step cfg now (Failed a) σ).
Proof.
  intros Hen Hsim. unfold NoteFailure, Spec.step. rewrite Hen. cbn [negb].
  pose proof (proj2 Hsim a) as [Ha _]. rewrite <- (counted_agrees _ _ _ Ha).
  case_if; apply sim_set; try done.
  - split; [done|]. apply Ha.
  - split; cbn [lastSeen failures]; [lia|]. by eapply counted_seen, sim_seen.
Qed.

Lemma sim_success now l σ a :
  Enabled cfg = true -> sim now l σ ->
  sim now (NoteSuccess cfg now a l) (Spec.step cfg now (Succeeded a) σ).
Proof.
  intros Hen Hsim. unfold NoteSuccess, Spec.step. rewrite Hen. cbn [negb].
  pose proof (proj2 Hsim a) as [Ha _]. destruct (sources l !! a) as [s|] eqn:Ea.
  - apply sim_set; [done| |split; cbn; [lia|apply Forall_nil_2]].
    split; [done|]. apply Ha.
  - destruct Hsim as [Hz H]. split; [done|]. intros b. unfold Spec.set.
    destruct (decide (b = a)) as [->|]; [|apply H].
    rewrite Ea. split; [|done]. split; [done|]. apply Ha.
Qed.

Lemma sim_ask now l σ a :
  Enabled cfg = true -> Window cfg <= PruneOlder cfg -> sim now l σ ->
  fst (Blocked cfg now a l) = Spec.blocked now a σ /\ sim now (snd (Blocked cfg now a l)) σ.
Proof.
  intros Hen Hw Hsim. unfold Blocked. rewrite Hen. cbn [negb].
  apply sim_prune in Hsim; [|done].
  pose proof (proj2 Hsim a) as [[Hl Hb] _]. unfold Spec.blocked.
  rewrite <- (Hb now) by lia. pose proof (sim_seen _ _ _ a Hsim) as Hseen.
  destruct (sources (pruneLocked cfg now l) !! a) as [s|] eqn:Ea; cbn [default id fst snd] in *.
  - split; [done|].
    destruct Hsim as [Hz H]. split; [done|]. intros b. cbn [sources].
    destruct (decide (b = a)) as [->|Hne]; [|rewrite lookup_insert_ne by done; apply H].
    rewrite lookup_insert_eq. cbn [default id]. split; [by split|].
    intros s' [= <-]. destruct Hseen as [Hle Hall]. split; cbn; [lia|].
    eapply Forall_impl; [exact Hall|]. intros t Ht. cbv beta in *. lia.
  - split; [|done]. symmetry. apply Z.ltb_ge. destruct Hsim as [Hz _]. cbn [empty_source blockedTo]. lia.
Qed.

Lemma sim_run t l σ tr :
  Window cfg <= PruneOlder cfg -> sim t l σ -> clock_from t tr ->
  run cfg tr l = Spec.run cfg tr σ.
Proof.
  intros Hw. revert t l σ. induction tr as [|[now e] tr IH]; intros t l σ Hsim Hc; [done|].
  destruct Hc as [Hle Hc]. apply (sim_later _ now) in Hsim; [|done].
  destruct (Enabled cfg) eqn:Hen; cycle 1.
  { assert (forall now e, Spec.step cfg now e σ = σ) as Hsp
      by (intros; unfold Spec.step; by rewrite Hen).
    destruct e as [a|a|a]; cbn [run step Spec.run Spec.answer]; rewrite Hsp;
      unfold Blocked, NoteFailure, NoteSuccess; rewrite Hen; cbn [negb];
      rewrite ?andb_false_l; f_equal; by eapply IH. }
  destruct e as [a|a|a]; cbn [run step Spec.run Spec.answer].
  - destruct (sim_ask now l σ a Hen Hw Hsim) as [Hb Hs].
    destruct (Blocked cfg now a l) as [b l']. cbn [fst snd] in *. subst b. rewrite Hen.
    f_equal. rewrite (IH now l' (Spec.step cfg now (Ask a) σ)); [done| |done].
    unfold Spec.step. by rewrite Hen.
  - f_equal. eapply IH; [|done]. by apply sim_failure.
  - f_equal. eapply IH; [|done]. by apply sim_success.
Qed.
End Simulation.

Lemma sim_init cfg t : zeroTime <= t -> sim cfg t (New t) Spec.init.
Proof.
  intros Hz. split; [done|]. intros a. cbn [New sources]. rewrite lookup_empty. split; [by split|done].
Qed.

(** C35: as long as sources are kept for at least the window, the limiter answers every question the
    way a limiter that never forgets anything does: pruning the table, and the order in which
    addresses come and go, cannot be observed. *)
Theorem limiter_refines_spec (cfg : Config) (t : Time) (tr : list (Time * event)) :
  Window cfg <= PruneOlder cfg -> zeroTime <= t -> clock_from t tr ->
  run cfg tr (New t) = Spec.run cfg tr Spec.init.
Proof. intros Hw Hz. by apply sim_run, sim_init. Qed.

Definition sample_config : Config := mkConfig true 3 10 100 20 50.
Definition sample_trace : list (Time * event) :=
  [(0, Failed "a"); (1, Failed "b"); (4, Failed "a"); (5, Ask "a"); (6, Failed "a"); (7, Ask "a");
   (8, Ask "b"); (90, Ask "b"); (105, Ask "a"); (106, Ask "a")].

Lemma limiter_refines_spec_witness :
  run sample_config sample_trace (New 0) = Spec.run sample_config sample_trace Spec.init /\
  run sample_config sample_trace (New 0)
  = [None; None; None; Some false; None; Some true; Some false; Some false; Some true; Some false].
Proof.
  split; [|vm_compute; reflexivity].
  apply (limiter_refines_spec sample_config 0 sample_trace).
  - vm_compute. congruence.
  - vm_compute. congruence.
  - vm_compute. repeat split; congruence.
Defined.

(** ** What the specification means *)

Section Meaning.
Context (cfg : Config).

(** The state after some events. *)
Fixpoint after (tr : list (Time * event)) (σ : Spec.state) : Spec.state :=
  match tr with
  | [] => σ
  | (now, e) :: tr' => after tr' (Spec.step cfg now e σ)
  end.

Definition about (a : string) (e : event) : bool :=
  match e with Ask b | Failed b | Succeeded b => String.eqb b a end.

Lemma step_other a now e σ : about a e = false -> Spec.step cfg now e σ a = σ a.
Proof.
  unfold Spec.step, Spec.set. destruct e as [b|b|b]; cbn [about]; intros Hb; simp_bool;
    repeat case_if; try done; by rewrite decide_False by congruence.
Qed.

(** Failures of [a] within one window of the last of them, mixed with anything about others. *)
Inductive burst (a : string) (lo : Time) : Z -> list (Time * event) -> Prop :=
| burst_nil : burst a lo 0 []
| burst_fail now n tr : lo < now -> burst a lo n tr -> burst a lo (n + 1) (tr ++ [(now, Failed a)])
| burst_other now e n tr : about a e = false -> burst a lo n tr -> burst a lo n (tr ++ [(now, e)])
| burst_ask now n tr : burst a lo n tr -> burst a lo n (tr ++ [(now, Ask a)]).

Lemma after_app tr1 tr2 σ : after (tr1 ++ tr2) σ = after tr2 (after tr1 σ).
Proof. revert σ. induction tr1 as [|[now e] tr1 IH]; intros σ; [done|]. simpl. apply IH. Qed.

(** Before the threshold, a burst that starts from no failures is counted in full. *)
Lemma burst_counts a lo n tr σ :
  Enabled cfg = true -> fst (σ a) = [] -> burst a lo n tr ->
  Forall (fun p => fst p - Window cfg <= lo) tr -> n < Threshold cfg ->
  Z.of_nat (List.length (fst (after tr σ a))) = n /\ Forall (fun t => lo < t) (fst (after tr σ a)) /\ 0 <= n.
Proof.
  intros Hen Hσ Hb. induction Hb as [|now n tr Hlo Hb IH|now e n tr He Hb IH|now n tr Hb IH];
    intros Hw Hn; [by cbn [after]; rewrite Hσ|..];
    apply Forall_app in Hw as [Hw Hnow]; rewrite Forall_singleton in Hnow; cbn in Hnow;
    rewrite after_app; cbn [after].
  - destruct IH as (Hlen & Hlive & H0); [done|lia|]. unfold Spec.step. rewrite Hen. cbn [negb].
    assert (Hc : counted cfg now (fst (after tr σ a)) = fst (after tr σ a) ++ [now]).
    { unfold counted. f_equal. apply filter_all. intros t Ht. rewrite Forall_forall in Hlive.
      specialize (Hlive t Ht). cbv beta in Hlive. unfold After. apply Z.ltb_lt. lia. }
    assert (Hl : Z.of_nat (List.length (fst (after tr σ a) ++ [now])) = n + 1)
      by (rewrite length_app; simpl; lia).
    rewrite Hc, Hl. rewrite (proj2 (Z.leb_gt (Threshold cfg) (n + 1))) by lia. rewrite andb_false_r.
    unfold Spec.set. rewrite decide_True by done. cbn [fst].
    split_and!; [done| |lia]. apply Forall_app. by rewrite Forall_singleton.
  - rewrite step_other by done. by apply IH.
  - unfold Spec.step. rewrite Hen. by apply IH.
Qed.

Lemma burst_last a lo n tr σ last :
  Enabled cfg = true -> fst (σ a) = [] -> burst a lo n tr ->
  Forall (fun p => fst p - Window cfg <= lo) tr -> last - Window cfg <= lo ->
  n + 1 = Threshold cfg ->
  Spec.step cfg last (Failed a) (after tr σ) a = ([], last + BlockFor cfg).
Proof.
  intros Hen Hσ Hb Hw Hlast Hn.
  destruct (burst_counts a lo n tr σ) as (Hlen & Hlive & H0); [done..|lia|].
  unfold Spec.step. rewrite Hen. cbn [negb].
  assert (Hc : counted cfg last (fst (after tr σ a)) = fst (after tr σ a) ++ [last]).
  { unfold counted. f_equal. apply filter_all. intros t Ht. rewrite Forall_forall in Hlive.
    specialize (Hlive t Ht). cbv beta in Hlive. unfold After. apply Z.ltb_lt. lia. }
  rewrite Hc, length_app. simpl.
  rewrite (proj2 (Z.ltb_lt 0 (Threshold cfg))), (proj2 (Z.leb_le (Threshold cfg) _)) by lia.
  simpl. unfold Spec.set. by rewrite decide_True.
Qed.

Lemma spec_run_last tr σ t a :
  List.last (Spec.run cfg (tr ++ [(t, Ask a)]) σ) None
  = Some (Enabled cfg && Spec.blocked t a (after tr σ)).
Proof.
  revert σ. induction tr as [|[now e] tr IH]; intros σ; [done|].
  cbn [after]. rewrite <- (IH (Spec.step cfg now e σ)). cbn [app Spec.run List.last].
  destruct (Spec.run cfg (tr ++ [(t, Ask a)]) (Spec.step cfg now e σ)) eqn:E; [|done].
  destruct tr as [|[] ]; discriminate.
Qed.
End Meaning.

(** A source that fails [Threshold] times within the window after its last success, whatever else
    happens meanwhile, is blocked from then until [BlockFor] later, and not after. *)
Lemma limiter_blocks_burst (cfg : Config) (t0 ts last t n : Time) (a : string)
    (pre tr : list (Time * event)) :
  Enabled cfg = true -> Window cfg <= PruneOlder cfg -> zeroTime <= t0 ->
  burst a (last - Window cfg) n tr -> n + 1 = Threshold cfg ->
  Forall (fun p => fst p <= last) tr ->
  clock_from t0 (pre ++ (ts, Succeeded a) :: tr ++ [(last, Failed a); (t, Ask a)]) ->
  List.last (run cfg (pre ++ (ts, Succeeded a) :: tr ++ [(last, Failed a); (t, Ask a)]) (New t0)) None
  = Some (t <? last + BlockFor cfg).
Proof.
  intros Hen Hw Hz Hb Hn Hle Hc.
  rewrite (sim_run cfg t0 _ Spec.init) by (done || by apply sim_init).
  replace (pre ++ (ts, Succeeded a) :: tr ++ [(last, Failed a); (t, Ask a)])
    with ((pre ++ (ts, Succeeded a) :: tr ++ [(last, Failed a)]) ++ [(t, Ask a)])
    by (rewrite <- app_assoc; simpl; by rewrite <- app_assoc).
  rewrite spec_run_last, Hen. do 2 f_equal. unfold Spec.blocked.
  rewrite after_app. cbn [after]. rewrite after_app. cbn [after].
  rewrite (burst_last cfg a (last - Window cfg) n); [done|done| |done| |lia|done].
  - unfold Spec.step, Spec.set. rewrite Hen. cbn [negb]. by rewrite decide_True.
  - eapply Forall_impl; [exact Hle|]. intros p Hp. cbv beta in *. lia.
Qed.

Lemma limiter_blocks_burst_witness :
  List.last (run sample_config ([(0, Failed "a")] ++ (1, Succeeded "a") ::
     [(2, Failed "a"); (3, Failed "b"); (4, Failed "a")] ++ [(5, Failed "a"); (104, Ask "a")]) (New 0)) None
  = Some true.
Proof.
  apply (limiter_blocks_burst sample_config 0 1 5 104 2 "a" [(0, Failed "a")]
    [(2, Failed "a"); (3, Failed "b"); (4, Failed "a")]); try reflexivity.
  - vm_compute; congruence.
  - vm_compute; congruence.
  - apply (burst_fail _ _ 4 1 [(2, Failed "a"); (3, Failed "b")]); [vm_compute; congruence|].
    apply (burst_other _ _ 3 (Failed "b") 1 [(2, Failed "a")]); [reflexivity|].
    apply (burst_fail _ _ 2 0 []); [vm_compute; congruence|]. constructor.
  - repeat (apply Forall_cons; split); [vm_compute; congruence..|]. apply Forall_nil_2.
  - vm_compute. repeat split; congruence.
Defined.

(** Instants at least [w] apart, the first of them [w] after [prev]. *)
Fixpoint sparse (w : Duration) (prev : Time) (ts : list Time) : Prop :=
  match ts with
  | [] => True
  | t :: ts' => prev + w <= t /\ sparse w t ts'
  end.

Lemma sparse_state cfg a ts prev σ :
  1 < Threshold cfg -> fst (σ a) = [] \/ fst (σ a) = [prev] -> sparse (Window cfg) prev ts ->
  snd (after cfg (map (fun t => (t, Failed a)) ts) σ a) = snd (σ a).
Proof.
  intros Hth. revert prev σ. induction ts as [|t ts IH]; intros prev σ Hσ Hs; [done|].
  destruct Hs as [Hle Hs]. cbn [map after].
  assert (Hstep : Spec.step cfg t (Failed a) σ a = (fst (Spec.step cfg t (Failed a) σ a), snd (σ a)) /\
     (fst (Spec.step cfg t (Failed a) σ a) = [] \/ fst (Spec.step cfg t (Failed a) σ a) = [t]
      \/ Enabled cfg = false)).
  { unfold Spec.step. destruct (Enabled cfg) eqn:Hen; cbn [negb]; [|by destruct (σ a); auto].
    assert (Hc : counted cfg t (fst (σ a)) = [t]).
    { unfold counted. destruct Hσ as [->| ->]; [done|].
      rewrite filter_none; [done|]. intros x ->%list_elem_of_singleton. unfold After.
      rewrite Z.ltb_lt. lia. }
    rewrite Hc. change (Z.of_nat (List.length [t])) with 1.
    rewrite (proj2 (Z.leb_gt (Threshold cfg) 1)) by done. rewrite andb_false_r.
    unfold Spec.set. rewrite decide_True by done. simpl. auto. }
  destruct Hstep as [Heq [Hnil|[Hone|Hdis]]].
  - rewrite (IH t), Heq; [done|by left|done].
  - rewrite (IH t), Heq; [done|by right|done].
  - assert (Hid : Spec.step cfg t (Failed a) σ = σ) by (unfold Spec.step; by rewrite Hdis).
    rewrite Hid. clear -Hdis. induction ts as [|t ts IH]; [done|]. cbn [map after].
    unfold Spec.step at 1. by rewrite Hdis.
Qed.

Lemma clock_from_last t tr now e : clock_from t (tr ++ [(now, e)]) -> t <= now.
Proof.
  revert t. induction tr as [|[u f] tr IH]; intros t; [naive_solver|].
  intros [Hle Hc]. specialize (IH u Hc). lia.
Qed.

(** A source whose failures are at least a window apart is never blocked, however many there are,
    when it takes more than one to block. *)
Lemma limiter_ignores_sparse (cfg : Config) (t0 t : Time) (a : string) (ts : list Time) :
  Window cfg <= PruneOlder cfg -> zeroTime <= t0 -> 1 < Threshold cfg ->
  sparse (Window cfg) (t0 - Window cfg) ts ->
  clock_from t0 (map (fun t => (t, Failed a)) ts ++ [(t, Ask a)]) ->
  List.last (run cfg (map (fun t => (t, Failed a)) ts ++ [(t, Ask a)]) (New t0)) None = Some false.
Proof.
  intros Hw Hz Hth Hs Hc. pose proof (clock_from_last _ _ _ _ Hc).
  rewrite (sim_run cfg t0 _ Spec.init) by (done || by apply sim_init).
  rewrite spec_run_last. unfold Spec.blocked.
  rewrite (sparse_state cfg a ts (t0 - Window cfg)) by (done || by left). cbn [Spec.init snd].
  rewrite (proj2 (Z.ltb_ge t zeroTime)) by lia. by rewrite andb_false_r.
Qed.

Lemma limiter_ignores_sparse_witness :
  List.last (run sample_config (map (fun t => (t, Failed "a")) [0; 10; 21; 33] ++ [(33, Ask "a")]) (New 0)) None
  = Some false.
Proof.
  apply (limiter_ignores_sparse sample_config 0 33 "a" [0; 10; 21; 33]).
  - vm_compute; congruence.
  - vm_compute; congruence.
  - vm_compute; congruence.
  - vm_compute. repeat split; congruence.
  - vm_compute. repeat split; congruence.
Defined.
