(* ===== verification/Replay.v ===== *)
(** * The authenticator replay cache: package [kdc], replay.go

    The digests of the authenticators accepted recently, with the moment each was recorded. *)

From S2P Require Import Prelude.

(** The hash of [crypto/sha256]. *)
Class Sha256 : Type := sha256 : bytes -> bytes.

(** [replayCache]; [window] is fixed when the cache is made, so it is a parameter. *)
Record replayCache : Type := mkReplayCache {
  entries : gmap bytes Time;
  lastSweep : Time;
}.

Definition newReplayCache : replayCache := mkReplayCache ∅ zeroTime.

(** What distinguishes an authenticator: the arguments of [seen]. *)
Record authenticator : Type := mkAuthenticator {
  a_crealm : string;
  a_cname : string;
  a_ctime : Time;
  a_cusec : Z;
  a_ticketDigest : bytes;
}.

(** The bytes [seen] hashes. *)
Definition authenticator_bytes (a : authenticator) : bytes :=
  bytes_of_string (a_crealm a) ++ [Byte.x00] ++ bytes_of_string (a_cname a) ++ [Byte.x00]
  ++ put_be 8 (wrap 64 (a_ctime a)) ++ put_be 8 (wrap 64 (a_cusec a)) ++ a_ticketDigest a.

Definition sweepLocked (window : Duration) (now : Time) (c : replayCache) : replayCache :=
  if Sub now (lastSweep c) <? Z.quot window 4 then c
  else
    let cutoff := now - window in
    mkReplayCache (filter (fun '(_, t) => ~ (Before t cutoff = true)) (entries c)) now.

Section Seen.
Context `{Sha256} (window : Duration).

Definition seen (now : Time) (a : authenticator) (c : replayCache) : bool * replayCache :=
  let key := sha256 (authenticator_bytes a) in
  let c := sweepLocked window now c in
  match entries c !! key with
  | Some _ => (true, c)
  | None => (false, mkReplayCache (<[key := now]> (entries c)) (lastSweep c))
  end.

Definition size_of (c : replayCache) : nat := size (entries c).

(** A run of calls, each at its reading of the clock, with the answers. *)
Fixpoint run (calls : list (Time * authenticator)) (c : replayCache) : list bool * replayCache :=
  match calls with
  | [] => ([], c)
  | (now, a) :: calls' =>
      let '(b, c1) := seen now a c in
      let '(bs, c2) := run calls' c1 in (b :: bs, c2)
  end.

Fixpoint clock_from (t : Time) (calls : list (Time * authenticator)) : Prop :=
  match calls with
  | [] => True
  | (now, _) :: calls' => t <= now /\ clock_from now calls'
  end.

(** ** No replay inside the window *)

Lemma sweepLocked_keeps now c k t :
  entries c !! k = Some t -> now <= t + window -> entries (sweepLocked window now c) !! k = Some t.
Proof.
  intros Hk Ht. unfold sweepLocked. case_if; [done|]. cbn [entries].
  apply map_lookup_filter_Some_2; [done|]. unfold Before. rewrite Z.ltb_lt. lia.
Qed.

Lemma seen_keeps now a c k t :
  entries c !! k = Some t -> now <= t + window -> entries (snd (seen now a c)) !! k = Some t.
Proof.
  intros Hk Ht. pose proof (sweepLocked_keeps now c k t Hk Ht) as Hs. unfold seen.
  destruct (entries (sweepLocked window now c) !! sha256 (authenticator_bytes a)) eqn:E;
    cbn [snd entries]; [done|].
  rewrite lookup_insert_ne; [done|]. intros Heq. by rewrite Heq, Hs in E.
Qed.

Lemma seen_recorded now a c :
  fst (seen now a c) = false ->
  entries (snd (seen now a c)) !! sha256 (authenticator_bytes a) = Some now.
Proof. unfold seen. destruct (entries _ !! _); cbn [fst snd entries]; [done|]. by rewrite lookup_insert_eq. Qed.

Lemma seen_known now a c t :
  entries c !! sha256 (authenticator_bytes a) = Some t -> now <= t + window ->
  fst (seen now a c) = true.
Proof. intros Hk Ht. unfold seen. by rewrite (sweepLocked_keeps now c _ t). Qed.

Lemma run_keeps calls c k t t0 :
  clock_from t0 calls -> Forall (fun p => fst p <= t + window) calls ->
  entries c !! k = Some t -> entries (snd (run calls c)) !! k = Some t.
Proof.
  revert c t0. induction calls as [|[now a] calls IH]; intros c t0 Hc Hw Hk; [done|].
  apply Forall_cons in Hw as [Hn Hw]. destruct Hc as [_ Hc]. cbn [run].
  pose proof (seen_keeps now a c k t Hk Hn) as Hk'. destruct (seen now a c) as [b c1].
  specialize (IH c1 now Hc Hw Hk'). by destruct (run calls c1).
Qed.

Lemma clock_from_before t calls now a :
  clock_from t (calls ++ [(now, a)]) -> Forall (fun p => fst p <= now) calls.
Proof.
  revert t. induction calls as [|[u b] calls IH]; intros t Hc; [done|].
  destruct Hc as [Hle Hc]. apply Forall_cons. split; [|by eapply IH].
  clear IH Hle. cbn [fst]. revert u Hc.
  induction calls as [|[v d] calls IH]; intros u; cbn; [lia|].
  intros [? Hc]. specialize (IH v Hc). lia.
Qed.

Lemma clock_from_app t l1 l2 : clock_from t (l1 ++ l2) -> clock_from t l1.
Proof. revert t. induction l1 as [|[u b] l1 IH]; intros t; [done|]. cbn. naive_solver. Qed.
End Seen.

(** An authenticator the cache accepted is refused every time it is presented again within the
    window, whatever other requests were made in between. *)
Lemma replay_refused `{Sha256} (window now1 now2 : Time) (a : authenticator) (c : replayCache)
    (calls : list (Time * authenticator)) :
  fst (seen window now1 a c) = false -> now2 <= now1 + window ->
  clock_from now1 (calls ++ [(now2, a)]) ->
  fst (seen window now2 a (snd (run window calls (snd (seen window now1 a c))))) = true.
Proof.
  intros Hacc Hw Hc. eapply seen_known; [|exact Hw].
  eapply run_keeps; [by eapply clock_from_app| |by apply seen_recorded].
  eapply Forall_impl; [by eapply clock_from_before|]. intros p Hp. cbv beta in *. lia.
Qed.

Definition sample_auth : authenticator := mkAuthenticator "EXAMPLE.COM" "alice" (UnixTime 1000) 17 [Byte.x01].
Definition other_auth : authenticator := mkAuthenticator "EXAMPLE.COM" "bob" (UnixTime 1000) 17 [Byte.x01].

Lemma replay_refused_witness :
  let H : Sha256 := fun b => b in
  let w := 600 * second in
  let c1 := snd (seen w (UnixTime 1000) sample_auth newReplayCache) in
  fst (seen w (UnixTime 1600) sample_auth
         (snd (run w [(UnixTime 1200, other_auth); (UnixTime 1500, other_auth)] c1))) = true.
Proof.
  intros H w c1.
  apply (replay_refused w (UnixTime 1000) (UnixTime 1600) sample_auth newReplayCache
    [(UnixTime 1200, other_auth); (UnixTime 1500, other_auth)]).
  - vm_compute. reflexivity.
  - vm_compute. congruence.
  - vm_compute. repeat split; congruence.
Defined.

(** ** Different authenticators hash different bytes *)

(** A time stamp and a microsecond count as the library decodes them, and names without NUL. *)
Definition authenticator_ok (a : authenticator) : Prop :=
  (Byte.x00 ∉ bytes_of_string (a_crealm a)) /\ (Byte.x00 ∉ bytes_of_string (a_cname a)) /\
  min_int64 <= a_ctime a <= max_int64 /\ 0 <= a_cusec a < 2 ^ 63.

Lemma app_sep_inj {A} (x : A) (l1 l2 r1 r2 : list A) :
  x ∉ l1 -> x ∉ l2 -> l1 ++ x :: r1 = l2 ++ x :: r2 -> l1 = l2 /\ r1 = r2.
Proof.
  revert l2. induction l1 as [|y l1 IH]; intros [|z l2] H1 H2 Heq; simplify_eq/=; try set_solver.
  destruct (IH l2) as [-> ->]; set_solver.
Qed.

Lemma put_be_inj n x y : put_be n x = put_be n y -> x mod 256 ^ Z.of_nat n = y mod 256 ^ Z.of_nat n.
Proof. intros H%(f_equal get_be). by rewrite !get_put_be in H. Qed.

Lemma wrap64_inj x y :
  min_int64 <= x <= max_int64 -> min_int64 <= y <= max_int64 -> wrap 64 x = wrap 64 y -> x = y.
Proof.
  unfold wrap, min_int64, max_int64. intros.
  change (2 ^ 64) with 18446744073709551616 in *. change (2 ^ 63) with 9223372036854775808 in *.
  Z.to_euclidean_division_equations. lia.
Qed.

Lemma bytes_of_string_inj s t : bytes_of_string s = bytes_of_string t -> s = t.
Proof. intros H%(f_equal string_of_bytes). by rewrite !string_of_bytes_of_string in H. Qed.

(** Two authenticators the cache hashes the same bytes for are the same in every field RFC 4120
    distinguishes them by, so a request is only refused as a repeat of an identical one (up to a
    collision of the hash). *)
Lemma authenticator_bytes_inj (a b : authenticator) :
  authenticator_ok a -> authenticator_ok b ->
  authenticator_bytes a = authenticator_bytes b -> a = b.
Proof.
  intros (Ha1 & Ha2 & Ha3 & Ha4) (Hb1 & Hb2 & Hb3 & Hb4). unfold authenticator_bytes. cbn [app].
  intros [Hr Heq]%app_sep_inj; [|done|done].
  apply app_sep_inj in Heq as [Hn Heq]; [|done|done].
  apply app_inj_1 in Heq as [Ht Heq]; [|by rewrite !length_put_be].
  apply app_inj_1 in Heq as [Hu Hd]; [|by rewrite !length_put_be].
  apply bytes_of_string_inj in Hr, Hn. apply put_be_inj in Ht, Hu.
  change (256 ^ Z.of_nat 8) with (2 ^ 64) in *.
  rewrite !Z.mod_small in Ht by (apply wrap_range; lia).
  rewrite !Z.mod_small in Hu by (apply wrap_range; lia).
  apply wrap64_inj in Ht; [|done|done].
  apply wrap64_inj in Hu; [|unfold min_int64, max_int64; lia|unfold min_int64, max_int64; lia].
  destruct a, b; simpl in *; congruence.
Qed.

Lemma authenticator_bytes_inj_witness :
  authenticator_ok sample_auth /\ (authenticator_bytes sample_auth = authenticator_bytes sample_auth -> sample_auth = sample_auth).
Proof.
  assert (Hok : authenticator_ok sample_auth).
  { split_and!; try (vm_compute; congruence); apply (bool_decide_unpack _); vm_compute; reflexivity. }
  split; [exact Hok|]. apply authenticator_bytes_inj; exact Hok.
Defined.

(** ** The cache does not grow without bound *)

Definition swept (window : Duration) (c : replayCache) : Prop :=
  map_Forall (fun _ t => lastSweep c - window <= t) (entries c).

Lemma sweepLocked_swept window now c : swept window c -> swept window (sweepLocked window now c).
Proof.
  intros Hs. unfold sweepLocked. case_if; [done|]. intros k t. cbn [entries lastSweep].
  intros [_ Hb]%map_lookup_filter_Some. unfold Before in Hb. rewrite Z.ltb_lt in Hb. lia.
Qed.

Lemma sweepLocked_recent window now c :
  0 <= window < max_int64 ->
  (now - lastSweep (sweepLocked window now c)) < Z.max 1 (Z.quot window 4).
Proof.
  intros Hw. unfold sweepLocked. case_if; cbn [lastSweep]; [|lia]. simp_bool.
  unfold Sub, max_int64, min_int64 in *.
  assert (Z.quot window 4 <= window) by (rewrite Z.quot_div_nonneg by lia; apply Z.div_le_upper_bound; lia).
  lia.
Qed.

Lemma seen_swept `{Sha256} window now a c :
  0 <= window -> lastSweep c <= now -> swept window c ->
  swept window (snd (seen window now a c)) /\ lastSweep (snd (seen window now a c)) <= now.
Proof.
  intros Hw Hle Hs. apply (sweepLocked_swept _ now) in Hs.
  assert (Hl : lastSweep (sweepLocked window now c) <= now)
    by (unfold sweepLocked; case_if; cbn [lastSweep]; lia).
  unfold seen. destruct (entries _ !! _); cbn [snd]; [done|]. split; [|done].
  apply map_Forall_insert_2; cbn [lastSweep]; [lia|done].
Qed.

(** After any run of requests the cache holds nothing older than a window and a quarter at the
    last request, so its size is bounded by the requests of that time. *)
Lemma replay_cache_bounded `{Sha256} (window now : Time) (a : authenticator)
    (calls : list (Time * authenticator)) :
  0 < window < max_int64 -> clock_from zeroTime (calls ++ [(now, a)]) ->
  map_Forall (fun _ t => now - window - Z.max 1 (Z.quot window 4) < t)
    (entries (snd (seen window now a (snd (run window calls newReplayCache))))).
Proof.
  intros Hw Hc.
  assert (Hinv : swept window (snd (run window calls newReplayCache)) /\
                 lastSweep (snd (run window calls newReplayCache)) <= now).
  { assert (Hgen : forall t0 c, clock_from t0 (calls ++ [(now, a)]) -> swept window c -> lastSweep c <= t0 ->
      swept window (snd (run window calls c)) /\ lastSweep (snd (run window calls c)) <= now).
    { clear Hc. induction calls as [|[u b] calls IH]; intros t0 c Hc Hs Hl.
      - cbn in Hc |- *. split; [done|lia].
      - destruct Hc as [Hle Hc]. cbn [run].
        destruct (seen_swept window u b c) as [Hs' Hl']; [lia|lia|done|].
        destruct (seen window u b c) as [x c1]. cbn [snd] in *.
        specialize (IH u c1 Hc Hs' Hl'). by destruct (run window calls c1). }
    apply (Hgen zeroTime); [done| |done]. apply map_Forall_empty. }
  destruct Hinv as [Hs Hl]. set (c := snd (run window calls newReplayCache)) in *.
  pose proof (sweepLocked_recent window now c ltac:(lia)).
  apply (sweepLocked_swept _ now) in Hs. unfold swept in Hs. unfold seen.
  destruct (entries (sweepLocked window now c) !! sha256 (authenticator_bytes a)); cbn [snd entries].
  - intros k t Hk. specialize (Hs k t Hk). cbv beta in *. lia.
  - apply map_Forall_insert_2; [lia|]. intros k t Hk. specialize (Hs k t Hk). cbv beta in *. lia.
Qed.

Lemma replay_cache_bounded_witness :
  let H : Sha256 := fun b => b in
  map_Forall (fun _ t => 1500 - 400 - Z.max 1 100 < t)
    (entries (snd (seen 400 1500 other_auth (snd (run 400 [(0, sample_auth); (100, other_auth)] newReplayCache))))).
Proof.
  intros H. apply (replay_cache_bounded 400 1500 other_auth [(0, sample_auth); (100, other_auth)]).
  - vm_compute. split; congruence.
  - vm_compute. repeat split; congruence.
Defined.
