(* ===== verification/Flags.v ===== *)
(** * Kerberos flag sets

    The ASN.1 bit strings that carry KDC options and ticket flags, and the operations of the
    Kerberos library on them. The library is a parameter, with the laws RFC 4120 section 5.2.8
    gives flag sets: bit 0 is the most significant bit of the first byte. *)

From S2P Require Import Prelude.

(** [asn1.BitString]. *)
Record BitString : Type := mkBitString {
  Bytes : bytes;
  BitLength : Z;
}.

(** The flags and options the KDC works with, by the names of package [iana/flags], and the one
    the repository adds, [optionCNameInAddlTkt]. *)
Inductive Flag : Type :=
| Forwardable | Proxiable | AllowPostDate | MayPostDate | PostDated | Invalid | Renewable
| Initial | PreAuthent | OKAsDelegate | Canonicalize | RenewableOK | EncTktInSkey | Renew
| Validate | CNameInAddlTkt.

#[global] Instance Flag_eq_dec : EqDecision Flag.
Proof. solve_decision. Defined.

(** Bit [i] of a flag set, bit 0 being the most significant bit of the first byte. *)
Definition flag_bit (b : bytes) (i : Z) : bool :=
  match b !! Z.to_nat (i / 8) with
  | Some x => Z.testbit (Z_of_byte x) (7 - i mod 8)
  | None => false
  end.

(** The library: its flag constants and the functions of package [types]. *)
Class KrbFlags : Type := {
  flagno : Flag -> Z;
  NewKrbFlags : BitString;
  SetFlag : BitString -> Z -> BitString;
  UnsetFlag : BitString -> Z -> BitString;
  IsFlagSet : BitString -> Z -> bool;
}.

(** Two constants may stand for one bit: ALLOW-POSTDATE and MAY-POSTDATE, which are the same bit of
    an option set and of a flag set. *)
Definition same_bit (f g : Flag) : bool :=
  match f, g with
  | AllowPostDate, MayPostDate | MayPostDate, AllowPostDate => true
  | _, _ => bool_decide (f = g)
  end.

Class KrbFlagsLaws `(KrbFlags) : Prop := {
  flagno_range f : 0 <= flagno f < 32;
  flagno_same f g : (flagno f =? flagno g) = same_bit f g;
  NewKrbFlags_bytes : NewKrbFlags = mkBitString (replicate 4 Byte.x00) 32;
  IsFlagSet_bit b i : 0 <= i < 32 -> IsFlagSet b i = flag_bit (Bytes b) i;
  SetFlag_bit b i j : 0 <= i < 32 -> 0 <= j < 32 ->
    flag_bit (Bytes (SetFlag b i)) j = (i =? j) || flag_bit (Bytes b) j;
  UnsetFlag_bit b i j : 0 <= i < 32 -> 0 <= j < 32 ->
    flag_bit (Bytes (UnsetFlag b i)) j = negb (i =? j) && flag_bit (Bytes b) j;
}.

(** [copyFlags] of tgs.go. *)
Definition copyFlags `{KrbFlags} (b : BitString) : BitString :=
  let out := NewKrbFlags in
  mkBitString (blit (Bytes out) 0 (Bytes b)) (if 0 <? BitLength b then BitLength b else BitLength out).

Definition has `{KrbFlags} (b : BitString) (f : Flag) : bool := IsFlagSet b (flagno f).
Definition set `{KrbFlags} (f : Flag) (b : BitString) : BitString := SetFlag b (flagno f).
Definition unset `{KrbFlags} (f : Flag) (b : BitString) : BitString := UnsetFlag b (flagno f).

(** [if c { types.SetFlag(&b, f) }]. *)
Definition set_if `{KrbFlags} (c : bool) (f : Flag) (b : BitString) : BitString :=
  if c then set f b else b.

Section FlagLemmas.
Context `{KrbFlagsLaws}.

Lemma has_bit b f : has b f = flag_bit (Bytes b) (flagno f).
Proof. apply IsFlagSet_bit, flagno_range. Qed.

Lemma has_new f : has NewKrbFlags f = false.
Proof.
  rewrite has_bit, NewKrbFlags_bytes. unfold flag_bit. cbn [Bytes].
  pose proof (flagno_range f).
  destruct (replicate 4 Byte.x00 !! _) as [x|] eqn:E; [|done].
  apply lookup_replicate in E as [-> _]. apply Z.bits_0.
Qed.

Lemma has_set f g b : has (set f b) g = same_bit f g || has b g.
Proof.
  rewrite !has_bit. unfold set. rewrite SetFlag_bit by apply flagno_range. by rewrite flagno_same.
Qed.

Lemma has_unset f g b : has (unset f b) g = negb (same_bit f g) && has b g.
Proof.
  rewrite !has_bit. unfold unset. rewrite UnsetFlag_bit by apply flagno_range. by rewrite flagno_same.
Qed.

Lemma has_set_if c f g b : has (set_if c f b) g = (c && same_bit f g) || has b g.
Proof. destruct c; simpl; [apply has_set|done]. Qed.

Lemma flag_bit_blit b i :
  0 <= i < 32 -> flag_bit (blit (replicate 4 Byte.x00) 0 b) i = flag_bit b i.
Proof.
  intros Hi. unfold flag_bit, blit. rewrite take_0, app_nil_l, Nat.add_0_l.
  assert (Hn : (Z.to_nat (i / 8) < 4)%nat).
  { apply Nat2Z.inj_lt. rewrite Z2Nat.id by (apply Z.div_pos; lia). apply Z.div_lt_upper_bound; lia. }
  set (n := Z.to_nat (i / 8)) in *. clearbody n. rewrite length_replicate, Nat.sub_0_r.
  destruct (decide (n < List.length b)%nat) as [Hb|Hb].
  - rewrite lookup_app_l by (rewrite length_take; lia). by rewrite lookup_take_lt by lia.
  - rewrite lookup_app_r by (rewrite length_take; lia).
    rewrite (lookup_ge_None_2 b) by lia.
    destruct (drop _ _ !! _) as [x|] eqn:E; [|done].
    rewrite lookup_drop in E. apply lookup_replicate in E as [-> _]. apply Z.bits_0.
Qed.

(** A copy carries the flags of the original. *)
Lemma has_copyFlags b f : has (copyFlags b) f = has b f.
Proof.
  rewrite !has_bit. unfold copyFlags. cbn [Bytes]. rewrite NewKrbFlags_bytes. cbn [Bytes].
  apply flag_bit_blit, flagno_range.
Qed.
End FlagLemmas.

#[export] Hint Rewrite @has_new @has_set @has_unset @has_set_if @has_copyFlags using typeclasses eauto : gobytes.

(** ** A concrete flag library, the numbers of RFC 4120 and MS-SFU *)

Definition rfc_flagno (f : Flag) : Z :=
  match f with
  | Forwardable => 1 | Proxiable => 3 | AllowPostDate => 5 | MayPostDate => 5 | PostDated => 6
  | Invalid => 7 | Renewable => 8 | Initial => 9 | PreAuthent => 10 | OKAsDelegate => 13
  | CNameInAddlTkt => 14 | Canonicalize => 15 | RenewableOK => 27 | EncTktInSkey => 28
  | Renew => 30 | Validate => 31
  end.

Definition pad4 (b : bytes) : bytes := b ++ replicate (4 - List.length b) Byte.x00.

Definition alter_bit (v : bool) (b : bytes) (i : Z) : bytes :=
  alter (fun x => byte_of_Z
    (if v then Z.setbit (Z_of_byte x) (7 - i mod 8) else Z.clearbit (Z_of_byte x) (7 - i mod 8)))
    (Z.to_nat (i / 8)) (pad4 b).

Definition rfc_flags : KrbFlags := {|
  flagno := rfc_flagno;
  NewKrbFlags := mkBitString (replicate 4 Byte.x00) 32;
  SetFlag b i := mkBitString (alter_bit true (Bytes b) i) 32;
  UnsetFlag b i := mkBitString (alter_bit false (Bytes b) i) 32;
  IsFlagSet b i := flag_bit (Bytes b) i;
|}.

Lemma flag_bit_pad4 b i : flag_bit (pad4 b) i = flag_bit b i.
Proof.
  unfold flag_bit, pad4. set (n := Z.to_nat (i / 8)).
  destruct (decide (n < List.length b)%nat) as [Hb|Hb].
  - by rewrite lookup_app_l by lia.
  - rewrite lookup_app_r, (lookup_ge_None_2 b) by lia.
    destruct (replicate _ _ !! _) as [x|] eqn:E; [|done].
    apply lookup_replicate in E as [-> _]. apply Z.bits_0.
Qed.

Lemma Z_of_byte_bits_high x k : 8 <= k -> Z.testbit (Z_of_byte x) k = false.
Proof.
  intros Hk. pose proof (Z_of_byte_range x) as [H0 H].
  destruct (decide (Z_of_byte x = 0)) as [->|]; [apply Z.bits_0|].
  apply Z.bits_above_log2; [lia|]. assert (Z.log2 (Z_of_byte x) < 8); [|lia].
  apply Z.log2_lt_pow2; [lia|]. change (2 ^ 8) with 256. lia.
Qed.

Lemma testbit_mod256 z k : 0 <= k < 8 -> Z.testbit (z mod 256) k = Z.testbit z k.
Proof. intros. change 256 with (2 ^ 8). apply Z.mod_pow2_bits_low. lia. Qed.

Lemma flag_bit_alter v b i j :
  0 <= i < 32 -> 0 <= j < 32 ->
  flag_bit (alter_bit v b i) j =
    if v then (i =? j) || flag_bit b j else negb (i =? j) && flag_bit b j.
Proof.
  intros Hi Hj. rewrite <- !(flag_bit_pad4 b j).
  assert (Hmj : 0 <= 7 - j mod 8 < 8) by (pose proof (Z.mod_pos_bound j 8); lia).
  assert (Hmi : 0 <= 7 - i mod 8 < 8) by (pose proof (Z.mod_pos_bound i 8); lia).
  pose proof (Z.div_mod i 8). pose proof (Z.div_mod j 8).
  pose proof (Z.div_pos i 8). pose proof (Z.div_pos j 8).
  unfold flag_bit, alter_bit. destruct (decide (i / 8 = j / 8)) as [Hd|Hd].
  - rewrite Hd, list_lookup_alter_eq.
    assert (Hlt : is_Some (pad4 b !! Z.to_nat (j / 8))).
    { apply lookup_lt_is_Some. unfold pad4. rewrite length_app, length_replicate.
      assert (j / 8 < 4) by (apply Z.div_lt_upper_bound; lia). lia. }
    destruct Hlt as [x ->]. cbn [fmap option_fmap option_map].
    rewrite Z_of_byte_of_Z, testbit_mod256 by lia.
    assert (Hij : (i =? j) = (7 - i mod 8 =? 7 - j mod 8)).
    { apply eq_true_iff_eq. rewrite !Z.eqb_eq. lia. }
    rewrite Hij. destruct v; [by rewrite Z.setbit_eqb by lia|rewrite Z.clearbit_eqb; by rewrite andb_comm].
  - rewrite list_lookup_alter_ne by lia.
    assert (Hij : (i =? j) = false) by (apply Z.eqb_neq; intros ->; lia). rewrite Hij. by destruct v.
Qed.

#[global] Instance rfc_flags_laws : KrbFlagsLaws rfc_flags.
Proof.
  split; cbn [flagno NewKrbFlags IsFlagSet SetFlag UnsetFlag rfc_flags Bytes].
  - intros []; simpl; lia.
  - intros [] []; reflexivity.
  - reflexivity.
  - reflexivity.
  - intros. by rewrite flag_bit_alter.
  - intros. by rewrite flag_bit_alter.
Qed.
