(* ===== verification/Model.v ===== *)
(** * The directory's data: package [store], model.go

    Accounts, groups, principals and trusts as the rest of the service sees them, with the tests a
    principal answers about itself. *)

From S2P Require Import Prelude Names Keytab.

Record Capability : Type := mkCapability { c_Action : string; c_Object : string }.

Record AppPassword : Type := mkAppPassword {
  ap_ID : Z; ap_Name : string; ap_CreatedAt : Time; ap_Hash : string }.

(** [User]. [HasOTP] and [HasPassword] are kept as the fields they are. *)
Record User : Type := mkUser {
  u_ID : Z;
  u_Name : string;
  u_UIDNumber : Z;
  u_PrimaryGroup : Z;
  u_OtherGroups : list Z;
  u_GivenName : string;
  u_SN : string;
  u_Mail : string;
  u_LoginShell : string;
  u_Homedir : string;
  u_Disabled : bool;
  u_SSHKeys : list string;
  u_CustomAttrs : gmap string (list string);
  u_Capabilities : list Capability;
  u_AppPasswords : list AppPassword;
  u_CreatedAt : Time;
  u_UpdatedAt : Time;
  u_PassBcrypt : string;
  u_OTPSecret : string;
  u_HasOTP : bool;
  u_HasPassword : bool;
}.

Record Group : Type := mkGroup {
  g_ID : Z;
  g_Name : string;
  g_GIDNumber : Z;
  g_Description : string;
  g_IncludeGroups : list Z;
  g_Capabilities : list Capability;
  g_CustomAttrs : gmap string (list string);
  g_CreatedAt : Time;
  g_UpdatedAt : Time;
}.

(** [Principal]; a pointer field is an option. *)
Record Principal : Type := mkPrincipal {
  p_ID : Z;
  p_Name : string;
  p_Realm : string;
  p_UserID : option Z;
  p_UserName : string;
  p_KVNO : Z;
  p_Enabled : bool;
  p_RequiresPreAuth : bool;
  p_AllowForwardable : bool;
  p_AllowProxiable : bool;
  p_AllowRenewable : bool;
  p_AllowPostdate : bool;
  p_OKAsDelegate : bool;
  p_OKToAuthAsDelegate : bool;
  p_AllowedToDelegateTo : list string;
  p_Aliases : list string;
  p_AllowedToImpersonate : list string;
  p_MaxTicketLife : Duration;
  p_MaxRenewableLife : Duration;
  p_PasswordLastSet : option Time;
  p_PasswordExpiresAt : option Time;
  p_ExpiresAt : option Time;
  p_LockedUntil : option Time;
  p_FailCount : Z;
  p_LastSuccess : option Time;
  p_LastFailure : option Time;
  p_CreatedAt : Time;
  p_UpdatedAt : Time;
  p_Keys : list Key;
}.

Definition FullName (p : Principal) : string := p_Name p +:+ "@" +:+ p_Realm p.

(** [KrbName] panics on a stored name that does not parse. *)
Definition KrbName {E} (p : Principal) : outcome E Name := MustParseName (p_Name p) (p_Realm p).

Definition KeyFor (p : Principal) (etype : Z) : option Key :=
  List.find (fun k => EType k =? etype) (p_Keys p).

Definition EncTypes (p : Principal) : list Z := EType <$> p_Keys p.

Inductive PrincipalStatus : Type :=
| PrincipalOK
| PrincipalDisabled
| PrincipalExpired
| PrincipalLockedOut
| PrincipalNoKeys.

#[global] Instance PrincipalStatus_eq_dec : EqDecision PrincipalStatus.
Proof. solve_decision. Defined.

Definition Status_String (s : PrincipalStatus) : string :=
  match s with
  | PrincipalOK => "usable"
  | PrincipalDisabled => "principal is disabled"
  | PrincipalExpired => "principal has expired"
  | PrincipalLockedOut => "principal is locked out"
  | PrincipalNoKeys => "principal has no keys"
  end.

(** [x != nil && !t.Before( *x)], the moment has arrived; and [x != nil && t.Before( *x)]. *)
Definition reached (t : Time) (x : option Time) : bool :=
  match x with Some d => negb (Before t d) | None => false end.
Definition still_before (t : Time) (x : option Time) : bool :=
  match x with Some d => Before t d | None => false end.

Definition Status (p : Principal) (t : Time) : PrincipalStatus :=
  if negb (p_Enabled p) then PrincipalDisabled
  else if reached t (p_ExpiresAt p) then PrincipalExpired
  else if still_before t (p_LockedUntil p) then PrincipalLockedOut
  else if (List.length (p_Keys p) =? 0)%nat then PrincipalNoKeys
  else PrincipalOK.

Definition PasswordExpired (p : Principal) (t : Time) : bool := reached t (p_PasswordExpiresAt p).

Inductive TrustDirection : Type := TrustOutbound | TrustInbound | TrustBidirectional.

#[global] Instance TrustDirection_eq_dec : EqDecision TrustDirection.
Proof. solve_decision. Defined.

Record Trust : Type := mkTrust {
  t_ID : Z;
  t_RemoteRealm : string;
  t_Direction : TrustDirection;
  t_Transitive : bool;
  t_Enabled : bool;
  t_CreatedAt : Time;
  t_UpdatedAt : Time;
}.

Definition Allows (t : Trust) (d : TrustDirection) : bool :=
  if negb (t_Enabled t) then false
  else bool_decide (t_Direction t = d) || bool_decide (t_Direction t = TrustBidirectional).

(** The bits of krbTicketFlags the service sets. *)
Definition KDBDisallowPostdated : Z := 0x1.
Definition KDBDisallowForwardable : Z := 0x2.
Definition KDBDisallowRenewable : Z := 0x8.
Definition KDBDisallowProxiable : Z := 0x10.
Definition KDBDisallowAllTix : Z := 0x40.
Definition KDBRequiresPreAuth : Z := 0x80.
Definition KDBPwChangeService : Z := 0x2000.
Definition KDBOKAsDelegate : Z := 0x100000.
Definition KDBOKToAuthAsDelegate : Z := 0x200000.

Definition or_if (c : bool) (bit f : Z) : Z := if c then Z.lor f bit else f.

Definition TicketFlags {E} (p : Principal) : outcome E Z :=
  let f := 0 in
  let f := or_if (negb (p_AllowPostdate p)) KDBDisallowPostdated f in
  let f := or_if (negb (p_AllowForwardable p)) KDBDisallowForwardable f in
  let f := or_if (negb (p_AllowRenewable p)) KDBDisallowRenewable f in
  let f := or_if (negb (p_AllowProxiable p)) KDBDisallowProxiable f in
  let f := or_if (negb (p_Enabled p)) KDBDisallowAllTix f in
  let f := or_if (p_RequiresPreAuth p) KDBRequiresPreAuth f in
  let f := or_if (p_OKAsDelegate p) KDBOKAsDelegate f in
  let f := or_if (p_OKToAuthAsDelegate p) KDBOKToAuthAsDelegate f in
  n ← KrbName p;
  mret (or_if (IsChangePW n) KDBPwChangeService f).

(** ** What the tests decide *)

Lemma Status_OK p t :
  Status p t = PrincipalOK <->
  p_Enabled p = true /\ (forall e, p_ExpiresAt p = Some e -> t < e) /\
  (forall l, p_LockedUntil p = Some l -> l <= t) /\ p_Keys p <> [].
Proof.
  unfold Status, reached, still_before, Before.
  destruct (p_Enabled p), (p_ExpiresAt p) as [e|], (p_LockedUntil p) as [l|], (p_Keys p) as [|k ks];
    simpl; repeat case_match; simp_bool; split; intros; destruct_and?; try done.
  all: try (split_and!; [done|intros ? [= <-]; lia|intros ? [= <-]; lia|done]).
  all: try (split_and!; [done|intros ? [= <-]; lia|done|done]).
  all: try (split_and!; [done|done|intros ? [= <-]; lia|done]).
  all: exfalso; repeat match goal with
    | H : forall x, Some ?y = Some x -> _ |- _ => specialize (H y eq_refl)
    end; lia || done.
Qed.

Lemma KeyFor_Some p etype k : KeyFor p etype = Some k -> k ∈ p_Keys p /\ EType k = etype.
Proof. intros [H1 H2%Z.eqb_eq]%find_Some_elem. done. Qed.

(** Each bit of krbTicketFlags says what the policy field it stands for says. *)
Lemma TicketFlags_bits (p : Principal) (n : Name) (f : Z) :
  ParseName (p_Name p) (p_Realm p) = Ok n -> TicketFlags (E := unit) p = Ok f ->
  Z.testbit f 0 = negb (p_AllowPostdate p) /\ Z.testbit f 1 = negb (p_AllowForwardable p) /\
  Z.testbit f 3 = negb (p_AllowRenewable p) /\ Z.testbit f 4 = negb (p_AllowProxiable p) /\
  Z.testbit f 6 = negb (p_Enabled p) /\ Z.testbit f 7 = p_RequiresPreAuth p /\
  Z.testbit f 13 = IsChangePW n /\ Z.testbit f 20 = p_OKAsDelegate p /\
  Z.testbit f 21 = p_OKToAuthAsDelegate p /\ 0 <= f < 2 ^ 31.
Proof.
  intros Hn. unfold TicketFlags, KrbName, MustParseName. rewrite Hn. intros H. run_inv. clear Hn.
  destruct (p_AllowPostdate p), (p_AllowForwardable p), (p_AllowRenewable p), (p_AllowProxiable p),
    (p_Enabled p), (p_RequiresPreAuth p), (p_OKAsDelegate p), (p_OKToAuthAsDelegate p), (IsChangePW n);
    vm_compute; repeat split; congruence.
Qed.
