(* ===== verification/Messages.v ===== *)
(** * Kerberos messages

    The message types of the Kerberos library (go-krb5, packages messages and types) with the
    fields the service reads and writes, the numbers of RFC 4120 it names, and the library itself as
    a parameter: ASN.1, encryption and checksums. *)

From S2P Require Import Prelude Names Keytab Flags.

Record PAData : Type := mkPAData { PADataType : Z; PADataValue : bytes }.
Record EncryptedData : Type := mkEncryptedData { ed_EType : Z; ed_KVNO : Z; ed_Cipher : bytes }.
Record Checksum : Type := mkChecksum { CksumType : Z; ck_Checksum : bytes }.
Record ADEntry : Type := mkADEntry { ADType : Z; ADData : bytes }.
Abbreviation AuthorizationData := (list ADEntry).
Record TransitedEncoding : Type := mkTransitedEncoding { TRType : Z; Contents : bytes }.
Record HostAddress : Type := mkHostAddress { AddrType : Z; Address : bytes }.

Record Ticket : Type := mkTicket {
  TktVNO : Z;
  tkt_Realm : string;
  tkt_SName : PrincipalName;
  tkt_EncPart : EncryptedData;
}.

Record EncTicketPart : Type := mkEncTicketPart {
  et_Flags : BitString;
  et_Key : EncryptionKey;
  et_CRealm : string;
  et_CName : PrincipalName;
  et_Transited : TransitedEncoding;
  et_AuthTime : Time;
  et_StartTime : Time;
  et_EndTime : Time;
  et_RenewTill : Time;
  et_CAddr : list HostAddress;
  et_AuthorizationData : AuthorizationData;
}.

(** [KDCReqBody]; [bd_EType] is [None] for a nil slice. *)
Record KDCReqBody : Type := mkKDCReqBody {
  KDCOptions : BitString;
  bd_CName : PrincipalName;
  bd_Realm : string;
  bd_SName : PrincipalName;
  From : Time;
  Till : Time;
  RTime : Time;
  Nonce : Z;
  bd_EType : option (list Z);
  Addresses : list HostAddress;
  AdditionalTickets : list Ticket;
}.

(** [ASReq] and [TGSReq]. *)
Record KDCReq : Type := mkKDCReq { rq_PAData : list PAData; ReqBody : KDCReqBody }.

Record Authenticator : Type := mkAuthenticatorMsg {
  au_CRealm : string;
  au_CName : PrincipalName;
  au_Cksum : Checksum;
  au_Cusec : Z;
  au_CTime : Time;
  au_SubKey : EncryptionKey;
}.

Record APReq : Type := mkAPReq { ap_Ticket : Ticket; EncryptedAuthenticator : EncryptedData }.

Record LastReq : Type := mkLastReq { LRType : Z; LRValue : Time }.

Record EncKDCRepPart : Type := mkEncKDCRepPart {
  ek_Key : EncryptionKey;
  ek_LastReqs : list LastReq;
  ek_Nonce : Z;
  ek_KeyExpiration : Time;
  ek_Flags : BitString;
  ek_AuthTime : Time;
  ek_StartTime : Time;
  ek_EndTime : Time;
  ek_RenewTill : Time;
  ek_SRealm : string;
  ek_SName : PrincipalName;
  ek_CAddr : list HostAddress;
}.

(** [ASRep] and [TGSRep]. *)
Record KDCRep : Type := mkKDCRep {
  rp_PVNO : Z;
  rp_MsgType : Z;
  rp_PAData : list PAData;
  rp_CRealm : string;
  rp_CName : PrincipalName;
  rp_Ticket : Ticket;
  rp_EncPart : EncryptedData;
}.

Record ETypeInfo2Entry : Type := mkETypeInfo2Entry { ei_EType : Z; ei_Salt : string; ei_S2KParams : bytes }.

(** [paForUser] of sfu.go. *)
Record paForUser : Type := mkPaForUser {
  fu_UserName : PrincipalName;
  fu_UserRealm : string;
  fu_Cksum : Checksum;
  fu_AuthPackage : string;
}.

(** The error codes of package [iana/errorcode] the service answers with. *)
Inductive errorcode : Type :=
| KDC_ERR_NAME_EXP | KDC_ERR_SERVICE_EXP | KDC_ERR_C_PRINCIPAL_UNKNOWN | KDC_ERR_S_PRINCIPAL_UNKNOWN
| KDC_ERR_CANNOT_POSTDATE | KDC_ERR_NEVER_VALID | KDC_ERR_POLICY | KDC_ERR_BADOPTION
| KDC_ERR_ETYPE_NOSUPP | KDC_ERR_SUMTYPE_NOSUPP | KDC_ERR_PADATA_TYPE_NOSUPP
| KDC_ERR_CLIENT_REVOKED | KDC_ERR_KEY_EXPIRED | KDC_ERR_PREAUTH_FAILED | KDC_ERR_PREAUTH_REQUIRED
| KDC_ERR_PATH_NOT_ACCEPTED | KDC_ERR_SVC_UNAVAILABLE | KDC_ERR_WRONG_REALM
| KRB_AP_ERR_BAD_INTEGRITY | KRB_AP_ERR_TKT_EXPIRED | KRB_AP_ERR_TKT_NYV | KRB_AP_ERR_REPEAT
| KRB_AP_ERR_BADMATCH | KRB_AP_ERR_SKEW | KRB_AP_ERR_MODIFIED | KRB_AP_ERR_INAPP_CKSUM
| KRB_ERR_RESPONSE_TOO_BIG | KRB_ERR_GENERIC.

#[global] Instance errorcode_eq_dec : EqDecision errorcode.
Proof. solve_decision. Defined.

Record KRBError : Type := mkKRBError {
  ke_SName : PrincipalName;
  ke_SRealm : string;
  ke_Code : errorcode;
  ke_EData : bytes;
  ke_CName : PrincipalName;
  ke_CRealm : string;
  ke_CTime : Time;
}.

(** Numbers of RFC 4120: the protocol version, message types, application tags, pre-authentication
    data types, authorization data types and key usages. *)
Definition PVNO : Z := 5.
Definition KRB_AS_REQ : Z := 10.
Definition KRB_AS_REP : Z := 11.
Definition KRB_TGS_REQ : Z := 12.
Definition KRB_TGS_REP : Z := 13.
Definition tag_EncTicketPart : Z := 3.
Definition tag_EncASRepPart : Z := 25.
Definition tag_EncTGSRepPart : Z := 26.
Definition PA_TGS_REQ : Z := 1.
Definition PA_ENC_TIMESTAMP : Z := 2.
Definition PA_ETYPE_INFO2 : Z := 19.
Definition PA_FOR_USER : Z := 129.
Definition ADIfRelevant : Z := 1.
Definition ADWin2KPAC : Z := 128.
Definition AS_REQ_PA_ENC_TIMESTAMP : Z := 1.
Definition KDC_REP_TICKET : Z := 2.
Definition AS_REP_ENCPART : Z := 3.
Definition TGS_REQ_PA_TGS_REQ_AP_REQ_AUTHENTICATOR_CHKSUM : Z := 6.
Definition TGS_REQ_PA_TGS_REQ_AP_REQ_AUTHENTICATOR : Z := 7.
Definition TGS_REP_ENCPART_SESSION_KEY : Z := 8.
Definition TGS_REP_ENCPART_AUTHENTICATOR_SUB_KEY : Z := 9.
Definition KERB_NON_KERB_CKSUM_SALT : Z := 17.
Definition KERB_CHECKSUM_HMAC_MD5 : Z := -138.

(** The library. [None] is a returned error. A function that draws random bytes takes the number of
    the draw. *)
Class KrbLib : Type := {
  Unmarshal_ASReq : bytes -> option KDCReq;
  Unmarshal_TGSReq : bytes -> option KDCReq;
  Unmarshal_APReq : bytes -> option APReq;
  Unmarshal_Authenticator : bytes -> option Authenticator;
  Unmarshal_PAEncTimestamp : bytes -> option EncryptedData;
  Unmarshal_PAEncTSEnc : bytes -> option Time;
  Unmarshal_AuthorizationData : bytes -> option AuthorizationData;
  Unmarshal_paForUser : bytes -> option paForUser;
  Marshal_EncTicketPart : EncTicketPart -> option bytes;
  Marshal_EncKDCRepPart : EncKDCRepPart -> option bytes;
  Marshal_ASRep : KDCRep -> option bytes;
  Marshal_TGSRep : KDCRep -> option bytes;
  Marshal_MethodData : list PAData -> option bytes;
  Marshal_ETypeInfo2 : list ETypeInfo2Entry -> option bytes;
  Marshal_AuthorizationData : AuthorizationData -> option bytes;
  Marshal_KRBError : KRBError -> option bytes;
  (** [asn1.Unmarshal] into a raw value: the class is application or not, and the tag. *)
  Unmarshal_RawValue : bytes -> option (bool * Z);
  (** the contents of field 4 of a TGS-REQ, as they arrived *)
  Unmarshal_ReqBody : bytes -> option bytes;
  AddASNAppTag : bytes -> Z -> bytes;
  GenerateEncryptionKey : nat -> Z -> option EncryptionKey;
  GetEncryptedData : nat -> bytes -> EncryptionKey -> Z -> Z -> option EncryptedData;
  DecryptEncPart : EncryptedData -> EncryptionKey -> Z -> option bytes;
  (** [Ticket.Decrypt]: the decrypted part of the ticket. *)
  Ticket_Decrypt : Ticket -> EncryptionKey -> option EncTicketPart;
  GetChecksumEType : Z -> bool;
  VerifyChecksum : Z -> bytes -> bytes -> bytes -> Z -> bool;
  PrincipalName_Equal : PrincipalName -> PrincipalName -> bool;
}.

(** RFC 4120 section 6.2: two names are the same when their components are; the name type is not
    significant. A DER encoding is longer than what it holds. *)
Class KrbLibLaws `(KrbLib) : Prop := {
  PrincipalName_Equal_spec a b : PrincipalName_Equal a b = true <-> NameString a = NameString b;
  AuthorizationData_nonempty ad : Unmarshal_AuthorizationData [] <> Some ad;
  AuthorizationData_shorter b ad e :
    Unmarshal_AuthorizationData b = Some ad -> e ∈ ad -> (List.length (ADData e) < List.length b)%nat;
}.
