(* ===== verification/Ticket.v ===== *)
(** * Ticket policy: package [kdc], ticket.go

    What times, flags, enctypes and keys a ticket gets, and the sealing of it. *)

From S2P Require Import Prelude Names Keytab Flags Model Messages.

(** [LockoutPolicy] of the store's principals.go. *)
Record LockoutPolicy : Type := mkLockoutPolicy {
  MaxFailures : Z;
  FailureCountInterval : Duration;
  LockoutDuration : Duration;
}.

(** [Config] of server.go. *)
Record Config : Type := mkConfig {
  cfg_Realm : string;
  cfg_NetBIOSName : string;
  cfg_DomainSID : string;
  cfg_MaxTicketLife : Duration;
  cfg_MaxRenewableLife : Duration;
  cfg_ClockSkew : Duration;
  cfg_EncTypes : list Z;
  cfg_RequirePreAuth : bool;
  cfg_IssuePAC : bool;
  cfg_AllowS4U : bool;
  cfg_UDPMaxSize : Z;
  cfg_Lockout : LockoutPolicy;
}.

(** [protocolError] of errors.go. The text for humans and the cause kept for the log are left out. *)
Record protocolError : Type := mkProtocolError {
  Code : errorcode;
  EData : bytes;
  pe_Client : option Name;
}.

Definition krbErr (code : errorcode) : protocolError := mkProtocolError code [] None.

Definition withClient (e : protocolError) (name : Name) : protocolError :=
  mkProtocolError (Code e) (EData e) (Some name).

(** [ticketTimes]. *)
Record ticketTimes : Type := mkTicketTimes {
  tt_AuthTime : Time;
  tt_StartTime : Time;
  tt_EndTime : Time;
  tt_RenewTill : Time;
  tt_Renewable : bool;
  tt_Postdated : bool;
}.

Definition isRequestedTime (t : Time) : bool := negb (IsZero t) && (0 <? Unix t).

(** One round of the loop of [effectiveLife]. *)
Definition tighten (out d : Duration) : Duration := if (0 <? d) && (d <? out) then d else out.

Definition effectiveLife (client server realm : Duration) : Duration :=
  let out := fold_left tighten [client; server] realm in
  if out <=? 0 then realm else out.

Definition computeStart `{KrbFlags} (cfg : Config) (body : KDCReqBody) (client : Principal) (now : Time) :
    outcome protocolError (Time * bool) :=
  if has (KDCOptions body) PostDated && negb (IsZero (From body)) then
    if negb (p_AllowPostdate client) then Err (krbErr KDC_ERR_BADOPTION)
    else Ok (From body, true)
  else if negb (IsZero (From body)) && After (From body) (now + cfg_ClockSkew cfg) then
    Err (krbErr KDC_ERR_CANNOT_POSTDATE)
  else Ok (now, false).

(** The [switch] on RENEWABLE and RENEWABLE-OK: the renew-until time, when there is one. *)
Definition computeRenew `{KrbFlags} (body : KDCReqBody) (client server : Principal)
    (start end_ : Time) (maxRenew : Duration) : option Time :=
  let allowed := p_AllowRenewable client && p_AllowRenewable server in
  if has (KDCOptions body) Renewable && allowed then
    let limit := start + maxRenew in
    Some (if isRequestedTime (RTime body) && Before (RTime body) limit then RTime body else limit)
  else if has (KDCOptions body) RenewableOK && allowed
          && isRequestedTime (Till body) && After (Till body) end_ then
    let limit := start + maxRenew in
    Some (if After (Till body) limit then limit else Till body)
  else None.

Definition computeTimes `{KrbFlags} (cfg : Config) (body : KDCReqBody) (client server : Principal)
    (now : Time) : outcome protocolError ticketTimes :=
  '(start, postdated) ← computeStart cfg body client now;
  let maxLife := effectiveLife (p_MaxTicketLife client) (p_MaxTicketLife server) (cfg_MaxTicketLife cfg) in
  let end_ := start + maxLife in
  let end_ := if isRequestedTime (Till body) && Before (Till body) end_ then Till body else end_ in
  _ ← err_if (negb (After end_ start)) (krbErr KDC_ERR_NEVER_VALID);
  let maxRenew := effectiveLife (p_MaxRenewableLife client) (p_MaxRenewableLife server)
                    (cfg_MaxRenewableLife cfg) in
  match computeRenew body client server start end_ maxRenew with
  | Some till =>
      if negb (After till end_) then mret (mkTicketTimes now start end_ zeroTime false postdated)
      else mret (mkTicketTimes now start end_ till true postdated)
  | None => mret (mkTicketTimes now start end_ zeroTime false postdated)
  end.

Definition ticketFlags `{KrbFlags} (body : KDCReqBody) (client server : Principal) (t : ticketTimes)
    (initial preAuth : bool) : BitString :=
  let f := NewKrbFlags in
  let f := set_if initial Initial f in
  let f := set_if preAuth PreAuthent f in
  let f := set_if (has (KDCOptions body) Forwardable && p_AllowForwardable client
                   && p_AllowForwardable server) Forwardable f in
  let f := set_if (has (KDCOptions body) Proxiable && p_AllowProxiable client
                   && p_AllowProxiable server) Proxiable f in
  let f := set_if (has (KDCOptions body) AllowPostDate && p_AllowPostdate client) MayPostDate f in
  let f := set_if (tt_Renewable t) Renewable f in
  let f := if tt_Postdated t then set Invalid (set PostDated f) else f in
  set_if (p_OKAsDelegate server) OKAsDelegate f.

(** [slices.Contains] on a slice that may be nil. *)
Definition offers (offered : option (list Z)) (e : Z) : bool :=
  match offered with Some l => contains_Z e l | None => false end.

Definition selectSessionEType (cfg : Config) (offered : option (list Z)) : option Z :=
  List.find (offers offered) (cfg_EncTypes cfg).

Fixpoint selectKey (p : Principal) (preference : list Z) (offered : option (list Z)) : option Key :=
  match preference with
  | [] => None
  | want :: preference' =>
      let offeredOK := match offered with None => true | Some l => contains_Z want l end in
      if negb offeredOK then selectKey p preference' offered
      else match KeyFor p want with
           | Some k => Some k
           | None => selectKey p preference' offered
           end
  end.

(** [ticketSpec]. *)
Record ticketSpec : Type := mkTicketSpec {
  ts_Client : Name;
  ts_Server : Name;
  ts_ServerKey : Key;
  ts_ServerKVNO : Z;
  ts_SessionEType : Z;
  ts_Flags : BitString;
  ts_AuthTime : Time;
  ts_StartTime : Time;
  ts_EndTime : Time;
  ts_RenewTill : Time;
  ts_Addresses : list HostAddress;
  ts_AuthorizationData : AuthorizationData;
  ts_Transited : TransitedEncoding;
}.

(** The encrypted part of the ticket a spec describes. *)
Definition encTicketPart (spec : ticketSpec) (sessionKey : EncryptionKey) : EncTicketPart :=
  mkEncTicketPart (ts_Flags spec) sessionKey (Realm (ts_Client spec)) (PrincipalName_of (ts_Client spec))
    (ts_Transited spec) (ts_AuthTime spec) (ts_StartTime spec) (ts_EndTime spec) (ts_RenewTill spec)
    (ts_Addresses spec) (ts_AuthorizationData spec).

(** [mintTicket] with the draws [seed] (the session key) and [S seed] (the encryption). *)
Definition mintTicket `{EncTypeLib, KrbLib} (seed : nat) (spec : ticketSpec) : option (Ticket * EncryptionKey) :=
  if negb (GetEType (ts_SessionEType spec)) then None
  else
    sessionKey ← GenerateEncryptionKey seed (ts_SessionEType spec);
    b ← Marshal_EncTicketPart (encTicketPart spec sessionKey);
    ed ← GetEncryptedData (S seed) (AddASNAppTag b tag_EncTicketPart)
           (EncryptionKey_of (ts_ServerKey spec)) KDC_REP_TICKET (ts_ServerKVNO spec);
    Some (mkTicket PVNO (Realm (ts_Server spec)) (PrincipalName_of (ts_Server spec)) ed, sessionKey).

Definition marshalEncKDCRepPart `{KrbLib} (part : EncKDCRepPart) (appTag : Z) : option bytes :=
  b ← Marshal_EncKDCRepPart part;
  Some (AddASNAppTag b appTag).

(** ** Lifetimes *)

Lemma effectiveLife_le c s r : effectiveLife c s r <= r.
Proof. unfold effectiveLife, tighten. simpl. repeat case_match; simp_bool; lia. Qed.

Lemma effectiveLife_client c s r : 0 < c -> 0 < r -> effectiveLife c s r <= c.
Proof. unfold effectiveLife, tighten. simpl. intros. repeat case_match; simp_bool; try lia;
  repeat match goal with H : (_ && _) = false |- _ => apply andb_false_iff in H as [?|?]; simp_bool end; lia. Qed.

Lemma effectiveLife_server c s r : 0 < s -> 0 < r -> effectiveLife c s r <= s.
Proof. unfold effectiveLife, tighten. simpl. intros. repeat case_match; simp_bool; try lia;
  repeat match goal with H : (_ && _) = false |- _ => apply andb_false_iff in H as [?|?]; simp_bool end; lia. Qed.

(** It is the least of the limits that are set. *)
Lemma effectiveLife_exact c s r :
  0 < r -> effectiveLife c s r = r \/ (effectiveLife c s r = c /\ 0 < c) \/ (effectiveLife c s r = s /\ 0 < s).
Proof. unfold effectiveLife, tighten. simpl. intros. repeat case_match; simp_bool; lia. Qed.

Section Times.
Context `{KrbFlags} (cfg : Config).

(** What policy promises about the times of a ticket. *)
Record times_ok (body : KDCReqBody) (client server : Principal) (now : Time) (t : ticketTimes) : Prop := {
  ok_auth : tt_AuthTime t = now;
  ok_start : if tt_Postdated t
             then tt_StartTime t = From body /\ p_AllowPostdate client = true /\
                  has (KDCOptions body) PostDated = true
             else tt_StartTime t = now;
  ok_window : tt_StartTime t < tt_EndTime t;
  ok_life : tt_EndTime t - tt_StartTime t <=
            effectiveLife (p_MaxTicketLife client) (p_MaxTicketLife server) (cfg_MaxTicketLife cfg);
  ok_till : isRequestedTime (Till body) = true -> tt_EndTime t <= Till body;
  ok_renew : if tt_Renewable t
             then p_AllowRenewable client = true /\ p_AllowRenewable server = true /\
                  (has (KDCOptions body) Renewable || has (KDCOptions body) RenewableOK) = true /\
                  tt_EndTime t < tt_RenewTill t /\
                  tt_RenewTill t - tt_StartTime t <=
                  effectiveLife (p_MaxRenewableLife client) (p_MaxRenewableLife server) (cfg_MaxRenewableLife cfg)
             else tt_RenewTill t = zeroTime;
}.

Lemma computeStart_Ok body client now start postdated :
  computeStart cfg body client now = Ok (start, postdated) ->
  if postdated then start = From body /\ p_AllowPostdate client = true /\
                    has (KDCOptions body) PostDated = true
  else start = now.
Proof.
  unfold computeStart. intros. repeat case_match; simp_bool; simplify_eq; naive_solver.
Qed.

Lemma computeRenew_Some body client server start end_ maxRenew till :
  computeRenew body client server start end_ maxRenew = Some till ->
  p_AllowRenewable client = true /\ p_AllowRenewable server = true /\
  (has (KDCOptions body) Renewable || has (KDCOptions body) RenewableOK) = true /\
  till <= start + maxRenew.
Proof.
  unfold computeRenew, Before, After. intros.
  destruct (has (KDCOptions body) Renewable), (has (KDCOptions body) RenewableOK),
    (p_AllowRenewable client), (p_AllowRenewable server); simpl in *; simplify_eq;
    repeat case_match; simp_bool; simplify_eq; split_and!; done || lia.
Qed.

Lemma clamp_le (b : bool) (t e : Time) : (if b && Before t e then t else e) <= e.
Proof. unfold Before. destruct b; simpl; [|lia]. case_match; simp_bool; lia. Qed.

Lemma clamp_till (t e : Time) : (if true && Before t e then t else e) <= t.
Proof. unfold Before. simpl. case_match; simp_bool; lia. Qed.

(** The clamped window is open when the life is positive and the requested end lies ahead. *)
Lemma window_open (r : bool) (till st life : Time) :
  if negb (After (if r && Before till (st + life) then till else st + life) st)
  then life <= 0 \/ (r = true /\ till <= st)
  else 0 < life /\ (r = true -> st < till).
Proof.
  unfold After, Before. destruct r; simpl; [destruct (till <? st + life) eqn:E|]; simp_bool;
    case_match; simp_bool; first [split; [lia|intros; (lia || done)]|lia].
Qed.

(** The times of a ticket obey every limit at once: the window is open and no longer than the
    shortest of the limits of the client, the service and the realm; it ends no later than the
    client asked; a start other than now is a postdated request the client may make; a renewable
    ticket is one both principals may have, that can still be renewed after it ends, inside the
    renewable limits; and a ticket that is not renewable has no renew-until time. *)
Lemma computeTimes_sound (body : KDCReqBody) (client server : Principal) (now : Time) (t : ticketTimes) :
  computeTimes cfg body client server now = Ok t -> times_ok body client server now t.
Proof.
  unfold computeTimes. intros Hc. run_inv. destruct x as [start postdated]. run_inv.
  match goal with H : computeStart _ _ _ _ = _ |- _ => apply computeStart_Ok in H as Hs end.
  simp_bool. unfold After in *. simp_bool.
  set (life := effectiveLife (p_MaxTicketLife client) _ _) in *.
  set (end_ := if isRequestedTime (Till body) && _ then _ else _) in *.
  pose proof (clamp_le (isRequestedTime (Till body)) (Till body) (start + life)) as He. fold end_ in He.
  assert (Ht : isRequestedTime (Till body) = true -> end_ <= Till body).
  { intros Hr. unfold end_. rewrite Hr. apply clamp_till. }
  destruct (computeRenew _ _ _ _ _ _) as [till|] eqn:Er; [apply computeRenew_Some in Er; destruct (end_ <? till) eqn:El|];
    cbn [negb] in *; run_inv; simp_bool; constructor; simpl; try done; try lia;
    destruct_and?; split_and?; done || lia.
Qed.

(** [computeTimes] refuses a request for one of three reasons and no other: a postdated request
    by a client that may not postdate, a start in the future without POSTDATED, a window that closes
    before it opens. *)
Lemma computeTimes_errors (body : KDCReqBody) (client server : Principal) (now : Time) :
  let future := negb (IsZero (From body)) && After (From body) (now + cfg_ClockSkew cfg) in
  let postdate := has (KDCOptions body) PostDated && negb (IsZero (From body)) in
  let start := if postdate then From body else now in
  let life := effectiveLife (p_MaxTicketLife client) (p_MaxTicketLife server) (cfg_MaxTicketLife cfg) in
  match computeTimes cfg body client server now with
  | Ok _ => (postdate = true -> p_AllowPostdate client = true) /\ (postdate = false -> future = false) /\
            0 < life /\ (isRequestedTime (Till body) = true -> start < Till body)
  | Err e => (Code e = KDC_ERR_BADOPTION /\ postdate = true /\ p_AllowPostdate client = false) \/
             (Code e = KDC_ERR_CANNOT_POSTDATE /\ postdate = false /\ future = true) \/
             (Code e = KDC_ERR_NEVER_VALID /\
              (life <= 0 \/ (isRequestedTime (Till body) = true /\ Till body <= start)))
  | Panic => False
  end.
Proof.
  intros future postdate start life. unfold computeTimes, computeStart.
  fold postdate future life. unfold mbind, outcome_bind, mret, outcome_ret, err_if.
  subst start. destruct postdate; [destruct (p_AllowPostdate client)|destruct future]; simpl.
  all: try (by left); try (by right; left).
  all: match goal with |- context [negb (After ?e ?s)] => pose proof (window_open (isRequestedTime (Till body)) (Till body) s life) as Hw;
    destruct (negb (After e s)) end.
  all: try (right; right; by split).
  all: destruct Hw as [? ?]; destruct (computeRenew _ _ _ _ _ _) as [till|];
    [destruct (negb (After till _))|]; split_and!; done.
Qed.

(** Each flag of a new ticket is set exactly when the request asks for it and policy grants it,
    and no other flag of the set is. *)
Lemma ticketFlags_exact `{!KrbFlagsLaws H} (body : KDCReqBody) (client server : Principal)
    (t : ticketTimes) (initial preAuth : bool) (f : Flag) :
  has (ticketFlags body client server t initial preAuth) f =
    match f with
    | Initial => initial
    | PreAuthent => preAuth
    | Forwardable => has (KDCOptions body) Forwardable && p_AllowForwardable client && p_AllowForwardable server
    | Proxiable => has (KDCOptions body) Proxiable && p_AllowProxiable client && p_AllowProxiable server
    | AllowPostDate | MayPostDate => has (KDCOptions body) AllowPostDate && p_AllowPostdate client
    | Renewable => tt_Renewable t
    | PostDated | Invalid => tt_Postdated t
    | OKAsDelegate => p_OKAsDelegate server
    | _ => false
    end.
Proof.
  unfold ticketFlags. rewrite has_set_if.
  destruct (tt_Postdated t); rewrite ?has_set, !has_set_if, has_new;
    destruct f; simpl; rewrite ?andb_false_r, ?andb_true_r, ?orb_false_r; simpl; try done.
Qed.
End Times.

(** ** Enctypes and keys *)

(** [k] is what the preference order picks: an offered enctype the principal holds a key of, before
    which no preferred enctype is both offered and held. *)
Definition most_preferred (preference : list Z) (usable : Z -> bool) (e : Z) : Prop :=
  exists pre post, preference = pre ++ e :: post /\ usable e = true /\
                   forall x, x ∈ pre -> usable x = false.

Lemma find_most_preferred f l e : List.find f l = Some e <-> most_preferred l f e.
Proof.
  split.
  - induction l as [|x l IH]; [done|]. simpl. destruct (f x) eqn:E.
    + intros [= ->]. exists [], l. split; [done|]. split; [done|]. intros y Hy. by apply not_elem_of_nil in Hy.
    + intros (pre & post & -> & He & Hpre)%IH. exists (x :: pre), post. split; [done|]. split; [done|].
      intros y [->|?]%elem_of_cons; auto.
  - intros (pre & post & -> & He & Hpre). induction pre as [|x pre IH]; simpl; [by rewrite He|].
    rewrite Hpre by left. apply IH. intros y Hy. apply Hpre. by right.
Qed.

Definition key_usable (p : Principal) (offered : option (list Z)) (e : Z) : bool :=
  match offered with None => true | Some l => contains_Z e l end && bool_decide (is_Some (KeyFor p e)).

Lemma selectKey_find p preference offered :
  selectKey p preference offered = (List.find (key_usable p offered) preference ≫= KeyFor p).
Proof.
  induction preference as [|want l IH]; [done|]. cbn [selectKey List.find]. rewrite IH.
  change (key_usable p offered want) with
    (match offered with None => true | Some l0 => contains_Z want l0 end && bool_decide (is_Some (KeyFor p want))).
  destruct (match offered with None => true | Some l0 => contains_Z want l0 end); simpl; [|done].
  destruct (KeyFor p want) as [k|] eqn:E; simpl.
  - by rewrite E.
  - done.
Qed.

(** [selectKey] returns a key exactly when some preferred enctype is offered and held, and then
    the one of the most preferred such enctype, from the principal's own keys. *)
Lemma selectKey_spec (p : Principal) (preference : list Z) (offered : option (list Z)) :
  match selectKey p preference offered with
  | Some k => most_preferred preference (key_usable p offered) (EType k) /\ k ∈ p_Keys p
  | None => forall e, e ∈ preference -> key_usable p offered e = false
  end.
Proof.
  rewrite selectKey_find. destruct (List.find _ _) as [e|] eqn:E; simpl.
  - pose proof (find_Some_elem _ _ _ E) as [_ Hu]. apply find_most_preferred in E.
    unfold key_usable in Hu. simp_bool. destruct (KeyFor p e) as [k|] eqn:Hk; [|by destruct H0].
    apply KeyFor_Some in Hk as [Hin <-]. done.
  - by apply find_None_elem.
Qed.

(** ** A sample realm *)

Definition hour : Duration := 3600 * second.

Definition sample_cfg : Config := {|
  cfg_Realm := "EXAMPLE.COM"; cfg_NetBIOSName := "EXAMPLE"; cfg_DomainSID := "S-1-5-21-1-2-3";
  cfg_MaxTicketLife := 10 * hour; cfg_MaxRenewableLife := 168 * hour; cfg_ClockSkew := 300 * second;
  cfg_EncTypes := [18; 17]; cfg_RequirePreAuth := true; cfg_IssuePAC := false; cfg_AllowS4U := true;
  cfg_UDPMaxSize := 1400; cfg_Lockout := mkLockoutPolicy 5 (600 * second) (900 * second) |}.

Definition sample_principal (id : Z) (name : string) (key : Byte.byte) : Principal := {|
  p_ID := id; p_Name := name; p_Realm := "EXAMPLE.COM"; p_UserID := None; p_UserName := ""; p_KVNO := 1;
  p_Enabled := true; p_RequiresPreAuth := true; p_AllowForwardable := true; p_AllowProxiable := true;
  p_AllowRenewable := true; p_AllowPostdate := false; p_OKAsDelegate := false;
  p_OKToAuthAsDelegate := false; p_AllowedToDelegateTo := []; p_Aliases := [];
  p_AllowedToImpersonate := []; p_MaxTicketLife := 8 * hour; p_MaxRenewableLife := 0;
  p_PasswordLastSet := None; p_PasswordExpiresAt := None; p_ExpiresAt := None; p_LockedUntil := None;
  p_FailCount := 0; p_LastSuccess := None; p_LastFailure := None; p_CreatedAt := 0; p_UpdatedAt := 0;
  p_Keys := [mkKey 17 [key] "salt17" ""; mkKey 18 [key; key] "salt18" ""] |}.

Definition sample_body (options : BitString) (cname sname : list string) (till : Time) : KDCReqBody :=
  mkKDCReqBody options (mkPrincipalName 1 cname) "EXAMPLE.COM" (mkPrincipalName 2 sname)
    zeroTime till zeroTime 7 (Some [17; 18]) [] [].

Definition renewable_options : BitString := set (H := rfc_flags) Renewable (NewKrbFlags (KrbFlags := rfc_flags)).

Definition sample_now : Time := UnixTime 1700000000.
