(* ===== verification/Secret.v ===== *)
(** * Sealed key material: package [secret], and the key contexts of the store

    A value is sealed with an AEAD cipher under a fresh nonce, bound to a context string; a stored
    long-term key is bound to its principal, its key version and its enctype. *)

From S2P Require Import Prelude Text Base64.

(** The [i]-th read of [n] bytes from the system's random source. *)
Class Rand : Type := rand : nat -> nat -> bytes.

Class RandLaws `(Rand) : Prop := rand_length n i : List.length (rand n i) = n.

(** [cipher.AEAD]: AES-256-GCM under the master key. *)
Class AEAD : Type := {
  NonceSize : nat;
  aead_Seal : bytes -> bytes -> bytes -> bytes;
  aead_Open : bytes -> bytes -> bytes -> option bytes;
}.

(** What an authenticated cipher promises: what was sealed opens with the nonce and the additional
    data it was sealed with, and with no other additional data; a nonce has bytes. *)
Class AEADLaws `(AEAD) : Prop := {
  aead_Open_Seal nonce plain ad : aead_Open nonce (aead_Seal nonce plain ad) ad = Some plain;
  aead_Open_other nonce plain ad ad' : ad <> ad' -> aead_Open nonce (aead_Seal nonce plain ad) ad' = None;
  aead_nonce : (0 < NonceSize)%nat;
}.

Definition KeySize : Z := 32.

(** The guard of [NewSealer]. *)
Definition master_key_ok (masterKey : bytes) : bool := Z.of_nat (List.length masterKey) =? KeySize.

Section Sealer.
Context `{Rand, AEAD}.

(** [Seal] with the [i]-th draw as its nonce. *)
Definition Seal (i : nat) (plaintext : bytes) (context : string) : bytes :=
  let nonce := rand NonceSize i in
  nonce ++ aead_Seal nonce plaintext (bytes_of_string context).

Definition Open (ciphertext : bytes) (context : string) : option bytes :=
  if (List.length ciphertext <? NonceSize)%nat then None
  else aead_Open (take NonceSize ciphertext) (drop NonceSize ciphertext) (bytes_of_string context).

(** [fmt.Sprintf("principal-key:%d:%d:%d", ...)]. *)
Definition keyContext (principalID kvno etype : Z) : string :=
  "principal-key:" +:+ pretty principalID +:+ ":" +:+ pretty kvno +:+ ":" +:+ pretty etype.

Definition sealKey (i : nat) (principalID kvno etype : Z) (value : bytes) : bytes :=
  Seal i value (keyContext principalID kvno etype).

Definition openKey (principalID kvno etype : Z) (sealed : bytes) : option bytes :=
  Open sealed (keyContext principalID kvno etype).

(** A value sealed as text, for the metadata table. *)
Definition SealSecret (i : nat) (plaintext : bytes) (context : string) : string :=
  EncodeToString StdEncoding (Seal i plaintext context).

Definition OpenSecret (text context : string) : option bytes :=
  sealed ← DecodeString StdEncoding text;
  Open sealed context.
End Sealer.

Section SealerLaws.
Context `{RandLaws, AEADLaws}.

Lemma Open_Seal_gen i plain context context' :
  Open (Seal i plain context) context' =
    aead_Open (rand NonceSize i) (aead_Seal (rand NonceSize i) plain (bytes_of_string context))
      (bytes_of_string context').
Proof.
  unfold Open, Seal. rewrite length_app, rand_length.
  destruct (Nat.ltb_spec (NonceSize + List.length (aead_Seal (rand NonceSize i) plain (bytes_of_string context)))
    NonceSize); [lia|].
  rewrite take_app_length', drop_app_length' by (symmetry; apply rand_length). done.
Qed.

Lemma Open_Seal i plain context : Open (Seal i plain context) context = Some plain.
Proof. rewrite Open_Seal_gen. apply aead_Open_Seal. Qed.

Lemma OpenSecret_SealSecret i plain context : OpenSecret (SealSecret i plain context) context = Some plain.
Proof.
  unfold OpenSecret, SealSecret. rewrite DecodeString_EncodeToString by (by left). apply Open_Seal.
Qed.

Lemma SealSecret_non_empty i plain context : non_empty (SealSecret i plain context) = true.
Proof.
  apply non_empty_spec. intros E. assert (Hl : List.length (Seal i plain context) <> 0%nat).
  { unfold Seal. rewrite length_app, rand_length. pose proof aead_nonce. lia. }
  apply Hl. apply (EncodeToString_inj StdEncoding _ []) in E; [by rewrite E|by left].
Qed.

Lemma Open_Seal_other i plain context context' :
  context <> context' -> Open (Seal i plain context) context' = None.
Proof.
  intros Hne. rewrite Open_Seal_gen. apply aead_Open_other.
  intros Heq%(f_equal string_of_bytes). by rewrite !string_of_bytes_of_string in Heq.
Qed.
End SealerLaws.

(** ** The contexts of different keys are different strings *)

Definition colon : ascii := ":"%char.

Lemma pretty_Z_colon (z : Z) : contains_char colon (pretty z) = false.
Proof. by apply pretty_Z_no_char. Qed.

Lemma keyContext_inj p1 k1 e1 p2 k2 e2 :
  keyContext p1 k1 e1 = keyContext p2 k2 e2 -> p1 = p2 /\ k1 = k2 /\ e1 = e2.
Proof.
  unfold keyContext. intros Heq. rewrite !string_app_cons in Heq. injection Heq as Heq.
  change (pretty p1 +:+ String colon (pretty k1 +:+ String colon (pretty e1))
    = pretty p2 +:+ String colon (pretty k2 +:+ String colon (pretty e2))) in Heq.
  apply string_sep_inj in Heq as [Hp Heq]; [|apply pretty_Z_colon|apply pretty_Z_colon].
  apply string_sep_inj in Heq as [Hk He]; [|apply pretty_Z_colon|apply pretty_Z_colon].
  by apply (inj pretty) in Hp as ->, Hk as ->, He as ->.
Qed.

(** A stored key opens in the row it was sealed for, to the key that was sealed, and in no other
    row: a sealed value moved to another principal, another key version or another enctype does not
    open. *)
Lemma openKey_binding `{RandLaws, AEADLaws} (i : nat) (value : bytes) (p1 k1 e1 p2 k2 e2 : Z) :
  openKey p2 k2 e2 (sealKey i p1 k1 e1 value) =
    if bool_decide (p1 = p2 /\ k1 = k2 /\ e1 = e2) then Some value else None.
Proof.
  unfold openKey, sealKey. case_bool_decide as Hd.
  - destruct Hd as (-> & -> & ->). apply Open_Seal.
  - apply Open_Seal_other. intros Heq%keyContext_inj. done.
Qed.

(** ** A cipher for examples: the additional data in the clear, in front of the plaintext *)

Definition toy_rand : Rand := fun n i => replicate n (byte_of_Z (Z.of_nat i)).

(** A prefix-free spelling of the additional data. *)
Definition mark (ad : bytes) : bytes := flat_map (fun b => [Byte.x01; b]) ad ++ [Byte.x00].

Definition toy_aead : AEAD := {|
  NonceSize := 12;
  aead_Seal _ plain ad := mark ad ++ plain;
  aead_Open _ sealed ad :=
    if bool_decide (take (List.length (mark ad)) sealed = mark ad)
    then Some (drop (List.length (mark ad)) sealed) else None;
|}.

Lemma mark_prefix ad ad' plain :
  take (List.length (mark ad')) (mark ad ++ plain) = mark ad' -> ad = ad'.
Proof.
  revert ad'. induction ad as [|b ad IH]; intros [|b' ad']; simpl; intros Heq; simplify_eq; [done|].
  change (mark (b' :: ad')) with (Byte.x01 :: b' :: mark ad') in Heq. injection Heq as -> Heq.
  f_equal. by apply IH.
Qed.

#[global] Instance toy_aead_laws : AEADLaws toy_aead.
Proof.
  split; simpl.
  - intros _ plain ad. rewrite take_app_length, bool_decide_true by done. by rewrite drop_app_length.
  - intros _ plain ad ad' Hne. rewrite bool_decide_false; [done|]. intros Heq%mark_prefix. done.
  - lia.
Qed.

#[global] Instance toy_rand_laws : RandLaws toy_rand.
Proof. intros n i. apply length_replicate. Qed.

Lemma openKey_binding_witness :
  let H : Rand := toy_rand in let H0 : AEAD := toy_aead in
  openKey 7 2 18 (sealKey 5 7 2 18 [Byte.xaa]) = Some [Byte.xaa] /\
  openKey 8 2 18 (sealKey 5 7 2 18 [Byte.xaa]) = None.
Proof.
  intros H H0. split.
  - apply (openKey_binding (H0 := toy_rand_laws) (H2 := toy_aead_laws) 5 [Byte.xaa] 7 2 18 7 2 18).
  - apply (openKey_binding (H0 := toy_rand_laws) (H2 := toy_aead_laws) 5 [Byte.xaa] 7 2 18 8 2 18).
Defined.
