(* ===== verification/IdRange.v ===== *)
(** * Identifier ranges: package [store], idrange.go

    The map from POSIX ids onto Windows relative identifiers, as arithmetic; the allocation of
    identifiers to accounts and groups is in the directory. *)

From S2P Require Import Prelude.

(** [IDRange]; a Go [int] has 64 bits. *)
Record IDRange : Type := mkIDRange { BaseID : Z; Size : Z; BaseRID : Z; SecondaryBaseRID : Z }.

#[global] Instance IDRange_eq_dec : EqDecision IDRange.
Proof. solve_decision. Defined.

Definition DefaultIDRange : IDRange := mkIDRange 1 200000 1000 100000000.

Inductive RangeError : Type :=
| ErrBaseID | ErrSize | ErrBaseRID | ErrSecondaryBaseRID | ErrIDSpace | ErrRIDSpace | ErrOverlap.

Definition wellKnownRIDCeiling : Z := 1000.
Definition max_uint32 : Z := 2 ^ 32 - 1.

(** The sum of two Go [int]s or [int64]s. *)
Definition add64 (x y : Z) : Z := swrap 64 (x + y).

(** [Validate]; sums wrap as int64 does. *)
Definition Validate_range (r : IDRange) : option RangeError :=
  if BaseID r <=? 0 then Some ErrBaseID
  else if Size r <=? 0 then Some ErrSize
  else if BaseRID r <? wellKnownRIDCeiling then Some ErrBaseRID
  else if SecondaryBaseRID r <? wellKnownRIDCeiling then Some ErrSecondaryBaseRID
  else if max_uint32 <? add64 (BaseID r) (Size r) then Some ErrIDSpace
  else if existsb (fun base => max_uint32 <? add64 base (Size r)) [BaseRID r; SecondaryBaseRID r] then Some ErrRIDSpace
  else
    let '(lo, hi) := if SecondaryBaseRID r <? BaseRID r then (SecondaryBaseRID r, BaseRID r)
                     else (BaseRID r, SecondaryBaseRID r) in
    if hi <? add64 lo (Size r) then Some ErrOverlap else None.

Definition Contains (r : IDRange) (id : Z) : bool := (BaseID r <=? id) && (id <? add64 (BaseID r) (Size r)).

Definition rids (r : IDRange) (id : Z) : Z * Z :=
  let offset := swrap 64 (id - BaseID r) in
  (add64 (BaseRID r) offset, add64 (SecondaryBaseRID r) offset).

(** A range with the fields of a Go value. *)
Definition range_fits (r : IDRange) : Prop :=
  (forall z, z ∈ [BaseID r; Size r; BaseRID r; SecondaryBaseRID r] -> min_int64 <= z <= max_int64).

(** What a usable range is: both intervals inside the RID space, clear of the reserved identifiers
    and of each other. *)
Record range_ok (r : IDRange) : Prop := {
  rok_base : 0 < BaseID r;
  rok_size : 0 < Size r;
  rok_id : BaseID r + Size r <= max_uint32;
  rok_rid : 1000 <= BaseRID r /\ BaseRID r + Size r <= max_uint32;
  rok_sec : 1000 <= SecondaryBaseRID r /\ SecondaryBaseRID r + Size r <= max_uint32;
  rok_apart : BaseRID r + Size r <= SecondaryBaseRID r \/ SecondaryBaseRID r + Size r <= BaseRID r;
}.

Lemma swrap64_small x : min_int64 <= x <= max_int64 -> swrap 64 x = x.
Proof. intros. apply swrap_small; [lia|]. unfold min_int64, max_int64 in *. lia. Qed.

(** Two positive int64 sum to a negative one when they overflow. *)
Lemma add64_pos x y :
  0 < x <= max_int64 -> 0 < y <= max_int64 -> 0 < add64 x y -> add64 x y = x + y.
Proof.
  unfold add64, swrap, max_int64. change (64 - 1) with 63. intros Hx Hy Hp.
  destruct (decide (x + y < 2 ^ 63)) as [Hs|Hs].
  - rewrite Z.mod_small; lia.
  - exfalso. replace (x + y + 2 ^ 63) with (x + y - 2 ^ 63 + 1 * 2 ^ 64) in Hp by lia.
    rewrite Z.mod_add, Z.mod_small in Hp by lia. lia.
Qed.

Definition no_overflow (r : IDRange) : Prop :=
  BaseID r + Size r <= max_int64 /\ BaseRID r + Size r <= max_int64 /\ SecondaryBaseRID r + Size r <= max_int64.

Lemma Validate_range_ok r :
  range_fits r -> no_overflow r -> Validate_range r = None <-> range_ok r.
Proof.
  intros Hf (Ho1 & Ho2 & Ho3). unfold Validate_range.
  assert (Hb : forall z, z ∈ [BaseID r; Size r; BaseRID r; SecondaryBaseRID r] -> min_int64 <= z <= max_int64) by done.
  pose proof (Hb (BaseID r) ltac:(set_solver)). pose proof (Hb (Size r) ltac:(set_solver)).
  pose proof (Hb (BaseRID r) ltac:(set_solver)). pose proof (Hb (SecondaryBaseRID r) ltac:(set_solver)).
  clear Hb Hf. unfold wellKnownRIDCeiling, max_uint32, min_int64, max_int64 in *. simpl existsb.
  destruct (BaseID r <=? 0) eqn:E1; [simp_bool; split; [done|intros []; lia]|].
  destruct (Size r <=? 0) eqn:E2; [simp_bool; split; [done|intros []; lia]|].
  destruct (BaseRID r <? 1000) eqn:E3; [simp_bool; split; [done|intros []; lia]|].
  destruct (SecondaryBaseRID r <? 1000) eqn:E4; [simp_bool; split; [done|intros []; lia]|].
  simp_bool.
  assert (Hadd : forall x, 0 < x -> x + Size r <= 2 ^ 63 - 1 -> add64 x (Size r) = x + Size r)
    by (intros; unfold add64; apply swrap64_small; unfold min_int64, max_int64; lia).
  rewrite !Hadd by (try case_match; lia).
  destruct (2 ^ 32 - 1 <? BaseID r + Size r) eqn:E5; [simp_bool; split; [done|intros []; unfold max_uint32 in *; lia]|].
  destruct (2 ^ 32 - 1 <? BaseRID r + Size r) eqn:E6; simpl; [simp_bool; split; [done|intros []; unfold max_uint32 in *; lia]|].
  destruct (2 ^ 32 - 1 <? SecondaryBaseRID r + Size r) eqn:E7; simpl; [simp_bool; split; [done|intros []; unfold max_uint32 in *; lia]|].
  simp_bool.
  destruct (SecondaryBaseRID r <? BaseRID r) eqn:E8; simp_bool; rewrite Hadd by lia; case_match; simp_bool;
    (split; [try done; intros _; constructor; unfold max_uint32; lia|]; intros []; try done; lia).
Qed.

(** Inside a usable range the arithmetic of [Contains] and [rids] does not wrap. *)
Lemma rids_plain r id :
  range_ok r -> Contains r id = true ->
  BaseID r <= id < BaseID r + Size r /\
  rids r id = (BaseRID r + (id - BaseID r), SecondaryBaseRID r + (id - BaseID r)).
Proof.
  intros [H1 H2 H3 H4 H5 H6]. unfold Contains, rids, add64, max_uint32 in *. intros. simp_bool.
  rewrite (swrap64_small (BaseID r + Size r)) in * by (unfold min_int64, max_int64; lia).
  split; [lia|]. rewrite (swrap64_small (id - BaseID r)) by (unfold min_int64, max_int64; lia).
  rewrite !swrap64_small by (unfold min_int64, max_int64; lia). done.
Qed.

(** A range that passes [Validate] maps the POSIX ids it contains to relative identifiers of 32
    bits, none of them one Windows reserves; different ids get different identifiers, and a primary
    identifier is never the secondary one of any id. *)
Lemma Validate_rids (r : IDRange) (id id' : Z) :
  range_fits r -> no_overflow r -> Validate_range r = None ->
  Contains r id = true -> Contains r id' = true ->
  let '(p, s) := rids r id in
  let '(p', s') := rids r id' in
  1000 <= p < 2 ^ 32 /\ 1000 <= s < 2 ^ 32 /\ p <> s' /\ (p = p' <-> id = id') /\ (s = s' <-> id = id').
Proof.
  intros Hf Ho Hv Hc Hc'. apply Validate_range_ok in Hv; [|done|done].
  apply rids_plain in Hc as [Hc ->], Hc' as [Hc' ->]; [|done|done].
  destruct Hv as [H1 H2 H3 H4 H5 H6]. unfold max_uint32 in *. lia.
Qed.

Lemma Validate_rids_witness :
  let '(p, s) := rids DefaultIDRange 500 in
  let '(p', s') := rids DefaultIDRange 501 in
  1000 <= p < 2 ^ 32 /\ 1000 <= s < 2 ^ 32 /\ p <> s' /\ (p = p' <-> 500 = 501) /\ (s = s' <-> 500 = 501).
Proof.
  apply (Validate_rids DefaultIDRange 500 501).
  - intros z Hz. rewrite !elem_of_cons in Hz. unfold min_int64, max_int64. simpl in Hz.
    destruct Hz as [->|[->|[->|[->|[]%elem_of_nil]]]]; lia.
  - unfold no_overflow, max_int64. simpl. lia.
  - reflexivity.
  - reflexivity.
  - reflexivity.
Defined.

(** The check of the intervals adds at 64 bits, so it does not see a base close to the end of the
    range of an [int]: such a range passes, and maps an id to an identifier that does not fit in 32
    bits. *)
Lemma Validate_overflow :
  let r := mkIDRange 1 1 max_int64 1000 in
  Validate_range r = None /\ Contains r 1 = true /\ fst (rids r 1) = max_int64.
Proof. vm_compute. repeat split. Qed.
