(* ===== verification/Db.v ===== *)
(** * The database of package [store]

    The tables of the schema (migrations/sqlite) as lists of rows, the state a store operation runs
    in, and its transactions. Rows are in the order they were inserted. A statement that would break
    a unique index or a foreign key is the error it is in Go; a failure of the database itself (a
    lost connection, a full disk) is not modelled. *)

From S2P Require Import Prelude Names Keytab Model IdRange.

(** ** Rows *)

Record PrincipalRow : Type := mkPrincipalRow {
  pr_id : Z;
  pr_name : string;
  pr_realm : string;
  pr_user_id : option Z;
  pr_kvno : Z;
  pr_enabled : bool;
  pr_requires_preauth : bool;
  pr_allow_forwardable : bool;
  pr_allow_proxiable : bool;
  pr_allow_renewable : bool;
  pr_allow_postdate : bool;
  pr_ok_as_delegate : bool;
  pr_ok_to_auth_as_delegate : bool;
  pr_max_ticket_life : Z;
  pr_max_renewable_life : Z;
  pr_password_last_set : option Z;
  pr_password_expires_at : option Z;
  pr_expires_at : option Z;
  pr_locked_until : option Z;
  pr_fail_count : Z;
  pr_last_success : option Z;
  pr_last_failure : option Z;
  pr_created_at : Z;
  pr_updated_at : Z;
}.

Record KeyRow : Type := mkKeyRow {
  kr_principal_id : Z;
  kr_kvno : Z;
  kr_etype : Z;
  kr_position : Z;
  kr_key : bytes;
  kr_salt : string;
  kr_s2kparams : string;
  kr_created_at : Z;
}.

Record AliasRow : Type := mkAliasRow {
  al_principal_id : Z; al_name : string; al_realm : string; al_created_at : Z }.

(** A row of [delegation_targets] or [impersonation_targets]. *)
Record TargetRow : Type := mkTargetRow { tg_principal_id : Z; tg_target : string }.

Record TrustRow : Type := mkTrustRow {
  tr_id : Z; tr_remote_realm : string; tr_direction : TrustDirection; tr_transitive : bool;
  tr_enabled : bool; tr_created_at : Z; tr_updated_at : Z }.

Record UserRow : Type := mkUserRow {
  ur_id : Z;
  ur_name : string;
  ur_uid_number : Z;
  ur_primary_group : Z;
  ur_given_name : string;
  ur_sn : string;
  ur_mail : string;
  ur_login_shell : string;
  ur_home_dir : string;
  ur_disabled : bool;
  ur_pass_bcrypt : string;
  ur_otp_secret : string;
  ur_created_at : Z;
  ur_updated_at : Z;
}.

Record GroupRow : Type := mkGroupRow {
  gr_id : Z; gr_name : string; gr_gid_number : Z; gr_description : string;
  gr_created_at : Z; gr_updated_at : Z }.

Record SSHKeyRow : Type := mkSSHKeyRow { sk_user_id : Z; sk_position : Z; sk_key : string }.
Record AppPasswordRow : Type := mkAppPasswordRow {
  aw_id : Z; aw_user_id : Z; aw_name : string; aw_hash : string; aw_created_at : Z }.

Inductive owner_kind : Type := kind_user | kind_group.
#[global] Instance owner_kind_eq_dec : EqDecision owner_kind.
Proof. solve_decision. Defined.

Record CapabilityRow : Type := mkCapabilityRow {
  cr_kind : owner_kind; cr_owner_id : Z; cr_action : string; cr_object : string }.
Record AttrRow : Type := mkAttrRow {
  at_kind : owner_kind; at_owner_id : Z; at_name : string; at_position : Z; at_value : string }.
Record SIDRow : Type := mkSIDRow { si_rid : Z; si_kind : owner_kind; si_owner_id : Z; si_created_at : Z }.

Record DNSRow : Type := mkDNSRow {
  dn_id : Z; dn_name : string; dn_type : string; dn_ttl : Z; dn_value : string; dn_origin : string;
  dn_created_at : Z; dn_updated_at : Z }.
Record CertRow : Type := mkCertRow {
  ct_id : Z; ct_user_id : Z; ct_issuer : string; ct_serial : string; ct_subject : string; ct_der : bytes;
  ct_not_before : Z; ct_not_after : Z; ct_created_at : Z }.

(** ** Tables *)

(** The Kerberos half of the schema, and the counters of its AUTOINCREMENT keys. *)
Record KTables : Type := mkKTables {
  principals : list PrincipalRow;
  principal_keys : list KeyRow;
  principal_aliases : list AliasRow;
  delegation_targets : list TargetRow;
  impersonation_targets : list TargetRow;
  trusts : list TrustRow;
  seq_principals : Z;
  seq_trusts : Z;
}.

(** The directory half. *)
Record DTables : Type := mkDTables {
  users : list UserRow;
  user_groups : list (Z * Z);
  user_ssh_keys : list SSHKeyRow;
  user_app_passwords : list AppPasswordRow;
  groups : list GroupRow;
  group_includes : list (Z * Z);
  capabilities : list CapabilityRow;
  object_attrs : list AttrRow;
  security_identifiers : list SIDRow;
  seq_users : Z;
  seq_groups : Z;
  seq_app_passwords : Z;
}.

(** The zone: [dns_records], the one row of [dns_zone]; and [user_certificates], whose key is not
    AUTOINCREMENT and so has no counter. *)
Record ZTables : Type := mkZTables {
  dns_records : list DNSRow;
  zone_serial : Z;
  seq_dns_records : Z;
  user_certificates : list CertRow;
}.

Record DB : Type := mkDB { kt : KTables; dt : DTables; zt : ZTables; meta : gmap string string }.

(** What a store operation runs in: the database, the clock and the random source by how often they
    were read, and the identifier range the store was opened with. *)
Record St : Type := mkSt { st_db : DB; st_tick : nat; st_draw : nat; st_idRange : IDRange }.

Definition set_db (d : DB) (s : St) : St := mkSt d (st_tick s) (st_draw s) (st_idRange s).
Definition set_kt (k : KTables) (d : DB) : DB := mkDB k (dt d) (zt d) (meta d).
Definition set_dt (t : DTables) (d : DB) : DB := mkDB (kt d) t (zt d) (meta d).
Definition set_zt (t : ZTables) (d : DB) : DB := mkDB (kt d) (dt d) t (meta d).

Definition set_principals f (k : KTables) : KTables :=
  mkKTables (f (principals k)) (principal_keys k) (principal_aliases k) (delegation_targets k)
    (impersonation_targets k) (trusts k) (seq_principals k) (seq_trusts k).
Definition set_keys f (k : KTables) : KTables :=
  mkKTables (principals k) (f (principal_keys k)) (principal_aliases k) (delegation_targets k)
    (impersonation_targets k) (trusts k) (seq_principals k) (seq_trusts k).
Definition set_aliases f (k : KTables) : KTables :=
  mkKTables (principals k) (principal_keys k) (f (principal_aliases k)) (delegation_targets k)
    (impersonation_targets k) (trusts k) (seq_principals k) (seq_trusts k).
Definition set_delegation f (k : KTables) : KTables :=
  mkKTables (principals k) (principal_keys k) (principal_aliases k) (f (delegation_targets k))
    (impersonation_targets k) (trusts k) (seq_principals k) (seq_trusts k).
Definition set_impersonation f (k : KTables) : KTables :=
  mkKTables (principals k) (principal_keys k) (principal_aliases k) (delegation_targets k)
    (f (impersonation_targets k)) (trusts k) (seq_principals k) (seq_trusts k).
Definition set_trusts f (k : KTables) : KTables :=
  mkKTables (principals k) (principal_keys k) (principal_aliases k) (delegation_targets k)
    (impersonation_targets k) (f (trusts k)) (seq_principals k) (seq_trusts k).
Definition set_seq_principals n (k : KTables) : KTables :=
  mkKTables (principals k) (principal_keys k) (principal_aliases k) (delegation_targets k)
    (impersonation_targets k) (trusts k) n (seq_trusts k).
Definition set_seq_trusts n (k : KTables) : KTables :=
  mkKTables (principals k) (principal_keys k) (principal_aliases k) (delegation_targets k)
    (impersonation_targets k) (trusts k) (seq_principals k) n.

Definition set_users f (t : DTables) : DTables :=
  mkDTables (f (users t)) (user_groups t) (user_ssh_keys t) (user_app_passwords t) (groups t)
    (group_includes t) (capabilities t) (object_attrs t) (security_identifiers t) (seq_users t)
    (seq_groups t) (seq_app_passwords t).
Definition set_user_groups f (t : DTables) : DTables :=
  mkDTables (users t) (f (user_groups t)) (user_ssh_keys t) (user_app_passwords t) (groups t)
    (group_includes t) (capabilities t) (object_attrs t) (security_identifiers t) (seq_users t)
    (seq_groups t) (seq_app_passwords t).
Definition set_ssh_keys f (t : DTables) : DTables :=
  mkDTables (users t) (user_groups t) (f (user_ssh_keys t)) (user_app_passwords t) (groups t)
    (group_includes t) (capabilities t) (object_attrs t) (security_identifiers t) (seq_users t)
    (seq_groups t) (seq_app_passwords t).
Definition set_app_passwords f (t : DTables) : DTables :=
  mkDTables (users t) (user_groups t) (user_ssh_keys t) (f (user_app_passwords t)) (groups t)
    (group_includes t) (capabilities t) (object_attrs t) (security_identifiers t) (seq_users t)
    (seq_groups t) (seq_app_passwords t).
Definition set_groups f (t : DTables) : DTables :=
  mkDTables (users t) (user_groups t) (user_ssh_keys t) (user_app_passwords t) (f (groups t))
    (group_includes t) (capabilities t) (object_attrs t) (security_identifiers t) (seq_users t)
    (seq_groups t) (seq_app_passwords t).
Definition set_includes f (t : DTables) : DTables :=
  mkDTables (users t) (user_groups t) (user_ssh_keys t) (user_app_passwords t) (groups t)
    (f (group_includes t)) (capabilities t) (object_attrs t) (security_identifiers t) (seq_users t)
    (seq_groups t) (seq_app_passwords t).
Definition set_capabilities f (t : DTables) : DTables :=
  mkDTables (users t) (user_groups t) (user_ssh_keys t) (user_app_passwords t) (groups t)
    (group_includes t) (f (capabilities t)) (object_attrs t) (security_identifiers t) (seq_users t)
    (seq_groups t) (seq_app_passwords t).
Definition set_attrs f (t : DTables) : DTables :=
  mkDTables (users t) (user_groups t) (user_ssh_keys t) (user_app_passwords t) (groups t)
    (group_includes t) (capabilities t) (f (object_attrs t)) (security_identifiers t) (seq_users t)
    (seq_groups t) (seq_app_passwords t).
Definition set_sids f (t : DTables) : DTables :=
  mkDTables (users t) (user_groups t) (user_ssh_keys t) (user_app_passwords t) (groups t)
    (group_includes t) (capabilities t) (object_attrs t) (f (security_identifiers t)) (seq_users t)
    (seq_groups t) (seq_app_passwords t).
Definition set_seqs nu ng na (t : DTables) : DTables :=
  mkDTables (users t) (user_groups t) (user_ssh_keys t) (user_app_passwords t) (groups t)
    (group_includes t) (capabilities t) (object_attrs t) (security_identifiers t) nu ng na.

Definition set_dns f (t : ZTables) : ZTables :=
  mkZTables (f (dns_records t)) (zone_serial t) (seq_dns_records t) (user_certificates t).
Definition set_serial f (t : ZTables) : ZTables :=
  mkZTables (dns_records t) (f (zone_serial t)) (seq_dns_records t) (user_certificates t).
Definition set_seq_dns n (t : ZTables) : ZTables :=
  mkZTables (dns_records t) (zone_serial t) n (user_certificates t).
Definition set_certs f (t : ZTables) : ZTables :=
  mkZTables (dns_records t) (zone_serial t) (seq_dns_records t) (f (user_certificates t)).

(** ** Errors and transactions *)

Inductive StoreErr : Type :=
| ErrNotFound
| ErrNoRows
| ErrConflict
| ErrForeignKey
| ErrNoKeys
| ErrOpenKey
| ErrParseName (e : NameError)
| ErrKey (e : KeyError)
| ErrNameRequired
| ErrNumberRequired
| ErrNoFreeRID
| ErrPrimaryGroup
| ErrInvalidAttribute
| ErrPasswordTooLong
| ErrHash
| ErrRange
| ErrMeta
| ErrMutate
| ErrDNSRecord.

(** Readings of the clock, in the order they are made. *)
Class Clock : Type := clock : nat -> Time.

Class MonotoneClock `(Clock) : Prop := clock_monotone i j : (i <= j)%nat -> clock i <= clock j.

Abbreviation Tx := (M St StoreErr).

Definition time_now `{Clock} : Tx Time := fun s =>
  (Ok (clock (st_tick s)), mkSt (st_db s) (S (st_tick s)) (st_draw s) (st_idRange s)).

Definition draw : Tx nat := fun s =>
  (Ok (st_draw s), mkSt (st_db s) (st_tick s) (S (st_draw s)) (st_idRange s)).

Definition query {A} (f : DB -> A) : Tx A := fun s => (Ok (f (st_db s)), s).

(** A statement that may break a constraint. *)
Definition exec (f : DB -> outcome StoreErr DB) : Tx unit := fun s =>
  match f (st_db s) with
  | Ok d => (Ok tt, set_db d s)
  | Err e => (Err e, s)
  | Panic => (Panic, s)
  end.

Definition update (f : DB -> DB) : Tx unit := fun s => (Ok tt, set_db (f (st_db s)) s).
Definition update_kt (f : KTables -> KTables) : Tx unit := update (fun d => set_kt (f (kt d)) d).
Definition update_dt (f : DTables -> DTables) : Tx unit := update (fun d => set_dt (f (dt d)) d).
Definition update_zt (f : ZTables -> ZTables) : Tx unit := update (fun d => set_zt (f (zt d)) d).

(** [Store.write]: the transaction is rolled back unless its function returns without an error. *)
Definition write {A} (m : Tx A) : Tx A := fun s =>
  match m s with
  | (Ok a, s') => (Ok a, s')
  | (r, s') => (r, set_db (st_db s) s')
  end.

Definition null_time (t : option Time) : option Z :=
  match t with
  | Some t => if IsZero t then None else Some (Unix t)
  | None => None
  end.

Definition timeFrom (v : option Z) : option Time := UnixTime <$> v.

(** [time.Duration(n) * time.Second] wraps as int64 does; a duration divides towards zero. *)
Definition life_from (n : Z) : Duration := swrap 64 (n * second).
Definition life_seconds (d : Duration) : Z := Z.quot d second.

(** [for _, x := range l] over a body that may fail. *)
Fixpoint for_each {St E A} (f : A -> M St E unit) (l : list A) : M St E unit :=
  match l with
  | [] => mret tt
  | x :: l' => _ ← f x; for_each f l'
  end.

(** ** A transaction either commits or leaves the database alone *)

Lemma write_Ok {A} (m : Tx A) a s s' : write m s = (Ok a, s') -> m s = (Ok a, s').
Proof. unfold write. destruct (m s) as [[] ?]; naive_solver. Qed.

Lemma write_rollback {A} (m : Tx A) r s s' :
  write m s = (r, s') -> (forall a, r <> Ok a) -> st_db s' = st_db s.
Proof. unfold write. destruct (m s) as [[] ?]; intros; simplify_eq/=; [naive_solver|done|done]. Qed.

Lemma query_Ok {A} (f : DB -> A) a s s' : query f s = (Ok a, s') <-> a = f (st_db s) /\ s' = s.
Proof. unfold query. naive_solver. Qed.

Lemma update_Ok f u s s' : update f s = (Ok u, s') <-> s' = set_db (f (st_db s)) s.
Proof. unfold update. destruct u. naive_solver. Qed.

Lemma exec_Ok f u s s' : exec f s = (Ok u, s') <-> exists d, f (st_db s) = Ok d /\ s' = set_db d s.
Proof. unfold exec. destruct u, (f (st_db s)); naive_solver. Qed.
