(* ===== verification/Principals.v ===== *)
(** * Principals: package [store], principals.go, aliases.go, trusts.go

    The Kerberos side of the store: principals with their keys, aliases and delegation lists, and
    the cross-realm trusts. *)

From S2P Require Import Prelude Names Keytab Model Ticket Secret IdRange Db.

Definition keyGenerationsKept : Z := 2.

Definition string_le (s t : string) : bool := String.leb s t.

Section Principals.
Context `{Clock, Rand, AEAD}.

(** ** Reading *)

(** [COALESCE(u.name, '')] of the join with users. *)
Definition user_name_of (d : DB) (uid : option Z) : string :=
  match uid with
  | None => ""
  | Some id => match List.find (fun u => ur_id u =? id) (users (dt d)) with
               | Some u => ur_name u
               | None => ""
               end
  end.

Definition scanPrincipal (d : DB) (r : PrincipalRow) : Principal := {|
  p_ID := pr_id r; p_Name := pr_name r; p_Realm := pr_realm r; p_UserID := pr_user_id r;
  p_UserName := user_name_of d (pr_user_id r); p_KVNO := pr_kvno r; p_Enabled := pr_enabled r;
  p_RequiresPreAuth := pr_requires_preauth r; p_AllowForwardable := pr_allow_forwardable r;
  p_AllowProxiable := pr_allow_proxiable r; p_AllowRenewable := pr_allow_renewable r;
  p_AllowPostdate := pr_allow_postdate r; p_OKAsDelegate := pr_ok_as_delegate r;
  p_OKToAuthAsDelegate := pr_ok_to_auth_as_delegate r; p_AllowedToDelegateTo := [];
  p_Aliases := []; p_AllowedToImpersonate := [];
  p_MaxTicketLife := life_from (pr_max_ticket_life r);
  p_MaxRenewableLife := life_from (pr_max_renewable_life r);
  p_PasswordLastSet := timeFrom (pr_password_last_set r);
  p_PasswordExpiresAt := timeFrom (pr_password_expires_at r);
  p_ExpiresAt := timeFrom (pr_expires_at r); p_LockedUntil := timeFrom (pr_locked_until r);
  p_FailCount := pr_fail_count r; p_LastSuccess := timeFrom (pr_last_success r);
  p_LastFailure := timeFrom (pr_last_failure r); p_CreatedAt := UnixTime (pr_created_at r);
  p_UpdatedAt := UnixTime (pr_updated_at r); p_Keys := [] |}.

(** The principal with its keys, or with its lists, replaced. *)
Definition with_keys (keys : list Key) (p : Principal) : Principal := {|
  p_ID := p_ID p; p_Name := p_Name p; p_Realm := p_Realm p; p_UserID := p_UserID p;
  p_UserName := p_UserName p; p_KVNO := p_KVNO p; p_Enabled := p_Enabled p;
  p_RequiresPreAuth := p_RequiresPreAuth p; p_AllowForwardable := p_AllowForwardable p;
  p_AllowProxiable := p_AllowProxiable p; p_AllowRenewable := p_AllowRenewable p;
  p_AllowPostdate := p_AllowPostdate p; p_OKAsDelegate := p_OKAsDelegate p;
  p_OKToAuthAsDelegate := p_OKToAuthAsDelegate p; p_AllowedToDelegateTo := p_AllowedToDelegateTo p;
  p_Aliases := p_Aliases p; p_AllowedToImpersonate := p_AllowedToImpersonate p;
  p_MaxTicketLife := p_MaxTicketLife p; p_MaxRenewableLife := p_MaxRenewableLife p;
  p_PasswordLastSet := p_PasswordLastSet p; p_PasswordExpiresAt := p_PasswordExpiresAt p;
  p_ExpiresAt := p_ExpiresAt p; p_LockedUntil := p_LockedUntil p; p_FailCount := p_FailCount p;
  p_LastSuccess := p_LastSuccess p; p_LastFailure := p_LastFailure p; p_CreatedAt := p_CreatedAt p;
  p_UpdatedAt := p_UpdatedAt p; p_Keys := keys |}.

Definition with_lists (delegateTo impersonate aliases : list string) (p : Principal) : Principal := {|
  p_ID := p_ID p; p_Name := p_Name p; p_Realm := p_Realm p; p_UserID := p_UserID p;
  p_UserName := p_UserName p; p_KVNO := p_KVNO p; p_Enabled := p_Enabled p;
  p_RequiresPreAuth := p_RequiresPreAuth p; p_AllowForwardable := p_AllowForwardable p;
  p_AllowProxiable := p_AllowProxiable p; p_AllowRenewable := p_AllowRenewable p;
  p_AllowPostdate := p_AllowPostdate p; p_OKAsDelegate := p_OKAsDelegate p;
  p_OKToAuthAsDelegate := p_OKToAuthAsDelegate p; p_AllowedToDelegateTo := delegateTo;
  p_Aliases := aliases; p_AllowedToImpersonate := impersonate;
  p_MaxTicketLife := p_MaxTicketLife p; p_MaxRenewableLife := p_MaxRenewableLife p;
  p_PasswordLastSet := p_PasswordLastSet p; p_PasswordExpiresAt := p_PasswordExpiresAt p;
  p_ExpiresAt := p_ExpiresAt p; p_LockedUntil := p_LockedUntil p; p_FailCount := p_FailCount p;
  p_LastSuccess := p_LastSuccess p; p_LastFailure := p_LastFailure p; p_CreatedAt := p_CreatedAt p;
  p_UpdatedAt := p_UpdatedAt p; p_Keys := p_Keys p |}.

(** [ORDER BY position, etype]. *)
Definition key_le (a b : KeyRow) : bool :=
  (kr_position a <? kr_position b)
  || ((kr_position a =? kr_position b) && (kr_etype a <=? kr_etype b)).

Definition key_rows (k : KTables) (pid kvno : Z) : list KeyRow :=
  filter (fun r => kr_principal_id r = pid /\ kr_kvno r = kvno) (principal_keys k).

Fixpoint open_rows (pid kvno : Z) (rows : list KeyRow) : outcome StoreErr (list Key) :=
  match rows with
  | [] => mret []
  | r :: rows' =>
      v ← or_err ErrOpenKey (openKey pid kvno (kr_etype r) (kr_key r));
      keys ← open_rows pid kvno rows';
      mret (mkKey (kr_etype r) v (kr_salt r) (kr_s2kparams r) :: keys)
  end.

Definition loadKeys (d : DB) (pid kvno : Z) : outcome StoreErr (list Key) :=
  open_rows pid kvno (sort_by key_le (key_rows (kt d) pid kvno)).

Definition targets_of (pid : Z) (t : list TargetRow) : list string :=
  sort_by string_le (tg_target <$> filter (fun r => tg_principal_id r = pid) t).

Definition loadAliases (d : DB) (pid : Z) : list string :=
  sort_by string_le (al_name <$> filter (fun r => al_principal_id r = pid) (principal_aliases (kt d))).

(** [loadPrincipalLists] for one principal, put into it. *)
Definition loadPrincipalLists (d : DB) (p : Principal) : Principal :=
  with_lists (targets_of (p_ID p) (delegation_targets (kt d)))
    (targets_of (p_ID p) (impersonation_targets (kt d))) (loadAliases d (p_ID p)) p.

Definition row_by_name (k : KTables) (name realm : string) : option PrincipalRow :=
  List.find (fun r => String.eqb (pr_name r) name && String.eqb (pr_realm r) realm) (principals k).

Definition row_by_alias (k : KTables) (name realm : string) : option PrincipalRow :=
  match List.find (fun a => String.eqb (al_name a) name && String.eqb (al_realm a) realm) (principal_aliases k) with
  | Some a => List.find (fun r => pr_id r =? al_principal_id a) (principals k)
  | None => None
  end.

(** The row a name leads to: its own, or the one it is an alias of. *)
Definition principal_row (k : KTables) (name : Name) : option PrincipalRow :=
  match row_by_name k (Principal_of name) (Realm name) with
  | Some r => Some r
  | None => row_by_alias k (Principal_of name) (Realm name)
  end.

Definition getPrincipal (d : DB) (name : Name) (kvno : Z) : outcome StoreErr Principal :=
  r ← or_err ErrNotFound (principal_row (kt d) name);
  let p := scanPrincipal d r in
  let kvno := if kvno =? 0 then p_KVNO p else kvno in
  keys ← loadKeys d (p_ID p) kvno;
  mret (loadPrincipalLists d (with_keys keys p)).

Definition query_outcome {A} (f : DB -> outcome StoreErr A) : Tx A := fun s => (f (st_db s), s).

Definition GetPrincipal (name : Name) : Tx Principal := query_outcome (fun d => getPrincipal d name 0).
Definition GetPrincipalKVNO (name : Name) (kvno : Z) : Tx Principal :=
  query_outcome (fun d => getPrincipal d name kvno).

(** [ORDER BY p.realm, p.name]. *)
Definition principal_le (a b : PrincipalRow) : bool :=
  match String.compare (pr_realm a) (pr_realm b) with
  | Lt => true
  | Gt => false
  | Eq => string_le (pr_name a) (pr_name b)
  end.

Definition ListPrincipals (realm : string) : Tx (list Principal) :=
  query (fun d =>
    let rows := if (String.length realm =? 0)%nat then principals (kt d)
                else filter (fun r => pr_realm r = ToUpper realm) (principals (kt d)) in
    (fun r => loadPrincipalLists d (scanPrincipal d r)) <$> sort_by principal_le rows).

Definition name_le (a b : PrincipalRow) : bool := string_le (pr_name a) (pr_name b).

(** [principalsForUserTx], and [PrincipalsForUser], which adds the aliases. *)
Definition principalsForUserTx (userID : Z) : Tx (list Principal) :=
  query (fun d => scanPrincipal d <$>
    sort_by name_le (filter (fun r => pr_user_id r = Some userID) (principals (kt d)))).

Definition PrincipalsForUser (userID : Z) : Tx (list Principal) :=
  query (fun d => (fun r => with_lists [] [] (loadAliases d (pr_id r)) (scanPrincipal d r)) <$>
    sort_by name_le (filter (fun r => pr_user_id r = Some userID) (principals (kt d)))).

Definition id_le (a b : PrincipalRow) : bool := pr_id a <=? pr_id b.

(** [p.user_id IS NOT NULL AND p.name = u.name]. *)
Definition named_after_account (d : DB) (r : PrincipalRow) : bool :=
  match pr_user_id r with
  | Some uid => existsb (fun u => (ur_id u =? uid) && String.eqb (pr_name r) (ur_name u)) (users (dt d))
  | None => false
  end.

(** [PrimaryPrincipals]: of the principals named after their account, the last one by id stays. *)
Definition PrimaryPrincipals : Tx (gmap Z Principal) :=
  query (fun d => fold_left (fun (out : gmap Z Principal) r =>
      match pr_user_id r with
      | Some uid => <[uid := with_lists [] [] (loadAliases d (pr_id r)) (scanPrincipal d r)]> out
      | None => out
      end)
    (sort_by id_le (filter (fun r => named_after_account d r = true) (principals (kt d)))) ∅).

(** [ServicePrincipalsOfClass]: the escaped LIKE pattern is a prefix test that ignores case. *)
Definition ServicePrincipalsOfClass (service realm : string) (limit : nat) : Tx (list string) :=
  query (fun d => take limit (sort_by string_le (pr_name <$>
    filter (fun r => pr_realm r = ToUpper realm /\ HasPrefix (ToLower (pr_name r)) (ToLower (service +:+ "/")) = true)
      (principals (kt d))))).

(** ** Names *)

Definition nameTaken (d : DB) (n : Name) (except : Z) : bool :=
  existsb (fun r => String.eqb (pr_name r) (Principal_of n) && String.eqb (pr_realm r) (Realm n)
                    && negb (pr_id r =? except)) (principals (kt d))
  || existsb (fun a => String.eqb (al_name a) (Principal_of n) && String.eqb (al_realm a) (Realm n)
                       && negb (al_principal_id a =? except)) (principal_aliases (kt d)).

(** The loop of [normalizeAliases]; [out] holds the names kept so far. *)
Fixpoint normalize_from (p : Principal) (raws : list string) (out : list Name) : outcome StoreErr (list Name) :=
  match raws with
  | [] => mret out
  | raw :: raws' =>
      match ParseName raw (p_Realm p) with
      | Err e => Err (ErrParseName e)
      | Panic => Panic
      | Ok n =>
          if negb (String.eqb (Realm n) (p_Realm p)) then Err ErrConflict
          else if String.eqb (Principal_of n) (p_Name p) then Err ErrConflict
          else if existsb (fun m => String.eqb (Principal_of m) (Principal_of n)) out
          then normalize_from p raws' out
          else normalize_from p raws' (out ++ [n])
      end
  end.

Definition alias_le (a b : Name) : bool := string_le (Principal_of a) (Principal_of b).

(** The names, sorted; the principal's own list becomes their spellings. *)
Definition normalizeAliases (p : Principal) : outcome StoreErr (list Name) :=
  out ← normalize_from p (p_Aliases p) [];
  mret (sort_by alias_le out).

Definition with_aliases (aliases : list string) (p : Principal) : Principal :=
  with_lists (p_AllowedToDelegateTo p) (p_AllowedToImpersonate p) aliases p.

(** One round of the loop of [replaceAliases]. *)
Definition insert_alias (pid : Z) (now : Z) (n : Name) : Tx unit :=
  taken ← query (fun d => nameTaken d n pid);
  _ ← throw_if taken ErrConflict;
  exec (fun d =>
    if existsb (fun a => String.eqb (al_name a) (Principal_of n) && String.eqb (al_realm a) (Realm n))
         (principal_aliases (kt d))
    then Err ErrConflict
    else Ok (set_kt (set_aliases (fun t => t ++ [mkAliasRow pid (Principal_of n) (Realm n) now]) (kt d)) d)).

Definition replaceAliases (p : Principal) : Tx Principal :=
  names ← lift (normalizeAliases p);
  _ ← update_kt (set_aliases (filter (fun a => al_principal_id a <> p_ID p)));
  now ← time_now;
  _ ← for_each (insert_alias (p_ID p) (Unix now)) names;
  mret (with_aliases (Principal_of <$> names) p).

(** ** Delegation lists *)

(** [INSERT ... ON CONFLICT DO NOTHING] of every value that is not empty, the values sorted. *)
Definition replace_targets (pid : Z) (values : list string) (t : list TargetRow) : list TargetRow :=
  fold_left (fun t v =>
      if (String.length v =? 0)%nat then t
      else if existsb (fun r => (tg_principal_id r =? pid) && String.eqb (tg_target r) v) t then t
      else t ++ [mkTargetRow pid v])
    (sort_by string_le values) (filter (fun r => tg_principal_id r <> pid) t).

Definition replacePrincipalLists (p : Principal) : Tx unit :=
  _ ← update_kt (set_delegation (replace_targets (p_ID p) (p_AllowedToDelegateTo p)));
  update_kt (set_impersonation (replace_targets (p_ID p) (p_AllowedToImpersonate p))).

(** ** Keys *)

Definition insert_key (pid kvno now : Z) (i : nat) (k : Key) : Tx unit :=
  n ← draw;
  let sealed := sealKey n pid kvno (EType k) (Value k) in
  exec (fun d =>
    if existsb (fun r => (kr_principal_id r =? pid) && (kr_kvno r =? kvno) && (kr_etype r =? EType k))
         (principal_keys (kt d))
    then Err ErrConflict
    else Ok (set_kt (set_keys (fun t => t ++
           [mkKeyRow pid kvno (EType k) (Z.of_nat i) sealed (Salt k) (S2KParams k) now]) (kt d)) d)).

Fixpoint insert_keys (pid kvno now : Z) (i : nat) (keys : list Key) : Tx unit :=
  match keys with
  | [] => mret tt
  | k :: keys' => _ ← insert_key pid kvno now i k; insert_keys pid kvno now (S i) keys'
  end.

Definition writeKeys (pid kvno : Z) (keys : list Key) : Tx unit :=
  _ ← throw_if (List.length keys =? 0)%nat ErrNoKeys;
  _ ← update_kt (set_keys (filter (fun r => ~ (kr_principal_id r = pid /\ kr_kvno r = kvno))));
  now ← time_now;
  insert_keys pid kvno (Unix now) 0 keys.

(** ** Writing principals *)

(** A foreign key to users. *)
Definition user_exists (d : DB) (uid : option Z) : bool :=
  match uid with None => true | Some id => existsb (fun u => ur_id u =? id) (users (dt d)) end.

(** The principal with the identity the insert gave it. *)
Definition with_identity (id : Z) (name realm : string) (kvno : Z) (created : Time) (keys : list Key)
    (p : Principal) : Principal := {|
  p_ID := id; p_Name := name; p_Realm := realm; p_UserID := p_UserID p;
  p_UserName := p_UserName p; p_KVNO := kvno; p_Enabled := p_Enabled p;
  p_RequiresPreAuth := p_RequiresPreAuth p; p_AllowForwardable := p_AllowForwardable p;
  p_AllowProxiable := p_AllowProxiable p; p_AllowRenewable := p_AllowRenewable p;
  p_AllowPostdate := p_AllowPostdate p; p_OKAsDelegate := p_OKAsDelegate p;
  p_OKToAuthAsDelegate := p_OKToAuthAsDelegate p; p_AllowedToDelegateTo := p_AllowedToDelegateTo p;
  p_Aliases := p_Aliases p; p_AllowedToImpersonate := p_AllowedToImpersonate p;
  p_MaxTicketLife := p_MaxTicketLife p; p_MaxRenewableLife := p_MaxRenewableLife p;
  p_PasswordLastSet := p_PasswordLastSet p; p_PasswordExpiresAt := p_PasswordExpiresAt p;
  p_ExpiresAt := p_ExpiresAt p; p_LockedUntil := p_LockedUntil p; p_FailCount := p_FailCount p;
  p_LastSuccess := p_LastSuccess p; p_LastFailure := p_LastFailure p; p_CreatedAt := created;
  p_UpdatedAt := created; p_Keys := keys |}.

(** The row [CreatePrincipal] inserts. *)
Definition new_row (p : Principal) (id : Z) (name realm : string) (kvno : Z) (now : Z) : PrincipalRow := {|
  pr_id := id; pr_name := name; pr_realm := realm; pr_user_id := p_UserID p; pr_kvno := kvno;
  pr_enabled := p_Enabled p; pr_requires_preauth := p_RequiresPreAuth p;
  pr_allow_forwardable := p_AllowForwardable p; pr_allow_proxiable := p_AllowProxiable p;
  pr_allow_renewable := p_AllowRenewable p; pr_allow_postdate := p_AllowPostdate p;
  pr_ok_as_delegate := p_OKAsDelegate p; pr_ok_to_auth_as_delegate := p_OKToAuthAsDelegate p;
  pr_max_ticket_life := life_seconds (p_MaxTicketLife p);
  pr_max_renewable_life := life_seconds (p_MaxRenewableLife p);
  pr_password_last_set := null_time (p_PasswordLastSet p);
  pr_password_expires_at := null_time (p_PasswordExpiresAt p);
  pr_expires_at := null_time (p_ExpiresAt p); pr_locked_until := null_time (p_LockedUntil p);
  pr_fail_count := 0; pr_last_success := None; pr_last_failure := None;
  pr_created_at := now; pr_updated_at := now |}.

(** [INSERT INTO principals ... RETURNING id]. *)
Definition insert_principal (mk : Z -> PrincipalRow) : Tx Z := fun s =>
  let d := st_db s in
  let id := seq_principals (kt d) + 1 in
  let r := mk id in
  if existsb (fun q => String.eqb (pr_name q) (pr_name r) && String.eqb (pr_realm q) (pr_realm r))
       (principals (kt d)) then (Err ErrConflict, s)
  else if negb (user_exists d (pr_user_id r)) then (Err ErrForeignKey, s)
  else (Ok id, set_db (set_kt (set_seq_principals id (set_principals (fun t => t ++ [r]) (kt d))) d) s).

Definition CreatePrincipal (p : Principal) (keys : list Key) : Tx Principal :=
  name ← lift match ParseName (p_Name p) (p_Realm p) with
              | Ok n => Ok n | Err e => Err (ErrParseName e) | Panic => Panic end;
  let kvno := if p_KVNO p <=? 0 then 1 else p_KVNO p in
  now ← time_now;
  write (
    taken ← query (fun d => nameTaken d name 0);
    _ ← throw_if taken ErrConflict;
    id ← insert_principal (fun id => new_row p id (Principal_of name) (Realm name) kvno (Unix now));
    let p := with_identity id (Principal_of name) (Realm name) kvno now keys p in
    _ ← writeKeys id kvno keys;
    _ ← replacePrincipalLists p;
    replaceAliases p).

(** The columns [UpdatePrincipal] writes. *)
Definition updated_row (p : Principal) (now : Z) (r : PrincipalRow) : PrincipalRow := {|
  pr_id := pr_id r; pr_name := pr_name r; pr_realm := pr_realm r; pr_user_id := p_UserID p;
  pr_kvno := pr_kvno r; pr_enabled := p_Enabled p; pr_requires_preauth := p_RequiresPreAuth p;
  pr_allow_forwardable := p_AllowForwardable p; pr_allow_proxiable := p_AllowProxiable p;
  pr_allow_renewable := p_AllowRenewable p; pr_allow_postdate := p_AllowPostdate p;
  pr_ok_as_delegate := p_OKAsDelegate p; pr_ok_to_auth_as_delegate := p_OKToAuthAsDelegate p;
  pr_max_ticket_life := life_seconds (p_MaxTicketLife p);
  pr_max_renewable_life := life_seconds (p_MaxRenewableLife p);
  pr_password_last_set := pr_password_last_set r;
  pr_password_expires_at := null_time (p_PasswordExpiresAt p);
  pr_expires_at := null_time (p_ExpiresAt p); pr_locked_until := null_time (p_LockedUntil p);
  pr_fail_count := p_FailCount p; pr_last_success := pr_last_success r;
  pr_last_failure := pr_last_failure r; pr_created_at := pr_created_at r; pr_updated_at := now |}.

(** [UPDATE principals SET ... WHERE id = pid]. *)
Definition update_row (pid : Z) (f : PrincipalRow -> PrincipalRow) : KTables -> KTables :=
  set_principals (map (fun r => if pr_id r =? pid then f r else r)).

Definition with_updated_at (now : Time) (p : Principal) : Principal :=
  {| p_ID := p_ID p; p_Name := p_Name p; p_Realm := p_Realm p; p_UserID := p_UserID p;
     p_UserName := p_UserName p; p_KVNO := p_KVNO p; p_Enabled := p_Enabled p;
     p_RequiresPreAuth := p_RequiresPreAuth p; p_AllowForwardable := p_AllowForwardable p;
     p_AllowProxiable := p_AllowProxiable p; p_AllowRenewable := p_AllowRenewable p;
     p_AllowPostdate := p_AllowPostdate p; p_OKAsDelegate := p_OKAsDelegate p;
     p_OKToAuthAsDelegate := p_OKToAuthAsDelegate p; p_AllowedToDelegateTo := p_AllowedToDelegateTo p;
     p_Aliases := p_Aliases p; p_AllowedToImpersonate := p_AllowedToImpersonate p;
     p_MaxTicketLife := p_MaxTicketLife p; p_MaxRenewableLife := p_MaxRenewableLife p;
     p_PasswordLastSet := p_PasswordLastSet p; p_PasswordExpiresAt := p_PasswordExpiresAt p;
     p_ExpiresAt := p_ExpiresAt p; p_LockedUntil := p_LockedUntil p; p_FailCount := p_FailCount p;
     p_LastSuccess := p_LastSuccess p; p_LastFailure := p_LastFailure p;
     p_CreatedAt := p_CreatedAt p; p_UpdatedAt := now; p_Keys := p_Keys p |}.

Definition UpdatePrincipal (name : Name) (mutate : Principal -> outcome StoreErr Principal) : Tx Principal :=
  write (
    p ← query_outcome (fun d => getPrincipal d name 0);
    p ← lift (mutate p);
    now ← time_now;
    _ ← exec (fun d =>
          if user_exists d (p_UserID p)
          then Ok (set_kt (update_row (p_ID p) (updated_row p (Unix now)) (kt d)) d)
          else Err ErrForeignKey);
    _ ← replacePrincipalLists p;
    p ← replaceAliases p;
    mret (with_updated_at now p)).

(** The rows that go with the deleted principals through the foreign keys. *)
Definition delete_principals (P : PrincipalRow -> bool) (k : KTables) : KTables :=
  let gone := pr_id <$> filter (fun r => P r = true) (principals k) in
  set_principals (filter (fun r => P r = false))
  (set_keys (filter (fun r => kr_principal_id r ∉ gone))
  (set_aliases (filter (fun r => al_principal_id r ∉ gone))
  (set_delegation (filter (fun r => tg_principal_id r ∉ gone))
  (set_impersonation (filter (fun r => tg_principal_id r ∉ gone)) k)))).

Definition DeletePrincipal (name : Name) : Tx unit :=
  let named r := String.eqb (pr_name r) (Principal_of name) && String.eqb (pr_realm r) (Realm name) in
  write (
    exists_ ← query (fun d => existsb named (principals (kt d)));
    _ ← update_kt (delete_principals named);
    throw_if (negb exists_) ErrNotFound).

(** The columns [rollKeys] writes. *)
Definition rolled_row (kvno passwordSet now : Z) (r : PrincipalRow) : PrincipalRow := {|
  pr_id := pr_id r; pr_name := pr_name r; pr_realm := pr_realm r; pr_user_id := pr_user_id r;
  pr_kvno := kvno; pr_enabled := pr_enabled r; pr_requires_preauth := pr_requires_preauth r;
  pr_allow_forwardable := pr_allow_forwardable r; pr_allow_proxiable := pr_allow_proxiable r;
  pr_allow_renewable := pr_allow_renewable r; pr_allow_postdate := pr_allow_postdate r;
  pr_ok_as_delegate := pr_ok_as_delegate r; pr_ok_to_auth_as_delegate := pr_ok_to_auth_as_delegate r;
  pr_max_ticket_life := pr_max_ticket_life r; pr_max_renewable_life := pr_max_renewable_life r;
  pr_password_last_set := Some passwordSet; pr_password_expires_at := pr_password_expires_at r;
  pr_expires_at := pr_expires_at r; pr_locked_until := None; pr_fail_count := 0;
  pr_last_success := pr_last_success r; pr_last_failure := pr_last_failure r;
  pr_created_at := pr_created_at r; pr_updated_at := now |}.

Definition rolled_principal (kvno : Z) (keys : list Key) (passwordSet now : Time) (p : Principal) : Principal := {|
  p_ID := p_ID p; p_Name := p_Name p; p_Realm := p_Realm p; p_UserID := p_UserID p;
  p_UserName := p_UserName p; p_KVNO := kvno; p_Enabled := p_Enabled p;
  p_RequiresPreAuth := p_RequiresPreAuth p; p_AllowForwardable := p_AllowForwardable p;
  p_AllowProxiable := p_AllowProxiable p; p_AllowRenewable := p_AllowRenewable p;
  p_AllowPostdate := p_AllowPostdate p; p_OKAsDelegate := p_OKAsDelegate p;
  p_OKToAuthAsDelegate := p_OKToAuthAsDelegate p; p_AllowedToDelegateTo := p_AllowedToDelegateTo p;
  p_Aliases := p_Aliases p; p_AllowedToImpersonate := p_AllowedToImpersonate p;
  p_MaxTicketLife := p_MaxTicketLife p; p_MaxRenewableLife := p_MaxRenewableLife p;
  p_PasswordLastSet := Some passwordSet; p_PasswordExpiresAt := p_PasswordExpiresAt p;
  p_ExpiresAt := p_ExpiresAt p; p_LockedUntil := None; p_FailCount := 0;
  p_LastSuccess := p_LastSuccess p; p_LastFailure := p_LastFailure p; p_CreatedAt := p_CreatedAt p;
  p_UpdatedAt := now; p_Keys := keys |}.

Definition rollKeys (p : Principal) (keys : list Key) (passwordSet : Time) : Tx Principal :=
  let kvno := p_KVNO p + 1 in
  _ ← writeKeys (p_ID p) kvno keys;
  _ ← update_kt (set_keys (filter (fun r =>
        ~ (kr_principal_id r = p_ID p /\ kr_kvno r <= kvno - keyGenerationsKept))));
  now ← time_now;
  let passwordSet := if IsZero passwordSet then now else passwordSet in
  _ ← update_kt (update_row (p_ID p) (rolled_row kvno (Unix passwordSet) (Unix now)));
  mret (rolled_principal kvno keys passwordSet now p).

Definition SetKeys (name : Name) (keys : list Key) (passwordSet : Time) : Tx Principal :=
  write (
    p ← query_outcome (fun d => getPrincipal d name 0);
    rollKeys p keys passwordSet).

(** ** Lockout *)

(** The columns a counted attempt writes. *)
Definition counted_row (fails : Z) (locked : option Z) (success failure : option Z) (now : Z)
    (r : PrincipalRow) : PrincipalRow := {|
  pr_id := pr_id r; pr_name := pr_name r; pr_realm := pr_realm r; pr_user_id := pr_user_id r;
  pr_kvno := pr_kvno r; pr_enabled := pr_enabled r; pr_requires_preauth := pr_requires_preauth r;
  pr_allow_forwardable := pr_allow_forwardable r; pr_allow_proxiable := pr_allow_proxiable r;
  pr_allow_renewable := pr_allow_renewable r; pr_allow_postdate := pr_allow_postdate r;
  pr_ok_as_delegate := pr_ok_as_delegate r; pr_ok_to_auth_as_delegate := pr_ok_to_auth_as_delegate r;
  pr_max_ticket_life := pr_max_ticket_life r; pr_max_renewable_life := pr_max_renewable_life r;
  pr_password_last_set := pr_password_last_set r; pr_password_expires_at := pr_password_expires_at r;
  pr_expires_at := pr_expires_at r; pr_locked_until := locked; pr_fail_count := fails;
  pr_last_success := match success with Some t => Some t | None => pr_last_success r end;
  pr_last_failure := match failure with Some t => Some t | None => pr_last_failure r end;
  pr_created_at := pr_created_at r; pr_updated_at := now |}.

(** The tally after one more failure at [now]. *)
Definition next_fails (policy : LockoutPolicy) (now : Time) (fails : Z) (lastFailure : option Z) : Z :=
  let fails :=
    match lastFailure with
    | Some l => if (0 <? FailureCountInterval policy) && (FailureCountInterval policy <? Sub now (UnixTime l))
                then 0 else fails
    | None => fails
    end in
  fails + 1.

Definition lock_until (policy : LockoutPolicy) (now : Time) (fails : Z) : option Z :=
  if (0 <? MaxFailures policy) && (MaxFailures policy <=? fails) && (0 <? LockoutDuration policy)
  then Some (Unix (now + LockoutDuration policy)) else None.

Definition RecordAuthResult (id : Z) (ok : bool) (policy : LockoutPolicy) : Tx unit :=
  now ← time_now;
  write (
    if ok then update_kt (update_row id (counted_row 0 None (Some (Unix now)) None (Unix now)))
    else
      row ← query_outcome (fun d => or_err ErrNoRows (List.find (fun r => pr_id r =? id) (principals (kt d))));
      let fails := next_fails policy now (pr_fail_count row) (pr_last_failure row) in
      update_kt (update_row id (counted_row fails (lock_until policy now fails) None (Some (Unix now)) (Unix now)))).

(** ** Aliases *)

Definition AddAlias (name alias : Name) : Tx Principal :=
  UpdatePrincipal name (fun p => Ok (with_aliases (p_Aliases p ++ [String_of alias]) p)).

Definition RemoveAlias (name alias : Name) : Tx Principal :=
  UpdatePrincipal name (fun p => Ok (with_aliases (filter (fun a => a <> Principal_of alias) (p_Aliases p)) p)).

(** ** Trusts *)

Definition scanTrust (r : TrustRow) : Trust :=
  mkTrust (tr_id r) (tr_remote_realm r) (tr_direction r) (tr_transitive r) (tr_enabled r)
    (UnixTime (tr_created_at r)) (UnixTime (tr_updated_at r)).

Definition trust_le (a b : TrustRow) : bool := string_le (tr_remote_realm a) (tr_remote_realm b).

Definition ListTrusts : Tx (list Trust) :=
  query (fun d => scanTrust <$> sort_by trust_le (trusts (kt d))).

Definition getTrust (d : DB) (realm : string) : outcome StoreErr Trust :=
  or_err ErrNotFound (scanTrust <$> List.find (fun r => String.eqb (tr_remote_realm r) (ToUpper realm)) (trusts (kt d))).

Definition GetTrust (realm : string) : Tx Trust := query_outcome (fun d => getTrust d realm).

Definition CreateTrust (t : Trust) : Tx Trust :=
  let realm := ToUpper (t_RemoteRealm t) in
  now ← time_now;
  write (fun s =>
    let d := st_db s in
    let id := seq_trusts (kt d) + 1 in
    if existsb (fun r => String.eqb (tr_remote_realm r) realm) (trusts (kt d)) then (Err ErrConflict, s)
    else (Ok (mkTrust id realm (t_Direction t) (t_Transitive t) (t_Enabled t) now now),
          set_db (set_kt (set_seq_trusts id (set_trusts (fun l => l ++
            [mkTrustRow id realm (t_Direction t) (t_Transitive t) (t_Enabled t) (Unix now) (Unix now)]) (kt d))) d) s)).

Definition UpdateTrust (realm : string) (mutate : Trust -> outcome StoreErr Trust) : Tx Trust :=
  write (
    t ← query_outcome (fun d => getTrust d realm);
    t ← lift (mutate t);
    now ← time_now;
    _ ← update_kt (set_trusts (map (fun r => if tr_id r =? t_ID t
          then mkTrustRow (tr_id r) (tr_remote_realm r) (t_Direction t) (t_Transitive t) (t_Enabled t)
                 (tr_created_at r) (Unix now) else r)));
    mret (mkTrust (t_ID t) (t_RemoteRealm t) (t_Direction t) (t_Transitive t) (t_Enabled t) (t_CreatedAt t) now)).

Definition DeleteTrust (realm : string) : Tx unit :=
  write (
    found ← query (fun d => existsb (fun r => String.eqb (tr_remote_realm r) (ToUpper realm)) (trusts (kt d)));
    _ ← update_kt (set_trusts (filter (fun r => tr_remote_realm r <> ToUpper realm)));
    throw_if (negb found) ErrNotFound).
End Principals.
