(* ===== verification/PrincipalFacts.v ===== *)
(** * What the principal operations guarantee

    The invariant of the Kerberos tables and that every operation keeps it, key rotation, lockout
    and alias lookup. *)

From S2P Require Import Prelude Names Keytab Model Ticket Secret IdRange Db Principals.

(** ** Running a transaction *)

Lemma time_now_Ok `{Clock} t s s' :
  time_now s = (Ok t, s') <->
  t = clock (st_tick s) /\ s' = mkSt (st_db s) (S (st_tick s)) (st_draw s) (st_idRange s).
Proof. unfold time_now. naive_solver. Qed.

Lemma draw_Ok n s s' :
  draw s = (Ok n, s') <-> n = st_draw s /\ s' = mkSt (st_db s) (st_tick s) (S (st_draw s)) (st_idRange s).
Proof. unfold draw. naive_solver. Qed.

Lemma query_outcome_Ok {A} (f : DB -> outcome StoreErr A) a s s' :
  query_outcome f s = (Ok a, s') <-> f (st_db s) = Ok a /\ s' = s.
Proof. unfold query_outcome. split; [by intros [= ? <-]|by intros [-> ->]]. Qed.

(** Decompose a successful run of a transaction. *)
Ltac tx_step :=
  match goal with
  | H : write _ _ = (Ok _, _) |- _ => apply write_Ok in H
  | H : query _ _ = (Ok _, _) |- _ => apply query_Ok in H as [? ->]
  | H : query_outcome _ _ = (Ok _, _) |- _ => apply query_outcome_Ok in H as [? ->]
  | H : time_now _ = (Ok _, _) |- _ => apply time_now_Ok in H as [? ->]
  | H : draw _ = (Ok _, _) |- _ => apply draw_Ok in H as [? ->]
  | H : update _ _ = (Ok _, _) |- _ => apply update_Ok in H as ->
  | H : update_kt _ _ = (Ok _, _) |- _ => unfold update_kt in H
  | H : update_dt _ _ = (Ok _, _) |- _ => unfold update_dt in H
  | H : update_zt _ _ = (Ok _, _) |- _ => unfold update_zt in H
  | H : exec _ _ = (Ok _, _) |- _ => apply exec_Ok in H as (? & ? & ->)
  end.

Ltac tx_inv := repeat (progress run_inv || tx_step); cbn [st_db set_db kt set_kt dt set_dt zt set_zt meta st_tick st_draw st_idRange] in *.

(** The passing branch of a statement guarded by a constraint. *)
Ltac if_ok E :=
  match goal with
  | H : (if ?b then Err _ else Ok _) = Ok _ |- _ =>
      destruct b eqn:E; [discriminate H|]; apply Ok_inj in H; try subst
  | H : (if ?b then Ok _ else Err _) = Ok _ |- _ =>
      destruct b eqn:E; [|discriminate H]; apply Ok_inj in H; try subst
  end.

(** ** The invariant of the Kerberos tables *)

(** The names a principal answers to, and its key versions, as columns of the tables. *)
Definition name_col (k : KTables) : list (string * string) := (fun r => (pr_name r, pr_realm r)) <$> principals k.
Definition alias_col (k : KTables) : list (string * string) := (fun a => (al_name a, al_realm a)) <$> principal_aliases k.
Definition id_col (k : KTables) : list Z := pr_id <$> principals k.
Definition version_col (k : KTables) : list (Z * Z) := (fun r => (pr_id r, pr_kvno r)) <$> principals k.
Definition key_col (k : KTables) : list (Z * Z * Z) :=
  (fun r => (kr_principal_id r, kr_kvno r, kr_etype r)) <$> principal_keys k.

Record ktables_ok (k : KTables) : Prop := {
  (** ids identify principals, and the counter is ahead of them *)
  ok_ids : NoDup (id_col k);
  ok_seq : forall i, i ∈ id_col k -> 0 < i <= seq_principals k;
  ok_seq_pos : 0 <= seq_principals k;
  (** a name leads to one principal: own names and aliases are all different *)
  ok_names : NoDup (name_col k ++ alias_col k);
  (** an alias belongs to a principal that exists *)
  ok_alias_owner : forall a, a ∈ principal_aliases k -> al_principal_id a ∈ id_col k;
  (** one key of each enctype in a version, each of a principal, no newer than its current version
      and no more than one version older *)
  ok_keys : NoDup (key_col k);
  ok_key_owner : forall r, r ∈ principal_keys k ->
    exists v, (kr_principal_id r, v) ∈ version_col k /\ v - keyGenerationsKept < kr_kvno r <= v;
  (** a principal always has a key of its current version *)
  ok_current : forall i v, (i, v) ∈ version_col k ->
    exists r, r ∈ principal_keys k /\ kr_principal_id r = i /\ kr_kvno r = v;
  (** versions count from one *)
  ok_kvno : forall i v, (i, v) ∈ version_col k -> 0 < v;
}.

Lemma id_version k i : i ∈ id_col k <-> exists v, (i, v) ∈ version_col k.
Proof.
  unfold id_col, version_col. rewrite list_elem_of_fmap. split.
  - intros (r & -> & Hr). exists (pr_kvno r). apply list_elem_of_fmap. eauto.
  - intros (v & (r & Heq & Hr)%list_elem_of_fmap). simplify_eq. eauto.
Qed.

(** Rows a key tells apart. *)
Lemma NoDup_key_inj {A B} (key : A -> B) l x y :
  NoDup (key <$> l) -> x ∈ l -> y ∈ l -> key x = key y -> x = y.
Proof.
  induction l as [|z l IH]; [by intros _ ?%elem_of_nil|].
  rewrite fmap_cons, NoDup_cons, !elem_of_cons. intros [Hz Hl] [->|Hx] [->|Hy] Heq; [done| | |by apply IH].
  - destruct Hz. rewrite Heq. apply list_elem_of_fmap. eauto.
  - destruct Hz. rewrite <- Heq. apply list_elem_of_fmap. eauto.
Qed.

(** A change that keeps the columns the invariant reads keeps the invariant. *)
Lemma ktables_ok_ext k k' :
  id_col k' = id_col k -> name_col k' = name_col k -> version_col k' = version_col k ->
  principal_aliases k' = principal_aliases k -> principal_keys k' = principal_keys k ->
  seq_principals k' = seq_principals k -> ktables_ok k -> ktables_ok k'.
Proof.
  intros Hi Hn Hv Ha Hk Hs [H1 H2 H3 H4 H5 H6 H7 H8 H9].
  split; unfold alias_col, key_col in *; rewrite ?Hi, ?Hn, ?Hv, ?Ha, ?Hk, ?Hs; done.
Qed.

Lemma map_update_col {B} (col : PrincipalRow -> B) pid f k :
  (forall r, col (f r) = col r) -> col <$> principals (update_row pid f k) = col <$> principals k.
Proof.
  intros Hf. unfold update_row, set_principals. cbn [principals].
  induction (principals k) as [|r l IH]; [done|]. cbn [map]. rewrite !fmap_cons. f_equal; [|apply IH].
  case_match; [apply Hf|done].
Qed.

(** A row update that leaves the identity, the names and the version alone keeps the invariant. *)
Lemma update_row_ok pid f k :
  (forall r, pr_id (f r) = pr_id r /\ pr_name (f r) = pr_name r /\ pr_realm (f r) = pr_realm r /\
             pr_kvno (f r) = pr_kvno r) ->
  ktables_ok k -> ktables_ok (update_row pid f k).
Proof.
  intros Hf. apply ktables_ok_ext; try done; apply map_update_col; intros r;
    destruct (Hf r) as (? & ? & ? & ?); congruence.
Qed.

Lemma set_delegation_ok f k : ktables_ok k -> ktables_ok (set_delegation f k).
Proof. by apply ktables_ok_ext. Qed.
Lemma set_impersonation_ok f k : ktables_ok k -> ktables_ok (set_impersonation f k).
Proof. by apply ktables_ok_ext. Qed.
#[export] Hint Resolve set_delegation_ok set_impersonation_ok : ldapkdc.

(** ** Aliases *)

Lemma nameTaken_false d n except :
  nameTaken d n except = false ->
  (forall r, r ∈ principals (kt d) -> pr_id r <> except -> (pr_name r, pr_realm r) <> (Principal_of n, Realm n)) /\
  (forall a, a ∈ principal_aliases (kt d) -> al_principal_id a <> except ->
     (al_name a, al_realm a) <> (Principal_of n, Realm n)).
Proof.
  unfold nameTaken. intros [H1 H2]%orb_false_iff.
  assert (Hex : forall {A} (f : A -> bool) l, existsb f l = false -> forall x, x ∈ l -> f x = false).
  { intros A f l Hf x Hx. destruct (f x) eqn:E; [|done]. rewrite <- Hf. symmetry.
    apply existsb_exists. exists x. split; [by apply list_elem_of_In|done]. }
  split; intros x Hx Hne Heq; [apply (Hex _ _ _ H1) in Hx|apply (Hex _ _ _ H2) in Hx]; injection Heq as E1 E2;
    rewrite E1, E2, !String.eqb_refl in Hx; simpl in Hx; apply negb_false_iff, Z.eqb_eq in Hx; done.
Qed.

(** The aliases of a principal, dropped. *)
Lemma delete_aliases_ok pid k :
  ktables_ok k -> ktables_ok (set_aliases (filter (fun a => al_principal_id a <> pid)) k).
Proof.
  intros [H1 H2 H3 H4 H5 H6 H7 H8 H9]. split; try done; unfold alias_col, set_aliases; cbn [principal_aliases].
  - apply NoDup_app in H4 as (Hn & Hd & Ha). apply NoDup_app. split; [done|]. split.
    + intros x Hx (a & -> & Hin%list_elem_of_filter)%list_elem_of_fmap. apply (Hd _ Hx).
      apply list_elem_of_fmap. naive_solver.
    + by apply NoDup_map_filter.
  - intros a [_ Ha]%list_elem_of_filter. by apply H5.
Qed.

Lemma insert_alias_ok (pid : Z) now n s s' u :
  insert_alias pid now n s = (Ok u, s') ->
  pid ∈ id_col (kt (st_db s)) ->
  (forall r, r ∈ principals (kt (st_db s)) -> pr_id r = pid -> pr_name r <> Principal_of n) ->
  ktables_ok (kt (st_db s)) ->
  ktables_ok (kt (st_db s')) /\ principals (kt (st_db s')) = principals (kt (st_db s)).
Proof.
  unfold insert_alias. intros Hrun Hpid Hown Hok. tx_inv. subst.
  match goal with H : nameTaken _ _ _ = false |- _ => apply nameTaken_false in H as [Hp Ha] end.
  if_ok Ex. cbn [kt set_kt]. split; [|done].
  destruct Hok as [H1 H2 H3 H4 H5 H6 H7 H8 H9]. split; try done; unfold alias_col, set_aliases; cbn [principal_aliases].
  - rewrite fmap_app, app_assoc. apply NoDup_app. split; [done|]. split; [|apply NoDup_singleton].
    intros x Hx ->%list_elem_of_singleton. cbn [al_name al_realm] in Hx.
    apply elem_of_app in Hx as [(r & Heq & Hr)%list_elem_of_fmap|(a & Heq & Hin)%list_elem_of_fmap].
    + destruct (decide (pr_id r = pid)) as [Hi|Hi]; [|by eapply Hp].
      injection Heq as E1 E2. by apply (Hown r Hr Hi).
    + assert (Hf : existsb (fun a => (al_name a =? Principal_of n)%string && (al_realm a =? Realm n)%string)
        (principal_aliases (kt (st_db s))) = true); [|congruence].
      apply existsb_exists. exists a. split; [by apply list_elem_of_In|].
      injection Heq as E1 E2. by rewrite <- E1, <- E2, !String.eqb_refl.
  - intros a [?| ->%list_elem_of_singleton]%elem_of_app; [by apply H5|done].
Qed.

Lemma insert_aliases_ok (pid : Z) now names s s' u :
  for_each (insert_alias pid now) names s = (Ok u, s') ->
  pid ∈ id_col (kt (st_db s)) ->
  (forall r n, r ∈ principals (kt (st_db s)) -> n ∈ names -> pr_id r = pid -> pr_name r <> Principal_of n) ->
  ktables_ok (kt (st_db s)) -> ktables_ok (kt (st_db s')).
Proof.
  revert s. induction names as [|n names IH]; intros s; cbn [for_each]; intros Hrun Hpid Hown Hok.
  - by tx_inv.
  - tx_inv. match goal with H : insert_alias _ _ _ _ = _ |- _ => apply insert_alias_ok in H as [Hok' Heq] end;
      [|done|intros r Hr Hi; apply (Hown r n); [done|left|done]|done].
    eapply IH; [done|unfold id_col in *; by rewrite Heq| |done].
    intros r m Hr Hm. rewrite Heq in Hr. apply Hown; [done|by right].
Qed.

Lemma normalize_from_spec p raws out names :
  normalize_from p raws out = Ok names ->
  (forall n, n ∈ out -> Principal_of n <> p_Name p /\ Realm n = p_Realm p) ->
  forall n, n ∈ names -> Principal_of n <> p_Name p /\ Realm n = p_Realm p.
Proof.
  revert out. induction raws as [|raw raws IH]; intros out; cbn [normalize_from].
  - intros [= ->] ?. done.
  - destruct (ParseName raw (p_Realm p)) as [n|e|]; [|done|done].
    repeat case_match; try done; simp_bool; intros Hrun Hout; eapply IH; try done.
    intros m [Hm| ->%list_elem_of_singleton]%elem_of_app; [by apply Hout|done].
Qed.

Lemma normalizeAliases_spec p names :
  normalizeAliases p = Ok names -> forall n, n ∈ names -> Principal_of n <> p_Name p /\ Realm n = p_Realm p.
Proof.
  unfold normalizeAliases. intros Hrun n Hn. run_inv. rewrite elem_of_sort_by in Hn.
  eapply normalize_from_spec; [done| |done]. intros m Hm. by apply elem_of_nil in Hm.
Qed.

Lemma replaceAliases_ok `{Clock} p s s' q :
  replaceAliases p s = (Ok q, s') ->
  (forall r, r ∈ principals (kt (st_db s)) -> pr_id r = p_ID p -> pr_name r = p_Name p) ->
  p_ID p ∈ id_col (kt (st_db s)) ->
  ktables_ok (kt (st_db s)) -> ktables_ok (kt (st_db s')).
Proof.
  unfold replaceAliases. intros Hrun Hname Hid Hok. tx_inv.
  eapply insert_aliases_ok; [done|done| |by apply delete_aliases_ok].
  intros r n Hr Hn Hi Heq. eapply normalizeAliases_spec in Hn as [Hn _]; [|done].
  apply Hn. rewrite <- Heq. by apply Hname.
Qed.

(** ** Keys *)

Section Keys.
Context `{Ck : Clock, Rn : Rand, Ae : AEAD}.

(** The rows [insert_keys] appends, the first sealed with draw [n]. *)
Fixpoint sealed_rows (pid kvno now : Z) (i n : nat) (keys : list Key) : list KeyRow :=
  match keys with
  | [] => []
  | k :: keys' =>
      mkKeyRow pid kvno (EType k) (Z.of_nat i) (sealKey n pid kvno (EType k) (Value k)) (Salt k) (S2KParams k) now
      :: sealed_rows pid kvno now (S i) (S n) keys'
  end.

Definition same_key (pid kvno etype : Z) (r : KeyRow) : bool :=
  (kr_principal_id r =? pid) && (kr_kvno r =? kvno) && (kr_etype r =? etype).

Lemma same_key_spec pid kvno etype r :
  same_key pid kvno etype r = true <-> (kr_principal_id r, kr_kvno r, kr_etype r) = (pid, kvno, etype).
Proof. unfold same_key. rewrite !andb_true_iff, !Z.eqb_eq. naive_solver. Qed.

Lemma existsb_false {A} (f : A -> bool) l : existsb f l = false <-> forall x, x ∈ l -> f x = false.
Proof.
  split.
  - intros Hf x Hx. destruct (f x) eqn:E; [|done]. rewrite <- Hf. symmetry.
    apply existsb_exists. exists x. split; [by apply list_elem_of_In|done].
  - intros Hf. destruct (existsb f l) eqn:E; [|done]. apply existsb_exists in E as (x & Hx%list_elem_of_In & Hx').
    by rewrite Hf in Hx'.
Qed.

Lemma insert_keys_Ok pid kvno now i keys s s' u :
  insert_keys pid kvno now i keys s = (Ok u, s') ->
  kt (st_db s') = set_keys (fun t => t ++ sealed_rows pid kvno now i (st_draw s) keys) (kt (st_db s)) /\
  dt (st_db s') = dt (st_db s) /\ meta (st_db s') = meta (st_db s) /\ st_tick s' = st_tick s /\
  (NoDup (key_col (kt (st_db s))) -> NoDup (key_col (kt (st_db s')))).
Proof.
  revert i s. induction keys as [|k keys IH]; intros i s; cbn [insert_keys sealed_rows]; intros Hrun.
  - tx_inv. split_and!; try done. unfold set_keys. rewrite app_nil_r. by destruct (kt (st_db s)).
  - unfold insert_key in Hrun. tx_inv. if_ok Ex. apply IH in Hrun as (Hk & Hd & Hm & Ht & Hn).
    cbn [st_db set_db kt set_kt dt meta st_draw st_tick] in *. split_and!; try done.
    + rewrite Hk. unfold set_keys. cbn [principal_keys principals principal_aliases delegation_targets
        impersonation_targets trusts seq_principals seq_trusts]. f_equal. by rewrite <- app_assoc.
    + intros Hnd. apply Hn. unfold key_col, set_keys. cbn [principal_keys]. rewrite fmap_app.
      apply NoDup_app. split; [done|]. split; [|apply NoDup_singleton].
      intros y Hy ->%list_elem_of_singleton. apply list_elem_of_fmap in Hy as (r & Heq & Hr).
      rewrite existsb_false in Ex. specialize (Ex _ Hr). cbn in Heq.
      assert (Ht' : same_key pid kvno (EType k) r = true) by (by apply same_key_spec).
      unfold same_key in Ht'. congruence.
Qed.

(** With no key of this version in the table, keys of different enctypes go in. *)
Lemma insert_keys_run pid kvno now i keys s :
  NoDup (EType <$> keys) ->
  (forall r k, r ∈ principal_keys (kt (st_db s)) -> k ∈ keys ->
     (kr_principal_id r, kr_kvno r, kr_etype r) <> (pid, kvno, EType k)) ->
  exists s', insert_keys pid kvno now i keys s = (Ok tt, s').
Proof.
  revert i s. induction keys as [|k keys IH]; intros i s Hnd Hfree; cbn [insert_keys]; [by eexists|].
  rewrite fmap_cons, NoDup_cons in Hnd. destruct Hnd as [Hk Hnd].
  unfold insert_key. unfold mbind at 1, M_bind at 1. unfold mbind at 1, M_bind at 1, draw, exec. cbn [st_db kt].
  rewrite (proj2 (existsb_false (fun r => (kr_principal_id r =? pid) && (kr_kvno r =? kvno) && (kr_etype r =? EType k)) _)).
  2:{ intros r Hr. destruct (_ && _) eqn:E; [|done]. exfalso. apply (Hfree r k Hr); [left|].
      apply (same_key_spec pid kvno (EType k)). done. }
  apply IH; [done|]. cbn [st_db set_db kt set_kt]. unfold set_keys. cbn [principal_keys].
  intros r k' [Hr| ->%list_elem_of_singleton]%elem_of_app Hk'; [apply Hfree; [done|by right]|].
  cbn [kr_principal_id kr_kvno kr_etype]. intros [= Heq]. apply Hk. rewrite Heq. apply list_elem_of_fmap. eauto.
Qed.

Lemma sealed_rows_owner pid kvno now i n keys r :
  r ∈ sealed_rows pid kvno now i n keys -> kr_principal_id r = pid /\ kr_kvno r = kvno.
Proof.
  revert i n. induction keys as [|k keys IH]; intros i n; cbn [sealed_rows]; [by intros ?%elem_of_nil|].
  intros [->|Hr]%elem_of_cons; [done|by eapply IH].
Qed.

Lemma sealed_rows_position pid kvno now i n keys r :
  r ∈ sealed_rows pid kvno now i n keys -> Z.of_nat i <= kr_position r.
Proof.
  revert i n. induction keys as [|k keys IH]; intros i n; cbn [sealed_rows]; [by intros ?%elem_of_nil|].
  intros [->|Hr]%elem_of_cons; [simpl; lia|]. apply IH in Hr. lia.
Qed.

Lemma sealed_rows_sorted pid kvno now i n keys :
  Sorted (fun a b => key_le a b = true) (sealed_rows pid kvno now i n keys).
Proof.
  revert i n. induction keys as [|k keys IH]; intros i n; cbn [sealed_rows]; [constructor|].
  constructor; [apply IH|]. destruct (sealed_rows pid kvno now (S i) (S n) keys) as [|r rows] eqn:E; [constructor|].
  constructor. assert (Hp : Z.of_nat (S i) <= kr_position r).
  { apply (sealed_rows_position pid kvno now (S i) (S n) keys). rewrite E. left. }
  unfold key_le. cbn [kr_position]. apply orb_true_iff. left. apply Z.ltb_lt. lia.
Qed.

(** What was written opens again, in the order it was given. *)
Lemma open_sealed_rows `{!RandLaws Rn, !AEADLaws Ae} pid kvno now i n keys :
  open_rows pid kvno (sealed_rows pid kvno now i n keys) = Ok keys.
Proof.
  revert i n. induction keys as [|k keys IH]; intros i n; cbn [sealed_rows open_rows]; [done|].
  cbn [kr_etype kr_key kr_salt kr_s2kparams]. unfold openKey, sealKey. rewrite Open_Seal. cbn [or_err].
  unfold mbind, outcome_bind. rewrite IH. by destruct k.
Qed.

(** [writeKeys], when it succeeds. *)
Lemma writeKeys_Ok pid kvno keys s s' u :
  writeKeys pid kvno keys s = (Ok u, s') ->
  keys <> [] /\
  (exists now n, kt (st_db s') = set_keys (fun t =>
     filter (fun r => ~ (kr_principal_id r = pid /\ kr_kvno r = kvno)) t ++ sealed_rows pid kvno now 0 n keys)
     (kt (st_db s))) /\
  dt (st_db s') = dt (st_db s) /\ meta (st_db s') = meta (st_db s) /\
  (NoDup (key_col (kt (st_db s))) -> NoDup (key_col (kt (st_db s')))).
Proof.
  unfold writeKeys. intros Hrun. tx_inv.
  match goal with H : insert_keys _ _ _ _ _ _ = _ |- _ => apply insert_keys_Ok in H as (Hk & Hd & Hm & _ & Hn) end.
  cbn [st_db set_db kt set_kt dt meta st_draw st_tick] in *. split_and!; try done.
  - by destruct keys.
  - eexists _, _. rewrite Hk. done.
  - intros Hnd. apply Hn. unfold key_col, set_keys in *. cbn [principal_keys]. by apply NoDup_map_filter.
Qed.
End Keys.

(** ** The operations keep the invariant *)

Lemma version_unique k i v v' :
  NoDup (id_col k) -> (i, v) ∈ version_col k -> (i, v') ∈ version_col k -> v = v'.
Proof.
  unfold id_col, version_col. intros Hnd (r & Heq & Hr)%list_elem_of_fmap (r' & Heq' & Hr')%list_elem_of_fmap.
  injection Heq as -> ->. injection Heq' as Hi ->.
  f_equal. by apply (NoDup_key_inj pr_id _ _ _ Hnd).
Qed.

(** A new row with a fresh id and a free name, and keys of its version. *)
Definition created_tables (row : PrincipalRow) (rows : list KeyRow) (k : KTables) : KTables :=
  set_keys (fun t => filter (fun r => ~ (kr_principal_id r = pr_id row /\ kr_kvno r = pr_kvno row)) t ++ rows)
    (set_seq_principals (pr_id row) (set_principals (fun t => t ++ [row]) k)).

Lemma created_tables_ok row rows k :
  ktables_ok k -> pr_id row = seq_principals k + 1 -> 0 < pr_kvno row ->
  ((pr_name row, pr_realm row) ∉ name_col k ++ alias_col k) ->
  rows <> [] -> (forall r, r ∈ rows -> kr_principal_id r = pr_id row /\ kr_kvno r = pr_kvno row) ->
  NoDup (key_col (created_tables row rows k)) -> ktables_ok (created_tables row rows k).
Proof.
  intros [H1 H2 H3 H4 H5 H6 H7 H8 H9] Hid Hkv Hname Hne Hrows Hnd.
  assert (Hfresh : pr_id row ∉ id_col k) by (intros Hin%H2; lia).
  unfold created_tables, set_keys, set_seq_principals, set_principals in *.
  split; unfold id_col, name_col, alias_col, version_col in *;
    cbn [principals principal_keys principal_aliases seq_principals] in *; rewrite ?fmap_app; try done.
  - apply NoDup_app. split; [done|]. split; [|apply NoDup_singleton]. by intros x Hx ->%list_elem_of_singleton.
  - intros i [Hi%H2| ->%list_elem_of_singleton]%elem_of_app; simpl; lia.
  - lia.
  - rewrite <- app_assoc. apply NoDup_app in H4 as (Hn & Hd & Ha). apply not_elem_of_app in Hname as [Hname Hname'].
    apply NoDup_app. split; [done|]. split; [|apply NoDup_cons; done].
    intros x Hx [->|Hx']%elem_of_cons; [done|by apply (Hd x)].
  - intros a Ha%H5. apply elem_of_app. by left.
  - intros r [[_ Hr]%list_elem_of_filter|Hr]%elem_of_app.
    + destruct (H7 r Hr) as (v & Hv & ?). exists v. split; [apply elem_of_app; by left|done].
    + apply Hrows in Hr as [-> ->]. exists (pr_kvno row). split; [apply elem_of_app; right; left|].
      unfold keyGenerationsKept. lia.
  - intros i v [Hv| [= -> ->]%list_elem_of_singleton]%elem_of_app.
    + destruct (H8 i v Hv) as (r & Hr & Hi & Hk). exists r. split; [|done]. apply elem_of_app. left.
      apply list_elem_of_filter. split; [|done]. intros [Hp _]. apply Hfresh. rewrite <- Hp, Hi.
      apply list_elem_of_fmap in Hv as (r' & Heq & Hr'). simplify_eq. apply list_elem_of_fmap. eauto.
    + destruct rows as [|r rows]; [done|]. exists r. destruct (Hrows r) as [? ?]; [left|].
      split; [apply elem_of_app; right; left|done].
  - intros i v [Hv| [= -> ->]%list_elem_of_singleton]%elem_of_app; [by eapply H9|done].
Qed.

(** The tables after a key roll. *)
Definition rolled_tables (pid kvno pw now : Z) (rows : list KeyRow) (k : KTables) : KTables :=
  update_row pid (rolled_row kvno pw now)
    (set_keys (fun t => filter (fun r => ~ (kr_principal_id r = pid /\ kr_kvno r <= kvno - keyGenerationsKept))
       (filter (fun r => ~ (kr_principal_id r = pid /\ kr_kvno r = kvno)) t ++ rows)) k).

Lemma update_row_elem pid f k r :
  (forall x, pr_id (f x) = pr_id x) -> r ∈ principals k ->
  (if pr_id r =? pid then f r else r) ∈ principals (update_row pid f k).
Proof.
  intros Hf Hr. unfold update_row, set_principals. cbn [principals].
  apply list_elem_of_In, in_map_iff. exists r. split; [done|by apply list_elem_of_In].
Qed.

Lemma rolled_version pid kvno pw now rows k i v :
  (i, v) ∈ version_col (rolled_tables pid kvno pw now rows k) <->
  (i <> pid /\ (i, v) ∈ version_col k) \/ (i = pid /\ v = kvno /\ pid ∈ id_col k).
Proof.
  unfold rolled_tables, version_col, id_col, update_row, set_keys, set_principals. cbn [principals].
  rewrite !list_elem_of_fmap. split.
  - intros (r & Heq & Hr%list_elem_of_In). apply in_map_iff in Hr as (x & <- & Hx%list_elem_of_In).
    destruct (Z.eqb_spec (pr_id x) pid); simplify_eq; cbn [pr_id pr_kvno rolled_row]; [right|left]; eauto.
  - setoid_rewrite list_elem_of_In. setoid_rewrite in_map_iff. setoid_rewrite <- list_elem_of_In.
    intros [(Hne & x & Heq & Hx)|(-> & -> & x & Heq & Hx)]; simplify_eq.
    + exists x. split; [done|]. exists x. rewrite (proj2 (Z.eqb_neq _ _)) by done. done.
    + exists (rolled_row kvno pw now x). split; [done|]. exists x. by rewrite Z.eqb_refl.
Qed.

Lemma rolled_cols pid kvno pw now rows k :
  id_col (rolled_tables pid kvno pw now rows k) = id_col k /\
  name_col (rolled_tables pid kvno pw now rows k) = name_col k.
Proof. split; by apply (map_update_col _ pid (rolled_row kvno pw now) (set_keys _ k)). Qed.

Lemma rolled_tables_ok pid kvno pw now rows k :
  ktables_ok k -> (pid, kvno - 1) ∈ version_col k -> rows <> [] ->
  (forall r, r ∈ rows -> kr_principal_id r = pid /\ kr_kvno r = kvno) ->
  NoDup (key_col (set_keys (fun t => filter (fun r => ~ (kr_principal_id r = pid /\ kr_kvno r = kvno)) t ++ rows) k)) ->
  ktables_ok (rolled_tables pid kvno pw now rows k).
Proof.
  intros [H1 H2 H3 H4 H5 H6 H7 H8 H9] Hcur Hne Hrows Hnd.
  destruct (rolled_cols pid kvno pw now rows k) as [Hi Hn].
  split; rewrite ?Hi, ?Hn; try done.
  - unfold key_col in *. cbn [principal_keys rolled_tables update_row set_keys set_principals] in *.
    by apply NoDup_map_filter.
  - intros r. cbn [principal_keys rolled_tables update_row set_keys set_principals].
    intros [Hkeep [[Hnew Hr]%list_elem_of_filter|Hr]%elem_of_app]%list_elem_of_filter.
    + destruct (H7 r Hr) as (v & Hv & Hlt). destruct (decide (kr_principal_id r = pid)) as [Hp|Hp].
      * rewrite Hp in *. exists kvno. split; [apply rolled_version; right; split_and!; try done; apply id_version; eauto|].
        assert (v = kvno - 1) by (apply (version_unique k pid); done). subst v. unfold keyGenerationsKept in *. lia.
      * exists v. split; [apply rolled_version; left; done|done].
    + apply Hrows in Hr as [-> ->]. exists kvno. split; [|unfold keyGenerationsKept; lia].
      apply rolled_version. right. split_and!; try done. apply id_version. eauto.
  - intros i v [(Hi' & Hv)|(-> & -> & _)]%rolled_version;
      cbn [principal_keys rolled_tables update_row set_keys set_principals].
    + destruct (H8 i v Hv) as (r & Hr & <- & <-). exists r. split; [|done].
      rewrite list_elem_of_filter, elem_of_app, list_elem_of_filter. naive_solver.
    + destruct rows as [|r rows]; [done|]. destruct (Hrows r) as [E1 E2]; [left|]. exists r. split; [|done].
      rewrite list_elem_of_filter, elem_of_app. split; [|right; left]. unfold keyGenerationsKept. lia.
  - apply H9 in Hcur. intros i v [(_ & Hv%H9)|(_ & -> & _)]%rolled_version; lia.
Qed.

(** ** Atomicity *)

Definition keeps_db {E A} (m : M St E A) : Prop := forall s r s', m s = (r, s') -> st_db s' = st_db s.

(** An operation that does not succeed leaves the database as it was. *)
Definition atomic {E A} (m : M St E A) : Prop :=
  forall s r s', m s = (r, s') -> (exists a, r = Ok a) \/ st_db s' = st_db s.

Lemma keeps_lift {E A} (o : outcome E A) : keeps_db (lift o).
Proof. intros s r s' [= _ <-]. done. Qed.
Lemma keeps_time_now `{Clock} : keeps_db time_now.
Proof. intros s r s' [= _ <-]. done. Qed.
Lemma keeps_draw : keeps_db draw.
Proof. intros s r s' [= _ <-]. done. Qed.
Lemma keeps_query {A} (f : DB -> A) : keeps_db (query f).
Proof. intros s r s' [= _ <-]. done. Qed.
Lemma keeps_query_outcome {A} (f : DB -> outcome StoreErr A) : keeps_db (query_outcome f).
Proof. intros s r s' [= _ <-]. done. Qed.
Lemma keeps_throw_if {E} b (e : E) : keeps_db (throw_if b e).
Proof. apply keeps_lift. Qed.
Lemma keeps_ret {E A} (a : A) : keeps_db (mret (M := M St E) a).
Proof. intros s r s' [= _ <-]. done. Qed.
Lemma keeps_bind {E A B} (m : M St E A) (f : A -> M St E B) :
  keeps_db m -> (forall a, keeps_db (f a)) -> keeps_db (x ← m; f x).
Proof.
  intros Hm Hf s r s'. unfold mbind, M_bind. destruct (m s) as [[a|e|] s1] eqn:Er; apply Hm in Er;
    [|by intros [= _ <-]|by intros [= _ <-]]. intros Hrun%Hf. congruence.
Qed.
Lemma atomic_keeps {E A} (m : M St E A) : keeps_db m -> atomic m.
Proof. intros Hm s r s' Hrun. right. by eapply Hm. Qed.
Lemma atomic_write {A} (m : Tx A) : atomic (write m).
Proof.
  intros s r s' Hrun. destruct r as [a| |]; [left; eauto|right..]; eapply write_rollback; try done; by intros a.
Qed.
Lemma atomic_bind {E A B} (m : M St E A) (f : A -> M St E B) :
  keeps_db m -> (forall a, atomic (f a)) -> atomic (x ← m; f x).
Proof.
  intros Hm Hf s r s'. unfold mbind, M_bind. destruct (m s) as [[a|e|] s1] eqn:Er; apply Hm in Er;
    [|intros [= _ <-]; by right|intros [= _ <-]; by right].
  intros [?|Hd]%Hf; [by left|]. right. congruence.
Qed.
#[export] Hint Resolve keeps_lift keeps_time_now keeps_draw keeps_query keeps_query_outcome keeps_throw_if
  keeps_ret keeps_bind atomic_keeps atomic_write atomic_bind : ldapkdc.

(** ** The operations, one by one *)

Section Ops.
Context `{Ck : Clock, Rn : Rand, Ae : AEAD}.

Lemma getPrincipal_Ok d name kvno p :
  getPrincipal d name kvno = Ok p <-> exists r keys,
    principal_row (kt d) name = Some r /\
    loadKeys d (pr_id r) (if kvno =? 0 then pr_kvno r else kvno) = Ok keys /\
    p = loadPrincipalLists d (with_keys keys (scanPrincipal d r)).
Proof.
  unfold getPrincipal. split.
  - intros Hrun. run_inv. eauto.
  - intros (r & keys & -> & Hk & ->). cbn [or_err]. unfold mbind, outcome_bind. cbn [p_KVNO p_ID scanPrincipal].
    by rewrite Hk.
Qed.

Lemma principal_row_elem k name r : principal_row k name = Some r -> r ∈ principals k.
Proof.
  unfold principal_row, row_by_name, row_by_alias.
  destruct (List.find _ (principals k)) eqn:E; [intros [= <-]; by apply find_Some_elem in E as [? _]|].
  destruct (List.find _ (principal_aliases k)); [|done]. by intros [? _]%find_Some_elem.
Qed.

Lemma CreatePrincipal_ok p keys s s' q :
  CreatePrincipal p keys s = (Ok q, s') -> ktables_ok (kt (st_db s)) -> ktables_ok (kt (st_db s')).
Proof.
  unfold CreatePrincipal. intros Hrun Hok. tx_inv.
  match goal with H : insert_principal _ _ = _ |- _ => unfold insert_principal in H; cbn [st_db] in H;
    destruct (existsb _ _) eqn:Ex in H; [done|]; destruct (negb _) eqn:Ef in H; [done|]; simplify_eq/= end.
  match goal with H : writeKeys _ _ _ _ = _ |- _ => apply writeKeys_Ok in H as (Hne & (now & n & Hk) & _ & _ & Hnd) end.
  unfold replacePrincipalLists in *. tx_inv.
  cbn [st_db set_db kt set_kt] in *.
  eapply replaceAliases_ok; [done| | |]; cbn [st_db set_db kt set_kt].
  - rewrite Hk. unfold set_delegation, set_impersonation, set_keys, set_seq_principals, set_principals. cbn [principals].
    intros r [Hr|Hr%list_elem_of_singleton]%elem_of_app Hi; [|by subst r].
    exfalso. cbn [p_ID with_identity] in Hi. assert (pr_id r ∈ id_col (kt (st_db s))) as Hin%(ok_seq _ Hok)
      by (apply list_elem_of_fmap; eauto). lia.
  - rewrite Hk. unfold set_delegation, set_impersonation, set_keys, set_seq_principals, set_principals, id_col.
    cbn [principals]. rewrite fmap_app. apply elem_of_app. right. left.
  - apply set_impersonation_ok, set_delegation_ok. rewrite Hk.
    match goal with H : nameTaken _ _ _ = false |- _ => apply nameTaken_false in H as [Hp Ha] end.
    apply (created_tables_ok (new_row p (seq_principals (kt (st_db s)) + 1) _ _ _ _) _ (kt (st_db s))); try done.
    + cbn. destruct (Z.leb_spec (p_KVNO p) 0); lia.
    + cbn [pr_name pr_realm new_row]. intros [(r & Heq & Hr)%list_elem_of_fmap|(a & Heq & Hin)%list_elem_of_fmap]%elem_of_app.
      * assert (Hin : pr_id r ∈ id_col (kt (st_db s))) by (apply list_elem_of_fmap; eauto).
        apply (ok_seq _ Hok) in Hin. eapply Hp; [done|lia|done].
      * pose proof (ok_seq _ Hok _ (ok_alias_owner _ Hok _ Hin)). by apply (Ha _ Hin); [lia|].
    + destruct keys; [done|]. by destruct n.
    + intros r Hr. by apply sealed_rows_owner in Hr.
    + rewrite Hk in Hnd. apply Hnd. apply (ok_keys _ Hok).
Qed.

(** A change to a principal that leaves its identity alone, as the callers of [UpdatePrincipal] make. *)
Definition keeps_identity (mutate : Principal -> outcome StoreErr Principal) : Prop :=
  forall p q, mutate p = Ok q -> p_ID q = p_ID p /\ p_Name q = p_Name p /\ p_Realm q = p_Realm p.

Lemma UpdatePrincipal_ok name mutate s s' q :
  keeps_identity mutate -> UpdatePrincipal name mutate s = (Ok q, s') ->
  ktables_ok (kt (st_db s)) -> ktables_ok (kt (st_db s')).
Proof.
  unfold UpdatePrincipal, replacePrincipalLists. intros Hm Hrun Hok. tx_inv. if_ok Ex.
  cbn [st_db set_db kt set_kt] in *.
  match goal with H : getPrincipal _ _ _ = Ok _ |- _ => apply getPrincipal_Ok in H as (r & keys & Hrow & _ & ->) end.
  apply principal_row_elem in Hrow as Hr.
  match goal with H : mutate _ = Ok ?q |- _ => rename q into p'; apply Hm in H as (Hi & Hn & _) end. cbn in Hi, Hn.
  assert (Hcols : forall f, id_col (update_row (p_ID p') (updated_row p' f) (kt (st_db s))) = id_col (kt (st_db s)))
    by (intros; by apply map_update_col).
  eapply replaceAliases_ok; [done| | |]; cbn [st_db set_db kt set_kt].
  - intros r' Hr' Hi'. unfold set_delegation, set_impersonation, update_row, set_principals in Hr'. cbn [principals] in Hr'.
    apply list_elem_of_In, in_map_iff in Hr' as (r0 & <- & Hr0%list_elem_of_In).
    assert (Hid : pr_id r0 = pr_id r) by (destruct (pr_id r0 =? p_ID p'); cbn in Hi'; congruence).
    assert (r0 = r) as -> by (by apply (NoDup_key_inj pr_id _ _ _ (ok_ids _ Hok))).
    case_match; cbn; congruence.
  - change (p_ID p' ∈ id_col (update_row (p_ID p') (updated_row p' (Unix (clock (st_tick s)))) (kt (st_db s)))).
    rewrite Hcols, Hi. apply list_elem_of_fmap. eauto.
  - apply set_impersonation_ok, set_delegation_ok. by apply update_row_ok.
Qed.

Lemma delete_principals_ok P k : ktables_ok k -> ktables_ok (delete_principals P k).
Proof.
  intros [H1 H2 H3 H4 H5 H6 H7 H8 H9].
  set (gone := pr_id <$> filter (fun r => P r = true) (principals k)).
  assert (Hkept : forall r, r ∈ principals k -> P r = false <-> pr_id r ∉ gone).
  { intros r Hr. unfold gone. rewrite list_elem_of_fmap. setoid_rewrite list_elem_of_filter. split.
    - intros HP (r' & Hi & HP' & Hr'). assert (r = r') as -> by (by apply (NoDup_key_inj pr_id _ _ _ H1)). congruence.
    - intros Hn. destruct (P r) eqn:E; [|done]. destruct Hn. eauto. }
  assert (Hver : forall i v, (i, v) ∈ version_col (delete_principals P k) <-> (i, v) ∈ version_col k /\ i ∉ gone).
  { intros i v. unfold version_col, delete_principals. cbn [principals set_principals set_keys set_aliases set_delegation set_impersonation].
    rewrite !list_elem_of_fmap. setoid_rewrite list_elem_of_filter. split.
    - intros (r & Heq & HP & Hr). simplify_eq. split; [eauto|]. by apply Hkept.
    - intros ((r & Heq & Hr) & Hn). simplify_eq. exists r. split; [done|]. split; [|done]. by apply Hkept. }
  assert (Hid : forall i, i ∈ id_col (delete_principals P k) <-> i ∈ id_col k /\ i ∉ gone).
  { intros i. rewrite !id_version. setoid_rewrite Hver. naive_solver. }
  split; try setoid_rewrite Hid; try setoid_rewrite Hver.
  - by apply NoDup_map_filter.
  - intros i [Hi _]. by apply H2.
  - done.
  - apply NoDup_app in H4 as (Hn & Hd & Ha). apply NoDup_app. split; [by apply NoDup_map_filter|]. split; [|by apply NoDup_map_filter].
    intros x (r & -> & [_ Hr]%list_elem_of_filter)%list_elem_of_fmap (a & Heq & [_ Hin]%list_elem_of_filter)%list_elem_of_fmap.
    apply (Hd (pr_name r, pr_realm r)); apply list_elem_of_fmap; eauto.
  - intros a [Hg Ha]%list_elem_of_filter. split; [by apply H5|done].
  - by apply NoDup_map_filter.
  - intros r [Hg Hr]%list_elem_of_filter. destruct (H7 r Hr) as (v & Hv & ?). exists v. split_and!; try done; lia.
  - intros i v [Hv Hg]. destruct (H8 i v Hv) as (r & Hr & <- & <-). exists r. split; [|done].
    by apply list_elem_of_filter.
  - intros i v [Hv _]. by eapply H9.
Qed.

Lemma rollKeys_Ok p keys pw s s' q :
  rollKeys p keys pw s = (Ok q, s') ->
  exists now n pwu nowu rows, keys <> [] /\
    rows = sealed_rows (p_ID p) (p_KVNO p + 1) now 0 n keys /\
    kt (st_db s') = rolled_tables (p_ID p) (p_KVNO p + 1) pwu nowu rows (kt (st_db s)) /\
    dt (st_db s') = dt (st_db s) /\ meta (st_db s') = meta (st_db s) /\
    p_KVNO q = p_KVNO p + 1 /\ p_Keys q = keys /\
    (NoDup (key_col (kt (st_db s))) -> NoDup (key_col (set_keys (fun t =>
       filter (fun r => ~ (kr_principal_id r = p_ID p /\ kr_kvno r = p_KVNO p + 1)) t ++ rows) (kt (st_db s))))).
Proof.
  unfold rollKeys. intros Hrun. tx_inv.
  match goal with H : writeKeys _ _ _ _ = _ |- _ => apply writeKeys_Ok in H as (Hne & (now & n & Hk) & Hd & Hm & Hnd) end.
  eexists now, n, _, _, _. rewrite Hk in *. split_and!; done.
Qed.

Lemma rollKeys_ok p keys pw s s' q :
  rollKeys p keys pw s = (Ok q, s') -> (p_ID p, p_KVNO p) ∈ version_col (kt (st_db s)) ->
  ktables_ok (kt (st_db s)) -> ktables_ok (kt (st_db s')).
Proof.
  intros (now & n & pwu & nowu & rows & Hne & -> & -> & _ & _ & _ & _ & Hnd)%rollKeys_Ok Hv Hok.
  apply rolled_tables_ok; try done.
  - by rewrite Z.add_simpl_r.
  - by destruct keys.
  - intros r Hr. by apply sealed_rows_owner in Hr.
  - apply Hnd, Hok.
Qed.

Lemma SetKeys_ok name keys pw s s' q :
  SetKeys name keys pw s = (Ok q, s') -> ktables_ok (kt (st_db s)) -> ktables_ok (kt (st_db s')).
Proof.
  unfold SetKeys. intros Hrun Hok. tx_inv.
  match goal with H : getPrincipal _ _ _ = Ok _ |- _ => apply getPrincipal_Ok in H as (r & ks & Hrow & _ & ->) end.
  eapply rollKeys_ok; [done| |done]. cbn. apply list_elem_of_fmap. exists r.
  split; [done|by eapply principal_row_elem].
Qed.

Lemma RecordAuthResult_ok id ok policy s s' u :
  RecordAuthResult id ok policy s = (Ok u, s') -> ktables_ok (kt (st_db s)) -> ktables_ok (kt (st_db s')).
Proof.
  unfold RecordAuthResult. intros Hrun Hok. destruct ok; tx_inv; by apply update_row_ok.
Qed.

Lemma DeletePrincipal_ok name s s' u :
  DeletePrincipal name s = (Ok u, s') -> ktables_ok (kt (st_db s)) -> ktables_ok (kt (st_db s')).
Proof. unfold DeletePrincipal. intros Hrun Hok. tx_inv. by apply delete_principals_ok. Qed.

(** ** The store as a transition system *)

(** One call of an operation on principals, with whatever result. *)
Inductive pstep (s s' : St) : Prop :=
| pstep_create p keys r : CreatePrincipal p keys s = (r, s') -> pstep s s'
| pstep_update name mutate r : keeps_identity mutate -> UpdatePrincipal name mutate s = (r, s') -> pstep s s'
| pstep_delete name r : DeletePrincipal name s = (r, s') -> pstep s s'
| pstep_keys name keys pw r : SetKeys name keys pw s = (r, s') -> pstep s s'
| pstep_record id ok policy r : RecordAuthResult id ok policy s = (r, s') -> pstep s s'
| pstep_add_alias name alias r : AddAlias name alias s = (r, s') -> pstep s s'
| pstep_remove_alias name alias r : RemoveAlias name alias s = (r, s') -> pstep s s'.

Lemma keeps_identity_aliases (f : Principal -> list string) : keeps_identity (fun p => Ok (with_aliases (f p) p)).
Proof. intros p q [= <-]. done. Qed.

Lemma atomic_run {A} (m : Tx A) (I : DB -> Prop) s s' r :
  atomic m -> (forall a, m s = (Ok a, s') -> I (st_db s) -> I (st_db s')) ->
  m s = (r, s') -> I (st_db s) -> I (st_db s').
Proof. intros Ha Hok Hrun HI. destruct (Ha _ _ _ Hrun) as [[a ->]| ->]; [by eapply Hok|done]. Qed.

Lemma atomic_ops :
  (forall p keys, atomic (CreatePrincipal p keys)) /\ (forall name f, atomic (UpdatePrincipal name f)) /\
  (forall name, atomic (DeletePrincipal name)) /\ (forall name keys pw, atomic (SetKeys name keys pw)) /\
  (forall id ok policy, atomic (RecordAuthResult id ok policy)).
Proof.
  split_and!; intros; unfold CreatePrincipal, UpdatePrincipal, DeletePrincipal, SetKeys, RecordAuthResult;
    auto 10 with ldapkdc.
Qed.

Lemma pstep_ok s s' : pstep s s' -> ktables_ok (kt (st_db s)) -> ktables_ok (kt (st_db s')).
Proof.
  destruct atomic_ops as (A1 & A2 & A3 & A4 & A5).
  destruct 1 as [p keys r Hrun|name mutate r Hm Hrun|name r Hrun|name keys pw r Hrun|id ok policy r Hrun|
    name alias r Hrun|name alias r Hrun]; unfold AddAlias, RemoveAlias in *;
    eapply (atomic_run _ (fun d => ktables_ok (kt d)) s s' r); try exact Hrun; try done; intros.
  - by eapply CreatePrincipal_ok.
  - by eapply UpdatePrincipal_ok.
  - by eapply DeletePrincipal_ok.
  - by eapply SetKeys_ok.
  - by eapply RecordAuthResult_ok.
  - eapply UpdatePrincipal_ok; [|eassumption|done].
    apply (keeps_identity_aliases (fun p => p_Aliases p ++ [String_of alias])).
  - eapply UpdatePrincipal_ok; [|eassumption|done].
    apply (keeps_identity_aliases (fun p => filter (fun a => a <> Principal_of alias) (p_Aliases p))).
Qed.

Definition empty_tables : KTables := mkKTables [] [] [] [] [] [] 0 0.

Lemma empty_tables_ok : ktables_ok empty_tables.
Proof.
  split; try apply NoDup_nil_2; try done; intros;
    match goal with H : _ ∈ _ |- _ => by apply elem_of_nil in H end.
Qed.

(** C6: whatever sequence of operations on principals a database has been through, with whatever
    results: a name is the name or an alias of at most one principal, principals, keys and aliases
    refer to principals that exist, no version of a principal holds two keys of one enctype, and
    every principal has a key of its current version and none older than the one before. *)
Theorem principals_invariant (s0 s : St) :
  kt (st_db s0) = empty_tables -> rtc pstep s0 s -> ktables_ok (kt (st_db s)).
Proof.
  intros H0' Hr. assert (Hok : ktables_ok (kt (st_db s0))) by (rewrite H0'; apply empty_tables_ok).
  clear H0'. induction Hr as [|s0 s1 s2 Hstep _ IH]; [done|]. by apply IH, (pstep_ok s0).
Qed.
End Ops.

(** ** Key rotation *)

Section Rotation.
Context `{Ck : Clock, Rn : Rand, Ae : AEAD}.

(** A roll leaves the rows of the other principals, and those of the version before, as they are. *)
Lemma rolled_key_rows pid kvno pw now rows k i v :
  (forall r, r ∈ rows -> kr_principal_id r = pid /\ kr_kvno r = kvno) ->
  key_rows (rolled_tables pid kvno pw now rows k) i v =
    if decide (i = pid) then
      if decide (v = kvno) then rows
      else if decide (v <= kvno - keyGenerationsKept) then [] else key_rows k i v
    else key_rows k i v.
Proof.
  intros Hrows. unfold key_rows, rolled_tables, update_row, set_keys, set_principals. cbn [principal_keys].
  rewrite list_filter_filter, filter_app, list_filter_filter.
  assert (Hr : filter (fun r => (kr_principal_id r = i /\ kr_kvno r = v) /\
      ~ (kr_principal_id r = pid /\ kr_kvno r <= kvno - keyGenerationsKept)) rows =
      if decide (i = pid /\ v = kvno) then rows else []).
  { case_decide as Hd.
    - destruct Hd as [-> ->]. apply filter_all. intros r [-> ->]%Hrows. unfold keyGenerationsKept. lia.
    - apply filter_none. intros r [E1 E2]%Hrows. rewrite E1, E2. naive_solver. }
  rewrite Hr. repeat case_decide; destruct_and?; subst; try (exfalso; naive_solver);
    rewrite ?app_nil_r.
  - rewrite filter_none; [done|]. intros r _. naive_solver.
  - apply filter_none. intros r _. naive_solver.
  - apply list_filter_iff. intros r. naive_solver.
  - apply list_filter_iff. intros r. naive_solver.
Qed.

Lemma loadKeys_ext d d' i v i' v' :
  key_rows (kt d') i' v' = key_rows (kt d) i v -> i' = i -> v' = v -> loadKeys d' i' v' = loadKeys d i v.
Proof. unfold loadKeys. by intros -> -> ->. Qed.

Lemma find_map_row (f : PrincipalRow -> bool) g l :
  (forall r, f (g r) = f r) -> List.find f (map g l) = g <$> List.find f l.
Proof. intros Hf. induction l as [|r l IH]; [done|]. cbn. rewrite Hf. by destruct (f r). Qed.

Lemma update_row_lookup pid f k name :
  (forall r, pr_id (f r) = pr_id r /\ pr_name (f r) = pr_name r /\ pr_realm (f r) = pr_realm r) ->
  principal_row (update_row pid f k) name =
    (fun r => if pr_id r =? pid then f r else r) <$> principal_row k name.
Proof.
  intros Hf. unfold principal_row, row_by_name, row_by_alias, update_row, set_principals.
  cbn [principals principal_aliases].
  assert (Hn : forall (P : Z -> string -> string -> bool) r,
     let g := if pr_id r =? pid then f r else r in
     P (pr_id g) (pr_name g) (pr_realm g) = P (pr_id r) (pr_name r) (pr_realm r)).
  { intros P r. simpl. destruct (pr_id r =? pid); [|done]. by destruct (Hf r) as (-> & -> & ->). }
  rewrite find_map_row; [|intros; apply (Hn (fun _ n m => String.eqb n (Principal_of name) && String.eqb m (Realm name)))].
  destruct (List.find _ (principals k)); [done|]. destruct (List.find _ (principal_aliases k)) as [a|]; [|done].
  apply find_map_row. intros. apply (Hn (fun i _ _ => i =? al_principal_id a)).
Qed.

Lemma writeKeys_run pid kvno keys s :
  keys <> [] -> NoDup (EType <$> keys) -> exists s', writeKeys pid kvno keys s = (Ok tt, s').
Proof.
  intros Hne Hnd. unfold writeKeys, throw_if, lift, mbind, M_bind, update_kt, update, time_now.
  destruct keys as [|k keys]; [done|]. cbn [List.length Nat.eqb err_if].
  apply insert_keys_run; [done|]. cbn [st_db set_db kt set_kt]. unfold set_keys. cbn [principal_keys].
  intros r k' [Hf _]%list_elem_of_filter _ Heq. simplify_eq. by destruct Hf.
Qed.

Lemma SetKeys_run name keys pw s p :
  getPrincipal (st_db s) name 0 = Ok p -> keys <> [] -> NoDup (EType <$> keys) ->
  exists q s', SetKeys name keys pw s = (Ok q, s').
Proof.
  intros Hget Hne Hnd. unfold SetKeys, write, query_outcome, mbind, M_bind. rewrite Hget. unfold rollKeys.
  destruct (writeKeys_run (p_ID p) (p_KVNO p + 1) keys s Hne Hnd) as [s1 Hw].
  unfold mbind, M_bind. rewrite Hw. by eexists _, _.
Qed.

(** [SetKeys] succeeds on a principal that exists with at least one key and no two of one
    enctype; after it the principal answers with exactly the new keys at the next version; its
    previous version still opens with exactly the keys it had, so tickets and keytabs from before
    the change keep working; every older version is gone; and no other principal's keys changed. *)
Lemma SetKeys_rotation `{!RandLaws Rn, !AEADLaws Ae} (name : Name) (keys : list Key) (pw : Time)
    (s : St) (p : Principal) :
  ktables_ok (kt (st_db s)) -> getPrincipal (st_db s) name 0 = Ok p -> keys <> [] -> NoDup (EType <$> keys) ->
  exists q s', SetKeys name keys pw s = (Ok q, s') /\
  (exists p', getPrincipal (st_db s') name 0 = Ok p' /\ p_KVNO p' = p_KVNO p + 1 /\ p_Keys p' = keys) /\
  (exists p', getPrincipal (st_db s') name (p_KVNO p) = Ok p' /\ p_Keys p' = p_Keys p) /\
  (forall v, v < p_KVNO p -> v <> 0 -> exists p', getPrincipal (st_db s') name v = Ok p' /\ p_Keys p' = []) /\
  (forall i v, i <> p_ID p -> loadKeys (st_db s') i v = loadKeys (st_db s) i v).
Proof.
  intros Hok Hget Hne Hnd. destruct (SetKeys_run name keys pw s p Hget Hne Hnd) as (q & s' & Hrun).
  exists q, s'. split; [done|]. unfold SetKeys in Hrun. tx_inv. rewrite Hget in *. simplify_eq.
  apply getPrincipal_Ok in Hget as (r & ks & Hrow & Hkeys & ->).
  assert (Hz : pr_kvno r <> 0).
  { assert ((pr_id r, pr_kvno r) ∈ version_col (kt (st_db s))) as Hv%(ok_kvno _ Hok); [|lia].
    apply list_elem_of_fmap. exists r. split; [done|by eapply principal_row_elem]. }
  apply rollKeys_Ok in Hrun as (now & n & pwu & nowu & rows & _ & -> & Hk & _ & _ & _ & _ & _).
  cbn in Hk. set (rows := sealed_rows (pr_id r) (pr_kvno r + 1) now 0 n keys) in *.
  assert (Hrows : forall x, x ∈ rows -> kr_principal_id x = pr_id r /\ kr_kvno x = pr_kvno r + 1)
    by (intros x Hx; by apply sealed_rows_owner in Hx).
  assert (Hrow' : principal_row (kt (st_db s')) name = Some (rolled_row (pr_kvno r + 1) pwu nowu r)).
  { rewrite Hk. unfold rolled_tables. rewrite update_row_lookup by done. unfold principal_row, row_by_name, row_by_alias in *.
    cbn [principals principal_aliases set_keys]. rewrite Hrow. cbn. by rewrite Z.eqb_refl. }
  assert (Hload : forall i v, loadKeys (st_db s') i v = open_rows i v (sort_by key_le
      (if decide (i = pr_id r) then if decide (v = pr_kvno r + 1) then rows
       else if decide (v <= pr_kvno r + 1 - keyGenerationsKept) then [] else key_rows (kt (st_db s)) i v
       else key_rows (kt (st_db s)) i v))).
  { intros i v. unfold loadKeys. by rewrite Hk, rolled_key_rows by done. }
  assert (Hget : forall v ks', loadKeys (st_db s') (pr_id r) (if v =? 0 then pr_kvno r + 1 else v) = Ok ks' ->
    getPrincipal (st_db s') name v = Ok (loadPrincipalLists (st_db s')
      (with_keys ks' (scanPrincipal (st_db s') (rolled_row (pr_kvno r + 1) pwu nowu r))))).
  { intros v ks' Hl. apply getPrincipal_Ok. eauto. }
  split_and!.
  - eexists. split; [apply (Hget 0 keys)|done]. rewrite Hload, !decide_True by done. unfold rows.
    rewrite sort_by_sorted by apply sealed_rows_sorted. apply open_sealed_rows.
  - eexists. split; [apply (Hget (pr_kvno r) ks)|done].
    rewrite (proj2 (Z.eqb_neq _ _)) by done. rewrite Hload, decide_True, !decide_False by (try done; unfold keyGenerationsKept; lia).
    cbn in Hkeys. done.
  - intros v Hv Hv0. eexists. split; [apply (Hget v [])|done]. cbn in Hv.
    rewrite (proj2 (Z.eqb_neq _ _)) by done. rewrite Hload, decide_True, decide_False, decide_True by (try done; unfold keyGenerationsKept; lia).
    done.
  - intros i v Hi. cbn in Hi. by rewrite Hload, decide_False.
Qed.
End Rotation.

(** ** Lockout *)

Section Lockout.
Context `{Ck : Clock} (policy : LockoutPolicy) (id : Z).

(** Calls of [RecordAuthResult] in the order they are made, by their outcome. *)
Fixpoint attempts (results : list bool) : Tx unit :=
  match results with
  | [] => mret tt
  | ok :: results' => _ ← RecordAuthResult id ok policy; attempts results'
  end.

(** The same attempts with the times they happened at, the most recent first. *)
Fixpoint history (tick : nat) (results : list bool) (before : list (Time * bool)) : list (Time * bool) :=
  match results with
  | [] => before
  | ok :: results' => history (S tick) results' ((clock tick, ok) :: before)
  end.

(** A failure at [t] no longer counts the failure at [t'] before it; times are stored in seconds. *)
Definition forgotten (t t' : Time) : bool :=
  (0 <? FailureCountInterval policy) && (FailureCountInterval policy <? Sub t (UnixTime (Unix t'))).

(** The last [n] attempts are all failures, each soon enough after the one before. *)
Fixpoint burst (n : nat) (l : list (Time * bool)) : bool :=
  match n, l with
  | O, _ => true
  | S n', (t, false) :: l' =>
      match n', l' with
      | O, _ => true
      | _, (t', _) :: _ => negb (forgotten t t') && burst n' l'
      | _, [] => false
      end
  | _, _ => false
  end.

(** How many of the latest attempts form such a run. *)
Fixpoint streak (l : list (Time * bool)) : Z :=
  match l with
  | (t, false) :: l' =>
      match l' with
      | (t', _) :: _ => if forgotten t t' then 1 else streak l' + 1
      | [] => 1
      end
  | _ => 0
  end.

Lemma streak_nonneg l : 0 <= streak l.
Proof. induction l as [|[t [|]] l IH]; simpl; [lia|lia|]. destruct l as [|[t' b] l]; [lia|]. case_match; lia. Qed.

Lemma burst_streak n l : burst n l = true <-> Z.of_nat n <= streak l.
Proof.
  revert l. induction n as [|n IH]; intros l.
  - pose proof (streak_nonneg l). simpl. split; [lia|done].
  - destruct l as [|[t [|]] l]; cbn [burst streak]; [split; [done|lia]|split; [done|lia]|].
    destruct n as [|n].
    + split; [intros _|done]. destruct l as [|[t' b] l]; [lia|]. pose proof (streak_nonneg ((t', b) :: l)).
      case_match; lia.
    + destruct l as [|[t' b] l]; [split; [done|lia]|]. destruct (forgotten t t'); cbn [negb andb].
      * split; [done|lia].
      * rewrite IH. lia.
Qed.

(** The latest failure, in the seconds the table keeps. *)
Fixpoint last_failure_of (l : list (Time * bool)) : option Z :=
  match l with
  | [] => None
  | (t, false) :: _ => Some (Unix t)
  | (_, true) :: l' => last_failure_of l'
  end.

(** What the row of the principal says after the attempts of [l]. *)
Definition row_tells (l : list (Time * bool)) (r : PrincipalRow) : Prop :=
  pr_fail_count r = streak l /\ pr_last_failure r = last_failure_of l /\
  pr_locked_until r = match l with
    | (t, false) :: _ => lock_until policy t (streak l)
    | _ => None
    end.

Lemma next_fails_streak l t r :
  row_tells l r -> next_fails policy t (pr_fail_count r) (pr_last_failure r) = streak ((t, false) :: l).
Proof.
  intros (Hf & Hl & _). rewrite Hf, Hl. unfold next_fails. destruct l as [|[t' [|]] l]; cbn [last_failure_of].
  - done.
  - cbn [streak]. destruct (last_failure_of l) as [x|], (forgotten t t'); try case_match; lia.
  - cbn [streak]. unfold forgotten. case_match; lia.
Qed.

Lemma find_update_row f k :
  (forall r, pr_id (f r) = pr_id r) ->
  List.find (fun r => pr_id r =? id) (principals (update_row id f k)) =
    f <$> List.find (fun r => pr_id r =? id) (principals k).
Proof.
  intros Hf. unfold update_row, set_principals. cbn [principals].
  induction (principals k) as [|r l IH]; [done|]. cbn. destruct (pr_id r =? id) eqn:E; [|by rewrite E].
  by rewrite Hf, E.
Qed.

Definition row_of (s : St) : option PrincipalRow := List.find (fun r => pr_id r =? id) (principals (kt (st_db s))).

Lemma RecordAuthResult_step ok s r l :
  row_of s = Some r -> row_tells l r ->
  exists s' r', RecordAuthResult id ok policy s = (Ok tt, s') /\ row_of s' = Some r' /\
    st_tick s' = S (st_tick s) /\ row_tells ((clock (st_tick s), ok) :: l) r'.
Proof.
  intros Hr Ht. unfold RecordAuthResult, row_of in *. destruct ok.
  - eexists _, _. split; [reflexivity|]. cbn [st_db set_db kt set_kt st_tick]. rewrite find_update_row by done.
    rewrite Hr. split; [reflexivity|]. split; [done|]. destruct Ht as (_ & Hl & _). by split_and!.
  - unfold mbind, M_bind, time_now, write, query_outcome. cbn [st_db]. rewrite Hr. cbn [or_err].
    eexists _, _. split; [reflexivity|]. cbn [st_db set_db kt set_kt st_tick]. rewrite find_update_row by done.
    rewrite Hr. split; [reflexivity|]. split; [done|]. rewrite (next_fails_streak l) by done. by split_and!.
Qed.

Lemma attempts_tell results s r l :
  row_of s = Some r -> row_tells l r ->
  exists s' r', attempts results s = (Ok tt, s') /\ row_of s' = Some r' /\
    row_tells (history (st_tick s) results l) r'.
Proof.
  revert s r l. induction results as [|ok results IH]; intros s r l Hr Ht; cbn [attempts history]; [eauto|].
  destruct (RecordAuthResult_step ok s r l Hr Ht) as (s1 & r1 & Hrun & Hr1 & Hk & Ht1).
  destruct (IH s1 r1 _ Hr1 Ht1) as (s2 & r2 & Hrun2 & Hr2 & Ht2). rewrite Hk in Ht2.
  exists s2, r2. split; [|done]. unfold mbind, M_bind. by rewrite Hrun.
Qed.

End Lockout.

(** A principal the table says is locked is refused, until the moment it says. *)
Lemma locked_status d r t l :
  pr_locked_until r = Some l -> pr_enabled r = true -> reached t (timeFrom (pr_expires_at r)) = false ->
  forall keys, t < UnixTime l -> Status (with_keys keys (scanPrincipal d r)) t = PrincipalLockedOut.
Proof.
  intros Hl He Hx keys Ht. unfold Status. cbn. rewrite He, Hx, Hl. cbn. unfold Before.
  by rewrite (proj2 (Z.ltb_lt _ _) Ht).
Qed.

(** ** Names lead to principals *)

Definition name_key (n : Name) : string * string := (Principal_of n, Realm n).

Lemma find_key {A} (f : A -> bool) (key : A -> string * string) n l :
  (forall x, f x = true <-> key x = n) -> NoDup (key <$> l) ->
  forall x, List.find f l = Some x <-> x ∈ l /\ key x = n.
Proof.
  intros Hf Hnd x. split.
  - intros [Hx E]%find_Some_elem. split; [done|by apply Hf].
  - intros [Hx E]. destruct (List.find f l) as [y|] eqn:Ey.
    + apply find_Some_elem in Ey as [Hy Ey]. apply Hf in Ey. f_equal.
      apply (NoDup_key_inj key l); congruence.
    + apply find_None_elem with (x := x) in Ey; [|done]. apply Hf in E. congruence.
Qed.

(** A name leads to the one principal that holds it, as its own name or as an alias, and to no
    principal when none does. *)
Lemma lookup_exact (k : KTables) (n : Name) (r : PrincipalRow) :
  ktables_ok k ->
  principal_row k n = Some r <->
  r ∈ principals k /\
  ((pr_name r, pr_realm r) = name_key n \/
   exists a, a ∈ principal_aliases k /\ (al_name a, al_realm a) = name_key n /\ al_principal_id a = pr_id r).
Proof.
  intros Hok. pose proof (ok_names _ Hok) as (Hn & Hd & Ha)%NoDup_app.
  assert (Hname : forall x, row_by_name k (Principal_of n) (Realm n) = Some x <->
      x ∈ principals k /\ (pr_name x, pr_realm x) = name_key n).
  { apply find_key; [|done]. intros x. rewrite andb_true_iff, !String.eqb_eq. unfold name_key. split; [by intros [-> ->]|by intros [= -> ->]]. }
  assert (Halias : forall a, List.find (fun a => String.eqb (al_name a) (Principal_of n) && String.eqb (al_realm a) (Realm n))
      (principal_aliases k) = Some a <-> a ∈ principal_aliases k /\ (al_name a, al_realm a) = name_key n).
  { apply find_key; [|done]. intros x. rewrite andb_true_iff, !String.eqb_eq. unfold name_key. split; [by intros [-> ->]|by intros [= -> ->]]. }
  unfold principal_row. split.
  - destruct (row_by_name k _ _) as [x|] eqn:Ex; [intros [= ->]; destruct (proj1 (Hname r) eq_refl) as [? ?]; auto|].
    unfold row_by_alias. destruct (List.find _ (principal_aliases k)) as [a|] eqn:Ea; [|done].
    intros [Hr Hi%Z.eqb_eq]%find_Some_elem. destruct (proj1 (Halias a) eq_refl) as [Ea1 Ea2]. split; [done|]. right. eauto.
  - intros [Hr [Hown|(a & Hin & Hkey & Hpid)]].
    + by rewrite (proj2 (Hname r)).
    + destruct (row_by_name k _ _) as [x|] eqn:Ex.
      * destruct (proj1 (Hname x) eq_refl) as [Hx Ex']. exfalso. apply (Hd (name_key n)).
        -- rewrite <- Ex'. apply list_elem_of_fmap. eauto.
        -- rewrite <- Hkey. apply list_elem_of_fmap. eauto.
      * unfold row_by_alias. rewrite (proj2 (Halias a)) by done.
        destruct (List.find _ (principals k)) as [x|] eqn:Ef.
        -- apply find_Some_elem in Ef as [Hx Ei%Z.eqb_eq]. f_equal.
           apply (NoDup_key_inj pr_id _ _ _ (ok_ids _ Hok)); congruence.
        -- apply find_None_elem with (x := r) in Ef; [|done]. apply Z.eqb_neq in Ef. congruence.
Qed.

(** ** A sample database *)

Definition empty_dtables : DTables := mkDTables [] [] [] [] [] [] [] [] [] 0 0 0.
Definition empty_ztables : ZTables := mkZTables [] 0 0 [].
Definition empty_state : St := mkSt (mkDB empty_tables empty_dtables empty_ztables ∅) 0 0 DefaultIDRange.

Definition sample_clock : Clock := fun n => UnixTime (1700000000 + Z.of_nat n).
Definition sample_keys (b : Byte.byte) : list Key := [mkKey 18 [b; b] "salt" ""; mkKey 17 [b] "salt" ""].
Definition alice : Name := mkName ["alice"] "EXAMPLE.COM".

Section Samples.
#[local] Existing Instance sample_clock.
#[local] Existing Instance toy_rand.
#[local] Existing Instance toy_aead.

Definition one_principal : St :=
  snd (CreatePrincipal (with_keys [] (sample_principal 0 "alice" Byte.x00)) (sample_keys Byte.x01) empty_state).

Lemma one_principal_reached : rtc pstep empty_state one_principal.
Proof.
  apply rtc_once. eapply (pstep_create _ _ (with_keys [] (sample_principal 0 "alice" Byte.x00)) (sample_keys Byte.x01)).
  apply surjective_pairing.
Qed.

Lemma principals_invariant_witness :
  principals (kt (st_db one_principal)) <> [] /\ ktables_ok (kt (st_db one_principal)).
Proof.
  split; [vm_compute; congruence|]. apply (principals_invariant empty_state); [reflexivity|].
  exact one_principal_reached.
Defined.

Lemma one_principal_ok : ktables_ok (kt (st_db one_principal)).
Proof.
  apply (pstep_ok empty_state); [|apply empty_tables_ok].
  eapply (pstep_create _ _ (with_keys [] (sample_principal 0 "alice" Byte.x00)) (sample_keys Byte.x01)).
  apply surjective_pairing.
Qed.

Lemma SetKeys_rotation_witness :
  exists p q s', getPrincipal (st_db one_principal) alice 0 = Ok p /\ p_Keys p = sample_keys Byte.x01 /\
    SetKeys alice (sample_keys Byte.x02) zeroTime one_principal = (Ok q, s') /\
    exists p', getPrincipal (st_db s') alice 0 = Ok p' /\ p_KVNO p' = p_KVNO p + 1 /\ p_Keys p' = sample_keys Byte.x02.
Proof.
  destruct (getPrincipal (st_db one_principal) alice 0) as [p|e|] eqn:E; [|vm_compute in E; discriminate..].
  destruct (SetKeys_rotation alice (sample_keys Byte.x02) zeroTime one_principal p one_principal_ok E) as (q & s' & Hrun & Hnew & _).
  - discriminate.
  - apply (bool_decide_unpack _). vm_compute. reflexivity.
  - exists p, q, s'. split; [reflexivity|]. split; [vm_compute in E; injection E as <-; reflexivity|]. split; [exact Hrun|exact Hnew].
Defined.

Lemma lookup_exact_witness :
  exists r, principal_row (kt (st_db one_principal)) alice = Some r /\ pr_name r = "alice".
Proof.
  destruct (principals (kt (st_db one_principal))) as [|r l] eqn:E; [vm_compute in E; discriminate|].
  exists r. assert (Hn : (pr_name r, pr_realm r) = name_key alice) by (vm_compute in E; injection E as <- <-; reflexivity).
  split.
  - apply (lookup_exact _ alice r one_principal_ok). split; [rewrite E; left|left; exact Hn].
  - injection Hn as -> _. reflexivity.
Defined.

End Samples.

(** ** Frames

    A relation every step of a computation respects is respected by the computation: how the
    theorems about what an operation leaves alone are proved. *)

Section Frame.
Context (R : relation DB) `{!PreOrder R}.

(** Whatever it ends with, the computation moves the database along the relation. *)
Definition within {E T} (m : M St E T) : Prop := forall s r s', m s = (r, s') -> R (st_db s) (st_db s').

Lemma within_keeps {E T} (m : M St E T) : keeps_db m -> within m.
Proof. intros Hm s r s' Hrun. by rewrite (Hm _ _ _ Hrun). Qed.
Lemma within_bind {E T U} (m : M St E T) (f : T -> M St E U) : within m -> (forall x, within (f x)) -> within (x ← m; f x).
Proof.
  intros Hm Hf s r s'. rewrite bind_run. destruct (m s) as [[x|e|] s1] eqn:E1; apply Hm in E1; [|by intros [= _ <-]..].
  intros E2%Hf. by etrans.
Qed.
Lemma within_write {T} (m : Tx T) : within m -> within (write m).
Proof. intros Hm s r s'. unfold write. destruct (m s) as [[x|e|] s1] eqn:E1; intros [= _ <-]; [by apply Hm in E1|done..]. Qed.
Lemma within_update f : (forall d, R d (f d)) -> within (update f).
Proof. by intros Hf s r s' [= _ <-]. Qed.
Lemma within_exec f : (forall d d', f d = Ok d' -> R d d') -> within (exec f).
Proof. intros Hf s r s'. unfold exec. destruct (f (st_db s)) as [d'|e|] eqn:E1; intros [= _ <-]; [by apply Hf|done..]. Qed.
Lemma within_if {E T} (b : bool) (m n : M St E T) : within m -> within n -> within (if b then m else n).
Proof. by destruct b. Qed.
Lemma within_for_each {E X} (f : X -> M St E unit) l : (forall x, within (f x)) -> within (for_each f l).
Proof.
  intros Hf. induction l as [|x l IH]; cbn [for_each]; [apply within_keeps, keeps_ret|]. apply within_bind; [apply Hf|]. done.
Qed.

End Frame.

(** Down to the steps that touch the tables. *)
Ltac frame_step :=
  match goal with
  | |- within _ (write _) => apply within_write; [tc_solve|]
  | |- within _ (mbind _ _) => apply within_bind; [tc_solve| |intros ?]
  | |- within _ (if _ then _ else _) => apply within_if
  | |- within _ (match ?x with (_, _) => _ end) => destruct x
  | |- within _ (for_each _ _) => apply within_for_each; [tc_solve|intros ?]
  | |- within _ (update_kt _) => unfold update_kt
  | |- within _ (update_dt _) => unfold update_dt
  | |- within _ (update_zt _) => unfold update_zt
  | |- within _ (update _) => apply within_update; solve [done | by intros ? ?]
  | |- within _ _ => solve [apply within_keeps; [tc_solve|auto 2 with ldapkdc]]
  end.
Ltac frame := repeat frame_step.

(** What leaves everything of Kerberos alone. *)
Definition kt_kept (d d' : DB) : Prop := kt d' = kt d.
#[export] Instance kt_kept_preorder : PreOrder kt_kept.
Proof. split; [done|]. unfold kt_kept. intros d1 d2 d3. congruence. Qed.

(** ** Triples

    Where what a step may touch depends on what an earlier one returned: besides moving the database
    along the relation from a state with the precondition, a result satisfies the postcondition. *)

Section Triple.
Context (R : relation DB) `{!PreOrder R}.

Definition triple {E T} (Pre : DB -> Prop) (m : M St E T) (Post : T -> DB -> Prop) : Prop :=
  forall s r s', m s = (r, s') -> Pre (st_db s) -> R (st_db s) (st_db s') /\ forall x, r = Ok x -> Post x (st_db s').

Lemma triple_bind {E T U} Pre (m : M St E T) Mid (f : T -> M St E U) Post :
  triple Pre m Mid -> (forall x, triple (Mid x) (f x) Post) -> triple Pre (x ← m; f x) Post.
Proof.
  intros Hm Hf s r s'. rewrite bind_run. destruct (m s) as [[x|e|] s1] eqn:E1; intros Hrun Hpre; apply Hm in E1 as [HR HM]; try done;
    [|by injection Hrun as <- <-..].
  specialize (HM x eq_refl). destruct (Hf _ _ _ _ Hrun HM) as [HR2 HP]. split; [by etrans|done].
Qed.
Lemma triple_write {T} Pre (m : Tx T) Post : triple Pre m Post -> triple Pre (write m) Post.
Proof.
  intros Hm s r s'. unfold write. destruct (m s) as [[x|e|] s1] eqn:E1; intros [= <- <-] Hpre; [by apply (Hm _ _ _ E1)|by split..].
Qed.
Lemma triple_keeps {E T} Pre (m : M St E T) : keeps_db m -> triple Pre m (fun _ => Pre).
Proof. intros Hm s r s' Hrun Hpre. by rewrite (Hm _ _ _ Hrun). Qed.
Lemma triple_ret {E T} (Pre : DB -> Prop) (Post : T -> DB -> Prop) (x : T) :
  (forall d, Pre d -> Post x d) -> triple Pre (mret (M := M St E) x) Post.
Proof. intros HP s r s' [= <- <-] Hpre. split; [done|]. intros y [= <-]. by apply HP. Qed.
Lemma triple_conseq {E T} (Pre Pre' : DB -> Prop) (m : M St E T) (Post Post' : T -> DB -> Prop) :
  (forall d, Pre d -> Pre' d) -> (forall x d, Post' x d -> Post x d) -> triple Pre' m Post' -> triple Pre m Post.
Proof. intros H1 H2 Hm s r s' Hrun Hpre%H1. destruct (Hm _ _ _ Hrun Hpre) as [HR HP]. split; [done|]. intros x E1. by apply H2, HP. Qed.
Lemma triple_if {E T} (b : bool) Pre (m n : M St E T) Post :
  (b = true -> triple Pre m Post) -> (b = false -> triple Pre n Post) -> triple Pre (if b then m else n) Post.
Proof. destruct b; auto. Qed.
Lemma triple_for_each {E X} Pre (f : X -> M St E unit) l :
  (forall x, x ∈ l -> triple Pre (f x) (fun _ => Pre)) -> triple Pre (for_each f l) (fun _ => Pre).
Proof.
  induction l as [|x l IH]; intros Hf; cbn [for_each]; [by apply triple_ret|].
  eapply triple_bind; [apply Hf; left|]. intros []. apply IH. intros y Hy. apply Hf. by right.
Qed.
Lemma triple_update Pre f (Post : DB -> Prop) :
  (forall d, Pre d -> R d (f d) /\ Post (f d)) -> triple Pre (update f) (fun _ => Post).
Proof. intros Hf s r s' [= <- <-] Hpre%Hf. cbn [st_db set_db]. split; [apply Hpre|]. intros _ _. apply Hpre. Qed.
Lemma triple_exec Pre f (Post : DB -> Prop) :
  (forall d d', f d = Ok d' -> Pre d -> R d d' /\ Post d') -> triple Pre (exec f) (fun _ => Post).
Proof.
  intros Hf s r s'. unfold exec. destruct (f (st_db s)) as [d|e|] eqn:E1; intros [= <- <-] Hpre; [|by split..].
  cbn [st_db set_db]. destruct (Hf _ _ E1 Hpre). split; [done|]. by intros _ _.
Qed.
End Triple.
