(* ===== verification/Dialect.v ===== *)
(** * Placeholders on either database: package [store], dialect.go and sqlutil.go

    Every query is written with question marks; PostgreSQL wants them numbered. *)

From S2P Require Import Prelude Text.

Inductive dialect : Type := dialectSQLite | dialectPostgres.

Definition targetDialect (target : string) : dialect :=
  if HasPrefix target "postgres://" || HasPrefix target "postgresql://" then dialectPostgres else dialectSQLite.

Definition dialect_String (d : dialect) : string := match d with dialectPostgres => "postgres" | dialectSQLite => "sqlite" end.

Definition quote : ascii := "'"%char.
Definition mark : ascii := "?"%char.

(** The loop of [rebind]: the placeholders so far, and whether it is inside a literal. *)
Fixpoint rebind_from (n : Z) (literal : bool) (query : string) : string :=
  match query with
  | EmptyString => EmptyString
  | String c rest =>
      if Ascii.eqb c quote then String c (rebind_from n (negb literal) rest)
      else if Ascii.eqb c mark && negb literal then "$" +:+ pretty (n + 1) +:+ rebind_from (n + 1) literal rest
      else String c (rebind_from n literal rest)
  end.

Definition rebind (d : dialect) (query : string) : string :=
  match d with
  | dialectPostgres => if contains_char mark query then rebind_from 0 false query else query
  | dialectSQLite => query
  end.

(** [strings.TrimSuffix(strings.Repeat("?,", n), ",")]. *)
Definition placeholders (n : Z) : string :=
  if n <=? 0 then EmptyString else TrimSuffix (String.concat "" (replicate (Z.to_nat n) "?,")) ",".

(** ** What is bound to what *)

(** The text between the placeholders. *)
Fixpoint pieces (literal : bool) (query : string) : list string :=
  match query with
  | EmptyString => [EmptyString]
  | String c rest =>
      if Ascii.eqb c mark && negb literal then EmptyString :: pieces literal rest
      else match pieces (if Ascii.eqb c quote then negb literal else literal) rest with
           | p :: ps => String c p :: ps
           | [] => []
           end
  end.

(** The pieces with a text between them that depends on where it stands. *)
Fixpoint weave (f : Z -> string) (n : Z) (ps : list string) : string :=
  match ps with
  | [] => EmptyString
  | [p] => p
  | p :: ps' => p +:+ f n +:+ weave f (n + 1) ps'
  end.

Lemma pieces_cons literal query : exists p ps, pieces literal query = p :: ps.
Proof.
  revert literal. induction query as [|c query IH]; intros literal; cbn [pieces]; [by eexists _, _|].
  destruct (_ && _); [by eexists _, _|]. destruct (IH (if Ascii.eqb c quote then negb literal else literal)) as (p & ps & ->). by eexists _, _.
Qed.

Lemma weave_cons f n c p ps : weave f n (String c p :: ps) = String c (weave f n (p :: ps)).
Proof. by destruct ps. Qed.

Lemma rebind_from_weave n literal query : rebind_from n literal query = weave (fun i => "$" +:+ pretty i) (n + 1) (pieces literal query).
Proof.
  revert n literal. induction query as [|c query IH]; intros n literal; cbn [rebind_from pieces]; [done|].
  destruct (Ascii.eqb_spec c quote) as [->|Hq].
  - cbn [Ascii.eqb andb]. rewrite IH. destruct (pieces_cons (negb literal) query) as (p & ps & E). cbn -[weave]. rewrite E. by rewrite weave_cons.
  - destruct (Ascii.eqb c mark && negb literal).
    + rewrite IH. destruct (pieces_cons literal query) as (p & ps & E). rewrite E. done.
    + rewrite IH. destruct (pieces_cons literal query) as (p & ps & E). rewrite E. by rewrite weave_cons.
Qed.

Lemma weave_marks n query : forall literal, weave (fun _ => "?") n (pieces literal query) = query.
Proof.
  revert n. induction query as [|c query IH]; intros n literal; cbn [pieces]; [done|].
  destruct (Ascii.eqb_spec c mark) as [->|Hm]; cbn [andb].
  - destruct literal; cbn [negb].
    + destruct (pieces_cons true query) as (p & ps & E). specialize (IH n true). cbn -[weave]. rewrite E in *. by rewrite weave_cons, IH.
    + destruct (pieces_cons false query) as (p & ps & E). specialize (IH (n + 1) false). rewrite E in *.
      change (String mark (weave (fun _ => "?") (n + 1) (p :: ps)) = String mark query). by rewrite IH.
  - set (l := if Ascii.eqb c quote then _ else _). destruct (pieces_cons l query) as (p & ps & E). specialize (IH n l). rewrite E in *. by rewrite weave_cons, IH.
Qed.

(** The query PostgreSQL gets has the text of the one written, with $1, $2 and so on where its question
    marks outside the literals are; on SQLite it is the one written. *)
Lemma rebind_numbers (query : string) :
  weave (fun _ => "?") 1 (pieces false query) = query /\ rebind dialectSQLite query = query /\
  rebind dialectPostgres query = weave (fun i => "$" +:+ pretty i) 1 (pieces false query).
Proof.
  split; [apply weave_marks|]. split; [done|]. cbn [rebind]. destruct (contains_char mark query) eqn:Ec; [apply (rebind_from_weave 0)|].
  transitivity (weave (fun _ => "?") 1 (pieces false query)); [symmetry; apply weave_marks|].
  assert (Hone : forall q l, contains_char mark q = false -> pieces l q = [q]).
  { induction q as [|c q IH]; intros l Hc; cbn [pieces]; [done|]. cbn [contains_char] in Hc. apply orb_false_iff in Hc as [Hm Hq].
    rewrite Ascii.eqb_sym, Hm || rewrite Hm. cbn [andb]. by rewrite IH. }
  by rewrite Hone.
Qed.

Example rebind_sample : rebind dialectPostgres "SELECT id FROM t WHERE a = ? AND b <> 'why?' AND c IN (?,?)" = "SELECT id FROM t WHERE a = $1 AND b <> 'why?' AND c IN ($2,$3)".
Proof. vm_compute. reflexivity. Qed.
Example placeholders_sample : (placeholders 0, placeholders 1, placeholders 3) = ("", "?", "?,?,?").
Proof. vm_compute. reflexivity. Qed.
