(* ===== verification/Migrate.v ===== *)
(** * Bringing the schema up to date: package [store], [migrate] of store.go

    Every migration that has not been recorded is applied in name order, each with its record in one
    transaction. Services may be started side by side on one database, and on SQLite nothing but the
    transactions keeps them apart. A script is a parameter: what it makes of the tables, or that it
    fails. *)

From S2P Require Import Prelude Text Model IdRange Db Principals.

Section Migrate.
Context {D : Type} (script : string -> D -> option D) (embedded : list string).

(** The tables, and [schema_migrations] in the order its rows were inserted. *)
Record Schema : Type := mkSchema { sc_tables : D; sc_applied : list string }.

(** [fs.Glob] and [sort.Strings]. *)
Definition entries : list string := sort_by string_le embedded.

(** The transaction of one migration: the script, then the record, whose name is the primary key. *)
Definition apply_migration (name : string) (s : Schema) : option Schema :=
  d ← script name (sc_tables s);
  if bool_decide (name ∈ sc_applied s) then None else Some (mkSchema d (sc_applied s ++ [name])).

Fixpoint migrate_from (applied rest : list string) (s : Schema) : bool * Schema :=
  match rest with
  | [] => (true, s)
  | name :: rest' =>
      if bool_decide (name ∈ applied) then migrate_from applied rest' s
      else match apply_migration name s with
           | Some s' => migrate_from applied rest' s'
           | None => (false, s)
           end
  end.

Definition migrate (s : Schema) : bool * Schema := migrate_from (sc_applied s) entries s.

(** ** Services side by side *)

(** Where a service is: before it has read the records, in the loop with what it read and what is left,
    or out of the function. *)
Inductive mphase : Type := m_start | m_loop (applied rest : list string) | m_done | m_failed.

Record Migrating : Type := mkMigrating { mg_schema : Schema; mg_services : list mphase }.

Definition mstep (ph : mphase) (s : Schema) : mphase * Schema :=
  match ph with
  | m_start => (m_loop (sc_applied s) entries, s)
  | m_loop applied [] => (m_done, s)
  | m_loop applied (name :: rest) =>
      if bool_decide (name ∈ applied) then (m_loop applied rest, s)
      else match apply_migration name s with
           | Some s' => (m_loop applied rest, s')
           | None => (m_failed, s)
           end
  | m_done | m_failed => (ph, s)
  end.

(** A step of one of them, or its end for whatever reason, which rolls back what it had begun. *)
Inductive migrating_step : Migrating -> Migrating -> Prop :=
| mg_step s services i ph ph' s' :
    services !! i = Some ph -> mstep ph s = (ph', s') -> migrating_step (mkMigrating s services) (mkMigrating s' (<[i := ph']> services))
| mg_stop s services i : migrating_step (mkMigrating s services) (mkMigrating s (<[i := m_failed]> services)).

(** What a list of migrations makes of the tables. *)
Fixpoint replay (names : list string) (d : D) : option D :=
  match names with
  | [] => Some d
  | n :: names' => d' ← script n d; replay names' d'
  end.

(** A service in the loop has behind it only migrations that are recorded. *)
Definition behind (s : Schema) (ph : mphase) : Prop :=
  match ph with
  | m_loop applied rest => exists pre, entries = pre ++ rest /\ (forall n, n ∈ pre \/ n ∈ applied -> n ∈ sc_applied s)
  | m_done => forall n, n ∈ entries -> n ∈ sc_applied s
  | _ => True
  end.

Record migrating_ok (d0 : D) (m : Migrating) : Prop := {
  mo_prefix : sc_applied (mg_schema m) `prefix_of` entries;
  mo_replay : replay (sc_applied (mg_schema m)) d0 = Some (sc_tables (mg_schema m));
  mo_behind : Forall (behind (mg_schema m)) (mg_services m);
}.

Lemma replay_snoc names n d : replay (names ++ [n]) d = (d' ← replay names d; script n d').
Proof.
  revert d. induction names as [|m names IH]; intros d; cbn; [by destruct (script n d)|]. destruct (script m d) as [d'|]; [|done]. apply IH.
Qed.

Lemma behind_grows s s' ph : (forall n, n ∈ sc_applied s -> n ∈ sc_applied s') -> behind s ph -> behind s' ph.
Proof. intros Hg. destruct ph; cbn; [done| |auto|done]. intros (pre & E & H). exists pre. auto. Qed.

(** The migration a service applies is the next one. *)
Lemma next_migration (applied pre rest : list string) n :
  NoDup (pre ++ n :: rest) -> applied `prefix_of` pre ++ n :: rest -> (forall x, x ∈ pre -> x ∈ applied) -> n ∉ applied -> applied = pre.
Proof.
  intros Hnd [suf E] Hpre Hn. revert pre applied E Hpre Hn Hnd. induction pre as [|p pre IH]; intros applied E Hpre Hn Hnd.
  - destruct applied as [|a applied]; [done|]. cbn in E. injection E as -> _. destruct Hn. left.
  - destruct applied as [|a applied]; [by specialize (Hpre p ltac:(left)); apply elem_of_nil in Hpre|]. cbn in E, Hnd. injection E as <- E.
    apply NoDup_cons in Hnd as [Hp Hnd]. f_equal. apply (IH applied); [done| | |done].
    + intros x Hx. specialize (Hpre x ltac:(by right)). apply elem_of_cons in Hpre as [->|?]; [|done]. destruct Hp. apply elem_of_app. by left.
    + intros Hin. apply Hn. by right.
Qed.

Lemma mstep_ok d0 s services ph ph' s' : NoDup entries -> migrating_ok d0 (mkMigrating s services) -> behind s ph -> mstep ph s = (ph', s') ->
  migrating_ok d0 (mkMigrating s' services) /\ behind s' ph'.
Proof.
  intros Hnd [Hpre Hrep Hbeh] Hph. cbn [mg_schema mg_services] in *. destruct ph as [|applied [|n rest]| |]; cbn [mstep]; try (by intros [= <- <-]).
  - intros [= <- <-]. split; [done|]. exists []. split; [done|]. intros n [Hn|Hn]; [by apply elem_of_nil in Hn|done].
  - intros [= <- <-]. split; [done|]. destruct Hph as (pre & E & Hin). rewrite app_nil_r in E. intros n Hn. apply Hin. left. by rewrite <- E.
  - destruct Hph as (pre & E & Hin). case_bool_decide as Hseen.
    { intros [= <- <-]. split; [done|]. exists (pre ++ [n]). rewrite <- app_assoc. split; [done|]. intros x [[Hx|Hx%list_elem_of_singleton]%elem_of_app|Hx]; subst; auto. }
    unfold apply_migration. destruct (script n (sc_tables s)) as [d'|] eqn:Es; cbn [mbind option_bind]; [|by intros [= <- <-]].
    case_bool_decide as Happ; intros [= <- <-]; [done|].
    assert (Ea : sc_applied s = pre) by (eapply (next_migration _ pre rest n); [by rewrite <- E|by rewrite <- E| |done]; auto).
    split; [split; cbn [mg_schema mg_services sc_applied sc_tables]|].
    + exists rest. by rewrite Ea, <- app_assoc.
    + by rewrite replay_snoc, Hrep.
    + eapply Forall_impl; [exact Hbeh|]. intros ph. apply behind_grows. intros x Hx. apply elem_of_app. by left.
    + exists (pre ++ [n]). rewrite <- app_assoc. split; [done|]. cbn [sc_applied]. rewrite Ea in *. intros x [Hx|Hx]; [done|]. apply elem_of_app. left. auto.
Qed.

Lemma migrating_step_ok d0 m m' : NoDup entries -> migrating_step m m' -> migrating_ok d0 m -> migrating_ok d0 m'.
Proof.
  intros Hnd [s services i ph ph' s' Hi Hstep|s services i] Hok.
  - assert (Hph : behind s ph) by (eapply Forall_lookup_1; [apply (mo_behind _ _ Hok)|done]).
    destruct (mstep_ok _ _ _ _ _ _ Hnd Hok Hph Hstep) as [[H1 H2 H3] H4]. split; [done..|]. by apply Forall_insert.
  - destruct Hok as [H1 H2 H3]. split; [done..|]. cbn in *. by apply Forall_insert.
Qed.

(** C22: however many services migrate one database at the same time, and wherever they fail or are
    stopped, no migration is applied twice, none is skipped and none comes before its turn: the records
    are at any time a prefix of the migrations in name order, the tables are what exactly these make of
    what was there, and a service that gets through finds all of them recorded. *)
Theorem migrations_in_order (d0 : D) (applied0 : list string) (n : nat) (m : Migrating) (d1 : D) :
  NoDup entries -> applied0 `prefix_of` entries -> replay applied0 d0 = Some d1 ->
  rtc migrating_step (mkMigrating (mkSchema d1 applied0) (replicate n m_start)) m ->
  sc_applied (mg_schema m) `prefix_of` entries /\ replay (sc_applied (mg_schema m)) d0 = Some (sc_tables (mg_schema m)) /\
  (m_done ∈ mg_services m -> sc_applied (mg_schema m) = entries).
Proof.
  intros Hnd Hpre Hrep Hrun.
  assert (Hok : migrating_ok d0 m).
  { assert (H0 : migrating_ok d0 (mkMigrating (mkSchema d1 applied0) (replicate n m_start))) by (split; [done..|]; apply Forall_replicate; done).
    clear -Hnd Hrun H0. induction Hrun; eauto using migrating_step_ok. }
  destruct Hok as [[suf E] H2 H3]. split; [by exists suf|]. split; [done|]. intros Hd. rewrite Forall_forall in H3. specialize (H3 _ Hd). cbn in H3.
  destruct suf as [|x suf]; [by rewrite app_nil_r in E|]. assert (Hx : x ∈ sc_applied (mg_schema m)) by (apply H3; rewrite E; apply elem_of_app; right; left).
  rewrite E in Hnd. apply NoDup_app in Hnd as (_ & Hdis & _). destruct (Hdis x Hx). left.
Qed.
End Migrate.

(** ** Two services on one new database *)

Definition log_script (name : string) (d : list string) : option (list string) := Some (d ++ [name]).
Definition shipped : list string := ["0002_dns.sql"; "0001_init.sql"; "0003_oidc.sql"].
Definition two_services : @Migrating (list string) := mkMigrating (mkSchema [] []) [m_start; m_start].

Definition turn (m : @Migrating (list string)) (i : nat) : Migrating :=
  match mg_services m !! i with
  | Some ph => let '(ph', s') := mstep log_script shipped ph (mg_schema m) in mkMigrating s' (<[i := ph']> (mg_services m))
  | None => m
  end.

Lemma turn_step m i : rtc (migrating_step log_script shipped) m (turn m i).
Proof.
  unfold turn. destruct (mg_services m !! i) as [ph|] eqn:E; [|constructor]. destruct (mstep _ _ _ _) as [ph' s'] eqn:Es.
  destruct m as [s services]. by eapply rtc_once, mg_step.
Qed.
Lemma turns_run turns m : rtc (migrating_step log_script shipped) m (foldl turn m turns).
Proof. revert m. induction turns as [|i turns IH]; intros m; [constructor|]. cbn [foldl]. etrans; [apply turn_step|apply IH]. Qed.

(** Both read the empty records; the second finds its first migration taken and fails, the first one
    gets through. *)
Lemma migrations_in_order_witness :
  let m := foldl turn two_services [0; 1; 0; 1; 0; 0; 0]%nat in
  mg_services m = [m_done; m_failed] /\ sc_applied (mg_schema m) = ["0001_init.sql"; "0002_dns.sql"; "0003_oidc.sql"].
Proof.
  intros m. assert (Hs : mg_services m = [m_done; m_failed]) by (vm_compute; reflexivity).
  split; [exact Hs|]. change ["0001_init.sql"; "0002_dns.sql"; "0003_oidc.sql"] with (entries shipped).
  refine (proj2 (proj2 (migrations_in_order log_script shipped [] [] 2 m [] _ _ _ (turns_run _ _))) _).
  - apply (bool_decide_unpack _). vm_compute. exact I.
  - apply prefix_nil.
  - reflexivity.
  - rewrite Hs. apply list_elem_of_here.
Defined.
