(* ===== verification/Zone.v ===== *)
(** * The records of the zone: package [store], dns.go

    Records an administrator made, with an empty origin, and records a source registered by itself,
    tagged with their origin; and the serial of the zone, which moves with every change. The LIKE
    of SQLite compares letters without regard to case. *)

From S2P Require Import Prelude Text Netip Names Keytab Model IdRange Db Principals PrincipalFacts.

(** [DNSRecord]. *)
Record DNSRecord : Type := mkDNSRecord {
  r_ID : Z;
  r_Name : string;
  r_Type : string;
  r_TTL : Z;
  r_Value : string;
  r_Origin : string;
  r_CreatedAt : Time;
  r_UpdatedAt : Time;
}.

Definition NormalizeDNSName (name : string) : string := ToLower (TrimSuffix (TrimSpace name) ".").

Definition scanDNSRecord (r : DNSRow) : DNSRecord :=
  mkDNSRecord (dn_id r) (dn_name r) (dn_type r) (dn_ttl r) (dn_value r) (dn_origin r)
    (UnixTime (dn_created_at r)) (UnixTime (dn_updated_at r)).

(** [ORDER BY] over columns of text. *)
Fixpoint columns_le (l m : list string) : bool :=
  match l, m with
  | a :: l', b :: m' => if String.eqb a b then columns_le l' m' else string_le a b
  | _, _ => true
  end.

Definition zone_le (a b : DNSRow) : bool :=
  columns_le [dn_name a; dn_type a; dn_value a] [dn_name b; dn_type b; dn_value b].
Definition rrset_le (a b : DNSRow) : bool := columns_le [dn_type a; dn_value a] [dn_type b; dn_value b].

Definition ListDNSRecords : Tx (list DNSRecord) :=
  query (fun d => scanDNSRecord <$> sort_by zone_le (dns_records (zt d))).

Definition records_at (d : DB) (name : string) : list DNSRecord :=
  scanDNSRecord <$> sort_by rrset_le (filter (fun r => dn_name r = NormalizeDNSName name) (dns_records (zt d))).

Definition LookupDNSRecords (name : string) : Tx (list DNSRecord) := query (fun d => records_at d name).

(** [origin LIKE 'source:%'], for a source without the wildcards of LIKE. *)
Definition origin_like (source origin : string) : bool := HasPrefix (ToLower origin) (ToLower (source +:+ ":")).

Definition records_from (d : DB) (source : string) : list DNSRecord :=
  scanDNSRecord <$> sort_by zone_le (filter (fun r => origin_like source (dn_origin r) = true) (dns_records (zt d))).

Definition ListDiscoveredDNSRecords (source : string) : Tx (list DNSRecord) := query (fun d => records_from d source).

Definition address_type (t : string) : bool := String.eqb t "A" || String.eqb t "AAAA".

Definition address_names (d : DB) (addr : Addr) : list string :=
  sort_by string_le (dn_name <$>
    filter (fun r => address_type (dn_type r) = true /\ dn_value r = Addr_String addr) (dns_records (zt d))).

Definition LookupDNSAddressNames (addr : Addr) : Tx (list string) := query (fun d => address_names d addr).

(** [validateDNSRecord]: the record with its fields put in order. *)
Definition validateDNSRecord (r : DNSRecord) : outcome StoreErr DNSRecord :=
  let name := NormalizeDNSName (r_Name r) in
  let type := ToUpper (TrimSpace (r_Type r)) in
  let value := TrimSpace (r_Value r) in
  if is_empty name || is_empty type || is_empty value || (r_TTL r <=? 0) then Err ErrDNSRecord
  else Ok (mkDNSRecord (r_ID r) name type (r_TTL r) value (r_Origin r) (r_CreatedAt r) (r_UpdatedAt r)).

(** The serial after a change made at a time. *)
Definition next_serial (now serial : Z) : Z := if now <? serial + 1 then serial + 1 else now.

Section Zone.
Context `{Clock}.

Definition bumpZoneSerial : Tx unit :=
  now ← time_now;
  update_zt (set_serial (next_serial (Unix now))).

(** [INSERT INTO dns_records], under the unique index over name, type and value. *)
Definition insert_dns_row (r : DNSRecord) (origin : string) (now : Z) : Tx Z := fun s =>
  let d := st_db s in
  let id := seq_dns_records (zt d) + 1 in
  if existsb (fun x => String.eqb (dn_name x) (r_Name r) && String.eqb (dn_type x) (r_Type r) && String.eqb (dn_value x) (r_Value r))
       (dns_records (zt d))
  then (Err ErrConflict, s)
  else (Ok id, set_db (set_zt (set_seq_dns id (set_dns (fun t =>
          t ++ [mkDNSRow id (r_Name r) (r_Type r) (r_TTL r) (r_Value r) origin now now]) (zt d))) d) s).

Definition insertDNSRecord (r : DNSRecord) (origin : string) : Tx DNSRecord :=
  now ← time_now;
  write (
    id ← insert_dns_row r origin (Unix now);
    _ ← bumpZoneSerial;
    mret (mkDNSRecord id (r_Name r) (r_Type r) (r_TTL r) (r_Value r) origin now now)).

Definition CreateDNSRecord (r : DNSRecord) : Tx DNSRecord :=
  r ← lift (validateDNSRecord r);
  insertDNSRecord r EmptyString.

Definition CreateDiscoveredDNSRecord (origin : string) (r : DNSRecord) : Tx DNSRecord :=
  _ ← throw_if (is_empty origin) ErrDNSRecord;
  r ← lift (validateDNSRecord r);
  insertDNSRecord r origin.

(** [deleteDNSRecordTx]. *)
Definition deleteDNSRecordTx (id : Z) : Tx unit :=
  n ← query (fun d => filter (fun r => dn_id r = id) (dns_records (zt d)));
  _ ← update_zt (set_dns (filter (fun r => dn_id r <> id)));
  _ ← throw_if (List.length n =? 0)%nat ErrNotFound;
  bumpZoneSerial.

(** [SELECT origin FROM dns_records WHERE id = ?]. *)
Definition origin_of (id : Z) : Tx string :=
  query_outcome (fun d => or_err ErrNotFound (dn_origin <$> List.find (fun r => dn_id r =? id) (dns_records (zt d)))).

Definition DeleteDNSRecord (id : Z) : Tx unit :=
  write (
    origin ← origin_of id;
    _ ← throw_if (non_empty origin) ErrConflict;
    deleteDNSRecordTx id).

Definition DeleteDiscoveredDNSRecord (id : Z) : Tx unit :=
  write (
    origin ← origin_of id;
    _ ← throw_if (is_empty origin) ErrConflict;
    deleteDNSRecordTx id).

(** The rows [DeleteDNSRecordsAt] removes. *)
Definition deleted_at (name recordType : string) (r : DNSRow) : bool :=
  String.eqb (dn_name r) (NormalizeDNSName name) && is_empty (dn_origin r) &&
  (is_empty recordType || String.eqb (dn_type r) (ToUpper recordType)).

Definition DeleteDNSRecordsAt (name recordType : string) : Tx Z :=
  write (
    rows ← query (fun d => filter (fun r => deleted_at name recordType r = true) (dns_records (zt d)));
    _ ← update_zt (set_dns (filter (fun r => deleted_at name recordType r = false)));
    _ ← throw_if (List.length rows =? 0)%nat ErrNotFound;
    _ ← bumpZoneSerial;
    mret (Z.of_nat (List.length rows))).

Definition ZoneSerial : Tx Z := query (fun d => wrap 32 (zone_serial (zt d))).
End Zone.
