(* ===== verification/ZoneFacts.v ===== *)
(** * The records of the zone, proofs: invariant, serial and ownership *)

From S2P Require Import Prelude Text Netip Names Keytab Model IdRange Db Principals PrincipalFacts Zone.

(** The operations that may change the zone. *)
Inductive zone_op : Type :=
| op_create (r : DNSRecord)
| op_register (origin : string) (r : DNSRecord)
| op_delete (id : Z)
| op_unregister (id : Z)
| op_delete_at (name recordType : string).

(** Whose operation it is. *)
Definition administrative (op : zone_op) : bool :=
  match op with op_create _ | op_delete _ | op_delete_at _ _ => true | _ => false end.

Definition discard {A} (m : Tx A) : Tx unit := _ ← m; mret tt.

Definition run_zone_op `{Clock} (op : zone_op) : Tx unit :=
  match op with
  | op_create r => discard (CreateDNSRecord r)
  | op_register origin r => discard (CreateDiscoveredDNSRecord origin r)
  | op_delete id => DeleteDNSRecord id
  | op_unregister id => DeleteDiscoveredDNSRecord id
  | op_delete_at name type => discard (DeleteDNSRecordsAt name type)
  end.

(** A history of operations, each with whatever result. *)
Inductive zone_history `{Clock} : list zone_op -> St -> St -> Prop :=
| zone_nil s : zone_history [] s s
| zone_cons op ops s r s1 s2 : run_zone_op op s = (r, s1) -> zone_history ops s1 s2 -> zone_history (op :: ops) s s2.

Definition rr_key (r : DNSRow) : string * string * string := (dn_name r, dn_type r, dn_value r).

Record zone_ok (z : ZTables) : Prop := {
  zo_ids : NoDup (dn_id <$> dns_records z);
  zo_seq : forall r, r ∈ dns_records z -> 0 < dn_id r <= seq_dns_records z;
  zo_seq_pos : 0 <= seq_dns_records z;
  (** the same value twice at one name is not a second record *)
  zo_unique : NoDup (rr_key <$> dns_records z);
  (** a record has a name, a type, a value and a lifetime *)
  zo_form : forall r, r ∈ dns_records z ->
    dn_name r <> EmptyString /\ dn_type r <> EmptyString /\ dn_value r <> EmptyString /\ 0 < dn_ttl r;
}.

(** Records of an owner: the administrator's, or those registered by a source. *)
Definition owned (admin : bool) (z : ZTables) : list DNSRow :=
  filter (fun r => is_empty (dn_origin r) = admin) (dns_records z).

(** What a change does to the rows: one row more with a new id, or the rows of a condition less. *)
Inductive zone_change (admin : bool) (z z' : ZTables) : Prop :=
| change_insert row :
    dns_records z' = dns_records z ++ [row] -> dn_id row = seq_dns_records z + 1 ->
    seq_dns_records z' = seq_dns_records z + 1 -> ~ rr_key row ∈ rr_key <$> dns_records z ->
    is_empty (dn_origin row) = admin ->
    dn_name row <> EmptyString -> dn_type row <> EmptyString -> dn_value row <> EmptyString -> 0 < dn_ttl row ->
    zone_change admin z z'
| change_delete (P : DNSRow -> bool) row :
    dns_records z' = filter (fun r => P r = false) (dns_records z) -> seq_dns_records z' = seq_dns_records z ->
    row ∈ dns_records z -> P row = true ->
    (NoDup (dn_id <$> dns_records z) -> forall r, r ∈ dns_records z -> P r = true -> is_empty (dn_origin r) = admin) ->
    zone_change admin z z'.

Section ZoneFacts.
Context `{Clock}.

Lemma discard_Ok {A} (m : Tx A) u s s' : discard m s = (Ok u, s') -> exists a, m s = (Ok a, s').
Proof. unfold discard. intros Hr. run_inv. eauto. Qed.

Lemma bumpZoneSerial_Ok u s s' : bumpZoneSerial s = (Ok u, s') ->
  exists now, st_db s' = set_zt (set_serial (next_serial now) (zt (st_db s))) (st_db s).
Proof. unfold bumpZoneSerial. intros Hr. tx_inv. eexists. reflexivity. Qed.

Lemma next_serial_lt now serial : serial < next_serial now serial.
Proof. unfold next_serial. destruct (Z.ltb_spec now (serial + 1)); lia. Qed.

(** The row an insertion adds is valid and new. *)
Lemma insertDNSRecord_Ok r origin r' s s' : insertDNSRecord r origin s = (Ok r', s') ->
  exists id row now, id = seq_dns_records (zt (st_db s)) + 1 /\
    row = mkDNSRow id (r_Name r) (r_Type r) (r_TTL r) (r_Value r) origin now now /\
    ~ rr_key row ∈ rr_key <$> dns_records (zt (st_db s)) /\
    exists at_, st_db s' = set_zt (set_serial (next_serial at_) (set_seq_dns id (set_dns (fun t => t ++ [row]) (zt (st_db s))))) (st_db s).
Proof.
  unfold insertDNSRecord. intros Hr. tx_inv.
  match goal with Hi : insert_dns_row _ _ ?n ?s0 = (Ok ?i, _) |- _ =>
    unfold insert_dns_row in Hi; destruct (existsb _ _) eqn:Ex; [discriminate Hi|]; injection Hi as <- <- end.
  match goal with Hb : bumpZoneSerial _ = _ |- _ => apply bumpZoneSerial_Ok in Hb as [at_ Hb]; rename Hb into Hd end.
  eexists _, _, _. split_and!; [reflexivity|reflexivity| |exists at_; exact Hd].
  intros (y & Hk & Hx)%list_elem_of_fmap. injection Hk as Hn Ht Hv. cbn [dn_name dn_type dn_value] in *.
  apply not_true_iff_false in Ex. destruct Ex. apply existsb_exists. exists y. split; [by apply list_elem_of_In|].
  by rewrite Hn, Ht, Hv, !String.eqb_refl.
Qed.

Lemma validateDNSRecord_Ok r r' : validateDNSRecord r = Ok r' ->
  r_Name r' <> EmptyString /\ r_Type r' <> EmptyString /\ r_Value r' <> EmptyString /\ 0 < r_TTL r'.
Proof.
  unfold validateDNSRecord. intros Hr. if_ok E. cbn. apply orb_false_iff in E as [E Et].
  apply orb_false_iff in E as [E Ev]. apply orb_false_iff in E as [En Ety].
  split_and!; try (intros Hs; rewrite Hs in *; discriminate). lia.
Qed.

Lemma insert_change admin r origin r' s s' :
  insertDNSRecord r origin s = (Ok r', s') -> is_empty origin = admin ->
  r_Name r <> EmptyString /\ r_Type r <> EmptyString /\ r_Value r <> EmptyString /\ 0 < r_TTL r ->
  exists at_ z, st_db s' = set_zt (set_serial (next_serial at_) z) (st_db s) /\
    zone_serial z = zone_serial (zt (st_db s)) /\ zone_change admin (zt (st_db s)) z.
Proof.
  intros (id & row & now & Hid & Hrow & Hnew & at_ & Hs')%insertDNSRecord_Ok Ho (Hn & Ht & Hv & Httl).
  eexists at_, _. split_and!; [exact Hs'|reflexivity|].
  apply (change_insert _ _ _ row); subst; try done.
Qed.

(** The deletions by id: every row of the id is the owner's when ids are unique. *)
Lemma delete_id_change admin id u s s' origin :
  List.find (fun r => dn_id r =? id) (dns_records (zt (st_db s))) = Some origin -> is_empty (dn_origin origin) = admin ->
  deleteDNSRecordTx id s = (Ok u, s') ->
  exists at_ z, st_db s' = set_zt (set_serial (next_serial at_) z) (st_db s) /\
    zone_serial z = zone_serial (zt (st_db s)) /\ zone_change admin (zt (st_db s)) z.
Proof.
  intros [Hin Hid]%find_Some_elem Ho Hr. apply Z.eqb_eq in Hid. unfold deleteDNSRecordTx in Hr. tx_inv.
  match goal with Hb : bumpZoneSerial _ = _ |- _ => apply bumpZoneSerial_Ok in Hb as [at_ Hb]; rename Hb into Hd end.
  eexists at_, _. split_and!; [exact Hd|reflexivity|].
  apply (change_delete _ _ _ (fun r => dn_id r =? id) origin); cbn [dns_records set_dns seq_dns_records st_db set_db zt set_zt].
  - apply list_filter_iff. intros y. symmetry. apply Z.eqb_neq.
  - done.
  - done.
  - by apply Z.eqb_eq.
  - intros Hnd y Hy Hyi. apply Z.eqb_eq in Hyi.
    by rewrite (NoDup_key_inj dn_id _ y origin Hnd Hy Hin) by congruence.
Qed.

Lemma origin_of_Ok id o s s' : origin_of id s = (Ok o, s') ->
  s' = s /\ exists r, List.find (fun r => dn_id r =? id) (dns_records (zt (st_db s))) = Some r /\ dn_origin r = o.
Proof.
  unfold origin_of. intros [Hf ->]%query_outcome_Ok. apply or_err_Ok in Hf. split; [done|].
  destruct (List.find _ _) as [r|]; [|done]. injection Hf as <-. eauto.
Qed.

(** Every operation that succeeds changes the rows of its own side and raises the serial. *)
Lemma run_zone_op_Ok op u s s' : run_zone_op op s = (Ok u, s') ->
  exists at_ z, st_db s' = set_zt (set_serial (next_serial at_) z) (st_db s) /\
    zone_serial z = zone_serial (zt (st_db s)) /\ zone_change (administrative op) (zt (st_db s)) z.
Proof.
  destruct op as [r|origin r|id|id|name type]; cbn [run_zone_op administrative].
  - intros [r' Hr]%discard_Ok. unfold CreateDNSRecord in Hr. tx_inv.
    eapply insert_change; [done|done|by eapply validateDNSRecord_Ok].
  - intros [r' Hr]%discard_Ok. unfold CreateDiscoveredDNSRecord in Hr. tx_inv.
    eapply insert_change; [done|done|by eapply validateDNSRecord_Ok].
  - intros Hr. unfold DeleteDNSRecord in Hr. tx_inv.
    match goal with Ho : origin_of _ _ = _ |- _ => apply origin_of_Ok in Ho as (-> & r & Hf & <-) end.
    eapply delete_id_change; [done| |done]. by destruct (dn_origin r).
  - intros Hr. unfold DeleteDiscoveredDNSRecord in Hr. tx_inv.
    match goal with Ho : origin_of _ _ = _ |- _ => apply origin_of_Ok in Ho as (-> & r & Hf & <-) end.
    eapply delete_id_change; done.
  - intros [n Hr]%discard_Ok. unfold DeleteDNSRecordsAt in Hr. tx_inv.
      match goal with Hb : bumpZoneSerial _ = _ |- _ => apply bumpZoneSerial_Ok in Hb as [at_ Hb]; rename Hb into Hd end.
    match goal with Hq : ?rows = filter _ _, Hl : (List.length ?rows =? 0)%nat = false |- _ =>
      destruct rows as [|row rest]; [discriminate Hl|] end.
    assert (Hrow : row ∈ filter (fun r => deleted_at name type r = true) (dns_records (zt (st_db s)))) by (rewrite <- H0; left).
    apply list_elem_of_filter in Hrow as [Hd1 Hin].
    eexists at_, _. split_and!; [exact Hd|reflexivity|].
    apply (change_delete _ _ _ (deleted_at name type) row); [done|done|done|done|].
    intros _ y _ Hy. unfold deleted_at in Hy. by apply andb_true_iff in Hy as [[_ ?]%andb_true_iff _].
Qed.

Lemma atomic_zone_op op : atomic (run_zone_op op).
Proof.
  assert (Hd : forall A (m : Tx A), atomic m -> atomic (discard m)).
  { intros A m Hm s0 r s1. unfold discard, mbind, M_bind. destruct (m s0) as [[a|e|] s2] eqn:E;
      intros [= <- <-]; [by left; exists tt| |]; apply Hm in E as [[a Ha]|E]; [done|by right|done|by right]. }
  destruct op; cbn [run_zone_op]; try apply Hd;
    unfold CreateDNSRecord, CreateDiscoveredDNSRecord, DeleteDNSRecord, DeleteDiscoveredDNSRecord, DeleteDNSRecordsAt, insertDNSRecord;
    eauto 10 with ldapkdc.
Qed.

Lemma zone_change_ok admin z z' n : zone_change admin z z' -> zone_ok z -> zone_ok (set_serial n z').
Proof.
  intros [row Hrows Hid Hseq Hnew _ Hn Ht Hv Httl|P row Hrows Hseq _ _ _] [Z1 Z2 Z3 Z4 Z5];
    split; cbn [dns_records set_serial seq_dns_records]; rewrite ?Hrows, ?Hseq.
  - rewrite fmap_app. apply NoDup_app. split_and!; [done| |apply NoDup_singleton].
    intros i (r & -> & Hr)%list_elem_of_fmap Hi. apply list_elem_of_singleton in Hi. specialize (Z2 r Hr). lia.
  - intros r [Hr| ->%list_elem_of_singleton]%elem_of_app; [specialize (Z2 r Hr)|]; lia.
  - lia.
  - rewrite fmap_app. apply NoDup_app. split_and!; [done| |apply NoDup_singleton].
    intros k Hk ->%list_elem_of_singleton. done.
  - intros r [Hr| ->%list_elem_of_singleton]%elem_of_app; [by apply Z5|done].
  - by apply NoDup_map_filter.
  - intros r [_ Hr]%list_elem_of_filter. by apply Z2.
  - done.
  - by apply NoDup_map_filter.
  - intros r [_ Hr]%list_elem_of_filter. by apply Z5.
Qed.

Lemma zone_change_owned admin z z' n : zone_change admin z z' -> zone_ok z ->
  owned (negb admin) (set_serial n z') = owned (negb admin) z.
Proof.
  intros Hc Hok. unfold owned. destruct Hc as [row Hrows _ _ _ Ho _ _ _ _|P row Hrows _ _ _ Hown];
    cbn [dns_records set_serial]; rewrite Hrows.
  - rewrite filter_app, (filter_none _ [row]); [by rewrite app_nil_r|].
    intros x ->%list_elem_of_singleton. rewrite Ho. by destruct admin.
  - rewrite list_filter_filter. apply filter_ext_elem. intros x Hx. split; [by intros [? _]|].
    intros Hne. split; [done|]. destruct (P x) eqn:E; [|done].
    rewrite (Hown (zo_ids _ Hok) x Hx E) in Hne. by destruct admin.
Qed.

Lemma zone_change_rows admin z z' : zone_change admin z z' -> dns_records z' <> dns_records z.
Proof.
  intros [row Hrows _ _ _ _ _ _ _ _|P row Hrows _ Hin HP _] E; rewrite Hrows in E.
  - apply (f_equal List.length) in E. rewrite length_app in E. simpl in E. lia.
  - rewrite <- E in Hin. apply list_elem_of_filter in Hin as [? _]. congruence.
Qed.

(** One operation, whatever its result: nothing, or a change of the rows under a higher serial. *)
Lemma run_zone_op_cases op r s s' : run_zone_op op s = (r, s') ->
  st_db s' = st_db s \/
  exists z n, zone_change (administrative op) (zt (st_db s)) z /\ zone_serial (zt (st_db s)) < n /\
    st_db s' = set_zt (set_serial (fun _ => n) z) (st_db s).
Proof.
  intros Hr. destruct (atomic_zone_op op _ _ _ Hr) as [[u ->]|?]; [right|by left].
  apply run_zone_op_Ok in Hr as (at_ & z & Hd & Hs & Hc). exists z, (next_serial at_ (zone_serial z)).
  split_and!; [done| |done]. rewrite <- Hs. apply next_serial_lt.
Qed.

Lemma zone_history_ok ops s s' : zone_history ops s s' -> zone_ok (zt (st_db s)) -> zone_ok (zt (st_db s')).
Proof.
  induction 1 as [|op ops s r s1 s2 Hr _ IH]; [done|]. intros Hok. apply IH.
  apply run_zone_op_cases in Hr as [->|(z & n & Hc & _ & ->)]; [done|]. by eapply zone_change_ok.
Qed.

Lemma zone_history_serial ops s s' : zone_history ops s s' ->
  zone_serial (zt (st_db s)) <= zone_serial (zt (st_db s')) /\
  (zone_serial (zt (st_db s')) = zone_serial (zt (st_db s)) -> st_db s' = st_db s).
Proof.
  induction 1 as [|op ops s r s1 s2 Hr _ [IH1 IH2]]; [done|].
  apply run_zone_op_cases in Hr as [E|(z & n & _ & Hn & E)]; rewrite E in *; [done|].
  cbn [zt set_zt zone_serial set_serial] in *. split; [lia|]. lia.
Qed.

(** Whatever operations the zone goes through, successful or not, its records keep their
    invariant (ids and name, type and value identify a record; every record has a name, a type, a
    value and a lifetime), and the serial tracks the zone: it never falls, and within 2^32 steps
    the 32-bit serial a secondary reads is the same exactly when nothing in the database moved. *)
Lemma zone_serial_tracks ops s s' :
  zone_ok (zt (st_db s)) -> zone_history ops s s' ->
  zone_ok (zt (st_db s')) /\ zone_serial (zt (st_db s)) <= zone_serial (zt (st_db s')) /\
  (zone_serial (zt (st_db s')) - zone_serial (zt (st_db s)) < 2 ^ 32 ->
   fst (ZoneSerial s') = fst (ZoneSerial s) <-> st_db s' = st_db s).
Proof.
  intros Hok Hh. split; [by eapply zone_history_ok|]. apply zone_history_serial in Hh as [Hle Heq]. split; [done|].
  intros Hw. unfold ZoneSerial, query, wrap. cbn [fst]. split; [|by intros ->].
  intros E. apply Ok_inj in E. apply Heq.
  assert (Hm : (zone_serial (zt (st_db s')) - zone_serial (zt (st_db s))) mod 2 ^ 32 = 0).
  { rewrite Zminus_mod, <- E, Z.sub_diag. done. }
  rewrite Z.mod_small in Hm by lia. lia.
Qed.

Lemma zone_history_owned admin ops s s' :
  zone_ok (zt (st_db s)) -> zone_history ops s s' -> Forall (fun op => administrative op = admin) ops ->
  owned (negb admin) (zt (st_db s')) = owned (negb admin) (zt (st_db s)).
Proof.
  intros Hok Hh. induction Hh as [|op ops s r s1 s2 Hr _ IH]; [done|]. intros [Ha Hops]%Forall_cons.
  apply run_zone_op_cases in Hr as [E|(z & n & Hc & _ & E)]; rewrite E in IH; [by apply IH|].
  cbn [zt set_zt] in IH. rewrite IH; [|by eapply zone_change_ok|done].
  rewrite <- Ha. apply zone_change_owned; [by rewrite Ha in *|done].
Qed.

(** The records of the zone have owners. Whatever administrators do, a record a source
    registered stays in the zone exactly as it was; whatever is registered and unregistered, the
    records of administrators stay as they were. *)
Lemma zone_ownership admin ops s s' :
  zone_ok (zt (st_db s)) -> zone_history ops s s' -> Forall (fun op => administrative op = admin) ops ->
  owned (negb admin) (zt (st_db s')) = owned (negb admin) (zt (st_db s)).
Proof. apply zone_history_owned. Qed.
End ZoneFacts.

(** ** A sample zone *)

Definition web_record : DNSRecord := mkDNSRecord 0 "WWW.Example.com." "a" 300 "192.0.2.10" "" zeroTime zeroTime.
Definition sample_zone_ops : list zone_op :=
  [op_create web_record; op_register "docker:1" web_record; op_delete_at "www.example.com" "A"; op_unregister 1].

Lemma empty_zone_ok : zone_ok (zt (st_db empty_state)).
Proof.
  split; cbn; try apply NoDup_nil; try lia; by intros r ?%elem_of_nil.
Qed.

Section ZoneSamples.
#[local] Existing Instance sample_clock.

Fixpoint after_ops (ops : list zone_op) (s : St) : St :=
  match ops with [] => s | op :: ops' => after_ops ops' (snd (run_zone_op op s)) end.

Lemma after_ops_history ops s : zone_history ops s (after_ops ops s).
Proof.
  revert s. induction ops as [|op ops IH]; intros s; [constructor|]. cbn [after_ops].
  destruct (run_zone_op op s) as [r s1] eqn:E. econstructor; [exact E|]. apply IH.
Qed.

(** A record created and removed: the zone is empty again and the serial has moved. *)
Lemma zone_serial_tracks_witness :
  let s' := after_ops sample_zone_ops empty_state in
  dns_records (zt (st_db s')) = [] /\ zone_ok (zt (st_db s')) /\ fst (ZoneSerial s') <> fst (ZoneSerial empty_state).
Proof.
  destruct (zone_serial_tracks sample_zone_ops empty_state _ empty_zone_ok (after_ops_history _ _)) as (Hok & _ & Heq).
  split; [by vm_compute|]. split; [exact Hok|]. intros E. apply Heq in E; vm_compute in E; congruence.
Defined.

(** A registered record outlives the deletion of everything at its name. *)
Lemma zone_ownership_witness :
  let s := after_ops [op_register "docker:1" web_record] empty_state in
  let s' := after_ops [op_create web_record; op_delete_at "www.example.com" ""; op_delete 1] s in
  List.length (owned false (zt (st_db s))) = 1%nat /\ owned false (zt (st_db s')) = owned false (zt (st_db s)).
Proof.
  split; [by vm_compute|].
  eapply (zone_ownership true); [|apply after_ops_history|repeat constructor].
  eapply zone_history_ok; [apply after_ops_history|apply empty_zone_ok].
Defined.
End ZoneSamples.
