(* ===== verification/Dns.v ===== *)
(** * The DNS server: package [dnssrv], zone.go and server.go

    One query in, one reply out. The records the server maintains itself are computed from its
    configuration, the others are read from the store. The listeners and the wire format belong to
    the DNS library, of which the class [DnsLib] states what the code uses. *)

From S2P Require Import Prelude Text Netip Names Keytab Model IdRange Db Principals PrincipalFacts Zone.

Definition TypeA : Z := 1.
Definition TypeNS : Z := 2.
Definition TypeCNAME : Z := 5.
Definition TypeSOA : Z := 6.
Definition TypePTR : Z := 12.
Definition TypeTXT : Z := 16.
Definition TypeAAAA : Z := 28.
Definition TypeSRV : Z := 33.
Definition TypeANY : Z := 255.
Definition ClassINET : Z := 1.
Definition OpcodeQuery : Z := 0.
Definition RcodeSuccess : Z := 0.
Definition RcodeNameError : Z := 3.
Definition RcodeNotImplemented : Z := 4.
Definition RcodeRefused : Z := 5.

(** Resource records: the header and the data of the types the server builds itself; the data of a
    record parsed from text is the library's. *)
Inductive RData : Type :=
| rd_SOA (ns mbox : string) (serial refresh retry expire minttl : Z)
| rd_NS (ns : string)
| rd_address (octets : bytes)
| rd_TXT (txt : list string)
| rd_SRV (priority weight port : Z) (target : string)
| rd_PTR (ptr : string)
| rd_parsed (text : string).

Record RR : Type := mkRR { rr_Name : string; rr_Rrtype : Z; rr_Class : Z; rr_Ttl : Z; rr_Data : RData }.

(** What the code uses of the DNS library: [dns.Fqdn], [dns.NewRR] (an error, no record, or a
    record) and [dns.StringToType]. *)
Class DnsLib : Type := {
  Fqdn : string -> string;
  NewRR : string -> option (option RR);
  StringToType : string -> option Z;
}.

(** [Service] and [Config]. *)
Record Service : Type := mkService { svc_Names : list string; svc_Port : Z }.

Record DnsConfig : Type := mkDnsConfig {
  dc_Realm : string;
  dc_Zone : string;
  dc_RealmZone : string;
  dc_ExtraZones : list string;
  dc_ReverseZones : list string;
  dc_Hostname : string;
  dc_Addresses : list string;
  dc_Mailbox : string;
  dc_TTL : Duration;
  dc_Services : list Service;
}.

(** [Config.normalize]. *)
Definition normalize (c : DnsConfig) : option DnsConfig :=
  let realm := ToUpper (TrimSpace (dc_Realm c)) in
  let zone := NormalizeDNSName (dc_Zone c) in
  let realmZone := NormalizeDNSName (dc_RealmZone c) in
  let hostname := NormalizeDNSName (dc_Hostname c) in
  if is_empty zone then None
  else
    let realmZone := if is_empty realmZone then NormalizeDNSName realm else realmZone in
    let realmZone := if is_empty realmZone then zone else realmZone in
    if is_empty hostname then None
    else
      let ttl := if dc_TTL c <=? 0 then 3600 * second else dc_TTL c in
      let mailbox := if is_empty (dc_Mailbox c) then "hostmaster@" +:+ zone else dc_Mailbox c in
      if forallb (fun a => bool_decide (is_Some (ParseAddr a))) (dc_Addresses c)
      then Some (mkDnsConfig realm zone realmZone (dc_ExtraZones c) (NormalizeDNSName <$> dc_ReverseZones c)
             hostname (dc_Addresses c) mailbox ttl (dc_Services c))
      else None.

(** [strings.ReplaceAll(local, ".", `\.`)]. *)
Fixpoint escape_dots (s : string) : string :=
  match s with
  | EmptyString => EmptyString
  | String c s' => if Ascii.eqb c dot then String "\"%char (String c (escape_dots s')) else String c (escape_dots s')
  end.

Definition AsSlice (a : Addr) : bytes :=
  match a with
  | V4 a b c d => byte_of_Z <$> [a; b; c; d]
  | V6 gs _ => flat_map (put_be 2) gs
  end.

Definition inZone (name zone : string) : bool := String.eqb name zone || HasSuffix name ("." +:+ zone).

(** [InZone]. *)
Definition InZone (name : string) (zones : list string) : bool :=
  existsb (fun z => inZone (NormalizeDNSName name) (NormalizeDNSName z)) zones.

(** [addrFromARPA]. *)
Definition hex_label (l : string) : bool :=
  match l with String c EmptyString => bool_decide (is_Some (hex_digit c)) | _ => false end.

(** The text of the address under ip6.arpa: the labels from the last to the first, a colon after
    every fourth one but the last. *)
Fixpoint nibbles (i : nat) (labels : list string) : string :=
  match labels with
  | [] => EmptyString
  | l :: labels' => l +:+ (if ((i mod 4 =? 0) && (0 <? i))%nat then ":" else EmptyString) +:+ nibbles (pred i) labels'
  end.

Definition addrFromARPA (name : string) : option Addr :=
  let name := NormalizeDNSName name in
  match CutSuffix name ".in-addr.arpa" with
  | Some rest =>
      let labels := split_char dot rest in
      if negb (List.length labels =? 4)%nat then None
      else a ← ParseAddr (Join "." (rev labels)); if Is4 a then Some a else None
  | None =>
      rest ← CutSuffix name ".ip6.arpa";
      let labels := split_char dot rest in
      if negb (List.length labels =? 32)%nat then None
      else if negb (forallb hex_label labels) then None
      else a ← ParseAddr (nibbles 31 (rev labels)); if Is6 a then Some a else None
  end.

(** [matching]: a CNAME answers for any type. *)
Definition answers (qtype t : Z) : bool :=
  (qtype =? TypeANY) || (t =? qtype) || ((t =? TypeCNAME) && negb (qtype =? TypeCNAME)).
Definition matching (records : list RR) (qtype : Z) : list RR :=
  filter (fun rr => answers qtype (rr_Rrtype rr) = true) records.

(** A query, and the parts of a reply the server decides. *)
Record Question : Type := mkQuestion { q_Name : string; q_Qtype : Z; q_Qclass : Z }.
Record Msg : Type := mkMsg { m_Opcode : Z; m_Question : list Question }.
Record Reply : Type := mkReply { m_Rcode : Z; m_Answer : list RR; m_Ns : list RR }.

Section Server.
Context `{DnsLib} (cfg : DnsConfig).

Definition soaMailbox (mailbox : string) : string :=
  match Cut "@"%char mailbox with
  | None => Fqdn mailbox
  | Some (local, domain) => Fqdn (escape_dots local +:+ "." +:+ domain)
  end.

Definition ttl : Z := wrap 32 (Z.quot (dc_TTL cfg) second).

(** [serial]: a zone never edited answers 1. *)
Definition serial (d : DB) : Z :=
  let n := wrap 32 (zone_serial (zt d)) in if n =? 0 then 1 else n.

Definition soa (d : DB) (zone : string) : RR :=
  mkRR (Fqdn zone) TypeSOA ClassINET ttl
    (rd_SOA (Fqdn (dc_Hostname cfg)) (soaMailbox (dc_Mailbox cfg)) (serial d) 3600 900 604800 ttl).

Definition ns (name : string) : RR := mkRR (Fqdn name) TypeNS ClassINET ttl (rd_NS (Fqdn (dc_Hostname cfg))).

(** The address records of the server's own host. *)
Definition own_address (a : string) : option RR :=
  addr ← ParseAddr a;
  Some (mkRR (Fqdn (dc_Hostname cfg)) (if Is4 addr then TypeA else TypeAAAA) ClassINET ttl (rd_address (AsSlice addr))).

Definition service_records (name : string) : list RR :=
  flat_map (fun svc =>
    if svc_Port svc <=? 0 then []
    else flat_map (fun label =>
      if negb (String.eqb name (label +:+ "." +:+ dc_RealmZone cfg)) && negb (String.eqb name (label +:+ "." +:+ dc_Zone cfg)) then []
      else [mkRR (Fqdn name) TypeSRV ClassINET ttl (rd_SRV 0 100 (wrap 16 (svc_Port svc)) (Fqdn (dc_Hostname cfg)))])
      (svc_Names svc)) (dc_Services cfg).

Definition generated (d : DB) (name : string) : list RR :=
  (if String.eqb name (dc_Zone cfg) then [soa d (dc_Zone cfg); ns (dc_Zone cfg)]
   else if String.eqb name (dc_RealmZone cfg) then [soa d name; ns name]
   else if existsb (String.eqb name) (dc_ExtraZones cfg) then [soa d name; ns name]
   else if String.eqb name (dc_Hostname cfg) then omap own_address (dc_Addresses cfg)
   else if String.eqb name ("_kerberos." +:+ dc_Zone cfg) || String.eqb name ("_kerberos." +:+ dc_RealmZone cfg) then
     [mkRR (Fqdn name) TypeTXT ClassINET ttl (rd_TXT [dc_Realm cfg])]
   else []) ++ service_records name.

(** The text a stored record is parsed from. *)
Definition record_text (name : string) (ttl : Z) (type value : string) : string :=
  Fqdn name +:+ " " +:+ pretty ttl +:+ " IN " +:+ type +:+ " " +:+ value.

Definition stored (d : DB) (name : string) : list RR :=
  omap (fun r => default None (NewRR (record_text (r_Name r) (r_TTL r) (r_Type r) (r_Value r)))) (records_at d name).

(** [records]: a stored record wins over a generated one of its type. *)
Definition records (d : DB) (name : string) : list RR :=
  let st := stored d name in
  st ++ filter (fun rr => rr_Rrtype rr ∉ rr_Rrtype <$> st) (generated d name).

Definition ptr (qname target : string) : RR := mkRR (Fqdn qname) TypePTR ClassINET ttl (rd_PTR (Fqdn target)).

Definition reverseNames (d : DB) (qname : string) : list RR :=
  match addrFromARPA qname with
  | None => []
  | Some addr =>
      let own := flat_map (fun a => if bool_decide (ParseAddr a = Some addr) then [ptr qname (dc_Hostname cfg)] else [])
                   (dc_Addresses cfg) in
      fold_left (fun out n =>
        if String.eqb (Fqdn n) (Fqdn (dc_Hostname cfg)) && (0 <? List.length out)%nat then out
        else out ++ [ptr qname n]) (address_names d addr) own
  end.

Definition zoneFor (name : string) : option (string * bool) :=
  if inZone name (dc_Zone cfg) then Some (dc_Zone cfg, false)
  else if inZone name (dc_RealmZone cfg) then Some (dc_RealmZone cfg, false)
  else match List.find (inZone name) (dc_ExtraZones cfg) with
       | Some z => Some (z, false)
       | None => match List.find (inZone name) (dc_ReverseZones cfg) with
                 | Some z => Some (z, true)
                 | None => None
                 end
       end.

Definition answerForward (d : DB) (name zone : string) (qtype : Z) : Reply :=
  let rs := records d name in
  if (List.length rs =? 0)%nat then mkReply RcodeNameError [] [soa d zone]
  else
    let ans := matching rs qtype in
    mkReply RcodeSuccess ans (if (List.length ans =? 0)%nat then [soa d zone] else []).

(** The authority of a reverse zone, under its own name. *)
Definition reverse_soa (d : DB) (zone : string) : RR :=
  let s := soa d (dc_Zone cfg) in mkRR (Fqdn zone) (rr_Rrtype s) (rr_Class s) (rr_Ttl s) (rr_Data s).

Definition reverseApex (d : DB) (zone : string) : list RR := [reverse_soa d zone; ns zone].

Definition answerReverse (d : DB) (name zone : string) (qtype : Z) : Reply :=
  let reply ans := mkReply RcodeSuccess ans (if (List.length ans =? 0)%nat then [reverse_soa d zone] else []) in
  if String.eqb name zone then reply (matching (reverseApex d zone) qtype)
  else
    let rs := reverseNames d name in
    if (List.length rs =? 0)%nat then mkReply RcodeNameError [] [reverse_soa d zone]
    else reply (matching rs qtype).

(** [answer]. An empty zone name counts as none, as in the code. *)
Definition answer (d : DB) (r : Msg) : Reply :=
  match m_Question r with
  | [q] =>
      if negb (m_Opcode r =? OpcodeQuery) || negb (q_Qclass q =? ClassINET) then mkReply RcodeNotImplemented [] []
      else
        let name := NormalizeDNSName (q_Name q) in
        match zoneFor name with
        | Some (zone, reverse) =>
            if is_empty zone then mkReply RcodeRefused [] []
            else if reverse then answerReverse d name zone (q_Qtype q)
            else answerForward d name zone (q_Qtype q)
        | None => mkReply RcodeRefused [] []
        end
  | _ => mkReply RcodeNotImplemented [] []
  end.

(** [ValidateRecord]: whether a record would be servable. *)
Definition ValidateRecord (r : DNSRecord) : bool :=
  let name := NormalizeDNSName (r_Name r) in
  let recordType := ToUpper (TrimSpace (r_Type r)) in
  negb (is_empty name) && (0 <? r_TTL r) && bool_decide (is_Some (StringToType recordType)) &&
  match NewRR (record_text name (r_TTL r) recordType (TrimSpace (r_Value r))) with
  | Some (Some _) => true
  | _ => false
  end.
End Server.
