(* ===== verification/DnsFacts.v ===== *)
(** * The DNS server, proofs: what it answers, and that reverse names follow the address records *)

From S2P Require Import Prelude Text Netip Names Keytab Model IdRange Db Principals PrincipalFacts Zone ZoneFacts Dns.

(** ** Reverse names *)

(** The name RFC 1035 gives an IPv4 address. *)
Definition arpa4 (a b c d : Z) : string := Join "." (pretty <$> [d; c; b; a]) +:+ ".in-addr.arpa".

(** Four hexadecimal digits, most significant first. *)
Record quad : Type := mkQuad { n3 : Z; n2 : Z; n1 : Z; n0 : Z }.
Definition quad_digits (q : quad) : list Z := [n3 q; n2 q; n1 q; n0 q].
Definition quad_value (q : quad) : Z := hex_value (quad_digits q).
Definition quad_text (q : quad) (rest : string) : string :=
  String (hex_char (n3 q)) (String (hex_char (n2 q)) (String (hex_char (n1 q)) (String (hex_char (n0 q)) rest))).
Definition quad_ok (q : quad) : Prop := Forall (fun d => 0 <= d < 16) (quad_digits q).

Definition nibble_label (d : Z) : string := String (hex_char d) EmptyString.

(** The name RFC 3596 gives the IPv6 address of eight groups. *)
Definition arpa6 (qs : list quad) : string :=
  Join "." (rev (nibble_label <$> flat_map quad_digits qs)) +:+ ".ip6.arpa".

(** Characters of a normal name. *)
Definition dns_char (c : ascii) : bool :=
  is_digit c || ((97 <=? nat_of_ascii c) && (nat_of_ascii c <=? 122))%nat || Ascii.eqb c dot || Ascii.eqb c "-".

Lemma dns_char_lower c : dns_char c = true -> Ascii.eqb (lower_ascii c) c = true.
Proof. destruct c as [[] [] [] [] [] [] [] []]; vm_compute; congruence. Qed.

Lemma dns_char_space c : dns_char c = true -> negb (is_space c) = true.
Proof. destruct c as [[] [] [] [] [] [] [] []]; vm_compute; congruence. Qed.

Lemma NormalizeDNSName_id s c : dns_char c = true -> c <> dot -> all_chars dns_char s = true ->
  NormalizeDNSName (s +:+ String c EmptyString) = s +:+ String c EmptyString.
Proof.
  intros Hc Hdot Hs. unfold NormalizeDNSName.
  assert (Hall : all_chars dns_char (s +:+ String c EmptyString) = true) by (rewrite all_chars_app, Hs; simpl; by rewrite Hc).
  rewrite TrimSpace_id by (eapply all_chars_impl; [apply dns_char_space|done]).
  assert (TrimSuffix (s +:+ String c EmptyString) "." = s +:+ String c EmptyString) as ->.
  { unfold TrimSuffix. destruct (CutSuffix _ _) as [p|] eqn:E; [|done].
    apply CutSuffix_spec in E. by apply string_snoc_inj in E as [_ ->]. }
  apply ToLower_id. eapply all_chars_impl; [apply dns_char_lower|done].
Qed.

(** A normal name under a suffix that ends in "arpa". *)
Lemma NormalizeDNSName_arpa s suf : all_chars dns_char s = true -> all_chars dns_char suf = true ->
  NormalizeDNSName (s +:+ suf +:+ "arpa") = s +:+ suf +:+ "arpa".
Proof.
  intros Hs Hsuf. replace (s +:+ suf +:+ "arpa") with ((s +:+ suf +:+ "arp") +:+ String "a"%char EmptyString)
    by (by rewrite !string_app_assoc).
  apply NormalizeDNSName_id; [done|done|]. by rewrite !all_chars_app, Hs, Hsuf.
Qed.

Lemma digit_dns c : is_digit c = true -> dns_char c = true.
Proof. intros Hc. unfold dns_char. by rewrite Hc. Qed.

Lemma pretty_octet_dns z : octet z -> all_chars dns_char (pretty z) = true /\ contains_char dot (pretty z) = false.
Proof.
  intros Hz. split; [|by apply pretty_Z_no_char].
  eapply all_chars_impl; [apply digit_dns|]. apply pretty_Z_digits. unfold octet in Hz. lia.
Qed.

Lemma addrFromARPA_v4 a b c d : octet a -> octet b -> octet c -> octet d ->
  addrFromARPA (arpa4 a b c d) = Some (V4 a b c d).
Proof.
  intros Ha Hb Hc Hd. unfold addrFromARPA, arpa4.
  assert (Hw : Forall (fun w => all_chars dns_char w = true) (pretty <$> [d; c; b; a]))
    by (repeat constructor; by apply pretty_octet_dns).
  rewrite (NormalizeDNSName_arpa (Join "." (pretty <$> [d; c; b; a])) ".in-addr.") by (done || by apply all_chars_Join).
  rewrite (proj2 (CutSuffix_spec _ ".in-addr.arpa" (Join "." (pretty <$> [d; c; b; a])))) by done.
  rewrite (split_char_Join dot); [|done|repeat constructor; by apply pretty_octet_dns].
  cbn [fmap list_fmap List.length negb Nat.eqb rev app].
  change [pretty a; pretty b; pretty c; pretty d] with (pretty <$> [a; b; c; d]).
  fold (string4 a b c d). rewrite ParseAddr_string4 by done. done.
Qed.

Lemma hex_char_ok d : 0 <= d < 16 ->
  hex_digit (hex_char d) = Some d /\ dns_char (hex_char d) = true /\ hex_char d <> dot /\
  Ascii.eqb (hex_char d) "." || Ascii.eqb (hex_char d) ":" || Ascii.eqb (hex_char d) "%" = false /\ hex_char d <> ":"%char.
Proof.
  intros Hd. assert (d = 0 \/ d = 1 \/ d = 2 \/ d = 3 \/ d = 4 \/ d = 5 \/ d = 6 \/ d = 7 \/ d = 8 \/ d = 9 \/ d = 10 \/
    d = 11 \/ d = 12 \/ d = 13 \/ d = 14 \/ d = 15) as Hcases by lia.
  repeat destruct Hcases as [->|Hcases]; try subst; by vm_compute.
Qed.

Lemma quad_ok_digits q : quad_ok q -> 0 <= n3 q < 16 /\ 0 <= n2 q < 16 /\ 0 <= n1 q < 16 /\ 0 <= n0 q < 16.
Proof. unfold quad_ok, quad_digits. intros H. by inversion_clear H as [|? ? ? H1]; inversion_clear H1 as [|? ? ? H2]; inversion_clear H2 as [|? ? ? H3]; inversion_clear H3. Qed.

(** A group followed by something that is not a hexadecimal digit. *)
Lemma hex_prefix_quad q rest : quad_ok q -> fst (hex_prefix rest) = [] -> snd (hex_prefix rest) = rest ->
  hex_prefix (quad_text q rest) = (quad_digits q, rest).
Proof.
  intros (H3 & H2 & H1 & H0)%quad_ok_digits Hf Hs. unfold quad_text. cbn [hex_prefix].
  rewrite !(fun d H => proj1 (hex_char_ok d H)) by done. destruct (hex_prefix rest) as [l r]. simpl in Hf, Hs. by subst.
Qed.

(** The groups of a full address, joined by colons. *)
Fixpoint groups_text (qs : list quad) : string :=
  match qs with
  | [] => EmptyString
  | [q] => quad_text q EmptyString
  | q :: qs' => quad_text q (String ":" (groups_text qs'))
  end.

Lemma parse_groups_text qs : forall fuel gs, (List.length qs <= fuel)%nat -> qs <> [] -> Forall quad_ok qs ->
  parse_groups fuel (groups_text qs) gs None = Some (gs ++ (quad_value <$> qs), None, EmptyString).
Proof.
  induction qs as [|q qs IH]; [done|]. intros [|fuel] gs Hle _ [Hq Hqs]%Forall_cons; [simpl in Hle; lia|].
  destruct qs as [|q' qs].
  - cbn [groups_text parse_groups]. by rewrite hex_prefix_quad.
  - change (groups_text (q :: q' :: qs)) with (quad_text q (String ":" (groups_text (q' :: qs)))).
    cbn [parse_groups]. rewrite hex_prefix_quad by done. cbn [quad_digits List.length Nat.eqb orb Nat.ltb Nat.leb].
    assert (exists t, groups_text (q' :: qs) = String (hex_char (n3 q')) t) as [t Ht] by (destruct qs; eexists; reflexivity).
    assert (Hc : hex_char (n3 q') <> ":"%char).
    { apply Forall_cons in Hqs as [Hq' _]. apply quad_ok_digits in Hq' as (H3 & _). by apply hex_char_ok. }
    specialize (IH fuel (gs ++ [hex_value (quad_digits q)])). rewrite Ht in IH |- *.
    destruct (hex_char (n3 q')) as [[] [] [] [] [] [] [] []]; try (by destruct Hc);
      (rewrite IH; [by rewrite <- app_assoc|simpl in *; lia|done|done]).
Qed.

Lemma nibbles_groups qs : List.length qs = 8%nat ->
  nibbles 31 (nibble_label <$> flat_map quad_digits qs) = groups_text qs.
Proof. intros Hl. do 8 (destruct qs as [|? qs]; [done|]). by destruct qs. Qed.

Lemma ParseAddr_groups qs : List.length qs = 8%nat -> Forall quad_ok qs ->
  ParseAddr (groups_text qs) = Some (V6 (quad_value <$> qs) EmptyString).
Proof.
  intros Hl Hqs. destruct qs as [|q qs]; [done|]. destruct qs as [|q' qs]; [done|].
  assert (Hq := Hqs). apply Forall_cons in Hq as [(H3 & H2 & H1 & H0)%quad_ok_digits _].
  set (text := groups_text (q :: q' :: qs)).
  assert (Ht : text = quad_text q (String ":" (groups_text (q' :: qs)))) by done.
  assert (addr_kind text = Some ":"%char) as Hk.
  { rewrite Ht. unfold quad_text. cbn [addr_kind].
    by rewrite !(fun d H => proj1 (proj2 (proj2 (proj2 (hex_char_ok d H))))) by done. }
  assert (Hperc : Cut "%"%char text = None).
  { assert (Hno : forall l, Forall quad_ok l -> Cut "%"%char (groups_text l) = None).
    { induction l as [|p l IH]; [done|]. intros [(P3 & P2 & P1 & P0)%quad_ok_digits Hls]%Forall_cons.
      assert (Hne : forall d, 0 <= d < 16 -> Ascii.eqb (hex_char d) "%" = false).
      { intros d Hd. destruct (hex_char_ok d Hd) as (_ & _ & _ & Hx & _). by apply orb_false_iff in Hx as [_ ?]. }
      destruct l as [|p' l]; [cbn [groups_text]; unfold quad_text; cbn [Cut]; by rewrite !Hne by done|].
      change (groups_text (p :: p' :: l)) with (quad_text p (String ":" (groups_text (p' :: l)))).
      unfold quad_text. cbn [Cut]. rewrite !Hne, IH by done. done. }
    by apply Hno. }
  unfold ParseAddr. rewrite Hk. unfold parseIPv6. rewrite Hperc. cbn [mbind option_bind].
  assert (CutPrefix text "::" = None) as ->.
  { unfold CutPrefix, HasPrefix. rewrite Ht. unfold quad_text. cbn [String.prefix].
    destruct (ascii_dec ":" (hex_char (n3 q))) as [E|]; [|done].
    destruct (hex_char_ok (n3 q) H3) as (_ & _ & _ & _ & Hc). by destruct Hc. }
  cbn [bool_decide decide andb]. rewrite bool_decide_false by done. cbn [andb].
  unfold text. rewrite parse_groups_text by (done || (rewrite Hl; lia)). cbn [mbind option_bind is_empty String.length Nat.eqb negb app].
  unfold expand. rewrite length_fmap, Hl. done.
Qed.

Lemma nibble_labels_ok qs : Forall quad_ok qs ->
  Forall (fun w => all_chars dns_char w = true /\ contains_char dot w = false /\ hex_label w = true) (nibble_label <$> flat_map quad_digits qs).
Proof.
  induction 1 as [|q qs Hq Hqs IH]; [constructor|]. cbn [flat_map]. rewrite fmap_app, Forall_app. split; [|done].
  apply Forall_fmap. eapply Forall_impl; [exact Hq|]. intros d Hd. destruct (hex_char_ok d Hd) as (Hh & Hc & Hdot & _).
  unfold compose, nibble_label. cbn [all_chars contains_char hex_label]. rewrite Hc, Hh.
  destruct (Ascii.eqb_spec (hex_char d) dot) as [|]; [done|]. split_and!; [done|done|]. by apply bool_decide_eq_true; eexists.
Qed.

Lemma addrFromARPA_v6 qs : List.length qs = 8%nat -> Forall quad_ok qs ->
  addrFromARPA (arpa6 qs) = Some (V6 (quad_value <$> qs) EmptyString).
Proof.
  intros Hl Hqs. assert (Hlab := nibble_labels_ok qs Hqs). unfold addrFromARPA, arpa6.
  set (labels := nibble_label <$> flat_map quad_digits qs) in *.
  assert (Hlen : List.length labels = 32%nat).
  { unfold labels. rewrite length_fmap. clear -Hl. do 8 (destruct qs as [|? qs]; [done|]). by destruct qs. }
  assert (Hrev : Forall (fun w => all_chars dns_char w = true /\ contains_char dot w = false /\ hex_label w = true) (rev labels))
    by (apply List.Forall_rev; exact Hlab).
  assert (NormalizeDNSName (Join "." (rev labels) +:+ ".ip6.arpa") = Join "." (rev labels) +:+ ".ip6.arpa") as ->.
  { apply (NormalizeDNSName_arpa (Join "." (rev labels)) ".ip6."); [|done].
    apply all_chars_Join; [done|]. eapply Forall_impl; [exact Hrev|]. naive_solver. }
  destruct (CutSuffix (Join "." (rev labels) +:+ ".ip6.arpa") ".in-addr.arpa") as [p|] eqn:E.
  { apply CutSuffix_spec in E. change ".ip6.arpa" with (".ip6" +:+ ".arpa") in E. change ".in-addr.arpa" with (".in-addr" +:+ ".arpa") in E.
    rewrite <- !string_app_assoc in E. apply string_app_inj_r in E.
    change ".ip6" with (".ip" +:+ "6") in E. change ".in-addr" with (".in-add" +:+ "r") in E.
    rewrite <- !string_app_assoc in E. by apply string_snoc_inj in E as [_ ?]. }
  rewrite (proj2 (CutSuffix_spec _ ".ip6.arpa" (Join "." (rev labels)))) by done. cbn [mbind option_bind].
  rewrite (split_char_Join dot); [| |eapply Forall_impl; [exact Hrev|]; naive_solver].
  2: { intros E2. apply (f_equal (@List.length string)) in E2. rewrite length_rev, Hlen in E2. done. }
  rewrite length_rev, Hlen. cbn [Nat.eqb negb].
  assert (forallb hex_label (rev labels) = true) as ->.
  { apply forallb_forall. intros w Hw%list_elem_of_In. rewrite Forall_forall in Hrev. by apply Hrev. }
  cbn [negb]. rewrite rev_involutive. unfold labels. rewrite nibbles_groups, ParseAddr_groups by done. done.
Qed.

(** A reverse query is read back to the very address it asks about, for every IPv4 and every
    IPv6 address under the names the RFCs give them. *)
Lemma addrFromARPA_inverts :
  (forall a b c d, octet a -> octet b -> octet c -> octet d -> addrFromARPA (arpa4 a b c d) = Some (V4 a b c d)) /\
  (forall qs, List.length qs = 8%nat -> Forall quad_ok qs ->
     addrFromARPA (arpa6 qs) = Some (V6 (quad_value <$> qs) EmptyString)).
Proof. split; [apply addrFromARPA_v4|apply addrFromARPA_v6]. Qed.

(** ** What the server answers *)

(** A query the server does not decline as such. *)
Definition standard_query (r : Msg) (q : Question) : Prop :=
  m_Opcode r = OpcodeQuery /\ m_Question r = [q] /\ q_Qclass q = ClassINET.

Section Answers.
Context `{DnsLib} (cfg : DnsConfig) (d : DB).

Definition all_zones : list string :=
  dc_Zone cfg :: dc_RealmZone cfg :: dc_ExtraZones cfg ++ dc_ReverseZones cfg.

Lemma zoneFor_Some name z rev : zoneFor cfg name = Some (z, rev) -> z ∈ all_zones /\ inZone name z = true.
Proof.
  unfold zoneFor, all_zones. intros Hz. repeat case_match; simplify_eq; (split; [|try done]);
    try (match goal with Hf : List.find _ _ = Some _ |- _ => apply find_Some_elem in Hf as [? ?] end; done);
    try (match goal with Hf : List.find _ _ = Some _ |- _ => apply find_Some_elem in Hf as [? _] end); set_solver.
Qed.

Lemma zoneFor_None name : zoneFor cfg name = None <-> forall z, z ∈ all_zones -> inZone name z = false.
Proof.
  split.
  - unfold zoneFor, all_zones. intros Hn z Hz. repeat case_match; simplify_eq.
    apply elem_of_cons in Hz as [->|Hz]; [done|]. apply elem_of_cons in Hz as [->|Hz]; [done|].
    apply elem_of_app in Hz as [Hz|Hz];
      match goal with Hf : List.find _ ?l = None, Hz : _ ∈ ?l |- _ => by apply (find_None_elem _ _ Hf) end.
  - intros Hall. destruct (zoneFor cfg name) as [[z rev]|] eqn:E; [|done].
    apply zoneFor_Some in E as [Hz Hin]. by rewrite (Hall z Hz) in Hin.
Qed.

Lemma answer_standard r q : standard_query r q ->
  answer cfg d r = match zoneFor cfg (NormalizeDNSName (q_Name q)) with
                   | Some (zone, reverse) =>
                       if is_empty zone then mkReply RcodeRefused [] []
                       else if reverse then answerReverse cfg d (NormalizeDNSName (q_Name q)) zone (q_Qtype q)
                       else answerForward cfg d (NormalizeDNSName (q_Name q)) zone (q_Qtype q)
                   | None => mkReply RcodeRefused [] []
                   end.
Proof. unfold answer. by intros (-> & -> & ->). Qed.

(** The shape of a reply from a zone. *)
Definition from_zone (zone : string) (qtype : Z) (a : Reply) : Prop :=
  (m_Rcode a = RcodeSuccess \/ m_Rcode a = RcodeNameError /\ m_Answer a = []) /\
  (forall rr, rr ∈ m_Answer a -> answers qtype (rr_Rrtype rr) = true) /\
  (m_Answer a = [] -> exists s, m_Ns a = [s] /\ rr_Rrtype s = TypeSOA /\ rr_Name s = Fqdn zone) /\
  (m_Answer a <> [] -> m_Ns a = []).

Lemma from_zone_reply zone qtype rs s : rr_Rrtype s = TypeSOA -> rr_Name s = Fqdn zone ->
  from_zone zone qtype (mkReply RcodeSuccess (matching rs qtype) (if (List.length (matching rs qtype) =? 0)%nat then [s] else [])).
Proof.
  intros Ht Hn. split_and!; cbn [m_Rcode m_Answer m_Ns]; [by left| | |].
  - by intros rr [? _]%list_elem_of_filter.
  - intros ->. cbn. eauto.
  - by destruct (matching rs qtype).
Qed.

Lemma from_zone_nxdomain zone qtype s : rr_Rrtype s = TypeSOA -> rr_Name s = Fqdn zone ->
  from_zone zone qtype (mkReply RcodeNameError [] [s]).
Proof. intros Ht Hn. split_and!; cbn; [by right|by intros rr ?%elem_of_nil|eauto|done]. Qed.

Lemma answerForward_shape name zone qtype : from_zone zone qtype (answerForward cfg d name zone qtype).
Proof. unfold answerForward. case_match; [by apply from_zone_nxdomain|by apply from_zone_reply]. Qed.

Lemma answerReverse_shape name zone qtype : from_zone zone qtype (answerReverse cfg d name zone qtype).
Proof.
  unfold answerReverse. case_match; [by apply from_zone_reply|].
  case_match; [by apply from_zone_nxdomain|by apply from_zone_reply].
Qed.

(** The server answers for its zones and for nothing else. A query is refused exactly when its
    name lies in none of them, so the server is no open resolver; any other query gets records of
    the type it asks for (or an alias, or any type for ANY), and when there are none, the start of
    authority of a zone the name is in; and whether a name exists does not depend on the type asked
    for. *)
Lemma answer_authoritative r q :
  standard_query r q -> Forall (fun z => z <> EmptyString) all_zones ->
  (m_Rcode (answer cfg d r) = RcodeRefused <-> forall z, z ∈ all_zones -> inZone (NormalizeDNSName (q_Name q)) z = false) /\
  (m_Rcode (answer cfg d r) <> RcodeRefused ->
     exists z, z ∈ all_zones /\ inZone (NormalizeDNSName (q_Name q)) z = true /\ from_zone z (q_Qtype q) (answer cfg d r)) /\
  (forall r' q', standard_query r' q' -> q_Name q' = q_Name q -> m_Rcode (answer cfg d r') = m_Rcode (answer cfg d r)).
Proof.
  intros Hq Hz. rewrite Forall_forall in Hz. split_and!.
  - rewrite (answer_standard r q Hq), <- zoneFor_None.
    destruct (zoneFor cfg _) as [[z rev]|] eqn:E; [|done]. split; [|done]. apply zoneFor_Some in E as [Hin _].
    assert (is_empty z = false) as -> by (destruct z; [by destruct (Hz _ Hin)|done]).
    destruct rev; [destruct (answerReverse_shape (NormalizeDNSName (q_Name q)) z (q_Qtype q)) as [[->|[-> _]] _]
                  |destruct (answerForward_shape (NormalizeDNSName (q_Name q)) z (q_Qtype q)) as [[->|[-> _]] _]]; done.
  - rewrite (answer_standard r q Hq). destruct (zoneFor cfg _) as [[z rev]|] eqn:E; [|done]. intros _.
    apply zoneFor_Some in E as [Hin Hiz]. exists z. split_and!; [done|done|].
    assert (is_empty z = false) as -> by (destruct z; [by destruct (Hz _ Hin)|done]).
    destruct rev; [apply answerReverse_shape|apply answerForward_shape].
  - intros r' q' Hq' Hn. rewrite (answer_standard r q Hq), (answer_standard r' q' Hq'), Hn.
    destruct (zoneFor cfg _) as [[z rev]|]; [|done]. destruct (is_empty z); [done|].
    destruct rev; unfold answerReverse, answerForward; repeat case_match; done.
Qed.

(** ** Reverse names follow the address records *)

Lemma reverse_fold qname names out :
  let r := fold_left (fun out n => if String.eqb (Fqdn n) (Fqdn (dc_Hostname cfg)) && (0 <? List.length out)%nat then out
                                   else out ++ [ptr cfg qname n]) names out in
  (forall rr, rr ∈ r -> rr ∈ out \/ exists n, n ∈ names /\ rr = ptr cfg qname n) /\
  (forall rr, rr ∈ out -> rr ∈ r) /\
  (forall n, n ∈ names -> Fqdn n <> Fqdn (dc_Hostname cfg) -> ptr cfg qname n ∈ r) /\
  (r = [] -> out = [] /\ names = []).
Proof.
  revert out. induction names as [|n names IH]; intros out; cbn [fold_left].
  { split_and!; [by left|done|by intros n ?%elem_of_nil|done]. }
  destruct (String.eqb (Fqdn n) (Fqdn (dc_Hostname cfg)) && (0 <? List.length out)%nat) eqn:E.
  - destruct (IH out) as (I1 & I2 & I3 & I4). apply andb_true_iff in E as [En El].
    split_and!; [|done| |].
    + intros rr [?|(m & Hm & ->)]%I1; [by left|]. right. exists m. split; [by right|done].
    + intros m [->|Hm]%elem_of_cons Hne; [by apply String.eqb_eq in En|by apply I3].
    + intros Hr. destruct (I4 Hr) as [-> _]. done.
  - destruct (IH (out ++ [ptr cfg qname n])) as (I1 & I2 & I3 & I4). split_and!.
    + intros rr [Ho|(m & Hm & ->)]%I1; [|right; exists m; split; [by right|done]].
      apply elem_of_app in Ho as [?| ->%list_elem_of_singleton]; [by left|]. right. exists n. split; [by left|done].
    + intros rr Hrr. apply I2. apply elem_of_app. by left.
    + intros m [->|Hm]%elem_of_cons Hne; [|by apply I3]. apply I2. apply elem_of_app. right. by apply list_elem_of_singleton.
    + intros Hr. destruct (I4 Hr) as [Ho _]. by destruct out.
Qed.

(** Whether an address is one the server was configured with. *)
Definition own (addr : Addr) : Prop := exists a, a ∈ dc_Addresses cfg /\ ParseAddr a = Some addr.

Lemma reverseNames_spec qname addr : addrFromARPA qname = Some addr ->
  (forall rr, rr ∈ reverseNames cfg d qname -> exists n, rr = ptr cfg qname n /\
     (own addr /\ n = dc_Hostname cfg \/ n ∈ address_names d addr)) /\
  (forall n, n ∈ address_names d addr -> Fqdn n <> Fqdn (dc_Hostname cfg) -> ptr cfg qname n ∈ reverseNames cfg d qname) /\
  (own addr -> ptr cfg qname (dc_Hostname cfg) ∈ reverseNames cfg d qname).
Proof.
  intros Ha. unfold reverseNames. rewrite Ha.
  match goal with |- context [fold_left _ ?names ?out] => destruct (reverse_fold qname names out) as (R1 & R2 & R3 & _) end.
  split_and!; [|done|].
  - intros rr [Ho|(n & Hn & ->)]%R1; [|exists n; auto]. apply list_elem_of_In, in_flat_map in Ho as (a & Hin & Hrr).
    apply list_elem_of_In in Hin. case_bool_decide as Ep; [|done]. destruct Hrr as [<-|[]].
    exists (dc_Hostname cfg). split; [done|]. left. split; [by exists a|done].
  - intros (a & Hin & Hp). apply R2, list_elem_of_In, in_flat_map. exists a. split; [by apply list_elem_of_In|].
    rewrite bool_decide_true by done. by left.
Qed.

(** A reverse query under a zone the server answers for lists the names whose address records
    hold the address, and no name that does not: every answer is a PTR to a name with an A or AAAA
    record of that address, or to the server's own host for an address it is configured with; and
    every other name with an A record of the address, written as Go prints addresses, is among
    them, as is the server's host for its own addresses. *)
Lemma reverse_follows_forward a b c e z r :
  octet a -> octet b -> octet c -> octet e ->
  zoneFor cfg (NormalizeDNSName (arpa4 a b c e)) = Some (z, true) -> z <> EmptyString -> NormalizeDNSName (arpa4 a b c e) <> z ->
  standard_query r (mkQuestion (arpa4 a b c e) TypePTR ClassINET) ->
  (forall rr, rr ∈ m_Answer (answer cfg d r) -> exists n, rr = ptr cfg (NormalizeDNSName (arpa4 a b c e)) n /\
     (own (V4 a b c e) /\ n = dc_Hostname cfg \/
      exists row, row ∈ dns_records (zt d) /\ dn_name row = n /\ address_type (dn_type row) = true /\ dn_value row = string4 a b c e)) /\
  (forall row, row ∈ dns_records (zt d) -> dn_type row = "A" -> dn_value row = string4 a b c e ->
     Fqdn (dn_name row) <> Fqdn (dc_Hostname cfg) ->
     ptr cfg (NormalizeDNSName (arpa4 a b c e)) (dn_name row) ∈ m_Answer (answer cfg d r)) /\
  (own (V4 a b c e) -> ptr cfg (NormalizeDNSName (arpa4 a b c e)) (dc_Hostname cfg) ∈ m_Answer (answer cfg d r)).
Proof.
  intros Ha Hb Hc He Hzone Hz Hne Hq.
  assert (Harpa : addrFromARPA (NormalizeDNSName (arpa4 a b c e)) = Some (V4 a b c e)).
  { assert (NormalizeDNSName (arpa4 a b c e) = arpa4 a b c e) as ->; [|by apply addrFromARPA_v4].
    apply (NormalizeDNSName_arpa _ ".in-addr."); [|done]. apply all_chars_Join; [done|].
    repeat constructor; by apply pretty_octet_dns. }
  apply reverseNames_spec in Harpa as (R1 & R2 & R3).
  assert (Hans : forall rr, rr ∈ m_Answer (answer cfg d r) <-> rr ∈ reverseNames cfg d (NormalizeDNSName (arpa4 a b c e))).
  { intros rr. rewrite (answer_standard r _ Hq). cbn [q_Name q_Qtype]. rewrite Hzone.
    assert (is_empty z = false) as -> by (by destruct z). unfold answerReverse.
    assert (String.eqb (NormalizeDNSName (arpa4 a b c e)) z = false) as -> by (by apply String.eqb_neq).
    destruct (List.length (reverseNames cfg d _) =? 0)%nat eqn:El; cbn [m_Answer].
    - apply Nat.eqb_eq, nil_length_inv in El. by rewrite El.
    - unfold matching. rewrite list_elem_of_filter. split; [by intros [_ ?]|]. intros Hrr. split; [|done].
      by destruct (R1 rr Hrr) as (n & -> & _). }
  split_and!.
  - intros rr Hrr%Hans. destruct (R1 rr Hrr) as (n & -> & [Ho|Hn]); exists n; (split; [done|]); [by left|right].
    unfold address_names in Hn. rewrite elem_of_sort_by in Hn. apply list_elem_of_fmap in Hn as (row & -> & [[Ht Hv] Hin]%list_elem_of_filter).
    exists row. done.
  - intros row Hin Ht Hv Hh. apply Hans, R2; [|done]. unfold address_names. apply elem_of_sort_by, list_elem_of_fmap.
    exists row. split; [done|]. apply list_elem_of_filter. by rewrite Ht.
  - intros Ho. by apply Hans, R3.
Qed.
End Answers.

(** ** A sample server *)

Definition toy_dns : DnsLib := {|
  Fqdn s := if HasSuffix s "." then s else s +:+ ".";
  NewRR text := Some (Some (mkRR text TypeA ClassINET 300 (rd_parsed text)));
  StringToType t := if address_type t then Some TypeA else None |}.

Definition sample_dns_config : DnsConfig :=
  mkDnsConfig "EXAMPLE.COM" "example.com" "example.com" ["public.test"] ["2.0.192.in-addr.arpa"] "kdc.example.com"
    ["192.0.2.1"] "hostmaster@example.com" (3600 * second) [mkService ["_kerberos._udp"] 88].

Definition sample_rows : list DNSRow :=
  [mkDNSRow 1 "www.example.com" "A" 300 "192.0.2.10" "" 0 0; mkDNSRow 2 "web.example.com" "A" 300 "192.0.2.10" "" 0 0].
Definition dns_db (rows : list DNSRow) : DB := set_zt (mkZTables rows 7 2 []) (st_db empty_state).

Definition ask_dns (name : string) (qtype : Z) : Msg := mkMsg OpcodeQuery [mkQuestion name qtype ClassINET].

Lemma answer_authoritative_witness :
  m_Rcode (answer (H := toy_dns) sample_dns_config (dns_db sample_rows) (ask_dns "WWW.Example.com." TypeA)) <> RcodeRefused /\
  m_Rcode (answer (H := toy_dns) sample_dns_config (dns_db sample_rows) (ask_dns "www.example.org" TypeA)) = RcodeRefused.
Proof.
  assert (Hz : Forall (fun z => z <> EmptyString) (all_zones sample_dns_config)) by (repeat constructor; discriminate).
  split.
  - intros E. apply (answer_authoritative (H := toy_dns) sample_dns_config (dns_db sample_rows) _ (mkQuestion "WWW.Example.com." TypeA ClassINET))
      with (z := "example.com") in E; [by vm_compute in E|done|exact Hz|by left].
  - apply (answer_authoritative (H := toy_dns) sample_dns_config (dns_db sample_rows) _ (mkQuestion "www.example.org" TypeA ClassINET)); [done|exact Hz|].
    intros z Hin. unfold all_zones in Hin. cbn in Hin. rewrite !elem_of_cons, elem_of_nil in Hin.
    destruct Hin as [->|[->|[->|[->|[]]]]]; by vm_compute.
Defined.

Lemma reverse_follows_forward_witness :
  ptr (H := toy_dns) sample_dns_config "10.2.0.192.in-addr.arpa" "www.example.com"
    ∈ m_Answer (answer (H := toy_dns) sample_dns_config (dns_db sample_rows) (ask_dns (arpa4 192 0 2 10) TypePTR)).
Proof.
  destruct (reverse_follows_forward (H := toy_dns) sample_dns_config (dns_db sample_rows) 192 0 2 10 "2.0.192.in-addr.arpa"
    (ask_dns (arpa4 192 0 2 10) TypePTR)) as (_ & Hf & _);
    [unfold octet; lia|unfold octet; lia|unfold octet; lia|unfold octet; lia|by vm_compute|done|by vm_compute|done|].
  exact (Hf (mkDNSRow 1 "www.example.com" "A" 300 "192.0.2.10" "" 0 0) ltac:(left) eq_refl eq_refl ltac:(by vm_compute)).
Defined.

(** The host is left out of the names of an address that only its stored record gives it when
    another name of that address comes first. *)
Lemma reverse_host_dropped :
  let rows := [mkDNSRow 1 "kdc.example.com" "A" 300 "192.0.2.10" "" 0 0; mkDNSRow 2 "alt.example.com" "A" 300 "192.0.2.10" "" 0 0] in
  rr_Data <$> reverseNames (H := toy_dns) sample_dns_config (dns_db rows) (arpa4 192 0 2 10) = [rd_PTR "alt.example.com."].
Proof. vm_compute. reflexivity. Qed.

(** An address written in another of its spellings has no reverse name, although it is served. *)
Lemma reverse_other_spelling :
  let rows := [mkDNSRow 1 "www.example.com" "AAAA" 300 "2001:DB8::1" "" 0 0] in
  ParseAddr "2001:DB8::1" = ParseAddr "2001:db8::1" /\
  option_map (address_names (dns_db rows)) (ParseAddr "2001:DB8::1") = Some [].
Proof. vm_compute. done. Qed.

(** A name with two trailing dots is stored under one it is never looked up by. *)
Lemma NormalizeDNSName_not_idempotent :
  NormalizeDNSName "www.." = "www." /\ NormalizeDNSName (NormalizeDNSName "www..") = "www".
Proof. vm_compute. done. Qed.
