(* ===== verification/DockerDns.v ===== *)
(** * Container registration: package [dockerdns]

    The registrations of the zone are brought into line with the running containers: the ones that
    are missing are made, the ones nothing stands behind any more are removed. The daemon's API and
    its event stream are I/O; [reconcile] takes what the daemon answered. Go ranges over a map in an
    order of its own choosing: the orders are parameters. *)

From S2P Require Import Prelude Text Hostport Netip Names Keytab Model IdRange Db Principals PrincipalFacts Zone Dns.

(** [netip.ParsePrefix] and [Prefix.Contains]. *)
Record Prefix : Type := mkPrefix { pf_Addr : Addr; pf_Bits : Z }.

Definition addr_value (a : Addr) : Z := get_be (AsSlice a).
Definition addr_bits (a : Addr) : Z := if Is4 a then 32 else 128.

Definition prefix_bits (s : string) : option Z :=
  match s with
  | String c (String _ _) => if ((49 <=? nat_of_ascii c) && (nat_of_ascii c <=? 57))%nat then ParseUint 63 s else None
  | _ => ParseUint 63 s
  end.

Definition ParsePrefix (s : string) : option Prefix :=
  match rev (split_char "/"%char s) with
  | bits :: ((_ :: _) as rest) =>
      a ← ParseAddr (Join "/" (rev rest));
      b ← prefix_bits bits;
      match a with
      | V6 _ (String _ _) => None
      | _ => if b <=? addr_bits a then Some (mkPrefix a b) else None
      end
  | _ => None
  end.

Definition prefix_contains (p : Prefix) (a : Addr) : bool :=
  match a with
  | V6 _ (String _ _) => false
  | _ => Bool.eqb (Is4 (pf_Addr p)) (Is4 a) &&
         (Z.shiftr (addr_value (pf_Addr p)) (addr_bits a - pf_Bits p) =? Z.shiftr (addr_value a) (addr_bits a - pf_Bits p))
  end.

Definition source : string := "docker".

(** [Config] and what [New] makes of it. *)
Record DockerConfig : Type := mkDockerConfig {
  dk_Zone : string;
  dk_TTL : Z;
  dk_names : list string;
  dk_prefixes : list Prefix;
}.

Fixpoint select_networks (networks : list string) : option (list string * list Prefix) :=
  match networks with
  | [] => Some ([], [])
  | n :: networks' =>
      if contains_char "/"%char n then
        p ← ParsePrefix n; '(names, prefixes) ← select_networks networks'; Some (names, p :: prefixes)
      else '(names, prefixes) ← select_networks networks'; Some (n :: names, prefixes)
  end.

Definition newDiscovery (networks : list string) (zone : string) (ttl : Z) : option DockerConfig :=
  '(names, prefixes) ← select_networks networks;
  Some (mkDockerConfig (NormalizeDNSName zone) ttl names prefixes).

(** [dialer]: the socket of the daemon when it is reached over one, and the base of its addresses. *)
Definition dialer `{UrlLib} (endpoint : string) : option (option string * string) :=
  u ← url_Parse endpoint;
  if String.eqb (url_Scheme u) "unix" then Some (Some (url_Path u), "http://docker")
  else if String.eqb (url_Scheme u) "tcp" || String.eqb (url_Scheme u) "http" then Some (None, "http://" +:+ url_Host u)
  else None.

(** [container]: the networks with the address on each, in the order they are ranged over. *)
Record container : Type := mkContainer { c_ID : string; c_Names : list string; c_Networks : list (string * string) }.

(** [identity]. *)
Definition identity (r : DNSRecord) : string := r_Origin r +:+ "|" +:+ r_Name r +:+ "|" +:+ r_Value r.

Section Docker.
Context `{Clock, DnsLib} (cfg : DockerConfig).

Definition selects (network : string) (addr : Addr) : bool :=
  existsb (String.eqb network) (dk_names cfg) || existsb (fun p => prefix_contains p addr) (dk_prefixes cfg).

(** The record of one container on one network. *)
Definition registration (c : container) (name network ip : string) : option DNSRecord :=
  addr ← ParseAddr ip;
  if negb (Is4 addr) || negb (selects network addr) then None
  else
    let rec := mkDNSRecord 0 (name +:+ "." +:+ dk_Zone cfg) "A" (dk_TTL cfg) (Addr_String addr) (source +:+ ":" +:+ c_ID c)
                 zeroTime zeroTime in
    if ValidateRecord rec then Some rec else None.

Definition container_records (c : container) : list DNSRecord :=
  match c_Names c with
  | [] => []
  | n :: _ =>
      let name := NormalizeDNSName (TrimPrefix n "/") in
      omap (fun '(network, ip) => registration c name network ip) (c_Networks c)
  end.

Definition desired (cs : list container) : gmap string DNSRecord :=
  fold_left (fun out rec => <[identity rec := rec]> out) (flat_map container_records cs) ∅.

Definition administered (d : DB) (name : string) : bool := existsb (fun r => is_empty (r_Origin r)) (records_at d name).

(** One round of the first loop: the state, and the names refused. *)
Definition register_step (held : gmap string DNSRecord) (acc : St * gset string) (kr : string * DNSRecord) : St * gset string :=
  let '(s, blocked) := acc in
  let '(key, rec) := kr in
  match held !! key with
  | Some _ => acc
  | None =>
      if administered (st_db s) (r_Name rec) then (s, {[ r_Name rec ]} ∪ blocked)
      else (snd (CreateDiscoveredDNSRecord (r_Origin rec) rec s), blocked)
  end.

(** One round of the second. *)
Definition unregister_step (want : gmap string DNSRecord) (s : St) (kr : string * DNSRecord) : St :=
  let '(key, r) := kr in
  match want !! key with
  | Some _ => s
  | None => snd (DeleteDiscoveredDNSRecord (r_ID r) s)
  end.

Definition held_records (d : DB) : gmap string DNSRecord :=
  fold_left (fun m r => <[identity r := r]> m) (records_from d source) ∅.

(** [reconcile], with the orders the two loops run in. Nothing changes when the daemon did not
    answer. *)
Definition reconcile (order : gmap string DNSRecord -> list (string * DNSRecord)) (containers : option (list container))
    (s : St) (blocked : gset string) : St * gset string :=
  match containers with
  | None => (s, blocked)
  | Some cs =>
      let want := desired cs in
      let held := held_records (st_db s) in
      let '(s1, stillBlocked) := fold_left (register_step held) (order want) (s, ∅) in
      (fold_left (unregister_step want) (order held) s1, stillBlocked)
  end.
End Docker.
