(* ===== verification/DockerFacts.v ===== *)
(** * Container registration, proofs: the registrations converge to the running containers *)

From S2P Require Import Prelude Text Netip Names Keytab Model IdRange Db Principals PrincipalFacts Zone ZoneFacts Dns DnsFacts DockerDns.

Definition bar : ascii := "|"%char.

(** What tells registrations apart. *)
Definition triple : Type := string * string * string.
Definition row_triple (r : DNSRow) : triple := (dn_origin r, dn_name r, dn_value r).
Definition rec_triple (r : DNSRecord) : triple := (r_Origin r, r_Name r, r_Value r).
Definition rec_key (r : DNSRecord) : string * string * string := (r_Name r, r_Type r, r_Value r).

Definition rows_of (s : St) : list DNSRow := dns_records (zt (st_db s)).

Definition registered (s : St) (t : triple) : Prop :=
  exists r, r ∈ rows_of s /\ dn_origin r <> EmptyString /\ row_triple r = t.

(** A registration of this package: an address record under an origin and a name without a bar. *)
Definition docker_row (r : DNSRow) : Prop :=
  dn_type r = "A" /\ origin_like source (dn_origin r) = true /\
  contains_char bar (dn_origin r) = false /\ contains_char bar (dn_name r) = false.

(** A zone in which every registration is this package's. *)
Definition docker_zone (s : St) : Prop :=
  zone_ok (zt (st_db s)) /\ forall r, r ∈ rows_of s -> dn_origin r <> EmptyString -> docker_row r.

(** A record to register: in the form the store keeps, under an origin and a name without a bar. *)
Definition want_ok (r : DNSRecord) : Prop :=
  r_Type r = "A" /\ validateDNSRecord r = Ok r /\ r_Origin r <> EmptyString /\ origin_like source (r_Origin r) = true /\
  contains_char bar (r_Origin r) = false /\ contains_char bar (r_Name r) = false.

(** No two containers with one name and one address. *)
Definition distinct_addresses (want : gmap string DNSRecord) : Prop :=
  forall k1 k2 r1 r2, want !! k1 = Some r1 -> want !! k2 = Some r2 -> r_Name r1 = r_Name r2 -> r_Value r1 = r_Value r2 -> k1 = k2.

Definition wants_ok (want : gmap string DNSRecord) : Prop :=
  (forall key r, want !! key = Some r -> key = identity r /\ want_ok r) /\ distinct_addresses want.

(** What the daemon names containers by (after a slash), and a zone in the form [New] keeps. *)
Definition docker_char (c : ascii) : bool :=
  let n := nat_of_ascii c in
  (is_digit c || ((65 <=? n) && (n <=? 90)) || ((97 <=? n) && (n <=? 122)) || (n =? 45) || (n =? 46) || (n =? 47) || (n =? 95))%nat.

Definition plain_container (c : container) : Prop :=
  contains_char bar (c_ID c) = false /\ Forall (fun n => all_chars docker_char n = true) (c_Names c).

Definition host_char (c : ascii) : bool := Ascii.eqb (lower_ascii c) c && docker_char c.

Definition plain_zone (cfg : DockerConfig) : Prop :=
  all_chars host_char (dk_Zone cfg) = true /\ dk_Zone cfg <> EmptyString /\ HasSuffix (dk_Zone cfg) "." = false.

Definition wanted (want : gmap string DNSRecord) (t : triple) : Prop :=
  exists key r, want !! key = Some r /\ rec_triple r = t.

(** ** Identities *)

Lemma identity_inj r1 r2 :
  contains_char bar (r_Origin r1) = false -> contains_char bar (r_Name r1) = false ->
  contains_char bar (r_Origin r2) = false -> contains_char bar (r_Name r2) = false ->
  identity r1 = identity r2 -> rec_triple r1 = rec_triple r2.
Proof.
  intros Ho1 Hn1 Ho2 Hn2 E. unfold identity in E.
  apply (string_sep_inj bar) in E as [Eo E]; [|done|done].
  apply (string_sep_inj bar) in E as [En Ev]; [|done|done].
  unfold rec_triple. congruence.
Qed.

Lemma rec_triple_identity r1 r2 : rec_triple r1 = rec_triple r2 -> identity r1 = identity r2.
Proof. unfold rec_triple, identity. intros [= -> -> ->]. done. Qed.

(** The map a list of records is gathered in, by identity. *)
Definition gather (l : list DNSRecord) (m : gmap string DNSRecord) : gmap string DNSRecord :=
  fold_left (fun m r => <[identity r := r]> m) l m.

Lemma gather_Some l m key r : gather l m !! key = Some r -> (r ∈ l /\ identity r = key) \/ m !! key = Some r.
Proof.
  revert m. induction l as [|x l IH]; intros m; [by right|]. cbn [gather fold_left]. intros [[Hin Hk]|Hm]%IH.
  - left. split; [by right|done].
  - destruct (decide (identity x = key)) as [<-|Hne].
    + rewrite lookup_insert_eq in Hm. injection Hm as ->. left. split; [by left|done].
    + rewrite lookup_insert_ne in Hm by done. by right.
Qed.

Lemma gather_elem l m r : r ∈ l -> is_Some (gather l m !! identity r).
Proof.
  assert (Hmono : forall l m k, is_Some (m !! k) -> is_Some (gather l m !! k)).
  { induction l0 as [|x l0 IH]; intros m0 k Hk; [done|]. cbn [gather fold_left]. apply IH.
    destruct (decide (identity x = k)) as [<-|]; [by rewrite lookup_insert_eq|by rewrite lookup_insert_ne]. }
  revert m. induction l as [|x l IH]; intros m; [by intros ?%elem_of_nil|]. cbn [gather fold_left].
  intros [->|Hin]%elem_of_cons; [|by apply IH]. apply Hmono. by rewrite lookup_insert_eq.
Qed.

Section DockerFacts.
Context `{Clock, DnsLib}.

(** The registrations held, as the map of the code: by identity, exactly the registered rows. *)
Lemma held_Some s key r : held_records (st_db s) !! key = Some r ->
  exists row, row ∈ rows_of s /\ origin_like source (dn_origin row) = true /\ r = scanDNSRecord row /\ identity r = key.
Proof.
  unfold held_records, records_from. intros Hk. apply gather_Some in Hk as [[Hin Hk]|Hk]; [|by rewrite lookup_empty in Hk].
  apply list_elem_of_fmap in Hin as (row & -> & Hin). rewrite elem_of_sort_by in Hin.
  apply list_elem_of_filter in Hin as [Ho Hin]. eauto.
Qed.

Lemma held_row s row : row ∈ rows_of s -> origin_like source (dn_origin row) = true ->
  is_Some (held_records (st_db s) !! identity (scanDNSRecord row)).
Proof.
  intros Hin Ho. apply gather_elem, list_elem_of_fmap. exists row. split; [done|]. apply elem_of_sort_by, list_elem_of_filter. done.
Qed.

Lemma held_origin o : origin_like source o = true -> o <> EmptyString.
Proof. by intros Ho ->. Qed.

(** Whether a record to register is held is whether its triple is registered. *)
Lemma held_registered s rec : docker_zone s -> want_ok rec ->
  is_Some (held_records (st_db s) !! identity rec) <-> registered s (rec_triple rec).
Proof.
  intros [_ Hd] (_ & _ & _ & _ & Hbo & Hbn). split.
  - intros [r (row & Hin & Ho & -> & Hid)%held_Some]. assert (Hne := held_origin _ Ho).
    destruct (Hd row Hin Hne) as (_ & _ & Ho' & Hn'). exists row. split_and!; [done|done|].
    exact (identity_inj (scanDNSRecord row) rec Ho' Hn' Hbo Hbn Hid).
  - intros (row & Hin & Hne & Ht). destruct (Hd row Hin Hne) as (_ & Ho & _ & _).
    rewrite <- (rec_triple_identity (scanDNSRecord row) rec); [by apply held_row|done].
Qed.

Lemma administered_spec d name :
  administered d name = true <-> exists r, r ∈ dns_records (zt d) /\ dn_name r = NormalizeDNSName name /\ dn_origin r = EmptyString.
Proof.
  unfold administered, records_at. rewrite existsb_exists. split.
  - intros (x & Hx%list_elem_of_In & Ho). apply list_elem_of_fmap in Hx as (r & -> & Hr). rewrite elem_of_sort_by in Hr.
    apply list_elem_of_filter in Hr as [Hn Hin]. exists r. split_and!; [done|done|]. by apply is_empty_spec.
  - intros (r & Hin & Hn & Ho). exists (scanDNSRecord r). split; [|by apply is_empty_spec].
    apply list_elem_of_In, list_elem_of_fmap. exists r. split; [done|]. apply elem_of_sort_by, list_elem_of_filter. done.
Qed.

Lemma want_ok_name rec : want_ok rec -> NormalizeDNSName (r_Name rec) = r_Name rec.
Proof.
  intros (_ & Hv & _). unfold validateDNSRecord in Hv. case_match; [done|]. apply Ok_inj in Hv.
  apply (f_equal r_Name) in Hv. done.
Qed.

(** ** One registration, one removal *)

(** Registering a record: nothing when its name, type and value are there; a new row otherwise. *)
Lemma create_effect s rec : want_ok rec ->
  let s' := snd (CreateDiscoveredDNSRecord (r_Origin rec) rec s) in
  (rec_key rec ∈ rr_key <$> rows_of s /\ st_db s' = st_db s) \/
  (exists row f, row_triple row = rec_triple rec /\ dn_type row = "A" /\
     zone_change false (zt (st_db s)) (set_seq_dns (seq_dns_records (zt (st_db s)) + 1) (set_dns (fun t => t ++ [row]) (zt (st_db s)))) /\
     st_db s' = set_zt (set_serial f (set_seq_dns (seq_dns_records (zt (st_db s)) + 1) (set_dns (fun t => t ++ [row]) (zt (st_db s))))) (st_db s)).
Proof.
  intros (Ht & Hv & Ho & _). cbn zeta.
  destruct (CreateDiscoveredDNSRecord (r_Origin rec) rec s) as [res s'] eqn:Hr. cbn [snd].
  assert (Hemp : is_empty (r_Origin rec) = false) by (by destruct (r_Origin rec)).
  destruct res as [r'|e|].
  - right. unfold CreateDiscoveredDNSRecord in Hr. tx_inv. rewrite Hv in *. simplify_eq.
    assert (Hform := validateDNSRecord_Ok _ _ Hv).
    apply insertDNSRecord_Ok in Hr as (id & row & now & -> & -> & Hnew & at_ & Hs').
    destruct Hform as (Fn & Fty & Fv & Fttl).
    match type of Hs' with context [_ ++ [?row]] => exists row, (next_serial at_); split_and!; [done|done| |exact Hs'];
      by apply (change_insert _ _ _ row) end.
  - left. split.
    + unfold CreateDiscoveredDNSRecord, mbind, M_bind, throw_if, lift, err_if in Hr. rewrite Hemp, Hv in Hr.
      unfold insertDNSRecord, mbind, M_bind, write in Hr. cbn [time_now] in Hr. unfold time_now, insert_dns_row in Hr. cbn [st_db] in Hr.
      destruct (existsb _ _) eqn:Ex; [|by repeat case_match; simplify_eq].
      apply existsb_exists in Ex as (x & Hx%list_elem_of_In & Hk). apply andb_true_iff in Hk as [[Hn%String.eqb_eq Hty%String.eqb_eq]%andb_true_iff Hva%String.eqb_eq].
      apply list_elem_of_fmap. exists x. split; [|done]. unfold rec_key, rr_key. congruence.
    + destruct (atomic_zone_op (op_register (r_Origin rec) rec) s (Err e) s') as [[u Hu]|Hu]; [|done|done].
      cbn [run_zone_op]. unfold discard, mbind, M_bind. by rewrite Hr.
  - exfalso. unfold CreateDiscoveredDNSRecord, mbind, M_bind, throw_if, lift, err_if in Hr. rewrite Hemp, Hv in Hr.
    unfold insertDNSRecord, mbind, M_bind, write, time_now, insert_dns_row in Hr. cbn [st_db] in Hr. by repeat case_match; simplify_eq.
Qed.

(** The change is the packages' own: the invariant stays, and the administrators' records do. *)
Definition carries (s s' : St) : Prop := docker_zone s' /\ owned true (zt (st_db s')) = owned true (zt (st_db s)).

Lemma carries_refl s s' : docker_zone s -> st_db s' = st_db s -> carries s s'.
Proof. unfold carries, docker_zone, rows_of. by intros Hd ->. Qed.

Lemma carries_trans s1 s2 s3 : carries s1 s2 -> carries s2 s3 -> carries s1 s3.
Proof. intros [_ H1] [Hd H2]. split; [done|congruence]. Qed.

Lemma carries_administered s s' name : carries s s' -> administered (st_db s') name = administered (st_db s) name.
Proof.
  intros [_ Ho]. apply eq_bool_prop_intro. rewrite !Is_true_true, !administered_spec.
  assert (He : forall r, r ∈ dns_records (zt (st_db s')) /\ dn_origin r = EmptyString <-> r ∈ dns_records (zt (st_db s)) /\ dn_origin r = EmptyString).
  { intros r. unfold owned in Ho. assert (Hr : r ∈ filter (fun r => is_empty (dn_origin r) = true) (dns_records (zt (st_db s')))
      <-> r ∈ filter (fun r => is_empty (dn_origin r) = true) (dns_records (zt (st_db s)))) by (by rewrite Ho).
    rewrite !list_elem_of_filter, is_empty_spec in Hr. tauto. }
  split; intros (r & Hin & Hn & Hor); exists r; destruct (He r); naive_solver.
Qed.

Lemma create_step s rec : docker_zone s -> want_ok rec ->
  let s' := snd (CreateDiscoveredDNSRecord (r_Origin rec) rec s) in
  carries s s' /\ (forall r, r ∈ rows_of s -> r ∈ rows_of s') /\
  (forall r, r ∈ rows_of s' -> r ∈ rows_of s \/ row_triple r = rec_triple rec) /\
  (rec_key rec ∈ rr_key <$> rows_of s \/ registered s' (rec_triple rec)).
Proof.
  intros Hd Hw s'. destruct (create_effect s rec Hw) as [[Hk Hdb]|(row & f & Ht & Hty & Hc & Hdb)]; fold s' in Hdb.
  - split_and!; [by apply carries_refl| | |by left]; intros r; unfold rows_of; rewrite Hdb; auto.
  - destruct Hw as (_ & _ & Hne & Hlike & Hbo & Hbn). injection Ht as Eo En Ev.
    assert (Hrows : rows_of s' = rows_of s ++ [row]) by (unfold rows_of; by rewrite Hdb).
    destruct Hd as [Hok Hd]. split_and!.
    + split; [split|].
      * rewrite Hdb. by eapply zone_change_ok.
      * intros r. rewrite Hrows. intros [Hr| ->%list_elem_of_singleton]%elem_of_app Ho; [by apply Hd|].
        unfold docker_row. by rewrite Eo, En.
      * rewrite Hdb. by eapply (zone_change_owned false).
    + intros r Hr. rewrite Hrows. apply elem_of_app. by left.
    + intros r. rewrite Hrows. intros [Hr| ->%list_elem_of_singleton]%elem_of_app; [by left|right].
      unfold row_triple, rec_triple. congruence.
    + right. exists row. split_and!; [rewrite Hrows; apply elem_of_app; right; by apply list_elem_of_singleton|by rewrite Eo|].
      unfold row_triple, rec_triple. congruence.
Qed.

(** Removing a registration takes away exactly the row of its id. *)
Lemma delete_step s id : docker_zone s -> (forall r, r ∈ rows_of s -> dn_id r = id -> dn_origin r <> EmptyString) ->
  let s' := snd (DeleteDiscoveredDNSRecord id s) in
  carries s s' /\ rows_of s' = filter (fun r => dn_id r <> id) (rows_of s).
Proof.
  intros [Hok Hd] Hid s'. destruct (DeleteDiscoveredDNSRecord id s) as [res s1] eqn:Hr. subst s'. cbn [snd].
  assert (Hh : zone_history [op_unregister id] s s1) by (econstructor; [exact Hr|constructor]).
  assert (Hrows : rows_of s1 = filter (fun r => dn_id r <> id) (rows_of s)).
  { unfold DeleteDiscoveredDNSRecord, write, origin_of, query_outcome, mbind, M_bind in Hr.
    destruct (List.find (fun r => dn_id r =? id) (dns_records (zt (st_db s)))) as [row|] eqn:Ef; cbn [fmap option_fmap option_map or_err] in Hr.
    - apply find_Some_elem in Ef as [Hin Hi%Z.eqb_eq].
      assert (is_empty (dn_origin row) = false) as Hemp by (destruct (dn_origin row) eqn:E; [by destruct (Hid row)|done]).
      unfold throw_if, lift, err_if in Hr. rewrite Hemp in Hr.
      unfold deleteDNSRecordTx, query, update_zt, update, mbind, M_bind, throw_if, lift, err_if in Hr.
      assert (Hlen : (List.length (filter (fun r => dn_id r = id) (dns_records (zt (st_db s)))) =? 0)%nat = false).
      { apply Nat.eqb_neq. intros E%nil_length_inv. assert (Hx : row ∈ @nil DNSRow); [|by apply elem_of_nil in Hx].
        rewrite <- E. by apply list_elem_of_filter. }
      rewrite Hlen in Hr. cbn in Hr. injection Hr as _ <-. done.
    - injection Hr as _ <-. unfold rows_of. cbn [st_db set_db]. symmetry. apply filter_all. intros r Hin.
      apply find_None_elem with (x := r) in Ef; [|done]. by apply Z.eqb_neq. }
  split; [|done]. split; [split|].
  - by eapply zone_history_ok.
  - intros r. rewrite Hrows. intros [_ Hin]%list_elem_of_filter. by apply Hd.
  - by eapply (zone_history_owned false _ s s1 Hok Hh); repeat constructor.
Qed.

(** ** The two loops *)

(** The first loop: rows are only added, each a record called for that was not held and whose name
    no administrator has; and every such record ends up with a row of its name, type and value. *)
Lemma register_loop held l s blocked : docker_zone s -> (forall k r, (k, r) ∈ l -> want_ok r) ->
  let s' := fst (fold_left (register_step held) l (s, blocked)) in
  carries s s' /\ (forall r, r ∈ rows_of s -> r ∈ rows_of s') /\
  (forall r, r ∈ rows_of s' -> r ∈ rows_of s \/
     exists k rec, (k, rec) ∈ l /\ held !! k = None /\ administered (st_db s) (r_Name rec) = false /\ row_triple r = rec_triple rec) /\
  (forall k rec, (k, rec) ∈ l -> held !! k = None -> administered (st_db s) (r_Name rec) = false ->
     rec_key rec ∈ rr_key <$> rows_of s').
Proof.
  revert s blocked. induction l as [|[k rec] l IH]; intros s blocked Hd Hw; cbn [fold_left].
  { split_and!; [by apply carries_refl|done|by left|by intros ? ? ?%elem_of_nil]. }
  destruct (register_step held (s, blocked) (k, rec)) as [s1 b1] eqn:Hs.
  assert (Hstep : carries s s1 /\ (forall r, r ∈ rows_of s -> r ∈ rows_of s1) /\
    (forall r, r ∈ rows_of s1 -> r ∈ rows_of s \/ (held !! k = None /\ administered (st_db s) (r_Name rec) = false /\ row_triple r = rec_triple rec)) /\
    (held !! k = None -> administered (st_db s) (r_Name rec) = false -> rec_key rec ∈ rr_key <$> rows_of s1)).
  { cbn [register_step] in Hs. destruct (held !! k) as [r0|] eqn:Hk.
    { injection Hs as <- <-. split_and!; [by apply carries_refl|done|by left|done]. }
    destruct (administered (st_db s) (r_Name rec)) eqn:Ha; injection Hs as <- <-.
    { split_and!; [by apply carries_refl|done|by left|done]. }
    destruct (create_step s rec Hd (Hw k rec (list_elem_of_here _ _))) as (Hc & Hmono & Hnew & Hres).
    split_and!; [done|done| |].
    - intros r [Hr|Hr]%Hnew; [by left|by right].
    - intros _ _. destruct Hres as [Hres|(r & Hr & _ & Ht)].
      + apply list_elem_of_fmap in Hres as (r & -> & Hr). apply list_elem_of_fmap. eauto.
      + apply list_elem_of_fmap. exists r. split; [|done]. destruct Hc as [[_ Hrows] _].
        destruct (Hw k rec (list_elem_of_here _ _)) as (Hty & _ & Hne & _). injection Ht as Eo En Ev.
        destruct (Hrows r Hr) as (Hty' & _); [by rewrite Eo|]. unfold rec_key, rr_key. congruence. }
  destruct Hstep as (Hc & Hmono & Hnew & Hres).
  destruct (IH s1 b1) as (Hc' & Hmono' & Hnew' & Hres'); [apply Hc|intros k' r' Hin; apply (Hw k'); by right|].
  assert (Hadm := fun n => carries_administered s s1 n Hc).
  split_and!.
  - by eapply carries_trans.
  - auto.
  - intros r [[Hr|(? & ? & ?)]%Hnew|(k' & rec' & Hin & Hk & Ha & Ht)]%Hnew'; [by left|right; exists k, rec; split_and!; [by left|done..]|].
    right. exists k', rec'. rewrite Hadm in Ha. split_and!; [by right|done..].
  - intros k' rec' [[= -> ->]|Hin]%elem_of_cons Hk Ha; [|by apply (Hres' k' rec' Hin Hk); rewrite Hadm].
    destruct (proj1 (list_elem_of_fmap _ _ _) (Hres Hk Ha)) as (r & -> & Hr). apply list_elem_of_fmap. eauto.
Qed.

(** The second loop: the rows that stay are those that are not of a held registration nothing calls
    for. *)
Lemma unregister_loop want l s : docker_zone s ->
  (forall k r row, (k, r) ∈ l -> row ∈ rows_of s -> dn_id row = r_ID r -> dn_origin row <> EmptyString) ->
  let s' := fold_left (unregister_step want) l s in
  carries s s' /\
  (forall row, row ∈ rows_of s' <-> row ∈ rows_of s /\ forall k r, (k, r) ∈ l -> want !! k = None -> dn_id row <> r_ID r).
Proof.
  revert s. induction l as [|[k r] l IH]; intros s Hd Hid; cbn [fold_left].
  { split; [by apply carries_refl|]. intros row. split; [|by intros [? _]]. intros Hin. split; [done|]. by intros ? ? ?%elem_of_nil. }
  assert (Hstep : carries s (unregister_step want s (k, r)) /\
    forall row, row ∈ rows_of (unregister_step want s (k, r)) <-> row ∈ rows_of s /\ (want !! k = None -> dn_id row <> r_ID r)).
  { cbn [unregister_step]. destruct (want !! k) as [x|] eqn:Hk.
    { split; [by apply carries_refl|]. intros row. split; [by intros|by intros [? _]]. }
    destruct (delete_step s (r_ID r) Hd) as [Hc Hrows]; [intros row; apply (Hid k r); by left|].
    split; [done|]. intros row. rewrite Hrows, list_elem_of_filter. naive_solver. }
  destruct Hstep as [Hc Hrows].
  destruct (IH (unregister_step want s (k, r))) as [Hc' Hrows']; [apply Hc| |].
  { intros k' r' row Hin [Hr _]%Hrows. apply (Hid k' r'); [by right|done]. }
  split; [by eapply carries_trans|]. intros row. rewrite Hrows', Hrows. split.
  - intros [[Hr Hk] Hl]. split; [done|]. intros k' r' [[= -> ->]|Hin]%elem_of_cons; eauto.
  - intros [Hr Hl]. split_and!; [done|intros; apply (Hl k); [by left|done]|]. intros k' r' Hin. apply (Hl k'). by right.
Qed.

(** ** One pass *)

(** A row is the one of its id, and a registration the one of its triple. *)
Lemma row_of_id s r1 r2 : zone_ok (zt (st_db s)) -> r1 ∈ rows_of s -> r2 ∈ rows_of s -> dn_id r1 = dn_id r2 -> r1 = r2.
Proof. intros Hok. exact (NoDup_key_inj dn_id _ r1 r2 (zo_ids _ Hok)). Qed.

Lemma row_of_triple s r1 r2 : docker_zone s -> r1 ∈ rows_of s -> r2 ∈ rows_of s -> dn_origin r1 <> EmptyString ->
  row_triple r1 = row_triple r2 -> r1 = r2.
Proof.
  intros [Hok Hd] H1 H2 Hne [= Eo En Ev]. destruct (Hd r1 H1 Hne) as (Ht1 & _). destruct (Hd r2 H2) as (Ht2 & _); [by rewrite <- Eo|].
  apply (NoDup_key_inj rr_key (rows_of s)); [apply Hok|done|done|]. unfold rr_key. congruence.
Qed.

(** The held registration of a registered row is the row's own. *)
Lemma held_own s row : docker_zone s -> row ∈ rows_of s -> dn_origin row <> EmptyString ->
  held_records (st_db s) !! identity (scanDNSRecord row) = Some (scanDNSRecord row).
Proof.
  intros Hd Hin Hne. destruct (proj2 Hd row Hin Hne) as (_ & Ho & Hbo & Hbn).
  destruct (held_row s row Hin Ho) as [r Hr]. rewrite Hr. f_equal.
  apply held_Some in Hr as (row' & Hin' & Ho' & -> & Hid). f_equal.
  destruct (proj2 Hd row' Hin' (held_origin _ Ho')) as (_ & _ & Hbo' & Hbn').
  apply (row_of_triple s); [done|done|done|by apply held_origin|].
  exact (identity_inj (scanDNSRecord row') (scanDNSRecord row) Hbo' Hbn' Hbo Hbn Hid).
Qed.

Definition in_full (order : gmap string DNSRecord -> list (string * DNSRecord)) : Prop := forall m, order m ≡ₚ map_to_list m.

(** A pass keeps the registrations called for, takes away the others and adds only those whose
    name no administrator has; when nothing was stale before, it adds all of them. *)
Lemma reconcile_pass cfg order cs s blocked s' blocked' : docker_zone s -> wants_ok (desired cfg cs) -> in_full order ->
  reconcile cfg order (Some cs) s blocked = (s', blocked') ->
  carries s s' /\
  (forall t, registered s' t -> wanted (desired cfg cs) t /\ (registered s t \/ administered (st_db s) (t.1.2) = false)) /\
  (forall t, registered s t -> wanted (desired cfg cs) t -> registered s' t) /\
  ((forall t, registered s t -> wanted (desired cfg cs) t) ->
   forall t, wanted (desired cfg cs) t -> administered (st_db s) (t.1.2) = false -> registered s' t).
Proof.
  intros Hd [Hwant Hdist] Hord. unfold reconcile.
  set (want := desired cfg cs) in *. set (held := held_records (st_db s)).
  destruct (fold_left (register_step held) (order want) (s, ∅)) as [s1 b1] eqn:E1. intros [= <- _].
  assert (Ho : forall m k r, (k, r) ∈ order m <-> m !! k = Some r) by (intros m k r; by rewrite (Hord m : order m ≡ₚ _), elem_of_map_to_list).
  destruct (register_loop held (order want) s ∅ Hd) as (Hc & Hmono & Hnew & Hres); [intros k r Hin%Ho; by apply (Hwant k)|].
  rewrite E1 in Hc, Hmono, Hnew, Hres. cbn [fst] in *.
  destruct (unregister_loop want (order held) s1) as [Hc' Hrows]; [apply Hc| |].
  { intros k r row Hin%Ho Hrow Hi. apply held_Some in Hin as (row' & Hin' & Ho' & -> & _).
    rewrite (row_of_id s1 row row'); [by apply held_origin|apply Hc|done|by apply Hmono|done]. }
  (* a registered row stays exactly when it is called for *)
  assert (Hstay : forall row, row ∈ rows_of s1 -> dn_origin row <> EmptyString -> wanted want (row_triple row) ->
    row ∈ rows_of (fold_left (unregister_step want) (order held) s1)).
  { intros row Hrow Hne (k & rec & Hk & Ht). apply Hrows. split; [done|]. intros k' r Hin%Ho Hk' Hi.
    apply held_Some in Hin as (row' & Hin' & _ & -> & <-). rewrite (row_of_id s1 row row') in Ht; [|apply Hc|done|by apply Hmono|done].
    assert (Hid := rec_triple_identity rec (scanDNSRecord row') Ht). rewrite <- Hid, <- (proj1 (Hwant _ _ Hk)), Hk in Hk'. done. }
  split; [by eapply carries_trans|]. split_and!.
  - intros t (row & [Hrow Hdel]%Hrows & Hne & <-). apply Hnew in Hrow as [Hrow|(k & rec & Hin%Ho & Hh & Ha & Ht)].
    + split; [|left; by exists row]. destruct (want !! identity (scanDNSRecord row)) as [rec|] eqn:Hk.
      * exists (identity (scanDNSRecord row)), rec. split; [done|]. destruct (Hwant _ _ Hk) as [Hid (_ & _ & _ & _ & Hbo & Hbn)].
        destruct (proj2 Hd row Hrow Hne) as (_ & _ & Ho' & Hn'). by apply (identity_inj rec (scanDNSRecord row)).
      * destruct (Hdel (identity (scanDNSRecord row)) (scanDNSRecord row)); [|done|done]. apply Ho. by apply held_own.
    + rewrite Ht. split; [by exists k, rec|by right].
  - intros t (row & Hrow & Hne & <-) Hw. exists row. split_and!; [|done|done]. apply Hstay; [by apply Hmono|done|done].
  - intros Hclean t (k & rec & Hk & <-) Ha. destruct (Hwant _ _ Hk) as [-> Hok].
    destruct (held !! identity rec) as [r|] eqn:Hh.
    + destruct (proj1 (held_registered s rec Hd Hok)) as (row & Hrow & Hne & Ht); [by eexists|].
      exists row. split_and!; [|done|done]. apply Hstay; [by apply Hmono|done|rewrite Ht; by exists (identity rec), rec].
    + destruct (proj1 (list_elem_of_fmap _ _ _) (Hres _ _ (proj2 (Ho _ _ _) Hk) Hh Ha)) as (row & [= En Et Ev] & Hrow).
      assert (Hne : dn_origin row <> EmptyString).
      { intros Hadm. rewrite <- (carries_administered s s1 _ Hc) in Ha. apply not_true_iff_false in Ha. apply Ha, administered_spec.
        exists row. split_and!; [done| |done]. cbn [rec_triple fst snd]. by rewrite (want_ok_name rec Hok). }
      assert (Hw : wanted want (row_triple row)).
      { destruct (Hnew row Hrow) as [Hold|(k' & rec' & Hin%Ho & _ & _ & Ht)]; [apply Hclean; by exists row|by exists k', rec']. }
      exists row. split_and!; [by apply Hstay|done|]. destruct Hw as (k' & rec' & Hk' & Ht'). rewrite <- Ht'.
      injection Ht' as Eo' En' Ev'. rewrite (Hdist _ _ _ _ Hk' Hk) in Hk' by congruence. rewrite Hk in Hk'. by injection Hk' as <-.
Qed.

(** ** What the containers call for *)

Lemma all_chars_substring f n m s : all_chars f s = true -> all_chars f (String.substring n m s) = true.
Proof.
  revert n m. induction s as [|c s IH]; intros n m; [by destruct n, m|]. cbn [all_chars]. intros [Hc Hs]%andb_true_iff.
  destruct n, m; cbn [String.substring all_chars]; [done|by rewrite Hc, IH|by apply IH|by apply IH].
Qed.

Lemma all_chars_TrimPrefix f s p : all_chars f s = true -> all_chars f (TrimPrefix s p) = true.
Proof. intros Hs. unfold TrimPrefix, CutPrefix. case_match; [by apply all_chars_substring|done]. Qed.

Lemma all_chars_TrimSuffix f s p : all_chars f s = true -> all_chars f (TrimSuffix s p) = true.
Proof. intros Hs. unfold TrimSuffix, CutSuffix. case_match; [by apply all_chars_substring|done]. Qed.

Lemma docker_char_cases (c : ascii) :
  (negb (docker_char c) || (negb (is_space c) && host_char (lower_ascii c) && negb (Ascii.eqb c bar))) = true.
Proof. by destruct c as [[] [] [] [] [] [] [] []]. Qed.

Lemma docker_char_host c : docker_char c = true -> is_space c = false /\ host_char (lower_ascii c) = true /\ c <> bar.
Proof.
  intros Hc. assert (Ha := docker_char_cases c). rewrite Hc in Ha. cbn [negb orb] in Ha.
  apply andb_true_iff in Ha as [[Hs%negb_true_iff Hh]%andb_true_iff Hb%negb_true_iff]. split_and!; [done|done|by apply Ascii.eqb_neq].
Qed.

Lemma host_char_docker c : host_char c = true -> docker_char c = true.
Proof. by intros [_ ?]%andb_true_iff. Qed.

Lemma docker_chars_no_space s : all_chars docker_char s = true -> TrimSpace s = s.
Proof. intros Hs. apply TrimSpace_id. revert Hs. apply all_chars_impl. intros c Hc. by destruct (docker_char_host c Hc) as (-> & _). Qed.

Lemma NormalizeDNSName_host s : all_chars docker_char s = true -> all_chars host_char (NormalizeDNSName s) = true.
Proof.
  intros Hs. unfold NormalizeDNSName. rewrite docker_chars_no_space by done. apply (all_chars_TrimSuffix _ _ ".") in Hs.
  revert Hs. unfold ToLower. generalize (TrimSuffix s "."). intros t. induction t as [|c t IH]; [done|]. cbn [all_chars string_map].
  intros [Hc Ht]%andb_true_iff. rewrite IH by done. by destruct (docker_char_host c Hc) as (_ & -> & _).
Qed.

(** A name the zone ends is in the form the store keeps. *)
Lemma NormalizeDNSName_fqdn cfg name : plain_zone cfg -> all_chars host_char name = true ->
  NormalizeDNSName (name +:+ "." +:+ dk_Zone cfg) = name +:+ "." +:+ dk_Zone cfg /\
  contains_char bar (name +:+ "." +:+ dk_Zone cfg) = false.
Proof.
  intros (Hz & Hne & Hdot) Hn.
  assert (Hall : all_chars host_char (name +:+ "." +:+ dk_Zone cfg) = true) by (by rewrite !all_chars_app, Hn, Hz).
  split; [|by apply (all_chars_no_char host_char)]. unfold NormalizeDNSName.
  rewrite docker_chars_no_space by (by eapply all_chars_impl; [apply host_char_docker|]).
  unfold TrimSuffix. destruct (CutSuffix _ ".") as [p|] eqn:Hc; cbn [default].
  - apply CutSuffix_spec in Hc. exfalso. destruct (string_last (dk_Zone cfg) Hne) as (z & c & Ez). rewrite Ez in *.
    rewrite <- !string_app_assoc in Hc. apply string_snoc_inj in Hc as [_ ->]. apply not_true_iff_false in Hdot. apply Hdot, HasSuffix_spec.
    by exists z.
  - apply ToLower_id. revert Hall. apply all_chars_impl. by intros c [? _]%andb_true_iff.
Qed.

Lemma Addr_String_V4_text a b c d : TrimSpace (Addr_String (V4 a b c d)) = Addr_String (V4 a b c d) /\ Addr_String (V4 a b c d) <> EmptyString.
Proof.
  assert (Hp : forall z : Z, all_chars docker_char (pretty z) = true).
  { intros z. assert (Hd : forall c, is_digit c = true -> docker_char c = true) by (intros x Hx; unfold docker_char; by rewrite Hx).
    destruct (decide (0 <= z)); [eapply all_chars_impl; [exact Hd|]; by apply pretty_Z_digits|]. destruct z as [|p|p]; [lia|lia|].
    change (pretty (Z.neg p)) with ("-" +:+ pretty (Z.pos p)). rewrite all_chars_app. cbn [all_chars].
    eapply all_chars_impl; [exact Hd|]. apply pretty_Z_digits. lia. }
  split.
  - apply docker_chars_no_space, all_chars_Join; [done|]. cbn [fmap list_fmap]. repeat constructor; apply Hp.
  - cbn [Addr_String]. unfold string4. cbn [fmap list_fmap Join]. destruct (pretty a); discriminate.
Qed.

(** The records of such containers are in the form the store keeps. *)
Lemma desired_ok cfg cs : plain_zone cfg -> Forall plain_container cs ->
  forall key r, desired cfg cs !! key = Some r -> key = identity r /\ want_ok r.
Proof.
  intros Hz Hcs key r Hk. apply gather_Some in Hk as [[Hin <-]|Hk]; [|by rewrite lookup_empty in Hk]. split; [done|].
  apply list_elem_of_In, in_flat_map in Hin as (c & Hc%list_elem_of_In & Hin%list_elem_of_In).
  rewrite Forall_forall in Hcs. destruct (Hcs c Hc) as [Hid Hnames]. unfold container_records in Hin.
  destruct (c_Names c) as [|n ns]; [by apply elem_of_nil in Hin|]. apply Forall_cons in Hnames as [Hn _].
  apply list_elem_of_omap in Hin as ([network ip] & _ & Hreg). unfold registration in Hreg.
  destruct (ParseAddr ip) as [[a b c' d|bs z]|] eqn:Ha; cbn [mbind option_bind] in Hreg; [|done..].
  destruct (negb (Is4 _) || negb _); [done|]. case_match eqn:Hv; [|done]. injection Hreg as <-.
  assert (Hhost := NormalizeDNSName_host _ (all_chars_TrimPrefix _ _ "/" Hn)).
  destruct (NormalizeDNSName_fqdn cfg _ Hz Hhost) as [Hnorm Hbar]. destruct (Addr_String_V4_text a b c' d) as [Htrim Hval]. cbn [Addr_String] in Htrim, Hval.
  unfold ValidateRecord in Hv. cbn [r_Name r_Type r_TTL r_Value r_Origin] in *.
  apply andb_true_iff in Hv as [[[Hne%negb_true_iff Httl%Z.ltb_lt]%andb_true_iff _]%andb_true_iff _].
  unfold want_ok; cbn [r_Name r_Type r_TTL r_Value r_Origin]; split_and!; [done| |discriminate|exact (HasPrefix_app "docker:" (ToLower (c_ID c)))| |done].
  - unfold validateDNSRecord. cbn [r_ID r_Name r_Type r_TTL r_Value r_Origin r_CreatedAt r_UpdatedAt]. rewrite Hne, Hnorm, Htrim.
    destruct (is_empty (string4 _ _ _ _)) eqn:He; [by apply is_empty_spec in He|].
    destruct (Z.leb_spec (dk_TTL cfg) 0); [lia|]. done.
  - cbn [r_Origin]. by rewrite !contains_char_app, Hid.
Qed.

End DockerFacts.

(** ** A sample host *)

Definition docker_config : DockerConfig := mkDockerConfig "example.com" 60 ["web"] [mkPrefix (V4 192 0 2 0) 24].
Definition web1 : container := mkContainer "aaa" ["/Web"] [("web", "192.0.2.10")].
Definition web2 : container := mkContainer "bbb" ["/Web"] [("web", "192.0.2.10")].
Definition cache1 : container := mkContainer "ccc" ["/cache"] [("web", "192.0.2.11")].

Section DockerSamples.
#[local] Existing Instance sample_clock.
#[local] Existing Instance toy_dns.

Definition pass (cs : list container) (s : St) : St := fst (reconcile docker_config map_to_list (Some cs) s ∅).

Definition registrations (s : St) : list triple := row_triple <$> filter (fun r => is_empty (dn_origin r) = false) (rows_of s).

(** A container made anew under its name and address, with a new id: the pass that sees it finds the
    name taken by the registration of its predecessor, and then takes that away. The name is gone
    until the next pass. *)
Lemma recreated_container_unregistered :
  let s := pass [web1] empty_state in
  registrations s = [("docker:aaa", "web.example.com", "192.0.2.10")] /\
  registrations (pass [web2] s) = [] /\
  registrations (pass [web2] (pass [web2] s)) = [("docker:bbb", "web.example.com", "192.0.2.10")].
Proof. vm_compute. done. Qed.

Lemma sample_distinct : distinct_addresses (desired docker_config [web2; cache1]).
Proof.
  intros k1 k2 r1 r2 H1 H2 Hn _.
  assert (Hall : forall k r, desired docker_config [web2; cache1] !! k = Some r ->
    r ∈ [mkDNSRecord 0 "web.example.com" "A" 60 "192.0.2.10" "docker:bbb" zeroTime zeroTime;
         mkDNSRecord 0 "cache.example.com" "A" 60 "192.0.2.11" "docker:ccc" zeroTime zeroTime] /\ identity r = k).
  { intros k r [Hk|Hk]%gather_Some; [exact Hk|by rewrite lookup_empty in Hk]. }
  destruct (Hall _ _ H1) as [Hr1 <-], (Hall _ _ H2) as [Hr2 <-]. rewrite !elem_of_cons, elem_of_nil in Hr1, Hr2.
  destruct Hr1 as [->|[->|[]]], Hr2 as [->|[->|[]]]; done.
Qed.

Lemma empty_docker_zone : docker_zone empty_state.
Proof.
  split; [exact empty_zone_ok|]. change (rows_of empty_state) with (@nil DNSRow). intros r Hr. by apply elem_of_nil in Hr.
Qed.

Lemma sample_distinct1 : distinct_addresses (desired docker_config [web1]).
Proof.
  intros k1 k2 r1 r2 H1 H2 _ _. apply gather_Some in H1 as [[H1 <-]|H1], H2 as [[H2 <-]|H2];
    [|by apply lookup_empty_Some in H2|by apply lookup_empty_Some in H1..].
  change (r1 ∈ [mkDNSRecord 0 "web.example.com" "A" 60 "192.0.2.10" "docker:aaa" zeroTime zeroTime]) in H1.
  change (r2 ∈ [mkDNSRecord 0 "web.example.com" "A" 60 "192.0.2.10" "docker:aaa" zeroTime zeroTime]) in H2.
  apply list_elem_of_singleton in H1 as ->, H2 as ->. done.
Qed.

Lemma sample_zone : docker_zone (pass [web1] empty_state).
Proof.
  unfold pass. destruct (reconcile docker_config map_to_list (Some [web1]) empty_state ∅) as [s' b] eqn:E.
  eapply reconcile_pass in E as [[Hd _] _]; [exact Hd| | |by intros m].
  - exact empty_docker_zone.
  - split; [apply desired_ok; [by split_and!|by repeat constructor]|exact sample_distinct1].
Qed.

End DockerSamples.
