(* ===== verification/DockerLoop.v ===== *)
(** * The loop of container registration: [run], [signal], [watch] and [streamEvents] of dockerdns.go

    Two goroutines and the daemon: [watch] reads the daemon's event stream and leaves a token in the
    channel [wake], which holds one; [run] reconciles once, and then at every token and every tick.
    The model takes one action of one of the parties at a time. [dl_missed] is no state of the program:
    it says that the daemon has reported something nobody will read, or was asked in vain, since it was
    last asked with success. *)

From S2P Require Import Prelude Text Model IdRange Db Principals PrincipalFacts Zone ZoneFacts Dns DnsFacts DockerDns DockerFacts.

(** ** State *)

(** [run]: in its [select], asking the daemon, at work with the answer, or gone. *)
Inductive run_phase : Type := rn_waiting | rn_asking | rn_working (cs : list container) | rn_left.

(** [watch], with its [backoff]: asking for the stream, reading it with the events counted so far,
    waiting to try again, or gone. *)
Inductive watch_phase : Type := wt_asking (backoff : Z) | wt_reading (backoff n : Z) | wt_resting (backoff : Z) | wt_left.

Record Loop : Type := mkLoop {
  dl_running : list container;
  dl_events : nat;
  dl_wake : bool;
  dl_run : run_phase;
  dl_watch : watch_phase;
  dl_cancelled : bool;
  dl_store : St;
  dl_blocked : gset string;
  dl_missed : bool;
}.

Inductive action : Type :=
| a_change (cs : list container) | a_other (s : St)
| a_connect (answered : bool) | a_decode | a_end | a_retry | a_watch_leave
| a_tick | a_token | a_listed (answered : bool) | a_applied (read : bool) | a_run_leave
| a_cancel.

(** ** [watch] *)

Definition minBackoff : Z := 1000000000.
Definition maxBackoff : Z := 30 * 1000000000.

(** The pause after a stream that gave [n] events, and the one after it. *)
Definition pause (backoff n : Z) : Z := if 0 <? n then minBackoff else backoff.
Definition next_backoff (backoff : Z) : Z := Z.min (backoff * 2) maxBackoff.

(** [signal]: a full channel is left as it is. *)
Definition signal (wake : bool) : bool := if wake then wake else true.

(** ** The steps *)

Section Loop.
Context `{Clock, DnsLib} (cfg : DockerConfig) (order : gmap string DNSRecord -> list (string * DNSRecord)).

(** [Start], which returns at once: [run] begins with a reconciliation, [watch] by asking for the
    stream. *)
Definition Start (cs : list container) (s : St) : Loop := mkLoop cs 0 false rn_asking (wt_asking minBackoff) false s ∅ false.

Definition set_run (ph : run_phase) (l : Loop) : Loop :=
  mkLoop (dl_running l) (dl_events l) (dl_wake l) ph (dl_watch l) (dl_cancelled l) (dl_store l) (dl_blocked l) (dl_missed l).
Definition set_watch (ph : watch_phase) (events : nat) (l : Loop) : Loop :=
  mkLoop (dl_running l) events (dl_wake l) (dl_run l) ph (dl_cancelled l) (dl_store l) (dl_blocked l) (dl_missed l).
Definition set_wake (w : bool) (l : Loop) : Loop :=
  mkLoop (dl_running l) (dl_events l) w (dl_run l) (dl_watch l) (dl_cancelled l) (dl_store l) (dl_blocked l) (dl_missed l).
Definition set_missed (m : bool) (l : Loop) : Loop :=
  mkLoop (dl_running l) (dl_events l) (dl_wake l) (dl_run l) (dl_watch l) (dl_cancelled l) (dl_store l) (dl_blocked l) m.
Definition set_store (s : St) (blocked : gset string) (l : Loop) : Loop :=
  mkLoop (dl_running l) (dl_events l) (dl_wake l) (dl_run l) (dl_watch l) (dl_cancelled l) s blocked (dl_missed l).

(** A change at the daemon is an event on the stream somebody reads. *)
Definition daemon_change (cs : list container) (l : Loop) : Loop :=
  let l' := mkLoop cs (dl_events l) (dl_wake l) (dl_run l) (dl_watch l) (dl_cancelled l) (dl_store l) (dl_blocked l) (dl_missed l) in
  match dl_watch l with
  | wt_reading _ _ => set_watch (dl_watch l) (S (dl_events l)) l'
  | _ => set_missed true l'
  end.

(** The actions of [watch] and of [streamEvents] under it. *)
Definition watch_step (a : action) (l : Loop) : option Loop :=
  match a, dl_watch l with
  | a_connect true, wt_asking b => Some (set_watch (wt_reading b 0) 0 l)
  | a_connect false, wt_asking b => Some (set_watch (wt_resting (pause b 0)) 0 l)
  | a_decode, wt_reading b n =>
      match dl_events l with
      | O => None
      | S more => Some (set_wake (signal (dl_wake l)) (set_watch (wt_reading b (n + 1)) more l))
      end
  | a_end, wt_reading b n =>
      Some (set_missed (dl_missed l || (0 <? dl_events l)%nat) (set_watch (wt_resting (pause b n)) 0 l))
  | a_retry, wt_resting b => Some (set_watch (wt_asking (next_backoff b)) 0 l)
  | a_watch_leave, _ =>
      if dl_cancelled l then Some (set_missed (dl_missed l || (0 <? dl_events l)%nat) (set_watch wt_left 0 l)) else None
  | _, _ => None
  end.

(** The actions of [run] and of [reconcile] under it, which changes nothing when the daemon does not
    answer or the registrations cannot be read. *)
Definition run_step (a : action) (l : Loop) : option Loop :=
  match a, dl_run l with
  | a_tick, rn_waiting => Some (set_run rn_asking l)
  | a_token, rn_waiting => if dl_wake l then Some (set_wake false (set_run rn_asking l)) else None
  | a_listed true, rn_asking => Some (set_missed false (set_run (rn_working (dl_running l)) l))
  | a_listed false, rn_asking =>
      let '(s, blocked) := reconcile cfg order None (dl_store l) (dl_blocked l) in
      Some (set_missed true (set_store s blocked (set_run rn_waiting l)))
  | a_applied true, rn_working cs =>
      let '(s, blocked) := reconcile cfg order (Some cs) (dl_store l) (dl_blocked l) in
      Some (set_store s blocked (set_run rn_waiting l))
  | a_applied false, rn_working cs => Some (set_missed true (set_run rn_waiting l))
  | a_run_leave, rn_waiting => if dl_cancelled l then Some (set_run rn_left l) else None
  | _, _ => None
  end.

Definition act (a : action) (l : Loop) : option Loop :=
  match a with
  | a_change cs => Some (daemon_change cs l)
  | a_other s => Some (set_store s (dl_blocked l) l)
  | a_cancel =>
      Some (mkLoop (dl_running l) (dl_events l) (dl_wake l) (dl_run l) (dl_watch l) true (dl_store l) (dl_blocked l) (dl_missed l))
  | a_connect _ | a_decode | a_end | a_retry | a_watch_leave => watch_step a l
  | _ => run_step a l
  end.

(** What the daemon and the administrators may do: containers whose records the store takes, and
    changes of the zone that add no registration. *)
Definition fair (a : action) (l : Loop) : Prop :=
  match a with
  | a_change cs => wants_ok (desired cfg cs)
  | a_other s => docker_zone s /\ forall t, registered s t -> registered (dl_store l) t
  | _ => True
  end.

Definition loop_step (l l' : Loop) : Prop := exists a, fair a l /\ act a l = Some l'.

(** ** What is left in the zone *)

(** Every registration is of a container that runs. *)
Definition current (l : Loop) : Prop := forall t, registered (dl_store l) t -> wanted (desired cfg (dl_running l)) t.

(** Someone is still to be told, or the work at hand is on the containers as they are. *)
Definition informed (l : Loop) : Prop :=
  dl_missed l = true \/ (0 < dl_events l)%nat \/ dl_wake l = true \/
  match dl_run l with
  | rn_asking | rn_left => True
  | rn_working cs => cs = dl_running l
  | rn_waiting => current l
  end.

Definition backoff_ok (ph : watch_phase) : Prop :=
  match ph with
  | wt_asking b | wt_reading b _ | wt_resting b => minBackoff <= b <= maxBackoff
  | wt_left => True
  end.

Record loop_ok (l : Loop) : Prop := {
  lo_zone : docker_zone (dl_store l);
  lo_running : wants_ok (desired cfg (dl_running l));
  lo_working : forall cs, dl_run l = rn_working cs -> wants_ok (desired cfg cs);
  lo_backoff : backoff_ok (dl_watch l);
  lo_events : match dl_watch l with wt_reading _ _ => True | _ => dl_events l = 0%nat end;
  lo_informed : informed l;
}.

Context (Hord : in_full order).

Lemma pause_bounds b n : minBackoff <= b <= maxBackoff -> minBackoff <= pause b n <= maxBackoff.
Proof. unfold pause, minBackoff, maxBackoff. destruct (0 <? n); lia. Qed.
Lemma next_bounds b : minBackoff <= b <= maxBackoff -> minBackoff <= next_backoff b <= maxBackoff.
Proof. unfold next_backoff, minBackoff, maxBackoff. lia. Qed.

Lemma Start_ok cs s : docker_zone s -> wants_ok (desired cfg cs) -> loop_ok (Start cs s).
Proof. intros Hz Hw. split; cbn; [done|done|done|unfold minBackoff, maxBackoff; lia|done|]. by right; right; right. Qed.

Lemma daemon_change_ok cs l : wants_ok (desired cfg cs) -> loop_ok l -> loop_ok (daemon_change cs l).
Proof.
  intros Hcs [Hz Hr Hw Hb He Hi]. unfold daemon_change.
  destruct (dl_watch l) eqn:Ew; (split; [done|done|done|cbn; by rewrite ?Ew|cbn; by rewrite ?Ew|]); [by left| |by left..].
  right. left. cbn. lia.
Qed.

(** What [watch] does to a loop leaves the containers, the work at hand and the zone alone. *)
Lemma watch_moves l ph events wake missed : loop_ok l -> backoff_ok ph -> match ph with wt_reading _ _ => True | _ => events = 0%nat end ->
  (dl_missed l = true -> missed = true) -> (dl_wake l = true -> wake = true) ->
  ((0 < dl_events l)%nat -> missed = true \/ (0 < events)%nat \/ wake = true) ->
  loop_ok (set_missed missed (set_wake wake (set_watch ph events l))).
Proof.
  intros [Hz Hr Hw _ _ Hi] Hb He Hm Hk Hev. split; [done..|]. unfold informed in *. cbn.
  destruct Hi as [?|[?|[?|?]]]; [left; by apply Hm| |right; right; left; by apply Hk|by do 3 right].
  destruct (Hev ltac:(done)) as [?|[?|?]]; auto.
Qed.

Lemma watch_step_ok a l l' : watch_step a l = Some l' -> loop_ok l -> loop_ok l'.
Proof.
  intros Ha Hl. assert (Hb := lo_backoff _ Hl). assert (He := lo_events _ Hl). unfold watch_step in Ha.
  assert (Hnone : dl_events l = 0%nat -> (0 < dl_events l)%nat -> dl_missed l = true \/ (0 < 0)%nat \/ dl_wake l = true) by lia.
  assert (Hlost : backoff_ok wt_left -> forall ph, backoff_ok ph -> match ph with wt_reading _ _ => False | _ => True end ->
    loop_ok (set_missed (dl_missed l || (0 <? dl_events l)%nat) (set_watch ph 0 l))).
  { intros _ ph Hph Hn. apply (watch_moves l ph 0 (dl_wake l)); [done|done|by destruct ph|by intros ->|done|].
    intros ->%Nat.ltb_lt. left. by rewrite orb_true_r. }
  destruct a as [cs|s|[]| | | | | | | | | |], (dl_watch l) as [b|b n|b|] eqn:Ew; try discriminate Ha; cbn [backoff_ok] in Hb;
    try (destruct (dl_cancelled l); [|discriminate Ha]; injection Ha as <-; by apply Hlost).
  - injection Ha as <-. by apply (watch_moves l (wt_reading b 0) 0 (dl_wake l) (dl_missed l)); auto.
  - injection Ha as <-. by apply (watch_moves l (wt_resting (pause b 0)) 0 (dl_wake l) (dl_missed l)); auto.
  - destruct (dl_events l) as [|more] eqn:Ev; [discriminate Ha|]. injection Ha as <-.
    apply (watch_moves l (wt_reading b (n + 1)) more (signal (dl_wake l)) (dl_missed l)); [done..|by intros ->|].
    intros _. right. right. by destruct (dl_wake l).
  - injection Ha as <-. apply Hlost; [done| |done]. by apply pause_bounds.
  - injection Ha as <-. apply (watch_moves l (wt_asking (next_backoff b)) 0 (dl_wake l) (dl_missed l)); auto. by apply next_bounds.
Qed.

(** A pass over the containers [cs] leaves registrations of those only. *)
Lemma pass_current cs s blocked s' blocked' : docker_zone s -> wants_ok (desired cfg cs) ->
  reconcile cfg order (Some cs) s blocked = (s', blocked') -> docker_zone s' /\ forall t, registered s' t -> wanted (desired cfg cs) t.
Proof.
  intros Hz Hw Hr. destruct (reconcile_pass cfg order cs s blocked s' blocked' Hz Hw Hord Hr) as ([Hz' _] & Hreg & _).
  split; [done|]. intros t Ht. by apply Hreg.
Qed.

Lemma run_step_ok a l l' : run_step a l = Some l' -> loop_ok l -> loop_ok l'.
Proof.
  intros Ha [Hz Hr Hw Hb He Hi]. unfold run_step in Ha.
  destruct a as [cs|s|[]| | | | | | |[]|[]| |], (dl_run l) as [| |cs'|] eqn:Er; try discriminate Ha.
  - injection Ha as <-. split; [done..|]. by do 3 right.
  - destruct (dl_wake l); [|discriminate Ha]. injection Ha as <-. split; [done..|]. by do 3 right.
  - injection Ha as <-. split; [done|done|by intros cs [= <-]|done..|]. by do 3 right.
  - injection Ha as <-. split; [done..|]. by left.
  - destruct (reconcile _ _ _ _ _) as [s' blocked'] eqn:Ep. injection Ha as <-.
    destruct (pass_current cs' _ _ _ _ Hz (Hw _ eq_refl) Ep) as [Hz' Hc]. split; [done..|]. unfold informed in *. cbn in *. rewrite Er in Hi.
    destruct Hi as [?|[?|[?| ->]]]; auto.
  - injection Ha as <-. split; [done..|]. by left.
  - destruct (dl_cancelled l); [|discriminate Ha]. injection Ha as <-. split; [done..|]. by do 3 right.
Qed.

Lemma act_ok a l l' : fair a l -> act a l = Some l' -> loop_ok l -> loop_ok l'.
Proof.
  intros Hf Ha Hl. destruct a as [cs|s| | | | | | | | | | |]; cbn [act fair] in *;
    try (by eapply watch_step_ok); try (by eapply run_step_ok); injection Ha as <-; [by apply daemon_change_ok| |].
  - destruct Hf as [Hz Hsub], Hl as [_ Hr Hw Hb He Hi]. split; [done..|]. unfold informed, current in *. cbn.
    destruct (dl_run l); [|done..]. destruct Hi as [?|[?|[?|Hc]]]; auto 6.
  - by destruct Hl.
Qed.

Lemma loop_run_ok l l' : rtc loop_step l l' -> loop_ok l -> loop_ok l'.
Proof. induction 1 as [|l1 l2 l3 (a & Hf & Ha) _ IH]; [done|]. intros Hl. apply IH. by eapply act_ok. Qed.

(** C20: the registration follows the daemon. At any time of any run of the two goroutines, with
    containers coming and going, the stream ending and the daemon or the zone failing: when [run] waits,
    nothing is left to read and nothing was missed, every registration in the zone is of a container
    that is running. What was missed costs one interval: the next tick, answered, brings the zone up
    to date. And the stream is asked for again after between one and thirty seconds. *)
Theorem no_stale_registration (cs : list container) (s : St) (l : Loop) :
  docker_zone s -> wants_ok (desired cfg cs) -> rtc loop_step (Start cs s) l ->
  (dl_run l = rn_waiting -> dl_wake l = false -> dl_events l = 0%nat -> dl_missed l = false -> current l) /\
  (dl_run l = rn_waiting -> exists l', (l1 ← act a_tick l; l2 ← act (a_listed true) l1; act (a_applied true) l2) = Some l' /\
     current l' /\ dl_missed l' = false) /\
  match dl_watch l with wt_resting b => minBackoff <= b <= maxBackoff | _ => True end.
Proof.
  intros Hz Hw Hrun. assert (Hl : loop_ok l) by (eapply loop_run_ok; [exact Hrun|by apply Start_ok]). split_and!.
  - intros Er Ewk Eev Em. destruct Hl as [_ _ _ _ _ Hi]. unfold informed in Hi. rewrite Er, Ewk, Eev, Em in Hi.
    destruct Hi as [?|[?|[?|?]]]; [done|lia|done|done].
  - intros Er. cbn [act run_step]. rewrite Er. cbn -[reconcile]. destruct (reconcile _ _ _ _ _) as [s' blocked'] eqn:Ep.
    eexists. split; [reflexivity|]. split; [|done]. intros t Ht. eapply pass_current; [apply Hl|apply Hl|exact Ep|exact Ht].
  - assert (Hb := lo_backoff _ Hl). destruct (dl_watch l); done.
Qed.
End Loop.

(** ** A container made anew while the stream is read *)

Section LoopSample.
#[local] Existing Instance sample_clock.
#[local] Existing Instance toy_dns.

Definition take_action (l : Loop) (a : action) : Loop := default l (act docker_config map_to_list a l).

Lemma actions_run acts l : Forall (fun a => forall l, fair docker_config a l) acts ->
  rtc (loop_step docker_config map_to_list) l (foldl take_action l acts).
Proof.
  intros Hf. revert l. induction Hf as [|a acts Ha Hf IH]; intros l; [constructor|]. cbn [foldl]. etrans; [|apply IH].
  unfold take_action. destruct (act _ _ _ _) as [l'|] eqn:E; [|constructor]. apply rtc_once. exists a. split; [apply Ha|exact E].
Qed.

Lemma sample_wants cs : cs = [web1] \/ cs = [web2; cache1] -> wants_ok (desired docker_config cs).
Proof.
  intros [-> | ->]; (split; [apply desired_ok; [by split_and!|by repeat constructor]|]); [exact sample_distinct1|exact sample_distinct].
Qed.

(** The first pass registers [web1]; the event of the change wakes [run], which asks again. *)
Definition replaced : Loop :=
  foldl take_action (Start [web1] empty_state)
    [a_connect true; a_listed true; a_applied true; a_change [web2; cache1]; a_decode; a_token; a_listed true; a_applied true].

Lemma no_stale_registration_witness :
  registrations (dl_store replaced) = [("docker:ccc", "cache.example.com", "192.0.2.11")] /\
  dl_missed replaced = false /\ current docker_config replaced.
Proof.
  split; [vm_compute; reflexivity|]. split; [vm_compute; reflexivity|].
  refine (proj1 (no_stale_registration docker_config map_to_list _ [web1] empty_state replaced empty_docker_zone _ _) _ _ _ _).
  - by intros m.
  - apply sample_wants. by left.
  - apply actions_run. repeat (constructor; [done|]). constructor; [intros l; apply sample_wants; by right|]. repeat (constructor; [done|]). constructor.
  - vm_compute. reflexivity.
  - vm_compute. reflexivity.
  - vm_compute. reflexivity.
  - vm_compute. reflexivity.
Defined.
End LoopSample.
