(* ===== verification/Directory.v ===== *)
(** * Accounts and groups: package [store], users.go, groups.go, attrs.go, capabilities.go,
    idrange.go, authority.go, login.go

    The directory side of the store: users with their child rows, groups and their inclusion,
    custom attributes, capabilities, and the allocation of security identifiers. *)

From S2P Require Import Prelude Names Keytab Model IdRange Db Principals.

(** ** Breadth-first closure

    The loop [ExpandGroup] and [GroupsContaining] of the store's groups.go share: a queue, a set of
    what was seen, and the successors of a node read from the database. *)

(** [for _, g := range next { if !seen[g] { seen[g] = true; queue = append(queue, g) } }]. *)
Definition visit (sq : gset Z * list Z) (g : Z) : gset Z * list Z :=
  if decide (g ∈ fst sq) then sq else ({[g]} ∪ fst sq, snd sq ++ [g]).

Lemma visits_spec gs seen queue seen' queue' :
  fold_left visit gs (seen, queue) = (seen', queue') ->
  exists new, queue' = queue ++ new /\ seen' = list_to_set new ∪ seen /\ NoDup new /\
    (forall g, g ∈ new <-> g ∈ gs /\ g ∉ seen).
Proof.
  revert seen queue. induction gs as [|g gs IH]; intros seen queue; cbn [fold_left].
  - intros [= <- <-]. exists []. rewrite app_nil_r. split_and!; [done|set_solver|constructor|set_solver].
  - unfold visit at 2. cbn [fst snd]. destruct (decide (g ∈ seen)) as [Hg|Hg]; intros Hrun.
    + destruct (IH _ _ Hrun) as (new & -> & -> & Hnd & Hn). exists new. split_and!; try done. set_solver.
    + destruct (IH _ _ Hrun) as (new & -> & -> & Hnd & Hn). exists (g :: new). rewrite <- app_assoc.
      split_and!; [done|set_solver|constructor; [set_solver|done]|].
      intros x. rewrite elem_of_cons, Hn. destruct (decide (x = g)); set_solver.
Qed.

Section Bfs.
Context (next : Z -> list Z).

Fixpoint bfs (fuel : nat) (seen : gset Z) (queue : list Z) : option (gset Z) :=
  match fuel with
  | O => None
  | S fuel' =>
      match queue with
      | [] => Some seen
      | cur :: queue' =>
          let '(seen', queue'') := fold_left visit (next cur) (seen, queue') in
          bfs fuel' seen' queue''
      end
  end.

Definition edge (x y : Z) : Prop := y ∈ next x.

(** Each round takes one node off the queue, and a node enters it once. *)
Lemma bfs_terminates (U : gset Z) fuel seen queue :
  (forall x y, edge x y -> y ∈ U) ->
  (List.length queue + size (U ∖ seen) < fuel)%nat -> is_Some (bfs fuel seen queue).
Proof.
  intros HU. revert seen queue. induction fuel as [|fuel IH]; intros seen queue Hf; [lia|]. cbn [bfs].
  destruct queue as [|cur queue]; [eauto|].
  destruct (fold_left visit (next cur) (seen, queue)) as [seen' queue'] eqn:E.
  apply visits_spec in E as (new & -> & -> & Hnd & Hn). apply IH.
  assert (Hsub : list_to_set new ⊆ U ∖ seen).
  { intros x [Hx Hs]%elem_of_list_to_set%Hn. apply elem_of_difference. split; [by eapply HU|done]. }
  assert (Hsz : size (U ∖ seen) = (List.length new + size (U ∖ (list_to_set new ∪ seen)))%nat).
  { rewrite <- (size_list_to_set (C := gset Z) new Hnd).
    rewrite <- size_union by set_solver. f_equal. set_unfold. intros x. specialize (Hsub x). set_unfold. 
    destruct (decide (x ∈ new)); naive_solver. }
  rewrite length_app. cbn [List.length] in Hf. lia.
Qed.

(** What the search returns is what the edges reach. *)
Lemma bfs_sound fuel seen queue out (starts : Z -> Prop) :
  bfs fuel seen queue = Some out ->
  (forall x, x ∈ queue -> x ∈ seen) ->
  (forall x, x ∈ seen -> exists s, starts s /\ rtc edge s x) ->
  (forall x y, x ∈ seen -> x ∉ queue -> edge x y -> y ∈ seen) ->
  (forall s, starts s -> s ∈ seen) ->
  forall x, x ∈ out <-> exists s, starts s /\ rtc edge s x.
Proof.
  revert seen queue. induction fuel as [|fuel IH]; intros seen queue; [done|]. cbn [bfs].
  destruct queue as [|cur queue].
  - intros [= ->] _ Hreach Hclosed Hstart x. split; [apply Hreach|]. intros (s & Hs & Hr).
    apply Hstart in Hs. clear Hstart. induction Hr as [|s y x He Hr IHr]; [done|].
    apply IHr. eapply Hclosed; [done|apply not_elem_of_nil|done].
  - destruct (fold_left visit (next cur) (seen, queue)) as [seen' queue'] eqn:E.
    apply visits_spec in E as (new & -> & -> & _ & Hn). intros Hrun Hq Hreach Hclosed Hstart.
    apply (IH _ _ Hrun).
    + intros x [Hx|Hx]%elem_of_app; apply elem_of_union; [right; apply Hq; by right|left; by apply elem_of_list_to_set].
    + intros x [Hx%elem_of_list_to_set|Hx]%elem_of_union; [|by apply Hreach].
      apply Hn in Hx as [Hx _]. destruct (Hreach cur) as (s & Hs & Hr); [apply Hq; left|].
      exists s. split; [done|]. by eapply rtc_r.
    + intros x y Hx Hnq He. apply not_elem_of_app in Hnq as [Hnq Hnn].
      apply elem_of_union in Hx as [Hx%elem_of_list_to_set|Hx]; [done|].
      destruct (decide (x = cur)) as [->|Hne].
      * apply elem_of_union. destruct (decide (y ∈ seen)); [by right|]. left. apply elem_of_list_to_set, Hn. done.
      * apply elem_of_union. right. apply (Hclosed x); [done|by apply not_elem_of_cons|done].
    + intros s Hs. apply elem_of_union. right. by apply Hstart.
Qed.
End Bfs.

(** ** Custom attributes *)

Definition reservedAttrNames : list string := [
  "accountstatus"; "cn"; "description"; "dn"; "entrydn"; "gecos"; "gidnumber"; "givenname";
  "hassubordinates"; "homedirectory"; "ipantsecurityidentifier"; "ipasshpubkey";
  "krbcanonicalname"; "krblastfailedauth"; "krblastpwdchange"; "krblastsuccessfulauth";
  "krbloginfailedcount"; "krbmaxrenewableage"; "krbmaxticketlife"; "krbpasswordexpiration";
  "krbprincipalexpiration"; "krbprincipalname"; "krbticketflags"; "loginshell"; "mail"; "member";
  "memberof"; "memberuid"; "objectclass"; "ou"; "shadowexpire"; "shadowflag"; "shadowinactive";
  "shadowlastchange"; "shadowmax"; "shadowmin"; "shadowwarning"; "sn"; "sshpublickey"; "uid";
  "uidnumber"; "uniquemember"; "userprincipalname"].

(** The tests one attribute has to pass. *)
Definition bad_attr (nv : string * list string) : bool :=
  let trimmed := TrimSpace (fst nv) in
  negb (String.length trimmed =? String.length (fst nv))%nat || (String.length trimmed =? 0)%nat
  || existsb (String.eqb (ToLower trimmed)) reservedAttrNames
  || existsb (fun v => (String.length v =? 0)%nat) (snd nv).

Definition ValidateCustomAttrs (attrs : gmap string (list string)) : outcome StoreErr unit :=
  err_if (existsb bad_attr (map_to_list attrs)) ErrInvalidAttribute.

Definition attr_le (a b : AttrRow) : bool :=
  match String.compare (at_name a) (at_name b) with
  | Lt => true
  | Gt => false
  | Eq => at_position a <=? at_position b
  end.

Definition owned_attrs (kind : owner_kind) (owner : Z) (t : list AttrRow) : list AttrRow :=
  filter (fun r => at_kind r = kind /\ at_owner_id r = owner) t.

Definition add_attr (out : gmap string (list string)) (r : AttrRow) : gmap string (list string) :=
  <[at_name r := default [] (out !! at_name r) ++ [at_value r]]> out.

Definition loadAttrs (d : DB) (kind : owner_kind) (owner : Z) : gmap string (list string) :=
  fold_left add_attr (sort_by attr_le (owned_attrs kind owner (object_attrs (dt d)))) ∅.

Definition attr_rows (kind : owner_kind) (owner : Z) (attrs : gmap string (list string)) : list AttrRow :=
  n ← sort_by string_le (map_to_list attrs).*1;
  imap (fun i v => mkAttrRow kind owner n (Z.of_nat i) v) (default [] (attrs !! n)).

Definition deleteAttrs (kind : owner_kind) (owner : Z) : Tx unit :=
  update_dt (set_attrs (filter (fun r => ~ (at_kind r = kind /\ at_owner_id r = owner)))).

Definition replaceAttrs (kind : owner_kind) (owner : Z) (attrs : gmap string (list string)) : Tx unit :=
  _ ← lift (ValidateCustomAttrs attrs);
  _ ← deleteAttrs kind owner;
  update_dt (set_attrs (fun t => t ++ attr_rows kind owner attrs)).

(** ** Capabilities *)

Definition loadCapabilities (d : DB) (kind : owner_kind) (owner : Z) : list Capability :=
  (fun r => mkCapability (cr_action r) (cr_object r)) <$>
    filter (fun r => cr_kind r = kind /\ cr_owner_id r = owner) (capabilities (dt d)).

Definition replaceCapabilities (kind : owner_kind) (owner : Z) (caps : list Capability) : Tx unit :=
  _ ← update_dt (set_capabilities (filter (fun r => ~ (cr_kind r = kind /\ cr_owner_id r = owner))));
  update_dt (set_capabilities (fun t => t ++
    ((fun c => mkCapabilityRow kind owner (c_Action c) (c_Object c)) <$>
     filter (fun c => c_Action c <> EmptyString) caps))).

(** [CapabilityMatches]: the first capability of the action that covers the object. *)
Definition CapabilityMatches (caps : list Capability) (action object : string) : bool :=
  let object := ToLower object in
  existsb (fun c =>
    if negb (EqualFold (c_Action c) action) then false
    else
      let target := ToLower (c_Object c) in
      String.eqb target "*" || String.eqb target object || HasSuffix object ("," +:+ target)) caps.

(** ** Security identifiers *)

(** [INSERT INTO security_identifiers ... ON CONFLICT DO NOTHING]: whether a row went in. *)
Definition insert_rid (rid : Z) (kind : owner_kind) (owner now : Z) : Tx bool := fun s =>
  let d := st_db s in
  if existsb (fun r => (si_rid r =? rid) || (bool_decide (si_kind r = kind) && (si_owner_id r =? owner)))
       (security_identifiers (dt d))
  then (Ok false, s)
  else (Ok true, set_db (set_dt (set_sids (fun t => t ++ [mkSIDRow rid kind owner now]) (dt d)) d) s).

Section Directory.
Context `{Clock, Rand, AEAD}.

Definition allocateRID (kind : owner_kind) (owner posixID : Z) : Tx unit :=
  range ← (fun s => (Ok (st_idRange s), s)) : Tx IDRange;
  if negb (Contains range posixID) then mret tt
  else
    let '(primary, secondary) := rids range posixID in
    now ← time_now;
    done1 ← insert_rid primary kind owner (Unix now);
    if (done1 : bool) then mret tt
    else
      done2 ← insert_rid secondary kind owner (Unix now);
      throw_if (negb done2) ErrNoFreeRID.

Definition releaseRID (kind : owner_kind) (owner : Z) : Tx unit :=
  update_dt (set_sids (filter (fun r => ~ (si_kind r = kind /\ si_owner_id r = owner)))).

Definition reallocateRID (kind : owner_kind) (owner posixID : Z) : Tx unit :=
  _ ← releaseRID kind owner;
  allocateRID kind owner posixID.

Definition ridFor (d : DB) (kind : owner_kind) (owner : Z) : option Z :=
  si_rid <$> List.find (fun r => bool_decide (si_kind r = kind) && (si_owner_id r =? owner)) (security_identifiers (dt d)).

(** [RIDs]: every identifier of a kind, by the object it belongs to. *)
Definition RIDs (d : DB) (kind : owner_kind) : gmap Z Z :=
  list_to_map ((fun r => (si_owner_id r, si_rid r)) <$> filter (fun r => si_kind r = kind) (security_identifiers (dt d))).

(** ** Reading users *)

Definition scanUser (r : UserRow) : User := {|
  u_ID := ur_id r; u_Name := ur_name r; u_UIDNumber := ur_uid_number r;
  u_PrimaryGroup := ur_primary_group r; u_OtherGroups := []; u_GivenName := ur_given_name r;
  u_SN := ur_sn r; u_Mail := ur_mail r; u_LoginShell := ur_login_shell r; u_Homedir := ur_home_dir r;
  u_Disabled := ur_disabled r; u_SSHKeys := []; u_CustomAttrs := ∅; u_Capabilities := [];
  u_AppPasswords := []; u_CreatedAt := UnixTime (ur_created_at r); u_UpdatedAt := UnixTime (ur_updated_at r);
  u_PassBcrypt := ur_pass_bcrypt r; u_OTPSecret := ur_otp_secret r;
  u_HasOTP := negb (String.length (ur_otp_secret r) =? 0)%nat;
  u_HasPassword := negb (String.length (ur_pass_bcrypt r) =? 0)%nat |}.

Definition ssh_le (a b : SSHKeyRow) : bool := sk_position a <=? sk_position b.
Definition app_le (a b : AppPasswordRow) : bool := aw_id a <=? aw_id b.

Definition decorateUser (d : DB) (u : User) : User := {|
  u_ID := u_ID u; u_Name := u_Name u; u_UIDNumber := u_UIDNumber u; u_PrimaryGroup := u_PrimaryGroup u;
  u_OtherGroups := sort_by Z.leb (filter (fun p => fst p = u_ID u) (user_groups (dt d))).*2;
  u_GivenName := u_GivenName u; u_SN := u_SN u; u_Mail := u_Mail u; u_LoginShell := u_LoginShell u;
  u_Homedir := u_Homedir u; u_Disabled := u_Disabled u;
  u_SSHKeys := sk_key <$> sort_by ssh_le (filter (fun r => sk_user_id r = u_ID u) (user_ssh_keys (dt d)));
  u_CustomAttrs := loadAttrs d kind_user (u_ID u); u_Capabilities := loadCapabilities d kind_user (u_ID u);
  u_AppPasswords := (fun r => mkAppPassword (aw_id r) (aw_name r) (UnixTime (aw_created_at r)) (aw_hash r)) <$>
    sort_by app_le (filter (fun r => aw_user_id r = u_ID u) (user_app_passwords (dt d)));
  u_CreatedAt := u_CreatedAt u; u_UpdatedAt := u_UpdatedAt u; u_PassBcrypt := u_PassBcrypt u;
  u_OTPSecret := u_OTPSecret u; u_HasOTP := u_HasOTP u; u_HasPassword := u_HasPassword u |}.

Definition getUser (d : DB) (where_ : UserRow -> bool) : outcome StoreErr User :=
  r ← or_err ErrNotFound (List.find where_ (users (dt d)));
  mret (decorateUser d (scanUser r)).

(** [name = ?] on a column that ignores case. *)
Definition user_named (name : string) (r : UserRow) : bool := EqualFold (ur_name r) name.

Definition GetUser (name : string) : Tx User := query_outcome (fun d => getUser d (user_named name)).
Definition GetUserByUID (uid : Z) : Tx User := query_outcome (fun d => getUser d (fun r => ur_uid_number r =? uid)).
Definition GetUserByID (id : Z) : Tx User := query_outcome (fun d => getUser d (fun r => ur_id r =? id)).

Definition uid_le (a b : UserRow) : bool := ur_uid_number a <=? ur_uid_number b.

Definition ListUsers : Tx (list User) :=
  query (fun d => (fun r => decorateUser d (scanUser r)) <$> sort_by uid_le (users (dt d))).

(** [UserByLogin]: an account name, or a mail address. *)
Definition UserByLogin (login : string) : Tx User := fun s =>
  let login := TrimSpace login in
  if (String.length login =? 0)%nat then (Err ErrNotFound, s)
  else match GetUser login s with
       | (Ok u, s') => (Ok u, s')
       | (Err ErrNotFound, s') =>
           if negb (contains_char "@"%char login) then (Err ErrNotFound, s')
           else match ListUsers s' with
                | (Ok us, s'') =>
                    match List.find (fun u => EqualFold (u_Mail u) login) us with
                    | Some u => GetUser (u_Name u) s''
                    | None => (Err ErrNotFound, s'')
                    end
                | (Err e, s'') => (Err e, s'')
                | (Panic, s'') => (Panic, s'')
                end
       | (r, s') => (r, s')
       end.

(** ** Writing users *)

Definition user_row (u : User) (id created updated : Z) : UserRow := {|
  ur_id := id; ur_name := u_Name u; ur_uid_number := u_UIDNumber u; ur_primary_group := u_PrimaryGroup u;
  ur_given_name := u_GivenName u; ur_sn := u_SN u; ur_mail := u_Mail u; ur_login_shell := u_LoginShell u;
  ur_home_dir := u_Homedir u; ur_disabled := u_Disabled u; ur_pass_bcrypt := u_PassBcrypt u;
  ur_otp_secret := u_OTPSecret u; ur_created_at := created; ur_updated_at := updated |}.

(** The unique indexes of users: the name, ignoring case, and the uid. *)
Definition user_clash (r q : UserRow) : bool :=
  EqualFold (ur_name q) (ur_name r) || (ur_uid_number q =? ur_uid_number r).

Definition insert_user (mk : Z -> UserRow) : Tx Z := fun s =>
  let d := st_db s in
  let id := seq_users (dt d) + 1 in
  let r := mk id in
  if existsb (user_clash r) (users (dt d)) then (Err ErrConflict, s)
  else (Ok id, set_db (set_dt (set_seqs id (seq_groups (dt d)) (seq_app_passwords (dt d))
          (set_users (fun t => t ++ [r]) (dt d))) d) s).

Definition insert_ignore (x : Z * Z) (t : list (Z * Z)) : list (Z * Z) :=
  if bool_decide (x ∈ t) then t else t ++ [x].

Definition writeUserChildren (u : User) : Tx unit :=
  _ ← update_dt (set_user_groups (filter (fun p => fst p <> u_ID u)));
  _ ← update_dt (set_user_groups (fun t => fold_left (fun t gid => insert_ignore (u_ID u, gid) t)
        (filter (fun gid => gid <> u_PrimaryGroup u) (sort_by Z.leb (u_OtherGroups u))) t));
  _ ← update_dt (set_ssh_keys (filter (fun r => sk_user_id r <> u_ID u)));
  _ ← update_dt (set_ssh_keys (fun t => t ++ imap (fun i k => mkSSHKeyRow (u_ID u) (Z.of_nat i) k) (u_SSHKeys u)));
  _ ← replaceAttrs kind_user (u_ID u) (u_CustomAttrs u);
  replaceCapabilities kind_user (u_ID u) (u_Capabilities u).

Definition with_user_id (id : Z) (created updated : Time) (u : User) : User := {|
  u_ID := id; u_Name := u_Name u; u_UIDNumber := u_UIDNumber u; u_PrimaryGroup := u_PrimaryGroup u;
  u_OtherGroups := u_OtherGroups u; u_GivenName := u_GivenName u; u_SN := u_SN u; u_Mail := u_Mail u;
  u_LoginShell := u_LoginShell u; u_Homedir := u_Homedir u; u_Disabled := u_Disabled u;
  u_SSHKeys := u_SSHKeys u; u_CustomAttrs := u_CustomAttrs u; u_Capabilities := u_Capabilities u;
  u_AppPasswords := u_AppPasswords u; u_CreatedAt := created; u_UpdatedAt := updated;
  u_PassBcrypt := u_PassBcrypt u; u_OTPSecret := u_OTPSecret u; u_HasOTP := u_HasOTP u;
  u_HasPassword := u_HasPassword u |}.

Definition CreateUser (u : User) : Tx User :=
  _ ← throw_if (String.length (u_Name u) =? 0)%nat ErrNameRequired;
  _ ← throw_if (u_UIDNumber u <=? 0) ErrNumberRequired;
  now ← time_now;
  write (
    id ← insert_user (fun id => user_row u id (Unix now) (Unix now));
    let u := with_user_id id now now u in
    _ ← allocateRID kind_user id (u_UIDNumber u);
    _ ← writeUserChildren u;
    mret u).

(** [UPDATE principals SET name = ?, updated_at = ? WHERE user_id = ? AND name != ?]. *)
Definition renamed_row (name : string) (now : Z) (r : PrincipalRow) : PrincipalRow := {|
  pr_id := pr_id r; pr_name := name; pr_realm := pr_realm r; pr_user_id := pr_user_id r;
  pr_kvno := pr_kvno r; pr_enabled := pr_enabled r; pr_requires_preauth := pr_requires_preauth r;
  pr_allow_forwardable := pr_allow_forwardable r; pr_allow_proxiable := pr_allow_proxiable r;
  pr_allow_renewable := pr_allow_renewable r; pr_allow_postdate := pr_allow_postdate r;
  pr_ok_as_delegate := pr_ok_as_delegate r; pr_ok_to_auth_as_delegate := pr_ok_to_auth_as_delegate r;
  pr_max_ticket_life := pr_max_ticket_life r; pr_max_renewable_life := pr_max_renewable_life r;
  pr_password_last_set := pr_password_last_set r; pr_password_expires_at := pr_password_expires_at r;
  pr_expires_at := pr_expires_at r; pr_locked_until := pr_locked_until r; pr_fail_count := pr_fail_count r;
  pr_last_success := pr_last_success r; pr_last_failure := pr_last_failure r;
  pr_created_at := pr_created_at r; pr_updated_at := now |}.

Definition rename_principals (uid : Z) (name : string) (now : Z) (d : DB) : outcome StoreErr DB :=
  let rows := map (fun r => if bool_decide (pr_user_id r = Some uid) && negb (String.eqb (pr_name r) name)
                            then renamed_row name now r else r) (principals (kt d)) in
  if bool_decide (NoDup ((fun r => (pr_name r, pr_realm r)) <$> rows))
  then Ok (set_kt (set_principals (fun _ => rows) (kt d)) d)
  else Err ErrConflict.

Definition update_user_row (u : User) (now : Z) (d : DB) : outcome StoreErr DB :=
  let clash q := negb (ur_id q =? u_ID u) && user_clash (user_row u (u_ID u) 0 0) q in
  if existsb clash (users (dt d)) then Err ErrConflict
  else Ok (set_dt (set_users (map (fun r => if ur_id r =? u_ID u
             then user_row u (ur_id r) (ur_created_at r) now else r)) (dt d)) d).

Definition with_credential_state (now : Time) (u : User) : User := {|
  u_ID := u_ID u; u_Name := u_Name u; u_UIDNumber := u_UIDNumber u; u_PrimaryGroup := u_PrimaryGroup u;
  u_OtherGroups := u_OtherGroups u; u_GivenName := u_GivenName u; u_SN := u_SN u; u_Mail := u_Mail u;
  u_LoginShell := u_LoginShell u; u_Homedir := u_Homedir u; u_Disabled := u_Disabled u;
  u_SSHKeys := u_SSHKeys u; u_CustomAttrs := u_CustomAttrs u; u_Capabilities := u_Capabilities u;
  u_AppPasswords := u_AppPasswords u; u_CreatedAt := u_CreatedAt u; u_UpdatedAt := now;
  u_PassBcrypt := u_PassBcrypt u; u_OTPSecret := u_OTPSecret u;
  u_HasOTP := negb (String.length (u_OTPSecret u) =? 0)%nat;
  u_HasPassword := negb (String.length (u_PassBcrypt u) =? 0)%nat |}.

Definition UpdateUser (name : string) (mutate : User -> outcome StoreErr User) : Tx User :=
  write (
    u ← query_outcome (fun d => getUser d (user_named name));
    let before := u_UIDNumber u in
    u ← lift (mutate u);
    now ← time_now;
    _ ← exec (update_user_row u (Unix now));
    _ ← writeUserChildren u;
    _ ← (if negb (u_UIDNumber u =? before) then reallocateRID kind_user (u_ID u) (u_UIDNumber u) else mret tt);
    _ ← exec (rename_principals (u_ID u) (u_Name u) (Unix now));
    mret (with_credential_state now u)).

(** The delete of the user row and what goes with it through the foreign keys. *)
Definition delete_user_row (uid : Z) (d : DB) : DB :=
  set_zt (set_certs (filter (fun r => ct_user_id r <> uid)) (zt d))
  (set_kt (delete_principals (fun r => bool_decide (pr_user_id r = Some uid)) (kt d))
  (set_dt (set_users (filter (fun r => ur_id r <> uid))
  (set_user_groups (filter (fun p => fst p <> uid))
  (set_ssh_keys (filter (fun r => sk_user_id r <> uid))
  (set_app_passwords (filter (fun r => aw_user_id r <> uid)) (dt d))))) d)).

Definition DeleteUser (name : string) : Tx unit :=
  write (
    u ← query_outcome (fun d => getUser d (user_named name));
    _ ← update_dt (set_capabilities (filter (fun r => ~ (cr_kind r = kind_user /\ cr_owner_id r = u_ID u))));
    _ ← releaseRID kind_user (u_ID u);
    _ ← deleteAttrs kind_user (u_ID u);
    update (delete_user_row (u_ID u))).

Definition AddAppPassword (userName name hash : string) : Tx AppPassword :=
  write (
    u ← query_outcome (fun d => getUser d (user_named userName));
    now ← time_now;
    id ← query (fun d => seq_app_passwords (dt d) + 1);
    _ ← update_dt (fun t => set_seqs (seq_users t) (seq_groups t) id
          (set_app_passwords (fun l => l ++ [mkAppPasswordRow id (u_ID u) name hash (Unix now)]) t));
    mret (mkAppPassword id name now hash)).

Definition DeleteAppPassword (userName : string) (id : Z) : Tx unit :=
  write (
    u ← query_outcome (fun d => getUser d (user_named userName));
    n ← query (fun d => List.length (filter (fun r => aw_id r = id /\ aw_user_id r = u_ID u) (user_app_passwords (dt d))));
    _ ← update_dt (set_app_passwords (filter (fun r => ~ (aw_id r = id /\ aw_user_id r = u_ID u))));
    throw_if (n =? 0)%nat ErrNotFound).

(** ** Groups *)

Definition loadIncludes (d : DB) (gid : Z) : list Z :=
  sort_by Z.leb (filter (fun p => fst p = gid) (group_includes (dt d))).*2.

Definition scanGroup (d : DB) (r : GroupRow) : Group :=
  mkGroup (gr_id r) (gr_name r) (gr_gid_number r) (gr_description r) (loadIncludes d (gr_id r))
    (loadCapabilities d kind_group (gr_id r)) (loadAttrs d kind_group (gr_id r))
    (UnixTime (gr_created_at r)) (UnixTime (gr_updated_at r)).

Definition getGroup (d : DB) (where_ : GroupRow -> bool) : outcome StoreErr Group :=
  r ← or_err ErrNotFound (List.find where_ (groups (dt d)));
  mret (scanGroup d r).

Definition group_named (name : string) (r : GroupRow) : bool := EqualFold (gr_name r) name.

Definition GetGroup (name : string) : Tx Group := query_outcome (fun d => getGroup d (group_named name)).
Definition GetGroupByGID (gid : Z) : Tx Group := query_outcome (fun d => getGroup d (fun r => gr_gid_number r =? gid)).

Definition gid_le (a b : GroupRow) : bool := gr_gid_number a <=? gr_gid_number b.
Definition ListGroups : Tx (list Group) := query (fun d => scanGroup d <$> sort_by gid_le (groups (dt d))).

Definition GroupNames : Tx (gmap Z string) :=
  query (fun d => list_to_map ((fun r => (gr_gid_number r, gr_name r)) <$> groups (dt d))).

Definition replaceIncludes (groupID : Z) (gids : list Z) : Tx unit :=
  _ ← update_dt (set_includes (filter (fun p => fst p <> groupID)));
  update_dt (set_includes (fun t => fold_left (fun t gid => insert_ignore (groupID, gid) t) gids t)).

Definition group_clash (name : string) (gid : Z) (q : GroupRow) : bool :=
  EqualFold (gr_name q) name || (gr_gid_number q =? gid).

Definition insert_group (mk : Z -> GroupRow) : Tx Z := fun s =>
  let d := st_db s in
  let id := seq_groups (dt d) + 1 in
  let r := mk id in
  if existsb (group_clash (gr_name r) (gr_gid_number r)) (groups (dt d)) then (Err ErrConflict, s)
  else (Ok id, set_db (set_dt (set_seqs (seq_users (dt d)) id (seq_app_passwords (dt d))
          (set_groups (fun t => t ++ [r]) (dt d))) d) s).

Definition CreateGroup (g : Group) : Tx Group :=
  _ ← throw_if (String.length (g_Name g) =? 0)%nat ErrNameRequired;
  _ ← throw_if (g_GIDNumber g <=? 0) ErrNumberRequired;
  now ← time_now;
  write (
    id ← insert_group (fun id => mkGroupRow id (g_Name g) (g_GIDNumber g) (g_Description g) (Unix now) (Unix now));
    _ ← allocateRID kind_group id (g_GIDNumber g);
    _ ← replaceIncludes id (g_IncludeGroups g);
    _ ← replaceAttrs kind_group id (g_CustomAttrs g);
    _ ← replaceCapabilities kind_group id (g_Capabilities g);
    mret (mkGroup id (g_Name g) (g_GIDNumber g) (g_Description g) (g_IncludeGroups g) (g_Capabilities g)
            (g_CustomAttrs g) now now)).

Definition update_group_row (g : Group) (now : Z) (d : DB) : outcome StoreErr DB :=
  let clash q := negb (gr_id q =? g_ID g) && group_clash (g_Name g) (g_GIDNumber g) q in
  if existsb clash (groups (dt d)) then Err ErrConflict
  else Ok (set_dt (set_groups (map (fun r => if gr_id r =? g_ID g
             then mkGroupRow (gr_id r) (g_Name g) (g_GIDNumber g) (g_Description g) (gr_created_at r) now else r)) (dt d)) d).

Definition UpdateGroup (name : string) (mutate : Group -> outcome StoreErr Group) : Tx Group :=
  write (
    g ← query_outcome (fun d => getGroup d (group_named name));
    let before := g_GIDNumber g in
    g ← lift (mutate g);
    _ ← throw_if (String.length (g_Name g) =? 0)%nat ErrNameRequired;
    now ← time_now;
    _ ← exec (update_group_row g (Unix now));
    _ ← (if negb (g_GIDNumber g =? before) then reallocateRID kind_group (g_ID g) (g_GIDNumber g) else mret tt);
    _ ← replaceIncludes (g_ID g) (g_IncludeGroups g);
    _ ← replaceAttrs kind_group (g_ID g) (g_CustomAttrs g);
    _ ← replaceCapabilities kind_group (g_ID g) (g_Capabilities g);
    mret (mkGroup (g_ID g) (g_Name g) (g_GIDNumber g) (g_Description g) (g_IncludeGroups g) (g_Capabilities g)
            (g_CustomAttrs g) (g_CreatedAt g) now)).

Definition DeleteGroup (name : string) : Tx unit :=
  write (
    g ← query_outcome (fun d => getGroup d (group_named name));
    n ← query (fun d => List.length (filter (fun u => ur_primary_group u = g_GIDNumber g) (users (dt d))));
    _ ← throw_if (0 <? n)%nat ErrPrimaryGroup;
    _ ← update_dt (set_user_groups (filter (fun p => snd p <> g_GIDNumber g)));
    _ ← update_dt (set_includes (filter (fun p => snd p <> g_GIDNumber g)));
    _ ← update_dt (set_capabilities (filter (fun r => ~ (cr_kind r = kind_group /\ cr_owner_id r = g_ID g))));
    _ ← deleteAttrs kind_group (g_ID g);
    _ ← releaseRID kind_group (g_ID g);
    update_dt (fun t => set_includes (filter (fun p => fst p <> g_ID g))
                          (set_groups (filter (fun r => gr_id r <> g_ID g)) t))).

(** ** Membership *)

(** The gids the groups with gid [cur] include, and the gids of the groups that include [cur]. *)
Definition included_gids (d : DB) (cur : Z) : list Z :=
  p ← group_includes (dt d);
  if existsb (fun g => (gr_id g =? fst p) && (gr_gid_number g =? cur)) (groups (dt d)) then [snd p] else [].

Definition including_gids (d : DB) (cur : Z) : list Z :=
  g ← groups (dt d);
  const (gr_gid_number g) <$> filter (fun p => fst p = gr_id g /\ snd p = cur) (group_includes (dt d)).

(** Enough rounds for every node the search can meet. *)
Definition search_fuel (d : DB) (starts : list Z) : nat :=
  S (List.length starts + List.length (group_includes (dt d)) + List.length (groups (dt d))).

Definition ExpandGroup (d : DB) (gid : Z) : option (list Z) :=
  seen ← bfs (included_gids d) (search_fuel d [gid]) {[gid]} [gid];
  Some (sort_by Z.leb (elements seen)).

Definition GroupsContaining (d : DB) (gids : list Z) : option (list Z) :=
  let '(seen, queue) := fold_left visit gids (∅, []) in
  seen ← bfs (including_gids d) (search_fuel d gids) seen queue;
  Some (sort_by Z.leb (elements seen)).

Definition UserGIDs (d : DB) (u : User) : option (list Z) :=
  GroupsContaining d (u_PrimaryGroup u :: u_OtherGroups u).

Definition nocase_le (a b : string) : bool := String.leb (ToLower a) (ToLower b).

Definition GroupMembers (d : DB) (gid : Z) : option (list string) :=
  gids ← ExpandGroup d gid;
  Some (sort_by nocase_le (ur_name <$> filter (fun u =>
    ur_primary_group u ∈ gids \/ Exists (fun p => fst p = ur_id u /\ snd p ∈ gids) (user_groups (dt d)))
    (users (dt d)))).

(** ** Authority *)

Fixpoint any_group_grants (d : DB) (gids : list Z) (action object : string) : bool :=
  match gids with
  | [] => false
  | gid :: gids' =>
      match getGroup d (fun r => gr_gid_number r =? gid) with
      | Ok g => if CapabilityMatches (g_Capabilities g) action object then true
                else any_group_grants d gids' action object
      | _ => any_group_grants d gids' action object
      end
  end.

Definition HasCapability (d : DB) (u : User) (action object : string) : option bool :=
  let object := ToLower object in
  if CapabilityMatches (u_Capabilities u) action object then Some true
  else
    gids ← UserGIDs d u;
    Some (any_group_grants d gids action object).

Definition IsDirectoryAdmin (d : DB) (u : option User) (baseDN : string) : option bool :=
  match u with
  | None => Some false
  | Some u => if u_Disabled u then Some false else HasCapability d u "write" baseDN
  end.

(** ** Security identifiers of an account *)

Record SecurityIDs : Type := mkSecurityIDs { sid_User : Z; sid_PrimaryGroup : Z; sid_Groups : list Z }.

Definition add_group_rid (d : DB) (u : User) (out : SecurityIDs) (gid : Z) : SecurityIDs :=
  match List.find (fun r => gr_gid_number r =? gid) (groups (dt d)) with
  | None => out
  | Some g =>
      match ridFor d kind_group (gr_id g) with
      | None => out
      | Some rid => mkSecurityIDs (sid_User out) (if gid =? u_PrimaryGroup u then rid else sid_PrimaryGroup out)
                      (sid_Groups out ++ [rid])
      end
  end.

Definition SecurityIDsForUser (d : DB) (u : User) (gids : list Z) : option SecurityIDs :=
  match ridFor d kind_user (u_ID u) with
  | None => None
  | Some rid => Some (fold_left (add_group_rid d u) gids (mkSecurityIDs rid 0 []))
  end.
End Directory.
