(* ===== verification/DirectoryFacts.v ===== *)
(** * What the directory operations guarantee

    Group membership as reachability, the agreement of the two directions it is asked in, and the
    invariant of the security identifiers. *)

From S2P Require Import Prelude Names Keytab Model Ticket Secret IdRange Db Principals PrincipalFacts Directory.

(** ** Membership *)

(** The group with gid [x] includes the gid [y]. *)
Definition includes (d : DB) (x y : Z) : Prop :=
  exists g, g ∈ groups (dt d) /\ gr_gid_number g = x /\ (gr_id g, y) ∈ group_includes (dt d).

Lemma included_gids_spec d x y : edge (included_gids d) x y <-> includes d x y.
Proof.
  unfold edge, included_gids, includes. rewrite list_elem_of_bind. split.
  - intros ([i z] & Hy & Hin). cbn [fst snd] in Hy. destruct (existsb _ _) eqn:E; [|by apply elem_of_nil in Hy].
    apply list_elem_of_singleton in Hy as ->. apply existsb_exists in E as (g & Hg%list_elem_of_In & Hc).
    simp_bool. exists g. subst. done.
  - intros (g & Hg & <- & Hin). exists (gr_id g, y). cbn [fst snd]. split; [|done].
    rewrite (proj2 (existsb_exists _ _)); [by apply list_elem_of_singleton|].
    exists g. split; [by apply list_elem_of_In|]. by rewrite !Z.eqb_refl.
Qed.

Lemma including_gids_spec d x y : edge (including_gids d) x y <-> includes d y x.
Proof.
  unfold edge, including_gids, includes. rewrite list_elem_of_bind. split.
  - intros (g & ([i z] & -> & [[Hi Hz] Hin]%list_elem_of_filter)%list_elem_of_fmap & Hg). simpl in *. subst.
    exists g. done.
  - intros (g & Hg & <- & Hin). exists g. split; [|done]. apply list_elem_of_fmap.
    exists (gr_id g, x). split; [done|]. by apply list_elem_of_filter.
Qed.

Lemma rtc_ext {A} (R S : relation A) x y : (forall a b, R a b <-> S a b) -> rtc R x y <-> rtc S x y.
Proof. intros H. split; apply rtc_subrel; intros a b; apply H. Qed.

Lemma rtc_flip {A} (R S : relation A) x y : (forall a b, R a b <-> S b a) -> rtc R x y <-> rtc S y x.
Proof.
  intros H. split; induction 1 as [|a b c Hab _ IH]; try done.
  - eapply rtc_r; [done|]. by apply H.
  - eapply rtc_r; [done|]. by apply H.
Qed.

Lemma elem_of_sorted_elements (X : gset Z) x : x ∈ sort_by Z.leb (elements X) <-> x ∈ X.
Proof. rewrite elem_of_sort_by. by rewrite elem_of_elements. Qed.

Lemma sorted_elements (X : gset Z) :
  NoDup (sort_by Z.leb (elements X)) /\ Sorted (fun x y => (x <=? y) = true) (sort_by Z.leb (elements X)).
Proof.
  split; [rewrite sort_by_perm; apply NoDup_elements|]. apply sorted_sort_by. intros a b H. simp_bool.
  apply Z.leb_le. lia.
Qed.

Lemma size_list_to_set_le (l : list Z) : (size (list_to_set l : gset Z) <= List.length l)%nat.
Proof.
  induction l as [|x l IH]; [done|]. cbn [list_to_set List.length].
  pose proof (size_union_alt ({[x]} : gset Z) (list_to_set l)) as H.
  rewrite H, size_singleton.
  assert (size (list_to_set l ∖ {[x]} : gset Z) <= size (list_to_set l : gset Z))%nat by (apply subseteq_size; set_solver).
  lia.
Qed.

(** The expansion of a group ends, on an inclusion graph with cycles too, and is the sorted list, without repetitions, of the gids reached through includes. *)
Lemma ExpandGroup_spec (d : DB) (gid : Z) :
  exists l, ExpandGroup d gid = Some l /\ NoDup l /\ Sorted (fun x y => (x <=? y) = true) l /\
    forall x, x ∈ l <-> rtc (includes d) gid x.
Proof.
  unfold ExpandGroup.
  destruct (bfs_terminates (included_gids d) (list_to_set (group_includes (dt d)).*2) (search_fuel d [gid]) {[gid]} [gid])
    as [seen Hseen].
  - intros x y (g & _ & _ & Hin)%included_gids_spec. apply elem_of_list_to_set, list_elem_of_fmap. by exists (gr_id g, y).
  - assert (size ((list_to_set (group_includes (dt d)).*2 : gset Z) ∖ {[gid]}) <= List.length (group_includes (dt d)))%nat.
    { etrans; [apply subseteq_size, subseteq_difference_l; reflexivity|]. etrans; [apply size_list_to_set_le|].
      by rewrite length_fmap. }
    unfold search_fuel. cbn [List.length]. lia.
  - rewrite Hseen. exists (sort_by Z.leb (elements seen)). destruct (sorted_elements seen). split_and!; try done.
    intros x. rewrite elem_of_sorted_elements.
    rewrite (bfs_sound _ _ _ _ _ (fun s => s = gid) Hseen).
    + rewrite <- (rtc_ext (edge (included_gids d))) by apply included_gids_spec. naive_solver.
    + set_solver.
    + intros y ->%elem_of_singleton. eauto using rtc_refl.
    + intros y z ->%elem_of_singleton Hn. set_solver.
    + intros s ->. set_solver.
Qed.

(** The groups an account is in through the given gids: the search ends, and finds exactly the
    gids from which one of them is reached through includes. *)
Lemma GroupsContaining_spec (d : DB) (gids : list Z) :
  exists l, GroupsContaining d gids = Some l /\ NoDup l /\ Sorted (fun x y => (x <=? y) = true) l /\
    forall x, x ∈ l <-> exists g, g ∈ gids /\ rtc (includes d) x g.
Proof.
  unfold GroupsContaining. destruct (fold_left visit gids (∅, [])) as [seen0 queue] eqn:E.
  apply visits_spec in E as (new & -> & -> & Hnd & Hn). rewrite app_nil_l.
  assert (Hlen : (List.length new <= List.length gids)%nat).
  { apply NoDup_incl_length; [by apply NoDup_ListNoDup|]. intros x Hx%list_elem_of_In. apply list_elem_of_In. apply Hn in Hx as [? _]. done. }
  destruct (bfs_terminates (including_gids d) (list_to_set (gr_gid_number <$> groups (dt d)))
    (search_fuel d gids) (list_to_set new ∪ ∅) new) as [seen Hseen].
  - intros x y (g & Hg & <- & _)%including_gids_spec. apply elem_of_list_to_set, list_elem_of_fmap. eauto.
  - assert (size ((list_to_set (gr_gid_number <$> groups (dt d)) : gset Z) ∖ (list_to_set new ∪ ∅)) <= List.length (groups (dt d)))%nat.
    { etrans; [apply subseteq_size, subseteq_difference_l; reflexivity|]. etrans; [apply size_list_to_set_le|].
      by rewrite length_fmap. }
    unfold search_fuel. lia.
  - rewrite Hseen. exists (sort_by Z.leb (elements seen)). destruct (sorted_elements seen). split_and!; try done.
    intros x. rewrite elem_of_sorted_elements.
    rewrite (bfs_sound _ _ _ _ _ (fun s => s ∈ gids) Hseen).
    + f_equiv. intros g. rewrite (rtc_flip (edge (including_gids d)) (includes d)) by apply including_gids_spec. done.
    + set_solver.
    + intros y Hy. exists y. split; [|apply rtc_refl]. apply Hn. set_solver.
    + set_solver.
    + intros s Hs. apply elem_of_union. left. apply elem_of_list_to_set, Hn. set_solver.
Qed.

(** The two searches of the inclusion graph always end, cycles or not, and are exact: the
    expansion of a group is the sorted list, without repetitions, of the gids it reaches through
    includes, and the groups containing some gids are those that reach one of them. *)
Lemma group_search_exact (d : DB) (gid : Z) (gids : list Z) :
  (exists l, ExpandGroup d gid = Some l /\ NoDup l /\ Sorted (fun x y => (x <=? y) = true) l /\
     forall x, x ∈ l <-> rtc (includes d) gid x) /\
  (exists l, GroupsContaining d gids = Some l /\ NoDup l /\ Sorted (fun x y => (x <=? y) = true) l /\
     forall x, x ∈ l <-> exists g, g ∈ gids /\ rtc (includes d) x g).
Proof. split; [apply ExpandGroup_spec|apply GroupsContaining_spec]. Qed.

(** The member list of a group and the group list of an account are two views of one relation:
    an account is listed as a member of a group, directly or through the groups it includes, exactly
    when the group is among the account's own. *)
Lemma GroupMembers_UserGIDs (d : DB) (gid : Z) (r : UserRow) :
  NoDup ((fun u => ToLower (ur_name u)) <$> users (dt d)) -> r ∈ users (dt d) ->
  exists members gids, GroupMembers d gid = Some members /\
    UserGIDs d (decorateUser d (scanUser r)) = Some gids /\ (ur_name r ∈ members <-> gid ∈ gids).
Proof.
  intros Hnd Hr. unfold GroupMembers, UserGIDs.
  destruct (ExpandGroup_spec d gid) as (ex & -> & _ & _ & Hex).
  destruct (GroupsContaining_spec d (u_PrimaryGroup (decorateUser d (scanUser r)) :: u_OtherGroups (decorateUser d (scanUser r))))
    as (gc & -> & _ & _ & Hgc).
  eexists _, _. split; [reflexivity|]. split; [reflexivity|]. rewrite Hgc, elem_of_sort_by, list_elem_of_fmap.
  cbn [u_PrimaryGroup u_OtherGroups decorateUser scanUser u_ID].
  setoid_rewrite elem_of_cons. setoid_rewrite elem_of_sort_by. setoid_rewrite list_elem_of_fmap.
  setoid_rewrite list_elem_of_filter. split.
  - intros (u & Heq & Hm & Hu).
    assert (u = r) as ->.
    { apply (NoDup_key_inj (fun u => ToLower (ur_name u)) _ _ _ Hnd); [done|done|congruence]. }
    destruct Hm as [Hp|Ho].
    + exists (ur_primary_group r). split; [by left|by apply Hex].
    + apply Exists_exists in Ho as ([i g] & Hin & Hi & Hg). simpl in *. exists g. split; [|by apply Hex].
      right. exists (i, g). done.
  - intros (g & Hg & Hreach). exists r. split; [done|]. split; [|done].
    destruct Hg as [->|([i g'] & -> & Hi & Hin)].
    + left. by apply Hex.
    + right. apply Exists_exists. exists (i, g'). split; [done|]. split; [done|]. by apply Hex.
Qed.

(** ** Security identifiers *)

Definition sid_owner (r : SIDRow) : owner_kind * Z := (si_kind r, si_owner_id r).

Record sids_ok (range : IDRange) (t : list SIDRow) : Prop := {
  sok_rids : NoDup (si_rid <$> t);
  sok_owners : NoDup (sid_owner <$> t);
  sok_range : forall r, r ∈ t -> exists id, Contains range id = true /\
    (si_rid r = fst (rids range id) \/ si_rid r = snd (rids range id));
}.

Definition state_sids_ok (s : St) : Prop := sids_ok (st_idRange s) (security_identifiers (dt (st_db s))).

(** A transaction keeps the identifiers in order, whatever it returns. *)
Definition keeps_sids {A} (m : Tx A) : Prop :=
  forall s r s', m s = (r, s') -> st_idRange s' = st_idRange s /\ (state_sids_ok s -> state_sids_ok s').

Lemma ksids_bind {A B} (m : Tx A) (f : A -> Tx B) :
  keeps_sids m -> (forall a, keeps_sids (f a)) -> keeps_sids (x ← m; f x).
Proof.
  intros Hm Hf s r s'. unfold mbind, M_bind. destruct (m s) as [[a|e|] s1] eqn:E; apply Hm in E as [E1 E2];
    [|by intros [= _ <-]|by intros [= _ <-]]. intros [E3 E4]%Hf. split; [congruence|auto].
Qed.
Lemma ksids_write {A} (m : Tx A) : keeps_sids m -> keeps_sids (write m).
Proof.
  intros Hm s r s'. unfold write. destruct (m s) as [[a|e|] s1] eqn:E; apply Hm in E as [E1 E2].
  - by intros [= _ <-].
  - intros [= _ <-]. split; [done|]. unfold state_sids_ok. cbn [st_db set_db st_idRange]. by rewrite E1.
  - intros [= _ <-]. split; [done|]. unfold state_sids_ok. cbn [st_db set_db st_idRange]. by rewrite E1.
Qed.
Lemma ksids_ret {A} (a : A) : keeps_sids (mret a).
Proof. intros s r s' [= _ <-]. done. Qed.
Lemma ksids_lift {A} (o : outcome StoreErr A) : keeps_sids (lift o).
Proof. intros s r s' [= _ <-]. done. Qed.
Lemma ksids_throw_if b e : keeps_sids (throw_if b e).
Proof. apply ksids_lift. Qed.
Lemma ksids_query {A} (f : DB -> A) : keeps_sids (query f).
Proof. intros s r s' [= _ <-]. done. Qed.
Lemma ksids_query_outcome {A} (f : DB -> outcome StoreErr A) : keeps_sids (query_outcome f).
Proof. intros s r s' [= _ <-]. done. Qed.
Lemma ksids_time_now `{Clock} : keeps_sids time_now.
Proof. intros s r s' [= _ <-]. done. Qed.
Lemma ksids_update f :
  (forall d, security_identifiers (dt (f d)) = security_identifiers (dt d)) -> keeps_sids (update f).
Proof. intros Hf s r s' [= _ <-]. split; [done|]. unfold state_sids_ok. cbn. by rewrite Hf. Qed.
Lemma ksids_update_dt f :
  (forall t, security_identifiers (f t) = security_identifiers t) -> keeps_sids (update_dt f).
Proof. intros Hf. apply ksids_update. intros d. apply Hf. Qed.
Lemma ksids_exec f :
  (forall d d', f d = Ok d' -> security_identifiers (dt d') = security_identifiers (dt d)) -> keeps_sids (exec f).
Proof.
  intros Hf s r s'. unfold exec. destruct (f (st_db s)) as [d| |] eqn:E; intros [= _ <-]; [|done..].
  split; [done|]. unfold state_sids_ok. cbn. by rewrite (Hf _ _ E).
Qed.
Lemma ksids_if {A} (b : bool) (m n : Tx A) : keeps_sids m -> keeps_sids n -> keeps_sids (if b then m else n).
Proof. by destruct b. Qed.
#[export] Hint Resolve ksids_bind ksids_write ksids_ret ksids_lift ksids_throw_if ksids_query
  ksids_query_outcome ksids_time_now ksids_if : ldapkdc.
#[export] Hint Extern 2 (keeps_sids (update _)) => apply ksids_update; intros ?; reflexivity : ldapkdc.
#[export] Hint Extern 2 (keeps_sids (update_dt _)) => apply ksids_update_dt; intros ?; reflexivity : ldapkdc.

Lemma ksids_release kind owner : keeps_sids (releaseRID kind owner).
Proof.
  intros s r s' [= _ <-]. split; [done|]. unfold state_sids_ok. cbn. intros [H1 H2 H3].
  split; [by apply NoDup_map_filter|by apply NoDup_map_filter|]. intros x [_ Hx]%list_elem_of_filter. by apply H3.
Qed.

(** A row that goes in takes an identifier and an owner nobody has. *)
Lemma insert_rid_ok rid kind owner now s r s' :
  insert_rid rid kind owner now s = (r, s') ->
  (exists id, Contains (st_idRange s) id = true /\
     (rid = fst (rids (st_idRange s) id) \/ rid = snd (rids (st_idRange s) id))) ->
  st_idRange s' = st_idRange s /\ (state_sids_ok s -> state_sids_ok s').
Proof.
  unfold insert_rid. destruct (existsb _ _) eqn:Ex; intros [= <- <-] Hid; [done|]. split; [done|].
  unfold state_sids_ok. cbn. intros [H1 H2 H3]. rewrite existsb_false in Ex. split.
  - rewrite fmap_app. apply NoDup_app. split; [done|]. split; [|apply NoDup_singleton].
    intros x (y & -> & Hy)%list_elem_of_fmap Hx%list_elem_of_singleton. cbn in Hx. apply Ex in Hy. simp_bool. done.
  - rewrite fmap_app. apply NoDup_app. split; [done|]. split; [|apply NoDup_singleton].
    intros x (y & -> & Hy)%list_elem_of_fmap Hx%list_elem_of_singleton. cbn in Hx. injection Hx as E1 E2.
    apply Ex in Hy. rewrite E1, E2, bool_decide_true, Z.eqb_refl in Hy by done. cbn in Hy. by rewrite orb_true_r in Hy.
  - intros x [Hx| ->%list_elem_of_singleton]%elem_of_app; [by apply H3|done].
Qed.

Lemma ksids_allocate `{Clock} kind owner posix : keeps_sids (allocateRID kind owner posix).
Proof.
  intros s r s'. unfold allocateRID, mbind, M_bind. destruct (Contains (st_idRange s) posix) eqn:Hc; cbn [negb].
  2:{ by intros [= _ <-]. }
  destruct (rids (st_idRange s) posix) as [primary secondary] eqn:Er. unfold time_now.
  set (s0 := mkSt _ _ _ _).
  destruct (insert_rid primary kind owner _ s0) as [r1 s1] eqn:E1.
  assert (Hr1 : exists b, r1 = Ok b).
  { unfold insert_rid in E1. destruct (existsb _ _); injection E1 as <- <-; eauto. }
  apply insert_rid_ok in E1 as [Hi1 Hk1]; [|exists posix; subst s0; cbn [st_idRange]; rewrite Er; auto].
  destruct Hr1 as [[|] ->]; [intros [= _ <-]; split; [done|auto]|].
  destruct (insert_rid secondary kind owner _ s1) as [r2 s2] eqn:E2.
  assert (Hr2 : exists b, r2 = Ok b).
  { unfold insert_rid in E2. destruct (existsb _ _); injection E2 as <- <-; eauto. }
  apply insert_rid_ok in E2 as [Hi2 Hk2].
  2:{ exists posix. rewrite Hi1. subst s0. cbn [st_idRange]. rewrite Er. auto. }
  destruct Hr2 as [b ->]. intros [= _ <-]. split; [by rewrite Hi2, Hi1|auto].
Qed.
#[export] Hint Resolve ksids_release ksids_allocate : ldapkdc.

Section DirectorySteps.
Context `{Ck : Clock}.

Lemma ksids_insert_user mk : keeps_sids (insert_user mk).
Proof. intros s r s'. unfold insert_user. destruct (existsb _ _); by intros [= _ <-]. Qed.
Lemma ksids_insert_group mk : keeps_sids (insert_group mk).
Proof. intros s r s'. unfold insert_group. destruct (existsb _ _); by intros [= _ <-]. Qed.
Lemma ksids_update_user u now : keeps_sids (exec (update_user_row u now)).
Proof. apply ksids_exec. intros d d'. unfold update_user_row. case_match; [done|]. by intros [= <-]. Qed.
Lemma ksids_update_group g now : keeps_sids (exec (update_group_row g now)).
Proof. apply ksids_exec. intros d d'. unfold update_group_row. case_match; [done|]. by intros [= <-]. Qed.
Lemma ksids_rename uid name now : keeps_sids (exec (rename_principals uid name now)).
Proof. apply ksids_exec. intros d d'. unfold rename_principals. case_match; [|done]. by intros [= <-]. Qed.
#[local] Hint Resolve ksids_insert_user ksids_insert_group ksids_update_user ksids_update_group ksids_rename : ldapkdc.

Lemma ksids_children u : keeps_sids (writeUserChildren u).
Proof. unfold writeUserChildren, replaceAttrs, deleteAttrs, replaceCapabilities. auto 20 with ldapkdc. Qed.
#[local] Hint Resolve ksids_children : ldapkdc.

(** One call of an operation on accounts or groups, with whatever result. *)
Inductive dstep (s s' : St) : Prop :=
| dstep_create_user u r : CreateUser u s = (r, s') -> dstep s s'
| dstep_update_user name f r : UpdateUser name f s = (r, s') -> dstep s s'
| dstep_delete_user name r : DeleteUser name s = (r, s') -> dstep s s'
| dstep_create_group g r : CreateGroup g s = (r, s') -> dstep s s'
| dstep_update_group name f r : UpdateGroup name f s = (r, s') -> dstep s s'
| dstep_delete_group name r : DeleteGroup name s = (r, s') -> dstep s s'
| dstep_add_app u n h r : AddAppPassword u n h s = (r, s') -> dstep s s'
| dstep_delete_app u i r : DeleteAppPassword u i s = (r, s') -> dstep s s'.

Lemma keeps_sids_run {A} (m : Tx A) s r s' :
  keeps_sids m -> m s = (r, s') -> st_idRange s' = st_idRange s /\ (state_sids_ok s -> state_sids_ok s').
Proof. intros Hm. apply Hm. Qed.

Lemma dstep_sids s s' : dstep s s' -> st_idRange s' = st_idRange s /\ (state_sids_ok s -> state_sids_ok s').
Proof.
  destruct 1 as [u r Hrun|name f r Hrun|name r Hrun|g r Hrun|name f r Hrun|name r Hrun|u n h r Hrun|u i r Hrun];
    (eapply keeps_sids_run; [|exact Hrun]);
    unfold CreateUser, UpdateUser, DeleteUser, CreateGroup, UpdateGroup, DeleteGroup, AddAppPassword,
      DeleteAppPassword, reallocateRID, replaceIncludes, replaceAttrs, deleteAttrs, replaceCapabilities;
    auto 40 with ldapkdc.
Qed.

(** Whatever accounts and groups are created, changed and deleted, two objects never share a
    relative identifier, a user and a group least of all, and an identifier handed out fits in 32
    bits and is never one Windows reserves. *)
Lemma rids_never_shared (s0 s : St) (k1 k2 : owner_kind) (o1 o2 rid1 rid2 : Z) :
  range_fits (st_idRange s0) -> no_overflow (st_idRange s0) -> Validate_range (st_idRange s0) = None ->
  security_identifiers (dt (st_db s0)) = [] -> rtc dstep s0 s ->
  ridFor (st_db s) k1 o1 = Some rid1 -> ridFor (st_db s) k2 o2 = Some rid2 ->
  1000 <= rid1 < 2 ^ 32 /\ (rid1 = rid2 <-> (k1, o1) = (k2, o2)).
Proof.
  intros Hf Ho Hv Hempty Hr.
  assert (Hinv : st_idRange s = st_idRange s0 /\ state_sids_ok s).
  { assert (H0 : state_sids_ok s0).
    { unfold state_sids_ok. rewrite Hempty. split; try constructor. intros r Hr'. by apply elem_of_nil in Hr'. }
    clear Hempty Hf Ho Hv. induction Hr as [|x y z Hstep _ IH]; [done|].
    apply dstep_sids in Hstep as [Hi Hk]. destruct IH as [IH1 IH2]; [by apply Hk|]. split; [congruence|done]. }
  destruct Hinv as [Hi [H1 H2 H3]]. rewrite Hi in H3.
  unfold ridFor. destruct (List.find _ _) as [r1|] eqn:E1; [|done]. intros [= <-].
  destruct (List.find (fun r => bool_decide (si_kind r = k2) && _) _) as [r2|] eqn:E2; [|done]. intros [= <-].
  apply find_Some_elem in E1 as [Hr1 Ho1], E2 as [Hr2 Ho2]. simp_bool. subst. split.
  - destruct (H3 r1 Hr1) as (id & Hc & Hid).
    apply Validate_range_ok in Hv; [|done|done]. apply rids_plain in Hc as [Hc Hrids]; [|done].
    rewrite Hrids in Hid. destruct Hv as [V1 V2 V3 V4 V5 V6]. unfold max_uint32 in *. cbn [fst snd] in Hid. lia.
  - split; [|intros [= E1 E2]].
    + intros Heq. assert (r1 = r2) as -> by (by apply (NoDup_key_inj si_rid _ _ _ H1)). done.
    + f_equal. apply (NoDup_key_inj sid_owner _ _ _ H2); [done|done|]. unfold sid_owner. congruence.
Qed.
End DirectorySteps.

(** ** A sample directory *)

Definition sample_user (name : string) (uid gid : Z) (others : list Z) : User := {|
  u_ID := 0; u_Name := name; u_UIDNumber := uid; u_PrimaryGroup := gid; u_OtherGroups := others;
  u_GivenName := ""; u_SN := ""; u_Mail := ""; u_LoginShell := ""; u_Homedir := ""; u_Disabled := false;
  u_SSHKeys := []; u_CustomAttrs := ∅; u_Capabilities := []; u_AppPasswords := [];
  u_CreatedAt := zeroTime; u_UpdatedAt := zeroTime; u_PassBcrypt := ""; u_OTPSecret := "";
  u_HasOTP := false; u_HasPassword := false |}.

Definition sample_group (name : string) (gid : Z) (includes : list Z) : Group :=
  mkGroup 0 name gid "" includes [] ∅ zeroTime zeroTime.

Section DirectorySample.
#[local] Existing Instance sample_clock.

(** A group that includes another, and an account in the inner one. *)
Definition dir0 : St := snd (CreateGroup (sample_group "staff" 5000 []) empty_state).
Definition dir1 : St := snd (CreateGroup (sample_group "wheel" 5001 [5000]) dir0).
Definition dir2 : St := snd (CreateUser (sample_user "bob" 10000 5000 []) dir1).

Lemma dir2_reached : rtc dstep empty_state dir2.
Proof.
  apply rtc_l with dir0; [eapply dstep_create_group; apply surjective_pairing|].
  apply rtc_l with dir1; [eapply dstep_create_group; apply surjective_pairing|].
  apply rtc_once. eapply dstep_create_user. apply surjective_pairing.
Qed.

Lemma GroupMembers_UserGIDs_witness :
  exists r members gids, r ∈ users (dt (st_db dir2)) /\ GroupMembers (st_db dir2) 5001 = Some members /\
    UserGIDs (st_db dir2) (decorateUser (st_db dir2) (scanUser r)) = Some gids /\
    (ur_name r ∈ members <-> 5001 ∈ gids).
Proof.
  destruct (users (dt (st_db dir2))) as [|r l] eqn:E; [vm_compute in E; discriminate|].
  assert (Hr : r ∈ users (dt (st_db dir2))) by (rewrite E; left).
  destruct (GroupMembers_UserGIDs (st_db dir2) 5001 r) as (members & gids & H).
  - apply (bool_decide_unpack _). vm_compute. reflexivity.
  - exact Hr.
  - exists r, members, gids. split; [left|exact H].
Defined.

Lemma rids_never_shared_witness :
  exists rid1 rid2, ridFor (st_db dir2) kind_user 1 = Some rid1 /\ ridFor (st_db dir2) kind_group 1 = Some rid2 /\
    rid1 <> rid2.
Proof.
  destruct (ridFor (st_db dir2) kind_user 1) as [rid1|] eqn:E1; [|vm_compute in E1; discriminate].
  destruct (ridFor (st_db dir2) kind_group 1) as [rid2|] eqn:E2; [|vm_compute in E2; discriminate].
  exists rid1, rid2. split; [reflexivity|]. split; [reflexivity|]. intros Heq.
  destruct (rids_never_shared empty_state dir2 kind_user kind_group 1 1 rid1 rid2) as [_ Hsame].
  - intros z Hz. rewrite !elem_of_cons in Hz. unfold min_int64, max_int64. simpl in Hz.
    destruct Hz as [->|[->|[->|[->|[]%elem_of_nil]]]]; lia.
  - unfold no_overflow, max_int64. cbn. lia.
  - vm_compute. reflexivity.
  - reflexivity.
  - exact dir2_reached.
  - exact E1.
  - exact E2.
  - apply Hsame in Heq. discriminate.
Defined.
End DirectorySample.
