(* ===== verification/Accounts.v ===== *)
(** * Credentials and accounts: package [store], password.go, account.go, authenticate.go,
    bootstrap.go

    Where the two halves of the store meet: a password is a digest for LDAP and a set of keys for
    Kerberos, an account is a user and a principal. *)

From S2P Require Import Prelude Text Names Keytab Model Ticket Secret IdRange Db Principals PrincipalFacts Directory DirectoryFacts.

(** [golang.org/x/crypto/bcrypt]; the first argument of the generator is the draw of its salt. *)
Class Bcrypt : Type := {
  GenerateFromPassword : nat -> string -> Z -> option string;
  CompareHashAndPassword : string -> string -> bool;
}.

(** A digest is not empty and verifies the password it was made from. *)
Class BcryptLaws `(Bcrypt) : Prop := {
  bcrypt_verifies n pw cost h : GenerateFromPassword n pw cost = Some h -> CompareHashAndPassword h pw = true;
  bcrypt_nonempty n pw cost h : GenerateFromPassword n pw cost = Some h -> h <> EmptyString;
}.

(** [totp.Validate(code, secret)] at a moment. *)
Class Totp : Type := totp_Validate : Time -> string -> string -> bool.

Definition DefaultPasswordHashCost : Z := 12.

Section Passwords.
Context `{Clock, Rand, AEAD, Bcrypt, EncTypeLib}.

(** ** password.go *)

Definition hashPassword (password : string) (cost : Z) : Tx string :=
  _ ← throw_if (72 <? String.length password)%nat ErrPasswordTooLong;
  n ← draw;
  lift (or_err ErrHash (GenerateFromPassword n password cost)).

Definition CheckPassword (hash password : string) : bool :=
  if (String.length hash =? 0)%nat then false else CompareHashAndPassword hash password.

Definition derive (password : string) (p : Principal) (etypes : list Z) : outcome StoreErr (list Key) :=
  n ← KrbName p;
  match DeriveKeys password n etypes with
  | Ok keys => Ok keys
  | Err e => Err (ErrKey e)
  | Panic => Panic
  end.

(** [UPDATE principals SET password_expires_at = ? WHERE id = ?]. *)
Definition expiry_row (expires : option Z) (r : PrincipalRow) : PrincipalRow := {|
  pr_id := pr_id r; pr_name := pr_name r; pr_realm := pr_realm r; pr_user_id := pr_user_id r;
  pr_kvno := pr_kvno r; pr_enabled := pr_enabled r; pr_requires_preauth := pr_requires_preauth r;
  pr_allow_forwardable := pr_allow_forwardable r; pr_allow_proxiable := pr_allow_proxiable r;
  pr_allow_renewable := pr_allow_renewable r; pr_allow_postdate := pr_allow_postdate r;
  pr_ok_as_delegate := pr_ok_as_delegate r; pr_ok_to_auth_as_delegate := pr_ok_to_auth_as_delegate r;
  pr_max_ticket_life := pr_max_ticket_life r; pr_max_renewable_life := pr_max_renewable_life r;
  pr_password_last_set := pr_password_last_set r; pr_password_expires_at := expires;
  pr_expires_at := pr_expires_at r; pr_locked_until := pr_locked_until r; pr_fail_count := pr_fail_count r;
  pr_last_success := pr_last_success r; pr_last_failure := pr_last_failure r;
  pr_created_at := pr_created_at r; pr_updated_at := pr_updated_at r |}.

(** One round of the loop over the principals of the user. *)
Definition rekey (password : string) (etypes : list Z) (expiresAt : option Time) (now : Time) (p : Principal) : Tx unit :=
  keys ← lift (derive password p etypes);
  _ ← rollKeys p keys now;
  update_kt (update_row (p_ID p) (expiry_row (null_time expiresAt))).

(** [UPDATE users SET pass_bcrypt = ?, updated_at = ? WHERE id = ?]. *)
Definition digest_row (hash : string) (now : Z) (r : UserRow) : UserRow := {|
  ur_id := ur_id r; ur_name := ur_name r; ur_uid_number := ur_uid_number r;
  ur_primary_group := ur_primary_group r; ur_given_name := ur_given_name r; ur_sn := ur_sn r;
  ur_mail := ur_mail r; ur_login_shell := ur_login_shell r; ur_home_dir := ur_home_dir r;
  ur_disabled := ur_disabled r; ur_pass_bcrypt := hash; ur_otp_secret := ur_otp_secret r;
  ur_created_at := ur_created_at r; ur_updated_at := now |}.

Definition set_digest (uid : Z) (hash : string) (now : Z) : Tx unit :=
  update_dt (set_users (map (fun r => if ur_id r =? uid then digest_row hash now r else r))).

Definition SetUserPassword (cost : Z) (userName password : string) (etypes : list Z) (expiresAt : option Time) : Tx unit :=
  hash ← hashPassword password cost;
  write (
    u ← query_outcome (fun d => getUser d (user_named userName));
    now ← time_now;
    _ ← set_digest (u_ID u) hash (Unix now);
    ps ← principalsForUserTx (u_ID u);
    for_each (rekey password etypes expiresAt now) ps).

Definition SetPrincipalPassword (name : Name) (password : string) (etypes : list Z) : Tx Principal :=
  p ← GetPrincipal name;
  keys ← lift (derive password p etypes);
  n ← lift (KrbName p);
  now ← time_now;
  SetKeys n keys now.

(** [krbkeys.RandomKeys] draws once per enctype. *)
Definition random_keys (etypes : list Z) : Tx (list Key) := fun s =>
  match RandomKeys rand (st_draw s) etypes with
  | Ok keys => (Ok keys, mkSt (st_db s) (st_tick s) (st_draw s + List.length etypes) (st_idRange s))
  | Err e => (Err (ErrKey e), s)
  | Panic => (Panic, s)
  end.

Definition RandomizePrincipalKeys (name : Name) (etypes : list Z) : Tx Principal :=
  keys ← random_keys etypes;
  now ← time_now;
  SetKeys name keys now.

Definition ClearUserPassword (userName : string) : Tx unit :=
  write (
    u ← query_outcome (fun d => getUser d (user_named userName));
    now ← time_now;
    set_digest (u_ID u) EmptyString (Unix now)).

(** ** authenticate.go *)

Inductive Outcome : Type := OutcomeOK | OutcomeAppPassword | OutcomeBadOTP | OutcomeInvalid | OutcomeDisabled.

Definition Granted (o : Outcome) : bool :=
  match o with OutcomeOK | OutcomeAppPassword => true | _ => false end.

Definition Authenticate `{Totp} (now : Time) (u : User) (presented : string) : Outcome :=
  if u_Disabled u then OutcomeDisabled
  else
    let n := String.length presented in
    let '(password, otpValid) :=
      if negb (String.length (u_OTPSecret u) =? 0)%nat && (6 <? n)%nat then
        (String.substring 0 (n - 6) presented,
         totp_Validate now (String.substring (n - 6) 6 presented) (u_OTPSecret u))
      else (presented, (String.length (u_OTPSecret u) =? 0)%nat) in
    if existsb (fun ap => CheckPassword (ap_Hash ap) presented) (u_AppPasswords u) then OutcomeAppPassword
    else if negb otpValid then OutcomeBadOTP
    else if (String.length (u_PassBcrypt u) =? 0)%nat || negb (CheckPassword (u_PassBcrypt u) password)
    then OutcomeInvalid
    else OutcomeOK.

(** ** account.go *)

(** [NewAccount]. *)
Record NewAccount : Type := mkNewAccount {
  na_User : option User;
  na_Realm : string;
  na_EncTypes : list Z;
  na_Password : string;
  na_PasswordExpiresAt : option Time;
  na_Aliases : list string;
}.

Definition nextNumber (numbers : list Z) (floor : Z) : Z :=
  let highest := fold_left Z.max numbers 0 in
  if highest <? floor then floor else highest + 1.

Definition NextUIDNumber : Tx Z := query (fun d =>
  nextNumber (ur_uid_number <$> users (dt d)) 10000).
Definition NextGIDNumber : Tx Z := query (fun d =>
  nextNumber (gr_gid_number <$> groups (dt d)) 5000).

Definition with_uid (uid : Z) (u : User) : User := {|
  u_ID := u_ID u; u_Name := u_Name u; u_UIDNumber := uid; u_PrimaryGroup := u_PrimaryGroup u;
  u_OtherGroups := u_OtherGroups u; u_GivenName := u_GivenName u; u_SN := u_SN u; u_Mail := u_Mail u;
  u_LoginShell := u_LoginShell u; u_Homedir := u_Homedir u; u_Disabled := u_Disabled u;
  u_SSHKeys := u_SSHKeys u; u_CustomAttrs := u_CustomAttrs u; u_Capabilities := u_Capabilities u;
  u_AppPasswords := u_AppPasswords u; u_CreatedAt := u_CreatedAt u; u_UpdatedAt := u_UpdatedAt u;
  u_PassBcrypt := u_PassBcrypt u; u_OTPSecret := u_OTPSecret u; u_HasOTP := u_HasOTP u;
  u_HasPassword := u_HasPassword u |}.

(** A principal as a literal of the source leaves it: the fields named, the rest zero. *)
Definition plain_principal (name : Name) (userID : option Z) (enabled : bool) (pwLastSet : option Time)
    (aliases : list string) : Principal := {|
  p_ID := 0; p_Name := Principal_of name; p_Realm := Realm name; p_UserID := userID; p_UserName := "";
  p_KVNO := 0; p_Enabled := enabled; p_RequiresPreAuth := true; p_AllowForwardable := true;
  p_AllowProxiable := true; p_AllowRenewable := true; p_AllowPostdate := false; p_OKAsDelegate := false;
  p_OKToAuthAsDelegate := false; p_AllowedToDelegateTo := []; p_Aliases := aliases;
  p_AllowedToImpersonate := []; p_MaxTicketLife := 0; p_MaxRenewableLife := 0;
  p_PasswordLastSet := pwLastSet; p_PasswordExpiresAt := None; p_ExpiresAt := None; p_LockedUntil := None;
  p_FailCount := 0; p_LastSuccess := None; p_LastFailure := None; p_CreatedAt := zeroTime;
  p_UpdatedAt := zeroTime; p_Keys := [] |}.

(** [undoAccount]: the cause is returned, whether or not the delete worked. *)
Definition undoAccount {A} (name : string) (cause : StoreErr) : Tx A := fun s =>
  (Err cause, snd (DeleteUser name s)).

(** [if err := m; err != nil { return s.undoAccount(ctx, name, err) }]. *)
Definition or_undo {A} (name : string) (m : Tx A) : Tx A := fun s =>
  match m s with
  | (Err e, s') => undoAccount name e s'
  | r => r
  end.

Definition CreateAccount (cost : Z) (a : NewAccount) : Tx unit :=
  u ← lift (match na_User a with
            | None => Err ErrNameRequired
            | Some u => if (String.length (u_Name u) =? 0)%nat then Err ErrNameRequired else Ok u
            end);
  u ← (if u_UIDNumber u =? 0 then next ← NextUIDNumber; mret (with_uid next u) else mret u);
  u ← CreateUser u;
  let name := mkName [u_Name u] (na_Realm a) in
  keys ← random_keys (na_EncTypes a);
  let p := plain_principal name (Some (u_ID u)) (negb (u_Disabled u)) None (na_Aliases a) in
  _ ← or_undo (u_Name u) (CreatePrincipal p keys);
  if (0 <? String.length (na_Password a))%nat then
    or_undo (u_Name u) (SetUserPassword cost (u_Name u) (na_Password a) (na_EncTypes a) (na_PasswordExpiresAt a))
  else mret tt.

(** ** Metadata and bootstrap.go *)

Definition GetMeta (key : string) : Tx string := query_outcome (fun d => or_err ErrNotFound (meta d !! key)).
Definition SetMeta (key value : string) : Tx unit :=
  write (update (fun d => mkDB (kt d) (dt d) (zt d) (<[key := value]> (meta d)))).

Definition MetaRealm : string := "realm".
Definition MetaDomainSID : string := "domain_sid".

Definition ensureServicePrincipal (name : Name) (etypes : list Z) : Tx bool := fun s =>
  match GetPrincipal name s with
  | (Ok _, s1) => (Ok false, s1)
  | (Err ErrNotFound, s1) =>
      (keys ← random_keys etypes;
       now ← time_now;
       _ ← CreatePrincipal (plain_principal name None true (Some now) []) keys;
       mret true) s1
  | (Err e, s1) => (Err e, s1)
  | (Panic, s1) => (Panic, s1)
  end.

Definition EnsureRealm (realm : string) (etypes : list Z) : Tx bool :=
  let realm := ToUpper realm in
  initialized ← (fun s =>
    match GetMeta MetaRealm s with
    | (Ok existing, s1) => if String.eqb existing realm then (Ok false, s1) else (Err ErrMeta, s1)
    | (Err ErrNotFound, s1) => (_ ← SetMeta MetaRealm realm; mret true) s1
    | (Err e, s1) => (Err e, s1)
    | (Panic, s1) => (Panic, s1)
    end) : Tx bool;
  n1 ← lift (MustParseName ("krbtgt/" +:+ realm) realm);
  c1 ← ensureServicePrincipal n1 etypes;
  n2 ← lift (MustParseName "kadmin/changepw" realm);
  c2 ← ensureServicePrincipal n2 etypes;
  mret (initialized || c1 || c2).

(** [generateDomainSID] from one draw of twelve bytes. *)
Definition generateDomainSID : Tx string :=
  i ← draw;
  let b := rand 12 i in
  mret ("S-1-5-21-" +:+ pretty (get_le (take 4 b)) +:+ "-" +:+ pretty (get_le (take 4 (drop 4 b)))
        +:+ "-" +:+ pretty (get_le (drop 8 b))).

Definition EnsureDomainSID (configured : string) : Tx string :=
  stored ← (fun s => match GetMeta MetaDomainSID s with
                     | (Err ErrNotFound, s1) => (Ok EmptyString, s1)
                     | r => r
                     end) : Tx string;
  let has s := negb (String.length s =? 0)%nat in
  if has configured && has stored && negb (String.eqb configured stored) then throw ErrMeta
  else if has configured then
    _ ← (if has stored then mret tt else SetMeta MetaDomainSID configured);
    mret configured
  else if has stored then mret stored
  else
    sid ← generateDomainSID;
    _ ← SetMeta MetaDomainSID sid;
    mret sid.
End Passwords.

(** ** One password on both sides *)

Section PasswordFacts.
Context `{Ck : Clock, Rn : Rand, Ae : AEAD, Bc : Bcrypt, El : EncTypeLib, !RandLaws Rn, !AEADLaws Ae}.

Lemma version_update_row pid f k i v :
  (forall r, pr_id (f r) = pr_id r /\ pr_kvno (f r) = pr_kvno r) ->
  (i, v) ∈ version_col (update_row pid f k) <-> (i, v) ∈ version_col k.
Proof.
  intros Hf. unfold version_col. rewrite map_update_col; [done|].
  intros r. by destruct (Hf r) as [-> ->].
Qed.

Lemma rekey_Ok password etypes expires now p s s' u :
  rekey password etypes expires now p s = (Ok u, s') ->
  ktables_ok (kt (st_db s)) -> (p_ID p, p_KVNO p) ∈ version_col (kt (st_db s)) ->
  exists keys, derive password p etypes = Ok keys /\ ktables_ok (kt (st_db s')) /\ dt (st_db s') = dt (st_db s) /\
    loadKeys (st_db s') (p_ID p) (p_KVNO p + 1) = Ok keys /\
    (p_ID p, p_KVNO p + 1) ∈ version_col (kt (st_db s')) /\
    (forall i v, i <> p_ID p -> loadKeys (st_db s') i v = loadKeys (st_db s) i v /\
       ((i, v) ∈ version_col (kt (st_db s')) <-> (i, v) ∈ version_col (kt (st_db s)))).
Proof.
  unfold rekey. intros Hrun Hok Hv. tx_inv.
  match goal with H : rollKeys _ ?k _ _ = (Ok _, ?st) |- _ => rename k into keys, st into s1, H into Hroll end.
  exists keys. split; [done|].
  pose proof (rollKeys_ok _ _ _ _ _ _ Hroll Hv Hok) as Hok1.
  apply rollKeys_Ok in Hroll as (t0 & n & pwu & nowu & rows & Hne & -> & Hk & Hd & _ & _ & _ & _).
  set (rows := sealed_rows _ _ _ _ _ _) in *.
  assert (Hrows : forall x, x ∈ rows -> kr_principal_id x = p_ID p /\ kr_kvno x = p_KVNO p + 1)
    by (intros x Hx; by apply sealed_rows_owner in Hx).
  assert (Hload : forall i v, loadKeys (set_kt (update_row (p_ID p) (expiry_row (null_time expires)) (kt (st_db s1))) (st_db s1)) i v
      = loadKeys (st_db s1) i v) by done.
  rewrite Hload. split_and!.
  - by apply update_row_ok.
  - done.
  - unfold loadKeys. rewrite Hk, rolled_key_rows, !decide_True by done. unfold rows.
    rewrite sort_by_sorted by apply sealed_rows_sorted. apply open_sealed_rows.
  - rewrite version_update_row, Hk by done. apply rolled_version. right. split_and!; try done. apply id_version. eauto.
  - intros i v Hi. rewrite Hload, version_update_row, Hk by done. split.
    + unfold loadKeys. by rewrite Hk, rolled_key_rows, decide_False.
    + rewrite rolled_version. naive_solver.
Qed.

Lemma rekey_all_Ok password etypes expires now ps s s' u :
  for_each (rekey password etypes expires now) ps s = (Ok u, s') ->
  ktables_ok (kt (st_db s)) -> NoDup (p_ID <$> ps) ->
  (forall p, p ∈ ps -> (p_ID p, p_KVNO p) ∈ version_col (kt (st_db s))) ->
  ktables_ok (kt (st_db s')) /\ dt (st_db s') = dt (st_db s) /\
  (forall p, p ∈ ps -> exists keys, derive password p etypes = Ok keys /\
     loadKeys (st_db s') (p_ID p) (p_KVNO p + 1) = Ok keys /\
     (p_ID p, p_KVNO p + 1) ∈ version_col (kt (st_db s'))) /\
  (forall i v, i ∉ (p_ID <$> ps) -> loadKeys (st_db s') i v = loadKeys (st_db s) i v /\
     ((i, v) ∈ version_col (kt (st_db s')) <-> (i, v) ∈ version_col (kt (st_db s)))).
Proof.
  revert s. induction ps as [|p ps IH]; intros s; cbn [for_each]; intros Hrun Hok Hnd Hps.
  - tx_inv. split_and!; try done. intros p Hp. by apply elem_of_nil in Hp.
  - tx_inv. rewrite fmap_cons, NoDup_cons in Hnd. destruct Hnd as [Hp Hnd].
    match goal with H : rekey _ _ _ _ _ _ = (Ok _, ?st) |- _ => rename st into s1;
      apply rekey_Ok in H as (keys & Hder & Hok1 & Hd1 & Hl1 & Hv1 & Ho1); [|done|apply Hps; left] end.
    assert (Hne : forall q, q ∈ ps -> p_ID q <> p_ID p).
    { intros q Hq Heq. apply Hp. rewrite <- Heq. apply list_elem_of_fmap. eauto. }
    destruct (IH s1) as (Hok2 & Hd2 & Hin & Hout); [done|done|done| |].
    { intros q Hq. apply Ho1; [by apply Hne|]. apply Hps. by right. }
    split_and!; [done|congruence| |].
    + intros q [->|Hq]%elem_of_cons; [|by apply Hin]. exists keys. split; [done|].
      destruct (Hout (p_ID p) (p_KVNO p + 1)) as [-> ->]; [done|]. done.
    + intros i v Hi. rewrite fmap_cons, not_elem_of_cons in Hi. destruct Hi as [Hi1 Hi2].
      destruct (Hout i v) as [-> ->]; [done|]. by apply Ho1.
Qed.

Lemma getUser_row d f u : getUser d f = Ok u -> exists r, r ∈ users (dt d) /\ f r = true /\ u = decorateUser d (scanUser r).
Proof. unfold getUser. intros Hrun. run_inv. apply find_Some_elem in H as [? ?]. eauto. Qed.

(** The user row and the principals a successful [SetUserPassword] found, and what it left. *)
Lemma SetUserPassword_run cost userName password etypes expires s s' u :
  SetUserPassword cost userName password etypes expires s = (Ok u, s') -> ktables_ok (kt (st_db s)) ->
  ktables_ok (kt (st_db s')) /\
  exists r hash now n, r ∈ users (dt (st_db s)) /\ user_named userName r = true /\
    GenerateFromPassword n password cost = Some hash /\
    dt (st_db s') = set_users (map (fun x => if ur_id x =? ur_id r then digest_row hash now x else x)) (dt (st_db s)) /\
    forall p, p ∈ principals (kt (st_db s)) -> pr_user_id p = Some (ur_id r) ->
      exists keys, derive password (scanPrincipal (st_db s) p) etypes = Ok keys /\
        loadKeys (st_db s') (pr_id p) (pr_kvno p + 1) = Ok keys /\
        (pr_id p, pr_kvno p + 1) ∈ version_col (kt (st_db s')).
Proof.
  unfold SetUserPassword, hashPassword, set_digest, principalsForUserTx. intros Hrun Hok. tx_inv.
  match goal with H : getUser _ _ = Ok _ |- _ => apply getUser_row in H as (r & Hr & Hn & ->) end.
  subst. match type of Hrun with for_each _ ?l ?st = _ => set (ps := l) in *; set (s1 := st) in * end.
  assert (Hin : forall p, p ∈ ps <-> exists x, p = scanPrincipal (st_db s1) x /\ x ∈ principals (kt (st_db s)) /\ pr_user_id x = Some (ur_id r)).
  { intros p. unfold ps. rewrite list_elem_of_fmap. setoid_rewrite elem_of_sort_by.
    setoid_rewrite list_elem_of_filter. naive_solver. }
  destruct (rekey_all_Ok _ _ _ _ _ _ _ _ Hrun) as (Hok' & Hd & Hps & _).
  - done.
  - unfold ps. rewrite <- list_fmap_compose. change (p_ID ∘ _) with pr_id. rewrite sort_by_perm.
    apply NoDup_map_filter, Hok.
  - intros p (y & -> & Hy & _)%Hin. apply list_elem_of_fmap. by exists y.
  - split; [done|]. match goal with H : GenerateFromPassword ?n _ _ = Some ?h |- _ => exists r, h, (Unix (clock (st_tick s))), n end.
    split_and!; [done..|]. intros p Hp Hu. apply (Hps (scanPrincipal (st_db s1) p)), Hin. eauto.
Qed.

(** When [SetUserPassword] succeeds the new password is the account's on both sides at once: the
    digest LDAP binds against verifies it, and every principal of the account has, at its next
    version, exactly the keys the password derives to; when it does not succeed nothing changed. *)
Lemma SetUserPassword_both_sides `{!BcryptLaws Bc} (cost : Z) (userName password : string)
    (etypes : list Z) (expires : option Time) (s s' : St) (res : outcome StoreErr unit) :
  ktables_ok (kt (st_db s)) -> SetUserPassword cost userName password etypes expires s = (res, s') ->
  match res with
  | Ok _ =>
      exists r, r ∈ users (dt (st_db s)) /\ user_named userName r = true /\
        (exists r', r' ∈ users (dt (st_db s')) /\ ur_id r' = ur_id r /\
           CheckPassword (ur_pass_bcrypt r') password = true) /\
        (forall p, p ∈ principals (kt (st_db s)) -> pr_user_id p = Some (ur_id r) ->
           exists keys, derive password (scanPrincipal (st_db s) p) etypes = Ok keys /\
             loadKeys (st_db s') (pr_id p) (pr_kvno p + 1) = Ok keys /\
             (pr_id p, pr_kvno p + 1) ∈ version_col (kt (st_db s')))
  | _ => st_db s' = st_db s
  end.
Proof.
  intros Hok Hrun. assert (Hat : atomic (SetUserPassword cost userName password etypes expires)).
  { unfold SetUserPassword, hashPassword. auto 10 with ldapkdc. }
  destruct res as [u|e|]; [|by destruct (Hat _ _ _ Hrun) as [[? ?]|]..].
  apply SetUserPassword_run in Hrun as (_ & r & hash & now & n & Hr & Hn & Hg & Hd & Hps); [|done].
  exists r. split_and!; [done..| |done]. exists (digest_row hash now r). split_and!; [|done|].
  - rewrite Hd. apply list_elem_of_fmap. exists r. by rewrite Z.eqb_refl.
  - unfold CheckPassword. cbn. apply bcrypt_nonempty in Hg as Hne. destruct hash; [done|]. by eapply bcrypt_verifies.
Qed.
End PasswordFacts.

(** ** Binding *)

Section AuthenticateFacts.
Context `{Bc : Bcrypt, Tp : Totp}.

(** The password and the code a presented credential splits into for an account with a second
    factor. *)
Definition otp_split (presented password code : string) : Prop :=
  presented = password +:+ code /\ String.length code = 6%nat /\ password <> EmptyString.

Lemma otp_split_spec presented :
  (6 < String.length presented)%nat -> forall password code, otp_split presented password code <->
    password = String.substring 0 (String.length presented - 6) presented /\
    code = String.substring (String.length presented - 6) 6 presented.
Proof.
  intros Hn password code. split.
  - intros (-> & Hc & _). rewrite length_app_string, Hc.
    replace (String.length password + 6 - 6)%nat with (String.length password) by lia.
    rewrite substring_prefix. rewrite <- Hc. by rewrite substring_suffix.
  - intros [-> ->]. unfold otp_split. split_and!.
    + rewrite (substring_split presented (String.length presented - 6)) at 1 by lia. repeat f_equal. lia.
    + apply length_substring. lia.
    + intros E. apply (f_equal String.length) in E. rewrite length_substring in E by lia. simpl in E. lia.
Qed.

(** A bind is granted exactly when the account is not disabled and the credential is one of its
    application passwords, or its password alone where it has no second factor, or its password
    followed by a valid six-digit code where it has one; an account without a digest has no
    password. *)
Lemma Authenticate_granted (now : Time) (u : User) (presented : string) :
  Granted (Authenticate now u presented) = true <->
    u_Disabled u = false /\
    ((exists ap, ap ∈ u_AppPasswords u /\ CheckPassword (ap_Hash ap) presented = true) \/
     (u_OTPSecret u = EmptyString /\ CheckPassword (u_PassBcrypt u) presented = true) \/
     (u_OTPSecret u <> EmptyString /\ exists password code, otp_split presented password code /\
        totp_Validate now code (u_OTPSecret u) = true /\ CheckPassword (u_PassBcrypt u) password = true)).
Proof.
  unfold Authenticate. destruct (u_Disabled u); [simpl; naive_solver|].
  assert (Happ : existsb (fun ap => CheckPassword (ap_Hash ap) presented) (u_AppPasswords u) = true <->
                 exists ap, ap ∈ u_AppPasswords u /\ CheckPassword (ap_Hash ap) presented = true).
  { rewrite existsb_exists. by setoid_rewrite list_elem_of_In. }
  assert (Hdigest : forall pw, (String.length (u_PassBcrypt u) =? 0)%nat || negb (CheckPassword (u_PassBcrypt u) pw)
                     = negb (CheckPassword (u_PassBcrypt u) pw)).
  { intros pw. unfold CheckPassword. by destruct (String.length (u_PassBcrypt u) =? 0)%nat. }
  destruct (String.length (u_OTPSecret u) =? 0)%nat eqn:Eo; cbn [negb andb].
  - apply string_length_0 in Eo. rewrite Hdigest. repeat case_match; simp_bool; cbn; naive_solver.
  - assert (u_OTPSecret u <> EmptyString) by (intros E; apply string_length_0 in E; congruence).
    destruct (6 <? String.length presented)%nat eqn:En.
    + apply Nat.ltb_lt in En. setoid_rewrite (otp_split_spec presented En). rewrite Hdigest.
      repeat case_match; simp_bool; cbn; naive_solver.
    + apply Nat.ltb_ge in En. assert (forall a b, ~ otp_split presented a b).
      { intros a b (-> & Hb & Ha). rewrite length_app_string in En. destruct a; [done|]. simpl in En. lia. }
      repeat case_match; simp_bool; cbn; naive_solver.
Qed.
End AuthenticateFacts.

(** ** A sample account *)

Definition toy_bcrypt : Bcrypt := {|
  GenerateFromPassword := fun _ pw _ => Some (String "$" pw);
  CompareHashAndPassword := fun h pw => String.eqb h (String "$" pw);
|}.

#[export] Instance toy_bcrypt_laws : BcryptLaws toy_bcrypt.
Proof.
  split; intros n pw cost h [= <-]; [|done]. apply String.eqb_refl.
Qed.

Section AccountSample.
#[local] Existing Instance sample_clock.
#[local] Existing Instance toy_rand.
#[local] Existing Instance toy_aead.
#[local] Existing Instance toy_enctypes.
#[local] Existing Instance toy_bcrypt.

(** An account with random keys and no password yet. *)
Definition one_user : St := snd (CreateUser (sample_user "alice" 10000 5000 []) empty_state).
Definition one_account : St :=
  snd (CreatePrincipal (plain_principal alice (Some 1) true None []) (sample_keys Byte.x01) one_user).

Lemma one_account_ok : ktables_ok (kt (st_db one_account)).
Proof.
  apply (pstep_ok one_user).
  - eapply pstep_create. apply surjective_pairing.
  - assert (kt (st_db one_user) = empty_tables) as -> by (vm_compute; reflexivity). apply empty_tables_ok.
Qed.

Lemma SetUserPassword_both_sides_witness :
  exists r' s', SetUserPassword 4 "Alice" "correct horse" [18; 17] None one_account = (Ok tt, s') /\
    r' ∈ users (dt (st_db s')) /\ CheckPassword (ur_pass_bcrypt r') "correct horse" = true.
Proof.
  destruct (SetUserPassword 4 "Alice" "correct horse" [18; 17] None one_account) as [res s'] eqn:E.
  assert (Hres : res = Ok tt) by (apply (f_equal fst) in E; vm_compute in E; symmetry; exact E). subst res.
  destruct (SetUserPassword_both_sides _ _ _ _ _ _ _ _ one_account_ok E) as (r & _ & _ & (r' & Hr' & _ & Hc) & _).
  exists r', s'. split; [reflexivity|]. split; [exact Hr'|exact Hc].
Defined.
End AccountSample.
