(* ===== verification/Sidgen.v ===== *)
(** * Pinning the identifier range: package [store], idrange.go

    [EnsureIDRange] writes the range into the database on the first start, refuses to go on under
    another one, and gives an identifier to every account and group that has none yet. *)

From S2P Require Import Prelude Text Hostport Names Keytab Model Secret IdRange Db Principals PrincipalFacts Directory DirectoryFacts Accounts.

Definition MetaIDRangeBaseID : string := "id_range_base_id".
Definition MetaIDRangeSize : string := "id_range_size".
Definition MetaIDRangeBaseRID : string := "id_range_base_rid".
Definition MetaIDRangeSecondaryBaseRID : string := "id_range_secondary_base_rid".

(** One round of the loop of [readIDRange]. *)
Definition read_number (key : string) : Tx Z :=
  v ← GetMeta key;
  lift (or_err ErrMeta (Atoi v)).

Definition readIDRange : Tx IDRange :=
  baseID ← read_number MetaIDRangeBaseID;
  size ← read_number MetaIDRangeSize;
  baseRID ← read_number MetaIDRangeBaseRID;
  secondary ← read_number MetaIDRangeSecondaryBaseRID;
  mret (mkIDRange baseID size baseRID secondary).

Definition writeIDRange (r : IDRange) : Tx unit :=
  _ ← SetMeta MetaIDRangeBaseID (pretty (BaseID r));
  _ ← SetMeta MetaIDRangeSize (pretty (Size r));
  _ ← SetMeta MetaIDRangeBaseRID (pretty (BaseRID r));
  SetMeta MetaIDRangeSecondaryBaseRID (pretty (SecondaryBaseRID r)).

(** [LEFT JOIN security_identifiers ... WHERE s.rid IS NULL]. *)
Definition without_sid (d : DB) (kind : owner_kind) (id : Z) : bool :=
  negb (existsb (fun r => bool_decide (si_kind r = kind) && (si_owner_id r =? id)) (security_identifiers (dt d))).

Definition pending_users : Tx (list (Z * Z)) := query (fun d =>
  (fun r => (ur_id r, ur_uid_number r)) <$> filter (fun r => without_sid d kind_user (ur_id r) = true) (users (dt d))).
Definition pending_groups : Tx (list (Z * Z)) := query (fun d =>
  (fun r => (gr_id r, gr_gid_number r)) <$> filter (fun r => without_sid d kind_group (gr_id r) = true) (groups (dt d))).

Section Sidgen.
Context `{Clock}.

(** One that cannot be given an identifier is logged and passed over. *)
Definition allocate_logged (kind : owner_kind) (p : Z * Z) : Tx unit := fun s =>
  match allocateRID kind (fst p) (snd p) s with
  | (Panic, s') => (Panic, s')
  | (_, s') => (Ok tt, s')
  end.

Definition backfillSecurityIdentifiers : Tx unit :=
  write (
    todo ← pending_users;
    _ ← for_each (allocate_logged kind_user) todo;
    todo ← pending_groups;
    for_each (allocate_logged kind_group) todo).

Definition set_range (r : IDRange) : Tx unit := fun s => (Ok tt, mkSt (st_db s) (st_tick s) (st_draw s) r).

Definition EnsureIDRange (want : IDRange) : Tx IDRange :=
  _ ← lift (match Validate_range want with Some _ => Err ErrRange | None => Ok tt end);
  _ ← (fun s => match readIDRange s with
                | (Ok stored, s') => if bool_decide (stored = want) then (Ok tt, s') else (Err ErrRange, s')
                | (Err ErrNotFound, s') => writeIDRange want s'
                | (Err e, s') => (Err e, s')
                | (Panic, s') => (Panic, s')
                end) : Tx unit;
  _ ← set_range want;
  _ ← backfillSecurityIdentifiers;
  mret want.
End Sidgen.

(** ** Identifiers once given stay, and every pending object is offered one *)

Definition sid_of (kind : owner_kind) (id : Z) (d : DB) : Prop :=
  exists r, r ∈ security_identifiers (dt d) /\ si_kind r = kind /\ si_owner_id r = id.
Definition rid_taken (rid : Z) (d : DB) : Prop := exists r, r ∈ security_identifiers (dt d) /\ si_rid r = rid.

(** An object of the range has an identifier, or both of those it could have are others'. *)
Definition served (range : IDRange) (kind : owner_kind) (id posix : Z) (d : DB) : Prop :=
  Contains range posix = true -> sid_of kind id d \/ rid_taken (fst (rids range posix)) d /\ rid_taken (snd (rids range posix)) d.

Section Facts.
Context `{Ck : Clock}.

(** Identifiers are only added; the accounts, the groups, the numbers given to them, the metadata and
    the tables beside the directory stay. *)
Definition beside_sids (d : DB) := (meta d, kt d, zt d, seq_users (dt d), seq_groups (dt d)).
Definition sids_grow (d d' : DB) : Prop :=
  users (dt d') = users (dt d) /\ groups (dt d') = groups (dt d) /\ beside_sids d' = beside_sids d /\
  forall r, r ∈ security_identifiers (dt d) -> r ∈ security_identifiers (dt d').
#[export] Instance sids_grow_preorder : PreOrder sids_grow.
Proof. split; [done|]. intros d1 d2 d3 (E1 & E2 & E3 & H1) (F1 & F2 & F3 & H2). split_and!; [congruence..|]. auto. Qed.

Lemma served_grows range kind id posix d d' : sids_grow d d' -> served range kind id posix d -> served range kind id posix d'.
Proof. intros (_ & _ & _ & Hr) Hs Hc. destruct (Hs Hc) as [(r & Hin & ?)|[(a & Ha & ?) (b & Hb & ?)]]; [left; exists r|right; split; [exists a|exists b]]; auto. Qed.

Lemma insert_rid_run rid kind owner now s b s' : insert_rid rid kind owner now s = (Ok b, s') ->
  st_idRange s' = st_idRange s /\ sids_grow (st_db s) (st_db s') /\
  if b then sid_of kind owner (st_db s') else rid_taken rid (st_db s') \/ sid_of kind owner (st_db s').
Proof.
  unfold insert_rid. destruct (existsb _ _) eqn:Ex; intros [= <- <-].
  - split; [done|]. split; [done|]. apply existsb_exists in Ex as (r & Hr%list_elem_of_In & Hm).
    apply orb_true_iff in Hm as [Hm%Z.eqb_eq|[Hm1%bool_decide_eq_true Hm2%Z.eqb_eq]%andb_true_iff]; [left|right]; exists r; auto.
  - split; [done|]. split; [split_and!; [done..|]; cbn; intros r Hr; apply elem_of_app; by left|].
    eexists. split; [cbn; apply elem_of_app; right; left|done].
Qed.

Lemma allocateRID_served kind id posix s r s' : allocateRID kind id posix s = (r, s') ->
  st_idRange s' = st_idRange s /\ sids_grow (st_db s) (st_db s') /\ r <> Panic /\ served (st_idRange s) kind id posix (st_db s').
Proof.
  unfold allocateRID, served. rewrite bind_run. destruct (Contains (st_idRange s) posix); cbn [negb]; [|by intros [= <- <-]].
  destruct (rids (st_idRange s) posix) as [primary secondary]. cbn [fst snd]. rewrite bind_run. unfold time_now. set (s0 := mkSt _ _ _ _). rewrite bind_run.
  destruct (insert_rid primary kind id _ s0) as [[b1|e|] s1] eqn:E1;
    [|unfold insert_rid in E1; by destruct (existsb _ _)..].
  apply insert_rid_run in E1 as (R1 & G1 & H1). destruct b1; [intros [= <- <-]; split; [done|]; split; [done|]; split; [done|]; by left|].
  rewrite bind_run. destruct (insert_rid secondary kind id _ s1) as [[b2|e|] s2] eqn:E2; [|unfold insert_rid in E2; by destruct (existsb _ _)..].
  apply insert_rid_run in E2 as (R2 & G2 & H2). intros Hrun. assert (s' = s2 /\ r <> Panic) as [-> Hp] by (unfold throw_if, lift in Hrun; destruct b2; by injection Hrun as <- <-).
  split; [by rewrite R2, R1|]. split; [by etrans|]. split; [done|]. intros _. destruct G2 as (_ & _ & _ & G2).
  destruct H1 as [(a & Ha & Ea)|(a & Ha & Ea)]; [|left; exists a; auto]. destruct b2; [by left|].
  destruct H2 as [H2|H2]; [right|by left]. split; [exists a; auto|done].
Qed.

Lemma allocate_all_served kind todo s r s' : for_each (allocate_logged kind) todo s = (r, s') ->
  r = Ok tt /\ st_idRange s' = st_idRange s /\ sids_grow (st_db s) (st_db s') /\
  forall p, p ∈ todo -> served (st_idRange s) kind (fst p) (snd p) (st_db s').
Proof.
  revert s. induction todo as [|p todo IH]; intros s; cbn [for_each].
  { intros [= <- <-]. split_and!; try done. by intros p ?%elem_of_nil. }
  rewrite bind_run. unfold allocate_logged at 1. destruct (allocateRID kind (fst p) (snd p) s) as [r1 s1] eqn:E1.
  apply allocateRID_served in E1 as (R1 & G1 & Hp & S1). intros Hrun. assert (Hrest : for_each (allocate_logged kind) todo s1 = (r, s')) by (by destruct r1).
  apply IH in Hrest as (-> & R2 & G2 & S2). split; [done|]. split; [congruence|]. split; [by etrans|].
  intros q [->|Hq]%elem_of_cons; [by eapply served_grows|]. rewrite <- R1. by apply S2.
Qed.

Lemma backfill_served s r s' : backfillSecurityIdentifiers s = (r, s') ->
  r = Ok tt /\ st_idRange s' = st_idRange s /\ sids_grow (st_db s) (st_db s') /\
  (forall u, u ∈ users (dt (st_db s')) -> served (st_idRange s) kind_user (ur_id u) (ur_uid_number u) (st_db s')) /\
  (forall g, g ∈ groups (dt (st_db s')) -> served (st_idRange s) kind_group (gr_id g) (gr_gid_number g) (st_db s')).
Proof.
  unfold backfillSecurityIdentifiers, write, pending_users, pending_groups. rewrite bind_run. unfold query at 1. rewrite bind_run.
  destruct (for_each (allocate_logged kind_user) _ s) as [r1 s1] eqn:E1. apply allocate_all_served in E1 as (-> & R1 & G1 & S1).
  rewrite bind_run. unfold query at 1. destruct (for_each (allocate_logged kind_group) _ s1) as [r2 s2] eqn:E2.
  apply allocate_all_served in E2 as (-> & R2 & G2 & S2). intros [= <- <-].
  assert (Hhad : forall kind id posix d, without_sid d kind id = false -> served (st_idRange s) kind id posix d).
  { intros kind id posix d Hw _. left. unfold without_sid in Hw. apply negb_false_iff, existsb_exists in Hw as (x & Hx%list_elem_of_In & Hm).
    apply andb_true_iff in Hm as [Hm1%bool_decide_eq_true Hm2%Z.eqb_eq]. by exists x. }
  split; [done|]. split; [congruence|]. split; [by etrans|]. split.
  - intros u Hu. destruct G2 as (Eu2 & G2'). destruct G1 as (Eu1 & G1'). rewrite Eu2, Eu1 in Hu.
    apply (served_grows _ _ _ _ (st_db s1)); [done|]. destruct (without_sid (st_db s) kind_user (ur_id u)) eqn:Hw.
    + apply (S1 (ur_id u, ur_uid_number u)), list_elem_of_fmap. exists u. split; [done|]. by apply list_elem_of_filter.
    + apply (served_grows _ _ _ _ (st_db s)); [done|]. by apply Hhad.
  - intros g Hg. destruct G2 as (Eu2 & Eg2 & G2'). rewrite Eg2 in Hg. rewrite <- R1. destruct (without_sid (st_db s1) kind_group (gr_id g)) eqn:Hw.
    + apply (S2 (gr_id g, gr_gid_number g)), list_elem_of_fmap. exists g. split; [done|]. by apply list_elem_of_filter.
    + apply (served_grows _ _ _ _ (st_db s1)); [done|]. rewrite R1. by apply Hhad.
Qed.

(** ** The range is read back as it was written *)

Definition range_int (r : IDRange) : Prop :=
  Forall (fun z => min_int64 <= z <= max_int64) [BaseID r; Size r; BaseRID r; SecondaryBaseRID r].

Definition pinned (r : IDRange) (d : DB) : Prop :=
  meta d !! MetaIDRangeBaseID = Some (pretty (BaseID r)) /\ meta d !! MetaIDRangeSize = Some (pretty (Size r)) /\
  meta d !! MetaIDRangeBaseRID = Some (pretty (BaseRID r)) /\ meta d !! MetaIDRangeSecondaryBaseRID = Some (pretty (SecondaryBaseRID r)).

Lemma read_pinned r s : range_int r -> pinned r (st_db s) -> readIDRange s = (Ok r, s).
Proof.
  intros Hr (E1 & E2 & E3 & E4). unfold range_int in Hr. repeat apply Forall_cons in Hr as [? Hr].
  unfold readIDRange, read_number, GetMeta, query_outcome. repeat (rewrite bind_run; cbv beta). rewrite E1. cbn [or_err]. unfold lift. rewrite Atoi_pretty by done.
  cbn [or_err]. repeat (rewrite bind_run; cbv beta). rewrite E2. cbn [or_err]. rewrite Atoi_pretty by done.
  cbn [or_err]. repeat (rewrite bind_run; cbv beta). rewrite E3. cbn [or_err]. rewrite Atoi_pretty by done.
  cbn [or_err]. repeat (rewrite bind_run; cbv beta). rewrite E4. cbn [or_err]. rewrite Atoi_pretty by done. by destruct r.
Qed.

Lemma read_number_ext key s t : meta (st_db t) = meta (st_db s) -> fst (read_number key t) = fst (read_number key s) /\ snd (read_number key t) = t.
Proof. intros E. unfold read_number, GetMeta, query_outcome. rewrite !bind_run, E. by destruct (meta (st_db s) !! key). Qed.

Lemma read_number_st key s : snd (read_number key s) = s.
Proof. by apply (read_number_ext key s s). Qed.

(** What is read depends on the metadata alone. *)
Lemma read_ext s t : meta (st_db t) = meta (st_db s) -> fst (readIDRange t) = fst (readIDRange s) /\ snd (readIDRange t) = t.
Proof.
  intros E. unfold readIDRange.
  assert (Hstep : forall {T} key (f : Z -> Tx T), (forall z, fst (f z t) = fst (f z s) /\ snd (f z t) = t) ->
    fst ((x ← read_number key; f x) t) = fst ((x ← read_number key; f x) s) /\ snd ((x ← read_number key; f x) t) = t).
  { intros T key f Hf. rewrite !bind_run. destruct (read_number_ext key s t E) as [E1 E2]. pose proof (read_number_st key s) as E3.
    destruct (read_number key t) as [rt t1], (read_number key s) as [rs s1]. cbn in E1, E2, E3. subst. destruct rs; [apply Hf|done..]. }
  do 4 (apply Hstep; intros ?). done.
Qed.

(** The keys the range is kept under. *)
Definition range_keys : list string := [MetaIDRangeBaseID; MetaIDRangeSize; MetaIDRangeBaseRID; MetaIDRangeSecondaryBaseRID].

(** Only the metadata under those keys differ. *)
Definition meta_moved (keys : list string) (d d' : DB) : Prop :=
  (kt d', dt d', zt d') = (kt d, dt d, zt d) /\ forall key, key ∉ keys -> meta d' !! key = meta d !! key.

Lemma write_pins r s : exists s', writeIDRange r s = (Ok tt, s') /\ pinned r (st_db s') /\ meta_moved range_keys (st_db s) (st_db s').
Proof.
  eexists. split; [reflexivity|]. split; [unfold pinned; cbn; by simplify_map_eq|]. split; [done|].
  intros key Hk. cbn. unfold range_keys in Hk. rewrite !not_elem_of_cons in Hk. destruct Hk as (? & ? & ? & ? & _). by rewrite !lookup_insert_ne.
Qed.

(** What a start with the range that is stored does. *)
Lemma EnsureIDRange_later want t : Validate_range want = None -> readIDRange t = (Ok want, t) ->
  exists t', EnsureIDRange want t = (Ok want, t') /\ st_idRange t' = want /\ sids_grow (st_db t) (st_db t') /\
    (forall u, u ∈ users (dt (st_db t')) -> served want kind_user (ur_id u) (ur_uid_number u) (st_db t')) /\
    (forall g, g ∈ groups (dt (st_db t')) -> served want kind_group (gr_id g) (gr_gid_number g) (st_db t')).
Proof.
  intros Hv Hr. unfold EnsureIDRange. rewrite bind_run. unfold lift. rewrite Hv, bind_run, Hr, bool_decide_true by done. rewrite bind_run. unfold set_range.
  rewrite bind_run. destruct (backfillSecurityIdentifiers _) as [rb tb] eqn:Eb. apply backfill_served in Eb as (-> & R1 & G & Hu & Hg). by exists tb.
Qed.

(** A start that succeeds has the range stored, and read back by whatever comes later. *)
Lemma EnsureIDRange_first want r s s' : range_int want -> EnsureIDRange want s = (Ok r, s') ->
  r = want /\ Validate_range want = None /\ (forall t, meta (st_db t) = meta (st_db s') -> readIDRange t = (Ok want, t)) /\
  exists s1, meta_moved range_keys (st_db s) (st_db s1) /\ readIDRange s1 = (Ok want, s1) /\ EnsureIDRange want s1 = (Ok want, s').
Proof.
  intros Hint. unfold EnsureIDRange at 1. rewrite bind_run. unfold lift at 1. destruct (Validate_range want) eqn:Hv; [done|]. rewrite bind_run.
  intros Hrun. assert (exists s1, (forall t, meta (st_db t) = meta (st_db s1) -> readIDRange t = (Ok want, t)) /\ meta_moved range_keys (st_db s) (st_db s1) /\
    (_ ← set_range want; _ ← backfillSecurityIdentifiers; mret want) s1 = (Ok r, s')) as (s1 & Hread & Hmv & Hrest).
  { destruct (read_ext s s eq_refl) as [_ Es]. destruct (readIDRange s) as [[stored|e|] s0] eqn:Er; cbn in Es; subst s0; [| |done].
    - case_bool_decide as Hw; [|done]. subst stored. exists s. split; [|by split]. intros t Et. destruct (read_ext s t Et) as [F1 F2]. rewrite Er in F1.
      destruct (readIDRange t) as [x y]. cbn in F1, F2. by subst.
    - destruct e; try done. destruct (write_pins want s) as (s1 & Hw & Hp & Hm). rewrite Hw in Hrun. exists s1. split; [|done].
      intros t Et. apply read_pinned; [done|]. unfold pinned in *. by rewrite Et. }
  pose proof (Hread s1 eq_refl) as Hr1. destruct (EnsureIDRange_later want s1 Hv Hr1) as (t' & Ht & Hrange & G & _).
  assert (Hsame : EnsureIDRange want s1 = (Ok r, s')).
  { unfold EnsureIDRange. rewrite bind_run. unfold lift. rewrite Hv, bind_run, Hr1, bool_decide_true by done. exact Hrest. }
  rewrite Ht in Hsame. injection Hsame as <- <-. split; [done|]. split; [done|]. split; [|by exists s1]. intros t Et. apply Hread. destruct G as (_ & _ & [= Em _ _ _ _] & _). congruence.
Qed.

(** The identifier range is pinned by the first start: when [EnsureIDRange] succeeds, every account
    and every group of the range has an identifier unless both of those it could have belong to
    others, no identifier given before is lost, and whatever happens to the database but for its
    metadata, a later start succeeds with the same range and is refused with any other. *)
Lemma EnsureIDRange_pins (want r : IDRange) (s s' : St) :
  range_int want -> EnsureIDRange want s = (Ok r, s') ->
  (r = want /\ st_idRange s' = want) /\
  (forall u, u ∈ users (dt (st_db s')) -> served want kind_user (ur_id u) (ur_uid_number u) (st_db s')) /\
  (forall g, g ∈ groups (dt (st_db s')) -> served want kind_group (gr_id g) (gr_gid_number g) (st_db s')) /\
  (forall x, x ∈ security_identifiers (dt (st_db s)) -> x ∈ security_identifiers (dt (st_db s'))) /\
  forall other t, meta (st_db t) = meta (st_db s') -> fst (EnsureIDRange other t) = if bool_decide (other = want) then Ok want else Err ErrRange.
Proof.
  intros Hint Hrun. destruct (EnsureIDRange_first _ _ _ _ Hint Hrun) as (-> & Hv & Hread & s1 & [Emv _] & Hr1 & E1).
  destruct (EnsureIDRange_later want s1 Hv Hr1) as (t' & E2 & Hrange & (_ & _ & _ & Hsid) & Hu & Hg). rewrite E1 in E2. injection E2 as <-.
  split; [done|]. split; [done|]. split; [done|]. split; [injection Emv as _ Edt _; by rewrite <- Edt|].
  intros other t Et. case_bool_decide as Ho.
  - subst other. by destruct (EnsureIDRange_later want t Hv (Hread t Et)) as (? & -> & _).
  - unfold EnsureIDRange. rewrite bind_run. unfold lift. destruct (Validate_range other); [done|]. by rewrite bind_run, Hread, bool_decide_false.
Qed.
End Facts.

(** ** A database from before the range *)

Section SidgenSample.
#[local] Existing Instance sample_clock.

Definition forgotten : St := set_db (set_dt (set_sids (fun _ => []) (dt (st_db one_user))) (st_db one_user)) one_user.

Lemma EnsureIDRange_pins_witness :
  exists s', EnsureIDRange DefaultIDRange forgotten = (Ok DefaultIDRange, s') /\
    (forall u, u ∈ users (dt (st_db s')) -> served DefaultIDRange kind_user (ur_id u) (ur_uid_number u) (st_db s')) /\
    fst (EnsureIDRange (mkIDRange 1 100 1000 100000000) s') = Err ErrRange.
Proof.
  destruct (EnsureIDRange DefaultIDRange forgotten) as [res s'] eqn:E.
  assert (Hres : res = Ok DefaultIDRange) by (apply (f_equal fst) in E; vm_compute in E; symmetry; exact E). subst res.
  assert (Hint : range_int DefaultIDRange) by (repeat constructor; vm_compute; discriminate).
  destruct (EnsureIDRange_pins DefaultIDRange _ _ _ Hint E) as (_ & Hu & _ & _ & Hlater).
  exists s'. split; [reflexivity|]. split; [exact Hu|]. rewrite (Hlater (mkIDRange 1 100 1000 100000000) s' eq_refl).
  rewrite bool_decide_false by discriminate. reflexivity.
Defined.
End SidgenSample.
