(* ===== verification/Certs.v ===== *)
(** * Certificates of accounts: package [store], certificates.go

    The certificates an external authority issued and an administrator imported: the canonical
    spelling of a serial, the import, the listings, and the batched read a directory search makes.
    The certificate itself is bytes here; parsing it is the management API's. *)

From S2P Require Import Prelude Text Names Keytab Model IdRange Db Principals Directory.

Record Certificate : Type := mkCertificate {
  ce_ID : Z;
  ce_UserName : string;
  ce_Issuer : string;
  ce_Serial : string;
  ce_Subject : string;
  ce_DER : bytes;
  ce_NotBefore : Time;
  ce_NotAfter : Time;
  ce_CreatedAt : Time;
}.

Definition normalizeSerial (serial : string) : string :=
  let s := ToLower serial in
  if negb (String.length s mod 2 =? 0)%nat then "0" +:+ s else s.

(** A row of the join with [users], [None] when the account is not there. *)
Definition scanCertificate (d : DB) (r : CertRow) : option Certificate :=
  u ← List.find (fun u => ur_id u =? ct_user_id r) (users (dt d));
  Some (mkCertificate (ct_id r) (ur_name u) (ct_issuer r) (ct_serial r) (ct_subject r) (ct_der r)
          (UnixTime (ct_not_before r)) (UnixTime (ct_not_after r)) (UnixTime (ct_created_at r))).

(** [u.name = ?] on the joined row. *)
Definition cert_of_user (d : DB) (name : string) (r : CertRow) : bool :=
  existsb (fun u => (ur_id u =? ct_user_id r) && user_named name u) (users (dt d)).

Definition cert_le (a b : CertRow) : bool := ct_id a <=? ct_id b.
Definition cert_user_le (a b : CertRow) : bool :=
  (ct_user_id a <? ct_user_id b) || ((ct_user_id a =? ct_user_id b) && (ct_id a <=? ct_id b)).

Definition listCertificates (d : DB) (where_ : CertRow -> bool) : list Certificate :=
  omap (scanCertificate d) (sort_by cert_le (filter (fun r => where_ r = true) (user_certificates (zt d)))).

(** The key an INTEGER PRIMARY KEY is given: one more than the largest in the table. *)
Definition next_rowid (t : list CertRow) : Z := foldr Z.max 0 (ct_id <$> t) + 1.

Definition insert_certificate (mk : Z -> CertRow) : Tx Z := fun s =>
  let d := st_db s in
  let id := next_rowid (user_certificates (zt d)) in
  let r := mk id in
  if existsb (fun q => String.eqb (ct_issuer q) (ct_issuer r) && String.eqb (ct_serial q) (ct_serial r))
       (user_certificates (zt d))
  then (Err ErrConflict, s)
  else (Ok id, set_db (set_zt (set_certs (fun t => t ++ [r]) (zt d)) d) s).

Definition certificateBatch : nat := 500.

Section Certificates.
Context `{Clock}.

Definition AddCertificate (userName : string) (c : Certificate) : Tx Certificate :=
  let serial := normalizeSerial (ce_Serial c) in
  let issuer := ToLower (ce_Issuer c) in
  write (
    u ← query_outcome (fun d => getUser d (user_named userName));
    now ← time_now;
    id ← insert_certificate (fun id => mkCertRow id (u_ID u) issuer serial (ce_Subject c) (ce_DER c)
           (Unix (ce_NotBefore c)) (Unix (ce_NotAfter c)) (Unix now));
    mret (mkCertificate id userName issuer serial (ce_Subject c) (ce_DER c) (ce_NotBefore c) (ce_NotAfter c) now)).

(** [readUser]: a read that first proves the account is there. *)
Definition readUser {A} (userName : string) (fn : Tx A) : Tx A :=
  _ ← query_outcome (fun d => getUser d (user_named userName));
  fn.

Definition ListUserCertificates (userName : string) : Tx (list Certificate) :=
  readUser userName (query (fun d => listCertificates d (cert_of_user d userName))).

Definition GetCertificate (userName issuer serial : string) : Tx Certificate :=
  let issuer := ToLower issuer in
  let serial := normalizeSerial serial in
  readUser userName (
    found ← query (fun d => listCertificates d (fun r =>
      cert_of_user d userName r && String.eqb (ct_issuer r) issuer && String.eqb (ct_serial r) serial));
    lift (or_err ErrNotFound (head (found : list Certificate)))).

Definition DeleteCertificate (userName issuer serial : string) : Tx unit :=
  let issuer := ToLower issuer in
  let serial := normalizeSerial serial in
  write (
    u ← query_outcome (fun d => getUser d (user_named userName));
    let doomed r := ct_user_id r = u_ID u /\ ct_issuer r = issuer /\ ct_serial r = serial in
    n ← query (fun d => List.length (filter doomed (user_certificates (zt d))));
    _ ← update_zt (set_certs (filter (fun r => ~ doomed r)));
    throw_if (n =? 0)%nat ErrNotFound).

(** [out[userID] = append(out[userID], c)] for one row of a batch. *)
Definition add_certificate (d : DB) (out : gmap Z (list Certificate)) (r : CertRow) : gmap Z (list Certificate) :=
  match scanCertificate d r with
  | Some c => <[ct_user_id r := default [] (out !! ct_user_id r) ++ [c]]> out
  | None => out
  end.

Definition userCertificatesBatch (out : gmap Z (list Certificate)) (ids : list Z) : Tx (gmap Z (list Certificate)) :=
  query (fun d => fold_left (add_certificate d)
    (sort_by cert_user_le (filter (fun r => ct_user_id r ∈ ids) (user_certificates (zt d)))) out).

(** The ids in the order they are first named. *)
Definition distinct_ids (userIDs : list Z) : list Z :=
  snd (fold_left (fun '(seen, ids) id => if bool_decide (id ∈ (seen : gset Z)) then (seen, ids) else ({[id]} ∪ seen, ids ++ [id]))
    userIDs (∅, [])).

(** [for start := 0; start < len(ids); start += certificateBatch]; the fuel bounds the rounds. *)
Fixpoint certificate_batches (fuel start : nat) (ids : list Z) (out : gmap Z (list Certificate)) : Tx (gmap Z (list Certificate)) :=
  if (start <? List.length ids)%nat then
    match fuel with
    | O => lift Panic
    | S fuel' =>
        out ← userCertificatesBatch out (take (Nat.min (start + certificateBatch) (List.length ids) - start) (drop start ids));
        certificate_batches fuel' (start + certificateBatch) ids out
    end
  else mret out.

Definition UserCertificates (userIDs : list Z) : Tx (gmap Z (list Certificate)) :=
  let ids := distinct_ids userIDs in
  certificate_batches (List.length ids) 0 ids ∅.
End Certificates.

(** ** The batched read is the listing of every account *)

(** An account's certificates, oldest imported first. *)
Definition certificates_of (d : DB) (id : Z) : list Certificate :=
  listCertificates d (fun r => ct_user_id r =? id).

Section SortFilter.
Context {A : Type} (le : A -> A -> bool) (P : A -> Prop) `{!forall x, Decision (P x)}.
Hypothesis le_total : forall a b, le a b = false -> le b a = true.
Hypothesis le_trans : forall a b c, le a b = true -> le b c = true -> le a c = true.

Lemma filter_insert_by x l : Sorted (fun a b => le a b = true) l ->
  filter P (insert_by le x l) = if decide (P x) then insert_by le x (filter P l) else filter P l.
Proof.
  intros Hs%Sorted_StronglySorted; [|intros a b c; apply le_trans].
  induction Hs as [|y l Hs IH Hall]; cbn [insert_by]; [rewrite filter_cons, filter_nil; by case_decide|].
  destruct (le x y) eqn:E.
  - rewrite filter_cons. destruct (decide (P x)); [|done].
    rewrite filter_cons. destruct (decide (P y)); [cbn [insert_by]; by rewrite E|].
    destruct (filter P l) as [|z l'] eqn:El; [done|]. cbn [insert_by].
    assert (Hz : z ∈ filter P l) by (rewrite El; left). apply list_elem_of_filter in Hz as [_ Hz].
    rewrite Forall_forall in Hall. by rewrite (le_trans x y z E (Hall z Hz)).
  - rewrite !(filter_cons P y), IH. destruct (decide (P x)), (decide (P y)); try done.
    cbn [insert_by]. by rewrite E.
Qed.

Lemma filter_sort_by l : filter P (sort_by le l) = sort_by le (filter P l).
Proof.
  induction l as [|x l IH]; [done|]. cbn [sort_by foldr]. change (foldr (insert_by le) [] l) with (sort_by le l).
  rewrite filter_insert_by by (apply sorted_sort_by; intros; by apply le_total).
  rewrite filter_cons, IH. by destruct (decide (P x)).
Qed.
End SortFilter.

(** Two orders that agree on the elements sort them the same way. *)
Lemma insert_by_ext {A} (le le' : A -> A -> bool) x l :
  (forall y, y ∈ l -> le x y = le' x y) -> insert_by le x l = insert_by le' x l.
Proof.
  induction l as [|y l IH]; intros Hl; [done|]. cbn [insert_by]. rewrite (Hl y) by left.
  case_match; [done|]. f_equal. apply IH. intros z Hz. apply Hl. by right.
Qed.

Lemma sort_by_ext {A} (le le' : A -> A -> bool) l :
  (forall x y, x ∈ l -> y ∈ l -> le x y = le' x y) -> sort_by le l = sort_by le' l.
Proof.
  induction l as [|x l IH]; intros Hl; [done|]. cbn [sort_by foldr]. unfold sort_by in IH. rewrite IH.
  - apply insert_by_ext. intros y Hy. apply Hl; [left|right]. by apply (elem_of_sort_by le' l y).
  - intros a b Ha Hb. apply Hl; by right.
Qed.

Lemma cert_user_le_total a b : cert_user_le a b = false -> cert_user_le b a = true.
Proof.
  unfold cert_user_le. rewrite orb_false_iff, andb_false_iff, orb_true_iff, andb_true_iff,
    !Z.ltb_ge, !Z.ltb_lt, !Z.eqb_neq, !Z.eqb_eq, !Z.leb_gt, !Z.leb_le. lia.
Qed.

Lemma cert_user_le_trans a b c : cert_user_le a b = true -> cert_user_le b c = true -> cert_user_le a c = true.
Proof.
  unfold cert_user_le. rewrite !orb_true_iff, !andb_true_iff, !Z.ltb_lt, !Z.eqb_eq, !Z.leb_le. lia.
Qed.

Lemma add_certificates_lookup d rows out id :
  default [] (fold_left (add_certificate d) rows out !! id) =
  default [] (out !! id) ++ omap (scanCertificate d) (filter (fun r => ct_user_id r = id) rows).
Proof.
  revert out. induction rows as [|r rows IH]; intros out; cbn [fold_left]; [by rewrite filter_nil, app_nil_r|].
  rewrite IH, filter_cons. unfold add_certificate at 1. destruct (decide (ct_user_id r = id)) as [<-|Hne].
  - cbn [omap list_omap]. destruct (scanCertificate d r); [|done]. rewrite lookup_insert_eq. cbn. by rewrite <- app_assoc.
  - destruct (scanCertificate d r); [|done]. by rewrite lookup_insert_ne.
Qed.

(** One batch adds the listings of the accounts it names. *)
Lemma userCertificatesBatch_lookup out ids s m s' id :
  userCertificatesBatch out ids s = (Ok m, s') ->
  s' = s /\ default [] (m !! id) =
    default [] (out !! id) ++ (if decide (id ∈ ids) then certificates_of (st_db s) id else []).
Proof.
  unfold userCertificatesBatch. intros [-> ->]%query_Ok. split; [done|].
  rewrite add_certificates_lookup. f_equal.
  rewrite filter_sort_by by (intros; eauto using cert_user_le_total, cert_user_le_trans).
  rewrite list_filter_filter. destruct (decide (id ∈ ids)) as [Hid|Hid].
  - unfold certificates_of, listCertificates.
    rewrite (sort_by_ext _ cert_le).
    + do 2 f_equal. apply filter_ext_elem. intros r _. rewrite Z.eqb_eq. naive_solver.
    + intros a b [[<- _] _]%list_elem_of_filter [[E _] _]%list_elem_of_filter.
      unfold cert_user_le, cert_le. rewrite E, Z.ltb_irrefl, Z.eqb_refl. done.
  - rewrite filter_none; [done|]. intros r _ [<- ?]. done.
Qed.

Lemma certificate_batches_run fuel start ids out s :
  NoDup ids -> (List.length ids <= start + fuel * certificateBatch)%nat ->
  exists m, certificate_batches fuel start ids out s = (Ok m, s) /\
    forall id, default [] (m !! id) =
      default [] (out !! id) ++ (if decide (id ∈ drop start ids) then certificates_of (st_db s) id else []).
Proof.
  intros Hnd. revert start out. induction fuel as [|fuel IH]; intros start out Hlen; cbn [certificate_batches];
    destruct (start <? List.length ids)%nat eqn:Hlt.
  1: apply Nat.ltb_lt in Hlt; lia.
  1,3: exists out; split; [done|]; intros id; apply Nat.ltb_ge in Hlt;
       rewrite drop_ge by done; rewrite decide_False by (by intros ?%elem_of_nil); by rewrite app_nil_r.
  apply Nat.ltb_lt in Hlt. set (n := (Nat.min _ _ - _)%nat).
  unfold mbind, M_bind. destruct (userCertificatesBatch out _ s) as [r s1] eqn:Eb.
  assert (exists m1, r = Ok m1) as [m1 ->] by (unfold userCertificatesBatch, query in Eb; injection Eb as <- _; eauto).
  assert (Hb := userCertificatesBatch_lookup _ _ _ _ _ 0 Eb). destruct Hb as [-> _].
  destruct (IH (start + certificateBatch)%nat m1) as (m & Hm & Hlook); [lia|]. exists m. split; [done|].
  intros id. rewrite Hlook. apply userCertificatesBatch_lookup with (id := id) in Eb as [_ ->].
  rewrite <- app_assoc. f_equal.
  assert (Hsplit : drop start ids = take n (drop start ids) ++ drop (start + certificateBatch) ids).
  { destruct (Nat.le_gt_cases (List.length ids) (start + certificateBatch)) as [Hge|Hgt].
    - rewrite drop_ge with (n := (start + certificateBatch)%nat) by done. rewrite app_nil_r, take_ge; [done|].
      rewrite length_drop. unfold n. lia.
    - replace n with certificateBatch by (unfold n; lia). by rewrite <- drop_drop, take_drop. }
  assert (Hdis : NoDup (take n (drop start ids) ++ drop (start + certificateBatch) ids)).
  { rewrite <- Hsplit. rewrite <- (take_drop start ids) in Hnd. by apply NoDup_app in Hnd as (_ & _ & ?). }
  apply NoDup_app in Hdis as (_ & Hdis & _).
  assert (Hin : id ∈ drop start ids <-> id ∈ take n (drop start ids) \/ id ∈ drop (start + certificateBatch) ids).
  { rewrite Hsplit at 1. apply elem_of_app. }
  destruct (decide (id ∈ take n (drop start ids))) as [H1|H1].
  - rewrite (decide_False (P := id ∈ drop _ _)) by (by apply Hdis).
    rewrite decide_True by (apply Hin; by left). by rewrite app_nil_r.
  - cbn [app]. destruct (decide (id ∈ drop (start + certificateBatch) ids)) as [H2|H2].
    + by rewrite decide_True by (apply Hin; by right).
    + rewrite decide_False; [done|]. by intros [|]%Hin.
Qed.

Lemma distinct_ids_spec userIDs : NoDup (distinct_ids userIDs) /\ forall id, id ∈ distinct_ids userIDs <-> id ∈ userIDs.
Proof.
  unfold distinct_ids.
  assert (Hgen : forall seen ids, NoDup ids -> (forall id, id ∈ ids <-> id ∈ (seen : gset Z)) ->
    let r := snd (fold_left (fun '(seen, ids) id => if bool_decide (id ∈ (seen : gset Z)) then (seen, ids) else ({[id]} ∪ seen, ids ++ [id])) userIDs (seen, ids)) in
    NoDup r /\ forall id, id ∈ r <-> id ∈ ids \/ id ∈ userIDs).
  { induction userIDs as [|x l IH]; intros seen ids Hnd Hseen; cbn [fold_left].
    - split; [done|]. intros id. rewrite elem_of_nil. naive_solver.
    - case_bool_decide as Hx.
      + destruct (IH seen ids) as [H1 H2]; [done..|]. split; [done|]. intros id. rewrite H2, elem_of_cons.
        split; [naive_solver|]. intros [?|[->|?]]; [by left|left; by apply Hseen|by right].
      + destruct (IH ({[x]} ∪ seen) (ids ++ [x])) as [H1 H2].
        * apply NoDup_app. split; [done|]. split; [|apply NoDup_singleton].
          intros y Hy ->%list_elem_of_singleton. by apply Hx, Hseen.
        * intros id. rewrite elem_of_app, list_elem_of_singleton, Hseen. set_solver.
        * split; [done|]. intros id. rewrite H2, elem_of_app, list_elem_of_singleton, elem_of_cons. naive_solver. }
  destruct (Hgen ∅ []) as [H1 H2]; [constructor|by intros id; rewrite elem_of_nil, elem_of_empty|].
  split; [done|]. intros id. rewrite H2, elem_of_nil. naive_solver.
Qed.

(** The batched read of [UserCertificates], whatever the number of accounts named and however often
    each is named: under an account's id exactly that account's certificates, nothing else. *)
Lemma UserCertificates_listing (userIDs : list Z) (s : St) :
  exists m, UserCertificates userIDs s = (Ok m, s) /\
    forall id, default [] (m !! id) = if decide (id ∈ userIDs) then certificates_of (st_db s) id else [].
Proof.
  unfold UserCertificates. destruct (distinct_ids_spec userIDs) as [Hnd Hin].
  destruct (certificate_batches_run (List.length (distinct_ids userIDs)) 0 (distinct_ids userIDs) ∅ s) as (m & Hm & Hl);
    [done|unfold certificateBatch; lia|].
  exists m. split; [done|]. intros id. rewrite Hl, drop_0, lookup_empty. cbn [default app].
  destruct (decide (id ∈ userIDs)) as [H1|H1].
  - by rewrite decide_True by (by apply Hin).
  - by rewrite decide_False by (by rewrite Hin).
Qed.

(** Three spellings the comment of [normalizeSerial] calls one serial. *)
Example serial_spellings :
  normalizeSerial "AB" = normalizeSerial "ab" /\ normalizeSerial "0ab" = "00ab" /\ normalizeSerial "0ab" <> normalizeSerial "ab".
Proof. vm_compute. by split_and!. Qed.
