(* ===== verification/AccountsOk.v ===== *)
(** * What the tables of accounts, groups and certificates keep to

    The invariant the lookups by name and number rely on: ids, names (whatever their case) and
    numbers name at most one account or group, and a certificate belongs to an account that is
    there. Every operation of the store on these tables keeps it, whatever it returns. *)

From S2P Require Import Prelude Text Names Keytab Model Secret IdRange Db Principals PrincipalFacts Directory DirectoryFacts Accounts Certs.

Create HintDb accounts discriminated.

Definition user_fold (r : UserRow) : string := ToLower (ur_name r).
Definition group_fold (r : GroupRow) : string := ToLower (gr_name r).
Definition cert_key (r : CertRow) : string * string := (ct_issuer r, ct_serial r).

Record accounts_ok (d : DB) : Prop := {
  ao_user_ids : NoDup (ur_id <$> users (dt d));
  ao_user_seq : forall r, r ∈ users (dt d) -> ur_id r <= seq_users (dt d);
  ao_user_names : NoDup (user_fold <$> users (dt d));
  ao_user_uids : NoDup (ur_uid_number <$> users (dt d));
  ao_group_ids : NoDup (gr_id <$> groups (dt d));
  ao_group_seq : forall r, r ∈ groups (dt d) -> gr_id r <= seq_groups (dt d);
  ao_group_names : NoDup (group_fold <$> groups (dt d));
  ao_group_gids : NoDup (gr_gid_number <$> groups (dt d));
  ao_cert_ids : NoDup (ct_id <$> user_certificates (zt d));
  ao_cert_keys : NoDup (cert_key <$> user_certificates (zt d));
  ao_cert_users : forall c, c ∈ user_certificates (zt d) -> exists r, r ∈ users (dt d) /\ ur_id r = ct_user_id c;
}.

(** ** Transactions that keep it *)

Definition keeps_accounts {A} (m : Tx A) : Prop :=
  forall s r s', m s = (r, s') -> accounts_ok (st_db s) -> accounts_ok (st_db s').

(** The part of the database the invariant speaks about. *)
Definition same_accounts (d d' : DB) : Prop :=
  users (dt d') = users (dt d) /\ groups (dt d') = groups (dt d) /\ seq_users (dt d') = seq_users (dt d) /\
  seq_groups (dt d') = seq_groups (dt d) /\ user_certificates (zt d') = user_certificates (zt d).

Lemma same_accounts_ok d d' : same_accounts d d' -> accounts_ok d -> accounts_ok d'.
Proof.
  intros (E1 & E2 & E3 & E4 & E5) []. split; rewrite ?E1, ?E2, ?E3, ?E4, ?E5; assumption.
Qed.

Section Combinators.
Context {A B : Type}.

Lemma kacc_bind (m : Tx A) (f : A -> Tx B) :
  keeps_accounts m -> (forall a, keeps_accounts (f a)) -> keeps_accounts (x ← m; f x).
Proof.
  intros Hm Hf s r s'. unfold mbind, M_bind. destruct (m s) as [[a|e|] s1] eqn:E.
  - intros E2 H0. eapply Hf; [exact E2|]. by eapply Hm.
  - intros [= _ <-]. by eapply Hm.
  - intros [= _ <-]. by eapply Hm.
Qed.
Lemma kacc_write (m : Tx A) : keeps_accounts m -> keeps_accounts (write m).
Proof. intros Hm s r s'. unfold write. destruct (m s) as [[a|e|] s1] eqn:E; intros [= _ <-]; [by eapply Hm|done|done]. Qed.
Lemma kacc_ret (a : A) : keeps_accounts (mret a).
Proof. by intros s r s' [= _ <-]. Qed.
Lemma kacc_lift (o : outcome StoreErr A) : keeps_accounts (lift o).
Proof. by intros s r s' [= _ <-]. Qed.
Lemma kacc_query (f : DB -> A) : keeps_accounts (query f).
Proof. by intros s r s' [= _ <-]. Qed.
Lemma kacc_query_outcome (f : DB -> outcome StoreErr A) : keeps_accounts (query_outcome f).
Proof. by intros s r s' [= _ <-]. Qed.
Lemma kacc_if (b : bool) (m n : Tx A) : keeps_accounts m -> keeps_accounts n -> keeps_accounts (if b then m else n).
Proof. by destruct b. Qed.
End Combinators.

Lemma kacc_throw_if b e : keeps_accounts (throw_if b e).
Proof. apply kacc_lift. Qed.
Lemma kacc_time_now `{Clock} : keeps_accounts time_now.
Proof. by intros s r s' [= _ <-]. Qed.
Lemma kacc_update f : (forall d, accounts_ok d -> accounts_ok (f d)) -> keeps_accounts (update f).
Proof. intros Hf s r s' [= _ <-]. cbn. apply Hf. Qed.
Lemma kacc_update_same f : (forall d, same_accounts d (f d)) -> keeps_accounts (update f).
Proof. intros Hf. apply kacc_update. intros d. by apply same_accounts_ok. Qed.
Lemma kacc_exec f : (forall d d', f d = Ok d' -> accounts_ok d -> accounts_ok d') -> keeps_accounts (exec f).
Proof. intros Hf s r s'. unfold exec. destruct (f (st_db s)) as [d| |] eqn:E; intros [= _ <-]; [by eapply Hf|done..]. Qed.
Lemma kacc_for_each {A} (f : A -> Tx unit) l : (forall x, keeps_accounts (f x)) -> keeps_accounts (for_each f l).
Proof. intros Hf. induction l as [|x l IH]; cbn [for_each]; [apply kacc_ret|]. by apply kacc_bind. Qed.

#[export] Hint Resolve kacc_bind kacc_write kacc_ret kacc_lift kacc_query kacc_query_outcome kacc_if
  kacc_throw_if kacc_time_now kacc_for_each : accounts.
#[export] Hint Extern 2 (keeps_accounts (update _)) => apply kacc_update_same; intros ?; by split_and! : accounts.
#[export] Hint Extern 2 (keeps_accounts (update_dt _)) => apply kacc_update_same; intros ?; by split_and! : accounts.
#[export] Hint Extern 2 (keeps_accounts (update_kt _)) => apply kacc_update_same; intros ?; by split_and! : accounts.

(** ** Tables with a unique column *)

Lemma NoDup_snoc_key {A K} (k : A -> K) l x :
  NoDup (k <$> l) -> (forall y, y ∈ l -> k y <> k x) -> NoDup (k <$> l ++ [x]).
Proof.
  intros Hl Hx. rewrite fmap_app. apply NoDup_app. split; [done|]. split; [|apply NoDup_singleton].
  intros z (y & -> & Hy)%list_elem_of_fmap Hz%list_elem_of_singleton. by apply (Hx y).
Qed.

(** [UPDATE ... WHERE id = ?]: the changed row has to differ from the others in the column. *)
Lemma NoDup_update_key {A K} (k : A -> K) (id : A -> Z) (f : A -> A) i l :
  NoDup (id <$> l) -> NoDup (k <$> l) ->
  (forall x y, x ∈ l -> y ∈ l -> id x = i -> id y <> i -> k y <> k (f x)) ->
  NoDup (k <$> map (fun r => if id r =? i then f r else r) l).
Proof.
  induction l as [|x l IH]; intros Hid Hk Hf; [constructor|].
  change (map ?g (x :: l)) with (g x :: map g l). rewrite fmap_cons in Hid. rewrite fmap_cons in Hk. rewrite fmap_cons.
  apply NoDup_cons in Hid as [Hx Hid], Hk as [Hkx Hk].
  apply NoDup_cons. split; [|apply IH; [done..|]; intros a b Ha Hb; apply Hf; by right].
  intros (y & Hy & Hin)%list_elem_of_fmap. apply list_elem_of_fmap in Hin as (z & -> & Hz).
  assert (Hzx : id z <> id x) by (intros E; apply Hx; rewrite <- E; apply list_elem_of_fmap; eauto).
  destruct (Z.eqb_spec (id x) i) as [E1|E1], (Z.eqb_spec (id z) i) as [E2|E2]; [congruence| | |].
  - apply (Hf x z); [left|by right|done|done|done].
  - apply (Hf z x); [by right|left|done|done|done].
  - apply Hkx. rewrite Hy. apply list_elem_of_fmap. eauto.
Qed.

Lemma update_same_key {A K} (k : A -> K) (id : A -> Z) (f : A -> A) i l :
  (forall x, k (f x) = k x) -> k <$> map (fun r => if id r =? i then f r else r) l = k <$> l.
Proof.
  intros Hf. induction l as [|x l IH]; [done|]. change (map ?g (x :: l)) with (g x :: map g l).
  rewrite !fmap_cons, IH. f_equal. by destruct (id x =? i).
Qed.

Lemma next_rowid_above t r : r ∈ t -> ct_id r < next_rowid t.
Proof.
  unfold next_rowid. induction t as [|x t IH]; [by intros ?%elem_of_nil|].
  rewrite fmap_cons. cbn [foldr]. intros [->|Hr]%elem_of_cons; [lia|]. specialize (IH Hr). lia.
Qed.

(** ** Inserts and updates of the tables *)

Lemma kacc_insert_user mk : (forall id, ur_id (mk id) = id) -> keeps_accounts (insert_user mk).
Proof.
  intros Hmk s r s'. unfold insert_user. destruct (existsb _ _) eqn:E; intros [= _ <-]; [done|].
  intros []. rewrite existsb_false in E. set (n := seq_users (dt (st_db s)) + 1) in *.
  assert (Hc : forall y, y ∈ users (dt (st_db s)) -> user_fold y <> user_fold (mk n) /\ ur_uid_number y <> ur_uid_number (mk n)).
  { intros y Hy%E. unfold user_clash, EqualFold in Hy. simp_bool. done. }
  split; cbn; try assumption.
  - apply NoDup_snoc_key; [done|]. intros y Hy. rewrite Hmk. specialize (ao_user_seq0 y Hy). unfold n. lia.
  - intros x [Hx| ->%list_elem_of_singleton]%elem_of_app; [specialize (ao_user_seq0 x Hx); lia|rewrite Hmk; unfold n; lia].
  - apply NoDup_snoc_key; [done|]. apply Hc.
  - apply NoDup_snoc_key; [done|]. apply Hc.
  - intros c Hc'. destruct (ao_cert_users0 c Hc') as (x & Hx & Ex). exists x. split; [apply elem_of_app; by left|done].
Qed.

Lemma kacc_insert_group mk : (forall id, gr_id (mk id) = id) -> keeps_accounts (insert_group mk).
Proof.
  intros Hmk s r s'. unfold insert_group. destruct (existsb _ _) eqn:E; intros [= _ <-]; [done|].
  intros []. rewrite existsb_false in E. set (n := seq_groups (dt (st_db s)) + 1) in *.
  assert (Hc : forall y, y ∈ groups (dt (st_db s)) -> group_fold y <> group_fold (mk n) /\ gr_gid_number y <> gr_gid_number (mk n)).
  { intros y Hy%E. unfold group_clash, EqualFold in Hy. simp_bool. done. }
  split; cbn; try assumption.
  - apply NoDup_snoc_key; [done|]. intros y Hy. rewrite Hmk. specialize (ao_group_seq0 y Hy). unfold n. lia.
  - intros x [Hx| ->%list_elem_of_singleton]%elem_of_app; [specialize (ao_group_seq0 x Hx); lia|rewrite Hmk; unfold n; lia].
  - apply NoDup_snoc_key; [done|]. apply Hc.
  - apply NoDup_snoc_key; [done|]. apply Hc.
Qed.

Lemma kacc_update_user u now : keeps_accounts (exec (update_user_row u now)).
Proof.
  apply kacc_exec. intros d d'. unfold update_user_row. destruct (existsb _ _) eqn:E; [done|]. intros [= <-] [].
  rewrite existsb_false in E.
  set (f := fun r => user_row u (ur_id r) (ur_created_at r) now).
  change (fun r : UserRow => if ur_id r =? u_ID u then user_row u (ur_id r) (ur_created_at r) now else r)
    with (fun r => if ur_id r =? u_ID u then f r else r).
  assert (Hc : forall x y, x ∈ users (dt d) -> y ∈ users (dt d) -> ur_id x = u_ID u -> ur_id y <> u_ID u ->
    user_fold y <> user_fold (f x) /\ ur_uid_number y <> ur_uid_number (f x)).
  { intros x y _ Hy%E _ Hne. apply andb_false_iff in Hy as [Hy|Hy]; [simp_bool; done|].
    unfold user_clash, EqualFold in Hy. simp_bool. done. }
  split; cbn; try assumption.
  - rewrite update_same_key; done.
  - intros x (y & -> & Hy)%list_elem_of_fmap. specialize (ao_user_seq0 y Hy). by case_match.
  - apply NoDup_update_key; [done..|]. intros. by apply Hc.
  - apply NoDup_update_key; [done..|]. intros. by apply Hc.
  - intros c Hc'. destruct (ao_cert_users0 c Hc') as (x & Hx & Ex).
    exists (if ur_id x =? u_ID u then f x else x). split; [apply list_elem_of_fmap; eauto|by case_match].
Qed.

Lemma kacc_update_group g now : keeps_accounts (exec (update_group_row g now)).
Proof.
  apply kacc_exec. intros d d'. unfold update_group_row. destruct (existsb _ _) eqn:E; [done|]. intros [= <-] [].
  rewrite existsb_false in E.
  set (f := fun r => mkGroupRow (gr_id r) (g_Name g) (g_GIDNumber g) (g_Description g) (gr_created_at r) now).
  change (fun r : GroupRow => if gr_id r =? g_ID g
      then mkGroupRow (gr_id r) (g_Name g) (g_GIDNumber g) (g_Description g) (gr_created_at r) now else r)
    with (fun r => if gr_id r =? g_ID g then f r else r).
  assert (Hc : forall x y, x ∈ groups (dt d) -> y ∈ groups (dt d) -> gr_id x = g_ID g -> gr_id y <> g_ID g ->
    group_fold y <> group_fold (f x) /\ gr_gid_number y <> gr_gid_number (f x)).
  { intros x y _ Hy%E _ Hne. apply andb_false_iff in Hy as [Hy|Hy]; [simp_bool; done|].
    unfold group_clash, EqualFold in Hy. simp_bool. done. }
  split; cbn; try assumption.
  - rewrite update_same_key; done.
  - intros x (y & -> & Hy)%list_elem_of_fmap. specialize (ao_group_seq0 y Hy). by case_match.
  - apply NoDup_update_key; [done..|]. intros. by apply Hc.
  - apply NoDup_update_key; [done..|]. intros. by apply Hc.
Qed.

Lemma kacc_rename uid name now : keeps_accounts (exec (rename_principals uid name now)).
Proof.
  apply kacc_exec. intros d d'. unfold rename_principals. case_match; [|done]. intros [= <-].
  by apply same_accounts_ok.
Qed.

Lemma kacc_delete_user uid : keeps_accounts (update (delete_user_row uid)).
Proof.
  apply kacc_update. intros d []. split; cbn; try (apply NoDup_map_filter); try assumption.
  - intros r [_ Hr]%list_elem_of_filter. auto.
  - intros c [Hne Hc]%list_elem_of_filter. destruct (ao_cert_users0 c Hc) as (r & Hr & E). exists r.
    split; [apply list_elem_of_filter; split; [congruence|done]|done].
Qed.

Lemma kacc_delete_group gid :
  keeps_accounts (update_dt (fun t => set_includes (filter (fun p => fst p <> gid)) (set_groups (filter (fun r => gr_id r <> gid)) t))).
Proof.
  apply kacc_update. intros d []. split; cbn; try (apply NoDup_map_filter); try assumption.
  intros r [_ Hr]%list_elem_of_filter. auto.
Qed.

Lemma kacc_set_digest uid hash now : keeps_accounts (set_digest uid hash now).
Proof.
  apply kacc_update. intros d []. split; cbn; try assumption.
  1,3,4: by rewrite update_same_key.
  - intros x (y & -> & Hy)%list_elem_of_fmap. specialize (ao_user_seq0 y Hy). by case_match.
  - intros c Hc. destruct (ao_cert_users0 c Hc) as (x & Hx & Ex).
    exists (if ur_id x =? uid then digest_row hash now x else x). split; [apply list_elem_of_fmap; eauto|by case_match].
Qed.

Lemma kacc_insert_rid rid kind owner now : keeps_accounts (insert_rid rid kind owner now).
Proof. intros s r s'. unfold insert_rid. case_match; intros [= _ <-]; [done|]. by apply same_accounts_ok. Qed.

Lemma kacc_range : keeps_accounts ((fun s => (Ok (st_idRange s), s)) : Tx IDRange).
Proof. by intros s r s' [= _ <-]. Qed.

#[export] Hint Resolve kacc_insert_user kacc_insert_group kacc_update_user kacc_update_group kacc_rename
  kacc_delete_user kacc_delete_group kacc_set_digest kacc_insert_rid kacc_range : accounts.

Lemma kacc_allocate `{Clock} kind owner posix : keeps_accounts (allocateRID kind owner posix).
Proof.
  unfold allocateRID. apply kacc_bind; [apply kacc_range|]. intros range. case_match; [apply kacc_ret|].
  destruct (rids range posix). auto 10 with accounts.
Qed.
Lemma kacc_release kind owner : keeps_accounts (releaseRID kind owner).
Proof. unfold releaseRID. auto with accounts. Qed.
Lemma kacc_children u : keeps_accounts (writeUserChildren u).
Proof. unfold writeUserChildren, replaceAttrs, deleteAttrs, replaceCapabilities. auto 20 with accounts. Qed.
#[export] Hint Resolve kacc_allocate kacc_release kacc_children : accounts.

(** ** The operations *)

Section AccountSteps.
Context `{Ck : Clock, Rn : Rand, Ae : AEAD, Bc : Bcrypt, El : EncTypeLib}.

Lemma kacc_draw : keeps_accounts draw.
Proof. by intros s r s' [= _ <-]. Qed.
#[local] Hint Resolve kacc_draw : accounts.

Lemma kacc_insert_key pid kvno now i k : keeps_accounts (insert_key pid kvno now i k).
Proof.
  unfold insert_key. apply kacc_bind; [apply kacc_draw|]. intros n. apply kacc_exec. intros d d'. case_match; [done|].
  intros [= <-]. by apply same_accounts_ok.
Qed.
#[local] Hint Resolve kacc_insert_key : accounts.
Lemma kacc_insert_keys pid kvno now keys i : keeps_accounts (insert_keys pid kvno now i keys).
Proof. revert i. induction keys as [|k keys IH]; intros i; cbn [insert_keys]; auto with accounts. Qed.
#[local] Hint Resolve kacc_insert_keys : accounts.
Lemma kacc_rekey password etypes expires now p : keeps_accounts (rekey password etypes expires now p).
Proof. unfold rekey, rollKeys, writeKeys. auto 20 with accounts. Qed.
#[local] Hint Resolve kacc_rekey : accounts.

Lemma kacc_insert_certificate mk uid : (forall id, ct_id (mk id) = id /\ ct_user_id (mk id) = uid) ->
  forall s r s', insert_certificate mk s = (r, s') -> (exists u, u ∈ users (dt (st_db s)) /\ ur_id u = uid) ->
  accounts_ok (st_db s) -> accounts_ok (st_db s').
Proof.
  intros Hmk s r s'. unfold insert_certificate. destruct (existsb _ _) eqn:E; intros [= _ <-] Hu; [done|].
  intros []. rewrite existsb_false in E. set (n := next_rowid _) in *. destruct (Hmk n) as [Hid Huid].
  split; cbn; try assumption.
  - apply NoDup_snoc_key; [done|]. intros y Hy%next_rowid_above. rewrite Hid. unfold n. lia.
  - apply NoDup_snoc_key; [done|]. intros y Hy%E [= E1 E2]. rewrite E1, E2, !String.eqb_refl in Hy. done.
  - intros c [Hc| ->%list_elem_of_singleton]%elem_of_app; [auto|]. by rewrite Huid.
Qed.

Lemma kacc_AddCertificate userName c : keeps_accounts (AddCertificate userName c).
Proof.
  unfold AddCertificate. apply kacc_write. intros s r s'. unfold mbind at 1, M_bind at 1.
  destruct (query_outcome _ s) as [[u|e|] s1] eqn:E; unfold query_outcome in E; injection E as Eu <-;
    [|by intros [= _ <-]..].
  apply getUser_row in Eu as (x & Hx & _ & ->). cbn [u_ID decorateUser scanUser].
  unfold mbind at 1, M_bind at 1, time_now. cbv beta iota. unfold mbind, M_bind.
  destruct (insert_certificate _ _) as [res s2] eqn:Ei. intros Hrun Hok.
  assert (H2 : accounts_ok (st_db s2)) by (eapply (kacc_insert_certificate _ (ur_id x)); [|exact Ei| |]; [done|eauto|done]).
  destruct res; by injection Hrun as <- <-.
Qed.

Lemma kacc_DeleteCertificate userName issuer serial : keeps_accounts (DeleteCertificate userName issuer serial).
Proof.
  unfold DeleteCertificate. apply kacc_write, kacc_bind; [apply kacc_query_outcome|]. intros u.
  apply kacc_bind; [apply kacc_query|]. intros n. apply kacc_bind; [|intros _; apply kacc_throw_if].
  apply kacc_update. intros d []. split; cbn; try (apply NoDup_map_filter); try assumption.
  intros c [_ Hc]%list_elem_of_filter. auto.
Qed.

(** One call of an operation on accounts, groups, passwords or certificates, with whatever result. *)
Inductive astep (s s' : St) : Prop :=
| astep_directory : dstep s s' -> astep s s'
| astep_password cost u pw etypes expires r : SetUserPassword cost u pw etypes expires s = (r, s') -> astep s s'
| astep_clear u r : ClearUserPassword u s = (r, s') -> astep s s'
| astep_add_certificate u c r : AddCertificate u c s = (r, s') -> astep s s'
| astep_delete_certificate u i n r : DeleteCertificate u i n s = (r, s') -> astep s s'.

Lemma keeps_accounts_run {A} (m : Tx A) s r s' :
  keeps_accounts m -> m s = (r, s') -> accounts_ok (st_db s) -> accounts_ok (st_db s').
Proof. intros Hm. apply Hm. Qed.

Lemma dstep_accounts s s' : dstep s s' -> accounts_ok (st_db s) -> accounts_ok (st_db s').
Proof.
  destruct 1 as [u r Hrun|name f r Hrun|name r Hrun|g r Hrun|name f r Hrun|name r Hrun|u n h r Hrun|u i r Hrun];
    (eapply keeps_accounts_run; [|exact Hrun]);
    unfold CreateUser, UpdateUser, DeleteUser, CreateGroup, UpdateGroup, DeleteGroup, AddAppPassword,
      DeleteAppPassword, reallocateRID, replaceIncludes, replaceAttrs, deleteAttrs, replaceCapabilities;
    auto 40 with accounts.
Qed.

Lemma astep_accounts s s' : astep s s' -> accounts_ok (st_db s) -> accounts_ok (st_db s').
Proof.
  destruct 1 as [Hd|cost u pw etypes expires r Hrun|u r Hrun|u c r Hrun|u i n r Hrun].
  - by apply dstep_accounts.
  - eapply keeps_accounts_run; [|exact Hrun]. unfold SetUserPassword, hashPassword, principalsForUserTx. auto 20 with accounts.
  - eapply keeps_accounts_run; [|exact Hrun]. unfold ClearUserPassword. auto with accounts.
  - eapply keeps_accounts_run; [|exact Hrun]. apply kacc_AddCertificate.
  - eapply keeps_accounts_run; [|exact Hrun]. apply kacc_DeleteCertificate.
Qed.

Lemma asteps_accounts s s' : rtc astep s s' -> accounts_ok (st_db s) -> accounts_ok (st_db s').
Proof. induction 1; eauto using astep_accounts. Qed.
End AccountSteps.

(** ** What lookups return *)

Lemma find_unique {A} (f : A -> bool) l x :
  x ∈ l -> f x = true -> (forall y, y ∈ l -> f y = true -> y = x) -> List.find f l = Some x.
Proof.
  intros Hx Hf Hu. destruct (List.find f l) as [y|] eqn:E.
  - apply find_Some_elem in E as [Hy Hfy]. f_equal. by apply Hu.
  - by rewrite (find_None_elem _ _ E x Hx) in Hf.
Qed.

Section Lookups.
Context (d : DB) (Hok : accounts_ok d).

Lemma user_by_name r name : r ∈ users (dt d) -> EqualFold (ur_name r) name = true ->
  List.find (user_named name) (users (dt d)) = Some r.
Proof using Hok.
  intros Hr Hn. apply find_unique; [done..|]. intros y Hy Hfy.
  apply (NoDup_key_inj user_fold (users (dt d))); [apply Hok|done|done|].
  unfold user_fold, user_named, EqualFold in *. simp_bool. congruence.
Qed.

Lemma user_by_id r id : r ∈ users (dt d) -> ur_id r = id ->
  List.find (fun u => ur_id u =? id) (users (dt d)) = Some r.
Proof using Hok.
  intros Hr <-. apply find_unique; [done|apply Z.eqb_refl|]. intros y Hy Hfy. simp_bool.
  by apply (NoDup_key_inj ur_id (users (dt d))); [apply Hok| | |].
Qed.

Lemma group_by_name r name : r ∈ groups (dt d) -> EqualFold (gr_name r) name = true ->
  List.find (group_named name) (groups (dt d)) = Some r.
Proof using Hok.
  intros Hr Hn. apply find_unique; [done..|]. intros y Hy Hfy.
  apply (NoDup_key_inj group_fold (groups (dt d))); [apply Hok|done|done|].
  unfold group_fold, group_named, EqualFold in *. simp_bool. congruence.
Qed.

Lemma group_by_gid r gid : r ∈ groups (dt d) -> gr_gid_number r = gid ->
  List.find (fun g => gr_gid_number g =? gid) (groups (dt d)) = Some r.
Proof using Hok.
  intros Hr <-. apply find_unique; [done|apply Z.eqb_refl|]. intros y Hy Hfy. simp_bool.
  by apply (NoDup_key_inj gr_gid_number (groups (dt d))); [apply Hok| | |].
Qed.

Lemma getUser_by_name r name : r ∈ users (dt d) -> EqualFold (ur_name r) name = true ->
  getUser d (user_named name) = Ok (decorateUser d (scanUser r)).
Proof using Hok. intros Hr Hn. unfold getUser. by rewrite (user_by_name r). Qed.

Lemma GroupNames_lookup r : r ∈ groups (dt d) ->
  (list_to_map ((fun r => (gr_gid_number r, gr_name r)) <$> groups (dt d)) : gmap Z string) !! gr_gid_number r = Some (gr_name r).
Proof using Hok.
  intros Hr. apply elem_of_list_to_map.
  - rewrite <- list_fmap_compose. apply Hok.
  - apply list_elem_of_fmap. by exists r.
Qed.

(** The certificates [u.name = ?] selects are those of the one account of that name. *)
Lemma listCertificates_user r name : r ∈ users (dt d) -> EqualFold (ur_name r) name = true ->
  listCertificates d (cert_of_user d name) = certificates_of d (ur_id r).
Proof using Hok.
  intros Hr Hn. unfold certificates_of, listCertificates. do 2 f_equal. apply filter_ext_elem. intros c Hc.
  unfold cert_of_user. rewrite Z.eqb_eq, existsb_exists. split.
  - intros (u & Hu%list_elem_of_In & Hb). simp_bool.
    assert (user_named name u = true) by done. assert (u = r) as ->; [|done].
    apply (NoDup_key_inj user_fold (users (dt d))); [apply Hok|done|done|].
    unfold user_fold, user_named, EqualFold in *. simp_bool. congruence.
  - intros Hid. exists r. split; [by apply list_elem_of_In|]. apply andb_true_iff.
    split; [by apply Z.eqb_eq|done].
Qed.
End Lookups.

Lemma filter_unique {A K} (k : A -> K) (P : A -> Prop) `{!forall x, Decision (P x)} l x :
  NoDup (k <$> l) -> x ∈ l -> P x -> (forall y, y ∈ l -> P y -> k y = k x) -> filter P l = [x].
Proof.
  induction l as [|z l IH]; intros Hnd Hx HP Hu; [by apply elem_of_nil in Hx|].
  rewrite fmap_cons in Hnd. apply NoDup_cons in Hnd as [Hz Hnd]. apply elem_of_cons in Hx as [<-|Hx].
  - rewrite filter_cons_True by done. f_equal. apply filter_none. intros y Hy HPy. apply Hz.
    rewrite <- (Hu y); [|by right|done]. apply list_elem_of_fmap. eauto.
  - rewrite filter_cons_False.
    + apply IH; [done..|]. intros y Hy. apply Hu. by right.
    + intros HPz. apply Hz. rewrite (Hu z); [|left|done]. apply list_elem_of_fmap. eauto.
Qed.

Section AccountTheorems.
Context `{Ck : Clock, Rn : Rand, Ae : AEAD, Bc : Bcrypt, El : EncTypeLib}.

(** C12: from a store in order, and however accounts, groups, passwords and certificates were changed
    since and with whatever result, a name in any case names one account and one group, a number
    names one, and looking any of them up returns that one. *)
Theorem accounts_invariant (s0 s : St) (r : UserRow) (g : GroupRow) (name gname : string) :
  accounts_ok (st_db s0) -> rtc astep s0 s ->
  r ∈ users (dt (st_db s)) -> EqualFold (ur_name r) name = true ->
  g ∈ groups (dt (st_db s)) -> EqualFold (gr_name g) gname = true ->
  GetUser name s = (Ok (decorateUser (st_db s) (scanUser r)), s) /\
  GetUserByID (ur_id r) s = GetUser name s /\ GetUserByUID (ur_uid_number r) s = GetUser name s /\
  GetGroup gname s = (Ok (scanGroup (st_db s) g), s) /\ GetGroupByGID (gr_gid_number g) s = GetGroup gname s.
Proof.
  intros H0 Hr Hu Hn Hg Hgn. assert (Hok := asteps_accounts _ _ Hr H0).
  unfold GetUser, GetUserByID, GetUserByUID, GetGroup, GetGroupByGID, query_outcome, getUser, getGroup.
  rewrite (user_by_name _ Hok r), (user_by_id _ Hok r), (group_by_name _ Hok g), (group_by_gid _ Hok g) by done.
  rewrite (find_unique (fun x => ur_uid_number x =? ur_uid_number r) _ r); [done|done|apply Z.eqb_refl|].
  intros y Hy Hfy. simp_bool. by apply (NoDup_key_inj ur_uid_number (users (dt (st_db s)))); [apply Hok| | |].
Qed.

(** The one batched read a directory search makes returns, for every account it names and for no
    other, exactly what listing the certificates of that account alone returns. *)
Lemma UserCertificates_batched (userIDs : list Z) (s : St) :
  accounts_ok (st_db s) ->
  exists m, UserCertificates userIDs s = (Ok m, s) /\
    (forall id, id ∉ userIDs -> default [] (m !! id) = []) /\
    forall r name, r ∈ users (dt (st_db s)) -> ur_id r ∈ userIDs -> EqualFold (ur_name r) name = true ->
      ListUserCertificates name s = (Ok (default [] (m !! ur_id r)), s).
Proof.
  intros Hok. destruct (UserCertificates_listing userIDs s) as (m & Hm & Hl). exists m. split; [done|]. split.
  - intros id Hid. by rewrite Hl, decide_False.
  - intros r name Hr Hid Hn. rewrite Hl, decide_True by done.
    unfold ListUserCertificates, readUser, query_outcome, query, mbind, M_bind.
    rewrite (getUser_by_name _ Hok r) by done. by rewrite (listCertificates_user _ Hok r).
Qed.

(** What [AddCertificate] stored. *)
Lemma AddCertificate_run userName c s s' c' :
  AddCertificate userName c s = (Ok c', s') ->
  exists u now, u ∈ users (dt (st_db s)) /\ user_named userName u = true /\ dt (st_db s') = dt (st_db s) /\
    ce_CreatedAt c' = now /\ ce_Issuer c' = ToLower (ce_Issuer c) /\ ce_Serial c' = normalizeSerial (ce_Serial c) /\
    user_certificates (zt (st_db s')) = user_certificates (zt (st_db s)) ++
      [mkCertRow (ce_ID c') (ur_id u) (ce_Issuer c') (ce_Serial c') (ce_Subject c) (ce_DER c)
         (Unix (ce_NotBefore c)) (Unix (ce_NotAfter c)) (Unix now)].
Proof.
  unfold AddCertificate. intros Hrun%write_Ok. unfold query_outcome, time_now in Hrun. run_inv.
  match goal with H : (getUser _ _, _) = _ |- _ => injection H as H <-; apply getUser_row in H as (u & Hu & Hn & ->) end.
  match goal with H : insert_certificate _ _ = _ |- _ => unfold insert_certificate in H; case_if; [done|]; injection H as <- <- end.
  subst. by exists u, (clock (st_tick s)).
Qed.

(** A certificate that was imported is found again by its issuer and serial however they are
    spelled, and it is the one that was imported; a second import under any spelling is a conflict
    that changes nothing. *)
Lemma certificate_roundtrip (userName issuer serial : string) (c c' : Certificate) (s s' : St) :
  accounts_ok (st_db s) -> AddCertificate userName c s = (Ok c', s') ->
  ToLower issuer = ToLower (ce_Issuer c) -> normalizeSerial serial = normalizeSerial (ce_Serial c) ->
  (exists got, GetCertificate userName issuer serial s' = (Ok got, s') /\
     ce_ID got = ce_ID c' /\ ce_DER got = ce_DER c /\ ce_Subject got = ce_Subject c /\
     EqualFold (ce_UserName got) userName = true /\ ce_NotBefore got = UnixTime (Unix (ce_NotBefore c)) /\
     ce_NotAfter got = UnixTime (Unix (ce_NotAfter c))) /\
  forall c2 r s2, ToLower (ce_Issuer c2) = ToLower issuer -> normalizeSerial (ce_Serial c2) = normalizeSerial serial ->
    AddCertificate userName c2 s' = (r, s2) -> r = Err ErrConflict /\ st_db s2 = st_db s'.
Proof.
  intros Hok Hrun Hi Hs. assert (Hok' := kacc_AddCertificate _ _ _ _ _ Hrun Hok).
  apply AddCertificate_run in Hrun as (u & now & Hu & Hn & Hdt & _ & E1 & E2 & Hcerts).
  rewrite <- Hdt in Hu. set (row := mkCertRow _ _ _ _ _ _ _ _ _) in Hcerts.
  assert (Hrow : row ∈ user_certificates (zt (st_db s'))) by (rewrite Hcerts; apply elem_of_app; right; left).
  split.
  - eexists. split.
    + unfold GetCertificate, readUser, query_outcome, query, mbind, M_bind, lift.
      rewrite (getUser_by_name _ Hok' u) by done. unfold listCertificates.
      rewrite (filter_unique cert_key _ _ row); [|apply Hok'|done| |].
      * cbn [sort_by foldr insert_by omap list_omap]. unfold scanCertificate.
        rewrite (user_by_id _ Hok' u) by done. reflexivity.
      * unfold cert_of_user, row. cbn. rewrite E1, E2, <- Hi, <- Hs, !String.eqb_refl, !andb_true_r.
        apply existsb_exists. exists u. split; [by apply list_elem_of_In|]. by rewrite Z.eqb_refl.
      * intros y Hy HP. simp_bool. unfold cert_key, row. cbn. congruence.
    + done.
  - intros c2 r s2 Hi2 Hs2. unfold AddCertificate, write. unfold mbind at 1, M_bind at 1, query_outcome.
    rewrite (getUser_by_name _ Hok' u) by done. unfold mbind, M_bind, time_now, insert_certificate.
    cbn [st_db]. set (b := existsb _ _).
    assert (b = true) as ->.
    { apply existsb_exists. exists row. split; [by apply list_elem_of_In|]. unfold row. cbn.
      by rewrite E1, E2, Hi2, Hs2, Hi, Hs, !String.eqb_refl. }
    intros [= <- <-]. done.
Qed.
End AccountTheorems.

(** ** A sample *)

Section CertSample.
#[local] Existing Instance sample_clock.
#[local] Existing Instance toy_rand.
#[local] Existing Instance toy_aead.
#[local] Existing Instance toy_bcrypt.
#[local] Existing Instance toy_enctypes.

Lemma empty_accounts_ok : accounts_ok (st_db empty_state).
Proof. split; cbn; try constructor; intros x Hx; by apply elem_of_nil in Hx. Qed.

Lemma rtc_dstep_astep s s' : rtc dstep s s' -> rtc astep s s'.
Proof. apply rtc_subrel. intros x y. apply astep_directory. Qed.

Lemma dir2_accounts_ok : accounts_ok (st_db dir2).
Proof. apply (asteps_accounts empty_state); [apply rtc_dstep_astep, dir2_reached|apply empty_accounts_ok]. Qed.

Definition sample_cert : Certificate :=
  mkCertificate 0 "" "AB12" "a1B" "CN=bob" [Byte.x30; Byte.x82] (UnixTime 1000) (UnixTime 2000) zeroTime.
Definition certified : St := snd (AddCertificate "Bob" sample_cert dir2).

Lemma certified_run : exists c', AddCertificate "Bob" sample_cert dir2 = (Ok c', certified).
Proof.
  unfold certified. destruct (AddCertificate "Bob" sample_cert dir2) as [r s'] eqn:E.
  assert (Hr : match r with Ok _ => true | _ => false end = true) by (apply (f_equal fst) in E; cbn [fst] in E; subst r; vm_compute; reflexivity).
  destruct r as [c'|e|]; [by exists c'|discriminate..].
Qed.

Lemma certified_accounts_ok : accounts_ok (st_db certified).
Proof. destruct certified_run as [c' Hrun]. exact (kacc_AddCertificate _ _ _ _ _ Hrun dir2_accounts_ok). Qed.

Lemma certified_bob : exists r, r ∈ users (dt (st_db certified)) /\ ur_name r = "bob" /\ ur_id r = 1.
Proof.
  destruct (users (dt (st_db certified))) as [|r l] eqn:E; [vm_compute in E; discriminate|]. exists r.
  split; [left|]. apply (f_equal (fmap (fun x => (ur_name x, ur_id x)))) in E. rewrite fmap_cons in E. vm_compute in E.
  by injection E.
Qed.

Lemma accounts_invariant_witness :
  exists r g, r ∈ users (dt (st_db certified)) /\ g ∈ groups (dt (st_db certified)) /\
    GetUser "BOB" certified = (Ok (decorateUser (st_db certified) (scanUser r)), certified) /\
    GetGroup "Staff" certified = (Ok (scanGroup (st_db certified) g), certified).
Proof.
  destruct certified_bob as (r & Hr & Hn & _).
  destruct (List.find (group_named "Staff") (groups (dt (st_db certified)))) as [g|] eqn:Eg; [|vm_compute in Eg; discriminate].
  apply find_Some_elem in Eg as [Hg Hgn].
  destruct (accounts_invariant empty_state certified r g "BOB" "Staff") as (H1 & _ & _ & H2 & _).
  - exact empty_accounts_ok.
  - destruct certified_run as [c' Hrun]. eapply rtc_r; [apply rtc_dstep_astep, dir2_reached|].
    eapply astep_add_certificate. exact Hrun.
  - exact Hr.
  - rewrite Hn. reflexivity.
  - exact Hg.
  - exact Hgn.
  - exists r, g. split; [exact Hr|]. split; [exact Hg|]. split; [exact H1|exact H2].
Defined.

Lemma UserCertificates_batched_witness :
  exists m, UserCertificates [1; 7; 1] certified = (Ok m, certified) /\
    ListUserCertificates "bob" certified = (Ok (default [] (m !! 1)), certified).
Proof.
  destruct (UserCertificates_batched [1; 7; 1] certified certified_accounts_ok) as (m & Hm & _ & Hl).
  exists m. split; [exact Hm|]. destruct certified_bob as (r & Hr & Hn & Hid).
  specialize (Hl r "bob" Hr). rewrite Hid, Hn in Hl. apply Hl; [left|reflexivity].
Defined.

Lemma certificate_roundtrip_witness :
  exists got, GetCertificate "Bob" "aB12" "0A1b" certified = (Ok got, certified) /\ ce_DER got = [Byte.x30; Byte.x82].
Proof.
  destruct certified_run as [c' Hrun].
  destruct (certificate_roundtrip "Bob" "aB12" "0A1b" sample_cert c' dir2 certified dir2_accounts_ok Hrun) as [(got & Hg & _ & Hd & _) _].
  - reflexivity.
  - reflexivity.
  - exists got. split; [exact Hg|exact Hd].
Defined.
End CertSample.
