(* ===== verification/LdapEntries.v ===== *)
(** * Directory entries: package [ldapsrv], directory.go

    How accounts and groups are published: the layout of distinguished names, the account entry with
    its POSIX, Kerberos, Windows and custom attributes, the group entries under both hierarchies, and
    the fixed nodes of the tree. *)

From S2P Require Import Prelude Text Names Keytab Failban Model Secret IdRange Db Principals Directory Accounts Certs.

(** [Config] of the front end, the base DN lowered as [NewHandler] does. *)
Record LdapConfig : Type := mkLdapConfig {
  lc_BaseDN : string;
  lc_NameFormat : string;
  lc_GroupFormat : string;
  lc_SSHKeyAttrs : list string;
  lc_Realm : string;
  lc_DomainSID : string;
  lc_AnonymousDSE : bool;
  lc_IgnoreCapabilities : bool;
  lc_EncTypes : list Z;
  lc_SPN : string;
  lc_Limits : Failban.Config;
  lc_HashCost : Z;
}.

Definition NewHandler (cfg : LdapConfig) : LdapConfig :=
  mkLdapConfig (ToLower (lc_BaseDN cfg)) (lc_NameFormat cfg) (lc_GroupFormat cfg) (lc_SSHKeyAttrs cfg)
    (lc_Realm cfg) (lc_DomainSID cfg) (lc_AnonymousDSE cfg) (lc_IgnoreCapabilities cfg) (lc_EncTypes cfg)
    (lc_SPN cfg) (lc_Limits cfg) (lc_HashCost cfg).

(** [ldap.Entry]: a name and its attributes in order. *)
Abbreviation EntryAttribute := (string * list string)%type.
Record Entry : Type := mkEntry { en_DN : string; en_Attributes : list EntryAttribute }.

Definition saslMechanism : string := "GSSAPI".

(** ** [time.Time.Format] *)

(** The civil date of a day, counted from 1970-01-01, in the proleptic Gregorian calendar. *)
Definition civil (days : Z) : Z * Z * Z :=
  let z := days + 719468 in
  let era := z / 146097 in
  let doe := z mod 146097 in
  let yoe := (doe - doe / 1460 + doe / 36524 - doe / 146096) / 365 in
  let doy := doe - (365 * yoe + yoe / 4 - yoe / 100) in
  let mp := (5 * doy + 2) / 153 in
  let d := doy - (153 * mp + 2) / 5 + 1 in
  let m := if mp <? 10 then mp + 3 else mp - 9 in
  let y := yoe + era * 400 in
  (if m <=? 2 then y + 1 else y, m, d).

(** A number in decimal, with zeros in front up to a width; the sign comes first. *)
Definition padded (width : nat) (z : Z) : string :=
  let s : string := pretty (Z.abs z) in
  (if z <? 0 then "-" else "") +:+ String.concat "" (replicate (width - String.length s) "0") +:+ s.

(** [t.UTC().Format("20060102150405Z")]. *)
Definition generalizedTime (t : Time) : string :=
  let secs := Unix t in
  let '(y, m, d) := civil (secs / 86400) in
  let sod := secs mod 86400 in
  padded 4 y +:+ padded 2 m +:+ padded 2 d +:+ padded 2 (sod / 3600) +:+ padded 2 (sod mod 3600 / 60) +:+
  padded 2 (sod mod 60) +:+ "Z".

Example generalizedTime_sample :
  generalizedTime (UnixTime 1700000000) = "20231114221320Z" /\ generalizedTime (UnixTime 951782400) = "20000229000000Z" /\
  generalizedTime (UnixTime (-1)) = "19691231235959Z" /\ generalizedTime zeroTime = "00010101000000Z".
Proof. vm_compute. by split_and!. Qed.

(** ** Names *)

Definition UserDN (baseDN nameFormat groupFormat name primaryGroup : string) : string :=
  nameFormat +:+ "=" +:+ name +:+ "," +:+ groupFormat +:+ "=" +:+ primaryGroup +:+ ",ou=users," +:+ baseDN.

Definition attr1 (name value : string) : EntryAttribute := (name, [value]).

(** An attribute that is published when its value is not empty. *)
Definition when_set (name value : string) : list EntryAttribute :=
  if non_empty value then [attr1 name value] else [].

Definition customAttributes (attrs : gmap string (list string)) : list EntryAttribute :=
  (fun k => (k, default [] (attrs !! k))) <$> sort_by string_le (map_to_list attrs).*1.

Definition certificateValues (certificates : list Certificate) (now : Time) : list string :=
  (fun c => string_of_bytes (ce_DER c)) <$>
    filter (fun c => (After now (ce_NotAfter c) || Before now (ce_NotBefore c)) = false) certificates.

Section Entries.
Context `{Ck : Clock, Rn : Rand, Ae : AEAD} (cfg : LdapConfig).

Definition entry_UserDN (u : User) (primaryGroup : string) : string :=
  UserDN (lc_BaseDN cfg) (lc_NameFormat cfg) (lc_GroupFormat cfg) (u_Name u) primaryGroup.

Definition GroupDN (name : string) : string :=
  lc_GroupFormat cfg +:+ "=" +:+ name +:+ ",ou=groups," +:+ lc_BaseDN cfg.

Definition securityIdentifier (rid : Z) : string :=
  if (rid <=? 0) || is_empty (lc_DomainSID cfg) then EmptyString
  else lc_DomainSID cfg +:+ "-" +:+ pretty rid.

(** The lifetimes and the times of a principal that are published when they are set. *)
Definition life_attr (name : string) (value : Duration) : list EntryAttribute :=
  if 0 <? value then [attr1 name (pretty (Z.quot value second))] else [].
Definition time_attr (name : string) (value : option Time) : list EntryAttribute :=
  match value with Some t => [attr1 name (generalizedTime t)] | None => [] end.

Definition kerberosAttributes (p : option Principal) : outcome StoreErr (list EntryAttribute) :=
  match p with
  | None => mret []
  | Some p =>
      flags ← TicketFlags p;
      mret ([attr1 "krbTicketFlags" (pretty flags); attr1 "krbLoginFailedCount" (pretty (p_FailCount p))] ++
        life_attr "krbMaxTicketLife" (p_MaxTicketLife p) ++ life_attr "krbMaxRenewableAge" (p_MaxRenewableLife p) ++
        time_attr "krbLastPwdChange" (p_PasswordLastSet p) ++
        time_attr "krbPasswordExpiration" (p_PasswordExpiresAt p) ++
        time_attr "krbPrincipalExpiration" (p_ExpiresAt p) ++
        time_attr "krbLastSuccessfulAuth" (p_LastSuccess p) ++
        time_attr "krbLastFailedAuth" (p_LastFailure p))
  end.

Definition groupDNs (names : gmap Z string) (gids : list Z) : list string :=
  sort_by string_le (omap (fun gid => GroupDN <$> names !! gid) gids).

Definition account_classes (principal : option Principal) (rid : Z) : list string :=
  ["posixAccount"; "shadowAccount"; "inetOrgPerson"; "top"] ++
  (match principal with Some _ => ["krbPrincipalAux"; "krbTicketPolicyAux"] | None => [] end) ++
  (if 0 <? rid then ["ipaNTUserAttrs"] else []).

Definition principal_names (u : User) (principal : option Principal) : list EntryAttribute :=
  if is_empty (lc_Realm cfg) then []
  else
    let name := u_Name u +:+ "@" +:+ lc_Realm cfg in
    let aliases := match principal with
                   | Some p => (fun a => a +:+ "@" +:+ p_Realm p) <$> p_Aliases p
                   | None => []
                   end in
    [("krbPrincipalName", name :: aliases); attr1 "krbCanonicalName" name; attr1 "userPrincipalName" name].

(** The account entry; [now] is the clock where the certificates are picked, [names] the group names
    read for [memberOf]. *)
Definition accountEntry (u : User) (groupNames : gmap Z string) (gids : list Z) (principal : option Principal)
    (rid : Z) (certificates : list Certificate) (names : gmap Z string) (now : Time) : outcome StoreErr Entry :=
  let primary := default EmptyString (groupNames !! u_PrimaryGroup u) in
  kerberos ← kerberosAttributes principal;
  let certs := certificateValues certificates now in
  let attrs :=
    [attr1 (lc_NameFormat cfg) (u_Name u); attr1 "uid" (u_Name u); attr1 "ou" primary;
     attr1 "uidNumber" (pretty (u_UIDNumber u)); attr1 "gidNumber" (pretty (u_PrimaryGroup u));
     ("objectClass", account_classes principal rid)] ++
    when_set "givenName" (u_GivenName u) ++ when_set "sn" (u_SN u) ++
    [attr1 "accountStatus" (if u_Disabled u then "inactive" else "active")] ++
    when_set "mail" (u_Mail u) ++
    principal_names u principal ++ kerberos ++
    when_set "ipaNTSecurityIdentifier" (securityIdentifier rid) ++
    [attr1 "loginShell" (if is_empty (u_LoginShell u) then "/bin/bash" else u_LoginShell u);
     attr1 "homeDirectory" (if is_empty (u_Homedir u) then "/home/" +:+ u_Name u else u_Homedir u);
     attr1 "description" (u_Name u); attr1 "gecos" (u_Name u); ("memberOf", groupDNs names gids);
     attr1 "shadowExpire" "-1"; attr1 "shadowFlag" "134538308"; attr1 "shadowInactive" "-1";
     attr1 "shadowLastChange" "11000"; attr1 "shadowMax" "99999"; attr1 "shadowMin" "-1";
     attr1 "shadowWarning" "7"] ++
    (match certs with [] => [] | _ => [("userCertificate;binary", certs)] end) ++
    (match u_SSHKeys u with [] => [] | keys => (fun n => (n, keys)) <$> lc_SSHKeyAttrs cfg end) ++
    customAttributes (u_CustomAttrs u) in
  mret (mkEntry (entry_UserDN u primary) attrs).

(** [UserGIDs] and [GroupMembers] as queries of the store. *)
Definition user_gids (u : User) : Tx (list Z) := query_outcome (fun d => or_err ErrNoRows (UserGIDs d u)).
Definition group_members (gid : Z) : Tx (list string) := query_outcome (fun d => or_err ErrNoRows (GroupMembers d gid)).

Fixpoint account_entries (groupNames : gmap Z string) (principals : gmap Z Principal) (rids : gmap Z Z)
    (certs : gmap Z (list Certificate)) (us : list User) : Tx (list Entry) :=
  match us with
  | [] => mret []
  | u :: us' =>
      gids ← user_gids u;
      names ← GroupNames;
      now ← time_now;
      e ← lift (accountEntry u groupNames gids (principals !! u_ID u) (default 0 (rids !! u_ID u))
                  (default [] (certs !! u_ID u)) names now);
      rest ← account_entries groupNames principals rids certs us';
      mret (e :: rest)
  end.

Definition PosixAccounts : Tx (list Entry) :=
  us ← ListUsers;
  groupNames ← GroupNames;
  principals ← PrimaryPrincipals;
  rids ← query (fun d => RIDs d kind_user);
  certs ← UserCertificates (u_ID <$> us);
  account_entries groupNames principals rids certs us.

Definition memberDNs (d : DB) (names : list string) (groupNames : gmap Z string) : list string :=
  sort_by string_le (omap (fun n =>
    match getUser d (user_named n) with
    | Ok u => Some (entry_UserDN u (default EmptyString (groupNames !! u_PrimaryGroup u)))
    | _ => None
    end) names).

Definition groupEntry (d : DB) (hierarchy : string) (groupNames : gmap Z string) (rids : gmap Z Z) (g : Group)
    (members : list string) : Entry :=
  let asUniqueNames := String.eqb hierarchy "ou=groups" in
  let sid := securityIdentifier (default 0 (rids !! g_ID g)) in
  mkEntry (lc_GroupFormat cfg +:+ "=" +:+ g_Name g +:+ "," +:+ hierarchy +:+ "," +:+ lc_BaseDN cfg)
    ([attr1 (lc_GroupFormat cfg) (g_Name g); attr1 "cn" (g_Name g); attr1 "gidNumber" (pretty (g_GIDNumber g));
      attr1 "description" (if is_empty (g_Description g) then g_Name g else g_Description g)] ++
     when_set "ipaNTSecurityIdentifier" sid ++
     [(if asUniqueNames then ("uniqueMember", memberDNs d members groupNames) else ("memberUid", members));
      ("objectClass", [(if asUniqueNames then "groupOfUniqueNames" else "posixGroup"); "top"] ++
                      (if non_empty sid then ["ipaNTGroupAttrs"] else []))] ++
     customAttributes (g_CustomAttrs g)).

Fixpoint group_entries (hierarchy : string) (groupNames : gmap Z string) (rids : gmap Z Z) (gs : list Group) : Tx (list Entry) :=
  match gs with
  | [] => mret []
  | g :: gs' =>
      members ← group_members (g_GIDNumber g);
      e ← query (fun d => groupEntry d hierarchy groupNames rids g members);
      rest ← group_entries hierarchy groupNames rids gs';
      mret (e :: rest)
  end.

Definition PosixGroups (hierarchy : string) : Tx (list Entry) :=
  gs ← ListGroups;
  groupNames ← GroupNames;
  rids ← query (fun d => RIDs d kind_group);
  group_entries hierarchy groupNames rids gs.

Definition saslMechanisms : list string := if is_empty (lc_SPN cfg) then [] else [saslMechanism].

Definition rootDSE (dn : string) : Entry := mkEntry dn [
  ("objectClass", ["top"; "LDAProotDSE"]); attr1 "supportedLDAPVersion" "3";
  ("supportedSASLMechanisms", saslMechanisms); ("supportedControl", []); ("supportedCapabilities", []);
  attr1 "subschemaSubentry" "cn=schema"; attr1 "namingContexts" (lc_BaseDN cfg);
  attr1 "defaultNamingContext" (lc_BaseDN cfg); attr1 "vendorName" "ldap-kdc"; attr1 "krbRealm" (lc_Realm cfg)].

Definition topLevelRoot : Entry := mkEntry (lc_BaseDN cfg)
  (("objectClass", ["organizationalUnit"; "dcObject"; "top"]) ::
   omap (fun rdn => (fun '(k, v) => attr1 k v) <$> Cut "="%char rdn) (split_char ","%char (lc_BaseDN cfg))).

Definition container (name : string) : Entry := mkEntry ("ou=" +:+ name +:+ "," +:+ lc_BaseDN cfg)
  [attr1 "ou" name; ("objectClass", ["organizationalUnit"; "top"])].
End Entries.
