(* ===== verification/Ldap.v ===== *)
(** * The LDAP front end: package [ldapsrv], handler.go and source.go

    The handlers of bind, search, modify and delete over the store and the limiter of failed binds.
    The protocol library calls one handler per request; an early return of a handler is a reply
    thrown. Scope, filter and attribute selection are the library's, after the handler. *)

From S2P Require Import Prelude Text Hostport Names Keytab Failban Model Secret IdRange Db Principals Directory Accounts Certs LdapEntries.

(** ** [emailPattern] *)

Definition is_alnum (c : ascii) : bool :=
  let n := nat_of_ascii c in
  ((48 <=? n) && (n <=? 57) || (65 <=? n) && (n <=? 90) || (97 <=? n) && (n <=? 122))%nat.

Definition local_char (c : ascii) : bool :=
  is_alnum c || contains_char c ".!#$%&'*+/=?^_`{|}~-".

(** [[a-zA-Z0-9](?:[a-zA-Z0-9-]{0,61}[a-zA-Z0-9])?]. *)
Definition mail_label (s : string) : bool :=
  let n := String.length s in
  ((1 <=? n) && (n <=? 63))%nat && all_chars (fun c => is_alnum c || Ascii.eqb c "-"%char) s &&
  match String.get 0 s, String.get (n - 1) s with
  | Some a, Some b => is_alnum a && is_alnum b
  | _, _ => false
  end.

Definition emailPattern (s : string) : bool :=
  match Cut "@"%char s with
  | Some (local, domain) =>
      non_empty local && all_chars local_char local && forallb mail_label (split_char "."%char domain)
  | None => false
  end.

Example emailPattern_sample :
  emailPattern "alice@example.com" = true /\ emailPattern "alice@EXAMPLE" = true /\ emailPattern "@example.com" = false /\
  emailPattern "a@b..c" = false /\ emailPattern "a@-b.c" = false /\ emailPattern "cn=a,ou=users,dc=x@y" = false.
Proof. vm_compute. by split_and!. Qed.

(** ** The server's state *)

Inductive ResultCode : Type :=
| LDAPResultSuccess
| LDAPResultOperationsError
| LDAPResultProtocolError
| LDAPResultAuthMethodNotSupported
| LDAPResultSaslBindInProgress
| LDAPResultConstraintViolation
| LDAPResultNoSuchObject
| LDAPResultInappropriateAuthentication
| LDAPResultInvalidCredentials
| LDAPResultInsufficientAccessRights
| LDAPResultUnwillingToPerform.

(** A connection: which one it is, and the text of its remote address when it has one. *)
Record Conn : Type := mkConn { cn_id : string; cn_remote : option string }.

Definition sourceAddr (conn : Conn) : string :=
  match cn_remote conn with
  | None => "unknown"
  | Some a => default a (SplitHost a)
  end.

(** [saslExchange]; the session is the library's. *)
Record saslExchange (Session : Type) : Type := mkSaslExchange {
  ex_started : Time; ex_principal : string; ex_sess : Session; ex_challenged : bool }.
Arguments mkSaslExchange {Session}.
Arguments ex_started {Session}.
Arguments ex_principal {Session}.
Arguments ex_sess {Session}.
Arguments ex_challenged {Session}.

Record LServer (Session : Type) : Type := mkLServer {
  ls_st : St; ls_limiter : Limiter; ls_exchanges : gmap string (saslExchange Session) }.
Arguments mkLServer {Session}.
Arguments ls_st {Session}.
Arguments ls_limiter {Session}.
Arguments ls_exchanges {Session}.

Section ServerState.
Context {Session E : Type} `{Ck : Clock} (limits : Failban.Config).

Definition set_ls_st (s : St) (l : LServer Session) : LServer Session := mkLServer s (ls_limiter l) (ls_exchanges l).
Definition set_limiter (m : Limiter) (l : LServer Session) : LServer Session := mkLServer (ls_st l) m (ls_exchanges l).
Definition set_exchanges (f : gmap string (saslExchange Session) -> gmap string (saslExchange Session)) (l : LServer Session) : LServer Session :=
  mkLServer (ls_st l) (ls_limiter l) (f (ls_exchanges l)).

(** A call of the store, whose error the caller looks at. *)
Definition on_db {A} (m : Tx A) : M (LServer Session) E (outcome StoreErr A) := fun l =>
  let '(r, s') := m (ls_st l) in (Ok r, set_ls_st s' l).

Definition l_look {A} (f : DB -> A) : M (LServer Session) E A := fun l => (Ok (f (st_db (ls_st l))), l).

Definition l_now : M (LServer Session) E Time := fun l =>
  (Ok (clock (st_tick (ls_st l))), set_ls_st (snd (time_now (ls_st l))) l).

(** The limiter reads the clock itself. *)
Definition with_limiter {A} (f : Time -> Limiter -> A * Limiter) : M (LServer Session) E A := fun l =>
  let '(a, m) := f (clock (st_tick (ls_st l))) (ls_limiter l) in
  (Ok a, set_limiter m (set_ls_st (snd (time_now (ls_st l))) l)).

Definition is_blocked (src : string) : M (LServer Session) E bool := with_limiter (fun now => Blocked limits now src).
Definition note_failure (src : string) : M (LServer Session) E unit :=
  with_limiter (fun now m => (tt, NoteFailure limits now src m)).
Definition note_success (src : string) : M (LServer Session) E unit :=
  with_limiter (fun now m => (tt, NoteSuccess limits now src m)).
End ServerState.

(** What a handler returns, whichever way it returned. *)
Definition returns {S R} (m : M S R R) (s : S) : option R * S :=
  match m s with
  | (Ok r, s') | (Err r, s') => (Some r, s')
  | (Panic, s') => (None, s')
  end.

(** ** Requests *)

Inductive SearchScope : Type := ScopeBaseObject | ScopeSingleLevel | ScopeWholeSubtree.
#[global] Instance SearchScope_eq_dec : EqDecision SearchScope.
Proof. solve_decision. Defined.

Record SearchRequest : Type := mkSearchRequest { sq_BaseDN : string; sq_Scope : SearchScope }.

(** The entries found, or a refusal: the library reports a code only with an error beside it. *)
Inductive SearchResult : Type :=
| sr_entries (entries : list Entry)
| sr_refused (code : ResultCode).

(** [PartialAttribute]; a nil slice is [None]. *)
Record PartialAttribute : Type := mkPartialAttribute { pa_Type : string; pa_Vals : option (list string) }.

Record ModifyRequest : Type := mkModifyRequest {
  mq_Dn : string;
  mq_Add : list PartialAttribute;
  mq_Delete : list PartialAttribute;
  mq_Replace : list PartialAttribute;
}.

Inductive dn_kind : Type := dn_user | dn_group.

Abbreviation Changes := (gmap string (option (list string))).

(** [append(out[name], vals...)]: appending nothing to nil leaves nil. *)
Definition append_vals (old : option (option (list string))) (vals : option (list string)) : option (list string) :=
  match default [] vals with
  | [] => default None old
  | vs => Some (default [] (default None old) ++ vs)
  end.

Definition collectChanges (req : ModifyRequest) : Changes :=
  let out := fold_left (fun (m : Changes) a => let n := ToLower (pa_Type a) in <[n := append_vals (m !! n) (pa_Vals a)]> m)
               (mq_Add req) ∅ in
  let out := fold_left (fun (m : Changes) a => <[ToLower (pa_Type a) := pa_Vals a]> m) (mq_Replace req) out in
  fold_left (fun (m : Changes) a => match default [] (pa_Vals a) with [] => <[ToLower (pa_Type a) := None]> m | _ => m end)
    (mq_Delete req) out.

(** The user with the fields a modify may set. *)
Definition with_attrs (given sn mail shell home : string) (disabled : bool) (uid gid : Z) (ssh : list string)
    (custom : gmap string (list string)) (u : User) : User := {|
  u_ID := u_ID u; u_Name := u_Name u; u_UIDNumber := uid; u_PrimaryGroup := gid; u_OtherGroups := u_OtherGroups u;
  u_GivenName := given; u_SN := sn; u_Mail := mail; u_LoginShell := shell; u_Homedir := home; u_Disabled := disabled;
  u_SSHKeys := ssh; u_CustomAttrs := custom; u_Capabilities := u_Capabilities u; u_AppPasswords := u_AppPasswords u;
  u_CreatedAt := u_CreatedAt u; u_UpdatedAt := u_UpdatedAt u; u_PassBcrypt := u_PassBcrypt u;
  u_OTPSecret := u_OTPSecret u; u_HasOTP := u_HasOTP u; u_HasPassword := u_HasPassword u |}.

(** One round of the loop of [applyUserChanges]. *)
Definition apply_change (u : User) (name : string) (values : option (list string)) : outcome StoreErr User :=
  let first := default EmptyString (head (default [] values)) in
  let '(given, sn, mail) := (u_GivenName u, u_SN u, u_Mail u) in
  let '(shell, home, disabled) := (u_LoginShell u, u_Homedir u, u_Disabled u) in
  let '(uid, gid, ssh, custom) := (u_UIDNumber u, u_PrimaryGroup u, u_SSHKeys u, u_CustomAttrs u) in
  if String.eqb name "givenname" then Ok (with_attrs first sn mail shell home disabled uid gid ssh custom u)
  else if String.eqb name "sn" then Ok (with_attrs given first mail shell home disabled uid gid ssh custom u)
  else if String.eqb name "mail" then Ok (with_attrs given sn first shell home disabled uid gid ssh custom u)
  else if String.eqb name "loginshell" then Ok (with_attrs given sn mail first home disabled uid gid ssh custom u)
  else if String.eqb name "homedirectory" then Ok (with_attrs given sn mail shell first disabled uid gid ssh custom u)
  else if String.eqb name "accountstatus" then
    Ok (with_attrs given sn mail shell home (EqualFold first "inactive") uid gid ssh custom u)
  else if String.eqb name "uidnumber" then
    n ← or_err ErrMutate (Atoi first); Ok (with_attrs given sn mail shell home disabled n gid ssh custom u)
  else if String.eqb name "gidnumber" then
    n ← or_err ErrMutate (Atoi first); Ok (with_attrs given sn mail shell home disabled uid n ssh custom u)
  else if String.eqb name "sshpublickey" || String.eqb name "ipasshpubkey" then
    Ok (with_attrs given sn mail shell home disabled uid gid (default [] values) custom u)
  else
    Ok (with_attrs given sn mail shell home disabled uid gid ssh
          (match values with None => delete name custom | Some vs => <[name := vs]> custom end) u).

Fixpoint apply_changes (l : list (string * option (list string))) (u : User) : outcome StoreErr User :=
  match l with
  | [] => Ok u
  | (name, values) :: l' => u ← apply_change u name values; apply_changes l' u
  end.

(** ** The library *)

(** [ldap.Entry.GetAttributeValues] of the protocol library. *)
Class LdapLib : Type := GetAttributeValues : Entry -> string -> list string.

(** It returns the values of the named attribute: of the first of that name, nothing when there is none. *)
Class LdapLibLaws `(LdapLib) : Prop := attribute_values e name :
  GetAttributeValues e name = default [] (snd <$> List.find (fun a => String.eqb (fst a) name) (en_Attributes e)).

Definition GetAttributeValue `{LdapLib} (e : Entry) (name : string) : string :=
  default EmptyString (head (GetAttributeValues e name)).

Definition isAccountOf `{LdapLib} (e : Entry) (name : string) : bool :=
  existsb (fun oc => EqualFold oc "posixAccount") (GetAttributeValues e "objectClass") &&
  EqualFold (GetAttributeValue e "uid") name.

Section Handler.
Context {Session : Type} `{Ck : Clock, Rn : Rand, Ae : AEAD, Bc : Bcrypt, Tt : Totp, El : EncTypeLib, Mr : MapRange, Ll : LdapLib}.
Context (cfg : LdapConfig).

Definition applyUserChanges (changes : Changes) (u : User) : outcome StoreErr User :=
  apply_changes (map_range _ changes) u.

(** ** Names *)

Definition trimRDN (rdn attr : string) : string :=
  match CutPrefix rdn (attr +:+ "=") with
  | Some v => v
  | None => match Cut "="%char rdn with Some (_, v) => v | None => rdn end
  end.

Definition classifyDN (dn : string) : option (dn_kind * string) :=
  rest ← CutSuffix dn ("," +:+ lc_BaseDN cfg);
  match split_char ","%char rest with
  | [a; b] => if String.eqb b "ou=groups" then Some (dn_group, trimRDN a (lc_GroupFormat cfg))
              else if negb (String.eqb b "ou=users") then Some (dn_user, trimRDN a (lc_NameFormat cfg))
              else None
  | [a; _; c] => if String.eqb c "ou=users" then Some (dn_user, trimRDN a (lc_NameFormat cfg)) else None
  | _ => None
  end.

Definition userOfPrincipal (d : DB) (name : string) : outcome unit User :=
  '(local, realm) ← or_err tt (Cut "@"%char name);
  _ ← err_if (is_empty local || negb (EqualFold realm (lc_Realm cfg))) tt;
  match ParseName local (lc_Realm cfg) with
  | Ok pn =>
      match getPrincipal d pn 0 with
      | Ok p =>
          uid ← or_err tt (p_UserID p);
          match getUser d (fun r => ur_id r =? uid) with
          | Ok u => Ok u
          | Err _ => Err tt
          | Panic => Panic
          end
      | Err _ => Err tt
      | Panic => Panic
      end
  | Err _ => Err tt
  | Panic => Panic
  end.

(** The accounts as [ListUsers] returns them. *)
Definition list_users (d : DB) : list User := (fun r => decorateUser d (scanUser r)) <$> sort_by uid_le (users (dt d)).

(** [findBindUserReason], without the reason it logs. *)
Definition findBindUser (d : DB) (dn : string) (checkGroup : bool) : outcome ResultCode User :=
  let refused : outcome ResultCode User := Err LDAPResultInvalidCredentials in
  if emailPattern dn then
    match List.find (fun u => EqualFold (u_Mail u) dn) (list_users d) with
    | Some u => match getUser d (user_named (u_Name u)) with
                | Ok u => Ok u
                | Err _ => Err LDAPResultOperationsError
                | Panic => Panic
                end
    | None => match userOfPrincipal d dn with Ok u => Ok u | Err _ => refused | Panic => Panic end
    end
  else
    match CutSuffix dn ("," +:+ lc_BaseDN cfg) with
    | None => refused
    | Some rest =>
        let named userName groupName :=
          match getUser d (user_named userName) with
          | Ok user =>
              if checkGroup && non_empty groupName then
                match getGroup d (group_named groupName) with
                | Ok g => if negb (g_GIDNumber g =? u_PrimaryGroup user) then refused else Ok user
                | Err _ => refused
                | Panic => Panic
                end
              else Ok user
          | Err _ => refused
          | Panic => Panic
          end in
        match split_char ","%char rest with
        | [a] => named (trimRDN a (lc_NameFormat cfg)) EmptyString
        | [a; b] => named (trimRDN a (lc_NameFormat cfg)) (trimRDN b (lc_GroupFormat cfg))
        | [a; b; c] => if String.eqb c "ou=users" then named (trimRDN a (lc_NameFormat cfg)) (trimRDN b (lc_GroupFormat cfg))
                       else refused
        | _ => refused
        end
    end.

(** ** Bind *)

Abbreviation L E := (M (LServer Session) E).

Definition Bind_handler (bindDN bindSimplePw : string) (conn : Conn) : L ResultCode ResultCode :=
  let bindDN := ToLower (TrimSpace bindDN) in
  let src := sourceAddr conn in
  blocked ← is_blocked (lc_Limits cfg) src;
  _ ← throw_if blocked LDAPResultUnwillingToPerform;
  _ ← throw_if (is_empty bindDN && is_empty bindSimplePw) LDAPResultSuccess;
  _ ← throw_if (non_empty bindDN && is_empty bindSimplePw) LDAPResultUnwillingToPerform;
  found ← l_look (fun d => findBindUser d bindDN true);
  match found with
  | Panic => lift Panic
  | Err code => _ ← note_failure (lc_Limits cfg) src; throw code
  | Ok user =>
      now ← l_now;
      if negb (Granted (Authenticate now user bindSimplePw)) then
        _ ← note_failure (lc_Limits cfg) src;
        throw LDAPResultInvalidCredentials
      else
        _ ← note_success (lc_Limits cfg) src;
        mret LDAPResultSuccess
  end.

Definition Bind (bindDN bindSimplePw : string) (conn : Conn) : LServer Session -> option ResultCode * LServer Session :=
  returns (Bind_handler bindDN bindSimplePw conn).

(** ** Search *)

Definition appendAll (entries : list Entry) : Tx (list Entry) :=
  underUsers ← PosixGroups cfg "ou=users";
  underGroups ← PosixGroups cfg "ou=groups";
  us ← PosixAccounts cfg;
  mret (entries ++ underUsers ++ underGroups ++ us).

Definition when {A} (b : bool) (x : A) : list A := if b then [x] else [].

Definition candidates (searchBaseDN : string) (scope : SearchScope) : Tx (list Entry) :=
  let usersNode := "ou=users," +:+ lc_BaseDN cfg in
  let groupsNode := "ou=groups," +:+ lc_BaseDN cfg in
  let itself := bool_decide (scope = ScopeBaseObject) || bool_decide (scope = ScopeWholeSubtree) in
  if String.eqb searchBaseDN (lc_BaseDN cfg) then
    let entries := when itself (topLevelRoot cfg) ++ [container cfg "users"; container cfg "groups"] in
    if bool_decide (scope = ScopeWholeSubtree) then appendAll entries else mret entries
  else if String.eqb searchBaseDN groupsNode then
    gs ← (if bool_decide (scope = ScopeBaseObject) then mret [] else PosixGroups cfg "ou=groups");
    mret (when itself (container cfg "groups") ++ gs)
  else if String.eqb searchBaseDN usersNode then
    gs ← (if bool_decide (scope = ScopeBaseObject) then mret [] else PosixGroups cfg "ou=users");
    us ← (if bool_decide (scope = ScopeWholeSubtree) then PosixAccounts cfg else mret []);
    mret (when itself (container cfg "users") ++ gs ++ us)
  else
    all ← appendAll [];
    mret (filter (fun e => HasSuffix (ToLower (en_DN e)) searchBaseDN = true) all).

Definition schema_entry : Entry := mkEntry "cn=schema"
  [attr1 "cn" "schema"; ("objectClass", ["subschema"; "top"]); attr1 "hasSubordinates" "false"].

Definition Search_handler (boundDN : string) (req : SearchRequest) (conn : Conn) : L SearchResult SearchResult :=
  let boundDN := ToLower boundDN in
  let searchBaseDN := ToLower (TrimSpace (sq_BaseDN req)) in
  let anonymous := is_empty boundDN in
  blocked ← is_blocked (lc_Limits cfg) (sourceAddr conn);
  _ ← throw_if blocked (sr_refused LDAPResultUnwillingToPerform);
  if is_empty searchBaseDN then
    _ ← throw_if (negb (bool_decide (sq_Scope req = ScopeBaseObject))) (sr_refused LDAPResultUnwillingToPerform);
    _ ← throw_if (anonymous && negb (lc_AnonymousDSE cfg)) (sr_refused LDAPResultInsufficientAccessRights);
    mret (sr_entries [rootDSE cfg searchBaseDN])
  else
    _ ← throw_if anonymous (sr_refused LDAPResultInsufficientAccessRights);
    found ← l_look (fun d => findBindUser d boundDN false);
    match found with
    | Panic => lift Panic
    | Err code => throw (sr_refused code)
    | Ok boundUser =>
        if String.eqb searchBaseDN "cn=schema" then mret (sr_entries [schema_entry])
        else
          _ ← throw_if (negb (HasSuffix searchBaseDN (lc_BaseDN cfg))) (sr_refused LDAPResultInsufficientAccessRights);
          selfOnly ← (if lc_IgnoreCapabilities cfg then mret false
                      else
                        allowed ← l_look (fun d => HasCapability d boundUser "search" searchBaseDN);
                        allowed ← lift (or_err (sr_refused LDAPResultOperationsError) allowed);
                        mret (negb allowed));
          r ← on_db (candidates searchBaseDN (sq_Scope req));
          match r with
          | Panic => lift Panic
          | Err _ => throw (sr_refused LDAPResultOperationsError)
          | Ok entries =>
              mret (sr_entries (if (selfOnly : bool)
                                then filter (fun e => isAccountOf e (u_Name boundUser) = true) entries
                                else entries))
          end
    end.

Definition Search (boundDN : string) (req : SearchRequest) (conn : Conn) : LServer Session -> option SearchResult * LServer Session :=
  returns (Search_handler boundDN req conn).

(** ** Modify and delete *)

(** The test both make before they touch an object they do not own. *)
Definition may_write (actor : User) (dn : string) : L ResultCode unit :=
  allowed ← l_look (fun d => HasCapability d actor "write" dn);
  allowed ← lift (or_err LDAPResultOperationsError allowed);
  throw_if (negb allowed) LDAPResultInsufficientAccessRights.

Definition the_actor (boundDN : string) : L ResultCode User :=
  found ← l_look (fun d => findBindUser d (ToLower boundDN) false);
  lift found.

(** What becomes of an error of [UpdateUser]. *)
Definition update_code (e : StoreErr) : ResultCode :=
  match e with
  | ErrNotFound => LDAPResultNoSuchObject
  | ErrInvalidAttribute => LDAPResultConstraintViolation
  | _ => LDAPResultOperationsError
  end.

Definition Modify_handler (boundDN : string) (req : ModifyRequest) : L ResultCode ResultCode :=
  actor ← the_actor boundDN;
  let dn := ToLower (TrimSpace (mq_Dn req)) in
  '(kind, name) ← lift (or_err LDAPResultNoSuchObject (classifyDN dn));
  let self := match kind with dn_user => EqualFold name (u_Name actor) | dn_group => false end in
  _ ← (if self then mret tt else may_write actor dn);
  match kind with
  | dn_group => throw LDAPResultUnwillingToPerform
  | dn_user =>
      let changes := collectChanges req in
      changes ← (match changes !! "userpassword" with
                 | Some (Some (pw :: _)) =>
                     r ← on_db (SetUserPassword (lc_HashCost cfg) name pw (lc_EncTypes cfg) None);
                     match r with
                     | Ok _ => mret (delete "userpassword" changes)
                     | Err _ => throw LDAPResultOperationsError
                     | Panic => lift Panic
                     end
                 | _ => mret changes
                 end);
      if bool_decide ((changes : Changes) = ∅) then mret LDAPResultSuccess
      else
        r ← on_db (UpdateUser name (applyUserChanges changes));
        match r with
        | Ok _ => mret LDAPResultSuccess
        | Err e => throw (update_code e)
        | Panic => lift Panic
        end
  end.

Definition Modify (boundDN : string) (req : ModifyRequest) : LServer Session -> option ResultCode * LServer Session :=
  returns (Modify_handler boundDN req).

Definition Delete_handler (boundDN deleteDN : string) : L ResultCode ResultCode :=
  actor ← the_actor boundDN;
  let dn := ToLower (TrimSpace deleteDN) in
  '(kind, name) ← lift (or_err LDAPResultNoSuchObject (classifyDN dn));
  _ ← may_write actor dn;
  r ← on_db (match kind with dn_user => DeleteUser name | dn_group => DeleteGroup name end);
  match r with
  | Ok _ => mret LDAPResultSuccess
  | Err ErrNotFound => throw LDAPResultNoSuchObject
  | Err _ => throw LDAPResultOperationsError
  | Panic => lift Panic
  end.

Definition Delete (boundDN deleteDN : string) : LServer Session -> option ResultCode * LServer Session :=
  returns (Delete_handler boundDN deleteDN).

(** Objects are not created over LDAP. *)
Definition Add (l : LServer Session) : option ResultCode * LServer Session := (Some LDAPResultUnwillingToPerform, l).
End Handler.
