(* ===== verification/LdapFacts.v ===== *)
(** * What the LDAP front end promises

    A distinguished name the directory publishes binds back to its account; a bind proves a
    credential; a search without a capability shows the account itself; the two views of membership
    agree; a modify reaches the account it names and a delete needs authority. *)

From S2P Require Import Prelude Text Hostport Names Keytab Failban Model Secret IdRange Db Principals PrincipalFacts Directory DirectoryFacts Accounts Certs AccountsOk LdapEntries Ldap.

(** ** Letters and separators *)

Lemma EqualFold_lower s : EqualFold s (ToLower s) = true.
Proof. unfold EqualFold. by rewrite ToLower_idemp, String.eqb_refl. Qed.

Lemma length_ToLower s : String.length (ToLower s) = String.length s.
Proof. unfold ToLower. induction s as [|c s IH]; cbn [string_map String.length]; [done|]. by rewrite IH. Qed.

(** A separator that is no letter stays where it is. *)
Lemma lower_ascii_sep c d : lower_ascii d = d -> upper_ascii d = d -> Ascii.eqb (lower_ascii c) d = Ascii.eqb c d.
Proof.
  intros Hl Hu. destruct (Ascii.eqb_spec c d) as [->|Hne]; [rewrite Hl; apply Ascii.eqb_refl|].
  apply Ascii.eqb_neq. intros E. apply Hne. clear Hne.
  destruct (Ascii.eqb_spec (lower_ascii c) c) as [Ec|Ec]; [congruence|].
  assert (Hc : upper_ascii (lower_ascii c) = c) by (revert Ec; by destruct c as [[] [] [] [] [] [] [] []]). congruence.
Qed.

Lemma contains_char_lower d s : lower_ascii d = d -> upper_ascii d = d -> contains_char d (ToLower s) = contains_char d s.
Proof.
  intros Hl Hu. unfold ToLower. induction s as [|c s IH]; cbn [string_map contains_char]; [done|].
  by rewrite IH, lower_ascii_sep.
Qed.

Lemma CutPrefix_spec (s p t : string) : CutPrefix s p = Some t <-> s = p +:+ t.
Proof.
  unfold CutPrefix. destruct (HasPrefix s p) eqn:E.
  - apply HasPrefix_spec in E as [q ->]. rewrite length_app_string.
    replace (String.length p + String.length q - String.length p)%nat with (String.length q) by lia.
    rewrite substring_suffix. split; [by intros [= ->]|]. intros H.
    f_equal. clear -H. induction p as [|c p IH]; [exact H|]. rewrite !string_app_cons in H. injection H as H. by apply IH.
  - split; [done|]. intros ->. by rewrite HasPrefix_app in E.
Qed.

Lemma string_app_inj_len (p p' t t' : string) :
  String.length p = String.length p' -> p +:+ t = p' +:+ t' -> p = p' /\ t = t'.
Proof.
  revert p'. induction p as [|c p IH]; intros [|c' p']; cbn [String.length]; try done.
  rewrite !string_app_cons. intros [= Hl] [= -> H]. by destruct (IH p' Hl H) as [-> ->].
Qed.

(** The RDN of a published name gives its value back, the attribute spelled in any case. *)
Lemma trimRDN_published attr v : contains_char "="%char attr = false ->
  trimRDN (ToLower attr +:+ "=" +:+ v) attr = v.
Proof.
  intros Ha. unfold trimRDN. destruct (CutPrefix _ _) as [w|] eqn:E.
  - apply CutPrefix_spec in E. rewrite (string_app_assoc attr) in E.
    apply string_app_inj_len in E as [_ E]; [|apply length_ToLower]. by injection E.
  - change ("=" +:+ v) with (String "=" v). rewrite Cut_app; [done|].
    by rewrite contains_char_lower.
Qed.

(** ** A name with a comma is no mail address *)

Lemma split_char_parts c d s : contains_char d s = true -> c <> d ->
  Exists (fun w => contains_char d w = true) (split_char c s).
Proof.
  intros Hd Hne. induction s as [|e s IH]; cbn in *; [done|].
  destruct (Ascii.eqb_spec e c) as [->|].
  - apply orb_true_iff in Hd as [E|Hd]; [by apply Ascii.eqb_eq in E|]. right. by apply IH.
  - destruct (split_char c s) as [|w ws] eqn:Ew.
    + apply orb_true_iff in Hd as [E|Hd]; [|by apply IH, Exists_nil in Hd].
      apply Exists_cons. left. cbn. by rewrite E.
    + apply orb_true_iff in Hd as [E|Hd].
      * apply Exists_cons. left. cbn. by rewrite E.
      * specialize (IH Hd). apply Exists_cons in IH as [IH|IH]; apply Exists_cons; [left|by right].
        cbn. rewrite IH. apply orb_true_r.
Qed.

Lemma all_chars_contains f c s : all_chars f s = true -> contains_char c s = true -> f c = true.
Proof.
  induction s as [|d s IH]; cbn; [done|]. intros [Hd Hs]%andb_true_iff.
  intros [->%Ascii.eqb_eq|Hc]%orb_true_iff; [done|by apply IH].
Qed.

Lemma emailPattern_comma s : contains_char ","%char s = true -> emailPattern s = false.
Proof.
  intros Hc. unfold emailPattern. destruct (Cut _ s) as [[local domain]|] eqn:E; [|done].
  apply Cut_Some in E. subst s. apply not_true_iff_false. intros H.
  apply andb_true_iff in H as [[_ Hl]%andb_true_iff Hd].
  rewrite contains_char_app in Hc. cbn [contains_char] in Hc. apply orb_true_iff in Hc as [Hc|Hc].
  - apply (all_chars_contains _ _ _ Hl) in Hc. done.
  - cbn in Hc. apply (split_char_parts "."%char) in Hc; [|done]. apply Exists_exists in Hc as (w & Hw & Hwc).
    rewrite forallb_forall in Hd. apply list_elem_of_In, Hd in Hw. unfold mail_label in Hw.
    apply andb_true_iff in Hw as [[_ Hw]%andb_true_iff _]. by apply (all_chars_contains _ _ _ Hw) in Hwc.
Qed.

(** ** Published names *)

Definition no_comma (s : string) : Prop := contains_char ","%char s = false.

(** The configuration of a handler whose distinguished names can be read back. *)
Record config_ok (cfg : LdapConfig) : Prop := {
  co_base : ToLower (lc_BaseDN cfg) = lc_BaseDN cfg;
  co_name : no_comma (lc_NameFormat cfg) /\ contains_char "="%char (lc_NameFormat cfg) = false;
  co_group : no_comma (lc_GroupFormat cfg) /\ contains_char "="%char (lc_GroupFormat cfg) = false;
  co_class : lc_NameFormat cfg <> "objectClass" /\ lc_GroupFormat cfg <> "objectClass";
}.

Lemma NewHandler_ok cfg :
  no_comma (lc_NameFormat cfg) /\ contains_char "="%char (lc_NameFormat cfg) = false ->
  no_comma (lc_GroupFormat cfg) /\ contains_char "="%char (lc_GroupFormat cfg) = false ->
  lc_NameFormat cfg <> "objectClass" /\ lc_GroupFormat cfg <> "objectClass" -> config_ok (NewHandler cfg).
Proof. intros H1 H2 H3. split; [apply ToLower_idemp|done..]. Qed.


Lemma no_comma_rdn attr v : no_comma attr -> no_comma v -> no_comma (ToLower attr +:+ "=" +:+ ToLower v).
Proof.
  unfold no_comma. intros Ha Hv. rewrite !contains_char_app, !contains_char_lower, Ha, Hv by done. done.
Qed.

(** What both readers of a name find in a published one. *)
Lemma published_parts cfg (name group : string) : config_ok cfg -> no_comma name -> no_comma group ->
  let dn := ToLower (UserDN (lc_BaseDN cfg) (lc_NameFormat cfg) (lc_GroupFormat cfg) name group) in
  contains_char ","%char dn = true /\
  exists rest, CutSuffix dn ("," +:+ lc_BaseDN cfg) = Some rest /\
    split_char ","%char rest = [ToLower (lc_NameFormat cfg) +:+ "=" +:+ ToLower name;
                                ToLower (lc_GroupFormat cfg) +:+ "=" +:+ ToLower group; "ou=users"].
Proof.
  intros [Hb [Hn _] [Hg _] _] Hname Hgroup dn.
  set (a := ToLower (lc_NameFormat cfg) +:+ "=" +:+ ToLower name).
  set (b := ToLower (lc_GroupFormat cfg) +:+ "=" +:+ ToLower group).
  assert (Hdn : dn = Join "," [a; b; "ou=users"] +:+ ("," +:+ lc_BaseDN cfg)).
  { unfold dn, UserDN, a, b. cbn [Join]. rewrite !ToLower_app, Hb.
    change (ToLower "=") with "=". change (ToLower ",") with ",". change (ToLower ",ou=users,") with ",ou=users,".
    rewrite !string_app_assoc. done. }
  split.
  - rewrite Hdn, contains_char_app. apply orb_true_iff. by right.
  - exists (Join "," [a; b; "ou=users"]). split; [by apply CutSuffix_spec|].
    apply split_char_Join; [done|]. repeat constructor; by apply no_comma_rdn.
Qed.

Section Binding.
Context {Session : Type} `{Ck : Clock, Rn : Rand, Ae : AEAD, Bc : Bcrypt, Tt : Totp}.
Context (cfg : LdapConfig).

(** The distinguished name the directory publishes for an account, lowered as the handlers lower
    it, resolves to that account, with the primary group in the name checked or not, and a modify or
    delete of that name is about that account. *)
Lemma published_dn_resolves (d : DB) (r : UserRow) (g : GroupRow) (checkGroup : bool) :
  config_ok cfg -> accounts_ok d -> r ∈ users (dt d) -> g ∈ groups (dt d) ->
  gr_gid_number g = ur_primary_group r -> no_comma (ur_name r) -> no_comma (gr_name g) ->
  let u := decorateUser d (scanUser r) in
  let dn := ToLower (entry_UserDN cfg u (gr_name g)) in
  findBindUser cfg d dn checkGroup = Ok u /\ classifyDN cfg dn = Some (dn_user, ToLower (ur_name r)).
Proof.
  intros Hc Hok Hr Hg Hgid Hn Hgn u dn.
  destruct (published_parts cfg (ur_name r) (gr_name g) Hc Hn Hgn) as (Hcomma & rest & Hrest & Hparts).
  change (ToLower (UserDN _ _ _ _ _)) with dn in Hcomma, Hrest.
  destruct Hc as [_ [_ Hnf] [_ Hgf] _]. unfold classifyDN, findBindUser. rewrite emailPattern_comma, Hrest by done.
  split.
  - rewrite Hparts. cbn [String.eqb Ascii.eqb Bool.eqb]. rewrite !trimRDN_published by done.
    rewrite (getUser_by_name _ Hok r) by (done || apply EqualFold_lower).
    destruct (checkGroup && _); [|done]. unfold getGroup.
    rewrite (group_by_name _ Hok g) by (done || apply EqualFold_lower). cbn.
    by rewrite Hgid, Z.eqb_refl.
  - cbn. rewrite Hparts. cbn [String.eqb Ascii.eqb Bool.eqb]. by rewrite trimRDN_published.
Qed.

(** A name that resolves to nobody is never a success. *)
Lemma findBindUser_code d dn check : findBindUser cfg d dn check <> Err LDAPResultSuccess.
Proof. unfold findBindUser. repeat case_match; congruence. Qed.

Lemma with_limiter_run {E A} (f : Time -> Limiter -> A * Limiter) (l : LServer Session) :
  with_limiter (E := E) f l =
  (Ok (fst (f (clock (st_tick (ls_st l))) (ls_limiter l))),
   set_limiter (snd (f (clock (st_tick (ls_st l))) (ls_limiter l))) (set_ls_st (snd (time_now (ls_st l))) l)).
Proof. unfold with_limiter. by destruct (f _ _). Qed.

(** The three readings of the clock a bind makes at most. *)
Definition tick (n : nat) (l : LServer Session) : Time := clock (st_tick (ls_st l) + n).

(** What a simple bind comes to on every path. A blocked source is refused before its password
    is looked at. Beyond that a bind succeeds only as nobody, with neither a name nor a password, or
    with a password the account accepts; every other attempt that presents a password is counted
    against its source, every accepted one clears it; and a bind changes nothing in the directory. *)
Lemma Bind_cases (bindDN pw : string) (conn : Conn) (l l' : LServer Session) (r : option ResultCode) :
  Bind cfg bindDN pw conn l = (r, l') ->
  let dn := ToLower (TrimSpace bindDN) in
  let limits := lc_Limits cfg in
  let src := sourceAddr conn in
  let '(blocked, lim) := Blocked limits (tick 0 l) src (ls_limiter l) in
  let found := findBindUser cfg (st_db (ls_st l)) dn true in
  st_db (ls_st l') = st_db (ls_st l) /\ ls_exchanges l' = ls_exchanges l /\
  (r = Some LDAPResultSuccess ->
     blocked = false /\
     ((dn = EmptyString /\ pw = EmptyString /\ ls_limiter l' = lim) \/
      (pw <> EmptyString /\ ls_limiter l' = NoteSuccess limits (tick 2 l) src lim /\
       exists u, found = Ok u /\ Granted (Authenticate (tick 1 l) u pw) = true))) /\
  (r <> Some LDAPResultSuccess -> blocked = false -> pw <> EmptyString -> found <> Panic ->
     exists n, ls_limiter l' = NoteFailure limits (tick n l) src lim).
Proof.
  intros Hrun dn limits src. destruct (Blocked limits (tick 0 l) src (ls_limiter l)) as [blocked lim] eqn:Eb.
  intros found. revert Hrun. unfold Bind, returns, Bind_handler, is_blocked.
  rewrite bind_run, with_limiter_run.
  unfold tick in Eb. rewrite Nat.add_0_r in Eb. fold limits src. rewrite Eb. cbn [fst snd].
  set (l1 := set_limiter lim _). fold dn.
  destruct blocked; [intros [= <- <-]; split_and!; [done..| |]; intros; done|].
  rewrite bind_run. unfold throw_if at 1, lift at 1. cbn [err_if]. rewrite bind_run.
  destruct (is_empty dn && is_empty pw) eqn:E1; cbn [throw_if err_if lift].
  { intros [= <- <-]. apply andb_true_iff in E1 as [E1%is_empty_spec E2%is_empty_spec].
    split_and!; [done..| |]; intros; [|done]. split; [done|]. by left. }
  rewrite bind_run. destruct (non_empty dn && is_empty pw) eqn:E2; cbn [throw_if err_if lift].
  { intros [= <- <-]. apply andb_true_iff in E2 as [_ E2%is_empty_spec]. split_and!; [done..| |]; intros; done. }
  rewrite bind_run. unfold l_look. change (findBindUser cfg (st_db (ls_st l1)) dn true) with found.
  assert (Hpw : pw <> EmptyString) by (intros ->; destruct dn; discriminate).
  destruct found as [u|code|] eqn:Ef.
  - rewrite bind_run. unfold l_now. change (clock (st_tick (ls_st l1))) with (clock (S (st_tick (ls_st l)))).
    assert (Ht : tick 1 l = clock (S (st_tick (ls_st l)))) by (unfold tick; f_equal; lia). rewrite <- Ht.
    destruct (Granted _) eqn:Eg; cbn [negb]; unfold note_failure, note_success; rewrite bind_run, with_limiter_run.
    + intros [= <- <-]. split_and!; [done..| |]; intros; [|done]. split; [done|]. right. split; [done|].
      split; [|by exists u]. cbn. unfold tick. do 2 f_equal. lia.
    + intros [= <- <-]. split_and!; [done..|done|]. intros. exists 2%nat. cbn. unfold tick. do 2 f_equal. lia.
  - unfold note_failure. rewrite bind_run, with_limiter_run. intros [= <- <-]. split_and!; [done..| |].
    + intros [= ->]. exfalso. by apply findBindUser_code in Ef.
    + intros _ _ _ _. exists 1%nat. cbn. unfold tick. do 2 f_equal. lia.
  - intros [= <- <-]. split_and!; done.
Qed.
End Binding.
