(* ===== verification/LdapSearch.v ===== *)
(** * What a search shows

    The entries are those of the accounts and groups in the store; an account's [memberOf] and a
    group's [uniqueMember] are two views of one relation; and an account that may not search sees
    itself alone. *)

From S2P Require Import Prelude Text Hostport Names Keytab Failban Model Secret IdRange Db Principals PrincipalFacts Directory DirectoryFacts Accounts Certs AccountsOk LdapEntries Ldap LdapFacts.

(** The group names [GroupNames] returns. *)
Definition group_names (d : DB) : gmap Z string :=
  list_to_map ((fun r => (gr_gid_number r, gr_name r)) <$> groups (dt d)).

Definition account (d : DB) (r : UserRow) : User := decorateUser d (scanUser r).
Definition primary_name (d : DB) (u : User) : string := default EmptyString (group_names d !! u_PrimaryGroup u).

Section Views.
Context `{Ck : Clock, Rn : Rand, Ae : AEAD} (cfg : LdapConfig).

(** An entry of the account, as some reading of the clock built it. *)
Definition account_entry (d : DB) (r : UserRow) (gids : list Z) (e : Entry) : Prop :=
  UserGIDs d (account d r) = Some gids /\
  exists principal rid certs now,
    accountEntry cfg (account d r) (group_names d) gids principal rid certs (group_names d) now = Ok e.

Definition group_entry (d : DB) (hierarchy : string) (g : GroupRow) (members : list string) (e : Entry) : Prop :=
  GroupMembers d (gr_gid_number g) = Some members /\
  exists rids, e = groupEntry cfg d hierarchy (group_names d) rids (scanGroup d g) members.

Lemma account_entries_Ok principals rids certs rows s es s' :
  account_entries cfg (group_names (st_db s)) principals rids certs (account (st_db s) <$> rows) s = (Ok es, s') ->
  st_db s' = st_db s /\ Forall2 (fun r e => exists gids, account_entry (st_db s) r gids e) rows es.
Proof.
  set (names := group_names (st_db s)) at 1. assert (Hn : names = group_names (st_db s)) by done. clearbody names.
  set (d := st_db s) in *. assert (Hd : st_db s = d) by done. clearbody d.
  revert s es Hd. induction rows as [|r rows IH]; intros s es Hd; cbn [fmap list_fmap account_entries]; intros Hrun.
  { run_inv. subst. by split. }
  unfold user_gids, GroupNames in Hrun. run_inv.
  match goal with H : query_outcome _ _ = _ |- _ => apply query_outcome_Ok in H as [Hg ->] end.
  run_inv. match goal with H : query _ _ = _ |- _ => apply query_Ok in H as [-> ->] end.
  match goal with H : time_now _ = _ |- _ => unfold time_now in H; injection H as <- <- end.
  match goal with H : account_entries _ _ _ _ _ _ _ = _ |- _ => apply IH in H as [Hdb Hrest] end; [|done].
  split; [done|]. subst. constructor; [|done]. eexists. split; [exact Hg|]. eauto 10.
Qed.

(** The accounts a search offers: one entry for each, in the order of their numbers. *)
Lemma PosixAccounts_Ok s es s' : PosixAccounts cfg s = (Ok es, s') ->
  st_db s' = st_db s /\
  Forall2 (fun r e => exists gids, account_entry (st_db s) r gids e) (sort_by uid_le (users (dt (st_db s)))) es.
Proof.
  unfold PosixAccounts, ListUsers, GroupNames, PrimaryPrincipals. intros Hrun. run_inv.
  repeat match goal with H : query _ _ = _ |- _ => apply query_Ok in H as [-> ->] end.
  match goal with H : UserCertificates _ _ = _ |- _ => rename H into Hc end.
  match type of Hc with UserCertificates ?ids ?st = _ => destruct (UserCertificates_listing ids st) as (m & Hm & _) end.
  rewrite Hm in Hc. injection Hc as <- <-. by apply account_entries_Ok in Hrun.
Qed.

Lemma group_entries_Ok hierarchy rids rows s es s' :
  group_entries cfg hierarchy (group_names (st_db s)) rids (scanGroup (st_db s) <$> rows) s = (Ok es, s') ->
  s' = s /\ Forall2 (fun g e => exists members, group_entry (st_db s) hierarchy g members e) rows es.
Proof.
  revert es. induction rows as [|g rows IH]; intros es; cbn [fmap list_fmap group_entries]; intros Hrun.
  { run_inv. by split. }
  unfold group_members in Hrun. run_inv.
  match goal with H : query_outcome _ _ = _ |- _ => apply query_outcome_Ok in H as [Hg ->] end.
  run_inv. match goal with H : query _ _ = _ |- _ => apply query_Ok in H as [-> ->] end.
  match goal with H : group_entries _ _ _ _ _ _ = _ |- _ => apply IH in H as [-> Hrest] end.
  split; [done|]. constructor; [|done]. eexists. split; [exact Hg|]. by eexists.
Qed.

Lemma PosixGroups_Ok hierarchy s es s' : PosixGroups cfg hierarchy s = (Ok es, s') ->
  s' = s /\
  Forall2 (fun g e => exists members, group_entry (st_db s) hierarchy g members e) (sort_by gid_le (groups (dt (st_db s)))) es.
Proof.
  unfold PosixGroups, ListGroups, GroupNames. intros Hrun. run_inv.
  repeat match goal with H : query _ _ = _ |- _ => apply query_Ok in H as [-> ->] end.
  by apply group_entries_Ok in Hrun.
Qed.
End Views.

(** ** Membership *)

Lemma Forall2_elem_r {A B} (P : A -> B -> Prop) l k y : Forall2 P l k -> y ∈ k -> exists x, x ∈ l /\ P x y.
Proof.
  intros Hall [i Hi]%list_elem_of_lookup. destruct (Forall2_lookup_r _ _ _ _ _ Hall Hi) as (x & Hx & HP).
  exists x. split; [|done]. by eapply list_elem_of_lookup_2.
Qed.

Lemma string_app_inj_l (p s t : string) : p +:+ s = p +:+ t -> s = t.
Proof. intros H. by apply string_app_inj_len in H as [_ ?]. Qed.

Lemma GroupDN_inj cfg a b : GroupDN cfg a = GroupDN cfg b -> a = b.
Proof.
  unfold GroupDN. intros H%string_app_inj_l%string_app_inj_l. by apply string_app_inj_r in H.
Qed.

Lemma entry_UserDN_inj cfg u v pu pv : no_comma (u_Name u) -> no_comma (u_Name v) ->
  entry_UserDN cfg u pu = entry_UserDN cfg v pv -> u_Name u = u_Name v.
Proof.
  unfold entry_UserDN, UserDN. intros Hu Hv H%string_app_inj_l%string_app_inj_l.
  apply string_sep_inj in H as [H _]; done.
Qed.

Section Membership.
Context `{Ck : Clock, Rn : Rand, Ae : AEAD} (cfg : LdapConfig) (d : DB).
Hypothesis Hok : accounts_ok d.
Hypothesis Hnames : forall r, r ∈ users (dt d) -> no_comma (ur_name r).

Lemma group_names_Some gid n : group_names d !! gid = Some n <->
  exists g, g ∈ groups (dt d) /\ gr_gid_number g = gid /\ gr_name g = n.
Proof using Hok.
  split.
  - intros H%elem_of_list_to_map_2%list_elem_of_fmap. destruct H as (g & [= -> ->] & Hg). eauto.
  - intros (g & Hg & <- & <-). by apply (GroupNames_lookup d Hok).
Qed.

Lemma groupDNs_spec g gids : g ∈ groups (dt d) ->
  GroupDN cfg (gr_name g) ∈ groupDNs cfg (group_names d) gids <-> gr_gid_number g ∈ gids.
Proof using Hok.
  intros Hg. unfold groupDNs. rewrite elem_of_sort_by, list_elem_of_omap. split.
  - intros (gid & Hgid & Hn). apply fmap_Some in Hn as (n & Hn & E%GroupDN_inj).
    apply group_names_Some in Hn as (g' & Hg' & <- & <-).
    assert (g = g') as ->; [|done]. apply (NoDup_key_inj group_fold (groups (dt d))); [apply Hok|done|done|].
    unfold group_fold. by rewrite E.
  - intros Hgid. exists (gr_gid_number g). split; [done|]. rewrite (proj2 (group_names_Some _ (gr_name g))); [done|eauto].
Qed.

Lemma memberDNs_spec r members : r ∈ users (dt d) -> (forall n, n ∈ members -> exists r', r' ∈ users (dt d) /\ ur_name r' = n) ->
  entry_UserDN cfg (account d r) (primary_name d (account d r)) ∈ memberDNs cfg d members (group_names d) <-> ur_name r ∈ members.
Proof using Hok Hnames.
  intros Hr Hm. unfold memberDNs. rewrite elem_of_sort_by, list_elem_of_omap. split.
  - intros (n & Hn & He). destruct (Hm n Hn) as (r' & Hr' & <-).
    rewrite (getUser_by_name d Hok r') in He by (done || apply EqualFold_refl).
    injection He as E. apply entry_UserDN_inj in E; [|by apply Hnames..]. cbn in E. by rewrite <- E.
  - intros Hn. exists (ur_name r). split; [done|].
    by rewrite (getUser_by_name d Hok r) by (done || apply EqualFold_refl).
Qed.

Lemma GroupMembers_named gid members n : GroupMembers d gid = Some members -> n ∈ members ->
  exists r, r ∈ users (dt d) /\ ur_name r = n.
Proof.
  unfold GroupMembers. intros (gids & _ & [= <-])%bind_Some.
  rewrite elem_of_sort_by, list_elem_of_fmap. setoid_rewrite list_elem_of_filter. naive_solver.
Qed.

Lemma membership_views r g gids members : r ∈ users (dt d) -> g ∈ groups (dt d) ->
  UserGIDs d (account d r) = Some gids -> GroupMembers d (gr_gid_number g) = Some members ->
  GroupDN cfg (gr_name g) ∈ groupDNs cfg (group_names d) gids <->
  entry_UserDN cfg (account d r) (primary_name d (account d r)) ∈ memberDNs cfg d members (group_names d).
Proof using Hok Hnames.
  intros Hr Hg Hgids Hmem. rewrite groupDNs_spec, memberDNs_spec by (done || (intros; by eapply GroupMembers_named)).
  destruct (GroupMembers_UserGIDs d (gr_gid_number g) r) as (m & l & E1 & E2 & E3); [apply Hok|done|].
  unfold account in Hgids. rewrite Hmem in E1. rewrite Hgids in E2. by simplify_eq.
Qed.
End Membership.

(** The parts of an entry the theorems speak about. *)
Lemma accountEntry_parts `{Clock} cfg u names gids principal rid certs now e :
  accountEntry cfg u names gids principal rid certs names now = Ok e ->
  en_DN e = entry_UserDN cfg u (default EmptyString (names !! u_PrimaryGroup u)) /\
  ("memberOf", groupDNs cfg names gids) ∈ en_Attributes e /\
  exists rest, en_Attributes e = attr1 (lc_NameFormat cfg) (u_Name u) :: attr1 "uid" (u_Name u) :: rest.
Proof.
  unfold accountEntry. intros Hrun. run_inv. cbn [en_DN en_Attributes]. split; [done|]. split.
  - apply list_elem_of_In. rewrite !in_app_iff. cbn [In]. tauto.
  - eexists. reflexivity.
Qed.

(** ** The candidates of a search *)

Lemma findBindUser_row `{AEAD} cfg d dn check u : findBindUser cfg d dn check = Ok u ->
  exists r, r ∈ users (dt d) /\ u = account d r.
Proof.
  assert (Hget : forall f v, getUser d f = Ok v -> exists r, r ∈ users (dt d) /\ v = account d r).
  { intros f v Hv. apply getUser_row in Hv as (r & Hr & _ & ->). by exists r. }
  assert (Hprin : forall n v, userOfPrincipal cfg d n = Ok v -> exists r, r ∈ users (dt d) /\ v = account d r).
  { intros n v Hv. unfold userOfPrincipal in Hv. run_inv. repeat case_match; run_inv; try done.
    repeat case_match; run_inv; try done. by eapply Hget. }
  unfold findBindUser. repeat case_match; try done; intros; simplify_eq; eauto.
Qed.

Section Candidates.
Context `{Ck : Clock, Rn : Rand, Ae : AEAD} (cfg : LdapConfig).

Definition fixed_entry (e : Entry) : Prop :=
  e = topLevelRoot cfg \/ e = container cfg "users" \/ e = container cfg "groups".

(** Where an entry of an answer comes from. *)
Definition published (d : DB) (e : Entry) : Prop :=
  fixed_entry e \/ (exists r gids, r ∈ users (dt d) /\ account_entry cfg d r gids e) \/
  (exists g hierarchy members, g ∈ groups (dt d) /\ group_entry cfg d hierarchy g members e).

Definition shows (s : St) (es : list Entry) (s' : St) : Prop :=
  st_db s' = st_db s /\ forall e, e ∈ es -> published (st_db s) e.

Lemma PosixAccounts_shows s es s' : PosixAccounts cfg s = (Ok es, s') -> shows s es s'.
Proof.
  intros [Hd Hall]%PosixAccounts_Ok. split; [done|]. intros e He.
  apply (Forall2_elem_r _ _ _ _ Hall) in He as (r & Hr%elem_of_sort_by & gids & Hg). right. left. eauto.
Qed.

Lemma PosixGroups_shows h s es s' : PosixGroups cfg h s = (Ok es, s') -> shows s es s'.
Proof.
  intros [-> Hall]%PosixGroups_Ok. split; [done|]. intros e He.
  apply (Forall2_elem_r _ _ _ _ Hall) in He as (g & Hg%elem_of_sort_by & members & Hm). right. right. eauto.
Qed.

Lemma shows_app s es1 s1 es2 s2 : shows s es1 s1 -> shows s1 es2 s2 -> shows s (es1 ++ es2) s2.
Proof.
  intros [E1 H1] [E2 H2]. split; [congruence|]. rewrite E1 in H2. intros e [?|?]%elem_of_app; auto.
Qed.

Lemma shows_fixed s es : (forall e, e ∈ es -> fixed_entry e) -> shows s es s.
Proof. intros Hes. split; [done|]. intros e He. left. auto. Qed.

Lemma when_fixed b e : fixed_entry e -> forall x, x ∈ when b e -> fixed_entry x.
Proof. intros He x. unfold when. destruct b; [by intros ->%list_elem_of_singleton|by intros ?%elem_of_nil]. Qed.

Lemma appendAll_shows entries s es s' : (forall e, e ∈ entries -> fixed_entry e) ->
  appendAll cfg entries s = (Ok es, s') -> shows s es s'.
Proof.
  intros Hf Hrun. unfold appendAll in Hrun. run_inv.
  repeat match goal with H : PosixGroups _ _ _ = _ |- _ => apply PosixGroups_shows in H end.
  match goal with H : PosixAccounts _ _ = _ |- _ => apply PosixAccounts_shows in H end.
  eapply shows_app; [by apply shows_fixed|]. eapply shows_app; [eassumption|]. eapply shows_app; eassumption.
Qed.

Lemma candidates_shows base scope s es s' : candidates cfg base scope s = (Ok es, s') -> shows s es s'.
Proof.
  assert (Ft : fixed_entry (topLevelRoot cfg)) by (by left).
  assert (Fu : fixed_entry (container cfg "users")) by (by right; left).
  assert (Fg : fixed_entry (container cfg "groups")) by (by right; right).
  unfold candidates. destruct (String.eqb base (lc_BaseDN cfg)).
  { set (fixed := when _ _ ++ _).
    assert (Hf : forall e, e ∈ fixed -> fixed_entry e).
    { intros e [He|He]%elem_of_app; [exact (when_fixed _ _ Ft _ He)|]. rewrite !elem_of_cons in He.
      destruct He as [->|[->|[]%elem_of_nil]]; done. }
    clearbody fixed. destruct (bool_decide (scope = ScopeWholeSubtree)); [by apply appendAll_shows|]. intros Hrun. run_inv. by apply shows_fixed. }
  destruct (String.eqb base _).
  { intros Hrun. run_inv. eapply shows_app; [apply shows_fixed; by apply when_fixed|].
    destruct (bool_decide (scope = ScopeBaseObject)); run_inv; [by apply shows_fixed; intros ? ?%elem_of_nil|].
    by eapply PosixGroups_shows. }
  destruct (String.eqb base _).
  { intros Hrun. run_inv. eapply shows_app; [apply shows_fixed; by apply when_fixed|]. eapply shows_app.
    - destruct (bool_decide (scope = ScopeBaseObject)); run_inv; [by apply shows_fixed; intros ? ?%elem_of_nil|].
      by eapply PosixGroups_shows.
    - destruct (bool_decide (scope = ScopeWholeSubtree)); run_inv; [by eapply PosixAccounts_shows|].
      by apply shows_fixed; intros ? ?%elem_of_nil. }
  intros Hrun. run_inv. match goal with H : appendAll _ _ _ = _ |- _ => apply appendAll_shows in H as [E H] end.
  - split; [done|]. intros e [_ He]%list_elem_of_filter. auto.
  - by intros ? ?%elem_of_nil.
Qed.
End Candidates.

(** ** Whose entry it is *)

Section OwnEntry.
Context `{Ck : Clock, Rn : Rand, Ae : AEAD, Ll : LdapLib, !LdapLibLaws Ll} (cfg : LdapConfig) (Hcfg : config_ok cfg).

Lemma fixed_not_account e name : fixed_entry cfg e -> isAccountOf e name = false.
Proof using All.
  unfold isAccountOf. rewrite !attribute_values. intros [->|[->| ->]]; done.
Qed.

Lemma group_not_account d g h members e name : group_entry cfg d h g members e -> isAccountOf e name = false.
Proof using All.
  intros (_ & rids & ->). unfold isAccountOf. rewrite attribute_values. unfold groupEntry.
  destruct Hcfg as [_ _ _ [_ Hne]]. apply String.eqb_neq in Hne. cbn [en_Attributes app List.find fst].
  unfold attr1 at 1. cbn [fst]. rewrite Hne. unfold when_set.
  destruct (non_empty (securityIdentifier _ _)), (String.eqb h "ou=groups"); reflexivity.
Qed.

Lemma account_is_own d r gids e name : account_entry cfg d r gids e ->
  isAccountOf e name = EqualFold (ur_name r) name.
Proof using All.
  intros (_ & principal & rid & certs & now & He). unfold accountEntry in He. run_inv.
  unfold isAccountOf, GetAttributeValue. rewrite !attribute_values.
  destruct Hcfg as [_ _ _ [Hne _]]. apply String.eqb_neq in Hne. cbn [en_Attributes app List.find fst attr1].
  rewrite Hne. destruct (String.eqb (lc_NameFormat cfg) "uid"); reflexivity.
Qed.
End OwnEntry.

Section SearchTheorems.
Context `{Ck : Clock, Rn : Rand, Ae : AEAD}.


(** The two early returns of a handler. *)
Lemma returns_bind {S R A} (m : M S R A) (f : A -> M S R R) s :
  returns (x ← m; f x) s =
  match m s with (Ok a, s') => returns (f a) s' | (Err r, s') => (Some r, s') | (Panic, s') => (None, s') end.
Proof. unfold returns. rewrite bind_run. by destruct (m s) as [[] ?]. Qed.

Lemma returns_throw_if {S R} (b : bool) (r : R) (f : unit -> M S R R) (s : S) :
  returns (x ← throw_if b r; f x) s = if b then (Some r, s) else returns (f tt) s.
Proof. rewrite returns_bind. by destruct b. Qed.

(** The account's entry passes the test of [Search] and nothing else that is published does. *)
Lemma own_entries `{Ll : LdapLib, !LdapLibLaws Ll} cfg d r e : config_ok cfg -> accounts_ok d -> r ∈ users (dt d) ->
  published cfg d e -> isAccountOf e (ur_name r) = true -> exists gids, account_entry cfg d r gids e.
Proof.
  intros Hc Hok Hr [Hf|[(x & gids & Hx & He)|(g & h & members & _ & He)]] Hown.
  - by rewrite (fixed_not_account cfg) in Hown.
  - rewrite (account_is_own cfg Hc _ _ _ _ _ He) in Hown. exists gids. assert (x = r) as <-; [|done].
    apply (NoDup_key_inj user_fold (users (dt d))); [apply Hok|done|done|]. unfold user_fold, EqualFold in *. by simp_bool.
  - by rewrite (group_not_account cfg Hc _ _ _ _ _ _ He) in Hown.
Qed.

(** C11: what a search can show. Nothing to a blocked source; to anybody the root of the tree alone,
    and to a stranger only when that is switched on; below it, entries go to a caller whose name
    resolves to an account, the base inside the directory; and without the capability to search that
    base every entry of the answer is the caller's own account. A search changes nothing. *)
Theorem Search_confined `{Ll : LdapLib, !LdapLibLaws Ll} {Session : Type} (cfg : LdapConfig) (boundDN : string)
    (req : SearchRequest) (conn : Conn) (l l' : LServer Session) (es : list Entry) :
  config_ok cfg -> accounts_ok (st_db (ls_st l)) ->
  Search cfg boundDN req conn l = (Some (sr_entries es), l') ->
  let d := st_db (ls_st l) in
  let base := ToLower (TrimSpace (sq_BaseDN req)) in
  st_db (ls_st l') = d /\ fst (Blocked (lc_Limits cfg) (tick 0 l) (sourceAddr conn) (ls_limiter l)) = false /\
  ((base = EmptyString /\ es = [rootDSE cfg EmptyString] /\ (boundDN <> EmptyString \/ lc_AnonymousDSE cfg = true)) \/
   exists r, r ∈ users (dt d) /\ findBindUser cfg d (ToLower boundDN) false = Ok (account d r) /\
     (es = [schema_entry] \/
      HasSuffix base (lc_BaseDN cfg) = true /\ (forall e, e ∈ es -> published cfg d e) /\
      (lc_IgnoreCapabilities cfg = true \/ HasCapability d (account d r) "search" base = Some true \/
       forall e, e ∈ es -> exists gids, account_entry cfg d r gids e))).
Proof.
  intros Hc Hok Hrun d base. revert Hrun. unfold Search, Search_handler, is_blocked.
  rewrite returns_bind, with_limiter_run. unfold tick. rewrite Nat.add_0_r. fold base.
  set (lim := Blocked _ _ _ _). set (l1 := set_limiter (snd lim) _).
  rewrite returns_throw_if. destruct (fst lim) eqn:Eb; [done|].
  destruct (is_empty base) eqn:Ebase.
  { apply is_empty_spec in Ebase. rewrite !returns_throw_if. destruct (negb _); [done|].
    destruct (is_empty (ToLower boundDN) && negb (lc_AnonymousDSE cfg)) eqn:Ea; [done|].
    intros [= <- <-]. split; [done|]. split; [done|]. left. rewrite Ebase. split_and!; [done..|].
    destruct boundDN; [|by left]. cbn in Ea. apply negb_false_iff in Ea. by right. }
  rewrite returns_throw_if. destruct (is_empty (ToLower boundDN)); [done|]. rewrite returns_bind. unfold l_look at 1.
  change (st_db (ls_st l1)) with d. destruct (findBindUser cfg d (ToLower boundDN) false) as [u|code|] eqn:Ef; [|done..].
  destruct (findBindUser_row _ _ _ _ _ Ef) as (r & Hr & ->).
  destruct (String.eqb base "cn=schema").
  { intros [= <- <-]. split; [done|]. split; [done|]. right. exists r. split_and!; [done..|]. by left. }
  rewrite returns_throw_if. destruct (negb (HasSuffix base (lc_BaseDN cfg))) eqn:Es; [done|]. apply negb_false_iff in Es.
  rewrite returns_bind. set (cap := if lc_IgnoreCapabilities cfg then _ else _).
  destruct (cap l1) as [[selfOnly|e|] l2] eqn:Ec; [|intros [= -> <-]; exfalso|done].
  2:{ revert Ec. unfold cap. destruct (lc_IgnoreCapabilities cfg); [done|]. rewrite bind_run. unfold l_look.
      rewrite bind_run. by destruct (HasCapability _ _ _ _). }
  assert (Hcap : l2 = l1 /\ (selfOnly = false -> lc_IgnoreCapabilities cfg = true \/ HasCapability d (account d r) "search" base = Some true)).
  { revert Ec. unfold cap. destruct (lc_IgnoreCapabilities cfg); [intros [= <- <-]; auto|].
    rewrite bind_run. unfold l_look. rewrite bind_run. change (st_db (ls_st l1)) with d.
    destruct (HasCapability _ _ _ _) as [[]|]; [intros [= <- <-]; auto|intros [= <- <-]; done|done]. }
  destruct Hcap as [-> Hcap]. rewrite returns_bind. unfold on_db.
  destruct (candidates cfg base (sq_Scope req) (ls_st l1)) as [[all|e|] s2] eqn:Ecand; [|done..].
  apply candidates_shows in Ecand as [Ed Hall]. change (st_db (ls_st l1)) with d in Ed, Hall.
  intros [= <- <-]. split; [done|]. split; [done|]. right. exists r. split_and!; [done..|]. right.
  split; [done|]. destruct selfOnly.
  - split; [intros e [_ He]%list_elem_of_filter; auto|]. right. right. intros e [Hown He]%list_elem_of_filter.
    apply own_entries; auto.
  - split; [done|]. destruct (Hcap eq_refl) as [?|?]; auto.
Qed.
End SearchTheorems.
