(* ===== verification/LdapWrite.v ===== *)
(** * What a modify or a delete can touch

    A change over LDAP is made for a caller whose name resolves to an account, to the account the
    request names, and with the authority the handler asks for; everything that belongs to other
    accounts and to groups stays as it is. *)

From S2P Require Import Prelude Text Hostport Names Keytab Failban Model Secret IdRange Db Principals PrincipalFacts Directory DirectoryFacts Accounts Certs AccountsOk LdapEntries Ldap LdapFacts LdapSearch.

Create HintDb frames discriminated.

(** Everything but the account with one id. *)
Record others_kept (id : Z) (d d' : DB) : Prop := {
  ok_users : forall x, ur_id x <> id -> x ∈ users (dt d) <-> x ∈ users (dt d');
  ok_groups : groups (dt d') = groups (dt d) /\ group_includes (dt d') = group_includes (dt d);
  ok_members : forall p, fst p <> id -> p ∈ user_groups (dt d) <-> p ∈ user_groups (dt d');
  ok_capabilities : forall k o, (k, o) <> (kind_user, id) -> loadCapabilities d' k o = loadCapabilities d k o;
  ok_attrs : forall k o, (k, o) <> (kind_user, id) -> loadAttrs d' k o = loadAttrs d k o;
}.

Lemma others_refl id d : others_kept id d d.
Proof. done. Qed.

Lemma others_trans id d1 d2 d3 : others_kept id d1 d2 -> others_kept id d2 d3 -> others_kept id d1 d3.
Proof.
  intros [A1 [B1 B1'] C1 D1 E1] [A2 [B2 B2'] C2 D2 E2]. split.
  - intros x Hx. by rewrite A1, A2.
  - split; congruence.
  - intros p Hp. by rewrite C1, C2.
  - intros k o Hk. by rewrite D2, D1.
  - intros k o Hk. by rewrite E2, E1.
Qed.

(** A transaction that touches the one account at most, whatever it returns. *)
Definition frames (id : Z) {A} (m : Tx A) : Prop :=
  forall s r s', m s = (r, s') -> others_kept id (st_db s) (st_db s').

Section Frames.
Context (id : Z) {A B : Type}.

Lemma fr_bind (m : Tx A) (f : A -> Tx B) : frames id m -> (forall a, frames id (f a)) -> frames id (x ← m; f x).
Proof.
  intros Hm Hf s r s'. rewrite bind_run. destruct (m s) as [[a|e|] s1] eqn:E; apply Hm in E.
  - intros E2%Hf. by eapply others_trans.
  - by intros [= _ <-].
  - by intros [= _ <-].
Qed.
Lemma fr_write (m : Tx A) : frames id m -> frames id (write m).
Proof. intros Hm s r s'. unfold write. destruct (m s) as [[a|e|] s1] eqn:E; intros [= _ <-]; [by eapply Hm|apply others_refl..]. Qed.
Lemma fr_still (m : Tx A) : (forall s, st_db (snd (m s)) = st_db s) -> frames id m.
Proof. intros Hm s r s' E. assert (Hs := Hm s). rewrite E in Hs. cbn in Hs. rewrite Hs. apply others_refl. Qed.
Lemma fr_ret (a : A) : frames id (mret a).
Proof. by apply fr_still. Qed.
Lemma fr_lift (o : outcome StoreErr A) : frames id (lift o).
Proof. by apply fr_still. Qed.
Lemma fr_query (f : DB -> A) : frames id (query f).
Proof. by apply fr_still. Qed.
Lemma fr_query_outcome (f : DB -> outcome StoreErr A) : frames id (query_outcome f).
Proof. by apply fr_still. Qed.
Lemma fr_if (b : bool) (m n : Tx A) : frames id m -> frames id n -> frames id (if b then m else n).
Proof. by destruct b. Qed.
End Frames.

Lemma fr_throw_if id b e : frames id (throw_if b e).
Proof. apply fr_lift. Qed.
Lemma fr_time_now `{Clock} id : frames id time_now.
Proof. by apply fr_still. Qed.
Lemma fr_draw id : frames id draw.
Proof. by apply fr_still. Qed.
Lemma fr_update id f : (forall d, others_kept id d (f d)) -> frames id (update f).
Proof. intros Hf s r s' [= _ <-]. apply Hf. Qed.
Lemma fr_exec id f : (forall d d', f d = Ok d' -> others_kept id d d') -> frames id (exec f).
Proof. intros Hf s r s'. unfold exec. destruct (f (st_db s)) as [d| |] eqn:E; intros [= _ <-]; [by apply Hf|apply others_refl..]. Qed.
Lemma fr_for_each id {A} (f : A -> Tx unit) l : (forall x, frames id (f x)) -> frames id (for_each f l).
Proof. intros Hf. induction l as [|x l IH]; cbn [for_each]; [apply fr_ret|]. by apply fr_bind. Qed.
#[export] Hint Resolve fr_bind fr_write fr_ret fr_lift fr_query fr_query_outcome fr_if fr_throw_if fr_time_now
  fr_draw fr_for_each : frames.
#[export] Hint Extern 2 (frames _ (update _)) => apply fr_update; intros ?; by split : frames.
#[export] Hint Extern 2 (frames _ (update_dt _)) => apply fr_update; intros ?; by split : frames.
#[export] Hint Extern 2 (frames _ (update_kt _)) => apply fr_update; intros ?; by split : frames.

(** ** Rows of one account *)

Lemma map_update_others {A} (idf : A -> Z) (f : A -> A) id l x :
  (forall y, idf (f y) = idf y) -> idf x <> id -> x ∈ l <-> x ∈ map (fun r => if idf r =? id then f r else r) l.
Proof.
  intros Hf Hx. rewrite list_elem_of_fmap. split.
  - intros Hin. exists x. by rewrite (proj2 (Z.eqb_neq _ _) Hx).
  - intros (y & E & Hy). destruct (Z.eqb_spec (idf y) id) as [Hy'|]; [|by subst]. subst x. by rewrite Hf in Hx.
Qed.

Lemma filter_others {A} (P Q : A -> Prop) `{!forall x, Decision (P x)} `{!forall x, Decision (Q x)} l rows :
  (forall x, Q x -> P x) -> (forall x, x ∈ rows -> ~ Q x) -> filter Q (filter P l ++ rows) = filter Q l.
Proof.
  intros HPQ Hr. rewrite filter_app, (filter_none Q rows) by done. rewrite app_nil_r, list_filter_filter.
  apply filter_ext_elem. naive_solver.
Qed.

Lemma fr_replace_caps id caps : frames id (replaceCapabilities kind_user id caps).
Proof.
  unfold replaceCapabilities. intros s r s'. rewrite bind_run. cbn. intros [= _ <-]. cbn. split; cbn; try done.
  intros k o Hk. unfold loadCapabilities. cbn. f_equal. apply filter_others.
  - intros x [<- <-] [E1 E2]. apply Hk. by rewrite E1, E2.
  - intros x (c & -> & _)%list_elem_of_fmap [<- <-]. by apply Hk.
Qed.

Lemma fr_replace_attrs id attrs : frames id (replaceAttrs kind_user id attrs).
Proof.
  unfold replaceAttrs. apply fr_bind; [apply fr_lift|]. intros _. unfold deleteAttrs.
  intros s r s'. rewrite bind_run. cbn. intros [= _ <-]. cbn. split; cbn; try done.
  intros k o Hk. unfold loadAttrs, owned_attrs. cbn. do 2 f_equal. apply filter_others.
  - intros x [<- <-] [E1 E2]. apply Hk. by rewrite E1, E2.
  - intros x Hx. unfold attr_rows in Hx. apply list_elem_of_bind in Hx as (n & Hx & _).
    apply elem_of_lookup_imap in Hx as (i & v & -> & _). cbn. intros [<- <-]. by apply Hk.
Qed.

Lemma insert_ignore_elem x t p : p ∈ insert_ignore x t <-> p = x \/ p ∈ t.
Proof. unfold insert_ignore. case_bool_decide; [naive_solver|]. rewrite elem_of_app, list_elem_of_singleton. naive_solver. Qed.

Lemma insert_groups_others (id : Z) gids t p : fst p <> id ->
  p ∈ t <-> p ∈ fold_left (fun t gid => insert_ignore (id, gid) t) gids t.
Proof.
  intros Hp. revert t. induction gids as [|g gids IH]; intros t; [done|]. cbn [fold_left]. rewrite <- IH, insert_ignore_elem.
  split; [naive_solver|]. intros [->|?]; done.
Qed.

Lemma fr_children u : frames (u_ID u) (writeUserChildren u).
Proof.
  unfold writeUserChildren.
  apply fr_bind; [|intros _; apply fr_bind; [|intros _; auto 10 using fr_replace_attrs, fr_replace_caps with frames]].
  - apply fr_update. intros d. split; cbn; try done. intros p Hp. rewrite list_elem_of_filter. naive_solver.
  - apply fr_update. intros d. split; cbn; try done. intros p Hp. by apply insert_groups_others.
Qed.

Lemma fr_update_user u now : frames (u_ID u) (exec (update_user_row u now)).
Proof.
  apply fr_exec. intros d d'. unfold update_user_row. case_match; [done|]. intros [= <-]. split; cbn; try done.
  intros x Hx. by apply (map_update_others ur_id).
Qed.

Lemma fr_rename id uid name now : frames id (exec (rename_principals uid name now)).
Proof. apply fr_exec. intros d d'. unfold rename_principals. case_match; [|done]. intros [= <-]. by split. Qed.

Lemma fr_release id kind owner : frames id (releaseRID kind owner).
Proof. unfold releaseRID. auto with frames. Qed.

Lemma fr_insert_rid id rid kind owner now : frames id (insert_rid rid kind owner now).
Proof. intros s r s'. unfold insert_rid. case_match; intros [= _ <-]; by split. Qed.

Lemma fr_allocate `{Clock} id kind owner posix : frames id (allocateRID kind owner posix).
Proof.
  unfold allocateRID. apply fr_bind; [by apply fr_still|]. intros range. case_match; [apply fr_ret|].
  destruct (rids range posix). auto 10 using fr_insert_rid with frames.
Qed.

(** ** The operations on one account *)

(** A transaction that finds an account by name and touches it at most, or nothing. *)
Definition touches_named (name : string) (s s' : St) : Prop :=
  st_db s' = st_db s \/
  exists x, x ∈ users (dt (st_db s)) /\ user_named name x = true /\ others_kept (ur_id x) (st_db s) (st_db s').

Lemma write_named {A} name (rest : User -> Tx A) s r s' :
  (forall u, frames (u_ID u) (rest u)) ->
  write (u ← query_outcome (fun d => getUser d (user_named name)); rest u) s = (r, s') -> touches_named name s s'.
Proof.
  intros Hrest. unfold write. rewrite bind_run. unfold query_outcome.
  destruct (getUser (st_db s) (user_named name)) as [u|e|] eqn:Eu; [|intros [= _ <-]; by left..].
  apply getUser_row in Eu as (x & Hx & Hn & ->).
  destruct (rest _ s) as [[a|e|] s1] eqn:E; intros [= _ <-]; [|by left..].
  right. exists x. split_and!; [done..|]. by apply Hrest in E.
Qed.

Section Operations.
Context `{Ck : Clock, Rn : Rand, Ae : AEAD, Bc : Bcrypt, El : EncTypeLib}.

Lemma fr_insert_key id pid kvno now i k : frames id (insert_key pid kvno now i k).
Proof.
  unfold insert_key. apply fr_bind; [apply fr_draw|]. intros n. apply fr_exec. intros d d'. case_match; [done|].
  intros [= <-]. by split.
Qed.
Lemma fr_insert_keys id pid kvno now keys i : frames id (insert_keys pid kvno now i keys).
Proof. revert i. induction keys as [|k keys IH]; intros i; cbn [insert_keys]; auto using fr_insert_key with frames. Qed.
Lemma fr_rekey id password etypes expires now p : frames id (rekey password etypes expires now p).
Proof. unfold rekey, rollKeys, writeKeys. auto 20 using fr_insert_keys with frames. Qed.

Lemma fr_set_digest id hash now : frames id (set_digest id hash now).
Proof. apply fr_update. intros d. split; cbn; try done. intros x Hx. by apply (map_update_others ur_id). Qed.

Lemma SetUserPassword_touches cost name pw etypes expires s r s' :
  SetUserPassword cost name pw etypes expires s = (r, s') -> touches_named name s s'.
Proof.
  unfold SetUserPassword. rewrite bind_run.
  assert (Hh : st_db (snd (hashPassword pw cost s)) = st_db s).
  { unfold hashPassword. rewrite bind_run. by destruct (72 <? String.length pw)%nat. }
  destruct (hashPassword pw cost s) as [[h|e|] s1] eqn:E; cbn in Hh; [|intros [= _ <-]; by left..].
  intros Hw. apply write_named in Hw.
  - unfold touches_named in *. by rewrite Hh in Hw.
  - intros u. unfold principalsForUserTx. auto 20 using fr_set_digest, fr_rekey with frames.
Qed.

Lemma UpdateUser_touches name mutate s r s' :
  (forall u v, mutate u = Ok v -> u_ID v = u_ID u) ->
  UpdateUser name mutate s = (r, s') -> touches_named name s s'.
Proof.
  intros Hm. unfold UpdateUser. apply write_named. intros u s0 r0 s0'. rewrite bind_run. unfold lift.
  destruct (mutate u) as [v|e|] eqn:Ev; [|intros [= _ <-]; apply others_refl..].
  rewrite <- (Hm _ _ Ev). revert s0 r0 s0'.
  match goal with |- forall s r s', ?m s = _ -> _ => change (frames (u_ID v) m) end.
  unfold reallocateRID. auto 20 using fr_update_user, fr_children, fr_rename, fr_release, fr_allocate with frames.
Qed.

Lemma DeleteUser_touches name s r s' : DeleteUser name s = (r, s') -> touches_named name s s'.
Proof.
  unfold DeleteUser. apply write_named. intros u. unfold deleteAttrs.
  apply fr_bind; [|intros _; apply fr_bind; [apply fr_release|intros _; apply fr_bind; [|intros _]]].
  - apply fr_update. intros d. split; cbn; try done. intros k o Hk. unfold loadCapabilities. cbn. f_equal.
    rewrite list_filter_filter. apply filter_ext_elem. intros x _. split; [tauto|]. intros [<- <-]. split; [done|].
    intros [E1 E2]. apply Hk. by rewrite E1, E2.
  - apply fr_update. intros d. split; cbn; try done. intros k o Hk. unfold loadAttrs, owned_attrs. cbn. do 2 f_equal.
    rewrite list_filter_filter. apply filter_ext_elem. intros x _. split; [tauto|]. intros [<- <-]. split; [done|].
    intros [E1 E2]. apply Hk. by rewrite E1, E2.
  - apply fr_update. intros d. split; cbn; try done.
    + intros x Hx. rewrite list_elem_of_filter. naive_solver.
    + intros p Hp. rewrite list_elem_of_filter. naive_solver.
Qed.

(** Deleting a group leaves the accounts and the other groups. *)
Definition group_removed (name : string) (s s' : St) : Prop :=
  st_db s' = st_db s \/
  exists g, g ∈ groups (dt (st_db s)) /\ group_named name g = true /\ users (dt (st_db s')) = users (dt (st_db s)) /\
    forall x, gr_id x <> gr_id g -> x ∈ groups (dt (st_db s)) <-> x ∈ groups (dt (st_db s')).

Lemma DeleteGroup_removes name s r s' : DeleteGroup name s = (r, s') -> group_removed name s s'.
Proof.
  unfold DeleteGroup, write. destruct ((_ ← query_outcome _; _) s) as [[a|e|] s1] eqn:E; intros [= _ <-]; [|by left..].
  right. unfold query_outcome, deleteAttrs, releaseRID in E. run_inv.
  match goal with H : (getGroup _ _, _) = _ |- _ => injection H as Hg <-; unfold getGroup in Hg end. run_inv.
  match goal with H : List.find _ _ = Some ?x |- _ => apply find_Some_elem in H as [Hin Hn]; exists x end.
  match goal with H : query _ _ = _ |- _ => apply query_Ok in H as [-> ->] end.
  repeat match goal with H : update_dt _ _ = _ |- _ => apply update_Ok in H; subst end.
  split_and!; [done..|]. intros x Hx. cbn. rewrite list_elem_of_filter. naive_solver.
Qed.
End Operations.

(** Two changes of the account a name names are changes of one account. *)
Lemma touches_twice name s s1 s2 : accounts_ok (st_db s) ->
  touches_named name s s1 -> touches_named name s1 s2 -> touches_named name s s2.
Proof.
  intros Hok [E1|(x & Hx & Hn & H1)] [E2|(y & Hy & Hm & H2)].
  - left. congruence.
  - rewrite E1 in *. right. eauto.
  - rewrite <- E2 in *. right. eauto.
  - right. exists x. split_and!; [done..|]. destruct (decide (ur_id y = ur_id x)) as [E|E].
    + rewrite E in H2. by eapply others_trans.
    + exfalso. apply (ok_users _ _ _ H1) in Hy; [|done]. apply E. f_equal.
      apply (NoDup_key_inj user_fold (users (dt (st_db s)))); [apply Hok|done|done|].
      unfold user_named, EqualFold, user_fold in *. simp_bool. congruence.
Qed.

(** ** Changes to a user *)

Lemma apply_change_keeps u name values v : apply_change u name values = Ok v ->
  u_ID v = u_ID u /\ u_Name v = u_Name u /\ u_Capabilities v = u_Capabilities u /\ u_OtherGroups v = u_OtherGroups u /\
  u_PassBcrypt v = u_PassBcrypt u /\ u_OTPSecret v = u_OTPSecret u.
Proof.
  unfold apply_change. cbn zeta. repeat case_if; intros Hrun; run_inv; try (injection Hrun as <-); by split_and!.
Qed.

Lemma apply_changes_keeps l u v : apply_changes l u = Ok v ->
  u_ID v = u_ID u /\ u_Name v = u_Name u /\ u_Capabilities v = u_Capabilities u /\ u_OtherGroups v = u_OtherGroups u /\
  u_PassBcrypt v = u_PassBcrypt u /\ u_OTPSecret v = u_OTPSecret u.
Proof.
  revert u. induction l as [|[n vs] l IH]; intros u; cbn [apply_changes]; intros Hrun; run_inv; [by split_and!|].
  apply IH in Hrun as (-> & -> & -> & -> & -> & ->). by eapply apply_change_keeps.
Qed.

Section Authority.
Context {Session : Type} `{Ck : Clock, Rn : Rand, Ae : AEAD, Bc : Bcrypt, Tt : Totp, El : EncTypeLib, Mr : MapRange}.
Context (cfg : LdapConfig).

(** The caller of a write: an account, resolved from the name the connection is bound as. *)
Lemma the_actor_run boundDN (l : LServer Session) :
  let d := st_db (ls_st l) in
  match the_actor cfg boundDN l with
  | (Ok u, l') => l' = l /\ exists a, a ∈ users (dt d) /\ u = account d a /\ findBindUser cfg d (ToLower boundDN) false = Ok u
  | (_, l') => l' = l
  end.
Proof.
  intros d. unfold the_actor. rewrite bind_run. unfold l_look, lift. cbn beta iota. fold d.
  destruct (findBindUser cfg d (ToLower boundDN) false) as [u|e|] eqn:E; [|done..]. split; [done|].
  destruct (findBindUser_row _ _ _ _ _ E) as (a & Ha & ->). by exists a.
Qed.

Lemma may_write_run actor dn (l : LServer Session) :
  match may_write actor dn l with
  | (Ok _, l') => l' = l /\ HasCapability (st_db (ls_st l)) actor "write" dn = Some true
  | (_, l') => l' = l
  end.
Proof.
  unfold may_write. rewrite bind_run. unfold l_look. rewrite bind_run. cbn beta iota.
  by destruct (HasCapability (st_db (ls_st l)) actor "write" dn) as [[]|].
Qed.

(** Who may make a change, and what it changed. *)
Definition authorized (boundDN dn : string) (self : bool) (d : DB) (kind : dn_kind) (name : string) : Prop :=
  exists a, a ∈ users (dt d) /\ findBindUser cfg d (ToLower boundDN) false = Ok (account d a) /\
    classifyDN cfg dn = Some (kind, name) /\
    ((self = true /\ kind = dn_user /\ EqualFold name (ur_name a) = true) \/ HasCapability d (account d a) "write" dn = Some true).

(** The part of [Modify] after the authority is settled. *)
Lemma modify_tail_touches name changes (l : LServer Session) r l' : accounts_ok (st_db (ls_st l)) ->
  returns (changes ← (match changes !! "userpassword" with
                 | Some (Some (pw :: _)) =>
                     r ← on_db (SetUserPassword (lc_HashCost cfg) name pw (lc_EncTypes cfg) None);
                     match r with
                     | Ok _ => mret (delete "userpassword" changes)
                     | Err _ => throw LDAPResultOperationsError
                     | Panic => lift Panic
                     end
                 | _ => mret changes
                 end);
      if bool_decide ((changes : Changes) = ∅) then mret LDAPResultSuccess
      else
        r ← on_db (UpdateUser name (applyUserChanges changes));
        match r with
        | Ok _ => mret LDAPResultSuccess
        | Err e => throw (update_code e)
        | Panic => lift Panic
        end) l = (r, l') -> touches_named name (ls_st l) (ls_st l').
Proof.
  intros Hok. rewrite returns_bind. set (m := match _ with Some _ => _ | None => _ end).
  assert (Hm : touches_named name (ls_st l) (ls_st (snd (m l)))).
  { unfold m. destruct (changes !! "userpassword") as [[[|pw vs]|]|]; try (by left).
    rewrite bind_run. unfold on_db. destruct (SetUserPassword _ _ _ _ _ _) as [r0 s0] eqn:E.
    apply SetUserPassword_touches in E. by destruct r0. }
  destruct (m l) as [[ch|e|] l1] eqn:Em; cbn [snd] in Hm; [|intros [= _ <-]; done..].
  destruct (bool_decide (ch = ∅)); [intros [= _ <-]; done|]. rewrite returns_bind. unfold on_db.
  destruct (UpdateUser name _ (ls_st l1)) as [r1 s1] eqn:E. apply UpdateUser_touches in E.
  2:{ intros u v Huv. by apply apply_changes_keeps in Huv as [-> _]. }
  assert (H2 := touches_twice _ _ _ _ Hok Hm E). destruct r1; intros [= _ <-]; done.
Qed.

(** C10: a modify over LDAP changes the directory only for a caller whose name resolves to an account,
    on an entry that names an account, and only when that account is the caller's own or the caller
    may write the entry; and then it touches that one account: other accounts, their groups, every
    group, and the capabilities and attributes of all of them stay as they were. *)
Theorem Modify_authorized (boundDN : string) (req : ModifyRequest) (l l' : LServer Session) (r : option ResultCode) :
  accounts_ok (st_db (ls_st l)) -> Modify cfg boundDN req l = (r, l') ->
  let d := st_db (ls_st l) in
  let d' := st_db (ls_st l') in
  d' = d \/
  exists name x, authorized boundDN (ToLower (TrimSpace (mq_Dn req))) true d dn_user name /\
    x ∈ users (dt d) /\ user_named name x = true /\ others_kept (ur_id x) d d'.
Proof.
  intros Hok Hrun d d'. revert Hrun. unfold Modify, Modify_handler. rewrite returns_bind.
  assert (Ha := the_actor_run boundDN l). cbn zeta in Ha. destruct (the_actor cfg boundDN l) as [[u|e|] l1]; [|intros [= _ <-]; subst; by left..].
  destruct Ha as (-> & a & Ha & -> & Hf). set (dn := ToLower (TrimSpace (mq_Dn req))). rewrite returns_bind. unfold lift at 1.
  destruct (classifyDN cfg dn) as [[kind name]|] eqn:Ec; cbn [or_err]; [|intros [= _ <-]; by left].
  rewrite returns_bind. set (self := match kind with dn_user => _ | dn_group => _ end).
  set (m := if self then _ else _).
  assert (Hm : match m l with
               | (Ok _, l2) => l2 = l /\ (self = true \/ HasCapability d (account d a) "write" dn = Some true)
               | (_, l2) => l2 = l end).
  { unfold m. destruct self; [by split; [|left]|]. assert (Hw := may_write_run (account d a) dn l).
    destruct (may_write _ _ l) as [[] ?]; naive_solver. }
  destruct (m l) as [[[]|e|] l2]; [|intros [= _ <-]; subst; by left..]. destruct Hm as [-> Hm].
  destruct kind; [|intros [= _ <-]; by left].
  intros Htail. apply modify_tail_touches in Htail; [|done]. destruct Htail as [?|(x & Hx & Hn & Hkept)]; [by left|].
  right. exists name, x. split_and!; [|done..]. exists a. split_and!; [done..|]. destruct Hm as [Hs|]; [left; by split_and!|by right].
Qed.

(** A delete over LDAP removes something only for a caller whose name resolves to an account that
    may write the entry, the caller's own entry included; it removes the account or the group the
    entry names, and leaves every other account or group. *)
Lemma Delete_authorized (boundDN deleteDN : string) (l l' : LServer Session) (r : option ResultCode) :
  Delete cfg boundDN deleteDN l = (r, l') ->
  st_db (ls_st l') = st_db (ls_st l) \/
  exists kind name, authorized boundDN (ToLower (TrimSpace deleteDN)) false (st_db (ls_st l)) kind name /\
    match kind with
    | dn_user => touches_named name (ls_st l) (ls_st l')
    | dn_group => group_removed name (ls_st l) (ls_st l')
    end.
Proof.
  unfold Delete, Delete_handler. rewrite returns_bind.
  assert (Ha := the_actor_run boundDN l). cbn zeta in Ha. destruct (the_actor cfg boundDN l) as [[u|e|] l1]; [|intros [= _ <-]; subst; by left..].
  destruct Ha as (-> & a & Ha & -> & Hf). set (dn := ToLower (TrimSpace deleteDN)). rewrite returns_bind. unfold lift at 1.
  destruct (classifyDN cfg dn) as [[kind name]|] eqn:Ec; cbn [or_err]; [|intros [= _ <-]; by left].
  rewrite returns_bind. assert (Hw := may_write_run (account (st_db (ls_st l)) a) dn l).
  destruct (may_write _ dn l) as [[[]|e|] l2]; [|intros [= _ <-]; subst; by left..]. destruct Hw as [-> Hw].
  rewrite returns_bind. unfold on_db.
  assert (Hauth : authorized boundDN dn false (st_db (ls_st l)) kind name) by (exists a; split_and!; auto).
  destruct kind.
  - destruct (DeleteUser name (ls_st l)) as [r1 s1] eqn:E. apply DeleteUser_touches in E.
    destruct r1 as [[]|[]|]; intros [= _ <-]; right; by exists dn_user, name.
  - destruct (DeleteGroup name (ls_st l)) as [r1 s1] eqn:E. apply DeleteGroup_removes in E.
    destruct r1 as [[]|[]|]; intros [= _ <-]; right; by exists dn_group, name.
Qed.
End Authority.

(** ** The order a map is ranged over *)

Definition schema_names : list string :=
  ["givenname"; "sn"; "mail"; "loginshell"; "homedirectory"; "accountstatus"; "uidnumber"; "gidnumber";
   "sshpublickey"; "ipasshpubkey"].
Definition ssh_names : list string := ["sshpublickey"; "ipasshpubkey"].

(** What a change of an attribute the schema does not name does. *)
Definition with_custom (f : gmap string (list string) -> gmap string (list string)) (u : User) : User :=
  with_attrs (u_GivenName u) (u_SN u) (u_Mail u) (u_LoginShell u) (u_Homedir u) (u_Disabled u) (u_UIDNumber u)
    (u_PrimaryGroup u) (u_SSHKeys u) (f (u_CustomAttrs u)) u.
Definition custom_change (name : string) (values : option (list string)) : gmap string (list string) -> gmap string (list string) :=
  match values with None => delete name | Some vs => <[name := vs]> end.

Lemma apply_change_custom u name values : name ∉ schema_names ->
  apply_change u name values = Ok (with_custom (custom_change name values) u).
Proof.
  intros Hn. unfold apply_change. cbn zeta.
  assert (Hne : forall x, x ∈ schema_names -> String.eqb name x = false) by (intros x Hx; apply String.eqb_neq; by intros ->).
  rewrite !Hne by (apply (bool_decide_unpack _); vm_compute; reflexivity). cbn [orb]. by destruct values.
Qed.

Lemma custom_change_comm n m vn vm (c : gmap string (list string)) : n <> m ->
  custom_change n vn (custom_change m vm c) = custom_change m vm (custom_change n vn c).
Proof.
  intros Hne. unfold custom_change. destruct vn, vm.
  - by rewrite insert_insert_ne.
  - by rewrite delete_insert_ne by done.
  - by rewrite delete_insert_ne by done.
  - apply delete_delete.
Qed.

(** A change of a schema attribute does not see a custom one. *)
Lemma apply_change_with_custom n vn f u : n ∈ schema_names ->
  apply_change (with_custom f u) n vn = (u1 ← apply_change u n vn; Ok (with_custom f u1)).
Proof.
  unfold schema_names. rewrite !elem_of_cons. unfold apply_change.
  intros [->|[->|[->|[->|[->|[->|[->|[->|[->|[->|[]%elem_of_nil]]]]]]]]]]; try reflexivity;
    cbn zeta; cbn [String.eqb Ascii.eqb Bool.eqb orb]; by destruct (Atoi _).
Qed.

Lemma apply_change_schema_custom n m vn vm u : n ∈ schema_names -> m ∉ schema_names ->
  (u1 ← apply_change u n vn; apply_change u1 m vm) = (u1 ← apply_change u m vm; apply_change u1 n vn).
Proof.
  intros Hn Hm. rewrite (apply_change_custom u m) by done.
  change (u1 ← Ok ?v; apply_change u1 n vn) with (apply_change v n vn). rewrite apply_change_with_custom by done.
  destruct (apply_change u n vn) as [u1|e|]; [|done..]. by apply apply_change_custom.
Qed.

(** Two changes of different attributes can be made in either order, except that the SSH keys have
    two names. *)
Lemma apply_change_comm n m vn vm u : n <> m -> ~ (n ∈ ssh_names /\ m ∈ ssh_names) ->
  (u1 ← apply_change u n vn; apply_change u1 m vm) = (u1 ← apply_change u m vm; apply_change u1 n vn).
Proof.
  intros Hne Hssh. destruct (decide (n ∈ schema_names)) as [Hn|Hn], (decide (m ∈ schema_names)) as [Hm|Hm].
  - unfold schema_names in Hn, Hm. rewrite !elem_of_cons in Hn. rewrite !elem_of_cons in Hm.
    destruct Hn as [->|[->|[->|[->|[->|[->|[->|[->|[->|[->|[]%elem_of_nil]]]]]]]]]],
      Hm as [->|[->|[->|[->|[->|[->|[->|[->|[->|[->|[]%elem_of_nil]]]]]]]]]];
      try done; try reflexivity;
      try (unfold apply_change; cbn zeta; cbn [String.eqb Ascii.eqb Bool.eqb orb];
           repeat destruct (Atoi _); reflexivity);
      (exfalso; apply Hssh; split; apply (bool_decide_unpack _); vm_compute; reflexivity).
  - by apply apply_change_schema_custom.
  - symmetry. by apply apply_change_schema_custom.
  - rewrite !apply_change_custom by done. cbn [mbind outcome_bind].
    change (u1 ← Ok ?v; ?f u1) with (f v). rewrite !apply_change_custom by done.
    unfold with_custom. cbn. by rewrite custom_change_comm.
Qed.

Lemma outcome_bind_assoc {E A B C} (o : outcome E A) (f : A -> outcome E B) (g : B -> outcome E C) :
  (x ← o; y ← f x; g y) = (y ← (x ← o; f x); g y).
Proof. by destruct o. Qed.

Lemma apply_changes_perm l l' : l ≡ₚ l' -> NoDup l.*1 ->
  ~ ("sshpublickey" ∈ l.*1 /\ "ipasshpubkey" ∈ l.*1) -> forall u, apply_changes l u = apply_changes l' u.
Proof.
  induction 1 as [|[n v] l l' Hp IH|[n v] [m w] l|l1 l2 l3 Hp1 IH1 Hp2 IH2]; intros Hnd Hssh u.
  - done.
  - cbn [apply_changes]. rewrite fmap_cons in Hnd. apply NoDup_cons in Hnd as [_ Hnd].
    destruct (apply_change u n v) as [u1|e|]; [|done..]. apply IH; [done|]. intros [H1 H2]. apply Hssh.
    split; rewrite fmap_cons; by right.
  - cbn [apply_changes]. rewrite !fmap_cons in Hnd. apply NoDup_cons in Hnd as [Hn _]. cbn in Hn.
    assert (Hc : (u1 ← apply_change u n v; apply_change u1 m w) = (u1 ← apply_change u m w; apply_change u1 n v)).
    { apply apply_change_comm; [intros ->; apply Hn; left|]. intros [H1 H2]. apply Hssh. rewrite !fmap_cons. cbn [fst].
      unfold ssh_names in H1, H2. rewrite !elem_of_cons in H1. rewrite !elem_of_cons in H2. rewrite !elem_of_cons in *.
      rewrite elem_of_nil in *. naive_solver. }
    rewrite !outcome_bind_assoc. by rewrite Hc.
  - rewrite IH1 by done. apply IH2.
    + by rewrite <- Hp1.
    + by rewrite <- Hp1.
Qed.

(** What a modify writes does not depend on the order Go happens to range over the changes in, as
    long as the request does not set the SSH keys under both of their names. *)
Lemma modify_order_irrelevant (Mr1 Mr2 : MapRange) (changes : Changes) (u : User) :
  MapRangeLaws Mr1 -> MapRangeLaws Mr2 ->
  ~ (is_Some (changes !! "sshpublickey") /\ is_Some (changes !! "ipasshpubkey")) ->
  applyUserChanges (Mr := Mr1) changes u = applyUserChanges (Mr := Mr2) changes u.
Proof.
  intros H1 H2 Hssh. unfold applyUserChanges. apply apply_changes_perm.
  - by rewrite (H1 _ changes), (H2 _ changes).
  - rewrite (H1 _ changes). apply NoDup_fst_map_to_list.
  - intros [E1 E2]. apply Hssh. rewrite (H1 _ changes) in E1, E2.
    assert (Hin : forall n, n ∈ (map_to_list changes).*1 -> is_Some (changes !! n)).
    { intros n ([k v] & -> & Hkv%elem_of_map_to_list)%list_elem_of_fmap. by exists v. }
    split; by apply Hin.
Qed.
