(* ===== verification/Sasl.v ===== *)
(** * SASL GSSAPI binds: package [ldapsrv], sasl.go

    The three legs of a bind with a Kerberos ticket, the handshakes in flight kept per connection,
    the account a principal binds as, and the service principal the directory keys itself with. The
    token, the security context and the verification of a ticket are the Kerberos library's. *)

From S2P Require Import Prelude Text Names Keytab Failban Model Secret IdRange Db Principals Directory Accounts Certs LdapEntries Ldap.

(** The packages spnego, gssapi, service and keytab of go-krb5. A token after [VerifyAPREQ] has its
    ticket decrypted; what the library keeps for itself, a replay cache and its clock, is the first
    argument, the moment of the call. *)
Class SaslLib : Type := {
  Session : Type;
  KRB5Token : Type;
  Keytab : Type;
  token_Unmarshal : bytes -> option KRB5Token;
  IsAPReq : KRB5Token -> bool;
  keytab_Unmarshal : bytes -> option Keytab;
  VerifyAPREQ : nat -> Keytab -> string -> KRB5Token -> option (KRB5Token * string);
  APRepToken : nat -> KRB5Token -> option bytes;
  ticket_Key : KRB5Token -> EncryptionKey;
  authenticator_SubKey : KRB5Token -> EncryptionKey;
  authenticator_SeqNumber : KRB5Token -> Z;
  NewSecurityLayerSession : EncryptionKey -> Z -> option Session;
  Wrap : Session -> bytes -> option (bytes * Session);
  Unwrap : Session -> bytes -> option bytes;
  SecurityLayerNone : Z;
}.

Definition saslHandshakeTimeout : Duration := 60 * second.

Record SaslReply : Type := mkSaslReply { sy_code : ResultCode; sy_token : option bytes; sy_dn : string }.

Definition refuse (code : ResultCode) : SaslReply := mkSaslReply code None EmptyString.

Inductive SpnError : Type :=
| spn_name (e : NameError)
| spn_shape
| spn_realm
| spn_account
| spn_keys
| spn_store (e : StoreErr).

Section Sasl.
Context `{Ck : Clock, Rn : Rand, Ae : AEAD, El : EncTypeLib, Mr : MapRange, Sl : SaslLib} (cfg : LdapConfig).

Abbreviation L := (M (LServer Session) SaslReply).

(** ** The handshakes in flight *)

Definition in_flight : L (gmap string (saslExchange Session)) := fun s => (Ok (ls_exchanges s), s).
Definition set_in_flight (f : gmap string (saslExchange Session) -> gmap string (saslExchange Session)) : L unit := fun s =>
  (Ok tt, set_exchanges f s).

Fixpoint sweep_exchanges (l : list (string * saslExchange Session)) : L unit :=
  match l with
  | [] => mret tt
  | (c, ex) :: l' =>
      now ← l_now;
      _ ← (if saslHandshakeTimeout <? Sub now (ex_started ex) then set_in_flight (delete c) else mret tt);
      sweep_exchanges l'
  end.

Definition exchange (conn : Conn) : L (option (saslExchange Session)) :=
  all ← in_flight;
  _ ← sweep_exchanges (map_range _ all);
  all ← in_flight;
  mret (all !! cn_id conn).

Definition rememberExchange (conn : Conn) (ex : saslExchange Session) : L unit := set_in_flight (<[cn_id conn := ex]>).
Definition forgetExchange (conn : Conn) : L unit := set_in_flight (delete (cn_id conn)).

(** The moment of a call of the library. *)
Definition moment : L nat := fun s => (Ok (st_tick (ls_st s)), s).

(** ** The service's keys *)

(** The entries of one generation of keys, each with the time it was written down. *)
Fixpoint keytab_entries (name : Name) (kvno : Z) (keys : list Key) : Tx (list KeytabEntry) :=
  match keys with
  | [] => mret []
  | k :: keys' => now ← time_now; rest ← keytab_entries name kvno keys'; mret (mkKeytabEntry name kvno k now :: rest)
  end.

(** The version before the current one, when its keys are still there. *)
Definition previous_keys (name : Name) (kvno : Z) : Tx (list Key) := fun s =>
  if 1 <? kvno then
    match GetPrincipalKVNO name (kvno - 1) s with
    | (Ok prev, s') => (Ok (p_Keys prev), s')
    | (Err _, s') => (Ok [], s')
    | (Panic, s') => (Panic, s')
    end
  else (Ok [], s).

Definition marshalled (entries : list KeytabEntry) : Tx bytes := fun s =>
  (match MarshalKeytab (fun i => clock (st_tick s + i)) entries with
   | Ok b => Ok b | Err _ => Err ErrMutate | Panic => Panic end, s).

Definition serviceKeytab : Tx Keytab :=
  name ← lift (match ParseName (lc_SPN cfg) (lc_Realm cfg) with Ok n => Ok n | Err e => Err (ErrParseName e) | Panic => Panic end);
  p ← GetPrincipal name;
  prev ← previous_keys name (p_KVNO p);
  current ← keytab_entries name (p_KVNO p) (p_Keys p);
  older ← keytab_entries name (p_KVNO p - 1) prev;
  raw ← marshalled (current ++ older);
  lift (or_err ErrMutate (keytab_Unmarshal raw)).

(** The service principal of a name that is right, created when it is missing. *)
Definition ensure_spn (etypes : list Z) (name : Name) : M St SpnError unit := fun s =>
  match GetPrincipal name s with
  | (Ok p, s1) => (match p_UserID p with Some _ => Err spn_account | None => Ok tt end, s1)
  | (Panic, s1) => (Panic, s1)
  | (Err ErrNotFound, s1) =>
      match random_keys etypes s1 with
      | (Ok keys, s2) =>
          let p := {|
            p_ID := 0; p_Name := Principal_of name; p_Realm := Realm name; p_UserID := None; p_UserName := "";
            p_KVNO := 0; p_Enabled := true; p_RequiresPreAuth := true; p_AllowForwardable := false;
            p_AllowProxiable := false; p_AllowRenewable := false; p_AllowPostdate := false; p_OKAsDelegate := false;
            p_OKToAuthAsDelegate := false; p_AllowedToDelegateTo := []; p_Aliases := [];
            p_AllowedToImpersonate := []; p_MaxTicketLife := 0; p_MaxRenewableLife := 0;
            p_PasswordLastSet := None; p_PasswordExpiresAt := None; p_ExpiresAt := None; p_LockedUntil := None;
            p_FailCount := 0; p_LastSuccess := None; p_LastFailure := None; p_CreatedAt := zeroTime;
            p_UpdatedAt := zeroTime; p_Keys := [] |} in
          match CreatePrincipal p keys s2 with
          | (Ok _, s3) => (Ok tt, s3)
          | (Err e, s3) => (Err (spn_store e), s3)
          | (Panic, s3) => (Panic, s3)
          end
      | (Err _, s2) => (Err spn_keys, s2)
      | (Panic, s2) => (Panic, s2)
      end
  | (Err e, s1) => (Err (spn_store e), s1)
  end.

Definition EnsureServicePrincipal : M St SpnError unit :=
  if is_empty (lc_SPN cfg) then mret tt
  else
    name ← lift (match ParseName (lc_SPN cfg) (lc_Realm cfg) with Ok n => Ok n | Err e => Err (spn_name e) | Panic => Panic end);
    _ ← throw_if (match Components name with [c; _] => negb (EqualFold c "ldap") | _ => true end) spn_shape;
    _ ← throw_if (negb (EqualFold (Realm name) (lc_Realm cfg))) spn_realm;
    ensure_spn (lc_EncTypes cfg) name.

(** ** The account a principal binds as *)

(** [None] for a principal that is nobody's account here. *)
Definition accountForPrincipal (d : DB) (principal : string) : outcome StoreErr (option (User * string)) :=
  match ParseName principal (lc_Realm cfg) with
  | Panic => Panic
  | Err _ => Ok None
  | Ok name =>
      account ← (if (1 <? List.length (Components name))%nat then
                   match getPrincipal d name 0 with
                   | Ok p => Ok (if is_empty (p_UserName p) then None else Some (p_UserName p))
                   | Err _ => Ok None
                   | Panic => Panic
                   end
                 else Ok (Some (Join "/" (Components name))));
      match account with
      | None => Ok None
      | Some account =>
          match getUser d (user_named account) with
          | Err _ => Ok None
          | Panic => Panic
          | Ok user =>
              if u_Disabled user then Ok None
              else
                group ← getGroup d (fun r => gr_gid_number r =? u_PrimaryGroup user);
                Ok (Some (user, ToLower (entry_UserDN cfg user (g_Name group))))
          end
      end
  end.

(** ** The legs *)

(** RFC 4121: the subkey of the authenticator when there is one, and its sequence number. *)
Definition saslSession (tok : KRB5Token) : option Session :=
  let sub := authenticator_SubKey tok in
  let key := if (0 <? List.length (KeyValue sub))%nat then sub else ticket_Key tok in
  if (List.length (KeyValue key) =? 0)%nat then None
  else NewSecurityLayerSession key (Z.max 0 (authenticator_SeqNumber tok)).

Definition saslAccept (conn : Conn) (credentials : bytes) (src : string) : L SaslReply :=
  let fail := (_ ← note_failure (lc_Limits cfg) src; throw (refuse LDAPResultInvalidCredentials)) : L (KRB5Token * string) in
  kt ← on_db serviceKeytab;
  kt ← lift (match kt with Ok kt => Ok kt | Err _ => Err (refuse LDAPResultOperationsError) | Panic => Panic end);
  n ← moment;
  '(tok, userName) ← (match token_Unmarshal credentials with
                      | None => fail
                      | Some tok =>
                          if negb (IsAPReq tok) then fail
                          else match VerifyAPREQ n kt (lc_SPN cfg) tok with
                               | None => fail
                               | Some verified => mret verified
                               end
                      end);
  rep ← lift (or_err (refuse LDAPResultOperationsError) (APRepToken n tok));
  sess ← lift (or_err (refuse LDAPResultOperationsError) (saslSession tok));
  now ← l_now;
  _ ← rememberExchange conn (mkSaslExchange now userName sess false);
  mret (mkSaslReply LDAPResultSaslBindInProgress (Some rep) EmptyString).

Definition saslOfferLayers (conn : Conn) (ex : saslExchange Session) : L SaslReply :=
  match Wrap (ex_sess ex) [byte_of_Z SecurityLayerNone; Byte.x00; Byte.x00; Byte.x00] with
  | None => _ ← forgetExchange conn; throw (refuse LDAPResultOperationsError)
  | Some (challenge, sess) =>
      _ ← rememberExchange conn (mkSaslExchange (ex_started ex) (ex_principal ex) sess true);
      mret (mkSaslReply LDAPResultSaslBindInProgress (Some challenge) EmptyString)
  end.

(** The body of [saslComplete]; the deferred [forgetExchange] comes after. *)
Definition sasl_selection (ex : saslExchange Session) (credentials : bytes) (src : string) : L SaslReply :=
  reply ← (match Unwrap (ex_sess ex) credentials with
           | Some reply => mret reply
           | None => _ ← note_failure (lc_Limits cfg) src; throw (refuse LDAPResultInvalidCredentials)
           end);
  layers ← lift (match reply with
                 | b :: _ :: _ :: _ :: _ => Ok (Z_of_byte b)
                 | _ => Err (refuse LDAPResultProtocolError)
                 end);
  _ ← throw_if (Z.land layers SecurityLayerNone =? 0) (refuse LDAPResultInappropriateAuthentication);
  _ ← throw_if (non_empty (TrimSpace (string_of_bytes (drop 4 reply)))) (refuse LDAPResultInappropriateAuthentication);
  account ← l_look (fun d => accountForPrincipal d (ex_principal ex));
  match account with
  | Panic => lift Panic
  | Err _ => throw (refuse LDAPResultOperationsError)
  | Ok None => throw (refuse LDAPResultInvalidCredentials)
  | Ok (Some (_, dn)) =>
      _ ← note_success (lc_Limits cfg) src;
      mret (mkSaslReply LDAPResultSuccess None dn)
  end.

Definition saslComplete (conn : Conn) (ex : saslExchange Session) (credentials : bytes) (src : string) : L SaslReply := fun s =>
  let '(r, s') := sasl_selection ex credentials src s in (r, set_exchanges (delete (cn_id conn)) s').

Definition BindSASL_handler (mechanism : string) (credentials : bytes) (conn : Conn) : L SaslReply :=
  let src := sourceAddr conn in
  blocked ← is_blocked (lc_Limits cfg) src;
  _ ← throw_if blocked (refuse LDAPResultUnwillingToPerform);
  _ ← throw_if (is_empty (lc_SPN cfg)) (refuse LDAPResultAuthMethodNotSupported);
  _ ← throw_if (negb (EqualFold mechanism saslMechanism)) (refuse LDAPResultAuthMethodNotSupported);
  ex ← exchange conn;
  match ex with
  | None => saslAccept conn credentials src
  | Some ex => if negb (ex_challenged ex) then saslOfferLayers conn ex else saslComplete conn ex credentials src
  end.

Definition BindSASL (mechanism : string) (credentials : bytes) (conn : Conn) : LServer Session -> option SaslReply * LServer Session :=
  returns (BindSASL_handler mechanism credentials conn).
End Sasl.
