(* ===== verification/SaslFacts.v ===== *)
(** * What a SASL bind promises

    Every handshake in flight began with a ticket that verified against the service's own keys, and
    the three legs of one bind run on one connection within the time a handshake is remembered. *)

From S2P Require Import Prelude Text Names Keytab Failban Model Secret IdRange Db Principals PrincipalFacts Directory DirectoryFacts Accounts Certs AccountsOk LdapEntries Ldap LdapFacts LdapSearch Sasl.

Create HintDb legs discriminated.

(** ** Handlers that leave the handshakes alone *)

Definition keeps_exchanges {S E A} (m : M (LServer S) E A) : Prop :=
  forall l r l', m l = (r, l') -> ls_exchanges l' = ls_exchanges l.

Section Combinators.
Context {S E A B : Type}.

Lemma kx_bind (m : M (LServer S) E A) (f : A -> M (LServer S) E B) :
  keeps_exchanges m -> (forall a, keeps_exchanges (f a)) -> keeps_exchanges (x ← m; f x).
Proof.
  intros Hm Hf l r l'. rewrite bind_run. destruct (m l) as [[a|e|] l1] eqn:Em; apply Hm in Em.
  - intros E2%Hf. congruence.
  - intros [= _ <-]. done.
  - intros [= _ <-]. done.
Qed.
Lemma kx_ret (a : A) : keeps_exchanges (S := S) (E := E) (mret a).
Proof. by intros l r l' [= _ <-]. Qed.
Lemma kx_lift (o : outcome E A) : keeps_exchanges (S := S) (lift o).
Proof. by intros l r l' [= _ <-]. Qed.
Lemma kx_throw (e : E) : keeps_exchanges (S := S) (A := A) (throw e).
Proof. by intros l r l' [= _ <-]. Qed.
Lemma kx_on_db (m : Tx A) : keeps_exchanges (S := S) (E := E) (on_db m).
Proof. intros l r l'. unfold on_db. destruct (m (ls_st l)). by intros [= _ <-]. Qed.
Lemma kx_look (f : DB -> A) : keeps_exchanges (S := S) (E := E) (l_look f).
Proof. by intros l r l' [= _ <-]. Qed.
Lemma kx_limiter `{Clock} (f : Time -> Limiter -> A * Limiter) : keeps_exchanges (S := S) (E := E) (with_limiter f).
Proof. intros l r l'. rewrite with_limiter_run. by intros [= _ <-]. Qed.
Lemma kx_if (b : bool) (m n : M (LServer S) E A) : keeps_exchanges m -> keeps_exchanges n -> keeps_exchanges (if b then m else n).
Proof. by destruct b. Qed.
End Combinators.

Lemma kx_throw_if {S E} b (e : E) : keeps_exchanges (S := S) (throw_if b e).
Proof. apply kx_lift. Qed.
Lemma kx_now `{Clock} {S E} : keeps_exchanges (S := S) (E := E) l_now.
Proof. by intros l r l' [= _ <-]. Qed.
#[export] Hint Resolve kx_bind kx_ret kx_lift kx_throw kx_on_db kx_look kx_limiter kx_if kx_throw_if kx_now : legs.

Lemma kx_returns {S R} (m : M (LServer S) R R) l r l' : keeps_exchanges m -> returns m l = (r, l') -> ls_exchanges l' = ls_exchanges l.
Proof. intros Hm. unfold returns. destruct (m l) as [[]] eqn:E; apply Hm in E; by intros [= _ <-]. Qed.

Section Handlers.
Context {S : Type} `{Ck : Clock, Rn : Rand, Ae : AEAD, Bc : Bcrypt, Tt : Totp, El : EncTypeLib, Mr : MapRange, Ll : LdapLib}.
Context (cfg : LdapConfig).

Lemma kx_Bind dn pw conn : keeps_exchanges (S := S) (Bind_handler cfg dn pw conn).
Proof.
  unfold Bind_handler, is_blocked, note_failure, note_success.
  repeat (apply kx_bind; [auto with legs|intros ?]). case_match; auto 10 with legs.
Qed.
Lemma kx_Search dn req conn : keeps_exchanges (S := S) (Search_handler cfg dn req conn).
Proof.
  unfold Search_handler, is_blocked. repeat (apply kx_bind; [auto with legs|intros ?]). apply kx_if; [auto 10 with legs|].
  repeat (apply kx_bind; [auto with legs|intros ?]). case_match; [|auto with legs..]. apply kx_if; [auto with legs|].
  repeat (apply kx_bind; [auto 10 with legs|intros ?]). case_match; auto with legs.
Qed.
Lemma kx_may_write actor dn : keeps_exchanges (S := S) (may_write actor dn).
Proof. unfold may_write. auto 10 with legs. Qed.
Lemma kx_Modify dn req : keeps_exchanges (S := S) (Modify_handler cfg dn req).
Proof.
  unfold Modify_handler, the_actor. apply kx_bind; [auto with legs|]. intros u. apply kx_bind; [auto with legs|].
  intros [kind name]. apply kx_bind; [auto using kx_may_write with legs|]. intros _. case_match; [|auto with legs].
  apply kx_bind; [|intros ch; apply kx_if; [auto with legs|]; apply kx_bind; [auto with legs|]; intros r; case_match; auto with legs].
  repeat case_match; auto with legs. apply kx_bind; [auto with legs|]. intros r. case_match; auto with legs.
Qed.
Lemma kx_Delete dn target : keeps_exchanges (S := S) (Delete_handler cfg dn target).
Proof.
  unfold Delete_handler, the_actor. apply kx_bind; [auto with legs|]. intros u. apply kx_bind; [auto with legs|].
  intros [kind name]. apply kx_bind; [apply kx_may_write|]. intros _. apply kx_bind; [auto with legs|].
  intros r. repeat case_match; auto with legs.
Qed.
End Handlers.

(** ** Reading the service's keys *)

(** A read of the store: the clock goes on and nothing else changes. *)
Definition reads {A} (m : Tx A) : Prop :=
  forall s r s', m s = (r, s') -> st_db s' = st_db s /\ (st_tick s <= st_tick s')%nat.

Lemma reads_bind {A B} (m : Tx A) (f : A -> Tx B) : reads m -> (forall a, reads (f a)) -> reads (x ← m; f x).
Proof.
  intros Hm Hf s r s'. rewrite bind_run. destruct (m s) as [[a|e|] s1] eqn:E; apply Hm in E as [E1 T1].
  - intros [E2 T2]%Hf. split; [congruence|lia].
  - by intros [= _ <-].
  - by intros [= _ <-].
Qed.
Lemma reads_still {A} (m : Tx A) : (forall s, snd (m s) = s) -> reads m.
Proof. intros Hm s r s' E. assert (H := Hm s). rewrite E in H. cbn in H. by subst. Qed.
Lemma reads_now `{Clock} : reads time_now.
Proof. intros s r s' [= _ <-]. split; [done|cbn; lia]. Qed.

Section Legs.
Context `{Ck : Clock, Rn : Rand, Ae : AEAD, El : EncTypeLib, Mr : MapRange, Sl : SaslLib, !MapRangeLaws Mr} (cfg : LdapConfig).

Lemma reads_entries name kvno keys : reads (keytab_entries name kvno keys).
Proof.
  induction keys as [|k keys IH]; cbn [keytab_entries]; [by apply reads_still|].
  apply reads_bind; [apply reads_now|]. intros now. apply reads_bind; [done|]. intros rest. by apply reads_still.
Qed.

Lemma reads_keytab : reads (serviceKeytab cfg).
Proof.
  unfold serviceKeytab. apply reads_bind; [by apply reads_still|]. intros name.
  apply reads_bind; [by apply reads_still|]. intros p.
  apply reads_bind; [apply reads_still; intros s; unfold previous_keys, GetPrincipalKVNO, query_outcome;
    destruct (1 <? p_KVNO p); [by case_match|done]|]. intros prev.
  apply reads_bind; [apply reads_entries|]. intros current. apply reads_bind; [apply reads_entries|]. intros older.
  apply reads_bind; [by apply reads_still|]. intros raw. by apply reads_still.
Qed.

(** ** Sweeping *)

Abbreviation LS := (LServer Session).

(** What happened to the rest of the server: nothing, and the clock went on. *)
Definition same_store (l l' : LS) : Prop :=
  st_db (ls_st l') = st_db (ls_st l) /\ (st_tick (ls_st l) <= st_tick (ls_st l'))%nat.

Definition fresh (l : LS) (ex : saslExchange Session) : Prop :=
  exists k, (st_tick (ls_st l) <= k)%nat /\ Sub (clock k) (ex_started ex) <= saslHandshakeTimeout.

Lemma sweep_run lst (l : LS) :
  exists l', sweep_exchanges lst l = (Ok tt, l') /\ same_store l l' /\
    forall c ex, ls_exchanges l' !! c = Some ex -> ls_exchanges l !! c = Some ex /\ ((c, ex) ∈ lst -> fresh l ex).
Proof.
  revert l. induction lst as [|[c ex] lst IH]; intros l; cbn [sweep_exchanges].
  { exists l. split; [done|]. split; [by split|]. intros c ex Hc. split; [done|]. by intros ?%elem_of_nil. }
  rewrite bind_run. unfold l_now. set (l1 := set_ls_st _ l). rewrite bind_run.
  assert (Hs1 : same_store l l1) by (split; [done|cbn; lia]).
  assert (Hfresh : forall x, fresh l1 x -> fresh l x).
  { intros x (k & Hk & Hx). exists k. destruct Hs1 as [_ Ht]. split; [lia|done]. }
  destruct (saslHandshakeTimeout <? Sub (clock (st_tick (ls_st l))) (ex_started ex)) eqn:Et.
  - unfold set_in_flight. cbv beta iota. destruct (IH (set_exchanges (delete c) l1)) as (l' & -> & [Hd Ht] & Hl'). exists l'. split; [done|].
    split; [destruct Hs1; split; [done|cbn in Ht |- *; lia]|]. intros c' ex' [H1 H2]%Hl'. cbn in H1.
    rewrite lookup_delete_Some in H1. destruct H1 as [Hne H1]. split; [done|].
    intros [[= -> ->]|Hin]%elem_of_cons; [done|]. apply Hfresh. by apply H2.
  - unfold mret, M_ret. cbv beta iota. destruct (IH l1) as (l' & -> & [Hd Ht] & Hl'). exists l'. split; [done|].
    split; [destruct Hs1; split; [done|lia]|]. intros c' ex' [H1 H2]%Hl'. split; [done|].
    intros [[= -> ->]|Hin]%elem_of_cons; [|apply Hfresh; by apply H2].
    exists (st_tick (ls_st l)). split; [done|]. by apply Z.ltb_ge in Et.
Qed.

Lemma exchange_run conn (l : LS) :
  exists l', exchange conn l = (Ok (ls_exchanges l' !! cn_id conn), l') /\ same_store l l' /\
    forall c ex, ls_exchanges l' !! c = Some ex -> ls_exchanges l !! c = Some ex /\ fresh l ex.
Proof using All.
  unfold exchange. rewrite bind_run. unfold in_flight at 1. rewrite bind_run.
  destruct (sweep_run (map_range _ (ls_exchanges l)) l) as (l' & -> & Hs & Hl'). exists l'.
  split; [done|]. split; [done|]. intros c ex [H1 H2]%Hl'. split; [done|]. apply H2.
  rewrite (map_range_perm _ (ls_exchanges l)). by apply elem_of_map_to_list.
Qed.

(** ** The first leg *)

(** The credentials were an AP-REQ that verified against the keys the store held for the service. *)
Definition verified (d : DB) (credentials : bytes) (principal : string) : Prop :=
  exists s s' n kt tok tok', st_db s = d /\ serviceKeytab cfg s = (Ok kt, s') /\
    token_Unmarshal credentials = Some tok /\ IsAPReq tok = true /\
    VerifyAPREQ n kt (lc_SPN cfg) tok = Some (tok', principal).

(** A handshake that began in a call that started from [l]. *)
Definition began (l : LS) (credentials : bytes) (ex : saslExchange Session) : Prop :=
  verified (st_db (ls_st l)) credentials (ex_principal ex) /\
  exists k, (st_tick (ls_st l) <= k)%nat /\ ex_started ex = clock k.

(** A result that is not a completed bind. *)
Definition unfinished (r : outcome SaslReply SaslReply) : Prop :=
  forall reply, r = Ok reply \/ r = Err reply -> sy_code reply <> LDAPResultSuccess.

Lemma unfinished_Err code : code <> LDAPResultSuccess -> unfinished (Err (refuse code)).
Proof. by intros Hc reply [[=]|[= <-]]. Qed.
Lemma unfinished_Panic : unfinished Panic.
Proof. by intros reply [[=]|[=]]. Qed.
Lemma unfinished_progress t : unfinished (Ok (mkSaslReply LDAPResultSaslBindInProgress t EmptyString)).
Proof. by intros reply [[= <-]|[=]]. Qed.
#[local] Hint Resolve unfinished_Err unfinished_Panic unfinished_progress : legs.

Lemma saslAccept_run conn credentials src (l : LS) r l' : saslAccept cfg conn credentials src l = (r, l') ->
  unfinished r /\
  (ls_exchanges l' = ls_exchanges l \/
   exists ex, ls_exchanges l' = <[cn_id conn := ex]> (ls_exchanges l) /\ began l credentials ex).
Proof.
  unfold saslAccept. rewrite bind_run. unfold on_db. destruct (serviceKeytab cfg (ls_st l)) as [rk s1] eqn:Ek.
  destruct (reads_keytab _ _ _ Ek) as [_ Ht]. rewrite bind_run. unfold lift at 1.
  destruct rk as [kt|e|]; [|by intros [= <- <-]; split; [auto with legs|left]..].
  rewrite bind_run. unfold moment at 1. rewrite bind_run.
  set (l1 := set_ls_st s1 l). set (m := match token_Unmarshal credentials with Some _ => _ | None => _ end).
  assert (Hm : match m l1 with
               | (Ok (tok', p), l2) => l2 = l1 /\ verified (st_db (ls_st l)) credentials p
               | (Err e, l2) => e = refuse LDAPResultInvalidCredentials /\ ls_exchanges l2 = ls_exchanges l
               | (Panic, l2) => ls_exchanges l2 = ls_exchanges l end).
  { unfold m. destruct (token_Unmarshal credentials) as [tok|] eqn:Eu;
      [|rewrite bind_run; unfold note_failure; rewrite with_limiter_run; done].
    destruct (IsAPReq tok) eqn:Ea; cbn [negb]; [|rewrite bind_run; unfold note_failure; rewrite with_limiter_run; done].
    destruct (VerifyAPREQ _ _ _ _) as [[tok' p]|] eqn:Ev;
      [|rewrite bind_run; unfold note_failure; rewrite with_limiter_run; done].
    split; [done|]. do 6 eexists. split_and!; [|exact Ek|exact Eu|exact Ea|exact Ev]. done. }
  destruct (m l1) as [[[tok' p]|e|] l2];
    [|destruct Hm as [-> Hm]; intros [= <- <-]; split; [auto with legs|by left]|intros [= <- <-]; split; [auto with legs|by left]].
  destruct Hm as [-> Hv]. rewrite bind_run. unfold lift at 1.
  destruct (APRepToken _ tok'); cbn [or_err]; [|intros [= <- <-]; split; [auto with legs|by left]].
  rewrite bind_run. unfold lift at 1.
  destruct (saslSession tok') as [sess|]; cbn [or_err]; [|intros [= <- <-]; split; [auto with legs|by left]].
  rewrite bind_run. unfold l_now. rewrite bind_run. intros [= <- <-]. split; [auto with legs|].
  right. eexists. split; [reflexivity|]. split; [exact Hv|]. exists (st_tick s1). split; [done|reflexivity].
Qed.

(** ** One call *)

(** The handshake goes on as it began. *)
Definition continues (ex ex' : saslExchange Session) : Prop :=
  ex_principal ex' = ex_principal ex /\ ex_started ex' = ex_started ex.

Lemma saslOfferLayers_run conn ex (l : LS) r l' : saslOfferLayers conn ex l = (r, l') ->
  unfinished r /\
  forall c ex', ls_exchanges l' !! c = Some ex' ->
    ls_exchanges l !! c = Some ex' \/ (c = cn_id conn /\ continues ex ex').
Proof.
  unfold saslOfferLayers. destruct (Wrap _ _) as [[challenge sess]|].
  - rewrite bind_run. intros [= <- <-]. split; [auto with legs|]. intros c ex'. cbn.
    rewrite lookup_insert_Some. intros [[<- <-]|[_ ?]]; [right; split; done|by left].
  - rewrite bind_run. intros [= <- <-]. split; [auto with legs|]. intros c ex'. cbn.
    rewrite lookup_delete_Some. intros [_ ?]. by left.
Qed.

Lemma sasl_selection_run ex credentials src (l : LS) r l' : sasl_selection cfg ex credentials src l = (r, l') ->
  ls_exchanges l' = ls_exchanges l /\
  forall reply, r = Ok reply \/ r = Err reply -> sy_code reply = LDAPResultSuccess ->
    exists u, accountForPrincipal cfg (st_db (ls_st l)) (ex_principal ex) = Ok (Some (u, sy_dn reply)).
Proof.
  unfold sasl_selection. rewrite bind_run. destruct (Unwrap _ _) as [reply0|]; cbv beta iota.
  2:{ rewrite bind_run. unfold note_failure. rewrite with_limiter_run. intros [= <- <-]. split; [done|].
      intros reply [[=]|[= <-]]; done. }
  unfold mret at 1, M_ret at 1. cbv beta iota. rewrite bind_run. unfold lift at 1.
  assert (Hfail : forall c, c <> LDAPResultSuccess -> (Err (A := SaslReply) (refuse c), l) = (r, l') ->
    ls_exchanges l' = ls_exchanges l /\
    forall reply, r = Ok reply \/ r = Err reply -> sy_code reply = LDAPResultSuccess ->
      exists u, accountForPrincipal cfg (st_db (ls_st l)) (ex_principal ex) = Ok (Some (u, sy_dn reply))).
  { intros c Hc [= <- <-]. split; [done|]. intros reply [[=]|[= <-]]; done. }
  destruct reply0 as [|b [|? [|? [|? rest]]]]; try (by apply Hfail).
  rewrite bind_run. unfold throw_if at 1, lift at 1. destruct (Z.land _ _ =? 0); cbn [err_if]; [by apply Hfail|].
  rewrite bind_run. unfold throw_if at 1, lift at 1. destruct (non_empty _); cbn [err_if]; [by apply Hfail|].
  rewrite bind_run. unfold l_look. cbv beta iota.
  destruct (accountForPrincipal cfg (st_db (ls_st l)) (ex_principal ex)) as [[[u dn]|]|e|];
    [|by apply Hfail|by apply Hfail|intros [= <- <-]; split; [done|]; intros reply [[=]|[=]]].
  rewrite bind_run. unfold note_success. rewrite with_limiter_run. intros [= <- <-]. split; [done|].
  intros reply [[= <-]|[=]] _. by exists u.
Qed.

(** What a call does to the handshakes, and what a completed bind rests on. *)
Record sasl_call (credentials : bytes) (conn : Conn) (l : LS) (r : option SaslReply) (l' : LS) : Prop := {
  sc_handshakes : forall c ex', ls_exchanges l' !! c = Some ex' ->
    (exists ex, ls_exchanges l !! c = Some ex /\ continues ex ex') \/
    (c = cn_id conn /\ exists l1, same_store l l1 /\ began l1 credentials ex');
  sc_success : forall reply, r = Some reply -> sy_code reply = LDAPResultSuccess ->
    ls_exchanges l' !! cn_id conn = None /\
    exists ex u, ls_exchanges l !! cn_id conn = Some ex /\ ex_challenged ex = true /\ fresh l ex /\
      accountForPrincipal cfg (st_db (ls_st l)) (ex_principal ex) = Ok (Some (u, sy_dn reply));
}.

Lemma continues_refl ex : continues ex ex.
Proof. done. Qed.

Lemma BindSASL_call mechanism credentials conn (l : LS) r l' :
  BindSASL cfg mechanism credentials conn l = (r, l') -> sasl_call credentials conn l r l'.
Proof using All.
  intros Hrun.
  assert (Hstill : forall c ex', ls_exchanges l !! c = Some ex' ->
    (exists ex, ls_exchanges l !! c = Some ex /\ continues ex ex') \/
    (c = cn_id conn /\ exists l1, same_store l l1 /\ began l1 credentials ex')).
  { intros c ex' Hc. left. exists ex'. split; [done|apply continues_refl]. }
  revert Hrun. unfold BindSASL, BindSASL_handler, is_blocked. rewrite returns_bind, with_limiter_run. cbv beta iota.
  set (b := fst _). set (l1 := set_limiter _ _).
  assert (H01 : same_store l l1) by (split; [done|cbn; lia]). assert (E01 : ls_exchanges l1 = ls_exchanges l) by done.
  assert (Hrefused : forall code, code <> LDAPResultSuccess -> (Some (refuse code), l1) = (r, l') -> sasl_call credentials conn l r l').
  { intros code Hc [= <- <-]. split; [by rewrite E01|]. intros reply [= <-]. done. }
  rewrite returns_throw_if. destruct b; [by apply Hrefused|].
  rewrite returns_throw_if. destruct (is_empty (lc_SPN cfg)); [by apply Hrefused|].
  rewrite returns_throw_if. destruct (negb _); [by apply Hrefused|].
  rewrite returns_bind. destruct (exchange_run conn l1) as (l2 & -> & H12 & Hl2).
  assert (H02 : same_store l l2).
  { destruct H01 as [D1 T1], H12 as [D2 T2]. split; [congruence|lia]. }
  assert (Hold : forall c ex, ls_exchanges l2 !! c = Some ex -> ls_exchanges l !! c = Some ex /\ fresh l ex).
  { intros c ex [H1 (k & Hk & Hf)]%Hl2. rewrite E01 in H1. split; [done|]. exists k. destruct H01. split; [lia|done]. }
  assert (Hkeep : forall c ex', ls_exchanges l2 !! c = Some ex' ->
    (exists ex, ls_exchanges l !! c = Some ex /\ continues ex ex') \/
    (c = cn_id conn /\ exists l1, same_store l l1 /\ began l1 credentials ex')).
  { intros c ex' [Hc _]%Hold. by apply Hstill. }
  destruct (ls_exchanges l2 !! cn_id conn) as [ex|] eqn:Eex.
  2:{ intros Hr. destruct (saslAccept cfg conn credentials (sourceAddr conn) l2) as [ra la] eqn:Ea.
      destruct (saslAccept_run _ _ _ _ _ _ Ea) as [Hu Hx]. unfold returns in Hr. rewrite Ea in Hr.
      assert (la = l') as -> by (by destruct ra; simplify_eq). split.
      - intros c ex' Hc. destruct Hx as [Hx|(ex & Hx & Hb)]; rewrite Hx in Hc; [by apply Hkeep|].
        apply lookup_insert_Some in Hc as [[<- <-]|[_ Hc]]; [|by apply Hkeep]. right. split; [done|]. by exists l2.
      - intros reply -> Hc. exfalso. destruct ra; simplify_eq; by apply (Hu reply); auto. }
  destruct (Hold _ _ Eex) as [Eold Hfresh].
  destruct (ex_challenged ex) eqn:Ech; cbn [negb].
  2:{ intros Hr. destruct (saslOfferLayers conn ex l2) as [ra la] eqn:Ea.
      destruct (saslOfferLayers_run _ _ _ _ _ Ea) as [Hu Hx]. unfold returns in Hr. rewrite Ea in Hr.
      assert (la = l') as -> by (by destruct ra; simplify_eq). split.
      - intros c ex' Hc. destruct (Hx _ _ Hc) as [Hc'|[-> Hcont]]; [by apply Hkeep|]. left. by exists ex.
      - intros reply -> Hc. exfalso. destruct ra; simplify_eq; by apply (Hu reply); auto. }
  intros Hr. unfold returns, saslComplete in Hr.
  destruct (sasl_selection cfg ex credentials (sourceAddr conn) l2) as [ra la] eqn:Ea.
  destruct (sasl_selection_run _ _ _ _ _ _ Ea) as [Hx Hs].
  assert (set_exchanges (delete (cn_id conn)) la = l') as <- by (by destruct ra; simplify_eq). split.
  - intros c ex'. cbn. rewrite Hx, lookup_delete_Some. intros [_ Hc]. by apply Hkeep.
  - intros reply -> Hc. split; [cbn; apply lookup_delete_eq|]. exists ex.
    destruct (Hs reply) as [u Hu]; [destruct ra; simplify_eq; auto|done|]. exists u. split_and!; [done..|].
    destruct H02 as [D _]. by rewrite <- D.
Qed.
End Legs.

(** ** Runs of the server *)

Section Runs.
Context `{Ck : Clock, Rn : Rand, Ae : AEAD, Bc : Bcrypt, Tt : Totp, El : EncTypeLib, Mr : MapRange, Ll : LdapLib, Sl : SaslLib,
  !MapRangeLaws Mr} (cfg : LdapConfig).

Abbreviation LS := (LServer Session).

(** One request, or something another door of the service did to the store or the shared limiter. *)
Inductive lstep (l l' : LS) : Prop :=
| lstep_bind dn pw conn r : Bind cfg dn pw conn l = (r, l') -> lstep l l'
| lstep_search dn req conn r : Search cfg dn req conn l = (r, l') -> lstep l l'
| lstep_modify dn req r : Modify cfg dn req l = (r, l') -> lstep l l'
| lstep_delete dn target r : Delete cfg dn target l = (r, l') -> lstep l l'
| lstep_sasl mechanism credentials conn r : BindSASL cfg mechanism credentials conn l = (r, l') -> lstep l l'
| lstep_store s : l' = set_ls_st s l -> lstep l l'
| lstep_limiter m : l' = set_limiter m l -> lstep l l'.

Lemma lstep_handshakes l l' : lstep l l' ->
  ls_exchanges l' = ls_exchanges l \/
  exists mechanism credentials conn r, BindSASL cfg mechanism credentials conn l = (r, l').
Proof.
  destruct 1 as [dn pw conn r H|dn req conn r H|dn req r H|dn target r H|mechanism credentials conn r H|s H|m H].
  - left. eapply kx_returns; [|exact H]. apply kx_Bind.
  - left. eapply kx_returns; [|exact H]. apply kx_Search.
  - left. eapply kx_returns; [|exact H]. apply kx_Modify.
  - left. eapply kx_returns; [|exact H]. apply kx_Delete.
  - right. by exists mechanism, credentials, conn, r.
  - left. by subst.
  - left. by subst.
Qed.

(** A handshake in flight began with a call earlier in the run. *)
Definition began_earlier (l0 l : LS) (c : string) (ex : saslExchange Session) : Prop :=
  exists l1 l1' l2 mechanism credentials conn r,
    rtc lstep l0 l1 /\ BindSASL cfg mechanism credentials conn l1 = (r, l2) /\ rtc lstep l2 l /\
    cn_id conn = c /\ same_store l1 l1' /\ began cfg l1' credentials ex.

Lemma handshakes_began l0 l : ls_exchanges l0 = ∅ -> rtc lstep l0 l ->
  forall c ex, ls_exchanges l !! c = Some ex -> began_earlier l0 l c ex.
Proof using All.
  intros H0. revert l. apply (rtc_ind_r (fun l => forall c ex, ls_exchanges l !! c = Some ex -> began_earlier l0 l c ex) l0);
    [intros c ex Hc; by rewrite H0 in Hc|]. intros l l' Hrun Hstep IH c ex Hc.
  assert (Hlater : forall ex0, began_earlier l0 l c ex0 -> continues ex0 ex -> began_earlier l0 l' c ex).
  { intros ex0 (l1 & l1' & l2 & mech & cr & conn & r & H1 & H2 & H3 & H4 & H5 & [Hv (k & Hk & Hs)]) [Ep Es].
    exists l1, l1', l2, mech, cr, conn, r. split_and!; [done|done|by eapply rtc_r|done|done|].
    split; [by rewrite Ep|]. exists k. split; [done|congruence]. }
  destruct (lstep_handshakes _ _ Hstep) as [E|(mech & cr & conn & r & Hcall)].
  - rewrite E in Hc. apply (Hlater ex); [by apply IH|apply continues_refl].
  - destruct (BindSASL_call cfg _ _ _ _ _ _ Hcall) as [Hh _].
    destruct (Hh c ex Hc) as [(ex0 & Hc0 & Hcont)|(-> & l1 & Hs & Hb)].
    + apply (Hlater ex0); [by apply IH|done].
    + exists l, l1, l', mech, cr, conn, r. split_and!; done.
Qed.

End Runs.
