(* ===== verification/LdapSample.v ===== *)
(** * The LDAP front end on a small directory

    Instances of the libraries, a directory with an administrator and an ordinary account, the
    theorems applied to it, and two runs that show what the handler of modify lets through. *)

From S2P Require Import Prelude Text Names Keytab Failban Model Secret IdRange Db Principals PrincipalFacts Directory DirectoryFacts Accounts Certs AccountsOk LdapEntries Ldap LdapFacts LdapSearch LdapWrite Sasl SaslFacts.

(** ** Instances *)

Definition first_attribute : LdapLib := fun e name =>
  default [] (snd <$> List.find (fun a => String.eqb (fst a) name) (en_Attributes e)).
#[export] Instance first_attribute_laws : LdapLibLaws first_attribute.
Proof. by intros e name. Qed.

Definition in_order : MapRange := fun A m => map_to_list m.
Definition backwards : MapRange := fun A m => reverse (map_to_list m).
#[export] Instance in_order_laws : MapRangeLaws in_order.
Proof. by intros A m. Qed.
#[export] Instance backwards_laws : MapRangeLaws backwards.
Proof. intros A m. apply reverse_Permutation. Qed.

Definition without_totp : Totp := fun _ _ _ => false.

(** A token is the name of its client, and the selection of leg three comes unwrapped. *)
Definition toy_sasl : SaslLib := {|
  Session := unit;
  KRB5Token := string;
  Keytab := bytes;
  token_Unmarshal := fun b => Some (string_of_bytes b);
  IsAPReq := non_empty;
  keytab_Unmarshal := fun b => Some b;
  VerifyAPREQ := fun _ _ _ tok => Some (tok, tok);
  APRepToken := fun _ _ => Some [Byte.x6f];
  ticket_Key := fun _ => mkEncryptionKey 18 [Byte.x01];
  authenticator_SubKey := fun _ => mkEncryptionKey 18 [];
  authenticator_SeqNumber := fun _ => 7;
  NewSecurityLayerSession := fun _ _ => Some tt;
  Wrap := fun s b => Some (b, s);
  Unwrap := fun _ b => Some b;
  SecurityLayerNone := 1;
|}.

Section LdapSample.
#[local] Existing Instance sample_clock.
#[local] Existing Instance toy_rand.
#[local] Existing Instance toy_aead.
#[local] Existing Instance toy_enctypes.
#[local] Existing Instance toy_bcrypt.
#[local] Existing Instance without_totp.
#[local] Existing Instance first_attribute.
#[local] Existing Instance in_order.
#[local] Existing Instance toy_sasl.

Definition sample_ldap : LdapConfig := NewHandler (mkLdapConfig "DC=example,DC=com" "cn" "ou" ["sshPublicKey"; "ipaSshPubKey"]
  "EXAMPLE.COM" "S-1-5-21-1-2-3" true false [18; 17] "ldap/dc.example.com" Failban.sample_config 4).

Lemma sample_ldap_ok : config_ok sample_ldap.
Proof. apply NewHandler_ok; split; done. Qed.

Definition with_hash (hash : string) (u : User) : User := {|
  u_ID := u_ID u; u_Name := u_Name u; u_UIDNumber := u_UIDNumber u; u_PrimaryGroup := u_PrimaryGroup u;
  u_OtherGroups := u_OtherGroups u; u_GivenName := u_GivenName u; u_SN := u_SN u; u_Mail := u_Mail u;
  u_LoginShell := u_LoginShell u; u_Homedir := u_Homedir u; u_Disabled := u_Disabled u;
  u_SSHKeys := u_SSHKeys u; u_CustomAttrs := u_CustomAttrs u; u_Capabilities := u_Capabilities u;
  u_AppPasswords := u_AppPasswords u; u_CreatedAt := u_CreatedAt u; u_UpdatedAt := u_UpdatedAt u;
  u_PassBcrypt := hash; u_OTPSecret := u_OTPSecret u; u_HasOTP := u_HasOTP u; u_HasPassword := u_HasPassword u |}.

(** Groups staff and admins, the second with the authority to write everything; the account mallory
    in the first and the account root in the second. *)
Definition office1 : St := snd (CreateGroup (sample_group "staff" 5000 []) empty_state).
Definition office2 : St := snd (CreateGroup (mkGroup 0 "admins" 5002 "" [] [mkCapability "write" "*"] ∅ zeroTime zeroTime) office1).
Definition office3 : St := snd (CreateUser (with_hash "$secret" (sample_user "mallory" 10000 5000 [])) office2).
Definition office : St := snd (CreateUser (with_hash "$chief" (sample_user "root" 10001 5002 [])) office3).

Lemma office_ok : accounts_ok (st_db office).
Proof.
  apply (asteps_accounts empty_state); [|apply empty_accounts_ok]. apply rtc_dstep_astep.
  apply rtc_l with office1; [eapply dstep_create_group; apply surjective_pairing|].
  apply rtc_l with office2; [eapply dstep_create_group; apply surjective_pairing|].
  apply rtc_l with office3; [eapply dstep_create_user; apply surjective_pairing|].
  apply rtc_once. eapply dstep_create_user. apply surjective_pairing.
Qed.

Definition server0 : LServer Session := mkLServer office (Failban.New 0) ∅.
Definition desk : Conn := mkConn "desk" (Some "192.0.2.7:40000").

Definition mallory_dn : string := "cn=mallory,ou=staff,ou=users,dc=example,dc=com".
Definition root_dn : string := "cn=root,ou=admins,ou=users,dc=example,dc=com".

(** ** The theorems at work *)

Lemma published_dn_resolves_witness :
  exists r, r ∈ users (dt (st_db office)) /\
    findBindUser sample_ldap (st_db office) mallory_dn true = Ok (decorateUser (st_db office) (scanUser r)).
Proof.
  destruct (List.find (user_named "mallory") (users (dt (st_db office)))) as [r|] eqn:Er; [|vm_compute in Er; discriminate].
  destruct (List.find (group_named "staff") (groups (dt (st_db office)))) as [g|] eqn:Eg; [|vm_compute in Eg; discriminate].
  assert (Hr : ur_name r = "mallory" /\ ur_primary_group r = 5000).
  { apply (f_equal (fmap (fun x => (ur_name x, ur_primary_group x)))) in Er. vm_compute in Er. injection Er as H1 H2. split; symmetry; assumption. }
  assert (Hg : gr_name g = "staff" /\ gr_gid_number g = 5000).
  { apply (f_equal (fmap (fun x => (gr_name x, gr_gid_number x)))) in Eg. vm_compute in Eg. injection Eg as H1 H2. split; symmetry; assumption. }
  destruct Hr as [Hn Hp], Hg as [Hgn Hgid]. apply find_Some_elem in Er as [Hr _], Eg as [Hg _].
  exists r. split; [exact Hr|].
  destruct (published_dn_resolves sample_ldap (st_db office) r g true sample_ldap_ok office_ok Hr Hg) as [H _].
  - rewrite Hgid, Hp. reflexivity.
  - rewrite Hn. reflexivity.
  - rewrite Hgn. reflexivity.
  - rewrite Hgn in H. change (entry_UserDN sample_ldap (decorateUser (st_db office) (scanUser r)) "staff")
      with (UserDN "dc=example,dc=com" "cn" "ou" (ur_name r) "staff") in H. rewrite Hn in H. exact H.
Defined.

Lemma Bind_cases_witness :
  exists l', Bind sample_ldap (" CN=Mallory,OU=Staff,OU=users,DC=example,DC=com") "secret" desk server0 = (Some LDAPResultSuccess, l') /\
    exists u, findBindUser sample_ldap (st_db (ls_st server0)) mallory_dn true = Ok u /\
      Granted (Authenticate (tick 1 server0) u "secret") = true.
Proof.
  destruct (Bind sample_ldap (" CN=Mallory,OU=Staff,OU=users,DC=example,DC=com") "secret" desk server0) as [r l'] eqn:E.
  assert (Hr : r = Some LDAPResultSuccess) by (apply (f_equal fst) in E; vm_compute in E; symmetry; exact E). subst r.
  exists l'. split; [reflexivity|]. assert (H := Bind_cases sample_ldap _ _ _ _ _ _ E). cbv zeta in H.
  replace (ToLower (TrimSpace " CN=Mallory,OU=Staff,OU=users,DC=example,DC=com")) with mallory_dn in H by reflexivity.
  destruct (Blocked _ _ _ _) as [blocked lim]. destruct H as (_ & _ & Hs & _).
  destruct (Hs eq_refl) as [_ [(_ & Hpw & _)|(_ & _ & u & Hu & Hg)]]; [discriminate Hpw|].
  exists u. split; [exact Hu|exact Hg].
Defined.

Lemma ls_st_mk {S} s m (e : gmap string (saslExchange S)) : ls_st (mkLServer s m e) = s.
Proof. reflexivity. Qed.

Lemma server0_ok : accounts_ok (st_db (ls_st server0)).
Proof. unfold server0. rewrite ls_st_mk. exact office_ok. Qed.

Lemma office_names r : r ∈ users (dt (st_db office)) -> no_comma (ur_name r).
Proof.
  assert (H : forallb (fun r => negb (contains_char ","%char (ur_name r))) (users (dt (st_db office))) = true) by (vm_compute; reflexivity).
  rewrite forallb_forall in H. intros Hr%list_elem_of_In%H. apply negb_true_iff in Hr. exact Hr.
Qed.

(** A run known by what it returned. *)
Lemma run_is {S E A} (m : M S E A) (s : S) (test : A -> bool) :
  match fst (m s) with Ok a => test a | _ => false end = true -> exists a s', m s = (Ok a, s') /\ test a = true.
Proof. destruct (m s) as [[a|e|] s']; cbn; [|done..]. intros H. exists a, s'. by split. Qed.

Lemma returned {S R} (m : S -> option R * S) (s : S) (test : R -> bool) :
  match fst (m s) with Some r => test r | None => false end = true -> exists r s', m s = (Some r, s') /\ test r = true.
Proof. destruct (m s) as [[r|] s']; cbn; [|done]. intros H. exists r, s'. by split. Qed.

Definition some_entries (es : list Entry) : bool := (0 <? List.length es)%nat.


(** mallory, who may not search, asks for the whole tree. *)
Definition whole_tree : SearchRequest := mkSearchRequest "dc=example,dc=com" ScopeWholeSubtree.
Definition one_entry (r : SearchResult) : bool := match r with sr_entries [_] => true | _ => false end.

Lemma Search_confined_witness :
  exists es l' r, Search sample_ldap mallory_dn whole_tree desk server0 = (Some (sr_entries es), l') /\
    List.length es = 1%nat /\ r ∈ users (dt (st_db (ls_st server0))) /\
    forall e, e ∈ es -> exists gids, account_entry sample_ldap (st_db (ls_st server0)) r gids e.
Proof.
  destruct (returned (Search sample_ldap mallory_dn whole_tree desk) server0 one_entry) as (res & l' & Hrun & Hone); [vm_compute; reflexivity|].
  destruct res as [es|code]; [|discriminate Hone]. exists es, l'.
  assert (Hlen : List.length es = 1%nat) by (destruct es as [|e [|e' es]]; [discriminate Hone|reflexivity|discriminate Hone]).
  destruct (Search_confined sample_ldap mallory_dn whole_tree desk server0 l' es sample_ldap_ok server0_ok Hrun) as (_ & _ & Hcase).
  destruct Hcase as [(Hb & _)|(r & Hr & Hf & Hcase)]; [discriminate Hb|]. exists r. split; [exact Hrun|]. split; [exact Hlen|].
  split; [exact Hr|]. destruct Hcase as [->|(_ & _ & [Hi|[Hcap|Hown]])]; [..|exact Hown].
  - exfalso. apply (f_equal fst) in Hrun. vm_compute in Hrun. discriminate Hrun.
  - discriminate Hi.
  - exfalso. assert (Hdenied : match findBindUser sample_ldap (st_db (ls_st server0)) (ToLower mallory_dn) false with
      | Ok u => HasCapability (st_db (ls_st server0)) u "search" (ToLower (TrimSpace (sq_BaseDN whole_tree)))
      | _ => None end = Some false) by (vm_compute; reflexivity).
    rewrite Hf, Hcap in Hdenied. discriminate Hdenied.
Defined.

(** root renames mallory's shell. *)
Definition new_shell : ModifyRequest := mkModifyRequest mallory_dn [] [] [mkPartialAttribute "loginShell" (Some ["/bin/zsh"])].
Definition succeeded (r : ResultCode) : bool := match r with LDAPResultSuccess => true | _ => false end.

Lemma Modify_authorized_witness :
  exists l' name x, Modify sample_ldap root_dn new_shell server0 = (Some LDAPResultSuccess, l') /\
    x ∈ users (dt (st_db (ls_st server0))) /\ user_named name x = true /\
    others_kept (ur_id x) (st_db (ls_st server0)) (st_db (ls_st l')).
Proof.
  destruct (Modify sample_ldap root_dn new_shell server0) as [res l'] eqn:E.
  assert (Hres : res = Some LDAPResultSuccess) by (apply (f_equal fst) in E; vm_compute in E; symmetry; exact E). subst res.
  destruct (Modify_authorized sample_ldap root_dn new_shell server0 l' _ server0_ok E) as [Hsame|(name & x & _ & Hx & Hn & Hk)].
  - exfalso. apply (f_equal (fun p => ur_login_shell <$> users (dt (st_db (ls_st (snd p)))))) in E. cbn [snd] in E.
    rewrite Hsame in E. vm_compute in E. discriminate E.
  - exists l', name, x. split; [reflexivity|]. split; [exact Hx|]. split; [exact Hn|exact Hk].
Defined.

Lemma Delete_authorized_witness :
  exists l' kind name, Delete sample_ldap root_dn mallory_dn server0 = (Some LDAPResultSuccess, l') /\
    authorized sample_ldap root_dn (ToLower (TrimSpace mallory_dn)) false (st_db (ls_st server0)) kind name.
Proof.
  destruct (Delete sample_ldap root_dn mallory_dn server0) as [res l'] eqn:E.
  assert (Hres : res = Some LDAPResultSuccess) by (apply (f_equal fst) in E; vm_compute in E; symmetry; exact E). subst res.
  destruct (Delete_authorized sample_ldap root_dn mallory_dn server0 l' _ E) as [Hsame|(kind & name & Ha & _)].
  - exfalso. apply (f_equal (fun p => ur_name <$> users (dt (st_db (ls_st (snd p)))))) in E. cbn [snd] in E.
    rewrite Hsame in E. vm_compute in E. discriminate E.
  - exists l', kind, name. split; [reflexivity|exact Ha].
Defined.

Definition two_changes : Changes := <["mail" := Some ["m@example.com"]]> (<["gidnumber" := Some ["5000"]]> ∅).

Lemma modify_order_irrelevant_witness :
  applyUserChanges (Mr := in_order) two_changes (sample_user "bob" 10000 5000 []) =
  applyUserChanges (Mr := backwards) two_changes (sample_user "bob" 10000 5000 []).
Proof.
  apply (modify_order_irrelevant in_order backwards two_changes).
  - exact in_order_laws.
  - exact backwards_laws.
  - intros [[v Hv] _]. vm_compute in Hv. discriminate Hv.
Defined.

(** Three legs of a bind with a ticket, as root. *)
Definition leg0 : LServer Session := mkLServer (snd (EnsureServicePrincipal sample_ldap office)) (Failban.New 0) ∅.
Definition leg1 : LServer Session := snd (BindSASL sample_ldap "gssapi" (bytes_of_string "root") desk leg0).
Definition leg2 : LServer Session := snd (BindSASL sample_ldap "GSSAPI" [] desk leg1).
Definition selection : bytes := [Byte.x01; Byte.x00; Byte.x00; Byte.x00].
Definition sasl_done (r : SaslReply) : bool := succeeded (sy_code r).


(** ** What the handler of modify lets through *)

(** The SSH keys set under both of their names: what is stored depends on the order of the map. *)
Example both_ssh_names_depend_on_order :
  let changes : Changes := <["sshpublickey" := Some ["a"]]> (<["ipasshpubkey" := Some ["b"]]> ∅) in
  applyUserChanges (Mr := in_order) changes (sample_user "bob" 10000 5000 []) <>
  applyUserChanges (Mr := backwards) changes (sample_user "bob" 10000 5000 []).
Proof.
  intros changes E. apply (f_equal (fun r => match r with Ok u => Some (u_SSHKeys u) | _ => None end)) in E.
  vm_compute in E. discriminate E.
Qed.

Definition writes_all (d : DB) (name : string) : option bool :=
  match getUser d (user_named name) with Ok u => HasCapability d u "write" "dc=example,dc=com" | _ => None end.

(** An ordinary account, with no capability, modifies its own entry: the primary group becomes that of
    the administrators, and with it the authority to write everything. *)
Example self_modify_gains_authority :
  let req := mkModifyRequest mallory_dn [] [] [mkPartialAttribute "gidNumber" (Some ["5002"])] in
  let '(r, l') := Modify sample_ldap mallory_dn req server0 in
  writes_all (st_db (ls_st server0)) "mallory" = Some false /\ r = Some LDAPResultSuccess /\
  writes_all (st_db (ls_st l')) "mallory" = Some true.
Proof. vm_compute. split_and!; reflexivity. Qed.

(** A name that is the administrator's principal, bound with mallory's password: refused, until mallory
    writes it into the mail of her own entry, and then accepted. *)
Example mail_shadows_principal :
  let req := mkModifyRequest mallory_dn [] [] [mkPartialAttribute "mail" (Some ["root@example.com"])] in
  let '(r, l') := Modify sample_ldap mallory_dn req server0 in
  fst (Bind sample_ldap "root@example.com" "secret" desk server0) = Some LDAPResultInvalidCredentials /\
  r = Some LDAPResultSuccess /\
  fst (Bind sample_ldap "root@example.com" "secret" desk l') = Some LDAPResultSuccess.
Proof. vm_compute. split_and!; reflexivity. Qed.

(** A connection bound before its account was switched off: the account can no longer bind, and the
    connection switches it on again. *)
Example disabled_account_reactivates_itself :
  let switch v := mkModifyRequest mallory_dn [] [] [mkPartialAttribute "accountStatus" (Some [v])] in
  let '(r1, l1) := Modify sample_ldap root_dn (switch "inactive") server0 in
  let '(r2, l2) := Modify sample_ldap mallory_dn (switch "active") l1 in
  r1 = Some LDAPResultSuccess /\ fst (Bind sample_ldap mallory_dn "secret" desk l1) = Some LDAPResultInvalidCredentials /\
  r2 = Some LDAPResultSuccess /\ fst (Bind sample_ldap mallory_dn "secret" desk l2) = Some LDAPResultSuccess.
Proof. vm_compute. split_and!; reflexivity. Qed.
End LdapSample.
