(* ===== verification/Jws.v ===== *)
(** * Signed tokens: package [jws]

    Compact ES256 tokens: two encoded JSON objects and a signature over them, joined by dots. The
    key lives sealed in the metadata table. *)

From S2P Require Import Prelude Text Base64 Names Keytab Replay Model Secret IdRange Db Principals PrincipalFacts Directory DirectoryFacts Accounts.

(** ** The libraries *)

(** A value of an object the code writes or reads; [c_other] is any other value. *)
Inductive claim : Type :=
| c_str (s : string)
| c_num (z : Z)
| c_bool (b : bool)
| c_list (l : list string)
| c_other.

#[global] Instance claim_eq_dec : EqDecision claim.
Proof. solve_decision. Defined.

Abbreviation claims := (gmap string claim).

(** [encoding/json] on objects: the members an object is written with, and the members it is read
    into the fields of a struct by. *)
Class JSON : Type := {
  json_Marshal : claims -> option bytes;
  json_Unmarshal : bytes -> option claims;
}.

(** Text JSON carries as it is, under names of lower-case letters. *)
Definition is_ascii7 (c : ascii) : bool := (nat_of_ascii c <? 128)%nat.
Definition plain_text (s : string) : bool := all_chars is_ascii7 s.
Definition is_key_char (c : ascii) : bool := ((97 <=? nat_of_ascii c) && (nat_of_ascii c <=? 122) || (nat_of_ascii c =? 95))%nat.

Definition plain_claim (c : claim) : bool :=
  match c with
  | c_str s => plain_text s
  | c_num z => (min_int64 <=? z) && (z <=? max_int64)
  | c_bool _ => true
  | c_list l => forallb plain_text l
  | c_other => false
  end.

Definition plain_claims (m : claims) : Prop :=
  forall k c, m !! k = Some c -> all_chars is_key_char k = true /\ plain_claim c = true.

(** Such an object can be written, and is read back as it was. *)
Class JSONLaws `(JSON) : Prop := {
  json_total m : plain_claims m -> is_Some (json_Marshal m);
  json_roundtrip m b : plain_claims m -> json_Marshal m = Some b -> json_Unmarshal b = Some m;
}.

(** [crypto/ecdsa] on P-256 and [crypto/x509]; the first argument of what is random is its draw. *)
Class ECDSA : Type := {
  PrivateKey : Type;
  ecdsa_GenerateKey : nat -> option PrivateKey;
  ecdsa_Sign : nat -> PrivateKey -> bytes -> option (Z * Z);
  ecdsa_Verify : PrivateKey -> bytes -> Z -> Z -> bool;
  key_X : PrivateKey -> Z;
  key_Y : PrivateKey -> Z;
  x509_MarshalECPrivateKey : PrivateKey -> option bytes;
  x509_ParseECPrivateKey : bytes -> option PrivateKey;
  x509_MarshalPKIXPublicKey : PrivateKey -> option bytes;
}.

(** What the code relies on: a signature is two positive integers below the order of the curve,
    which has 256 bits, and verifies under its key; a key is read back as it was written. *)
Class ECDSALaws `(ECDSA) : Prop := {
  ecdsa_range n k h r s : ecdsa_Sign n k h = Some (r, s) -> 0 < r < 2 ^ 256 /\ 0 < s < 2 ^ 256;
  ecdsa_verifies n k h r s : ecdsa_Sign n k h = Some (r, s) -> ecdsa_Verify k h r s = true;
  x509_roundtrip k b : x509_MarshalECPrivateKey k = Some b -> x509_ParseECPrivateKey b = Some k;
}.

(** ** The fixed width of a big integer *)

(** [big.Int.Bytes]: no leading zeros. *)
Definition big_Bytes (v : Z) : bytes := if v <=? 0 then [] else put_be (Z.to_nat (Z.log2 v / 8 + 1)) v.

Definition pad (v : Z) (size : nat) : bytes :=
  let b := big_Bytes v in
  if (size <=? List.length b)%nat then drop (List.length b - size) b
  else replicate (size - List.length b) Byte.x00 ++ b.

Definition b64 (v : Z) (size : nat) : string := EncodeToString RawURLEncoding (pad v size).

(** ** The signer *)

Inductive JwsErr : Type :=
| ErrNotCompact | ErrHeader | ErrNotES256 | ErrSignature | ErrNotOurs | ErrPayload | ErrClaims.

(** A field of a struct that is read from an object: its zero value when the object has no such
    member, an error when the member is of another kind. *)
Definition str_field (k : string) (m : claims) : option string :=
  match m !! k with
  | None => Some EmptyString
  | Some (c_str s) => Some s
  | Some _ => None
  end.

Definition int_field (k : string) (m : claims) : option Z :=
  match m !! k with
  | None => Some 0
  | Some (c_num z) => if (min_int64 <=? z) && (z <=? max_int64) then Some z else None
  | Some _ => None
  end.

Section Signer.
Context `{Js : JSON, Sh : Sha256, Ec : ECDSA}.

Record Signer : Type := mkSigner { sg_key : PrivateKey; sg_kid : string }.

Definition newSigner (key : PrivateKey) : option Signer :=
  pub ← x509_MarshalPKIXPublicKey key;
  Some (mkSigner key (EncodeToString RawURLEncoding (take 16 (sha256 pub)))).

Definition JWKS (s : Signer) : gmap string string :=
  list_to_map [("kty", "EC"); ("crv", "P-256"); ("alg", "ES256"); ("use", "sig"); ("kid", sg_kid s);
               ("x", b64 (key_X (sg_key s)) 32); ("y", b64 (key_Y (sg_key s)) 32)].

Definition token_header (kid : string) : claims :=
  list_to_map [("alg", c_str "ES256"); ("typ", c_str "JWT"); ("kid", c_str kid)].

(** [Sign], with the draw of the signature. *)
Definition Sign (s : Signer) (n : nat) (cs : claims) : option string :=
  header ← json_Marshal (token_header (sg_kid s));
  payload ← json_Marshal cs;
  let input := EncodeToString RawURLEncoding header +:+ "." +:+ EncodeToString RawURLEncoding payload in
  '(r, sv) ← ecdsa_Sign n (sg_key s) (sha256 (bytes_of_string input));
  Some (input +:+ "." +:+ EncodeToString RawURLEncoding (pad r 32 ++ pad sv 32)).

(** [Verify]; [dst] reads the fields the caller wants. *)
Definition Verify {A} (s : Signer) (token : string) (dst : claims -> option A) : outcome JwsErr A :=
  match split_char "."%char token with
  | [part0; part1; part2] =>
      rawHeader ← or_err ErrHeader (DecodeString RawURLEncoding part0);
      alg ← or_err ErrNotES256 (header ← json_Unmarshal rawHeader; str_field "alg" header);
      _ ← err_if (negb (String.eqb alg "ES256")) ErrNotES256;
      sig ← or_err ErrSignature (DecodeString RawURLEncoding part2);
      _ ← err_if (negb (List.length sig =? 64)%nat) ErrSignature;
      let sum := sha256 (bytes_of_string (part0 +:+ "." +:+ part1)) in
      let r := get_be (take 32 sig) in
      let sv := get_be (drop 32 sig) in
      _ ← err_if (negb (ecdsa_Verify (sg_key s) sum r sv)) ErrNotOurs;
      payload ← or_err ErrPayload (DecodeString RawURLEncoding part1);
      or_err ErrClaims (cs ← json_Unmarshal payload; dst cs)
  | _ => Err ErrNotCompact
  end.

(** ** The stored key *)

Context `{Rn : Rand, Ae : AEAD}.

Inductive LoadErr : Type := le_store (e : StoreErr) | le_open | le_parse | le_generate | le_key.

Definition of_store {A} (m : Tx A) : M St LoadErr A := fun s =>
  match m s with
  | (Ok a, s') => (Ok a, s')
  | (Err e, s') => (Err (le_store e), s')
  | (Panic, s') => (Panic, s')
  end.

Definition create_key (metaKey : string) : M St LoadErr Signer :=
  n ← of_store draw;
  key ← lift (or_err le_generate (ecdsa_GenerateKey n));
  der ← lift (or_err le_key (x509_MarshalECPrivateKey key));
  i ← of_store draw;
  _ ← of_store (SetMeta metaKey (SealSecret i der metaKey));
  lift (or_err le_key (newSigner key)).

Definition LoadOrCreate (metaKey : string) : M St LoadErr Signer := fun s =>
  match GetMeta metaKey s with
  | (Ok sealed, s1) =>
      if non_empty sealed then
        (raw ← lift (or_err le_open (OpenSecret sealed metaKey));
         key ← lift (or_err le_parse (x509_ParseECPrivateKey raw));
         lift (or_err le_key (newSigner key))) s1
      else create_key metaKey s1
  | (Err ErrNotFound, s1) => create_key metaKey s1
  | (Err e, s1) => (Err (le_store e), s1)
  | (Panic, s1) => (Panic, s1)
  end.
End Signer.

(** ** Proofs *)

Lemma get_be_zeros n b : get_be (replicate n Byte.x00 ++ b) = get_be b.
Proof. induction n as [|n IH]; [done|]. cbn [replicate app]. by rewrite get_be_cons, IH. Qed.

Lemma pow256 n : 256 ^ Z.of_nat n = 2 ^ (8 * Z.of_nat n).
Proof. rewrite Z.pow_mul_r by lia. done. Qed.

Lemma big_Bytes_spec v n : 0 <= v < 256 ^ Z.of_nat n ->
  get_be (big_Bytes v) = v /\ (List.length (big_Bytes v) <= n)%nat.
Proof.
  intros Hv. unfold big_Bytes. destruct (Z.leb_spec v 0); [split; [cbn; lia|cbn; lia]|].
  assert (Hl := Z.log2_nonneg v). assert (Hd : 0 <= Z.log2 v / 8) by (apply Z.div_pos; lia).
  rewrite get_put_be, length_put_be. split.
  - apply Z.mod_small. split; [lia|]. rewrite pow256. rewrite Z2Nat.id by lia.
    eapply Z.lt_le_trans; [apply (Z.log2_spec v); lia|]. apply Z.pow_le_mono_r; [lia|].
    pose proof (Z.div_mod (Z.log2 v) 8). pose proof (Z.mod_pos_bound (Z.log2 v) 8). lia.
  - rewrite pow256 in Hv. assert (Hlt : Z.log2 v < 8 * Z.of_nat n) by (apply Z.log2_lt_pow2; lia).
    assert (Z.log2 v / 8 < Z.of_nat n) by (apply Z.div_lt_upper_bound; lia). lia.
Qed.

(** A short integer is written in the whole width. *)
Lemma pad_spec v n : 0 <= v < 256 ^ Z.of_nat n -> List.length (pad v n) = n /\ get_be (pad v n) = v.
Proof.
  intros Hv. destruct (big_Bytes_spec v n Hv) as [Hg Hl]. unfold pad.
  destruct (Nat.leb_spec n (List.length (big_Bytes v))).
  - replace (List.length (big_Bytes v) - n)%nat with 0%nat by lia. rewrite drop_0. split; [lia|done].
  - rewrite get_be_zeros, length_app, length_replicate. split; [lia|done].
Qed.

Section SignerFacts.
Context `{JsL : JSONLaws, Sh : Sha256, EcL : ECDSALaws}.

Lemma plain_text_encoded e b : known e -> plain_text (EncodeToString e b) = true.
Proof.
  intros He. unfold plain_text, EncodeToString.
  assert (Hf : Forall (fun c => is_ascii7 c = true) (encode e b))
    by (apply encode_Forall; [intros z Hz; by apply sextet_char_ok|done]).
  induction Hf as [|c l Hc _ IH]; [done|]. cbn [string_of_list_ascii all_chars]. by rewrite Hc, IH.
Qed.

Lemma token_header_plain kid : plain_text kid = true -> plain_claims (token_header kid).
Proof.
  intros Hk k c Hl. apply elem_of_list_to_map_2 in Hl. rewrite !elem_of_cons, elem_of_nil in Hl.
  destruct Hl as [[= -> ->]|[[= -> ->]|[[= -> ->]|[]]]]; done.
Qed.

(** The signature of a token is of 64 bytes, whatever the size of its integers, and splits. *)
Lemma signature_halves n k h r s : ecdsa_Sign n k h = Some (r, s) ->
  List.length (pad r 32 ++ pad s 32) = 64%nat /\
  get_be (take 32 (pad r 32 ++ pad s 32)) = r /\ get_be (drop 32 (pad r 32 ++ pad s 32)) = s.
Proof.
  intros [Hr Hs]%ecdsa_range.
  destruct (pad_spec r 32) as [Lr Gr]; [by split; [lia|]; apply Hr|]. destruct (pad_spec s 32) as [Ls Gs]; [by split; [lia|]; apply Hs|].
  rewrite length_app, Lr, Ls. split; [done|]. rewrite take_app_length', drop_app_length' by (by rewrite Lr). done.
Qed.

Lemma split_three (p q r : string) : contains_char "."%char p = false -> contains_char "."%char q = false -> contains_char "."%char r = false ->
  split_char "."%char ((p +:+ "." +:+ q) +:+ "." +:+ r) = [p; q; r].
Proof.
  intros Hp Hq Hr. rewrite string_app_assoc. change ("." +:+ r) with (String "."%char r). change ("." +:+ q) with (String "."%char q).
  rewrite string_app_cons, (split_char_app "."%char p) by done. by rewrite split_char_app, split_char_none.
Qed.

Lemma sign_verifies {A} s n cs token (dst : claims -> option A) a :
  plain_text (sg_kid s) = true -> plain_claims cs -> dst cs = Some a -> Sign s n cs = Some token -> Verify s token dst = Ok a.
Proof.
  intros Hk Hc Hd Hs. unfold Sign in Hs. assert (Hraw : known RawURLEncoding) by (by right).
  destruct (json_Marshal (token_header (sg_kid s))) as [header|] eqn:Eh; [|done].
  destruct (json_Marshal cs) as [payload|] eqn:Ep; [|done]. cbn [mbind option_bind] in Hs.
  destruct (ecdsa_Sign _ _ _) as [[r sv]|] eqn:Es; [|done]. injection Hs as <-.
  destruct (signature_halves _ _ _ _ _ Es) as (Hl & Hr & Hsv).
  unfold Verify. rewrite split_three by (by apply EncodeToString_no_dot). rewrite !DecodeString_EncodeToString by done.
  cbn [or_err mbind outcome_bind].
  rewrite (json_roundtrip _ _ (token_header_plain _ Hk) Eh). cbn [or_err mbind option_bind outcome_bind].
  change (str_field "alg" (token_header (sg_kid s))) with (Some "ES256"). cbn [or_err mbind outcome_bind].
  change (negb ("ES256" =? "ES256")%string) with false. cbn [err_if mbind outcome_bind].
  rewrite Hl, Hr, Hsv. change (negb (64 =? 64)%nat) with false. cbn [err_if mbind outcome_bind].
  rewrite (ecdsa_verifies _ _ _ _ _ Es). cbn [negb err_if mbind outcome_bind].
  rewrite (json_roundtrip _ _ Hc Ep). cbn [mbind option_bind]. by rewrite Hd.
Qed.

(** A token made by [Sign] verifies under the same key, whatever the size of the integers of its
    signature, and the caller reads from it exactly the fields of the claims that were signed. *)
Lemma Verify_Sign {A} (s : Signer) (n : nat) (cs : claims) (token : string) (dst : claims -> option A) (a : A) :
  plain_text (sg_kid s) = true -> plain_claims cs -> dst cs = Some a -> Sign s n cs = Some token -> Verify s token dst = Ok a.
Proof. apply sign_verifies. Qed.

Lemma newSigner_Some key s : newSigner key = Some s -> sg_key s = key /\ plain_text (sg_kid s) = true.
Proof.
  unfold newSigner. destruct (x509_MarshalPKIXPublicKey key); [|done]. intros [= <-]. split; [done|]. apply plain_text_encoded. by right.
Qed.

(** ** The key survives a restart *)

Context `{RnL : RandLaws, AeL : AEADLaws}.

(** A key is loaded from where it is, or from where it was put. *)
Definition stored_key (metaKey : string) (d : DB) (signer : Signer) : Prop :=
  exists der key sealed, meta d !! metaKey = Some sealed /\ non_empty sealed = true /\
    OpenSecret sealed metaKey = Some der /\ x509_ParseECPrivateKey der = Some key /\ newSigner key = Some signer.

Lemma create_stored metaKey s signer s' : create_key metaKey s = (Ok signer, s') -> stored_key metaKey (st_db s') signer.
Proof.
  intros Hc. unfold create_key, of_store, draw, lift, mbind, M_bind in Hc.
  destruct (ecdsa_GenerateKey _) as [key|]; [|done]. cbn [or_err] in Hc.
  destruct (x509_MarshalECPrivateKey key) as [der|] eqn:Ed; [|done]. cbn [or_err SetMeta write update st_db set_db] in Hc.
  destruct (newSigner key) as [sg|] eqn:Es; [|done]. injection Hc as <- <-.
  eexists der, key, _. cbn [st_db set_db meta]. rewrite lookup_insert_eq.
  split_and!; [done|apply SealSecret_non_empty|apply OpenSecret_SealSecret|by apply x509_roundtrip|done].
Qed.

Lemma load_stored metaKey s signer s' : LoadOrCreate metaKey s = (Ok signer, s') -> stored_key metaKey (st_db s') signer.
Proof.
  unfold LoadOrCreate, GetMeta, query_outcome. destruct (meta (st_db s) !! metaKey) as [sealed|] eqn:Em; cbn [or_err]; [|apply create_stored].
  destruct (non_empty sealed) eqn:Hne; [|apply create_stored]. unfold lift, mbind, M_bind.
  destruct (OpenSecret sealed metaKey) as [der|] eqn:Eo; [|done]. cbn [or_err].
  destruct (x509_ParseECPrivateKey der) as [key|] eqn:Ep; [|done]. cbn [or_err].
  destruct (newSigner key) as [sg|] eqn:Es; [|done]. cbn [or_err]. intros [= <- <-]. by exists der, key, sealed.
Qed.

Lemma load_again metaKey s signer : stored_key metaKey (st_db s) signer -> LoadOrCreate metaKey s = (Ok signer, s).
Proof.
  intros (der & key & sealed & Em & Hne & Eo & Ep & Es). unfold LoadOrCreate, GetMeta, query_outcome. rewrite Em. cbn [or_err].
  rewrite Hne. unfold lift, mbind, M_bind. rewrite Eo. cbn [or_err]. rewrite Ep. cbn [or_err]. by rewrite Es.
Qed.

(** The signing key survives: once a key was loaded or created, every later start that finds the
    same value in the metadata table loads the same key under the same key id, whatever else changed
    in the store, and changes nothing. *)
Lemma LoadOrCreate_survives (metaKey : string) (s s1 s2 : St) (signer : Signer) :
  LoadOrCreate metaKey s = (Ok signer, s1) -> meta (st_db s2) !! metaKey = meta (st_db s1) !! metaKey ->
  LoadOrCreate metaKey s2 = (Ok signer, s2).
Proof.
  intros (der & key & sealed & Em & Hrest)%load_stored Heq. apply load_again. exists der, key, sealed. by rewrite Heq.
Qed.
End SignerFacts.

(** ** A codec and a curve for examples *)

Definition claim_code (c : claim) : string + (Z + (bool + (list string + unit))) :=
  match c with
  | c_str s => inl s
  | c_num z => inr (inl z)
  | c_bool b => inr (inr (inl b))
  | c_list l => inr (inr (inr (inl l)))
  | c_other => inr (inr (inr (inr tt)))
  end.
Definition code_claim (x : string + (Z + (bool + (list string + unit)))) : claim :=
  match x with
  | inl s => c_str s
  | inr (inl z) => c_num z
  | inr (inr (inl b)) => c_bool b
  | inr (inr (inr (inl l))) => c_list l
  | inr (inr (inr (inr tt))) => c_other
  end.

#[global] Program Instance claim_countable : Countable claim := inj_countable' claim_code code_claim _.
Next Obligation. by intros []. Qed.

(** Objects as the bits of a number. *)
Fixpoint positive_bytes (p : positive) : bytes :=
  match p with
  | xH => []
  | xO p' => Byte.x00 :: positive_bytes p'
  | xI p' => Byte.x01 :: positive_bytes p'
  end.
Fixpoint bytes_positive (b : bytes) : positive :=
  match b with
  | [] => xH
  | Byte.x00 :: b' => xO (bytes_positive b')
  | _ :: b' => xI (bytes_positive b')
  end.

Definition toy_json : JSON := {|
  json_Marshal m := Some (positive_bytes (countable.encode m));
  json_Unmarshal b := countable.decode (bytes_positive b) |}.

#[global] Instance toy_json_laws : JSONLaws toy_json.
Proof.
  split; [by intros m _; eexists|]. intros m b _ [= <-]. cbn [json_Unmarshal toy_json].
  assert (Hp : forall p, bytes_positive (positive_bytes p) = p) by (intros p; induction p; cbn; congruence).
  rewrite Hp. apply countable.decode_encode.
Qed.

(** A signature that is its key and a short integer. *)
Definition toy_ecdsa : ECDSA := {|
  PrivateKey := Z;
  ecdsa_GenerateKey n := Some (Z.of_nat n mod 1000 + 1);
  ecdsa_Sign n k _ := if (0 <? k) && (k <? 1000) then Some (k, 1) else None;
  ecdsa_Verify k _ r s := (r =? k) && (s =? 1);
  key_X k := k;
  key_Y k := k;
  x509_MarshalECPrivateKey k := if (0 <=? k) && (k <? 65536) then Some (put_be 2 k) else None;
  x509_ParseECPrivateKey b := Some (get_be b);
  x509_MarshalPKIXPublicKey k := Some (put_be 2 k) |}.

#[global] Instance toy_ecdsa_laws : ECDSALaws toy_ecdsa.
Proof.
  split; cbn.
  - intros n k h r s. destruct (Z.ltb_spec 0 k), (Z.ltb_spec k 1000); cbn; intros [= <- <-]; lia.
  - intros n k h r s. destruct ((0 <? k) && (k <? 1000)); intros [= <- <-]. by rewrite Z.eqb_refl.
  - intros k b. destruct (Z.leb_spec 0 k), (Z.ltb_spec k 65536); cbn; intros [= <-]. rewrite get_put_be.
    f_equal. apply Z.mod_small. lia.
Qed.

Section JwsSamples.
#[local] Existing Instance toy_json.
#[local] Existing Instance toy_ecdsa.
#[local] Existing Instance toy_rand.
#[local] Existing Instance toy_aead.
#[local] Instance id_sha : Sha256 := fun b => b.

Definition sample_signer : Signer := mkSigner (7 : @PrivateKey toy_ecdsa) "kid".
Definition sample_claims : claims := list_to_map [("sub", c_str "alice"); ("exp", c_num 1700003600)].

Lemma sample_claims_plain : plain_claims sample_claims.
Proof.
  intros k c Hl. apply elem_of_list_to_map_2 in Hl. rewrite !elem_of_cons, elem_of_nil in Hl.
  destruct Hl as [[= -> ->]|[[= -> ->]|[]]]; by vm_compute.
Qed.

Lemma Verify_Sign_witness :
  match Sign sample_signer 0 sample_claims with
  | Some token => Verify sample_signer token (str_field "sub") = Ok "alice"
  | None => False
  end.
Proof.
  destruct (Sign sample_signer 0 sample_claims) as [token|] eqn:E; [|by vm_compute in E].
  apply (Verify_Sign sample_signer 0 sample_claims token (str_field "sub") "alice"); [by vm_compute|exact sample_claims_plain|by vm_compute|exact E].
Defined.

Definition created : outcome LoadErr Signer * St := LoadOrCreate "oidc_signing_key" empty_state.

Lemma created_ok : match fst created with Ok _ => st_draw (snd created) = 2%nat | _ => False end.
Proof. vm_compute. reflexivity. Qed.

Lemma LoadOrCreate_survives_witness : exists signer s1,
  created = (Ok signer, s1) /\ st_draw s1 = 2%nat /\ LoadOrCreate "oidc_signing_key" s1 = (Ok signer, s1).
Proof.
  assert (Hok := created_ok). destruct created as [[signer|e|] s1] eqn:E; [|destruct Hok..]. exists signer, s1.
  split; [reflexivity|]. split; [exact Hok|].
  exact (LoadOrCreate_survives "oidc_signing_key" empty_state s1 s1 signer E eq_refl).
Defined.
End JwsSamples.
