(* ===== verification/Oidc.v ===== *)
(** * The OpenID Connect provider: package [oidc]

    The browser sessions, the authorization codes and the requests that wait for a sign-in, all in
    memory; and the handlers, each a computation over the provider's state and the store that ends
    in a reply. An early return of a handler is a reply thrown. The system's random source does not
    fail; every reading of the clock and every draw is the next one of the store's. *)

From S2P Require Import Prelude Text Hostport Base64 Names Keytab Replay Model Secret IdRange Db Principals PrincipalFacts Directory DirectoryFacts Accounts Jws.

(** ** What the handlers read and write *)

(** The parts of a request the handlers read: the query, the form ([None] when it is malformed), the
    credential of HTTP Basic, the session cookie and two headers. *)
Record HReq : Type := mkHReq {
  hr_Query : Values;
  hr_Form : option Values;
  hr_Basic : option (string * string);
  hr_Cookie : string;
  hr_Authorization : string;
  hr_Origin : string;
}.

Inductive Body : Type :=
| b_page (status : Z) (message detail : string)
| b_login (req label problem : string)
| b_redirect (location : string)
| b_json (doc : claims)
| b_jwks (key : gmap string string)
| b_tokenError (status : Z) (code desc : string)
| b_error (status : Z) (text : string)
| b_noContent.

Record Cookie : Type := mkCookie { ck_value : string; ck_secure : bool; ck_maxAge : Z }.

Record Reply : Type := mkReply { rp_body : Body; rp_cookie : option Cookie; rp_allowOrigin : option string }.

Definition say (b : Body) : Reply := mkReply b None None.

(** [strings.Fields]. *)
Fixpoint fields_from (s word : string) : list string :=
  match s with
  | EmptyString => if non_empty word then [word] else []
  | String c s' =>
      if is_space c then (if non_empty word then word :: fields_from s' EmptyString else fields_from s' EmptyString)
      else fields_from s' (word +:+ String c EmptyString)
  end.
Definition Fields (s : string) : list string := fields_from s EmptyString.

Definition slices_Contains (l : list string) (s : string) : bool := existsb (String.eqb s) l.

(** ** Configuration and state *)

Record Client : Type := mkClient {
  cl_ID : string;
  cl_Name : string;
  cl_Secret : string;
  cl_RedirectURIs : list string;
  cl_PostLogoutRedirect : list string;
}.

Record OidcConfig : Type := mkOidcConfig {
  oc_Issuer : string;
  oc_AllowedOrigins : list string;
  oc_Clients : list Client;
  oc_ServiceAccountGroup : string;
  oc_SessionLifetime : Duration;
  oc_SessionIdle : Duration;
  oc_CodeLifetime : Duration;
  oc_TokenLifetime : Duration;
}.

Record session : Type := mkSession { ss_id : string; ss_subject : string; ss_signedIn : Time; ss_lastUsed : Time }.

Record authCode : Type := mkAuthCode {
  ac_code : string;
  ac_clientID : string;
  ac_redirect : string;
  ac_challenge : string;
  ac_subject : string;
  ac_nonce : string;
  ac_authTime : Time;
  ac_issued : Time;
}.

Record request : Type := mkRequest {
  rq_id : string;
  rq_client : Client;
  rq_redirect : string;
  rq_state : string;
  rq_nonce : string;
  rq_challenge : string;
  rq_issued : Time;
}.

Record OServer : Type := mkOServer {
  os_st : St;
  os_sessions : gmap string session;
  os_codes : gmap string authCode;
  os_pending : gmap string request;
}.

Definition set_os_st (s : St) (o : OServer) : OServer := mkOServer s (os_sessions o) (os_codes o) (os_pending o).
Definition set_sessions (f : gmap string session -> gmap string session) (o : OServer) : OServer :=
  mkOServer (os_st o) (f (os_sessions o)) (os_codes o) (os_pending o).
Definition set_codes (f : gmap string authCode -> gmap string authCode) (o : OServer) : OServer :=
  mkOServer (os_st o) (os_sessions o) (f (os_codes o)) (os_pending o).
Definition set_pending (f : gmap string request -> gmap string request) (o : OServer) : OServer :=
  mkOServer (os_st o) (os_sessions o) (os_codes o) (f (os_pending o)).

Definition newOServer (s : St) : OServer := mkOServer s ∅ ∅ ∅.

Record subjectClaims : Type := mkSubjectClaims {
  sc_Subject : string; sc_Email : string; sc_Name : string; sc_Groups : list string }.

Abbreviation H := (M OServer Reply).

Definition pathDiscovery : string := "/.well-known/openid-configuration".
Definition pathKeys : string := "/keys".
Definition pathAuthorize : string := "/auth".
Definition pathToken : string := "/token".
Definition pathUserInfo : string := "/userinfo".
Definition pathEndAuth : string := "/end-session".
Definition pathLogin : string := "/auth/login".

Definition MetaSigningKey : string := "oidc_signing_key".

Section Provider.
Context `{Ck : Clock, Rn : Rand, Ae : AEAD, Bc : Bcrypt, Tt : Totp, Js : JSON, Sh : Sha256, Ec : ECDSA, Ur : UrlLib, Mr : MapRange}.

Definition stored {A} (m : Tx A) : H (outcome StoreErr A) := fun o =>
  let '(r, s') := m (os_st o) in (Ok r, set_os_st s' o).

Definition o_now : H Time := fun o =>
  (Ok (clock (st_tick (os_st o))), set_os_st (snd (time_now (os_st o))) o).
Definition o_draw : H nat := fun o => (Ok (st_draw (os_st o)), set_os_st (snd (draw (os_st o))) o).
Definition change (f : OServer -> OServer) : H unit := fun o => (Ok tt, f o).
Definition look {A} (f : OServer -> A) : H A := fun o => (Ok (f o), o).

Definition randomID : H string := i ← o_draw; mret (EncodeToString RawURLEncoding (rand 32 i)).

(** [for k, v := range m { if now().Sub(issued) > timeout { delete(m, k) } }]. *)
Fixpoint sweep_loop {A} (timeout : Duration) (issued : A -> Time) (l : list (string * A)) (m : gmap string A) : H (gmap string A) :=
  match l with
  | [] => mret m
  | (k, v) :: l' =>
      now ← o_now;
      sweep_loop timeout issued l' (if timeout <? Sub now (issued v) then delete k m else m)
  end.

Context (cfg : OidcConfig).

(** ** session.go *)

Definition expiredLocked (sess : session) (now : Time) : bool :=
  if (0 <? oc_SessionLifetime cfg) && (oc_SessionLifetime cfg <? Sub now (ss_signedIn sess)) then true
  else (0 <? oc_SessionIdle cfg) && (oc_SessionIdle cfg <? Sub now (ss_lastUsed sess)).

Definition sweepSessions (now : Time) (m : gmap string session) : gmap string session :=
  filter (fun '(_, sess) => expiredLocked sess now = false) m.

Definition sessions_start (subject : string) : H session :=
  id ← randomID;
  now ← o_now;
  let sess := mkSession id subject now now in
  _ ← change (set_sessions (fun m => sweepSessions now (<[id := sess]> m)));
  mret sess.

Definition sessions_get (r : HReq) : H (option session) :=
  if is_empty (hr_Cookie r) then mret None
  else
    found ← look (fun o => os_sessions o !! hr_Cookie r);
    match found with
    | None => mret None
    | Some sess =>
        now ← o_now;
        if expiredLocked sess now then
          _ ← change (set_sessions (delete (ss_id sess)));
          mret None
        else
          let sess := mkSession (ss_id sess) (ss_subject sess) (ss_signedIn sess) now in
          _ ← change (set_sessions (<[hr_Cookie r := sess]>));
          mret (Some sess)
    end.

Definition sessions_end (r : HReq) : H unit :=
  if is_empty (hr_Cookie r) then mret tt else change (set_sessions (delete (hr_Cookie r))).

(** ** code.go *)

Definition codes_issue (a : authCode) : H string :=
  id ← randomID;
  issued ← o_now;
  let a := mkAuthCode id (ac_clientID a) (ac_redirect a) (ac_challenge a) (ac_subject a) (ac_nonce a) (ac_authTime a) issued in
  m ← look os_codes;
  m ← sweep_loop (oc_CodeLifetime cfg) ac_issued (map_range _ m) m;
  _ ← change (set_codes (fun _ => <[id := a]> m));
  mret id.

Definition codes_take (code : string) : H (option authCode) :=
  found ← look (fun o => os_codes o !! code);
  match found with
  | None => mret None
  | Some a =>
      _ ← change (set_codes (delete code));
      now ← o_now;
      if oc_CodeLifetime cfg <? Sub now (ac_issued a) then mret None else mret (Some a)
  end.

Definition verifyPKCE (challenge verifier : string) : bool :=
  if is_empty challenge || is_empty verifier then false
  else String.eqb challenge (EncodeToString RawURLEncoding (sha256 (bytes_of_string verifier))).

(** ** authorize.go: pending requests *)

Definition pending_put (req : request) : H string :=
  id ← randomID;
  issued ← o_now;
  let req := mkRequest id (rq_client req) (rq_redirect req) (rq_state req) (rq_nonce req) (rq_challenge req) issued in
  m ← look os_pending;
  m ← sweep_loop (oc_CodeLifetime cfg) rq_issued (map_range _ m) m;
  _ ← change (set_pending (fun _ => <[id := req]> m));
  mret id.

Definition pending_get (id : string) : H (option request) :=
  found ← look (fun o => os_pending o !! id);
  match found with
  | None => mret None
  | Some req =>
      now ← o_now;
      if oc_CodeLifetime cfg <? Sub now (rq_issued req) then mret None else mret (Some req)
  end.

Definition pending_done (id : string) : H unit := change (set_pending (delete id)).

(** ** claims.go *)

Definition groupNames (d : DB) (u : User) (all : list Group) : outcome StoreErr (list string) :=
  let byGID : gmap Z string := fold_left (fun m g => <[g_GIDNumber g := g_Name g]> m) all ∅ in
  match UserGIDs d u with
  | Some gids => Ok (omap (fun gid => byGID !! gid) (gids : list Z))
  | None => Err ErrNoRows
  end.

(** The store's answer, [None] for an account that is gone or switched off. *)
Definition claims_of (name : string) : H (outcome StoreErr (option subjectClaims)) :=
  found ← stored (GetUser name);
  match found with
  | Err ErrNotFound => mret (Ok None)
  | Err e => mret (Err e)
  | Panic => lift Panic
  | Ok u =>
      if u_Disabled u then mret (Ok None)
      else
        d ← look (fun o => st_db (os_st o));
        all ← stored ListGroups;
        mret (all ← all; groups ← groupNames d u all;
              Ok (Some (mkSubjectClaims (u_Name u) (u_Mail u) (TrimSpace (u_GivenName u +:+ " " +:+ u_SN u)) groups)))
  end.

(** ** oidc.go *)

Definition client (id : string) : option Client := List.find (fun c => String.eqb (cl_ID c) id) (oc_Clients cfg).

Definition registered (uris : list string) (uri : string) : bool := slices_Contains uris uri.

Definition allowOrigin (r : HReq) : option string :=
  if is_empty (hr_Origin r) || negb (slices_Contains (oc_AllowedOrigins cfg) (hr_Origin r)) then None else Some (hr_Origin r).

Definition with_origin (r : HReq) (reply : Reply) : Reply := mkReply (rp_body reply) (rp_cookie reply) (allowOrigin r).

(** The reply of a handler, whichever way it returned. *)
Definition finish (m : H Reply) (f : Reply -> Reply) : H Reply := fun o =>
  match m o with
  | (Ok a, o') | (Err a, o') => (Ok (f a), o')
  | (Panic, o') => (Panic, o')
  end.

Definition cors (next : HReq -> H Reply) (r : HReq) : H Reply := finish (next r) (with_origin r).

Definition preflight (r : HReq) : H Reply := mret (with_origin r (say b_noContent)).

(** ** authorize.go *)

Definition state_param (state : string) : list (string * string) := if is_empty state then [] else [("state", state)].

Definition redirectError (redirect state code desc : string) : Reply :=
  match url_Parse redirect with
  | None => say (b_page 400 desc EmptyString)
  | Some u => say (b_redirect (url_String (url_Set ([("error", code); ("error_description", desc)] ++ state_param state) u)))
  end.

Definition issueCode (req : request) (subject : string) (authTime : Time) : H Reply :=
  code ← codes_issue (mkAuthCode EmptyString (cl_ID (rq_client req)) (rq_redirect req) (rq_challenge req) subject (rq_nonce req) authTime zeroTime);
  match url_Parse (rq_redirect req) with
  | None => mret (say (b_page 500 "the registered redirect URI will not parse" (rq_redirect req)))
  | Some u => mret (say (b_redirect (url_String (url_Set ([("code", code)] ++ state_param (rq_state req)) u))))
  end.

Definition authorize (r : HReq) : H Reply :=
  let q := hr_Query r in
  client ← lift (or_err (say (b_page 400 "unknown client" (Get q "client_id"))) (client (Get q "client_id")));
  let redirect := Get q "redirect_uri" in
  _ ← throw_if (List.length (cl_RedirectURIs client) =? 0)%nat
        (say (b_page 400 "this client exists only as a token audience and has no browser sign-in" (cl_ID client)));
  _ ← throw_if (negb (registered (cl_RedirectURIs client) redirect))
        (say (b_page 400 "this redirect URI is not registered for the client" redirect));
  let state := Get q "state" in
  _ ← throw_if (negb (String.eqb (Get q "response_type") "code"))
        (redirectError redirect state "unsupported_response_type" "only the authorization code flow is served");
  _ ← throw_if (negb (String.eqb (Get q "code_challenge_method") "S256"))
        (redirectError redirect state "invalid_request" "code_challenge_method must be S256");
  _ ← throw_if (is_empty (Get q "code_challenge"))
        (redirectError redirect state "invalid_request" "a code_challenge is required");
  let req := mkRequest EmptyString client redirect state (Get q "nonce") (Get q "code_challenge") zeroTime in
  let prompts := Fields (Get q "prompt") in
  sess ← sessions_get r;
  match sess, slices_Contains prompts "login" with
  | Some sess, false => issueCode req (ss_subject sess) (ss_signedIn sess)
  | _, _ =>
      if slices_Contains prompts "none" then
        mret (redirectError redirect state "login_required" "nobody is signed in and prompt=none forbids asking")
      else
        id ← pending_put req;
        mret (say (b_redirect (pathLogin +:+ "?req=" +:+ QueryEscape id)))
  end.

Definition clientLabel (c : Client) : string := if non_empty (cl_Name c) then cl_Name c else cl_ID c.

Definition renderLogin (req : request) (problem : string) : Reply :=
  say (b_login (rq_id req) (clientLabel (rq_client req)) problem).

Definition expired_signin : Reply := say (b_page 400 "this sign-in has expired; start again from the application" EmptyString).

Definition loginForm (r : HReq) : H Reply :=
  found ← pending_get (Get (hr_Query r) "req");
  req ← lift (or_err expired_signin found);
  mret (renderLogin req EmptyString).

Definition lookup_account (login : string) : H (option User) :=
  found ← stored (UserByLogin login);
  match found with
  | Ok u => mret (Some u)
  | Err _ => mret None
  | Panic => lift Panic
  end.

Definition check (login password : string) : H (Outcome * string) :=
  u ← lookup_account login;
  match u with
  | None => mret (OutcomeInvalid, EmptyString)
  | Some u => now ← o_now; mret (Authenticate now u password, u_Name u)
  end.

(** Whether the cookie is marked Secure: the scheme of the issuer. *)
Context (secure : bool).

Definition session_cookie (sess : session) : Cookie := mkCookie (ss_id sess) secure (life_seconds (oc_SessionLifetime cfg)).
Definition cleared_cookie : Cookie := mkCookie EmptyString secure (-1).

Definition with_cookie (c : Cookie) (reply : Reply) : Reply := mkReply (rp_body reply) (Some c) (rp_allowOrigin reply).

Definition login (r : HReq) : H Reply :=
  form ← lift (or_err (say (b_page 400 "malformed form" EmptyString)) (hr_Form r));
  found ← pending_get (Get form "req");
  req ← lift (or_err expired_signin found);
  let name := TrimSpace (Get form "login") in
  '(outcome, subject) ← check name (Get form "password");
  if negb (Granted outcome) then mret (renderLogin req "Incorrect login or password.")
  else
    sess ← sessions_start subject;
    _ ← pending_done (rq_id req);
    finish (issueCode req subject (ss_signedIn sess)) (with_cookie (session_cookie sess)).

(** ** token.go *)

Context (sig : Signer).

Definition formDecode (v : string) : string := default v (QueryUnescape v).

Definition authenticateClient (form : Values) (basic : option (string * string)) : outcome string string :=
  let '(id, secret) :=
    match basic with
    | Some (name, pass) => (formDecode name, formDecode pass)
    | None => (TrimSpace (Get form "client_id"), Get form "client_secret")
    end in
  c ← or_err "unknown client" (client id);
  if is_empty (cl_Secret c) && non_empty secret then Err "this client is public and takes no secret"
  else if is_empty (cl_Secret c) then Ok id
  else if negb (String.eqb (cl_Secret c) secret) then Err "the client secret is wrong"
  else Ok id.

(** The answer to an error with a text. *)
Definition or_reply {A} (f : string -> Reply) (o : outcome string A) : H A :=
  lift (match o with Ok a => Ok a | Err e => Err (f e) | Panic => Panic end).

Definition optional (b : bool) (k : string) (v : claim) (m : claims) : claims := if b then <[k := v]> m else m.

(** What a token and the user information both say of an account. *)
Definition about_account (c : subjectClaims) (m : claims) : claims :=
  optional (non_empty (sc_Email c)) "email_verified" (c_bool true)
    (optional (non_empty (sc_Email c)) "email" (c_str (sc_Email c))
    (optional (non_empty (sc_Name c)) "name" (c_str (sc_Name c))
    (optional (negb (List.length (sc_Groups c) =? 0)%nat) "groups" (c_list (sc_Groups c)) m))).

Definition token_claims (audience : string) (c : subjectClaims) (now authTime : Time) (nonce : string) : claims :=
  optional (non_empty nonce) "nonce" (c_str nonce) (about_account c (list_to_map [
    ("iss", c_str (oc_Issuer cfg)); ("sub", c_str (sc_Subject c)); ("aud", c_str audience);
    ("iat", c_num (Unix now)); ("exp", c_num (Unix (now + oc_TokenLifetime cfg))); ("auth_time", c_num (Unix authTime))])).

Definition mint (audience : string) (c : subjectClaims) (now authTime : Time) (nonce : string) : H (option string) :=
  n ← o_draw;
  mret (Sign sig n (token_claims audience c now authTime nonce)).

Definition cannot_sign : Reply := say (b_tokenError 500 "server_error" "cannot sign the token").

(** ** clientcredentials.go *)

Definition clientCredentialsOf (form : Values) (basic : option (string * string)) : option (string * string) :=
  match basic with
  | Some (String c name, secret) => Some (String c name, secret)
  | _ =>
      let name := TrimSpace (Get form "client_id") in
      let secret := Get form "client_secret" in
      if non_empty name && non_empty secret then Some (name, secret) else None
  end.

Definition serviceAccount (name secret : string) : H (option subjectClaims) :=
  u ← lookup_account name;
  match u with
  | None => mret None
  | Some u =>
      now ← o_now;
      if negb (Granted (Authenticate now u secret)) then mret None
      else
        cs ← claims_of (u_Name u);
        match cs with
        | Ok (Some c) =>
            if negb (slices_Contains (sc_Groups c) (oc_ServiceAccountGroup cfg)) then mret None
            else mret (Some (mkSubjectClaims ("client:" +:+ sc_Subject c) (sc_Email c) (sc_Name c) (sc_Groups c)))
        | _ => mret None
        end
  end.

Definition clientCredentials (form : Values) (basic : option (string * string)) : H Reply :=
  _ ← throw_if (is_empty (oc_ServiceAccountGroup cfg))
        (say (b_tokenError 400 "unsupported_grant_type"
          "this provider issues no tokens to service accounts: no service account group is configured"));
  '(name, secret) ← lift (or_err (say (b_tokenError 401 "invalid_client"
      "present the account and its password, by HTTP Basic or as client_id and client_secret")) (clientCredentialsOf form basic));
  let resource := TrimSpace (Get form "resource") in
  let audience := if is_empty resource then TrimSpace (Get form "audience") else resource in
  _ ← throw_if (is_empty audience) (say (b_tokenError 400 "invalid_target"
        "name the resource this token is for, as resource=<uri> (RFC 8707)"));
  _ ← throw_if (negb (existsb (fun c => String.eqb (cl_ID c) audience) (oc_Clients cfg)))
        (say (b_tokenError 400 "invalid_target" "this provider serves no resource by that name"));
  found ← serviceAccount name secret;
  c ← lift (or_err (say (b_tokenError 401 "invalid_client" "the account or the secret is wrong")) found);
  now ← o_now;
  minted ← mint audience c now now EmptyString;
  token ← lift (or_err cannot_sign minted);
  mret (say (b_json (list_to_map [("access_token", c_str token); ("token_type", c_str "Bearer");
    ("expires_in", c_num (life_seconds (oc_TokenLifetime cfg)))]))).

Definition invalid_grant (desc : string) : Reply := say (b_tokenError 400 "invalid_grant" desc).

(** The exchange of a code, once the client is known. *)
Definition exchange (clientID : string) (form : Values) : H Reply :=
  found ← codes_take (Get form "code");
  code ← lift (or_err (invalid_grant "the code is unknown, expired or already used") found);
  _ ← throw_if (negb (String.eqb clientID (ac_clientID code))) (invalid_grant "this code was issued to another client");
  _ ← throw_if (negb (String.eqb (Get form "redirect_uri") (ac_redirect code)))
        (invalid_grant "redirect_uri does not match the one the code was issued for");
  _ ← throw_if (negb (verifyPKCE (ac_challenge code) (Get form "code_verifier")))
        (invalid_grant "the code verifier does not match the challenge");
  cs ← claims_of (ac_subject code);
  found ← lift (match cs with Ok c => Ok c | _ => Err (say (b_tokenError 500 "server_error" "cannot read the account")) end);
  c ← lift (or_err (invalid_grant "the account is gone or disabled") found);
  now ← o_now;
  minted ← mint (ac_clientID code) c now (ac_authTime code) (ac_nonce code);
  idToken ← lift (or_err cannot_sign minted);
  minted ← mint (ac_clientID code) c now (ac_authTime code) EmptyString;
  access ← lift (or_err cannot_sign minted);
  mret (say (b_json (list_to_map [("token_type", c_str "Bearer"); ("expires_in", c_num (life_seconds (oc_TokenLifetime cfg)));
    ("scope", c_str "openid profile email groups"); ("id_token", c_str idToken); ("access_token", c_str access)]))).

Definition token (r : HReq) : H Reply :=
  form ← lift (or_err (say (b_tokenError 400 "invalid_request" "malformed form")) (hr_Form r));
  if String.eqb (Get form "grant_type") "client_credentials" then clientCredentials form (hr_Basic r)
  else
    _ ← throw_if (negb (String.eqb (Get form "grant_type") "authorization_code"))
          (say (b_tokenError 400 "unsupported_grant_type" "authorization_code and client_credentials are served"));
    clientID ← or_reply (fun e => say (b_tokenError 401 "invalid_client" e)) (authenticateClient form (hr_Basic r));
    exchange clientID form.

(** ** verify.go and endpoints.go *)


Definition jws_text (e : JwsErr) : string :=
  match e with
  | ErrNotCompact => "not a compact JWS"
  | ErrHeader => "malformed header"
  | ErrNotES256 => "not an ES256 token"
  | ErrSignature => "malformed signature"
  | ErrNotOurs => "the signature is not ours"
  | ErrPayload => "malformed payload"
  | ErrClaims => "malformed claims"
  end.

(** The fields of a token [verify] reads. *)
Definition verified_fields (m : claims) : option (string * string * Z) :=
  iss ← str_field "iss" m; sub ← str_field "sub" m; exp ← int_field "exp" m; Some (iss, sub, exp).

Definition verify_at (now : Time) (token : string) : outcome string string :=
  match Verify sig token verified_fields with
  | Ok (iss, sub, exp) =>
      if negb (String.eqb iss (oc_Issuer cfg)) then Err "issued by somebody else"
      else if (exp =? 0) || After now (UnixTime exp) then Err "expired"
      else if is_empty sub then Err "no subject"
      else Ok sub
  | Err e => Err (jws_text e)
  | Panic => Panic
  end.

Definition userinfo (r : HReq) : H Reply :=
  let raw := TrimPrefix (hr_Authorization r) "Bearer " in
  _ ← throw_if (is_empty raw || String.eqb raw (hr_Authorization r)) (say (b_error 401 "a bearer token is required"));
  now ← o_now;
  sub ← or_reply (fun e => say (b_error 401 e)) (verify_at now raw);
  cs ← claims_of sub;
  match cs with
  | Ok (Some c) => mret (say (b_json (about_account c (list_to_map [("sub", c_str (sc_Subject c))]))))
  | _ => throw (say (b_error 401 "the account is gone or disabled"))
  end.

Definition signed_out : Body := b_json (list_to_map [("status", c_str "signed out")]).

Definition endSession (r : HReq) : H Reply :=
  _ ← sessions_end r;
  let target := Get (hr_Query r) "post_logout_redirect_uri" in
  let here := with_cookie cleared_cookie (say signed_out) in
  if is_empty target then mret here
  else if negb (existsb (fun c => registered (cl_PostLogoutRedirect c) target) (oc_Clients cfg)) then mret here
  else match url_Parse target with
       | None => mret here
       | Some u =>
           let state := Get (hr_Query r) "state" in
           let u := if is_empty state then u else url_Set [("state", state)] u in
           mret (with_cookie cleared_cookie (say (b_redirect (url_String u))))
       end.

Definition grants : list string :=
  if is_empty (oc_ServiceAccountGroup cfg) then ["authorization_code"] else ["authorization_code"; "client_credentials"].
Definition clientAuth : list string :=
  if is_empty (oc_ServiceAccountGroup cfg) then ["none"] else ["none"; "client_secret_basic"; "client_secret_post"].

Definition discovery (r : HReq) : H Reply := mret (say (b_json (list_to_map [
  ("issuer", c_str (oc_Issuer cfg));
  ("authorization_endpoint", c_str (oc_Issuer cfg +:+ pathAuthorize));
  ("token_endpoint", c_str (oc_Issuer cfg +:+ pathToken));
  ("userinfo_endpoint", c_str (oc_Issuer cfg +:+ pathUserInfo));
  ("jwks_uri", c_str (oc_Issuer cfg +:+ pathKeys));
  ("end_session_endpoint", c_str (oc_Issuer cfg +:+ pathEndAuth));
  ("response_types_supported", c_list ["code"]);
  ("grant_types_supported", c_list grants);
  ("subject_types_supported", c_list ["public"]);
  ("id_token_signing_alg_values_supported", c_list ["ES256"]);
  ("scopes_supported", c_list ["openid"; "profile"; "email"; "groups"]);
  ("claims_supported", c_list ["iss"; "sub"; "aud"; "exp"; "iat"; "auth_time"; "nonce"; "email"; "email_verified"; "name"; "groups"]);
  ("token_endpoint_auth_methods_supported", c_list clientAuth);
  ("code_challenge_methods_supported", c_list ["S256"])]))).

Definition keys (r : HReq) : H Reply := mret (say (b_jwks (JWKS sig))).

(** The patterns of [routes]. *)
Inductive route : Type :=
| GET_discovery | GET_keys | GET_authorize | GET_login | POST_login | POST_token | GET_userinfo | GET_end_session | OPTIONS_any.

Definition routes (rt : route) : HReq -> H Reply :=
  match rt with
  | GET_discovery => cors discovery
  | GET_keys => cors keys
  | GET_authorize => authorize
  | GET_login => loginForm
  | POST_login => login
  | POST_token => cors token
  | GET_userinfo => cors userinfo
  | GET_end_session => endSession
  | OPTIONS_any => preflight
  end.

(** One request served: the reply, whichever way the handler returned; none when it panicked. *)
Definition serve (rt : route) (r : HReq) (o : OServer) : option Reply * OServer :=
  match routes rt r o with
  | (Ok reply, o') | (Err reply, o') => (Some reply, o')
  | (Panic, o') => (None, o')
  end.
End Provider.

(** ** oidc.go: [New] *)

Inductive NewErr : Type :=
| ne_noIssuer | ne_notAbsolute | ne_slash | ne_noClients | ne_clientID | ne_key (e : LoadErr).

Section New.
Context `{Rn : Rand, Ae : AEAD, Js : JSON, Sh : Sha256, Ec : ECDSA, Ur : UrlLib}.

(** The checks, in their order: whether the cookie is to be Secure. *)
Definition checkConfig (cfg : OidcConfig) : outcome NewErr bool :=
  _ ← err_if (is_empty (oc_Issuer cfg)) ne_noIssuer;
  iss ← or_err ne_notAbsolute (url_Parse (oc_Issuer cfg));
  _ ← err_if (is_empty (url_Scheme iss) || is_empty (url_Host iss)) ne_notAbsolute;
  _ ← err_if (HasSuffix (oc_Issuer cfg) "/") ne_slash;
  _ ← err_if (List.length (oc_Clients cfg) =? 0)%nat ne_noClients;
  _ ← err_if (existsb (fun c => is_empty (cl_ID c)) (oc_Clients cfg)) ne_clientID;
  Ok (String.eqb (url_Scheme iss) "https").

Definition New (cfg : OidcConfig) : M St NewErr (Signer * bool) :=
  secure ← lift (checkConfig cfg);
  sig ← (fun s => match LoadOrCreate MetaSigningKey s with
                  | (Ok sig, s') => (Ok sig, s')
                  | (Err e, s') => (Err (ne_key e), s')
                  | (Panic, s') => (Panic, s')
                  end) : M St NewErr Signer;
  mret (sig, secure).
End New.
