(* ===== verification/OidcFacts.v ===== *)
(** * The OpenID Connect provider, proofs

    What a handler may change, and over every history of requests: a token for a person needs an
    earlier sign-in, a code is exchanged once, nobody is redirected to a place that is not
    registered. *)

From S2P Require Import Prelude Text Hostport Base64 Names Keytab Replay Model Secret IdRange Db Principals PrincipalFacts Directory DirectoryFacts Accounts Jws Oidc.

(** A run of a bind: the run of its first half, and of the second when the first returned. *)
Lemma bind_inv {St E A B} (m : M St E A) (f : A -> M St E B) s res s' : mbind f m s = (res, s') ->
  (exists a s1, m s = (Ok a, s1) /\ f a s1 = (res, s')) \/ (exists e, m s = (Err e, s') /\ res = Err e) \/ (m s = (Panic, s') /\ res = Panic).
Proof. unfold mbind, M_bind. destruct (m s) as [[a|e|] s1]; naive_solver. Qed.

Section Effects.
Context `{Ck : Clock, Rn : Rand, Ae : AEAD, Bc : Bcrypt, Tt : Totp, Js : JSON, Sh : Sha256, Ec : ECDSA, Ur : UrlLib, Mr : MapRange}.

Definition drawn_id (i : nat) : string := EncodeToString RawURLEncoding (rand 32 i).

(** What a computation may add: sessions, codes and requests of some kind; it may drop any. *)
Record effect (S : string -> Prop) (C : authCode -> Prop) (P : request -> Prop) (o o' : OServer) : Prop := mkEffect {
  e_db : st_db (os_st o') = st_db (os_st o);
  e_draw : (st_draw (os_st o) <= st_draw (os_st o'))%nat;
  e_sessions id s' : os_sessions o' !! id = Some s' ->
    (exists s, os_sessions o !! id = Some s /\ ss_subject s = ss_subject s') \/ S (ss_subject s');
  e_codes c a : os_codes o' !! c = Some a -> os_codes o !! c = Some a \/
    (C a /\ ac_code a = c /\ exists i, (st_draw (os_st o) <= i < st_draw (os_st o'))%nat /\ c = drawn_id i);
  e_pending id rq : os_pending o' !! id = Some rq -> os_pending o !! id = Some rq \/ P rq;
}.

Abbreviation quiet := (effect (fun _ => False) (fun _ => False) (fun _ => False)).

Lemma effect_refl S C P o : effect S C P o o.
Proof. split; eauto. Qed.

Lemma effect_trans S C P o1 o2 o3 : effect S C P o1 o2 -> effect S C P o2 o3 -> effect S C P o1 o3.
Proof.
  intros [D1 N1 S1 C1 P1] [D2 N2 S2 C2 P2]. split; [congruence|lia| | |].
  - intros id s' [(s & [(s0 & H0 & E0)|Hn]%S1 & E)|Hn]%S2; [left; exists s0; split; [done|congruence]|right; by rewrite <- E|by right].
  - intros c a [[Ho|(Hc & Hi & i & Hr & ->)]%C1|(Hc & Hi & i & Hr & ->)]%C2; [by left|right; split_and!; [done..|exists i; split; [lia|done]]..].
  - intros id rq [[Ho|Hp]%P1|Hp]%P2; auto.
Qed.

Lemma effect_mono (S S' : string -> Prop) (C C' : authCode -> Prop) (P P' : request -> Prop) o o' :
  (forall x, S x -> S' x) -> (forall x, C x -> C' x) -> (forall x, P x -> P' x) -> effect S C P o o' -> effect S' C' P' o o'.
Proof. intros HS HC HP [D N E1 E2 E3]. split; [done|done| | |]; naive_solver. Qed.

Lemma quiet_effect S C P o o' : quiet o o' -> effect S C P o o'.
Proof. by apply effect_mono. Qed.

(** ** Computations that add nothing *)

Definition calm {A} (m : H A) : Prop := forall o res o', m o = (res, o') -> quiet o o'.

Lemma calm_pure {A} (m : H A) : (forall o, snd (m o) = o) -> calm m.
Proof. intros Hm o res o' Hr. specialize (Hm o). rewrite Hr in Hm. cbn in Hm. subst. apply effect_refl. Qed.

Lemma calm_bind {A B} (m : H A) (f : A -> H B) : calm m -> (forall a, calm (f a)) -> calm (mbind f m).
Proof.
  intros Hm Hf o res o' [(a & o1 & H1 & H2)|[(e & H1 & _)|[H1 _]]]%bind_inv; [|by eapply Hm..].
  eapply effect_trans; [by eapply Hm|by eapply Hf].
Qed.

Lemma calm_store {A} (m : Tx A) : (forall s, st_db (snd (m s)) = st_db s /\ st_draw (snd (m s)) = st_draw s) -> calm (stored m).
Proof.
  intros Hm o res o'. unfold stored. specialize (Hm (os_st o)). destruct (m (os_st o)) as [r s']. intros [= <- <-].
  cbn in Hm. destruct Hm as [Hd Hn]. split; cbn; eauto; lia.
Qed.

Lemma calm_now : calm o_now.
Proof. intros o res o' [= <- <-]. split; cbn; eauto. Qed.
Lemma calm_draw : calm o_draw.
Proof. intros o res o' [= <- <-]. split; cbn; eauto. Qed.

Lemma calm_ret {A} (a : A) : calm (mret a). Proof. by apply calm_pure. Qed.
Lemma calm_lift {A} (x : outcome Reply A) : calm (lift x). Proof. by apply calm_pure. Qed.
Lemma calm_throw {A} e : calm (throw (A := A) e). Proof. by apply calm_pure. Qed.
Lemma calm_throw_if b e : calm (throw_if b e). Proof. by apply calm_pure. Qed.
Lemma calm_look {A} (f : OServer -> A) : calm (look f). Proof. by apply calm_pure. Qed.
Lemma calm_or_reply {A} f (x : outcome string A) : calm (or_reply f x). Proof. by apply calm_pure. Qed.

Lemma calm_if {A} (b : bool) (m n : H A) : calm m -> calm n -> calm (if b then m else n).
Proof. by destruct b. Qed.

Lemma calm_finish m f : calm m -> calm (finish m f).
Proof. intros Hm o res o'. unfold finish. destruct (m o) as [[]] eqn:E; intros [= <- <-]; by eapply Hm. Qed.

Lemma calm_drop_session k : calm (change (set_sessions (delete k))).
Proof.
  intros o res o' [= <- <-]. split; cbn; eauto. intros id s' [_ Hs]%lookup_delete_Some. eauto.
Qed.
Lemma calm_drop_code k : calm (change (set_codes (delete k))).
Proof. intros o res o' [= <- <-]. split; cbn; eauto. intros c a [_ Hs]%lookup_delete_Some. eauto. Qed.
Lemma calm_drop_pending k : calm (change (set_pending (delete k))).
Proof. intros o res o' [= <- <-]. split; cbn; eauto. intros id rq [_ Hs]%lookup_delete_Some. eauto. Qed.
End Effects.

Create HintDb calm.
#[export] Hint Resolve calm_bind calm_now calm_draw calm_ret calm_lift calm_throw calm_throw_if calm_look calm_or_reply calm_if
  calm_finish calm_drop_session calm_drop_code calm_drop_pending : calm.

Section Handlers.
Context `{Ck : Clock, Rn : Rand, Ae : AEAD, Bc : Bcrypt, Tt : Totp, Js : JSON, Sh : Sha256, Ec : ECDSA, Ur : UrlLib, Mr : MapRange}.
Context (cfg : OidcConfig) (secure : bool) (sig : Signer).

Abbreviation quiet := (effect (fun _ => False) (fun _ => False) (fun _ => False)).

(** A query leaves the store as it is. *)
Lemma UserByLogin_run login s : UserByLogin login s = (fst (UserByLogin login s), s).
Proof.
  unfold UserByLogin. destruct (_ =? 0)%nat; [done|]. unfold GetUser, query_outcome.
  destruct (getUser (st_db s) _) as [u|[]|]; try done. destruct (negb _); [done|].
  unfold ListUsers, query. by destruct (List.find _ _).
Qed.

Lemma calm_GetUser name : calm (stored (GetUser name)).
Proof. by apply calm_store. Qed.
Lemma calm_ListGroups : calm (stored ListGroups).
Proof. by apply calm_store. Qed.
Lemma calm_UserByLogin name : calm (stored (UserByLogin name)).
Proof. apply calm_store. intros s. by rewrite UserByLogin_run. Qed.
#[local] Hint Resolve calm_GetUser calm_ListGroups calm_UserByLogin : calm.

Ltac calm :=
  repeat first
    [ progress intros
    | apply calm_bind | apply calm_if | apply calm_finish
    | solve [eauto with calm nocore]
    | case_match ].

Lemma calm_claims_of name : calm (claims_of name).
Proof. unfold claims_of. calm. Qed.
Lemma calm_lookup_account name : calm (lookup_account name).
Proof. unfold lookup_account. calm. Qed.
#[local] Hint Resolve calm_claims_of calm_lookup_account : calm.

Lemma calm_check login password : calm (check login password).
Proof. unfold check. calm. Qed.
Lemma calm_serviceAccount name secret : calm (serviceAccount cfg name secret).
Proof. unfold serviceAccount. calm. Qed.
Lemma calm_mint aud c now at_ nonce : calm (mint cfg sig aud c now at_ nonce).
Proof. unfold mint. calm. Qed.
Lemma calm_pending_get id : calm (pending_get cfg id).
Proof. unfold pending_get. calm. Qed.
Lemma calm_pending_done id : calm (pending_done id).
Proof. unfold pending_done. calm. Qed.
Lemma calm_codes_take code : calm (codes_take cfg code).
Proof. unfold codes_take. calm. Qed.
Lemma calm_sessions_end r : calm (sessions_end r).
Proof. unfold sessions_end. calm. Qed.
#[local] Hint Resolve calm_check calm_serviceAccount calm_mint calm_pending_get calm_pending_done calm_codes_take calm_sessions_end : calm.

Lemma calm_clientCredentials form basic : calm (clientCredentials cfg sig form basic).
Proof. unfold clientCredentials. calm. Qed.
Lemma calm_exchange id form : calm (exchange cfg sig id form).
Proof. unfold exchange. calm. Qed.
#[local] Hint Resolve calm_clientCredentials calm_exchange : calm.

(** The endpoints that start nothing. *)
Definition starts (rt : route) : bool := match rt with GET_authorize | POST_login => true | _ => false end.

Lemma calm_routes rt r : starts rt = false -> calm (routes cfg secure sig rt r).
Proof.
  destruct rt; intros Hs; try discriminate Hs; cbn [routes];
    unfold cors, discovery, keys, loginForm, token, userinfo, endSession, preflight; calm.
Qed.

(** ** What starts a session, a request and a code *)

(** Two states alike but for the clock and the random source. *)
Definition only_store (o o' : OServer) : Prop :=
  o' = set_os_st (os_st o') o /\ st_db (os_st o') = st_db (os_st o) /\ (st_draw (os_st o) <= st_draw (os_st o'))%nat.

Lemma sweep_loop_run {A} timeout (issued : A -> Time) l m o :
  exists (m' : gmap string A) (st' : St), sweep_loop timeout issued l m o = (Ok m', set_os_st st' o) /\ m' ⊆ m /\
    st_db st' = st_db (os_st o) /\ st_draw st' = st_draw (os_st o).
Proof.
  revert m o. induction l as [|[k v] l IH]; intros m o; [by exists m, (os_st o); destruct o|].
  cbn [sweep_loop]. unfold mbind, M_bind, o_now.
  match goal with |- context [sweep_loop _ _ l ?m1 ?o1] => destruct (IH m1 o1) as (m' & st' & Hr & Hsub & Hd & Hn) end.
  exists m', st'. split_and!; [exact Hr| |done|done]. etrans; [exact Hsub|]. case_match; [apply delete_subseteq|done].
Qed.

Lemma sessions_get_run r o : exists (x : option session) (o' : OServer), sessions_get cfg r o = (Ok x, o') /\ quiet o o' /\
  os_codes o' = os_codes o /\ os_pending o' = os_pending o /\
  forall s, x = Some s -> exists s0 now, os_sessions o !! hr_Cookie r = Some s0 /\ ss_subject s0 = ss_subject s /\
    ss_signedIn s0 = ss_signedIn s /\ now = clock (st_tick (os_st o)) /\ expiredLocked cfg s0 now = false.
Proof.
  unfold sessions_get. destruct (is_empty (hr_Cookie r)); [by exists None, o; split_and!; [done|apply effect_refl|..]|].
  unfold mbind, M_bind, look. destruct (os_sessions o !! hr_Cookie r) as [s0|] eqn:Es;
    [|by exists None, o; split_and!; [done|apply effect_refl|..]].
  unfold o_now. destruct (expiredLocked cfg s0 _) eqn:Ee; unfold change.
  - eexists None, _. split_and!; [reflexivity| |done|done|done]. split; cbn; eauto.
    intros id s' [_ Hs]%lookup_delete_Some. eauto.
  - eexists (Some _), _. split_and!; [reflexivity| |done|done|].
    + split; cbn; eauto. intros id s' [[<- <-]|[_ Hs]]%lookup_insert_Some; [|eauto]. left. by exists s0.
    + intros s [= <-]. exists s0, (clock (st_tick (os_st o))). done.
Qed.

Lemma sessions_start_run subject o : exists (s : session) (o' : OServer), sessions_start cfg subject o = (Ok s, o') /\ ss_subject s = subject /\
  effect (eq subject) (fun _ => False) (fun _ => False) o o'.
Proof.
  unfold sessions_start, randomID, mbind, M_bind, o_draw, o_now, change, mret, M_ret.
  eexists _, _. split; [reflexivity|]. split; [done|]. split; cbn; eauto.
  intros id s' Hs. unfold sweepSessions in Hs. apply map_lookup_filter_Some in Hs as [Hs _].
  apply lookup_insert_Some in Hs as [[_ <-]|[_ Hs]]; [by right|eauto].
Qed.

Lemma codes_issue_run a o : exists (id : string) (o' : OServer) (a' : authCode), codes_issue cfg a o = (Ok id, o') /\
  ac_code a' = id /\ ac_clientID a' = ac_clientID a /\ ac_redirect a' = ac_redirect a /\ ac_challenge a' = ac_challenge a /\
  ac_subject a' = ac_subject a /\ effect (fun _ => False) (eq a') (fun _ => False) o o'.
Proof.
  unfold codes_issue, randomID, mbind, M_bind, o_draw, o_now, change, look, mret, M_ret.
  match goal with |- context [sweep_loop ?t ?i ?l ?m ?o1] => destruct (sweep_loop_run t i l m o1) as (m' & st' & -> & Hsub & Hd & Hn) end.
  eexists _, _, (mkAuthCode _ _ _ _ _ _ _ _). split; [reflexivity|]. cbn [ac_code ac_clientID ac_redirect ac_challenge ac_subject].
  split_and!; [reflexivity..|]. cbn in Hd, Hn. split; cbn; eauto; [lia|].
  intros c a1 [[<- <-]|[_ Hs]]%lookup_insert_Some.
  - right. split_and!; [done|done|]. exists (st_draw (os_st o)). split; [lia|done].
  - left. by eapply lookup_weaken.
Qed.

Lemma pending_put_run req o : exists (id : string) (o' : OServer) (rq : request), pending_put cfg req o = (Ok id, o') /\
  rq_client rq = rq_client req /\ rq_redirect rq = rq_redirect req /\ rq_challenge rq = rq_challenge req /\
  effect (fun _ => False) (fun _ => False) (eq rq) o o'.
Proof.
  unfold pending_put, randomID, mbind, M_bind, o_draw, o_now, change, look, mret, M_ret.
  match goal with |- context [sweep_loop ?t ?i ?l ?m ?o1] => destruct (sweep_loop_run t i l m o1) as (m' & st' & -> & Hsub & Hd & Hn) end.
  eexists _, _, (mkRequest _ _ _ _ _ _ _). split; [reflexivity|]. cbn [rq_client rq_redirect rq_challenge].
  split_and!; [reflexivity..|]. cbn in Hd, Hn. split; cbn; eauto; [lia|].
  intros id rq [[<- <-]|[_ Hs]]%lookup_insert_Some; [by right|left; by eapply lookup_weaken].
Qed.

(** A request of a client of the configuration, to a redirect the client registered. *)
Definition request_ok (rq : request) : Prop :=
  rq_client rq ∈ oc_Clients cfg /\ rq_redirect rq ∈ cl_RedirectURIs (rq_client rq) /\ rq_challenge rq <> EmptyString.

(** A code for such a request. *)
Definition code_ok (a : authCode) : Prop := exists c, c ∈ oc_Clients cfg /\ cl_ID c = ac_clientID a /\
  ac_redirect a ∈ cl_RedirectURIs c /\ ac_challenge a <> EmptyString.

(** The reply that takes a code to its client. *)
Definition carries_code (a : authCode) (reply : Reply) : Prop := forall u, url_Parse (ac_redirect a) = Some u ->
  exists state, rp_body reply = b_redirect (url_String (url_Set (("code", ac_code a) :: state_param state) u)).

(** A place a browser may be sent to: the sign-in form, or one that is registered. *)
Definition trusted (location : string) : Prop :=
  (exists id, location = pathLogin +:+ "?req=" +:+ QueryEscape id) \/
  (exists c uri u ps, c ∈ oc_Clients cfg /\ (uri ∈ cl_RedirectURIs c \/ uri ∈ cl_PostLogoutRedirect c) /\
     url_Parse uri = Some u /\ (location = url_String u \/ location = url_String (url_Set ps u))).

Definition safe_reply (reply : Reply) : Prop := forall l, rp_body reply = b_redirect l -> trusted l.

Lemma registered_spec uris uri : registered uris uri = true <-> uri ∈ uris.
Proof.
  unfold registered, slices_Contains. rewrite existsb_exists. split.
  - by intros (x & Hx%list_elem_of_In & ->%String.eqb_eq).
  - intros Hu. exists uri. split; [by apply list_elem_of_In|by apply String.eqb_eq].
Qed.

Lemma client_Some id c : client cfg id = Some c -> c ∈ oc_Clients cfg /\ cl_ID c = id.
Proof. unfold client. intros [Hin Hid%String.eqb_eq]%find_Some_elem. done. Qed.

Lemma redirectError_safe c redirect state code desc : c ∈ oc_Clients cfg -> redirect ∈ cl_RedirectURIs c ->
  safe_reply (redirectError redirect state code desc).
Proof.
  intros Hc Hr l. unfold redirectError. destruct (url_Parse redirect) as [u|] eqn:Eu; cbn; [|done]. intros [= <-]. right.
  exists c, redirect, u. eexists. split_and!; [done|by left|done|by right].
Qed.

Lemma issueCode_run req subject at_ o : request_ok req -> exists (reply : Reply) (o' : OServer),
  issueCode cfg req subject at_ o = (Ok reply, o') /\ safe_reply reply /\
  effect (fun _ => False) (fun a => code_ok a /\ carries_code a reply /\ ac_subject a = subject) (fun _ => False) o o'.
Proof.
  intros (Hc & Hr & Hch). unfold issueCode.
  match goal with |- context [codes_issue cfg ?a] => destruct (codes_issue_run a o) as (id & o1 & a' & Hi & Hcode & Hid & Hre & Hcl & Hsu & He) end.
  unfold mbind, M_bind. rewrite Hi. destruct (url_Parse (rq_redirect req)) as [u|] eqn:Eu; eexists _, o1; (split; [reflexivity|]).
  - split.
    + intros l [= <-]. right. exists (rq_client req), (rq_redirect req), u. eexists. split_and!; [done|by left|done|by right].
    + eapply effect_mono; [..|exact He]; [done| |done]. intros a <-. split_and!; [|intros u' Hu'|done].
      * exists (rq_client req). rewrite Hre, Hcl, Hid. done.
      * rewrite Hre in Hu'. cbn in Hu'. rewrite Eu in Hu'. injection Hu' as <-. exists (rq_state req). by rewrite Hcode.
  - split; [by intros l|]. eapply effect_mono; [..|exact He]; [done| |done]. intros a <-. split_and!; [|intros u' Hu'|done].
    + exists (rq_client req). rewrite Hre, Hcl, Hid. done.
    + rewrite Hre in Hu'. cbn in Hu'. congruence.
Qed.

Lemma lift_run {A} (x : outcome Reply A) (o : OServer) : lift x o = (x, o).
Proof. done. Qed.

(** A run of a handler that ends in a reply, or in either way. *)
Definition replies (run : outcome Reply Reply * OServer) (reply : Reply) (o' : OServer) : Prop :=
  run = (Ok reply, o') \/ run = (Err reply, o').

Definition ends (run : outcome Reply Reply * OServer) (P : OServer -> Prop) (Q : Reply -> OServer -> Prop) : Prop :=
  match run with
  | (Ok reply, o') | (Err reply, o') => Q reply o'
  | (Panic, o') => P o'
  end.

(** [authorize]: nothing but a request that waits, or a code for the person of a live session. *)
Lemma authorize_run r o : exists (reply : Reply) (o' : OServer),
  replies (authorize cfg r o) reply o' /\ safe_reply reply /\
  effect (fun _ => False) (fun a => code_ok a /\ carries_code a reply /\
      exists s now, os_sessions o !! hr_Cookie r = Some s /\ ss_subject s = ac_subject a /\ expiredLocked cfg s now = false)
    request_ok o o'.
Proof.
  unfold authorize. set (q := hr_Query r). unfold mbind at 1, M_bind at 1. rewrite lift_run.
  destruct (client cfg (Get q "client_id")) as [c|] eqn:Ecl; cbn [or_err];
    [|by eexists _, o; split_and!; [by right|intros l|apply effect_refl]].
  apply client_Some in Ecl as [Hc _].
  unfold mbind at 1, M_bind at 1, throw_if at 1. rewrite lift_run.
  destruct (List.length (cl_RedirectURIs c) =? 0)%nat; cbn [err_if]; [by eexists _, o; split_and!; [by right|intros l|apply effect_refl]|].
  unfold mbind at 1, M_bind at 1, throw_if at 1. rewrite lift_run.
  destruct (registered (cl_RedirectURIs c) (Get q "redirect_uri")) eqn:Hreg; cbn [negb err_if];
    [|by eexists _, o; split_and!; [by right|intros l|apply effect_refl]].
  apply registered_spec in Hreg.
  do 2 (unfold mbind at 1, M_bind at 1, throw_if at 1; rewrite lift_run;
    destruct (negb (_ =? _)%string); cbn [err_if]; [by eexists _, o; split_and!; [by right|by eapply redirectError_safe|apply effect_refl]|]).
  unfold mbind at 1, M_bind at 1, throw_if at 1. rewrite lift_run.
  destruct (is_empty (Get q "code_challenge")) eqn:Hch; cbn [err_if]; [by eexists _, o; split_and!; [by right|by eapply redirectError_safe|apply effect_refl]|].
  assert (Hch' : Get q "code_challenge" <> EmptyString) by (intros E; apply is_empty_spec in E; congruence).
  set (req := mkRequest _ _ _ _ _ _ _). assert (Hreq : request_ok req) by done.
  unfold mbind at 1, M_bind at 1. destruct (sessions_get_run r o) as (x & o1 & -> & Hq & _ & _ & Hx).
  assert (Hform : exists (reply : Reply) (o' : OServer),
    (if slices_Contains (Fields (Get q "prompt")) "none" then
        mret (redirectError (Get q "redirect_uri") (Get q "state") "login_required" "nobody is signed in and prompt=none forbids asking")
      else id ← pending_put cfg req; mret (say (b_redirect (pathLogin +:+ "?req=" +:+ QueryEscape id)))) o1 = (Ok reply, o') /\
    safe_reply reply /\ forall C, effect (fun _ => False) C request_ok o o').
  { destruct (slices_Contains _ "none").
    - eexists _, o1. split; [reflexivity|]. split; [by eapply redirectError_safe|]. intros C. by apply quiet_effect.
    - unfold mbind, M_bind. destruct (pending_put_run req o1) as (id & o2 & rq & -> & E1 & E2 & E3 & He).
      eexists _, o2. split; [reflexivity|]. split; [intros l [= <-]; left; by exists id|]. intros C.
      eapply effect_trans; [by apply quiet_effect|]. eapply effect_mono; [..|exact He]; [done|done|].
      intros ? <-. unfold request_ok. rewrite E1, E2, E3. exact Hreq. }
  destruct Hform as (reply & o' & Hrun & Hsafe & Heff).
  destruct x as [s|]; [|exists reply, o'; split_and!; [by left|done|apply Heff]].
  destruct (slices_Contains _ "login"); [exists reply, o'; split_and!; [by left|done|apply Heff]|].
  destruct (Hx s eq_refl) as (s0 & now & Hs0 & Hsub & _ & _ & Hexp).
  destruct (issueCode_run req (ss_subject s) (ss_signedIn s) o1 Hreq) as (rep & o2 & Hi & Hsafe2 & He).
  exists rep, o2. split_and!; [by left|done|]. eapply effect_trans; [by apply quiet_effect|].
  eapply effect_mono; [..|exact He]; [done| |done]. intros a (Hok & Hcar & Hsu). split_and!; [done|done|]. exists s0, now. by rewrite Hsub.
Qed.

Lemma UserByLogin_db login s s' : st_db s = st_db s' -> fst (UserByLogin login s) = fst (UserByLogin login s').
Proof.
  intros E. unfold UserByLogin. destruct (_ =? 0)%nat; [done|]. unfold GetUser, query_outcome, ListUsers, query. rewrite E.
  destruct (getUser (st_db s') _) as [u|[]|]; try done. destruct (negb _); [done|]. by destruct (List.find _ _).
Qed.

(** A sign-in whose credential the directory accepts. *)
Definition granted (o : OServer) (r : HReq) (subject : string) : Prop :=
  exists form u n, hr_Form r = Some form /\ fst (UserByLogin (TrimSpace (Get form "login")) (os_st o)) = Ok u /\
    Granted (Authenticate (clock n) u (Get form "password")) = true /\ u_Name u = subject.

Lemma lookup_account_run login o :
  lookup_account login o = (match fst (UserByLogin login (os_st o)) with Ok u => Ok (Some u) | Err _ => Ok None | Panic => Panic end, o).
Proof.
  unfold lookup_account, stored, mbind, M_bind. rewrite UserByLogin_run. destruct o as [st m1 m2 m3]. cbn [os_st fst set_os_st os_sessions os_codes os_pending].
  by destruct (fst (UserByLogin login st)).
Qed.

Lemma check_run name password o : (exists x, check name password o = (Panic, x) /\ quiet o x) \/
  exists (out : Outcome) (subject : string) (o' : OServer), check name password o = (Ok (out, subject), o') /\ quiet o o' /\
    (Granted out = true -> exists u n, fst (UserByLogin name (os_st o)) = Ok u /\ Granted (Authenticate (clock n) u password) = true /\ u_Name u = subject).
Proof.
  destruct (check name password o) as [res o'] eqn:E. assert (Hq := calm_check name password o res o' E).
  unfold check, mbind, M_bind in E. rewrite lookup_account_run in E. destruct (fst (UserByLogin name (os_st o))) as [u|e|] eqn:Eu.
  - unfold o_now in E. injection E as <- <-. right. eexists _, _, _. split; [reflexivity|]. split; [done|]. intros Hg. by eexists u, _.
  - injection E as <- <-. right. eexists _, _, _. split; [reflexivity|]. split; [done|]. done.
  - injection E as <- <-. left. by eexists.
Qed.

Lemma pending_get_run id o : exists (x : option request) (o' : OServer), pending_get cfg id o = (Ok x, o') /\ quiet o o' /\
  forall rq, x = Some rq -> os_pending o !! id = Some rq.
Proof.
  destruct (pending_get cfg id o) as [res o'] eqn:E. assert (Hq := calm_pending_get id o res o' E).
  unfold pending_get, mbind, M_bind, look in E. destruct (os_pending o !! id) as [rq|]; [|injection E as <- <-; by exists None, o].
  unfold o_now in E. destruct (_ <? _); injection E as <- <-; eexists _, _; (split; [reflexivity|]); (split; [done|]); naive_solver.
Qed.

(** [login]: a session of the person whose credential was accepted, and a code for that person. *)
Lemma login_run r o : (forall id rq, os_pending o !! id = Some rq -> request_ok rq) ->
  ends (login cfg secure r o) (quiet o) (fun reply o' => safe_reply reply /\
    effect (granted o r) (fun a => code_ok a /\ carries_code a reply /\ granted o r (ac_subject a)) (fun _ => False) o o').
Proof.
  intros Hpend. unfold login. unfold mbind at 1, M_bind at 1. rewrite lift_run.
  destruct (hr_Form r) as [form|] eqn:Hf; cbn [or_err]; [|split; [by intros l|apply effect_refl]].
  unfold mbind at 1, M_bind at 1. destruct (pending_get_run (Get form "req") o) as (x & o1 & -> & Hq1 & Hx).
  unfold mbind at 1, M_bind at 1. rewrite lift_run. destruct x as [req|]; cbn [or_err]; [|split; [by intros l|by apply quiet_effect]].
  assert (Hreq : request_ok req) by (by eapply Hpend, Hx).
  unfold mbind at 1, M_bind at 1. destruct (check_run (TrimSpace (Get form "login")) (Get form "password") o1) as
    [(o2 & -> & Hq2)|(out & subject & o2 & -> & Hq2 & Hg)]; [by eapply effect_trans|].
  assert (Hq : quiet o o2) by (by eapply effect_trans).
  destruct (Granted out) eqn:Hgr; cbn [negb]; [|split; [by intros l|by apply quiet_effect]].
  destruct (Hg eq_refl) as (u & n & Hu & Hau & Hname). rewrite (UserByLogin_db _ _ (os_st o)) in Hu by apply Hq1.
  assert (Hgranted : granted o r subject) by (by exists form, u, n).
  unfold mbind at 1, M_bind at 1. destruct (sessions_start_run subject o2) as (sess & o3 & -> & _ & He3).
  unfold mbind at 1, M_bind at 1, pending_done at 1. destruct (change (set_pending (delete (rq_id req))) o3) as [res4 o4] eqn:E4.
  assert (Hq4 := calm_drop_pending _ _ _ _ E4). unfold change in E4. injection E4 as <- E4'.
  destruct (issueCode_run req subject (ss_signedIn sess) o4 Hreq) as (reply & o5 & Hi & Hsafe & He5).
  unfold finish. rewrite Hi. split; [exact Hsafe|].
  eapply effect_trans; [by apply quiet_effect|].
  eapply effect_trans; [eapply effect_mono; [..|exact He3]; [by intros ? <-|done|done]|].
  eapply effect_trans; [by apply quiet_effect|]. eapply effect_mono; [..|exact He5]; [done| |done].
  intros a (Hok & Hcar & ->). done.
Qed.

(** ** Handlers that send nobody anywhere *)

Definition no_redirect (reply : Reply) : Prop := forall l, rp_body reply <> b_redirect l.

(** A reply that is an error, to a person or to a client. *)
Definition refusal (reply : Reply) : Prop :=
  match rp_body reply with b_page _ _ _ | b_tokenError _ _ _ | b_error _ _ => True | _ => False end.

Lemma refusal_stays reply : refusal reply -> no_redirect reply.
Proof. unfold refusal. by intros Hr l E; rewrite E in Hr. Qed.

Definition stays {A} (R : A -> Prop) (m : H A) : Prop := forall o res o', m o = (res, o') ->
  match res with Ok a => R a | Err e => refusal e | Panic => True end.

Abbreviation any := (fun _ => True).

Lemma stays_bind {A B} R (m : H A) (f : A -> H B) : stays any m -> (forall a, stays R (f a)) -> stays R (mbind f m).
Proof.
  intros Hm Hf o res o' [(a & o1 & H1 & H2)|[(e & H1 & ->)|[H1 ->]]]%bind_inv; [by apply (Hf _ _ _ _ H2)|exact (Hm _ _ _ H1)|done].
Qed.
Lemma stays_never {A} (m : H A) : (forall o, exists a, fst (m o) = Ok a) -> stays any m.
Proof. intros Hm o res o' Hr. destruct (Hm o) as [a Ha]. rewrite Hr in Ha. cbn in Ha. by subst. Qed.
Lemma stays_ret {A} (R : A -> Prop) a : R a -> stays R (mret a).
Proof. by intros Ha o res o' [= <- <-]. Qed.
Lemma stays_throw {A} (R : A -> Prop) e : refusal e -> stays R (throw e).
Proof. by intros Ha o res o' [= <- <-]. Qed.
Lemma stays_throw_if b e : refusal e -> stays any (throw_if b e).
Proof. intros Ha o res o' [= <- <-]. by destruct b. Qed.
Lemma stays_or_err {A} e (x : option A) : refusal e -> stays any (lift (or_err e x)).
Proof. intros Ha o res o' [= <- <-]. by destruct x. Qed.
Lemma stays_panic {A} (R : A -> Prop) : stays R (lift Panic).
Proof. by intros o res o' [= <- <-]. Qed.
Lemma stays_or_reply {A} f (x : outcome string A) : (forall e, refusal (f e)) -> stays any (or_reply f x).
Proof. intros Ha o res o' [= <- <-]. by destruct x. Qed.
Lemma stays_account {A} e (x : outcome StoreErr A) : refusal e -> stays any (lift (match x with Ok c => Ok c | _ => Err e end)).
Proof. intros Ha o res o' [= <- <-]. by destruct x. Qed.
Lemma stays_store {A} (m : Tx A) : stays any (stored m).
Proof. apply stays_never. intros o. unfold stored. destruct (m (os_st o)). cbn. eauto. Qed.
Lemma stays_now : stays any o_now. Proof. apply stays_never. eauto. Qed.
Lemma stays_draw : stays any o_draw. Proof. apply stays_never. eauto. Qed.
Lemma stays_look {A} (f : OServer -> A) : stays any (look f). Proof. apply stays_never. eauto. Qed.
Lemma stays_change f : stays any (change f). Proof. apply stays_never. eauto. Qed.
Create HintDb stays.
#[local] Hint Resolve stays_store stays_now stays_draw stays_look stays_change stays_panic : stays.
#[local] Hint Extern 1 (no_redirect _) => (intros ?; discriminate) : stays.
#[local] Hint Extern 1 (refusal _) => exact I : stays.
#[local] Hint Extern 1 True => exact I : stays.

Ltac stays :=
  repeat first
    [ progress intros
    | apply stays_bind | apply stays_ret | apply stays_throw | apply stays_throw_if | apply stays_or_err | apply stays_or_reply | apply stays_account
    | solve [eauto 2 with stays nocore]
    | case_match ].

Lemma stays_claims_of name : stays any (claims_of name).
Proof. unfold claims_of. stays. Qed.
Lemma stays_pending_get id : stays any (pending_get cfg id).
Proof. unfold pending_get. stays. Qed.
Lemma stays_codes_take code : stays any (codes_take cfg code).
Proof. unfold codes_take. stays. Qed.
Lemma stays_mint aud c now at_ nonce : stays any (mint cfg sig aud c now at_ nonce).
Proof. unfold mint. stays. Qed.
Lemma stays_lookup_account name : stays any (lookup_account name).
Proof. unfold lookup_account. stays. Qed.
#[local] Hint Resolve stays_claims_of stays_pending_get stays_codes_take stays_mint stays_lookup_account : stays.
Lemma stays_serviceAccount name secret : stays any (serviceAccount cfg name secret).
Proof. unfold serviceAccount. stays. Qed.
#[local] Hint Resolve stays_serviceAccount : stays.

Lemma stays_token r : stays no_redirect (token cfg sig r).
Proof. unfold token, clientCredentials, exchange. stays. Qed.
Lemma stays_userinfo r : stays no_redirect (userinfo cfg sig r).
Proof. unfold userinfo. stays. Qed.
Lemma stays_loginForm r : stays no_redirect (loginForm cfg r).
Proof. unfold loginForm. stays. Qed.

Lemma endSession_safe r o res o' : endSession cfg secure r o = (res, o') -> exists reply, res = Ok reply /\ safe_reply reply.
Proof.
  assert (He : exists o1, sessions_end r o = (Ok tt, o1)) by (unfold sessions_end; case_match; by eexists).
  destruct He as [o1 He]. unfold endSession, mbind, M_bind. rewrite He. intros Hr.
  assert (Hhere : safe_reply (with_cookie (cleared_cookie secure) (say signed_out))) by (by intros l).
  destruct (is_empty (Get _ "post_logout_redirect_uri")); [injection Hr as <- _; by eexists|].
  destruct (existsb _ (oc_Clients cfg)) eqn:Ex; cbn [negb] in Hr; [|injection Hr as <- _; by eexists].
  destruct (url_Parse _) as [u|] eqn:Eu; injection Hr as <- _; [|by eexists]. eexists. split; [reflexivity|].
  apply existsb_exists in Ex as (c & Hc%list_elem_of_In & Hreg%registered_spec).
  intros l [= <-]. right. exists c, (Get (hr_Query r) "post_logout_redirect_uri"), u, [("state", Get (hr_Query r) "state")].
  split_and!; [done|by right|done|]. destruct (is_empty (Get _ "state")); [by left|by right].
Qed.

(** ** One request *)

Lemma no_redirect_safe reply : no_redirect reply -> safe_reply reply.
Proof. intros Hn l Hl. by destruct (Hn l). Qed.

Lemma with_origin_body r reply : no_redirect reply -> no_redirect (with_origin cfg r reply).
Proof. done. Qed.

Lemma calm_safe rt r : starts rt = false -> forall o res o', routes cfg secure sig rt r o = (res, o') ->
  match res with Ok reply | Err reply => safe_reply reply | Panic => True end.
Proof.
  intros Hs o res o' Hr.
  assert (Hcors : forall m, stays no_redirect (m r) -> cors cfg m r o = (res, o') ->
    match res with Ok reply | Err reply => safe_reply reply | Panic => True end).
  { intros m Hm. unfold cors, finish. destruct (m r o) as [[a|a|] o1] eqn:E; apply Hm in E; intros [= <- <-]; [| |done];
      apply no_redirect_safe, with_origin_body; [done|by apply refusal_stays]. }
  assert (Hstays : forall m, stays no_redirect m -> m o = (res, o') ->
    match res with Ok reply | Err reply => safe_reply reply | Panic => True end).
  { intros m Hm Hrun. apply Hm in Hrun. destruct res; [by apply no_redirect_safe|by apply no_redirect_safe, refusal_stays|done]. }
  destruct rt; try discriminate Hs; cbn [routes] in Hr.
  - apply (Hcors (discovery cfg)); [|done]. apply stays_ret. by intros l.
  - apply (Hcors (keys sig)); [|done]. apply stays_ret. by intros l.
  - apply (Hstays (loginForm cfg r)); [apply stays_loginForm|done].
  - apply (Hcors (token cfg sig)); [apply stays_token|done].
  - apply (Hcors (userinfo cfg sig)); [apply stays_userinfo|done].
  - apply endSession_safe in Hr as (reply & -> & Hsafe). done.
  - apply (Hstays (preflight cfg r)); [apply stays_ret; by intros l|done].
Qed.

(** What one request may start: a session of the person it signed in, and a code it takes to its
    client, for that person or for the person of a session. *)
Definition code_from (rt : route) (r : HReq) (reply : option Reply) (o : OServer) (a : authCode) : Prop :=
  code_ok a /\ starts rt = true /\ (exists rep, reply = Some rep /\ carries_code a rep) /\
  ((rt = POST_login /\ granted o r (ac_subject a)) \/ exists id s, os_sessions o !! id = Some s /\ ss_subject s = ac_subject a).

Lemma serve_effect rt r o reply o' : (forall id rq, os_pending o !! id = Some rq -> request_ok rq) ->
  serve cfg secure sig rt r o = (reply, o') ->
  effect (fun s => rt = POST_login /\ granted o r s) (code_from rt r reply o) request_ok o o' /\
  (forall rep, reply = Some rep -> safe_reply rep).
Proof.
  intros Hp. unfold serve. destruct (starts rt) eqn:Hs.
  - destruct rt; try discriminate Hs; cbn [routes].
    + destruct (authorize_run r o) as (rep & o1 & Hrun & Hsafe & He).
      destruct Hrun as [-> | ->]; intros [= <- <-]; (split; [|by intros ? [= <-]]);
      (eapply effect_mono; [..|exact He]; [done| |done]); intros a (Hok & Hcar & sess & now & Hses & Hsub & _);
      (split_and!; [done|done|by exists rep|]); right; by exists (hr_Cookie r), sess.
    + assert (Hrun := login_run r o Hp). unfold ends in Hrun. destruct (login cfg secure r o) as [[rep|rep|] o1]; intros [= <- <-];
        try (destruct Hrun as [Hsafe He]; split; [|by intros ? [= <-]]; eapply effect_mono; [..|exact He]; [done| |done];
             intros a (Hok & Hcar & Hg); split_and!; [done|done|by exists rep|by left]).
      split; [by apply quiet_effect|done].
  - destruct (routes cfg secure sig rt r o) as [res o1] eqn:E. assert (Hq := calm_routes rt r Hs _ _ _ E).
    assert (Hsafe := calm_safe rt r Hs _ _ _ E).
    destruct res; intros [= <- <-]; (split; [by apply quiet_effect|]); intros ? Heq; [by injection Heq as <-..|done].
Qed.

(** ** Histories *)

Record entry : Type := mkEntry { en_before : OServer; en_route : route; en_req : HReq; en_reply : option Reply }.

(** Requests one after the other; between them anything may happen to the store. *)
Inductive history : list entry -> OServer -> Prop :=
| h_start st : history [] (newOServer st)
| h_serve h o rt r reply o' : history h o -> serve cfg secure sig rt r o = (reply, o') -> history (h ++ [mkEntry o rt r reply]) o'
| h_store h o st' : history h o -> (st_draw (os_st o) <= st_draw st')%nat -> history h (set_os_st st' o).

(** Somebody signed in as [subject] with a credential the directory accepted. *)
Definition signed_in (h : list entry) (subject : string) : Prop :=
  exists e, e ∈ h /\ en_route e = POST_login /\ granted (en_before e) (en_req e) subject.

(** A reply took the code to its client. *)
Definition issued (h : list entry) (a : authCode) : Prop :=
  exists e rep, e ∈ h /\ starts (en_route e) = true /\ en_reply e = Some rep /\ carries_code a rep.

Record inv (h : list entry) (o : OServer) : Prop := {
  i_sessions id s : os_sessions o !! id = Some s -> signed_in h (ss_subject s);
  i_codes c a : os_codes o !! c = Some a -> code_ok a /\ signed_in h (ac_subject a) /\ issued h a /\ ac_code a = c /\
    exists i, (i < st_draw (os_st o))%nat /\ c = drawn_id i;
  i_pending id rq : os_pending o !! id = Some rq -> request_ok rq;
}.

Lemma signed_in_app h e subject : signed_in h subject -> signed_in (h ++ [e]) subject.
Proof. intros (x & Hx & Hrest). exists x. split; [apply elem_of_app; by left|done]. Qed.
Lemma issued_app h e a : issued h a -> issued (h ++ [e]) a.
Proof. intros (x & rep & Hx & Hrest). exists x, rep. split; [apply elem_of_app; by left|done]. Qed.

Lemma history_inv h o : history h o -> inv h o.
Proof.
  induction 1 as [st|h o rt r reply o' _ [Is Ic Ip] Hserve|h o st' _ [Is Ic Ip] Hd].
  - split; cbn; intros ? ? E; by apply lookup_empty_Some in E.
  - destruct (serve_effect _ _ _ _ _ Ip Hserve) as [[D N Es Ecd Epd] _].
    assert (Hlast : mkEntry o rt r reply ∈ h ++ [mkEntry o rt r reply]) by (apply elem_of_app; right; by apply list_elem_of_singleton).
    split.
    + intros id s [(s0 & H0 & <-)|[-> Hg]]%Es; [by eapply signed_in_app, Is|]. by exists (mkEntry o POST_login r reply).
    + intros c a [Ho|((Hok & Hst & (rep & -> & Hcar) & Hsub) & <- & i & Hi & ->)]%Ecd.
      * destruct (Ic _ _ Ho) as (Hok & Hsi & Hiss & Hcode & i & Hi & ->). split_and!; [done|by apply signed_in_app|by apply issued_app|done|].
        exists i. split; [lia|done].
      * split_and!; [done| |by eexists _, rep|done|exists i; split; [lia|done]].
        destruct Hsub as [[-> Hg]|(id & s & Hs & <-)]; [by exists (mkEntry o POST_login r (Some rep))|by eapply signed_in_app, Is].
    + intros id rq [Ho|Hok]%Epd; [by eapply Ip|done].
  - split; cbn; [done| |done]. intros c a Hc. destruct (Ic c a Hc) as (? & ? & ? & ? & i & Hi & ->). split_and!; [done..|exists i; split; [lia|done]].
Qed.

(** Nobody is sent to a place that is not registered: over every history of requests, a redirect
    of any reply goes to the sign-in form, or to a URI that a configured client registered, exactly
    as registered, with only query parameters set. *)
Lemma redirects_registered (h : list entry) (o o' : OServer) (rt : route) (r : HReq) (reply : Reply) (location : string) :
  history h o -> serve cfg secure sig rt r o = (Some reply, o') -> rp_body reply = b_redirect location -> trusted location.
Proof.
  intros Hh%history_inv Hserve Hb. destruct (serve_effect _ _ _ _ _ (i_pending _ _ Hh) Hserve) as [_ Hsafe]. by eapply Hsafe.
Qed.

(** ** Tokens *)

Definition token_of (k : string) (reply : Reply) : option string :=
  match rp_body reply with
  | b_json m => match m !! k with Some (c_str t) => Some t | _ => None end
  | _ => None
  end.

Lemma refusal_token k reply : refusal reply -> token_of k reply = None.
Proof. unfold refusal, token_of. by destruct (rp_body reply). Qed.

(** The account an answer of [claims_of] is about, as the store has it at that moment. *)
Definition account_claims (st : St) (name : string) (c : subjectClaims) : Prop :=
  exists u, fst (GetUser name st) = Ok u /\ u_Disabled u = false /\ sc_Subject c = u_Name u /\ sc_Email c = u_Mail u /\
    sc_Name c = TrimSpace (u_GivenName u +:+ " " +:+ u_SN u) /\
    groupNames (st_db st) u (scanGroup (st_db st) <$> sort_by gid_le (groups (dt (st_db st)))) = Ok (sc_Groups c).

Lemma set_os_st_same o : set_os_st (os_st o) o = o.
Proof. by destruct o. Qed.

Lemma claims_of_Some name o c o' : claims_of name o = (Ok (Ok (Some c)), o') -> o' = o /\ account_claims (os_st o) name c.
Proof.
  unfold claims_of, mbind, M_bind, stored, GetUser, query_outcome, look, ListGroups, query, mret, M_ret. rewrite !set_os_st_same.
  intros Hr. unfold account_claims, GetUser, query_outcome. destruct (getUser (st_db (os_st o)) (user_named name)) as [u|e|] eqn:Eu; [|by destruct e|done].
  destruct (u_Disabled u) eqn:Ed; [done|]. cbn [mbind outcome_bind] in Hr. rewrite !set_os_st_same in Hr.
  injection Hr as Hr <-. split; [done|]. destruct (groupNames _ _ _) as [gs|e|] eqn:Eg; [|done|done]. injection Hr as <-. by exists u.
Qed.

Lemma mint_run aud c now at_ nonce o : mint cfg sig aud c now at_ nonce o =
  (Ok (Sign sig (st_draw (os_st o)) (token_claims cfg aud c now at_ nonce)), set_os_st (snd (draw (os_st o))) o).
Proof. done. Qed.

Lemma codes_take_Some code o a o' : codes_take cfg code o = (Ok (Some a), o') ->
  os_codes o !! code = Some a /\ os_codes o' = delete code (os_codes o) /\ st_db (os_st o') = st_db (os_st o) /\
  exists n, Sub (clock n) (ac_issued a) <= oc_CodeLifetime cfg.
Proof.
  unfold codes_take, mbind, M_bind, look. destruct (os_codes o !! code) as [a0|] eqn:E; [|done]. unfold change, o_now.
  destruct (Z.ltb_spec (oc_CodeLifetime cfg) (Sub (clock (st_tick (os_st (set_codes (delete code) o)))) (ac_issued a0))) as [|Hle]; [done|].
  intros [= <- <-]. split_and!; [done|done|done|]. by eexists.
Qed.

(** What an exchange that answered with an id token checked. *)
Definition exchanged (form : Values) (o : OServer) (a : authCode) (c : subjectClaims) (idToken : string) : Prop :=
  os_codes o !! Get form "code" = Some a /\ (exists n, Sub (clock n) (ac_issued a) <= oc_CodeLifetime cfg) /\
  Get form "redirect_uri" = ac_redirect a /\ verifyPKCE (ac_challenge a) (Get form "code_verifier") = true /\
  account_claims (os_st o) (ac_subject a) c /\
  exists n now, Sign sig n (token_claims cfg (ac_clientID a) c now (ac_authTime a) (ac_nonce a)) = Some idToken.

Lemma account_claims_db st st' name c : st_db st = st_db st' -> account_claims st name c -> account_claims st' name c.
Proof. unfold account_claims, GetUser, query_outcome. by intros ->. Qed.

Lemma exchange_tokens id form o reply o' idToken :
  exchange cfg sig id form o = (Ok reply, o') -> token_of "id_token" reply = Some idToken ->
  os_codes o' !! Get form "code" = None /\ exists a c, id = ac_clientID a /\ exchanged form o a c idToken.
Proof.
  unfold exchange. intros Hr Ht. run_inv. rename x into found. subst found.
  match goal with H : codes_take _ _ _ = _ |- _ => apply codes_take_Some in H as (Hc & Hdel & Hdb & Hlife) end.
  simp_bool.
  match goal with H : match ?x with _ => _ end = Ok _ |- _ => destruct x as [found|?|]; [injection H as ->|discriminate H..] end.
  simplify_eq. match goal with H : claims_of _ _ = _ |- _ => apply claims_of_Some in H as [-> Hacc] end.
  unfold o_now in *. rewrite mint_run in *. simplify_eq.
  match type of Ht with context [("id_token", c_str ?t)] => change (Some t = Some idToken) in Ht end. simplify_eq.
  split; [cbn; by rewrite Hdel, lookup_delete_eq|]. eexists _, _. split; [reflexivity|].
  split_and!; [done|done|done|done|by eapply account_claims_db|by eexists _, _].
Qed.

(** The reply of the token endpoint that has an id token. *)
Lemma token_id_token r o reply o' idToken : serve cfg secure sig POST_token r o = (Some reply, o') ->
  token_of "id_token" reply = Some idToken ->
  exists form a c, hr_Form r = Some form /\ authenticateClient cfg form (hr_Basic r) = Ok (ac_clientID a) /\
    exchanged form o a c idToken /\ os_codes o' !! Get form "code" = None.
Proof.
  unfold serve. cbn [routes]. unfold cors, finish. destruct (token cfg sig r o) as [[rep|rep|] o1] eqn:E; intros [= <- <-];
    change (token_of "id_token" (with_origin cfg r rep)) with (token_of "id_token" rep); intros Ht; cycle 1.
  { apply stays_token in E. by rewrite refusal_token in Ht. }
  unfold token in E. run_inv. case_if.
  - unfold clientCredentials in E. run_inv. repeat case_match; run_inv.
    all: match type of Ht with _ = Some ?t => change (None = Some t) in Ht end; done.
  - run_inv. unfold or_reply in *. run_inv.
    match goal with H : match authenticateClient _ _ _ with _ => _ end = Ok _ |- _ =>
      destruct (authenticateClient cfg _ _) as [id| |] eqn:Ea; [injection H as <-|discriminate H..] end.
    destruct (exchange_tokens _ _ _ _ _ _ E Ht) as (Hdel & a & c & -> & Hex). eauto 10.
Qed.


(** The codes exchanged for tokens, one after the other. *)
Definition spends (e : entry) : option string :=
  match en_route e, en_reply e, hr_Form (en_req e) with
  | POST_token, Some reply, Some form => match token_of "id_token" reply with Some _ => Some (Get form "code") | None => None end
  | _, _, _ => None
  end.
Definition spent (h : list entry) : list string := omap spends h.

(** No two of the first [n] draws of the random source coincide. *)
Definition fresh_draws (n : nat) : Prop := forall i j, (i < n)%nat -> (j < n)%nat -> rand 32 i = rand 32 j -> i = j.

Lemma drawn_id_inj n i j : fresh_draws n -> (i < n)%nat -> (j < n)%nat -> drawn_id i = drawn_id j -> i = j.
Proof. intros Hf Hi Hj E. apply Hf; [done|done|]. apply (EncodeToString_inj RawURLEncoding); [by right|done]. Qed.

Lemma spent_app h e : spent (h ++ [e]) = spent h ++ match spends e with Some c => [c] | None => [] end.
Proof. unfold spent. by rewrite omap_app. Qed.

(** A code that was exchanged is gone. *)
Lemma spends_gone e c o' : serve cfg secure sig (en_route e) (en_req e) (en_before e) = (en_reply e, o') -> spends e = Some c ->
  (exists a, os_codes (en_before e) !! c = Some a) /\ os_codes o' !! c = None.
Proof.
  destruct e as [o rt r reply]. unfold spends. cbn [en_route en_req en_before en_reply]. intros Hserve Hs.
  destruct rt; try done. destruct reply as [rep|]; [|done]. destruct (hr_Form r) as [form|] eqn:Hf; [|done].
  destruct (token_of "id_token" rep) as [t|] eqn:Ht; [|done]. injection Hs as <-.
  destruct (token_id_token _ _ _ _ _ Hserve Ht) as (form' & a & c & Hf' & _ & (Hc & _) & Hgone). rewrite Hf in Hf'. injection Hf' as <-. eauto.
Qed.

Lemma spent_inv h o : history h o -> fresh_draws (st_draw (os_st o)) ->
  NoDup (spent h) /\ forall c, c ∈ spent h -> os_codes o !! c = None /\ exists i, (i < st_draw (os_st o))%nat /\ c = drawn_id i.
Proof.
  induction 1 as [st|h o rt r reply o' Hh IH Hserve|h o st' Hh IH Hd]; intros Hfresh.
  - split; [constructor|]. by intros c ?%elem_of_nil.
  - destruct (serve_effect _ _ _ _ _ (i_pending _ _ (history_inv _ _ Hh)) Hserve) as [[_ N _ Ecd _] _].
    destruct IH as [Hnd Hgone]; [intros i j Hi Hj; apply Hfresh; lia|].
    assert (Hold : forall c, c ∈ spent h -> os_codes o' !! c = None /\ exists i, (i < st_draw (os_st o'))%nat /\ c = drawn_id i).
    { intros c Hc. destruct (Hgone c Hc) as [Hn (i & Hi & ->)]. split; [|exists i; split; [lia|done]].
      destruct (os_codes o' !! drawn_id i) as [a|] eqn:Ea; [|done]. apply Ecd in Ea as [Ea|(_ & _ & j & Hj & Ej)]; [congruence|].
      apply (drawn_id_inj _ _ _ Hfresh) in Ej; lia. }
    rewrite spent_app. destruct (spends (mkEntry o rt r reply)) as [c|] eqn:Es; [|rewrite app_nil_r; done].
    destruct (spends_gone (mkEntry o rt r reply) _ _ Hserve Es) as [[a Ha] Hgone']. cbn [en_before] in Ha.
    destruct (i_codes _ _ (history_inv _ _ Hh) _ _ Ha) as (_ & _ & _ & _ & i & Hi & Hci). split.
    + apply NoDup_app. split_and!; [done| |apply NoDup_singleton]. intros x Hx ->%list_elem_of_singleton. destruct (Hgone _ Hx). congruence.
    + intros x [Hx| ->%list_elem_of_singleton]%elem_of_app; [by apply Hold|]. split; [done|]. exists i. split; [lia|done].
  - destruct IH as [Hnd Hgone]; [intros i j Hi Hj; apply Hfresh; cbn; lia|]. split; [done|]. intros c Hc. destruct (Hgone c Hc) as [Hn (i & Hi & ->)].
    split; [done|]. exists i. cbn. split; [lia|done].
Qed.

(** C8: A code is exchanged for tokens at most once over every history of requests, provided no two
    of the 256-bit draws made in it coincide. *)
Theorem code_single_use (h : list entry) (o : OServer) : history h o -> fresh_draws (st_draw (os_st o)) -> NoDup (spent h).
Proof. intros Hh Hf. by apply spent_inv in Hh as [Hnd _]. Qed.

(** ** Service accounts *)

Definition as_service (c : subjectClaims) : subjectClaims :=
  mkSubjectClaims ("client:" +:+ sc_Subject c) (sc_Email c) (sc_Name c) (sc_Groups c).

(** An account whose secret the directory accepts, a member of the group of service accounts. *)
Definition service_account (o : OServer) (name secret : string) (c : subjectClaims) : Prop :=
  exists u n, fst (UserByLogin name (os_st o)) = Ok u /\ Granted (Authenticate (clock n) u secret) = true /\
    account_claims (os_st o) (u_Name u) c /\ oc_ServiceAccountGroup cfg ∈ sc_Groups c.

Lemma serviceAccount_Some name secret o c o' : serviceAccount cfg name secret o = (Ok (Some c), o') ->
  exists c0, c = as_service c0 /\ service_account o name secret c0 /\ os_codes o' = os_codes o.
Proof.
  unfold serviceAccount, mbind, M_bind. rewrite lookup_account_run.
  destruct (fst (UserByLogin name (os_st o))) as [u|e|] eqn:Eu; [|done|done]. unfold o_now.
  destruct (Granted (Authenticate _ u secret)) eqn:Hg; cbn [negb]; [|done].
  destruct (claims_of (u_Name u) _) as [[cs|e|] o1] eqn:Ecs; [|done|done].
  destruct cs as [[c0|]|e|]; [|done..]. apply claims_of_Some in Ecs as [-> Hacc].
  destruct (slices_Contains _ _) eqn:Hin; cbn [negb]; [|done]. intros [= <- <-]. exists c0. split_and!; [done| |done].
  eexists u, _. split_and!; [done|exact Hg|by eapply account_claims_db|by apply registered_spec].
Qed.

(** C28: A token endpoint reply that has an access token and no id token was earned by a service
    account: a group is configured for them, the secret presented is one the directory accepts for
    the account named (its password or an application password), the account is enabled and a member
    of that group now, the audience is the id of a configured client, and the subject of the token is
    the account's under the prefix of machines. *)
Theorem client_credentials_gated (o o' : OServer) (r : HReq) (reply : Reply) (access : string) :
  serve cfg secure sig POST_token r o = (Some reply, o') ->
  token_of "access_token" reply = Some access -> token_of "id_token" reply = None ->
  exists form name secret c cl n now, hr_Form r = Some form /\ oc_ServiceAccountGroup cfg <> EmptyString /\
    clientCredentialsOf form (hr_Basic r) = Some (name, secret) /\ service_account o name secret c /\ cl ∈ oc_Clients cfg /\
    Sign sig n (token_claims cfg (cl_ID cl) (as_service c) now now EmptyString) = Some access.
Proof.
  unfold serve. cbn [routes]. unfold cors, finish. destruct (token cfg sig r o) as [[rep|rep|] o1] eqn:E; intros [= <- <-];
    change (token_of ?k (with_origin cfg r rep)) with (token_of k rep); intros Ha Hi; cycle 1.
  { apply stays_token in E. by rewrite refusal_token in Ha. }
  unfold token in E. run_inv. case_if.
  - unfold clientCredentials in E. run_inv.
    match goal with H : clientCredentialsOf _ _ = Some ?x |- _ => destruct x as [name secret] eqn:? end. run_inv.
    match goal with H : serviceAccount _ _ _ _ = _ |- _ => rename H into Hsa end. subst.
    apply serviceAccount_Some in Hsa as (c & -> & Hsa & _).
    unfold o_now in *. rewrite mint_run in *. simplify_eq. simp_bool.
    match type of Ha with context [("access_token", c_str ?t)] => change (Some t = Some access) in Ha end. simplify_eq.
    match goal with H : existsb _ (oc_Clients cfg) = true |- _ => apply existsb_exists in H as (cl & Hcl & Haud) end.
    apply list_elem_of_In in Hcl. apply String.eqb_eq in Haud. rewrite <- Haud in *.
    eexists _, name, secret, c, cl, _, _. split_and!; [done| |done|done|done|done].
    intros E0. match goal with H : is_empty (oc_ServiceAccountGroup cfg) = false |- _ => by rewrite E0 in H end.
  - exfalso. run_inv. unfold exchange in E. run_inv. 
    match type of Hi with context [("id_token", c_str ?t)] => change (Some t = None) in Hi end. done.
Qed.

(** ** The user information *)

Lemma claims_of_account name o c : account_claims (os_st o) name c -> claims_of name o = (Ok (Ok (Some c)), o).
Proof.
  intros (u & Hu & Hd & Es & Em & En & Hg). unfold claims_of, mbind, M_bind, stored. unfold GetUser, query_outcome in Hu |- *. cbn [fst] in Hu.
  rewrite Hu, Hd, set_os_st_same. unfold look, ListGroups, query, mret, M_ret. cbn [mbind outcome_bind]. rewrite Hg. cbn [mbind outcome_bind].
  destruct c. cbn in *. subst. by rewrite set_os_st_same.
Qed.

Lemma claims_of_gone name o : (forall u, fst (GetUser name (os_st o)) = Ok u -> u_Disabled u = true) ->
  fst (GetUser name (os_st o)) <> Panic -> exists x, claims_of name o = (Ok x, o) /\ forall c, x <> Ok (Some c).
Proof.
  intros Hu Hp. unfold claims_of, mbind, M_bind, stored. unfold GetUser, query_outcome in Hu, Hp |- *. cbn [fst] in Hu, Hp. rewrite set_os_st_same.
  destruct (getUser (st_db (os_st o)) (user_named name)) as [u|e|]; [|by destruct e; eexists|done].
  rewrite (Hu u eq_refl). by eexists.
Qed.

Lemma getUser_no_panic d f : getUser d f <> Panic.
Proof. unfold getUser. by destruct (List.find f (users (dt d))). Qed.

Lemma optional_ne b k v m k' : k <> k' -> optional b k v m !! k' = m !! k'.
Proof. intros Hne. unfold optional. destruct b; [by rewrite lookup_insert_ne|done]. Qed.

Lemma token_claims_base aud c now at_ nonce k : k ∈ ["iss"; "sub"; "exp"] ->
  token_claims cfg aud c now at_ nonce !! k = (list_to_map [("iss", c_str (oc_Issuer cfg)); ("sub", c_str (sc_Subject c)); ("aud", c_str aud);
    ("iat", c_num (Unix now)); ("exp", c_num (Unix (now + oc_TokenLifetime cfg))); ("auth_time", c_num (Unix at_))] : claims) !! k.
Proof.
  rewrite !elem_of_cons, elem_of_nil. intros Hk. unfold token_claims, about_account.
  by rewrite !optional_ne by (destruct Hk as [->|[->|[->|[]]]]; done).
Qed.

Lemma token_claims_fields aud c now at_ nonce : plain_claims (token_claims cfg aud c now at_ nonce) ->
  verified_fields (token_claims cfg aud c now at_ nonce) = Some (oc_Issuer cfg, sc_Subject c, Unix (now + oc_TokenLifetime cfg)).
Proof.
  intros Hp. set (m := token_claims cfg aud c now at_ nonce) in *.
  assert (Hiss : m !! "iss" = Some (c_str (oc_Issuer cfg))) by (by unfold m; rewrite token_claims_base by (rewrite !elem_of_cons; auto)).
  assert (Hsub : m !! "sub" = Some (c_str (sc_Subject c))) by (by unfold m; rewrite token_claims_base by (rewrite !elem_of_cons; auto)).
  assert (Hexp : m !! "exp" = Some (c_num (Unix (now + oc_TokenLifetime cfg)))) by (by unfold m; rewrite token_claims_base by (rewrite !elem_of_cons; auto)).
  destruct (Hp _ _ Hexp) as [_ Hr]. cbn [plain_claim] in Hr.
  unfold verified_fields, str_field, int_field. by rewrite Hiss, Hsub, Hexp, Hr.
Qed.

Context `{!JSONLaws Js, !ECDSALaws Ec}.

(** The user information follows the account, not the token: asked with a token this provider
    made for an account, it answers 401 once the token has expired; until then with the claims the
    account has now, its groups included, and 401 when the account is gone or disabled by now. *)
Lemma userinfo_follows_account (o o' : OServer) (r : HReq) (reply : Reply) (audience token : string) (c : subjectClaims)
    (n : nat) (now at_ : Time) (nonce : string) :
  plain_text (sg_kid sig) = true -> plain_claims (token_claims cfg audience c now at_ nonce) ->
  sc_Subject c <> EmptyString -> Unix (now + oc_TokenLifetime cfg) <> 0 ->
  Sign sig n (token_claims cfg audience c now at_ nonce) = Some token ->
  hr_Authorization r = "Bearer " +:+ token -> serve cfg secure sig GET_userinfo r o = (Some reply, o') ->
  let expired := After (clock (st_tick (os_st o))) (UnixTime (Unix (now + oc_TokenLifetime cfg))) in
  (expired = true -> rp_body reply = b_error 401 "expired") /\
  (expired = false -> forall c', account_claims (os_st o) (sc_Subject c) c' ->
     rp_body reply = b_json (about_account c' (list_to_map [("sub", c_str (sc_Subject c'))]))) /\
  (expired = false -> (forall u, fst (GetUser (sc_Subject c) (os_st o)) = Ok u -> u_Disabled u = true) ->
     rp_body reply = b_error 401 "the account is gone or disabled").
Proof.
  intros Hk Hp Hs He Hsign Hauth. cbn zeta. set (exp := Unix (now + oc_TokenLifetime cfg)) in *.
  assert (Hv := sign_verifies sig n _ token verified_fields _ Hk Hp (token_claims_fields _ _ _ _ _ Hp) Hsign). fold exp in Hv.
  unfold serve. cbn [routes]. unfold cors, finish, userinfo. rewrite Hauth, TrimPrefix_app.
  assert (Hguard : is_empty token || String.eqb token ("Bearer " +:+ token) = false).
  { apply orb_false_iff. split; [by destruct token|]. apply String.eqb_neq. intros E%(f_equal String.length).
    rewrite length_app_string in E. cbn in E. lia. }
  unfold mbind at 1, M_bind at 1, throw_if at 1. rewrite lift_run, Hguard. cbn [err_if].
  unfold mbind at 1, M_bind at 1, o_now at 1. set (t := clock _). set (o1 := set_os_st _ o).
  assert (Hsub : is_empty (sc_Subject c) = false) by (by destruct (sc_Subject c)).
  unfold mbind at 1, M_bind at 1, or_reply, verify_at. rewrite lift_run, Hv, String.eqb_refl. cbn [negb].
  destruct (Z.eqb_spec exp 0) as [|_]; [done|]. cbn [orb].
  destruct (After t (UnixTime exp)); [by intros [= <- _]|]. rewrite Hsub. unfold mbind, M_bind.
  assert (Hdb : st_db (os_st o1) = st_db (os_st o)) by done.
  intros Hrun. split; [done|]. split.
  - intros _ c' Hacc. apply (account_claims_db _ (os_st o1)) in Hacc; [|done]. rewrite (claims_of_account _ _ _ Hacc) in Hrun.
    by injection Hrun as <- _.
  - intros _ Hu. destruct (claims_of_gone (sc_Subject c) o1) as (x & Hx & Hnone); [exact Hu|apply getUser_no_panic|].
    rewrite Hx in Hrun. destruct x as [[c'|]|e|]; [by destruct (Hnone c')|by injection Hrun as <- _..].
Qed.

(** ** Sessions end *)

(** A session answers for nobody after its time: whenever a request is taken for a signed-in
    browser, the session was started at most the session lifetime before and last used at most the
    idle time before, where the configuration sets them; and a session found to be over is removed. *)
Lemma session_bounds (r : HReq) (o o' : OServer) (x : option session) :
  sessions_get cfg r o = (Ok x, o') ->
  let now := clock (st_tick (os_st o)) in
  match x with
  | Some s => exists s0, os_sessions o !! hr_Cookie r = Some s0 /\ s = mkSession (ss_id s0) (ss_subject s0) (ss_signedIn s0) now /\
      os_sessions o' !! hr_Cookie r = Some s /\
      (0 < oc_SessionLifetime cfg -> Sub now (ss_signedIn s0) <= oc_SessionLifetime cfg) /\
      (0 < oc_SessionIdle cfg -> Sub now (ss_lastUsed s0) <= oc_SessionIdle cfg)
  | None => forall s0, os_sessions o !! hr_Cookie r = Some s0 -> hr_Cookie r <> EmptyString -> ss_id s0 = hr_Cookie r ->
      expiredLocked cfg s0 now = true /\ os_sessions o' !! hr_Cookie r = None
  end.
Proof.
  unfold sessions_get. destruct (is_empty (hr_Cookie r)) eqn:Hc.
  { apply is_empty_spec in Hc. intros [= <- <-]. by intros s0 _ Hne. }
  unfold mbind, M_bind, look. destruct (os_sessions o !! hr_Cookie r) as [s0|] eqn:Es; [|by intros [= <- <-]; intros].
  unfold o_now. destruct (expiredLocked cfg s0 _) eqn:Ee; unfold change; intros [= <- <-]; cbn [os_sessions set_sessions set_os_st].
  - intros s1 [= <-] _ ->. split; [done|]. apply lookup_delete_eq.
  - exists s0. rewrite lookup_insert_eq. unfold expiredLocked in Ee.
    destruct (Z.ltb_spec 0 (oc_SessionLifetime cfg)), (Z.ltb_spec (oc_SessionLifetime cfg) (Sub (clock (st_tick (os_st o))) (ss_signedIn s0)));
      cbn [andb] in Ee; try done; simp_bool; split_and!; try done; try lia; intros; destruct (Z.ltb_spec 0 (oc_SessionIdle cfg)); simp_bool; try lia.
Qed.
End Handlers.
