(* ===== verification/OidcSample.v ===== *)
(** * The OpenID Connect provider on a sample directory

    An account signs in from a registered client, and the code it gets is exchanged; a service
    account asks for a token of its own. The theorems of OidcFacts.v are applied to these runs. *)

From S2P Require Import Prelude Text Hostport Base64 Names Keytab Replay Model Secret IdRange Db Principals PrincipalFacts Directory DirectoryFacts Accounts Jws Oidc OidcFacts.

(** URLs as text with parameters at the end. *)
Definition toy_url : UrlLib := {|
  URL := string * list (string * string);
  url_Parse s := if contains_char ":"%char s then Some (s, []) else None;
  url_Scheme u := match split_char ":"%char (fst u) with p :: _ => p | [] => "" end;
  url_Host u := fst u;
  url_Path _ := EmptyString;
  url_Set ps u := (fst u, snd u ++ ps);
  url_String u := fst u +:+ "?" +:+ Join "&" ((fun p => fst p +:+ "=" +:+ snd p) <$> snd u);
  QueryEscape s := s;
  QueryUnescape s := Some s |}.

Definition list_range : MapRange := fun A m => map_to_list m.
Definition no_totp : Totp := fun _ _ _ => false.

Section OidcSample.
#[local] Existing Instance sample_clock.
#[local] Existing Instance toy_rand.
#[local] Existing Instance toy_aead.
#[local] Existing Instance toy_bcrypt.
#[local] Existing Instance toy_json.
#[local] Existing Instance toy_ecdsa.
#[local] Existing Instance toy_url.
#[local] Existing Instance list_range.
#[local] Existing Instance no_totp.
#[local] Instance sample_sha : Sha256 := fun b => b.

(** A group of people that the group of services includes, and an account with a password. *)
Definition with_password (u : User) (hash : string) : User := {|
  u_ID := u_ID u; u_Name := u_Name u; u_UIDNumber := u_UIDNumber u; u_PrimaryGroup := u_PrimaryGroup u;
  u_OtherGroups := u_OtherGroups u; u_GivenName := u_GivenName u; u_SN := u_SN u; u_Mail := u_Mail u;
  u_LoginShell := u_LoginShell u; u_Homedir := u_Homedir u; u_Disabled := u_Disabled u; u_SSHKeys := u_SSHKeys u;
  u_CustomAttrs := u_CustomAttrs u; u_Capabilities := u_Capabilities u; u_AppPasswords := u_AppPasswords u;
  u_CreatedAt := u_CreatedAt u; u_UpdatedAt := u_UpdatedAt u; u_PassBcrypt := hash; u_OTPSecret := u_OTPSecret u;
  u_HasOTP := u_HasOTP u; u_HasPassword := u_HasPassword u |}.

Definition people : St := snd (CreateGroup (sample_group "staff" 5000 []) empty_state).
Definition services : St := snd (CreateGroup (sample_group "services" 5001 [5000]) people).
Definition directory : St := snd (CreateUser (with_password (sample_user "alice" 10000 5000 []) "$secret") services).

Definition web_client : Client := mkClient "web" "Web" "" ["https://app.example/cb"] ["https://app.example/bye"].
Definition provider_config : OidcConfig :=
  mkOidcConfig "https://id.example" [] [web_client] "services" (3600 * second) (600 * second) (60 * second) (300 * second).

Definition ask (query : list (string * string)) : HReq := mkHReq (list_to_map query) None None "" "" "".
Definition submit (form : list (string * string)) : HReq := mkHReq ∅ (Some (list_to_map form)) None "" "" "".
Definition s256 (verifier : string) : string := EncodeToString RawURLEncoding (bytes_of_string verifier).

Definition run_route : route -> HReq -> OServer -> option Reply * OServer := serve provider_config true sample_signer.

Definition authorize_req : HReq := ask [("client_id", "web"); ("redirect_uri", "https://app.example/cb"); ("response_type", "code");
  ("code_challenge_method", "S256"); ("code_challenge", s256 "verifier"); ("state", "xyz")].
Definition authorized := run_route GET_authorize authorize_req (newOServer directory).
Definition login_req : HReq := submit [("req", drawn_id 0); ("login", " Alice "); ("password", "secret")].
Definition logged_in := run_route POST_login login_req (snd authorized).
Definition token_req : HReq := submit [("grant_type", "authorization_code"); ("client_id", "web"); ("code", drawn_id 2);
  ("redirect_uri", "https://app.example/cb"); ("code_verifier", "verifier")].
Definition exchanged_code := run_route POST_token token_req (snd logged_in).

(** The browser goes to the form, then back with the code; the code gives tokens once. *)
Lemma flow_runs :
  option_map rp_body (fst authorized) = Some (b_redirect ("/auth/login?req=" +:+ drawn_id 0)) /\
  option_map rp_body (fst logged_in) = Some (b_redirect ("https://app.example/cb?code=" +:+ drawn_id 2 +:+ "&state=xyz")) /\
  match fst exchanged_code with Some reply => is_Some (token_of "id_token" reply) | None => False end /\
  option_map rp_body (fst (run_route POST_token token_req (snd exchanged_code))) =
    Some (b_tokenError 400 "invalid_grant" "the code is unknown, expired or already used").
Proof. vm_compute. split_and!; try reflexivity. by eexists. Qed.

Definition flow : list entry :=
  [mkEntry (newOServer directory) GET_authorize authorize_req (fst authorized);
   mkEntry (snd authorized) POST_login login_req (fst logged_in)].

Lemma flow_history : history provider_config true sample_signer flow (snd logged_in).
Proof.
  change flow with (([] ++ [mkEntry (newOServer directory) GET_authorize authorize_req (fst authorized)])
    ++ [mkEntry (snd authorized) POST_login login_req (fst logged_in)]).
  eapply h_serve; [eapply h_serve; [apply h_start|apply surjective_pairing]|apply surjective_pairing].
Qed.

Lemma redirects_registered_witness :
  trusted provider_config ("https://app.example/cb?code=" +:+ drawn_id 2 +:+ "&state=xyz").
Proof.
  destruct (fst logged_in) as [reply|] eqn:E; [|by destruct flow_runs as (_ & Hl & _); rewrite E in Hl].
  apply (redirects_registered provider_config true sample_signer [mkEntry (newOServer directory) GET_authorize authorize_req (fst authorized)]
    (snd authorized) (snd logged_in) POST_login login_req reply).
  - apply (h_serve provider_config true sample_signer [] (newOServer directory)); [apply h_start|apply surjective_pairing].
  - change (serve provider_config true sample_signer POST_login login_req (snd authorized)) with logged_in. rewrite <- E. apply surjective_pairing.
  - destruct flow_runs as (_ & Hl & _). rewrite E in Hl. by injection Hl.
Defined.


(** The same code again. *)
Definition again := run_route POST_token token_req (snd exchanged_code).
Definition flow2 : list entry :=
  (flow ++ [mkEntry (snd logged_in) POST_token token_req (fst exchanged_code)])
  ++ [mkEntry (snd exchanged_code) POST_token token_req (fst again)].

Lemma flow2_history : history provider_config true sample_signer flow2 (snd again).
Proof. eapply h_serve; [eapply h_serve; [exact flow_history|apply surjective_pairing]|apply surjective_pairing]. Qed.

Lemma toy_fresh n : (n <= 256)%nat -> fresh_draws n.
Proof.
  intros Hn i j Hi Hj E. unfold rand, toy_rand in E. injection E as E. apply (f_equal Z_of_byte) in E.
  rewrite !Z_of_byte_of_Z, !Z.mod_small in E by lia. lia.
Qed.

Lemma code_single_use_witness : spent flow2 = [drawn_id 2] /\ NoDup (spent flow2).
Proof.
  split; [by vm_compute|]. apply (code_single_use provider_config true sample_signer flow2 (snd again)); [exact flow2_history|].
  apply toy_fresh. vm_compute. lia.
Defined.

(** A service account: a member through the group of people. *)
Definition service_req : HReq := submit [("grant_type", "client_credentials"); ("client_id", "alice"); ("client_secret", "secret"); ("resource", "web")].
Definition served := run_route POST_token service_req (newOServer directory).

Lemma served_ok : match fst served with
  | Some reply => is_Some (token_of "access_token" reply) /\ token_of "id_token" reply = None
  | None => False end.
Proof. vm_compute. split; [by eexists|done]. Qed.

Lemma client_credentials_gated_witness : exists c, service_account provider_config (newOServer directory) "alice" "secret" c.
Proof.
  assert (Hok := served_ok). destruct (fst served) as [reply|] eqn:E; [|destruct Hok]. destruct Hok as [[t Ht] Hi].
  destruct (client_credentials_gated provider_config true sample_signer (newOServer directory) (snd served) service_req reply t)
    as (form & name & secret & c & cl & n & now & Hf & _ & Hcred & Hsa & _); [|exact Ht|exact Hi|].
  - change (serve provider_config true sample_signer POST_token service_req (newOServer directory)) with served. rewrite <- E. apply surjective_pairing.
  - injection Hf as <-. exists c. assert (Hn : Some ("alice", "secret") = Some (name, secret)) by exact Hcred. injection Hn as <- <-. exact Hsa.
Defined.

(** A session used within its time. *)
Definition browser_req : HReq := mkHReq ∅ None None (drawn_id 1) "" "".
Definition session_read := sessions_get provider_config browser_req (snd logged_in).

Lemma session_bounds_witness : exists s0, os_sessions (snd logged_in) !! drawn_id 1 = Some s0 /\ ss_subject s0 = "alice" /\
  Sub (clock (st_tick (os_st (snd logged_in)))) (ss_signedIn s0) <= 3600 * second.
Proof.
  assert (Hok : match fst session_read with Ok (Some s) => ss_subject s = "alice" | _ => False end) by (vm_compute; reflexivity).
  destruct session_read as [[x|e|] o'] eqn:E; [|destruct Hok..]. cbn [fst] in Hok. destruct x as [s|]; [|destruct Hok].
  unfold session_read in E.
  destruct (session_bounds provider_config browser_req (snd logged_in) o' (Some s) E) as (s0 & H0 & Hs & _ & Hl & _).
  exists s0. split; [exact H0|]. split; [rewrite <- Hok, Hs; reflexivity|]. apply Hl. reflexivity.
Defined.

(** The user information of a token made a moment ago. *)
Definition alice_claims : subjectClaims := mkSubjectClaims "alice" "" "" ["staff"; "services"].
Definition alice_token : option string := Sign sample_signer 0 (token_claims provider_config "web" alice_claims (UnixTime 1700000000) (UnixTime 1700000000) "").
Definition info_req : HReq := mkHReq ∅ None None "" ("Bearer " +:+ default "" alice_token) "".
Definition informed := run_route GET_userinfo info_req (newOServer directory).

Lemma alice_account : account_claims directory "alice" alice_claims.
Proof. eexists. split; [vm_compute; reflexivity|]. vm_compute. done. Qed.

Lemma alice_plain : plain_claims (token_claims provider_config "web" alice_claims (UnixTime 1700000000) (UnixTime 1700000000) "").
Proof.
  assert (Hall : map_Forall (fun k c => all_chars is_key_char k = true /\ plain_claim c = true)
    (token_claims provider_config "web" alice_claims (UnixTime 1700000000) (UnixTime 1700000000) "")) by (by apply (bool_decide_unpack _); vm_compute).
  exact Hall.
Qed.

Lemma userinfo_follows_account_witness :
  option_map rp_body (fst informed) = Some (b_json (about_account alice_claims (list_to_map [("sub", c_str "alice")]))).
Proof.
  destruct alice_token as [t|] eqn:Et; [|exfalso; vm_compute in Et; discriminate].
  destruct (fst informed) as [reply|] eqn:E; [|exfalso; vm_compute in E; discriminate].
  destruct (userinfo_follows_account provider_config true sample_signer (newOServer directory) (snd informed) info_req reply "web" t alice_claims 0
    (UnixTime 1700000000) (UnixTime 1700000000) "") as (_ & Hacc & _).
  - by vm_compute.
  - exact alice_plain.
  - done.
  - by vm_compute.
  - exact Et.
  - unfold info_req. cbn [hr_Authorization]. by rewrite Et.
  - change (serve provider_config true sample_signer GET_userinfo info_req (newOServer directory)) with informed. rewrite <- E. apply surjective_pairing.
  - cbn [option_map]. f_equal. apply Hacc; [by vm_compute|exact alice_account].
Defined.
End OidcSample.
