(* ===== verification/Bootstrap.v ===== *)
(** * Provisioning: package [bootstrap]

    A plan is the directory a realm should come up with: groups, accounts, service principals, zone
    records. It is checked as a whole before anything of it is applied, and applying it creates what
    is missing and leaves alone what is there. What [gopkg.in/yaml.v3] reads of the file and the file
    itself are parameters. *)

From S2P Require Import Prelude Text Names Keytab Model Secret IdRange Db Principals PrincipalFacts Directory DirectoryFacts Accounts Zone Dns.

(** ** The plan *)

(** [Group] of the plan; a number that was left out is zero. *)
Record PlanGroup : Type := mkPlanGroup {
  bg_Name : string;
  bg_GIDNumber : Z;
  bg_Description : string;
  bg_IncludeGroups : list Z;
  bg_Capabilities : list Capability;
  bg_CustomAttrs : gmap string (list string);
}.

(** [User] of the plan. *)
Record PlanUser : Type := mkPlanUser {
  bu_Name : string;
  bu_UIDNumber : Z;
  bu_PrimaryGroup : Z;
  bu_OtherGroups : list Z;
  bu_GivenName : string;
  bu_SN : string;
  bu_Mail : string;
  bu_LoginShell : string;
  bu_Homedir : string;
  bu_Disabled : bool;
  bu_SSHKeys : list string;
  bu_CustomAttrs : gmap string (list string);
  bu_Capabilities : list Capability;
  bu_OTPSecret : string;
  bu_Password : string;
  bu_ForceChange : bool;
  bu_Aliases : list string;
}.

(** [Principal] of the plan; a switch that was left out is [None]. *)
Record PlanPrincipal : Type := mkPlanPrincipal {
  bp_Name : string;
  bp_Password : string;
  bp_Enabled : option bool;
  bp_RequiresPreAuth : option bool;
  bp_AllowForwardable : option bool;
  bp_AllowProxiable : option bool;
  bp_AllowRenewable : option bool;
  bp_AllowPostdate : option bool;
  bp_OKAsDelegate : option bool;
  bp_OKToAuthAsDelegate : option bool;
  bp_AllowedToDelegateTo : list string;
  bp_AllowedToImpersonate : list string;
  bp_Aliases : list string;
  bp_MaxTicketLife : Duration;
  bp_MaxRenewableLife : Duration;
}.

(** [DNSRecord] of the plan. *)
Record PlanRecord : Type := mkPlanRecord { br_Name : string; br_Type : string; br_Value : string; br_TTL : Z }.

Record Plan : Type := mkPlan {
  pl_Groups : list PlanGroup;
  pl_Users : list PlanUser;
  pl_Principals : list PlanPrincipal;
  pl_DNSRecords : list PlanRecord;
}.

Record PlanOptions : Type := mkPlanOptions {
  po_Realm : string;
  po_EncTypes : list Z;
  po_MinPasswordLength : Z;
  po_DefaultTTL : Z;
}.

Record Summary : Type := mkSummary { sm_Created : Z; sm_Existed : Z; sm_Renamed : Z }.

(** [outcome] and [groupOutcome]: what applying a group did, with the name it had. *)
Inductive group_outcome : Type := g_existed | g_created | g_renamed (was : string).

(** The entry a plan is refused for, by its place in the file. *)
Inductive PlanErr : Type :=
| bad_group (i : nat)
| bad_user (i : nat)
| bad_principal (i : nat)
| bad_record (i : nat)
| store_refused (e : StoreErr).

(** ** Reading it *)

(** [os.ReadFile] and [yaml.Decoder] with unknown keys refused; a file without a document is the
    empty plan. *)
Inductive decoded : Type := yaml_plan (p : Plan) | yaml_EOF | yaml_error.

Definition Load_plan (read : string -> option bytes) (yaml : bytes -> decoded) (path : string) : option Plan :=
  data ← read path;
  match yaml data with
  | yaml_plan p => Some p
  | yaml_EOF => Some (mkPlan [] [] [] [])
  | yaml_error => None
  end.

Definition hasSecrets (p : Plan) : bool :=
  existsb (fun u => non_empty (bu_Password u)) (pl_Users p) ||
  existsb (fun pr => non_empty (bp_Password pr)) (pl_Principals p).

(** [CheckFilePermissions]: whether the operator is warned, given the permission bits of the file. *)
Definition CheckFilePermissions (mode : option Z) (p : Plan) : bool :=
  hasSecrets p && match mode with Some m => negb (Z.land m 63 =? 0) | None => false end.

Definition boolOr (v : option bool) (fallback : bool) : bool := default fallback v.

Definition ttlOr (ttl fallback : Z) : Z := if 0 <? ttl then ttl else if 0 <? fallback then fallback else 3600.

(** [checkPassword]: whether a password the plan carries is refused. *)
Definition checkPassword (password : string) (minLength : Z) : bool :=
  non_empty password && (Z.of_nat (String.length password) <? minLength).

(** ** The names a plan hands out *)

(** [nameSet.claim]: the names so far with their owners, and those of one entry. *)
Fixpoint claim_all (realm : string) (raws : list string) (owner : string) (taken : gmap string string) : option (gmap string string) :=
  match raws with
  | [] => Some taken
  | raw :: raws' =>
      match ParseName raw realm with
      | Ok n => if bool_decide (is_Some (taken !! String_of n)) then None
                else claim_all realm raws' owner (<[String_of n := owner]> taken)
      | _ => None
      end
  end.

Definition claim (realm canonical : string) (aliases : list string) (owner : string) (taken : gmap string string) : option (gmap string string) :=
  claim_all realm (canonical :: aliases) owner taken.

(** ** Checking it *)

Definition accepted {E A} (o : outcome E A) : bool := match o with Ok _ => true | _ => false end.

Fixpoint validate_groups (i : nat) (gs : list PlanGroup) (seen : gset string) : outcome PlanErr unit :=
  match gs with
  | [] => mret tt
  | g :: gs' =>
      _ ← err_if (is_empty (bg_Name g)) (bad_group i);
      _ ← err_if (bool_decide (ToLower (bg_Name g) ∈ seen)) (bad_group i);
      _ ← err_if (negb (accepted (ValidateCustomAttrs (bg_CustomAttrs g)))) (bad_group i);
      validate_groups (S i) gs' ({[ToLower (bg_Name g)]} ∪ seen)
  end.

Section Validate.
Context `{DnsLib} (opts : PlanOptions).

Fixpoint validate_users (i : nat) (us : list PlanUser) (seen : gset string) (names : gmap string string) : outcome PlanErr (gmap string string) :=
  match us with
  | [] => mret names
  | u :: us' =>
      _ ← err_if (is_empty (bu_Name u)) (bad_user i);
      _ ← err_if (bool_decide (ToLower (bu_Name u) ∈ seen)) (bad_user i);
      _ ← err_if (bu_PrimaryGroup u <=? 0) (bad_user i);
      _ ← err_if (checkPassword (bu_Password u) (po_MinPasswordLength opts)) (bad_user i);
      names ← or_err (bad_user i) (claim (po_Realm opts) (bu_Name u) (bu_Aliases u) (bu_Name u) names);
      _ ← err_if (negb (accepted (ValidateCustomAttrs (bu_CustomAttrs u)))) (bad_user i);
      validate_users (S i) us' ({[ToLower (bu_Name u)]} ∪ seen) names
  end.

Fixpoint validate_principals (i : nat) (ps : list PlanPrincipal) (names : gmap string string) : outcome PlanErr (gmap string string) :=
  match ps with
  | [] => mret names
  | p :: ps' =>
      _ ← err_if (is_empty (bp_Name p)) (bad_principal i);
      _ ← err_if (negb (accepted (ParseName (bp_Name p) (po_Realm opts)))) (bad_principal i);
      _ ← err_if (checkPassword (bp_Password p) (po_MinPasswordLength opts)) (bad_principal i);
      names ← or_err (bad_principal i) (claim (po_Realm opts) (bp_Name p) (bp_Aliases p) (bp_Name p) names);
      validate_principals (S i) ps' names
  end.

(** The record [ValidateRecord] is asked about. *)
Definition plan_record (type : string) (r : PlanRecord) : DNSRecord :=
  mkDNSRecord 0 (br_Name r) type (ttlOr (br_TTL r) (po_DefaultTTL opts)) (br_Value r) EmptyString zeroTime zeroTime.

Fixpoint validate_records (i : nat) (rs : list PlanRecord) : outcome PlanErr unit :=
  match rs with
  | [] => mret tt
  | r :: rs' =>
      _ ← err_if (negb (ValidateRecord (plan_record (br_Type r) r))) (bad_record i);
      validate_records (S i) rs'
  end.

Definition Validate_plan (p : Plan) : outcome PlanErr unit :=
  _ ← validate_groups 0 (pl_Groups p) ∅;
  names ← validate_users 0 (pl_Users p) ∅ ∅;
  _ ← validate_principals 0 (pl_Principals p) names;
  validate_records 0 (pl_DNSRecords p).
End Validate.

(** ** Applying it *)

(** A computation over the store that may be refused by the plan. *)
Abbreviation P := (M St PlanErr).

(** [errors.Is(err, store.ErrNotFound)] after a lookup: what was found, or that nothing was. *)
Definition lookup_entry {A} (m : Tx A) : Tx (option A) := fun s =>
  match m s with
  | (Ok a, s') => (Ok (Some a), s')
  | (Err ErrNotFound, s') => (Ok None, s')
  | (Err e, s') => (Err e, s')
  | (Panic, s') => (Panic, s')
  end.

Definition in_plan {A} (m : Tx A) : P A := fun s =>
  match m s with
  | (Ok a, s') => (Ok a, s')
  | (Err e, s') => (Err (store_refused e), s')
  | (Panic, s') => (Panic, s')
  end.

Section Apply.
Context `{Clock, Rand, AEAD, Bcrypt, EncTypeLib, DnsLib} (cost : Z) (opts : PlanOptions).

Definition rename_to (name : string) (g : Group) : Group :=
  mkGroup (g_ID g) name (g_GIDNumber g) (g_Description g) (g_IncludeGroups g) (g_Capabilities g) (g_CustomAttrs g)
    (g_CreatedAt g) (g_UpdatedAt g).

Definition applyGroup (g : PlanGroup) : Tx group_outcome :=
  known ← lookup_entry (GetGroup (bg_Name g));
  match known with
  | Some _ => mret g_existed
  | None =>
      held ← (if 0 <? bg_GIDNumber g then lookup_entry (GetGroupByGID (bg_GIDNumber g)) else mret None);
      match held with
      | Some h =>
          _ ← UpdateGroup (g_Name h) (fun cur => Ok (rename_to (bg_Name g) cur));
          mret (g_renamed (g_Name h))
      | None =>
          gid ← (if bg_GIDNumber g =? 0 then NextGIDNumber else mret (bg_GIDNumber g));
          _ ← CreateGroup (mkGroup 0 (bg_Name g) gid (bg_Description g) (bg_IncludeGroups g) (bg_Capabilities g)
                 (bg_CustomAttrs g) zeroTime zeroTime);
          mret g_created
      end
  end.

Definition plan_account (u : PlanUser) (expiry : option Time) : NewAccount := {|
  na_User := Some {|
    u_ID := 0; u_Name := bu_Name u; u_UIDNumber := bu_UIDNumber u; u_PrimaryGroup := bu_PrimaryGroup u;
    u_OtherGroups := bu_OtherGroups u; u_GivenName := bu_GivenName u; u_SN := bu_SN u; u_Mail := bu_Mail u;
    u_LoginShell := bu_LoginShell u; u_Homedir := bu_Homedir u; u_Disabled := bu_Disabled u;
    u_SSHKeys := bu_SSHKeys u; u_CustomAttrs := bu_CustomAttrs u; u_Capabilities := bu_Capabilities u;
    u_AppPasswords := []; u_CreatedAt := zeroTime; u_UpdatedAt := zeroTime; u_PassBcrypt := EmptyString;
    u_OTPSecret := bu_OTPSecret u; u_HasOTP := false; u_HasPassword := false |};
  na_Realm := po_Realm opts; na_EncTypes := po_EncTypes opts; na_Password := bu_Password u;
  na_PasswordExpiresAt := expiry; na_Aliases := bu_Aliases u |}.

Definition applyUser (u : PlanUser) : Tx bool :=
  known ← lookup_entry (GetUser (bu_Name u));
  match known with
  | Some _ => mret false
  | None =>
      expiry ← (if bu_ForceChange u then now ← time_now; mret (Some now) else mret None);
      _ ← CreateAccount cost (plan_account u expiry);
      mret true
  end.

Definition plan_principal (name : Name) (p : PlanPrincipal) : Principal := {|
  p_ID := 0; p_Name := Principal_of name; p_Realm := Realm name; p_UserID := None; p_UserName := ""; p_KVNO := 0;
  p_Enabled := boolOr (bp_Enabled p) true; p_RequiresPreAuth := boolOr (bp_RequiresPreAuth p) true;
  p_AllowForwardable := boolOr (bp_AllowForwardable p) true; p_AllowProxiable := boolOr (bp_AllowProxiable p) true;
  p_AllowRenewable := boolOr (bp_AllowRenewable p) true; p_AllowPostdate := boolOr (bp_AllowPostdate p) false;
  p_OKAsDelegate := boolOr (bp_OKAsDelegate p) false; p_OKToAuthAsDelegate := boolOr (bp_OKToAuthAsDelegate p) false;
  p_AllowedToDelegateTo := bp_AllowedToDelegateTo p; p_Aliases := bp_Aliases p;
  p_AllowedToImpersonate := bp_AllowedToImpersonate p; p_MaxTicketLife := bp_MaxTicketLife p;
  p_MaxRenewableLife := bp_MaxRenewableLife p; p_PasswordLastSet := None; p_PasswordExpiresAt := None;
  p_ExpiresAt := None; p_LockedUntil := None; p_FailCount := 0; p_LastSuccess := None; p_LastFailure := None;
  p_CreatedAt := zeroTime; p_UpdatedAt := zeroTime; p_Keys := [] |}.

Definition parse_plan_name (raw : string) : outcome StoreErr Name :=
  match ParseName raw (po_Realm opts) with
  | Ok n => Ok n
  | Err e => Err (ErrParseName e)
  | Panic => Panic
  end.

Definition plan_keys (p : PlanPrincipal) (name : Name) : Tx (list Key) :=
  if non_empty (bp_Password p) then
    lift (match DeriveKeys (bp_Password p) name (po_EncTypes opts) with
          | Ok keys => Ok keys
          | Err e => Err (ErrKey e)
          | Panic => Panic
          end)
  else random_keys (po_EncTypes opts).

Definition applyPrincipal (p : PlanPrincipal) : Tx bool :=
  name ← lift (parse_plan_name (bp_Name p));
  known ← lookup_entry (GetPrincipal name);
  match known with
  | Some _ => mret false
  | None =>
      keys ← plan_keys p name;
      _ ← CreatePrincipal (plan_principal name p) keys;
      mret true
  end.

Definition applyDNSRecord (r : PlanRecord) : Tx bool :=
  existing ← LookupDNSRecords (br_Name r);
  let wantType := ToUpper (TrimSpace (br_Type r)) in
  if existsb (fun e => String.eqb (r_Type e) wantType && String.eqb (r_Value e) (TrimSpace (br_Value r))) existing then mret false
  else
    _ ← CreateDNSRecord (plan_record opts wantType r);
    mret true.

Definition count (created : bool) (s : Summary) : Summary :=
  if created then mkSummary (sm_Created s + 1) (sm_Existed s) (sm_Renamed s)
  else mkSummary (sm_Created s) (sm_Existed s + 1) (sm_Renamed s).

Definition count_group (o : group_outcome) (s : Summary) : Summary :=
  match o with
  | g_renamed _ => mkSummary (sm_Created s) (sm_Existed s) (sm_Renamed s + 1)
  | g_created => count true s
  | g_existed => count false s
  end.

(** [for _, x := range l], counting what each round did. *)
Fixpoint apply_all {X O} (f : X -> Tx O) (tally : O -> Summary -> Summary) (l : list X) (sum : Summary) : P Summary :=
  match l with
  | [] => mret sum
  | x :: l' => o ← in_plan (f x); apply_all f tally l' (tally o sum)
  end.

Definition Apply (plan : Plan) : P Summary :=
  _ ← lift (Validate_plan opts plan);
  sum ← apply_all applyGroup count_group (pl_Groups plan) (mkSummary 0 0 0);
  sum ← apply_all applyUser count (pl_Users plan) sum;
  sum ← apply_all applyPrincipal count (pl_Principals plan) sum;
  apply_all applyDNSRecord count (pl_DNSRecords plan) sum.
End Apply.
