(* ===== verification/BootstrapFacts.v ===== *)
(** * What applying a plan does to a directory

    Applying a plan, whatever it ends with, leaves every row of what was there as it was, but for the
    groups it renames; and a plan that was applied without renaming a group is applied a second time
    without any effect. *)

From S2P Require Import Prelude Text Names Keytab Model Secret IdRange Db Principals PrincipalFacts Directory DirectoryFacts Accounts Certs AccountsOk Zone ZoneFacts Dns DnsFacts Bootstrap.

(** ** Lists of rows of which some are old *)

Section OldRows.
Context {A : Type} (P : A -> Prop) `{!forall x, Decision (P x)}.

Lemma filter_app_new (l l2 : list A) : (forall x, x ∈ l2 -> ~ P x) -> filter P (l ++ l2) = filter P l.
Proof. intros H2. rewrite filter_app, (filter_none P l2); [apply app_nil_r|done]. Qed.

Lemma filter_filter_new (Q : A -> Prop) `{!forall x, Decision (Q x)} (l : list A) : (forall x, x ∈ l -> P x -> Q x) -> filter P (filter Q l) = filter P l.
Proof.
  induction l as [|x l IH]; intros HQ; [done|]. rewrite !filter_cons. destruct (decide (Q x)) as [Hq|Hq], (decide (P x)) as [Hp|Hp]; rewrite ?filter_cons.
  - rewrite decide_True by done. f_equal. apply IH. intros y Hy. apply HQ. by right.
  - rewrite decide_False by done. apply IH. intros y Hy. apply HQ. by right.
  - destruct Hq. apply HQ; [left|done].
  - apply IH. intros y Hy. apply HQ. by right.
Qed.

Lemma filter_map_new (f : A -> A) (l : list A) : (forall x, x ∈ l -> P x -> f x = x) -> (forall x, x ∈ l -> ~ P x -> ~ P (f x)) -> filter P (map f l) = filter P l.
Proof.
  induction l as [|x l IH]; intros H1 H2; [done|]. cbn [map]. rewrite !filter_cons.
  assert (IHl : filter P (map f l) = filter P l) by (apply IH; intros y Hy; [apply H1|apply H2]; by right).
  destruct (decide (P x)) as [Hp|Hp].
  - rewrite H1 by (done || left). rewrite decide_True by done. by f_equal.
  - rewrite decide_False by (apply H2; [left|done]). done.
Qed.

Lemma filter_fold_new {B} (step : list A -> B -> list A) bs (l : list A) :
  (forall t b, filter P (step t b) = filter P t) -> filter P (fold_left step bs l) = filter P l.
Proof. intros Hs. revert l. induction bs as [|b bs IH]; intros l; cbn [fold_left]; [done|]. by rewrite IH. Qed.
End OldRows.

Lemma filter_ignore_new (P : Z * Z -> Prop) `{!forall x, Decision (P x)} x t : ~ P x -> filter P (insert_ignore x t) = filter P t.
Proof. intros Hx. unfold insert_ignore. case_bool_decide; [done|]. apply filter_app_new. by intros y ->%list_elem_of_singleton. Qed.

Lemma filter_targets_new (P : TargetRow -> Prop) `{!forall x, Decision (P x)} pid values t :
  (forall x, P x -> tg_principal_id x <> pid) -> filter P (replace_targets pid values t) = filter P t.
Proof.
  intros HP. unfold replace_targets. rewrite filter_fold_new; [apply filter_filter_new; auto|].
  intros t' v. destruct (_ =? _)%nat; [done|]. destruct (existsb _ _); [done|].
  apply filter_app_new. intros y ->%list_elem_of_singleton Hy. by apply HP in Hy.
Qed.

(** ** What was there *)

Section Old.
(** The counters of the accounts, principals and groups at the time, and the groups that may be given
    another name. *)
Context (nu np ng : Z) (X : gset Z) (gids : list Z).

Definition old_group (i : Z) : Prop := i <= ng /\ i ∉ X.
#[export] Instance old_group_dec i : Decision (old_group i) := and_dec _ _.
Definition old_owner (kind : owner_kind) (i : Z) : Prop := match kind with kind_user => i <= nu | kind_group => old_group i end.
#[export] Instance old_owner_dec kind i : Decision (old_owner kind i).
Proof. destruct kind; unfold old_owner; apply _. Defined.

(** What a group is besides its name. *)
Definition group_number (r : GroupRow) : Z * Z * string * Z := (gr_id r, gr_gid_number r, gr_description r, gr_created_at r).

(** The rows of the accounts, principals and groups that were there are the same, in the same order;
    nothing else of the database changed but for records that were added to the zone. *)
Record same_old (d d' : DB) : Prop := {
  so_users : filter (fun r => ur_id r <= nu) (users (dt d')) = filter (fun r => ur_id r <= nu) (users (dt d));
  so_user_groups : filter (fun p => fst p <= nu) (user_groups (dt d')) = filter (fun p => fst p <= nu) (user_groups (dt d));
  so_ssh_keys : filter (fun r => sk_user_id r <= nu) (user_ssh_keys (dt d')) = filter (fun r => sk_user_id r <= nu) (user_ssh_keys (dt d));
  so_app_passwords : filter (fun r => aw_user_id r <= nu) (user_app_passwords (dt d')) = filter (fun r => aw_user_id r <= nu) (user_app_passwords (dt d));
  so_groups : filter (fun r => old_group (gr_id r)) (groups (dt d')) = filter (fun r => old_group (gr_id r)) (groups (dt d));
  so_numbers : group_number <$> filter (fun r => gr_id r <= ng) (groups (dt d')) = group_number <$> filter (fun r => gr_id r <= ng) (groups (dt d));
  so_includes : filter (fun p => old_group (fst p)) (group_includes (dt d')) = filter (fun p => old_group (fst p)) (group_includes (dt d));
  so_capabilities : filter (fun r => old_owner (cr_kind r) (cr_owner_id r)) (capabilities (dt d')) = filter (fun r => old_owner (cr_kind r) (cr_owner_id r)) (capabilities (dt d));
  so_attrs : filter (fun r => old_owner (at_kind r) (at_owner_id r)) (object_attrs (dt d')) = filter (fun r => old_owner (at_kind r) (at_owner_id r)) (object_attrs (dt d));
  so_sids : filter (fun r => old_owner (si_kind r) (si_owner_id r)) (security_identifiers (dt d')) = filter (fun r => old_owner (si_kind r) (si_owner_id r)) (security_identifiers (dt d));
  so_principals : filter (fun r => pr_id r <= np) (principals (kt d')) = filter (fun r => pr_id r <= np) (principals (kt d));
  so_keys : filter (fun r => kr_principal_id r <= np) (principal_keys (kt d')) = filter (fun r => kr_principal_id r <= np) (principal_keys (kt d));
  so_aliases : filter (fun r => al_principal_id r <= np) (principal_aliases (kt d')) = filter (fun r => al_principal_id r <= np) (principal_aliases (kt d));
  so_delegation : filter (fun r => tg_principal_id r <= np) (delegation_targets (kt d')) = filter (fun r => tg_principal_id r <= np) (delegation_targets (kt d));
  so_impersonation : filter (fun r => tg_principal_id r <= np) (impersonation_targets (kt d')) = filter (fun r => tg_principal_id r <= np) (impersonation_targets (kt d));
  so_trusts : trusts (kt d') = trusts (kt d);
  so_records : dns_records (zt d) `prefix_of` dns_records (zt d');
  so_certificates : filter (fun r => ct_user_id r <= nu) (user_certificates (zt d')) = filter (fun r => ct_user_id r <= nu) (user_certificates (zt d));
  so_meta : meta d' = meta d;
}.

#[export] Instance same_old_preorder : PreOrder same_old.
Proof.
  split; [by intros d; split|]. intros d1 d2 d3 [] []. split; try congruence. by etrans.
Qed.

(** What the counters say; that a principal belongs to an account that was counted, and to a new one
    only when it is new. *)
Record counted (d : DB) : Prop := {
  ct_users : nu <= seq_users (dt d);
  ct_principals : np <= seq_principals (kt d);
  ct_groups : ng <= seq_groups (dt d);
  ct_links : forall r u, r ∈ principals (kt d) -> pr_user_id r = Some u -> nu < u -> np < pr_id r;
  ct_ids : forall r, r ∈ users (dt d) -> ur_id r <= seq_users (dt d);
  ct_owners : forall r u, r ∈ principals (kt d) -> pr_user_id r = Some u -> u <= seq_users (dt d);
  ct_renamable : forall r, r ∈ groups (dt d) -> gr_id r <= ng -> gr_gid_number r ∈ gids -> gr_id r ∈ X;
}.

(** The accounts of some names are new. *)
Definition named_new (name : string -> bool) (d : DB) : Prop :=
  forall r, r ∈ users (dt d) -> name (ur_name r) = true -> nu < ur_id r.

(** ** Steps on the rows beside an account, a group or a principal *)

(** The rows the counters and links are about stay. *)
Definition same_basis (d d' : DB) : Prop :=
  users (dt d') = users (dt d) /\ groups (dt d') = groups (dt d) /\ principals (kt d') = principals (kt d) /\
  seq_users (dt d') = seq_users (dt d) /\ seq_groups (dt d') = seq_groups (dt d) /\ seq_principals (kt d') = seq_principals (kt d).

Definition quiet (d d' : DB) : Prop := same_old d d' /\ same_basis d d'.
#[export] Instance quiet_preorder : PreOrder quiet.
Proof.
  split; [by intros d|]. intros d1 d2 d3 [H1 (E1 & E2 & E3 & E4 & E5 & E6)] [H2 (F1 & F2 & F3 & F4 & F5 & F6)].
  split; [by etrans|]. unfold same_basis. split_and!; congruence.
Qed.

Lemma quiet_triple {E T} (m : M St E T) name : within quiet m ->
  triple same_old (fun d => counted d /\ named_new name d) m (fun _ d => counted d /\ named_new name d).
Proof.
  intros Hm s r s' [HR (E1 & E2 & E3 & E4 & E5 & E6)]%Hm [[] Hn]. split; [done|]. intros _ _. split.
  - split; rewrite ?E1, ?E2, ?E3, ?E4, ?E5, ?E6; done.
  - unfold named_new. by rewrite E1.
Qed.
End Old.

(** One table touched. *)
Ltac one_table := split; [split; cbn; try done|by split_and!].
Ltac new_rows := first [apply filter_app_new; intros ? ?%list_elem_of_singleton; subst | apply filter_filter_new; intros ? _].

Section QuietSteps.
Context (nu np ng : Z) (X : gset Z).
Abbreviation quiet := (quiet nu np ng X).
Abbreviation old_owner := (old_owner nu ng X).
Abbreviation old_group := (old_group ng X).
Context `{Ck : Clock, Rn : Rand, Ae : AEAD}.

Lemma quiet_insert_rid rid kind owner now : ~ old_owner kind owner -> within quiet (insert_rid rid kind owner now).
Proof. intros Ho s r s'. unfold insert_rid. case_match; intros [= _ <-]; [done|]. one_table. by new_rows. Qed.

Lemma quiet_allocate kind owner posix : ~ old_owner kind owner -> within quiet (allocateRID kind owner posix).
Proof. intros Ho. unfold allocateRID. frame; first [by apply quiet_insert_rid | by intros s r s' [= _ <-]]. Qed.

Lemma quiet_attrs kind owner attrs : ~ old_owner kind owner -> within quiet (replaceAttrs kind owner attrs).
Proof.
  intros Ho. unfold replaceAttrs, deleteAttrs. frame; apply within_update; intros d; one_table.
  - new_rows. intros Hx [<- <-]. done.
  - apply filter_app_new. unfold attr_rows. intros row (n & Hx & _)%list_elem_of_bind Hold. apply elem_of_lookup_imap in Hx as (i & v & -> & _). done.
Qed.

Lemma quiet_capabilities kind owner caps : ~ old_owner kind owner -> within quiet (replaceCapabilities kind owner caps).
Proof.
  intros Ho. unfold replaceCapabilities. frame; apply within_update; intros d; one_table.
  - new_rows. intros Hx [<- <-]. done.
  - apply filter_app_new. by intros row (c & -> & _)%list_elem_of_fmap.
Qed.

Lemma quiet_children u : nu < u_ID u -> within quiet (writeUserChildren u).
Proof.
  intros Hu. unfold writeUserChildren. frame; [apply within_update; intros d; one_table..|apply quiet_attrs|apply quiet_capabilities].
  - new_rows. lia.
  - apply filter_fold_new. intros t g. apply filter_ignore_new. cbn. lia.
  - new_rows. lia.
  - apply filter_app_new. intros row (i & v & -> & _)%elem_of_lookup_imap. cbn. lia.
  - cbn. lia.
  - cbn. lia.
Qed.

Lemma quiet_includes id gs : ~ old_group id -> within quiet (replaceIncludes id gs).
Proof.
  intros Hg. unfold replaceIncludes. frame; apply within_update; intros d; one_table.
  - new_rows. intros Hx Ex. by rewrite Ex in Hx.
  - apply filter_fold_new. intros t g. by apply filter_ignore_new.
Qed.

Lemma quiet_insert_keys pid kvno now i keys : np < pid -> within quiet (insert_keys pid kvno now i keys).
Proof.
  intros Hp. revert i. induction keys as [|k keys IH]; intros i; cbn [insert_keys]; [frame|]. unfold insert_key. frame; [|apply IH].
  apply within_exec; [tc_solve|]. intros d d'. case_match; [done|]. intros [= <-]. one_table. new_rows. cbn. lia.
Qed.
Lemma quiet_writeKeys pid kvno keys : np < pid -> within quiet (writeKeys pid kvno keys).
Proof.
  intros Hp. unfold writeKeys. frame; [|by apply quiet_insert_keys]. apply within_update. intros d. one_table. new_rows. lia.
Qed.

Lemma quiet_lists p : np < p_ID p -> within quiet (replacePrincipalLists p).
Proof.
  intros Hp. unfold replacePrincipalLists. frame; apply within_update; intros d; one_table; apply filter_targets_new; intros y Hy; lia.
Qed.

Lemma quiet_aliases p : np < p_ID p -> within quiet (replaceAliases p).
Proof.
  intros Hp. unfold replaceAliases, insert_alias. frame.
  - apply within_update. intros d. one_table. new_rows. lia.
  - apply within_exec; [tc_solve|]. intros d d'. case_match; [done|]. intros [= <-]. one_table. new_rows. cbn. lia.
Qed.

Lemma quiet_CreateDNSRecord r : within quiet (CreateDNSRecord r).
Proof.
  unfold CreateDNSRecord, insertDNSRecord, bumpZoneSerial, insert_dns_row. frame. intros s o s'. case_match; intros [= _ <-]; [done|].
  one_table. by apply prefix_app_r.
Qed.
End QuietSteps.

(** ** The operations a plan is applied with *)

Section Steps.
Context (nu np ng : Z) (X : gset Z) (gids : list Z).
Context `{Ck : Clock, Rn : Rand, Ae : AEAD, Bc : Bcrypt, El : EncTypeLib}.
Abbreviation counted := (counted nu np ng X gids).
Abbreviation triple := (triple (same_old nu np ng X)).
Abbreviation quiet := (quiet nu np ng X).

(** The counters are as they say, and some names are those of new accounts, if of any. *)
Definition newly (name : string -> bool) (d : DB) : Prop := counted d /\ named_new nu name d.

Definition called (name : string) (x : string) : bool := EqualFold x name.

Lemma triple_quiet {E T} (m : M St E T) name : within quiet m -> triple (newly name) m (fun _ => newly name).
Proof. apply quiet_triple. Qed.

Lemma triple_pure {E T} (F : Prop) (Pre : DB -> Prop) (m : M St E T) Post :
  (F -> triple Pre m Post) -> triple (fun d => F /\ Pre d) m Post.
Proof. intros Hm s r s' Hrun [HF Hpre]. by apply (Hm HF _ _ _ Hrun). Qed.

Ltac keep_step := eapply triple_bind; [tc_solve|apply triple_keeps; [tc_solve|solve [auto with ldapkdc]]|intros ?].

Lemma t_insert_user mk name : (forall id, ur_id (mk id) = id /\ ur_name (mk id) = name) ->
  triple counted (insert_user mk) (fun id d => nu < id /\ newly (called name) d).
Proof.
  intros Hmk s r s'. unfold insert_user. destruct (existsb _ _) eqn:E1; intros [= <- <-] []; [by split|].
  set (id := seq_users (dt (st_db s)) + 1). destruct (Hmk id) as [Hid Hname]. rewrite existsb_false in E1. split.
  - split; cbn; try done. apply filter_app_new. intros x ->%list_elem_of_singleton. unfold id in *. lia.
  - intros i [= <-]. split; [unfold id; lia|]. split.
    + split; cbn; try done; [unfold id; lia| |intros x u Hx Hu; specialize (ct_owners0 _ _ Hx Hu); unfold id; lia].
      intros x [Hx|Hx%list_elem_of_singleton]%elem_of_app; [apply ct_ids0 in Hx; unfold id; lia|subst x; lia].
    + intros x. cbn. intros [Hx|Hx%list_elem_of_singleton]%elem_of_app; [|subst x; unfold id in *; lia].
      intros Hf. apply E1 in Hx. unfold user_clash in Hx. fold id in Hx. unfold called in Hf. rewrite Hname, Hf in Hx. done.
Qed.

Lemma t_CreateUser u : triple counted (CreateUser u) (fun u' d => (nu < u_ID u' /\ u_Name u' = u_Name u) /\ newly (called (u_Name u)) d).
Proof.
  unfold CreateUser. keep_step. keep_step. keep_step. apply triple_write; [tc_solve|].
  eapply triple_bind; [tc_solve|by apply (t_insert_user _ (u_Name u))|]. intros id. apply triple_pure. intros Hid.
  eapply triple_bind; [tc_solve|apply triple_quiet, quiet_allocate; cbn; lia|]. intros [].
  eapply triple_bind; [tc_solve|apply triple_quiet, quiet_children; cbn; lia|]. intros [].
  apply triple_ret; [tc_solve|]. done.
Qed.

Lemma t_insert_principal mk name : (forall id, pr_id (mk id) = id) ->
  triple (newly name) (insert_principal mk) (fun id d => np < id /\ newly name d).
Proof.
  intros Hmk s r s'. unfold insert_principal. destruct (existsb _ _); [intros [= <- <-]; by split|]. destruct (negb _) eqn:Efk; [intros [= <- <-]; by split|].
  intros [= <- <-] [[] Hn]. split.
  - split; cbn; try done. apply filter_app_new. intros x ->%list_elem_of_singleton. rewrite Hmk. lia.
  - intros i [= <-]. split; [lia|]. split; [|done]. split; cbn; try done; [lia|..].
    + intros r u [Hr|Hr%list_elem_of_singleton]%elem_of_app; [by apply ct_links0|]. subst r. rewrite Hmk. lia.
    + intros r u [Hr|Hr%list_elem_of_singleton]%elem_of_app Hu; [by eapply ct_owners0|]. subst r. rewrite Hu in Efk. unfold user_exists in Efk.
      apply negb_false_iff, existsb_exists in Efk as (x & Hx & Ex). apply list_elem_of_In, ct_ids0 in Hx. apply Z.eqb_eq in Ex. lia.
Qed.

Lemma t_CreatePrincipal p keys name : triple (newly name) (CreatePrincipal p keys) (fun _ => newly name).
Proof.
  unfold CreatePrincipal. keep_step. keep_step. apply triple_write; [tc_solve|]. keep_step. keep_step.
  eapply triple_bind; [tc_solve|by apply t_insert_principal|]. intros id. apply triple_pure. intros Hid.
  eapply triple_bind; [tc_solve|apply triple_quiet, quiet_writeKeys; cbn; lia|]. intros [].
  eapply triple_bind; [tc_solve|apply triple_quiet, quiet_lists; cbn; lia|]. intros [].
  apply triple_quiet. frame; [apply quiet_aliases; cbn; lia|..].
Qed.

Lemma t_update_row pid f name : np < pid -> (forall r, pr_id (f r) = pr_id r /\ pr_user_id (f r) = pr_user_id r) ->
  triple (newly name) (update_kt (update_row pid f)) (fun _ => newly name).
Proof.
  intros Hp Hf. apply triple_update. intros d [[] Hn]. split.
  - split; cbn; try done. apply filter_map_new; intros x _; cbv beta; destruct (Z.eqb_spec (pr_id x) pid) as [E1|E1]; try done; [lia|].
    by rewrite (proj1 (Hf x)).
  - split; [|done]. split; cbn; try done; intros r u (x & -> & Hx)%list_elem_of_fmap; cbv beta;
      (destruct (pr_id x =? pid); [rewrite ?(proj1 (Hf x)), (proj2 (Hf x))|]; [by apply ct_links0 || by eapply ct_owners0..]).
Qed.

Lemma t_rollKeys p keys pw name : np < p_ID p -> triple (newly name) (rollKeys p keys pw) (fun _ => newly name).
Proof.
  intros Hp. unfold rollKeys. eapply triple_bind; [tc_solve|by apply triple_quiet, quiet_writeKeys|]. intros [].
  eapply triple_bind; [tc_solve|apply triple_quiet; apply within_update; intros d; one_table; apply filter_filter_new; intros x _; lia|]. intros [].
  keep_step. eapply triple_bind; [tc_solve|by apply t_update_row|]. intros []. apply triple_ret; [tc_solve|done].
Qed.

Lemma t_get_user name : triple (newly (called name)) (query_outcome (fun d => getUser d (user_named name))) (fun u d => nu < u_ID u /\ newly (called name) d).
Proof.
  intros s r s' [= <- <-] Hn. split; [done|]. intros u Hu. unfold getUser in Hu. run_inv.
  match goal with H : List.find _ _ = Some ?x |- _ => apply find_Some_elem in H as [Hx Hf] end.
  split; [|done]. cbn. by apply (proj2 Hn).
Qed.

Lemma t_set_digest uid hash now name : nu < uid -> triple (newly name) (set_digest uid hash now) (fun _ => newly name).
Proof.
  intros Hu. apply triple_update. intros d [[] Hn]. split.
  - split; cbn; try done. apply filter_map_new; intros x _; cbv beta; destruct (Z.eqb_spec (ur_id x) uid) as [E1|E1]; try done. lia.
  - split; [split; cbn; try done|]; intros r; cbn; intros (x & -> & Hx)%list_elem_of_fmap; cbv beta.
    + destruct (ur_id x =? uid); exact (ct_ids0 x Hx).
    + destruct (ur_id x =? uid); exact (Hn x Hx).
Qed.

Lemma t_SetUserPassword cost name pw etypes expires :
  triple (newly (called name)) (SetUserPassword cost name pw etypes expires) (fun _ => newly (called name)).
Proof.
  unfold SetUserPassword, hashPassword. eapply triple_bind; [tc_solve|apply triple_keeps; [tc_solve|auto with ldapkdc]|]. intros hash.
  apply triple_write; [tc_solve|]. eapply triple_bind; [tc_solve|apply t_get_user|]. intros u. apply triple_pure. intros Hu.
  keep_step. eapply triple_bind; [tc_solve|by apply t_set_digest|]. intros [].
  eapply (triple_bind _ _ _ (fun ps d => (forall p, p ∈ ps -> np < p_ID p) /\ newly (called name) d)).
  - intros s r s' [= <- <-] [Hc Hn]. split; [done|]. intros ps [= <-]. split; [|done].
    intros p (r & -> & Hr)%list_elem_of_fmap. apply elem_of_sort_by, list_elem_of_filter in Hr as [Hr1 Hr2].
    cbn. by eapply (ct_links _ _ _ _ _ _ Hc).
  - intros ps. apply triple_pure. intros Hps. apply triple_for_each; [tc_solve|]. intros p Hp%Hps. unfold rekey.
    keep_step. eapply triple_bind; [tc_solve|by apply t_rollKeys|]. intros q. by apply t_update_row.
Qed.

Lemma t_DeleteUser name : triple (newly (called name)) (DeleteUser name) (fun _ => newly (called name)).
Proof.
  unfold DeleteUser. apply triple_write; [tc_solve|]. eapply triple_bind; [tc_solve|apply t_get_user|]. intros u. apply triple_pure. intros Hu.
  assert (Hown : forall kind i, old_owner nu ng X kind i -> ~ (kind = kind_user /\ i = u_ID u)) by (intros kind i Ho [-> ->]; cbn in Ho; lia).
  eapply triple_bind; [tc_solve|apply triple_quiet, within_update; intros d; one_table; apply filter_filter_new; intros x _; apply Hown|]. intros [].
  eapply triple_bind; [tc_solve|apply triple_quiet, within_update; intros d; one_table; apply filter_filter_new; intros x _; apply Hown|]. intros [].
  eapply triple_bind; [tc_solve|apply triple_quiet, within_update; intros d; one_table; apply filter_filter_new; intros x _; apply Hown|]. intros [].
  apply triple_update. intros d [Hc Hn].
  assert (Hgone : forall i, i <= np -> i ∉ pr_id <$> filter (fun r => bool_decide (pr_user_id r = Some (u_ID u)) = true) (principals (kt d))).
  { intros i Hi (r & -> & Hr)%list_elem_of_fmap. apply list_elem_of_filter in Hr as [Hr1 Hr2]. apply bool_decide_eq_true in Hr1.
    pose proof (ct_links _ _ _ _ _ _ Hc r _ Hr2 Hr1 Hu). lia. }
  split.
  - split; cbn; try done; apply filter_filter_new; intros x Hx; try lia; try by intros ?%Hgone.
    intros Hle. apply bool_decide_eq_false. intros Hl. pose proof (ct_links _ _ _ _ _ _ Hc x _ Hx Hl Hu). lia.
  - destruct Hc. split; [split; cbn; try done|].
    + intros r v [_ Hr]%list_elem_of_filter. by apply ct_links0.
    + intros r [_ Hr]%list_elem_of_filter. by apply ct_ids0.
    + intros r v [_ Hr]%list_elem_of_filter. by apply ct_owners0.
    + intros r. cbn. intros [_ Hr]%list_elem_of_filter. by apply Hn.
Qed.

Lemma triple_or_undo {T} name (m : Tx T) Post :
  atomic m -> triple (newly (called name)) m Post -> triple (newly (called name)) (or_undo name m) Post.
Proof.
  intros Ha Hm s r s'. unfold or_undo, undoAccount. destruct (m s) as [[x|e|] s1] eqn:E1; [intros [= <- <-]; by apply Hm in E1| |intros [= <- <-]; by apply Hm in E1].
  intros [= <- <-] Hn. destruct (Ha _ _ _ E1) as [[x [=]]|Ed]. destruct (DeleteUser name s1) as [r2 s2] eqn:E2.
  rewrite <- Ed in Hn |- *. split; [|done]. by apply (t_DeleteUser name _ _ _ E2).
Qed.

Lemma keeps_random_keys etypes : keeps_db (random_keys etypes).
Proof. intros s r s'. unfold random_keys. case_match; by intros [= _ <-]. Qed.

Lemma atomic_CreatePrincipal p keys : atomic (CreatePrincipal p keys).
Proof. unfold CreatePrincipal. auto with ldapkdc. Qed.
Lemma atomic_SetUserPassword cost name pw etypes expires : atomic (SetUserPassword cost name pw etypes expires).
Proof. unfold SetUserPassword, hashPassword. apply atomic_bind; auto 10 with ldapkdc. Qed.

Lemma t_CreateAccount cost a : triple counted (CreateAccount cost a) (fun _ => counted).
Proof.
  unfold CreateAccount. keep_step.
  eapply triple_bind; [tc_solve|apply triple_keeps; [tc_solve|case_match; unfold NextUIDNumber; auto with ldapkdc]|]. intros u.
  eapply triple_bind; [tc_solve|apply t_CreateUser|]. intros u'. apply triple_pure. intros [Hid Hname]. rewrite Hname.
  eapply triple_bind; [tc_solve|apply triple_keeps; [tc_solve|apply keeps_random_keys]|]. intros keys.
  eapply triple_bind; [tc_solve|apply triple_or_undo; [apply atomic_CreatePrincipal|apply t_CreatePrincipal]|]. intros q.
  apply triple_if; intros _; [|apply triple_ret; [tc_solve|]; by intros d [? _]].
  eapply triple_conseq; [done| |apply triple_or_undo; [apply atomic_SetUserPassword|apply t_SetUserPassword]]. by intros ? d [? _].
Qed.

Lemma t_insert_group mk : (forall id, gr_id (mk id) = id) -> triple counted (insert_group mk) (fun id d => ng < id /\ counted d).
Proof.
  intros Hmk s r s'. unfold insert_group. destruct (existsb _ _); intros [= <- <-] []; [by split|]. split.
  - split; cbn; try done; [|f_equal]; apply filter_app_new; intros x ->%list_elem_of_singleton; rewrite Hmk; [intros [? _]|]; lia.
  - intros i [= <-]. split; [lia|]. split; cbn; try done; [lia|].
    intros r [Hr|Hr%list_elem_of_singleton]%elem_of_app; [by apply ct_renamable0|]. subst r. rewrite Hmk. lia.
Qed.

Lemma quiet_counted {E T} (m : M St E T) : within quiet m -> triple counted m (fun _ => counted).
Proof.
  intros Hm s r s' [HR (E1 & E2 & E3 & E4 & E5 & E6)]%Hm []. split; [done|]. intros _ _. split; rewrite ?E1, ?E2, ?E3, ?E4, ?E5, ?E6; done.
Qed.

Lemma t_CreateGroup g : triple counted (CreateGroup g) (fun _ => counted).
Proof.
  unfold CreateGroup. keep_step. keep_step. keep_step. apply triple_write; [tc_solve|].
  eapply triple_bind; [tc_solve|by apply t_insert_group|]. intros id. apply triple_pure. intros Hid.
  assert (Hno : ~ old_group ng X id) by (intros [? _]; lia).
  apply quiet_counted. frame; [by apply quiet_allocate|by apply quiet_includes|by apply quiet_attrs|by apply quiet_capabilities].
Qed.

Lemma numbers_kept (g : Group) new now (l : list GroupRow) :
  (forall y, y ∈ l -> gr_id y = g_ID g -> gr_gid_number y = g_GIDNumber g /\ gr_description y = g_Description g) ->
  group_number <$> filter (fun r => gr_id r <= ng) (map (fun r => if gr_id r =? g_ID g
     then mkGroupRow (gr_id r) new (g_GIDNumber g) (g_Description g) (gr_created_at r) now else r) l) =
  group_number <$> filter (fun r => gr_id r <= ng) l.
Proof.
  induction l as [|x l IH]; intros Hl; [done|]. cbn [map]. rewrite !filter_cons.
  assert (IHl := IH (fun y Hy => Hl y (list_elem_of_further _ _ _ Hy))).
  destruct (Z.eqb_spec (gr_id x) (g_ID g)) as [E1|E1]; cbn [gr_id]; (destruct (decide (gr_id x <= ng)); [|done]); rewrite !fmap_cons, IHl; [|done].
  f_equal. unfold group_number. cbn. by destruct (Hl x (list_elem_of_here _ _) E1) as [-> ->].
Qed.

(** A group that is given another name keeps its number, so it is one of those that may be. *)
Lemma t_rename name new : triple (fun d => counted d /\ accounts_ok d /\ forall r, List.find (group_named name) (groups (dt d)) = Some r -> gr_gid_number r ∈ gids)
  (UpdateGroup name (fun cur => Ok (rename_to new cur))) (fun _ => counted).
Proof.
  unfold UpdateGroup. apply triple_write; [tc_solve|].
  eapply (triple_bind _ _ _ (fun g d => (~ old_group ng X (g_ID g) /\ g_GIDNumber g ∈ gids) /\ counted d /\
    forall y, y ∈ groups (dt d) -> gr_id y = g_ID g -> gr_gid_number y = g_GIDNumber g /\ gr_description y = g_Description g)).
  { intros s r s' [= <- <-] (Hc & Hok & Hf). split; [done|]. intros g Hg. unfold getGroup in Hg. run_inv.
    match goal with H : List.find _ _ = Some ?x |- _ => pose proof (Hf _ H) as Hx; apply find_Some_elem in H as [Hin _] end.
    cbn. split; [split; [|done]; intros [Hle Hn]; by eapply Hn, ct_renamable|]. split; [done|].
    intros y Hy Ey. by rewrite (NoDup_key_inj gr_id _ _ _ (ao_group_ids _ Hok) Hy Hin Ey). }
  intros g. apply triple_pure. intros [Hno Hgid].
  eapply (triple_bind _ _ _ (fun g' d => g' = rename_to new g /\ counted d /\
    forall y, y ∈ groups (dt d) -> gr_id y = g_ID g -> gr_gid_number y = g_GIDNumber g /\ gr_description y = g_Description g)); [by intros s r s' [= <- <-]; split; [|intros x [= <-]]|].
  intros g'. apply triple_pure. intros ->. keep_step. keep_step.
  eapply triple_bind; [tc_solve|apply (triple_exec _ _ _ counted)|].
  - intros d d'. unfold update_group_row. case_match; [done|]. intros [= <-] [[] Hrow]. split.
    + split; cbn; try done; [|by apply numbers_kept]. apply filter_map_new; intros y _; cbv beta; destruct (Z.eqb_spec (gr_id y) (g_ID g)) as [E1|E1]; try done.
      by rewrite E1.
    + split; cbn; try done. intros r (y & -> & Hy)%list_elem_of_fmap. cbv beta. destruct (Z.eqb_spec (gr_id y) (g_ID g)) as [E1|E1]; [|by apply ct_renamable0].
      cbn. intros Hle _. rewrite E1 in *. destruct (decide (g_ID g ∈ X)); [done|]. by destruct Hno.
  - intros []. cbn [g_ID g_GIDNumber g_IncludeGroups g_CustomAttrs g_Capabilities rename_to]. rewrite Z.eqb_refl. cbn [negb].
    apply quiet_counted. frame; [by apply quiet_includes|by apply quiet_attrs|by apply quiet_capabilities].
Qed.
End Steps.

(** ** Applying a plan leaves alone what is there *)

#[export] Instance same_accounts_preorder : PreOrder same_accounts.
Proof.
  split; [by intros d|]. intros d1 d2 d3 (E1 & E2 & E3 & E4 & E5) (F1 & F2 & F3 & F4 & F5). unfold same_accounts. split_and!; congruence.
Qed.

Section KeepsAccounts.
Context `{Ck : Clock, Rn : Rand, Ae : AEAD, Bc : Bcrypt, El : EncTypeLib}.

Lemma kacc_within {T} (m : Tx T) : within same_accounts m -> keeps_accounts m.
Proof. intros Hm s r s' Hd%Hm. by apply same_accounts_ok. Qed.

Lemma same_CreatePrincipal p keys : within same_accounts (CreatePrincipal p keys).
Proof.
  unfold CreatePrincipal, writeKeys, replacePrincipalLists, replaceAliases, insert_alias. frame.
  - intros s r s'. unfold insert_principal. repeat case_match; by intros [= _ <-].
  - generalize 0%nat. induction keys as [|k keys IH]; intros n; cbn [insert_keys]; [frame|]. unfold insert_key. frame; [|apply IH].
    apply within_exec; [tc_solve|]. intros d d'. destruct (existsb _ _); [done|]. by intros [= <-].
  - apply within_exec; [tc_solve|]. intros d d'. destruct (existsb _ _); [done|]. by intros [= <-].
Qed.

Lemma kacc_CreatePrincipal p keys : keeps_accounts (CreatePrincipal p keys).
Proof. apply kacc_within, same_CreatePrincipal. Qed.
Lemma kacc_CreateDNSRecord r : keeps_accounts (CreateDNSRecord r).
Proof.
  apply kacc_within. unfold CreateDNSRecord, insertDNSRecord, bumpZoneSerial, insert_dns_row. frame. intros s o s'. case_match; by intros [= _ <-].
Qed.
Lemma kacc_DeleteUser name : keeps_accounts (DeleteUser name).
Proof. intros s r s' Hrun. eapply dstep_accounts. by eapply dstep_delete_user. Qed.
Lemma kacc_SetUserPassword cost name pw etypes expires : keeps_accounts (SetUserPassword cost name pw etypes expires).
Proof. intros s r s' Hrun. eapply astep_accounts. by eapply astep_password. Qed.
Lemma kacc_CreateGroup g : keeps_accounts (CreateGroup g).
Proof. intros s r s' Hrun. eapply dstep_accounts. by eapply dstep_create_group. Qed.
Lemma kacc_UpdateGroup name f : keeps_accounts (UpdateGroup name f).
Proof. intros s r s' Hrun. eapply dstep_accounts. by eapply dstep_update_group. Qed.

Lemma kacc_or_undo {T} name (m : Tx T) : keeps_accounts m -> keeps_accounts (or_undo name m).
Proof.
  intros Hm s r s'. unfold or_undo, undoAccount. destruct (m s) as [[x|e|] s1] eqn:E1; [intros [= _ <-]; by apply Hm in E1| |intros [= _ <-]; by apply Hm in E1].
  intros [= _ <-] Hok. destruct (DeleteUser name s1) as [r2 s2] eqn:E2. eapply kacc_DeleteUser; [exact E2|]. by eapply Hm.
Qed.

Lemma kacc_CreateAccount cost a : keeps_accounts (CreateAccount cost a).
Proof.
  unfold CreateAccount, NextUIDNumber. apply kacc_bind; [auto with accounts|intros u]. apply kacc_bind; [case_match; auto with accounts|intros u1].
  apply kacc_bind; [|intros u2].
  { intros s r s' Hrun. eapply dstep_accounts. by eapply dstep_create_user. }
  apply kacc_bind; [|intros keys].
  { apply kacc_within, within_keeps; [tc_solve|apply keeps_random_keys]. }
  apply kacc_bind; [apply kacc_or_undo, kacc_CreatePrincipal|intros p]. case_match; [apply kacc_or_undo, kacc_SetUserPassword|apply kacc_ret].
Qed.
End KeepsAccounts.

Section LeavesAlone.
Context (nu np ng : Z) (X : gset Z) (gids : list Z).
Context `{Ck : Clock, Rn : Rand, Ae : AEAD, Bc : Bcrypt, El : EncTypeLib, Dl : DnsLib}.
Context (cost : Z) (opts : PlanOptions).
Abbreviation triple := (triple (same_old nu np ng X)).

(** What holds between the entries of a plan. *)
Definition settled (d : DB) : Prop := counted nu np ng X gids d /\ accounts_ok d.

Lemma triple_settled {T} Pre (m : Tx T) :
  (forall d, Pre d -> accounts_ok d) -> triple Pre m (fun _ => counted nu np ng X gids) -> keeps_accounts m -> triple Pre m (fun _ => settled).
Proof.
  intros HP Hm Hk s r s' Hrun Hpre. destruct (Hm _ _ _ Hrun Hpre) as [HR HQ]. split; [done|]. intros x Ex. split; [by eapply HQ|].
  eapply Hk; [exact Hrun|]. by apply HP.
Qed.

Lemma keeps_lookup_entry {T} (m : Tx T) : keeps_db m -> keeps_db (lookup_entry m).
Proof. intros Hm s r s'. unfold lookup_entry. destruct (m s) as [[x|[]|] s1] eqn:E1; apply Hm in E1; by intros [= _ <-]. Qed.

Lemma triple_in_plan {T} Pre (m : Tx T) Post : triple Pre m Post -> triple Pre (in_plan m) Post.
Proof.
  intros Hm s r s'. unfold in_plan. destruct (m s) as [[x|e|] s1] eqn:E1; intros [= <- <-] Hpre; destruct (Hm _ _ _ E1 Hpre) as [HR HQ]; [|by split..].
  split; [done|]. intros y [= <-]. by apply HQ.
Qed.

Lemma t_applyGroup g : (0 < bg_GIDNumber g -> bg_GIDNumber g ∈ gids) -> triple settled (applyGroup g) (fun _ => settled).
Proof.
  intros Hg. unfold applyGroup, GetGroup, GetGroupByGID.
  eapply triple_bind; [tc_solve|apply triple_keeps; [tc_solve|apply keeps_lookup_entry; auto with ldapkdc]|]. intros [k|]; [apply triple_ret; [tc_solve|done]|].
  eapply (triple_bind _ _ _ (fun held d => settled d /\ forall h r, held = Some h ->
    List.find (group_named (g_Name h)) (groups (dt d)) = Some r -> gr_gid_number r ∈ gids)).
  { destruct (Z.ltb_spec 0 (bg_GIDNumber g)) as [Hpos|_]; [|apply triple_ret; [tc_solve|]; intros d Hd; by split].
    intros s r s' Hrun Hs. assert (st_db s' = st_db s) as Ed by (eapply keeps_lookup_entry; [|exact Hrun]; auto with ldapkdc).
    rewrite Ed. split; [done|]. intros held ->. split; [done|]. intros h x -> Hx.
    unfold lookup_entry, query_outcome, getGroup in Hrun. destruct (List.find _ _) as [r0|] eqn:E1; [|discriminate]. cbn in Hrun. injection Hrun as <- <-.
    apply find_Some_elem in E1 as [Hin Hgid]. rewrite (group_by_name _ (proj2 Hs) r0) in Hx; [|done|apply EqualFold_refl].
    injection Hx as <-. simp_bool. rewrite Hgid. by apply Hg. }
  intros [h|].
  - eapply (triple_bind _ _ _ (fun _ => settled)); [|intros g'; apply triple_ret; [tc_solve|done]].
    apply triple_settled; [by intros d [[_ ?] _]| |apply kacc_UpdateGroup].
    eapply triple_conseq; [| |apply (t_rename _ _ _ _ gids)]; [|done]. intros d [[Hc Hok] Hh]. split; [done|]. split; [done|]. by intros r Hr; eapply Hh.
  - apply (triple_conseq _ _ settled _ _ (fun _ => settled)); [by intros d [Hs _]|done|].
    eapply triple_bind; [tc_solve|apply triple_keeps; [tc_solve|case_match; unfold NextGIDNumber; auto with ldapkdc]|]. intros gid.
    eapply (triple_bind _ _ _ (fun _ => settled)); [|intros g'; apply triple_ret; [tc_solve|done]].
    apply triple_settled; [by intros d [_ ?]| |apply kacc_CreateGroup]. eapply triple_conseq; [| |apply (t_CreateGroup _ _ _ _ gids)]; [by intros d [? _]|done].
Qed.

Lemma t_applyUser u : triple settled (applyUser cost opts u) (fun _ => settled).
Proof.
  unfold applyUser, GetUser. eapply triple_bind; [tc_solve|apply triple_keeps; [tc_solve|apply keeps_lookup_entry; auto with ldapkdc]|].
  intros [k|]; [apply triple_ret; [tc_solve|done]|].
  eapply triple_bind; [tc_solve|apply triple_keeps; [tc_solve|case_match; auto with ldapkdc]|]. intros expiry.
  eapply (triple_bind _ _ _ (fun _ => settled)); [|intros []; apply triple_ret; [tc_solve|done]].
  apply triple_settled; [by intros d [_ ?]| |apply kacc_CreateAccount]. eapply triple_conseq; [| |apply (t_CreateAccount _ _ _ _ gids)]; [by intros d [? _]|done].
Qed.

Lemma t_principal p keys : triple (counted nu np ng X gids) (CreatePrincipal p keys) (fun _ => counted nu np ng X gids).
Proof.
  eapply triple_conseq; [| |apply (t_CreatePrincipal _ _ _ _ gids _ _ (fun _ => false))]; [by intros d Hc|by intros ? d [Hc _]].
Qed.

Lemma t_applyPrincipal p : triple settled (applyPrincipal opts p) (fun _ => settled).
Proof.
  unfold applyPrincipal, GetPrincipal, plan_keys.
  eapply triple_bind; [tc_solve|apply triple_keeps; [tc_solve|auto with ldapkdc]|]. intros name.
  eapply triple_bind; [tc_solve|apply triple_keeps; [tc_solve|apply keeps_lookup_entry; auto with ldapkdc]|]. intros [k|]; [apply triple_ret; [tc_solve|done]|].
  eapply triple_bind; [tc_solve|apply triple_keeps; [tc_solve|case_match; [auto with ldapkdc|apply keeps_random_keys]]|]. intros keys.
  eapply (triple_bind _ _ _ (fun _ => settled)); [|intros q; apply triple_ret; [tc_solve|done]].
  apply triple_settled; [by intros d [_ ?]| |apply kacc_CreatePrincipal].
  eapply triple_conseq; [| |apply t_principal]; [by intros d [Hc _]|done].
Qed.

Lemma t_applyDNSRecord r : triple settled (applyDNSRecord opts r) (fun _ => settled).
Proof.
  unfold applyDNSRecord, LookupDNSRecords. eapply triple_bind; [tc_solve|apply triple_keeps; [tc_solve|auto with ldapkdc]|]. intros es. cbv zeta.
  case_match; [apply triple_ret; [tc_solve|done]|]. eapply (triple_bind _ _ _ (fun _ => settled)); [|intros q; apply triple_ret; [tc_solve|done]].
  apply triple_settled; [by intros d [_ ?]| |].
  - eapply triple_conseq; [| |apply (quiet_counted _ _ _ _ gids), quiet_CreateDNSRecord]; [by intros d [? _]|done].
  - apply kacc_CreateDNSRecord.
Qed.

Lemma t_apply_all {Y O} (f : Y -> Tx O) tally l sum :
  (forall x, x ∈ l -> triple settled (f x) (fun _ => settled)) -> triple settled (apply_all f tally l sum) (fun _ => settled).
Proof.
  revert sum. induction l as [|x l IH]; intros sum Hf; cbn [apply_all]; [apply triple_ret; [tc_solve|done]|].
  eapply triple_bind; [tc_solve|apply triple_in_plan, Hf; left|]. intros o. apply IH. intros y Hy. apply Hf. by right.
Qed.

Lemma t_Apply plan : (forall g, g ∈ pl_Groups plan -> bg_GIDNumber g ∈ gids) -> triple settled (Apply cost opts plan) (fun _ => settled).
Proof.
  intros Hg. unfold Apply. eapply triple_bind; [tc_solve|apply triple_keeps; [tc_solve|auto with ldapkdc]|]. intros [].
  eapply triple_bind; [tc_solve|apply t_apply_all; intros g Hin; apply t_applyGroup; intros _; by apply Hg|]. intros sum1.
  eapply triple_bind; [tc_solve|apply t_apply_all; intros u _; apply t_applyUser|]. intros sum2.
  eapply triple_bind; [tc_solve|apply t_apply_all; intros p _; apply t_applyPrincipal|]. intros sum3.
  apply t_apply_all. intros r _. apply t_applyDNSRecord.
Qed.
End LeavesAlone.

(** The principals of the database belong to accounts that were counted. *)
Definition linked (d : DB) : Prop := forall r u, r ∈ principals (kt d) -> pr_user_id r = Some u -> u <= seq_users (dt d).

(** The groups a plan may find under another name. *)
Definition renamable (plan : Plan) (d : DB) : gset Z :=
  list_to_set (gr_id <$> filter (fun r => gr_gid_number r ∈ bg_GIDNumber <$> pl_Groups plan) (groups (dt d))).

Lemma counted_now (X : gset Z) gids d :
  accounts_ok d -> linked d -> (forall r, r ∈ groups (dt d) -> gr_gid_number r ∈ gids -> gr_id r ∈ X) ->
  counted (seq_users (dt d)) (seq_principals (kt d)) (seq_groups (dt d)) X gids d.
Proof.
  intros Hok Hl HX. split; try done.
  - intros r u Hr Hu Hlt. specialize (Hl _ _ Hr Hu). lia.
  - apply Hok.
  - intros r Hr _. by apply HX.
Qed.

Section Theorems.
Context `{Ck : Clock, Rn : Rand, Ae : AEAD, Bc : Bcrypt, El : EncTypeLib, Dl : DnsLib}.
Context (cost : Z) (opts : PlanOptions).

(** C23: applying a plan, whatever it ends with, leaves alone what is there: the rows of every
    account, principal, key, alias, trust, certificate and record that existed are the same rows in
    the same order, and no group but one whose number the plan names has changed; such a group keeps
    its number and its description. *)
Theorem Apply_leaves_alone (plan : Plan) (s s' : St) (r : outcome PlanErr Summary) :
  accounts_ok (st_db s) -> linked (st_db s) -> Apply cost opts plan s = (r, s') ->
  same_old (seq_users (dt (st_db s))) (seq_principals (kt (st_db s))) (seq_groups (dt (st_db s))) (renamable plan (st_db s))
    (st_db s) (st_db s') /\
  (forall u, u ∈ users (dt (st_db s)) -> u ∈ users (dt (st_db s'))) /\
  (forall g, g ∈ groups (dt (st_db s)) -> exists g', g' ∈ groups (dt (st_db s')) /\ group_number g' = group_number g /\
     (gr_gid_number g ∉ bg_GIDNumber <$> pl_Groups plan -> g' = g)).
Proof.
  intros Hok Hl Hrun. set (d := st_db s) in *. set (X := renamable plan d). set (gids := bg_GIDNumber <$> pl_Groups plan).
  assert (HX : forall y, y ∈ groups (dt d) -> gr_gid_number y ∈ gids -> gr_id y ∈ X).
  { intros y Hy Hg. apply elem_of_list_to_set, list_elem_of_fmap. exists y. split; [done|]. by apply list_elem_of_filter. }
  destruct (t_Apply (seq_users (dt d)) (seq_principals (kt d)) (seq_groups (dt d)) X gids cost opts plan) with (2 := Hrun) as [HR _].
  { intros g Hg. apply list_elem_of_fmap. eauto. }
  { split; [by apply counted_now|done]. }
  fold d in HR. split; [done|]. split.
  - intros u Hu. assert (Hin : u ∈ filter (fun r => ur_id r <= seq_users (dt d)) (users (dt (st_db s')))).
    { rewrite (so_users _ _ _ _ _ _ HR). apply list_elem_of_filter. split; [by apply (ao_user_seq _ Hok)|done]. }
    by apply list_elem_of_filter in Hin as [_ ?].
  - intros g Hg. pose proof (ao_group_seq _ Hok g Hg) as Hle. destruct (decide (gr_gid_number g ∈ gids)) as [Hgid|Hgid].
    + assert (Hn : group_number g ∈ group_number <$> filter (fun r => gr_id r <= seq_groups (dt d)) (groups (dt (st_db s')))).
      { rewrite (so_numbers _ _ _ _ _ _ HR). apply list_elem_of_fmap. exists g. split; [done|]. by apply list_elem_of_filter. }
      apply list_elem_of_fmap in Hn as (g' & En & [_ Hin]%list_elem_of_filter). by exists g'.
    + assert (Hin : g ∈ filter (fun r => old_group (seq_groups (dt d)) X (gr_id r)) (groups (dt (st_db s')))).
      { rewrite (so_groups _ _ _ _ _ _ HR). apply list_elem_of_filter. split; [|done]. split; [done|].
        intros (y & Ey & [Hy1 Hy2]%list_elem_of_filter)%elem_of_list_to_set%list_elem_of_fmap.
        by rewrite (NoDup_key_inj gr_id _ _ _ (ao_group_ids _ Hok) Hg Hy2 Ey) in Hgid. }
      apply list_elem_of_filter in Hin as [_ Hin]. by exists g.
Qed.
End Theorems.
