(* ===== verification/BootstrapTwice.v ===== *)
(** * A plan applied twice

    A second application of a plan that was applied, and that renamed no group, finds everything and
    changes nothing; with a realm to run it on. *)

From S2P Require Import Prelude Text Names Keytab Model Secret IdRange Db Principals PrincipalFacts Directory DirectoryFacts Accounts Certs AccountsOk Zone ZoneFacts Dns DnsFacts Bootstrap BootstrapFacts.

(** ** What is there stays there *)

(** The invariants of the tables. *)
Definition ready (d : DB) : Prop := accounts_ok d /\ ktables_ok (kt d) /\ linked d.

(** Everything that was counted is as it was. *)
Definition grown (d d' : DB) : Prop := same_old (seq_users (dt d)) (seq_principals (kt d)) (seq_groups (dt d)) ∅ d d'.

Definition stable (H : DB -> Prop) : Prop := forall d d', ready d -> ready d' -> grown d d' -> H d -> H d'.

Definition has_group (name : string) (d : DB) : Prop := exists r, r ∈ groups (dt d) /\ group_named name r = true.
Definition has_user (name : string) (d : DB) : Prop := exists r, r ∈ users (dt d) /\ user_named name r = true.

Section Has.
Context `{Ck : Clock, Rn : Rand, Ae : AEAD, Bc : Bcrypt, El : EncTypeLib, Dl : DnsLib, !RandLaws Rn, !AEADLaws Ae}.

Definition has_principal (name : Name) (d : DB) : Prop := exists p, getPrincipal d name 0 = Ok p.
Definition has_record (r : PlanRecord) (d : DB) : Prop :=
  exists x, x ∈ dns_records (zt d) /\ dn_name x = NormalizeDNSName (br_Name r) /\ dn_type x = ToUpper (TrimSpace (br_Type r)) /\ dn_value x = TrimSpace (br_Value r).

Lemma stable_group name : stable (has_group name).
Proof.
  intros d d' [Hok _] _ Hg (r & Hr & Hn). exists r. split; [|done].
  assert (Hin : r ∈ filter (fun r => old_group (seq_groups (dt d)) ∅ (gr_id r)) (groups (dt d'))).
  { rewrite (so_groups _ _ _ _ _ _ Hg). apply list_elem_of_filter. split; [|done]. split; [by apply (ao_group_seq _ Hok)|set_solver]. }
  by apply list_elem_of_filter in Hin as [_ ?].
Qed.

Lemma stable_user name : stable (has_user name).
Proof.
  intros d d' [Hok _] _ Hg (r & Hr & Hn). exists r. split; [|done].
  assert (Hin : r ∈ filter (fun r => ur_id r <= seq_users (dt d)) (users (dt d'))).
  { rewrite (so_users _ _ _ _ _ _ Hg). apply list_elem_of_filter. split; [by apply (ao_user_seq _ Hok)|done]. }
  by apply list_elem_of_filter in Hin as [_ ?].
Qed.

Lemma stable_record r : stable (has_record r).
Proof.
  intros d d' _ _ Hg (x & Hx & Hrest). exists x. split; [|done]. destruct (so_records _ _ _ _ _ _ Hg) as [l ->]. apply elem_of_app. by left.
Qed.

Lemma grown_keys d d' pid kvno : grown d d' -> pid <= seq_principals (kt d) -> loadKeys d' pid kvno = loadKeys d pid kvno.
Proof.
  intros Hg Hle. unfold loadKeys. do 2 f_equal. unfold key_rows.
  rewrite <- (filter_filter_new _ (fun r => kr_principal_id r <= seq_principals (kt d)) (principal_keys (kt d'))) by (intros x _ [-> _]; done).
  rewrite (so_keys _ _ _ _ _ _ Hg). apply filter_filter_new. by intros x _ [-> _].
Qed.

Lemma stable_principal name : stable (has_principal name).
Proof.
  intros d d' (_ & Hk & _) (_ & Hk' & _) Hg (p & (r & keys & Hrow & Hload & _)%getPrincipal_Ok).
  apply lookup_exact in Hrow as [Hr Hway]; [|done].
  assert (Hid : pr_id r <= seq_principals (kt d)) by (apply (ok_seq _ Hk), list_elem_of_fmap; eauto).
  assert (Hin : r ∈ filter (fun r => pr_id r <= seq_principals (kt d)) (principals (kt d'))).
  { rewrite (so_principals _ _ _ _ _ _ Hg). by apply list_elem_of_filter. }
  apply list_elem_of_filter in Hin as [_ Hin].
  assert (Hrow' : principal_row (kt d') name = Some r).
  { apply lookup_exact; [done|]. split; [done|]. destruct Hway as [Hn|(a & Ha & Hn & Ho)]; [by left|right]. exists a. split; [|done].
    assert (Ha' : a ∈ filter (fun r => al_principal_id r <= seq_principals (kt d)) (principal_aliases (kt d'))).
    { rewrite (so_aliases _ _ _ _ _ _ Hg). apply list_elem_of_filter. split; [by rewrite Ho|done]. }
    by apply list_elem_of_filter in Ha' as [_ ?]. }
  eexists. apply getPrincipal_Ok. exists r, keys. split; [done|]. split; [|done]. by rewrite (grown_keys d).
Qed.

(** ** The operations, when they succeed *)

Lemma step_ready {T} (m : Tx T) s x s' :
  (forall nu np ng, triple (same_old nu np ng ∅) (counted nu np ng ∅ []) m (fun _ => counted nu np ng ∅ [])) -> keeps_accounts m ->
  m s = (Ok x, s') -> (ktables_ok (kt (st_db s)) -> ktables_ok (kt (st_db s'))) ->
  ready (st_db s) -> ready (st_db s') /\ grown (st_db s) (st_db s').
Proof.
  intros Ht Ha Hrun Hkt (Hok & Hk & Hl). destruct (Ht _ _ _ _ _ _ Hrun (counted_now ∅ [] _ Hok Hl ltac:(by intros r _ ?%elem_of_nil))) as [HR HQ].
  specialize (HQ x eq_refl). split; [|done]. split; [by eapply Ha|]. split; [by apply Hkt|]. intros r u. apply (ct_owners _ _ _ _ _ _ HQ).
Qed.

Lemma kt_insert_rid rid kind owner now : within kt_kept (insert_rid rid kind owner now).
Proof. intros s r s'. unfold insert_rid. case_match; by intros [= _ <-]. Qed.
Lemma kt_allocate kind owner posix : within kt_kept (allocateRID kind owner posix).
Proof. unfold allocateRID. frame; first [apply kt_insert_rid | by intros s r s' [= _ <-]]. Qed.

Lemma kt_CreateGroup g : within kt_kept (CreateGroup g).
Proof.
  unfold CreateGroup, replaceIncludes, replaceAttrs, deleteAttrs, replaceCapabilities. frame; [|apply kt_allocate].
  intros s r s'. unfold insert_group. case_match; by intros [= _ <-].
Qed.
Lemma kt_CreateUser u : within kt_kept (CreateUser u).
Proof.
  unfold CreateUser, writeUserChildren, replaceAttrs, deleteAttrs, replaceCapabilities. frame; [|apply kt_allocate].
  intros s r s'. unfold insert_user. case_match; by intros [= _ <-].
Qed.

(** The steps after an insert leave the accounts and the groups. *)
Definition rows_same (d d' : DB) : Prop := users (dt d') = users (dt d) /\ groups (dt d') = groups (dt d).
#[local] Instance rows_same_preorder : PreOrder rows_same.
Proof. split; [done|]. intros d1 d2 d3 [E1 E2] [E3 E4]. split; congruence. Qed.

Lemma rows_allocate kind owner posix : within rows_same (allocateRID kind owner posix).
Proof.
  unfold allocateRID. frame; intros s r s'; unfold insert_rid; try case_match; by intros [= _ <-].
Qed.
Lemma rows_includes id gs : within rows_same (replaceIncludes id gs).
Proof. unfold replaceIncludes. frame. Qed.
Lemma rows_attrs kind id attrs : within rows_same (replaceAttrs kind id attrs).
Proof. unfold replaceAttrs, deleteAttrs. frame. Qed.
Lemma rows_capabilities kind id caps : within rows_same (replaceCapabilities kind id caps).
Proof. unfold replaceCapabilities. frame. Qed.
Lemma rows_children u : within rows_same (writeUserChildren u).
Proof. unfold writeUserChildren. frame; [apply rows_attrs|apply rows_capabilities]. Qed.

Ltac rows_step :=
  match goal with
  | H : allocateRID _ _ _ _ = _ |- _ => apply rows_allocate in H as [? ?]
  | H : replaceIncludes _ _ _ = _ |- _ => apply rows_includes in H as [? ?]
  | H : replaceAttrs _ _ _ _ = _ |- _ => apply rows_attrs in H as [? ?]
  | H : replaceCapabilities _ _ _ _ = _ |- _ => apply rows_capabilities in H as [? ?]
  | H : writeUserChildren _ _ = _ |- _ => apply rows_children in H as [? ?]
  end.

Ltac rewrite_rows :=
  repeat match goal with
  | H : groups (dt ?a) = _ |- context [groups (dt ?a)] => rewrite H; clear H
  | H : users (dt ?a) = _ |- context [users (dt ?a)] => rewrite H; clear H
  end.

Lemma CreateGroup_step g s q s' : CreateGroup g s = (Ok q, s') -> ready (st_db s) ->
  ready (st_db s') /\ grown (st_db s) (st_db s') /\ has_group (g_Name g) (st_db s').
Proof.
  intros Hrun Hr. destruct (step_ready _ _ _ _ (fun nu np ng => t_CreateGroup nu np ng ∅ [] g) (kacc_CreateGroup g) Hrun) as [H1 H2]; [|done|].
  { pose proof (kt_CreateGroup g _ _ _ Hrun) as Ek. unfold kt_kept in Ek. by rewrite Ek. }
  split; [done|]. split; [done|]. clear H1 H2. unfold CreateGroup in Hrun. tx_inv. repeat rows_step.
  match goal with H : insert_group _ _ = _ |- _ => unfold insert_group in H; destruct (existsb _ _) in H; [done|]; injection H as <- <- end.
  unfold has_group. rewrite_rows. cbn. eexists. split; [apply elem_of_app; right; left|apply EqualFold_refl].
Qed.

Lemma CreateUser_has u s q s' : CreateUser u s = (Ok q, s') -> has_user (u_Name u) (st_db s') /\ u_Name q = u_Name u.
Proof.
  unfold CreateUser. intros Hrun. tx_inv. repeat rows_step.
  match goal with H : insert_user _ _ = _ |- _ => unfold insert_user in H; destruct (existsb _ _) in H; [done|]; injection H as <- <- end.
  split; [|done]. unfold has_user. rewrite_rows. cbn. eexists. split; [apply elem_of_app; right; left|apply EqualFold_refl].
Qed.

Lemma or_undo_Ok {T} name (m : Tx T) x s s' : or_undo name m s = (Ok x, s') -> m s = (Ok x, s').
Proof. unfold or_undo, undoAccount. by destruct (m s) as [[]]. Qed.

Lemma CreateAccount_Ok cost a u s x s' : na_User a = Some u -> CreateAccount cost a s = (Ok x, s') ->
  exists u1 q s1 s2 p keys r s3, u_Name u1 = u_Name u /\ CreateUser u1 s = (Ok q, s1) /\ st_db s2 = st_db s1 /\
    CreatePrincipal p keys s2 = (Ok r, s3) /\
    (s' = s3 \/ SetUserPassword cost (u_Name q) (na_Password a) (na_EncTypes a) (na_PasswordExpiresAt a) s3 = (Ok x, s')).
Proof.
  intros Ha Hrun. unfold CreateAccount in Hrun. rewrite Ha in Hrun. tx_inv. if_ok Ename.
  match goal with H : (if _ =? 0 then _ else _) s = (Ok ?u1, ?s1) |- _ => assert (s1 = s /\ u_Name u1 = u_Name u) as [-> En]
    by (destruct (_ =? 0); unfold NextUIDNumber in H; tx_inv; by subst) end.
  match goal with H : random_keys _ _ = _ |- _ => apply keeps_random_keys in H end.
  match goal with H : or_undo _ (CreatePrincipal _ _) _ = _ |- _ => apply or_undo_Ok in H end.
  do 8 eexists. split; [exact En|]. split; [eassumption|]. split; [eassumption|]. split; [eassumption|].
  destruct (0 <? _)%nat; [right; by eapply or_undo_Ok|left; by injection Hrun].
Qed.

Lemma CreateAccount_step cost a u s x s' : na_User a = Some u -> CreateAccount cost a s = (Ok x, s') -> ready (st_db s) ->
  ready (st_db s') /\ grown (st_db s) (st_db s') /\ has_user (u_Name u) (st_db s').
Proof.
  intros Ha Hrun Hr. destruct (CreateAccount_Ok _ _ _ _ _ _ Ha Hrun) as (u1 & q & s1 & s2 & p & keys & r & s3 & En & Hu & Ed & Hp & Hlast).
  pose proof (kt_CreateUser _ _ _ _ Hu) as Ek. unfold kt_kept in Ek. apply CreateUser_has in Hu as [(row & Hrow & Hn) Eq].
  assert (Hk3 : ktables_ok (kt (st_db s)) -> ktables_ok (kt (st_db s3))).
  { intros Hk. eapply CreatePrincipal_ok; [exact Hp|]. by rewrite Ed, Ek. }
  apply same_CreatePrincipal in Hp as (Eu & _). rewrite Ed in Eu. rewrite En in Hn.
  destruct (step_ready _ _ _ _ (fun nu np ng => t_CreateAccount nu np ng ∅ [] cost a) (kacc_CreateAccount cost a) Hrun) as [H1 H2]; [|done|].
  - intros Hk. destruct Hlast as [->|Hset]; [auto|]. by apply SetUserPassword_run in Hset as [? _]; [|auto].
  - split; [done|]. split; [done|]. destruct Hlast as [->|Hset]; [exists row; by rewrite Eu|].
    apply SetUserPassword_run in Hset as (_ & r0 & hash & now & n & _ & _ & _ & Edt & _); [|apply Hk3, Hr].
    exists (if ur_id row =? ur_id r0 then digest_row hash now row else row). rewrite Edt. cbn. split; [|by case_match].
    apply list_elem_of_fmap. exists row. by rewrite Eu.
Qed.

(** The steps after the keys leave the principals and the keys. *)
Definition keys_same (d d' : DB) : Prop := principals (kt d') = principals (kt d) /\ principal_keys (kt d') = principal_keys (kt d).
#[local] Instance keys_same_preorder : PreOrder keys_same.
Proof. split; [done|]. intros d1 d2 d3 [E1 E2] [E3 E4]. split; congruence. Qed.

Lemma keys_lists p : within keys_same (replacePrincipalLists p).
Proof. unfold replacePrincipalLists. frame. Qed.
Lemma keys_aliases p : within keys_same (replaceAliases p).
Proof. unfold replaceAliases, insert_alias. frame. apply within_exec; [tc_solve|]. intros d d'. destruct (existsb _ _); [done|]. by intros [= <-]. Qed.

Lemma CreatePrincipal_step p keys n s q s' :
  ParseName (p_Name p) (p_Realm p) = Ok n -> CreatePrincipal p keys s = (Ok q, s') -> ready (st_db s) ->
  ready (st_db s') /\ grown (st_db s) (st_db s') /\ has_principal n (st_db s').
Proof.
  intros Hn Hrun Hr. destruct (step_ready _ s q s' (fun nu np ng => t_principal nu np ng ∅ [] p keys) (kacc_CreatePrincipal p keys) Hrun) as [H1 H2]; [|done|].
  { intros Hk. by eapply CreatePrincipal_ok. }
  split; [done|]. split; [done|]. destruct Hr as (_ & Hk & _), H1 as (_ & Hk' & _). clear H2. unfold CreatePrincipal in Hrun. rewrite Hn in Hrun. tx_inv.
  match goal with H : insert_principal _ _ = _ |- _ => unfold insert_principal in H; destruct (existsb _ _) in H; [done|]; destruct (negb _) in H; [done|]; injection H as <- <- end.
  match goal with H : writeKeys _ ?v _ _ = _ |- _ => set (kvno := v) in *; apply writeKeys_Ok in H as (_ & (now & m & Ek) & _) end.
  match goal with H : replacePrincipalLists _ _ = _ |- _ => apply keys_lists in H as [E1 E2] end. apply keys_aliases in Hrun as [E3 E4].
  rewrite E1, Ek in E3. rewrite E2, Ek in E4. cbn in E3, E4. set (id := seq_principals (kt (st_db s)) + 1) in *.
  eexists. apply getPrincipal_Ok. eexists _, keys. split_and!; [|unfold loadKeys, key_rows|done].
  - apply lookup_exact; [done|]. rewrite E3. split; [apply elem_of_app; right; left|by left].
  - cbn [pr_id pr_kvno new_row]. cbn. rewrite E4, filter_app, (filter_none _ (filter _ _)), (filter_all _ (sealed_rows _ _ _ _ _ _)).
    + rewrite app_nil_l, sort_by_sorted by apply sealed_rows_sorted. apply open_sealed_rows.
    + intros y Hy. by apply sealed_rows_owner in Hy.
    + by intros y [Hy _]%list_elem_of_filter.
Qed.

Lemma CreateDNSRecord_step r s q s' : CreateDNSRecord r s = (Ok q, s') -> ready (st_db s) ->
  ready (st_db s') /\ grown (st_db s) (st_db s') /\
  exists x, x ∈ dns_records (zt (st_db s')) /\ dn_name x = NormalizeDNSName (r_Name r) /\ dn_type x = ToUpper (TrimSpace (r_Type r)) /\ dn_value x = TrimSpace (r_Value r).
Proof.
  intros Hrun Hr. pose proof Hrun as Hrun'. unfold CreateDNSRecord, validateDNSRecord in Hrun'. tx_inv. if_ok Ex.
  apply insertDNSRecord_Ok in Hrun' as (id & row & now & _ & -> & _ & at_ & Ed).
  destruct (step_ready _ _ _ _ (fun nu np ng => quiet_counted nu np ng ∅ [] _ (quiet_CreateDNSRecord nu np ng ∅ r)) (kacc_CreateDNSRecord r) Hrun) as [H1 H2]; [by rewrite Ed|done|].
  split; [done|]. split; [done|]. rewrite Ed. eexists. split; [cbn; apply elem_of_app; right; left|done].
Qed.
End Has.

(** ** The entries of a plan *)

Section Twice.
Context `{Ck : Clock, Rn : Rand, Ae : AEAD, Bc : Bcrypt, El : EncTypeLib, Dl : DnsLib, !RandLaws Rn, !AEADLaws Ae}.
Context (cost : Z) (opts : PlanOptions).

(** What a successful step leads to. *)
Definition leads (H : DB -> Prop) (d d' : DB) : Prop := d' = d /\ H d \/ ready d' /\ grown d d' /\ H d'.

(** The name a principal of the plan is stored under is the one it is looked up by. *)
Definition name_stable (raw : string) : Prop :=
  forall n, ParseName raw (po_Realm opts) = Ok n -> exists n', ParseName (Principal_of n) (Realm n) = Ok n' /\ name_key n' = name_key n.

Definition has_plan_principal (p : PlanPrincipal) (d : DB) : Prop :=
  forall n, ParseName (bp_Name p) (po_Realm opts) = Ok n -> has_principal n d.

Lemma lookup_entry_Ok {T} (f : DB -> outcome StoreErr T) o s s' : lookup_entry (query_outcome f) s = (Ok o, s') ->
  s' = s /\ match o with Some x => f (st_db s) = Ok x | None => f (st_db s) = Err ErrNotFound end.
Proof. unfold lookup_entry, query_outcome. destruct (f (st_db s)) as [x|[]|] eqn:E; intros [= <- <-]; done. Qed.

Lemma has_group_get name d : has_group name d <-> exists g, getGroup d (group_named name) = Ok g.
Proof.
  unfold getGroup. split.
  - intros (r & Hr & Hn). destruct (List.find _ _) as [x|] eqn:E; [by eexists|]. by rewrite (find_None_elem _ _ E r Hr) in Hn.
  - intros [g Hg]. run_inv. match goal with H : List.find _ _ = _ |- _ => apply find_Some_elem in H as [? ?] end. by eexists.
Qed.

Lemma has_user_get name d : has_user name d <-> exists u, getUser d (user_named name) = Ok u.
Proof.
  unfold getUser. split.
  - intros (r & Hr & Hn). destruct (List.find _ _) as [x|] eqn:E; [by eexists|]. by rewrite (find_None_elem _ _ E r Hr) in Hn.
  - intros [g Hg]. run_inv. match goal with H : List.find _ _ = _ |- _ => apply find_Some_elem in H as [? ?] end. by eexists.
Qed.

Lemma applyGroup_leads g s o s' : applyGroup g s = (Ok o, s') -> (forall was, o <> g_renamed was) -> ready (st_db s) ->
  leads (has_group (bg_Name g)) (st_db s) (st_db s').
Proof.
  unfold applyGroup, GetGroup, GetGroupByGID. intros Hrun Ho Hr. apply M_bind_Ok in Hrun as (known & s1 & [-> Hk]%lookup_entry_Ok & Hrun).
  destruct known as [k|]; [injection Hrun as <- <-; left; split; [done|]; apply has_group_get; by exists k|].
  apply M_bind_Ok in Hrun as (held & s1 & Hheld & Hrun). assert (s1 = s) as ->.
  { destruct (0 <? _) in Hheld; [by apply lookup_entry_Ok in Hheld as [? _]|by injection Hheld]. }
  destruct held as [h|]; tx_inv; [by destruct (Ho (g_Name h))|].
  match goal with H : (if bg_GIDNumber g =? 0 then _ else _) s = (_, ?s1) |- _ => assert (s1 = s) as -> by (destruct (_ =? 0) in H; unfold NextGIDNumber in H; tx_inv; by subst) end.
  right. match goal with H : CreateGroup _ _ = _ |- _ => by apply CreateGroup_step in H end.
Qed.

Lemma applyUser_leads u s b s' : applyUser cost opts u s = (Ok b, s') -> ready (st_db s) -> leads (has_user (bu_Name u)) (st_db s) (st_db s').
Proof.
  unfold applyUser, GetUser. intros Hrun Hr. apply M_bind_Ok in Hrun as (known & s1 & [-> Hk]%lookup_entry_Ok & Hrun).
  destruct known as [k|]; [injection Hrun as <- <-; left; split; [done|]; apply has_user_get; by exists k|].
  apply M_bind_Ok in Hrun as (expiry & s1 & Hexp & Hrun).
  assert (Ed : st_db s1 = st_db s) by (destruct (bu_ForceChange u); tx_inv; by subst).
  tx_inv. right. match goal with H : CreateAccount _ _ _ = _ |- _ => eapply CreateAccount_step in H; [|done|by rewrite Ed] end. by rewrite <- Ed.
Qed.

Lemma applyPrincipal_leads p s b s' : name_stable (bp_Name p) -> applyPrincipal opts p s = (Ok b, s') -> ready (st_db s) ->
  leads (has_plan_principal p) (st_db s) (st_db s').
Proof.
  intros Hst. unfold applyPrincipal, GetPrincipal, parse_plan_name. intros Hrun Hr. apply M_bind_Ok in Hrun as (n & s1 & [Hn ->]%M_lift_Ok & Hrun).
  destruct (ParseName (bp_Name p) (po_Realm opts)) as [n0|e|] eqn:En; [|done..]. injection Hn as ->.
  apply M_bind_Ok in Hrun as (known & s1 & [-> Hk]%lookup_entry_Ok & Hrun).
  destruct known as [k|].
  { injection Hrun as <- <-. left. split; [done|]. unfold has_plan_principal. rewrite En. intros n' [= <-]. by exists k. }
  apply M_bind_Ok in Hrun as (keys & s1 & Hkeys & Hrun).
  assert (Ed : st_db s1 = st_db s) by (unfold plan_keys in Hkeys; destruct (non_empty _); [tx_inv; by subst|by apply keeps_random_keys in Hkeys]).
  tx_inv. right. destruct (Hst n En) as (n' & Hn' & Ekey).
  match goal with H : CreatePrincipal _ _ _ = _ |- _ => eapply CreatePrincipal_step in H; [|exact Hn'|by rewrite Ed] end.
  rewrite <- Ed. match goal with H : _ /\ _ /\ _ |- _ => destruct H as (H1 & H2 & H3) end. split; [done|]. split; [done|].
  unfold has_plan_principal. rewrite En. intros m [= <-]. destruct H3 as [q Hq]. exists q. unfold name_key in Ekey. injection Ekey as E1 E2.
  unfold getPrincipal, principal_row in *. by rewrite E1, E2 in Hq.
Qed.

Lemma applyDNSRecord_leads r s b s' : applyDNSRecord opts r s = (Ok b, s') -> ready (st_db s) -> leads (has_record r) (st_db s) (st_db s').
Proof.
  unfold applyDNSRecord, LookupDNSRecords. intros Hrun Hr. apply M_bind_Ok in Hrun as (es & s1 & [-> ->]%query_Ok & Hrun).
  destruct (existsb _ _) eqn:Ex.
  - injection Hrun as <- <-. left. split; [done|]. apply existsb_exists in Ex as (e & He & Hm). unfold records_at in He.
    apply list_elem_of_In, list_elem_of_fmap in He as (x & -> & Hx). apply elem_of_sort_by, list_elem_of_filter in Hx as [Hn Hx]. simp_bool. by exists x.
  - apply M_bind_Ok in Hrun as (q & s1 & Hc & Hrun). injection Hrun as <- <-. right. apply CreateDNSRecord_step in Hc as (H1 & H2 & x & Hx & En & Et & Ev); [|done].
    split; [done|]. split; [done|]. exists x. split; [done|]. split; [done|]. split; [|done]. rewrite Et. cbn [r_Type plan_record]. by rewrite TrimSpace_ToUpper, TrimSpace_idemp, ToUpper_idemp.
Qed.

(** ** The loops *)

Lemma in_plan_Ok {T} (m : Tx T) x s s' : in_plan m s = (Ok x, s') -> m s = (Ok x, s').
Proof. unfold in_plan. destruct (m s) as [[y|e|] s1]; [|done..]. by intros [= <- <-]. Qed.

Lemma apply_all_leads {Y O} (f : Y -> Tx O) tally (good : O -> Prop) (has : Y -> DB -> Prop) l sum sum' s s' :
  (forall x s o s', x ∈ l -> f x s = (Ok o, s') -> good o -> ready (st_db s) -> leads (has x) (st_db s) (st_db s')) ->
  (forall x, x ∈ l -> stable (has x)) ->
  (forall o sum, sm_Renamed sum <= sm_Renamed (tally o sum)) ->
  (forall o sum, sm_Renamed (tally o sum) <= sm_Renamed sum -> good o) ->
  apply_all f tally l sum s = (Ok sum', s') -> sm_Renamed sum' <= sm_Renamed sum -> ready (st_db s) ->
  ready (st_db s') /\ (forall H, stable H -> H (st_db s) -> H (st_db s')) /\ forall x, x ∈ l -> has x (st_db s').
Proof.
  intros Hf Hst Hmono Hgood. revert sum s Hf Hst. induction l as [|x l IH]; intros sum s Hf Hst Hrun Hle Hr; cbn [apply_all] in Hrun.
  - injection Hrun as <- <-. split; [done|]. split; [done|]. by intros x ?%elem_of_nil.
  - apply M_bind_Ok in Hrun as (o & s1 & Hx%in_plan_Ok & Hrun).
    assert (Hbound : sm_Renamed (tally o sum) <= sm_Renamed sum').
    { clear -Hrun Hmono. revert s1 Hrun. generalize (tally o sum) as t. induction l as [|y l IH]; intros t s1 Hrun; cbn [apply_all] in Hrun.
      - by injection Hrun as <- <-.
      - apply M_bind_Ok in Hrun as (o' & s2 & _ & Hrun). apply IH in Hrun. specialize (Hmono o' t). lia. }
    specialize (Hf x) as Hfx. apply Hfx in Hx as Hlead; [|left|apply (Hgood _ sum); lia|done].
    assert (Hstep : ready (st_db s1) /\ (forall H, stable H -> H (st_db s) -> H (st_db s1)) /\ has x (st_db s1)).
    { destruct Hlead as [[Ed Hh]|(H1 & H2 & H3)]; [rewrite Ed; by split_and!|]. split; [done|]. split; [|done]. intros H HH. by apply HH. }
    destruct Hstep as (Hr1 & Hkeep & Hhas).
    destruct (IH (tally o sum) s1) as (Hr2 & Hkeep2 & Hhas2); [|..].
    + intros y s2 o2 s3 Hy. apply Hf. by right.
    + intros y Hy. apply Hst. by right.
    + done.
    + specialize (Hmono o sum). lia.
    + done.
    + split; [done|]. split; [intros H HH Hd; by apply Hkeep2, Hkeep|]. intros y [->|Hy]%elem_of_cons; [|by apply Hhas2].
      apply Hkeep2; [apply Hst; left|done].
Qed.

Lemma apply_all_known {Y O} (f : Y -> Tx O) tally o l sum t :
  (forall x, x ∈ l -> f x t = (Ok o, t)) -> apply_all f tally l sum t = (Ok (Nat.iter (List.length l) (tally o) sum), t).
Proof.
  revert sum. induction l as [|x l IH]; intros sum Hf; [done|]. cbn [apply_all List.length]. rewrite bind_run. unfold in_plan at 1.
  rewrite Hf by left. rewrite IH by (intros y Hy; apply Hf; by right). by rewrite Nat.iter_succ_r.
Qed.

Lemma iter_existed n sum : Nat.iter n (count false) sum = mkSummary (sm_Created sum) (sm_Existed sum + Z.of_nat n) (sm_Renamed sum).
Proof. induction n as [|n IH]; [rewrite Z.add_0_r; by destruct sum|]. rewrite Nat.iter_succ, IH. cbn. f_equal. lia. Qed.

(** ** What is known is left *)

Lemma applyGroup_known g t : has_group (bg_Name g) (st_db t) -> applyGroup g t = (Ok g_existed, t).
Proof. intros [k Hk]%has_group_get. unfold applyGroup, GetGroup, lookup_entry, query_outcome. rewrite bind_run. by rewrite Hk. Qed.
Lemma applyUser_known u t : has_user (bu_Name u) (st_db t) -> applyUser cost opts u t = (Ok false, t).
Proof. intros [k Hk]%has_user_get. unfold applyUser, GetUser, lookup_entry, query_outcome. rewrite bind_run. by rewrite Hk. Qed.
Lemma applyPrincipal_known p t n : ParseName (bp_Name p) (po_Realm opts) = Ok n -> has_plan_principal p (st_db t) -> applyPrincipal opts p t = (Ok false, t).
Proof.
  intros Hn Hp. destruct (Hp n Hn) as [k Hk]. unfold applyPrincipal, parse_plan_name. rewrite Hn, bind_run. cbn [lift]. rewrite bind_run.
  unfold GetPrincipal, lookup_entry, query_outcome. by rewrite Hk.
Qed.
Lemma applyDNSRecord_known r t : has_record r (st_db t) -> applyDNSRecord opts r t = (Ok false, t).
Proof.
  intros (x & Hx & En & Et & Ev). unfold applyDNSRecord, LookupDNSRecords. rewrite bind_run. cbn [query]. unfold query.
  replace (existsb _ _) with true; [done|]. symmetry. apply existsb_exists. exists (scanDNSRecord x). split.
  - apply list_elem_of_In, list_elem_of_fmap. exists x. split; [done|]. apply elem_of_sort_by, list_elem_of_filter. done.
  - cbn. by rewrite Et, Ev, !String.eqb_refl.
Qed.
Lemma validated_names i ps names names' : validate_principals opts i ps names = Ok names' ->
  forall p, p ∈ ps -> exists n, ParseName (bp_Name p) (po_Realm opts) = Ok n.
Proof.
  revert i names. induction ps as [|p ps IH]; intros i names Hv q; [by intros ?%elem_of_nil|]. cbn [validate_principals] in Hv. run_inv.
  intros [->|Hq]%elem_of_cons; [|by eapply IH]. destruct (ParseName (bp_Name p) (po_Realm opts)) as [n|e|]; [by exists n|done..].
Qed.

Lemma Validate_names plan : Validate_plan opts plan = Ok tt -> forall p, p ∈ pl_Principals plan -> exists n, ParseName (bp_Name p) (po_Realm opts) = Ok n.
Proof. unfold Validate_plan. intros Hv. run_inv. by eapply validated_names. Qed.

Definition entries (plan : Plan) : nat :=
  (List.length (pl_Groups plan) + List.length (pl_Users plan) + List.length (pl_Principals plan) + List.length (pl_DNSRecords plan))%nat.

(** What a plan describes is there. *)
Definition described (plan : Plan) (d : DB) : Prop :=
  (forall g, g ∈ pl_Groups plan -> has_group (bg_Name g) d) /\ (forall u, u ∈ pl_Users plan -> has_user (bu_Name u) d) /\
  (forall p, p ∈ pl_Principals plan -> has_plan_principal p d) /\ (forall r, r ∈ pl_DNSRecords plan -> has_record r d).

Lemma stable_plan_principal p : stable (has_plan_principal p).
Proof. intros d d' R1 R2 G Hh n Hn. exact (stable_principal n d d' R1 R2 G (Hh n Hn)). Qed.

Lemma Apply_described plan s sum s1 :
  ready (st_db s) -> (forall p, p ∈ pl_Principals plan -> name_stable (bp_Name p)) ->
  Apply cost opts plan s = (Ok sum, s1) -> sm_Renamed sum = 0 ->
  Validate_plan opts plan = Ok tt /\ described plan (st_db s1) /\ ready (st_db s1) /\ forall H, stable H -> H (st_db s) -> H (st_db s1).
Proof.
  intros Hr Hst Hrun Hren. unfold Apply in Hrun. apply M_bind_Ok in Hrun as ([] & sv & [Hv ->]%M_lift_Ok & Hrun). split; [done|].
  apply M_bind_Ok in Hrun as (sum1 & sg & Hg & Hrun). apply M_bind_Ok in Hrun as (sum2 & su & Hu & Hrun). apply M_bind_Ok in Hrun as (sum3 & sp & Hp & Hd).
  assert (Hcount : forall {Y} (f : Y -> Tx bool) l t x y a b, apply_all f count l t a = (Ok x, b) -> y = sm_Renamed t -> sm_Renamed x = y).
  { clear. intros Y f l. induction l as [|z l IH]; intros t x y a b Hrun ->; cbn [apply_all] in Hrun; [by injection Hrun as <- <-|].
    apply M_bind_Ok in Hrun as (o & s2 & _ & Hrun). eapply IH; [exact Hrun|]. by destruct o. }
  assert (E3 : sm_Renamed sum3 = 0) by (rewrite <- Hren; symmetry; eapply Hcount; [exact Hd|done]).
  assert (E2 : sm_Renamed sum2 = 0) by (rewrite <- E3; symmetry; eapply Hcount; [exact Hp|done]).
  assert (E1 : sm_Renamed sum1 = 0) by (rewrite <- E2; symmetry; eapply Hcount; [exact Hu|done]).
  eapply (apply_all_leads _ _ (fun o => forall was, o <> g_renamed was) (fun g => has_group (bg_Name g))) in Hg as (Hr1 & K1 & Hgs);
    [|intros; by eapply applyGroup_leads|intros; apply stable_group|intros [] ?; cbn; lia|intros [] ? Ht ?; cbn in Ht; [done..|lia]|cbn; lia|done].
  eapply (apply_all_leads _ _ (fun _ => True) (fun u => has_user (bu_Name u))) in Hu as (Hr2 & K2 & Hus);
    [|intros; by eapply applyUser_leads|intros; apply stable_user|intros [] ?; cbn; lia|done|lia|done].
  eapply (apply_all_leads _ _ (fun _ => True) has_plan_principal) in Hp as (Hr3 & K3 & Hps);
    [|intros; eapply applyPrincipal_leads; eauto|intros; apply stable_plan_principal|intros [] ?; cbn; lia|done|lia|done].
  eapply (apply_all_leads _ _ (fun _ => True) has_record) in Hd as (Hr4 & K4 & Hds);
    [|intros; by eapply applyDNSRecord_leads|intros; apply stable_record|intros [] ?; cbn; lia|done|lia|done].
  split; [|split; [done|intros H HH Hd0; by apply K4, K3, K2, K1]].
  split; [intros g Hin; apply K4, K3, K2, Hgs; [apply stable_group..|done]|].
  split; [intros u Hin; apply K4, K3, Hus; [apply stable_user..|done]|].
  split; [|done]. intros p Hin n Hn. apply K4; [apply stable_principal|]. exact (Hps p Hin n Hn).
Qed.

(** A plan whose entries are all there finds them. *)
Lemma Apply_known plan t : Validate_plan opts plan = Ok tt -> described plan (st_db t) ->
  Apply cost opts plan t = (Ok (mkSummary 0 (Z.of_nat (entries plan)) 0), t).
Proof.
  intros Hv (Hgs & Hus & Hps & Hds). unfold Apply. rewrite Hv, bind_run. cbn [lift].
  rewrite bind_run, (apply_all_known _ _ g_existed) by (intros g Hg; by apply applyGroup_known, Hgs).
  rewrite bind_run, (apply_all_known _ _ false) by (intros u Hu; by apply applyUser_known, Hus).
  rewrite bind_run, (apply_all_known _ _ false) by (intros p Hp; destruct (Validate_names _ Hv p Hp) as [n Hn]; by eapply applyPrincipal_known, Hps).
  rewrite (apply_all_known _ _ false) by (intros r Hin; by apply applyDNSRecord_known, Hds).
  change (count_group g_existed) with (count false). rewrite !iter_existed. cbn. unfold entries. do 3 f_equal. lia.
Qed.

(** C24: applying a plan is not a reset: a second application of a plan that was applied and renamed
    no group, to the same database, finds every entry, creates and renames nothing and leaves the
    database, the clock and the random source alone, provided the name of every principal of the plan
    is stored as it is looked up. *)
Theorem Apply_again (plan : Plan) (s s1 t : St) (sum : Summary) :
  ready (st_db s) -> (forall p, p ∈ pl_Principals plan -> name_stable (bp_Name p)) ->
  Apply cost opts plan s = (Ok sum, s1) -> sm_Renamed sum = 0 -> st_db t = st_db s1 ->
  Apply cost opts plan t = (Ok (mkSummary 0 (Z.of_nat (entries plan)) 0), t).
Proof.
  intros Hr Hst Hrun Hren Ed. destruct (Apply_described _ _ _ _ Hr Hst Hrun Hren) as (Hv & Hd & _). apply Apply_known; [done|]. by rewrite Ed.
Qed.
End Twice.

(** ** A plan to run *)

Section PlanSample.
#[local] Existing Instance sample_clock.
#[local] Existing Instance toy_rand.
#[local] Existing Instance toy_aead.
#[local] Existing Instance toy_enctypes.
#[local] Existing Instance toy_bcrypt.
#[local] Existing Instance toy_dns.

Definition sample_options : PlanOptions := mkPlanOptions "EXAMPLE.COM" [18; 17] 8 300.

Definition plan_user (name : string) (pw : string) : PlanUser :=
  mkPlanUser name 0 5001 [] "" "" "" "" "" false [] ∅ [] "" pw false [].
Definition plan_service (name : string) (aliases : list string) : PlanPrincipal :=
  mkPlanPrincipal name "" None None None None None None None None [] [] aliases 0 0.

Definition sample_plan : Plan := mkPlan
  [mkPlanGroup "staff" 5001 "everybody" [] [] ∅; mkPlanGroup "admins" 0 "" [5001] [mkCapability "write" "*"] ∅]
  [plan_user "bob" "correct horse"; plan_user "Carol" ""]
  [plan_service "HTTP/www.example.com" ["HTTP/www"]]
  [mkPlanRecord "www.example.com." " a " "192.0.2.10" 0].

(** Two groups of one number: the second is the first under another name. *)
Definition two_names : Plan := mkPlan [mkPlanGroup "one" 7000 "" [] [] ∅; mkPlanGroup "two" 7000 "" [] [] ∅] [] [] [].

Definition applied (plan : Plan) (s : St) : outcome PlanErr Summary * St := Apply 4 sample_options plan s.

Example plan_applied : fst (applied sample_plan empty_state) = Ok (mkSummary 6 0 0).
Proof. vm_compute. reflexivity. Qed.

(** Validation lets two groups of one number pass; every application then gives the group the other
    name again. *)
Example number_named_twice :
  Validate_plan sample_options two_names = Ok tt /\
  fst (applied two_names empty_state) = Ok (mkSummary 1 0 1) /\
  fst (applied two_names (snd (applied two_names empty_state))) = Ok (mkSummary 0 0 2).
Proof. vm_compute. done. Qed.

(** A name that needs an escape is stored without it, and looked up under another name: the plan that
    created the principal cannot be applied again. *)
Example escaped_name_not_found :
  let plan := mkPlan [] [] [plan_service "svc\@host" []] [] in
  fst (applied plan empty_state) = Ok (mkSummary 1 0 0) /\
  fst (applied plan (snd (applied plan empty_state))) = Err (store_refused ErrConflict).
Proof. vm_compute. done. Qed.
Lemma empty_ready : ready (st_db empty_state).
Proof.
  split; [|split; [apply empty_tables_ok|by intros r u ?%elem_of_nil]].
  split; try constructor; by intros r ?%elem_of_nil.
Qed.

Lemma Apply_again_witness :
  exists sum s1, Apply 4 sample_options sample_plan empty_state = (Ok sum, s1) /\
    Apply 4 sample_options sample_plan s1 = (Ok (mkSummary 0 6 0), s1).
Proof.
  destruct (Apply 4 sample_options sample_plan empty_state) as [res s1] eqn:E.
  assert (Hres : res = Ok (mkSummary 6 0 0)) by (apply (f_equal fst) in E; vm_compute in E; symmetry; exact E). subst res.
  exists (mkSummary 6 0 0), s1. split; [reflexivity|].
  refine (Apply_again 4 sample_options sample_plan empty_state s1 s1 _ empty_ready _ E eq_refl eq_refl).
  intros p Hp. apply list_elem_of_singleton in Hp. subst p. intros n Hn. vm_compute in Hn. injection Hn as <-.
  exists (mkName ["HTTP"; "www.example.com"] "EXAMPLE.COM"). vm_compute. split; reflexivity.
Defined.

(** The directory the plan is applied to has the group [staff] under the name [everybody]. *)
Definition before_plan : St :=
  snd ((_ ← CreateGroup (mkGroup 0 "everybody" 5001 "" [] [] ∅ zeroTime zeroTime);
        _ ← CreateGroup (mkGroup 0 "others" 5002 "" [5001] [] ∅ zeroTime zeroTime);
        CreateUser (sample_user "alice" 10000 5001 [])) empty_state).

Lemma before_plan_ok : accounts_ok (st_db before_plan).
Proof.
  assert (Hk : keeps_accounts (_ ← CreateGroup (mkGroup 0 "everybody" 5001 "" [] [] ∅ zeroTime zeroTime);
     _ ← CreateGroup (mkGroup 0 "others" 5002 "" [5001] [] ∅ zeroTime zeroTime); CreateUser (sample_user "alice" 10000 5001 []))).
  { apply kacc_bind; [apply kacc_CreateGroup|intros g]. apply kacc_bind; [apply kacc_CreateGroup|intros g'].
    intros s r s' Hrun. eapply dstep_accounts. by eapply dstep_create_user. }
  eapply Hk; [apply surjective_pairing|apply empty_ready].
Qed.

Lemma Apply_leaves_alone_witness :
  exists s1, Apply 4 sample_options sample_plan before_plan = (Ok (mkSummary 5 0 1), s1) /\
    (forall u, u ∈ users (dt (st_db before_plan)) -> u ∈ users (dt (st_db s1))).
Proof.
  destruct (Apply 4 sample_options sample_plan before_plan) as [res s1] eqn:E.
  assert (Hres : res = Ok (mkSummary 5 0 1)) by (apply (f_equal fst) in E; vm_compute in E; symmetry; exact E). subst res.
  exists s1. split; [reflexivity|].
  refine (proj1 (proj2 (Apply_leaves_alone 4 sample_options sample_plan before_plan s1 _ before_plan_ok _ E))).
  assert (Hp : principals (kt (st_db before_plan)) = []) by (vm_compute; reflexivity).
  intros r u Hr. rewrite Hp in Hr. destruct (not_elem_of_nil _ Hr).
Defined.
End PlanSample.
