(* ===== verification/Masterkey.v ===== *)
(** * The master key file: package [secret], [LoadOrCreateMasterKey]

    The first process that finds no file creates it, exclusively, and writes the key it drew; whoever
    finds a file reads it. Processes may be started side by side and be stopped anywhere, and every call
    of the operating system may fail: a process is where it is in the function, and the calls of several
    are interleaved in any order. *)

From S2P Require Import Prelude Text Hostport Secret.

(** Where a process is: before the call named, with the key it drew, or out of the function with the
    key and whether it made it. *)
Inductive phase : Type :=
| at_read
| at_mkdir
| at_rand
| at_open (key : bytes)
| at_write (key : bytes)
| at_sync (key : bytes)
| returned (key : bytes) (created : bool)
| failed.

(** What the operating system answers: it did it, it did not, or it wrote that many bytes and then did
    not. *)
Inductive answer : Type := done_ok | refused | cut_short (n : nat).

Section MasterKey.
Context (path : string).

(** [if dir := filepath.Dir(path); len(dir) > 0 && dir != "."]. *)
Definition needs_dir : bool := non_empty (Dir path) && negb (String.eqb (Dir path) ".").

(** One call of the function, on the contents of the file if there is one; [drawn] is what the random
    source gives when it is asked. *)
Definition call (drawn : bytes) (a : answer) (ph : phase) (file : option bytes) : phase * option bytes :=
  match ph with
  | at_read =>
      match a, file with
      | done_ok, Some b => (if master_key_ok b then returned b false else failed, file)
      | done_ok, None => (if needs_dir then at_mkdir else at_rand, file)
      | _, _ => (failed, file)
      end
  | at_mkdir => (match a with done_ok => at_rand | _ => failed end, file)
  | at_rand => (match a with done_ok => at_open drawn | _ => failed end, file)
  | at_open key =>
      match a, file with
      | done_ok, None => (at_write key, Some [])
      | _, _ => (failed, file)
      end
  | at_write key =>
      match a with
      | done_ok => (at_sync key, Some key)
      | refused => (failed, file)
      | cut_short n => (failed, Some (take n key))
      end
  | at_sync key => (match a with done_ok => returned key true | _ => failed end, file)
  | returned _ _ | failed => (ph, file)
  end.

(** A process left to itself. *)
Fixpoint alone (fuel : nat) (drawn : bytes) (ph : phase) (file : option bytes) : phase * option bytes :=
  match fuel with
  | O => (ph, file)
  | S fuel => let '(ph, file) := call drawn done_ok ph file in alone fuel drawn ph file
  end.

Definition LoadOrCreateMasterKey (drawn : bytes) (file : option bytes) : phase * option bytes := alone 6 drawn at_read file.

(** ** Processes side by side *)

Record System : Type := mkSystem { sy_file : option bytes; sy_procs : list phase }.

(** The random source gives as many bytes as it is asked for. *)
Inductive sys_step : System -> System -> Prop :=
| sys_call file procs i ph drawn a ph' file' :
    procs !! i = Some ph -> Z.of_nat (List.length drawn) = KeySize -> call drawn a ph file = (ph', file') ->
    sys_step (mkSystem file procs) (mkSystem file' (<[i := ph']> procs))
| sys_stop file procs i :
    sys_step (mkSystem file procs) (mkSystem file (<[i := failed]> procs)).

Definition sys_init (s : System) : Prop := Forall (eq at_read) (sy_procs s).

Definition key_ok (b : bytes) : Prop := Z.of_nat (List.length b) = KeySize.

(** The process that created the file. *)
Definition creator (ph : phase) : bool :=
  match ph with at_write _ | at_sync _ | returned _ true => true | _ => false end.

(** What the file is to a process where it is. *)
Definition agrees (file : option bytes) (ph : phase) : Prop :=
  match ph with
  | at_open key => key_ok key
  | at_write key => key_ok key /\ file = Some []
  | at_sync key | returned key _ => key_ok key /\ file = Some key
  | _ => True
  end.

Record sys_ok (s : System) : Prop := {
  so_agrees : Forall (agrees (sy_file s)) (sy_procs s);
  so_one : forall i j p q, sy_procs s !! i = Some p -> sy_procs s !! j = Some q -> creator p = true -> creator q = true -> i = j;
}.

Lemma key_ok_nonempty : ~ key_ok [].
Proof. done. Qed.

(** The file is created where there is none, written by the process that created it, and left by any
    other call. *)
Lemma call_agrees drawn a ph file ph' file' : key_ok drawn -> call drawn a ph file = (ph', file') -> agrees file ph ->
  agrees file' ph' /\ (creator ph' = true -> creator ph = true \/ file = None) /\
  (file' = file \/ file = None /\ file' = Some [] \/ file = Some [] /\ exists key, ph = at_write key).
Proof.
  intros Hd Hcall Ha. destruct ph, a; cbn in Hcall; unfold master_key_ok in Hcall; repeat case_match; simplify_eq; cbn in *; try tauto; try naive_solver.
  match goal with H : (_ =? _) = true |- _ => apply Z.eqb_eq in H end. auto.
Qed.

Lemma sys_step_ok s s' : sys_step s s' -> sys_ok s -> sys_ok s'.
Proof.
  intros [file procs i ph drawn a ph' file' Hi Hd Hcall|file procs i] [Hag Hone]; cbn [sy_file sy_procs] in *.
  - assert (Hph : agrees file ph) by (rewrite Forall_lookup in Hag; by eapply Hag).
    destruct (call_agrees _ _ _ _ _ _ Hd Hcall Hph) as (Ha' & Hcr & Hfile).
    assert (Hother : forall j q, j <> i -> procs !! j = Some q -> agrees file' q /\ (file = None -> creator q = false)).
    { intros j q Hj Hq. pose proof (Forall_lookup_1 _ _ _ _ Hag Hq) as Hq'. split.
      - destruct Hfile as [-> |[[-> ->]|[-> [key ->]]]]; [done|destruct q; cbn in *; naive_solver|].
        destruct q; cbn in *; try done; [|destruct Hq' as [Hk [= <-]]; by apply key_ok_nonempty in Hk..].
        destruct Hj. by eapply (Hone j i).
      - intros ->. destruct q as [| | | | | |key []|]; cbn in *; naive_solver. }
    split; cbn [sy_file sy_procs].
    + apply Forall_lookup. intros j q [(<- & <- & _)|[Hj Hq]]%list_lookup_insert_Some; [done|]. by apply (Hother j).
    + intros j k p q [(<- & <- & _)|[Hj Hp]]%list_lookup_insert_Some [(<- & <- & _)|[Hk Hq]]%list_lookup_insert_Some Cp Cq.
      * done.
      * destruct (Hcr Cp) as [C|Hn]; [by eapply Hone|]. apply Hother in Hq as [_ Hq]; [|done]. by rewrite Hq in Cq.
      * destruct (Hcr Cq) as [C|Hn]; [by eapply Hone|]. apply Hother in Hp as [_ Hp]; [|done]. by rewrite Hp in Cp.
      * by eapply Hone.
  - split; cbn [sy_file sy_procs].
    + apply Forall_lookup. intros j q [(<- & <- & _)|[Hj Hq]]%list_lookup_insert_Some; [done|]. by eapply Forall_lookup_1.
    + intros j k p q [(<- & <- & _)|[Hj Hp]]%list_lookup_insert_Some [(<- & <- & _)|[Hk Hq]]%list_lookup_insert_Some; try done. by apply Hone.
Qed.

Lemma sys_init_ok s : sys_init s -> sys_ok s.
Proof.
  intros Hs. split.
  - eapply Forall_impl; [exact Hs|]. by intros ph <-.
  - intros i j p q Hp _ Cp. eapply Forall_lookup_1 in Hs; [|exact Hp]. by subst p.
Qed.

(** Once the file holds a key it stays, and nobody becomes its creator. *)
Lemma file_kept s s' k : sys_step s s' -> sys_ok s -> sy_file s = Some k -> key_ok k ->
  sy_file s' = Some k /\ forall j q, sy_procs s' !! j = Some q -> creator q = true -> exists p, sy_procs s !! j = Some p /\ creator p = true.
Proof.
  intros [file procs i ph drawn a ph' file' Hi Hd Hcall|file procs i] [Hag _] Ef Hk; cbn [sy_file sy_procs] in *.
  - destruct (call_agrees _ _ _ _ _ _ Hd Hcall (Forall_lookup_1 _ _ _ _ Hag Hi)) as (_ & Hcr & Hfile). split.
    + destruct Hfile as [-> |[[-> _]|[-> _]]]; [done..|]. injection Ef as <-. by apply key_ok_nonempty in Hk.
    + intros j q [(<- & <- & _)|[_ Hq]]%list_lookup_insert_Some Cq; [|by exists q]. exists ph. split; [done|]. by destruct (Hcr Cq) as [?| ->].
  - split; [done|]. intros j q [(<- & <- & _)|[_ Hq]]%list_lookup_insert_Some Cq; [done|]. by exists q.
Qed.

Lemma file_kept_run s s' k : rtc sys_step s s' -> sys_ok s -> sy_file s = Some k -> key_ok k ->
  sys_ok s' /\ sy_file s' = Some k /\ forall j q, sy_procs s' !! j = Some q -> creator q = true -> exists p, sy_procs s !! j = Some p /\ creator p = true.
Proof.
  induction 1 as [s|s s1 s2 Hstep _ IH]; intros Hok Ef Hk; [split_and!; [done..|]; eauto|].
  destruct (file_kept _ _ _ Hstep Hok Ef Hk) as [Ef1 Hc1]. destruct IH as (Hok2 & Ef2 & Hc2); [by eapply sys_step_ok|done..|].
  split; [done|]. split; [done|]. intros j q Hq Cq. destruct (Hc2 _ _ Hq Cq) as (p & Hp & Cp). by apply (Hc1 _ _ Hp).
Qed.

(** C16: processes that initialise one deployment at the same time do not end up with different master
    keys: however their calls are interleaved, whichever of them fail or are stopped, all that return,
    then or later, return the contents of the file, 32 bytes; at most one of them says it made the key;
    and once one has returned the file never changes again. *)
Theorem master_key_agreed (s0 s s' : System) (i j : nat) (ki kj : bytes) (ci cj : bool) :
  sys_init s0 -> rtc sys_step s0 s -> rtc sys_step s s' ->
  sy_procs s !! i = Some (returned ki ci) -> sy_procs s' !! j = Some (returned kj cj) ->
  ki = kj /\ sy_file s = Some ki /\ sy_file s' = Some ki /\ key_ok ki /\ (ci = true -> cj = true -> i = j).
Proof.
  intros H0 Hrun Hrun' Hi Hj.
  assert (Hok : sys_ok s) by (apply sys_init_ok in H0; clear -Hrun H0; induction Hrun; eauto using sys_step_ok).
  destruct (Forall_lookup_1 _ _ _ _ (so_agrees _ Hok) Hi) as [Hk Ef].
  destruct (file_kept_run _ _ _ Hrun' Hok Ef Hk) as (Hok' & Ef' & Hc). destruct (Forall_lookup_1 _ _ _ _ (so_agrees _ Hok') Hj) as [_ Ej].
  split; [congruence|]. do 3 (split; [done|]). intros -> ->. destruct (Hc _ _ Hj eq_refl) as (p & Hp & Cp). by eapply (so_one _ Hok).
Qed.

(** A process alone is done in six calls: it makes the key, or finds the one that is there. *)
Lemma LoadOrCreateMasterKey_alone drawn file : key_ok drawn ->
  LoadOrCreateMasterKey drawn file = match file with
    | None => (returned drawn true, Some drawn)
    | Some b => (if master_key_ok b then returned b false else failed, Some b)
    end.
Proof.
  intros Hd. unfold LoadOrCreateMasterKey. destruct file as [b|]; cbn; [by destruct (master_key_ok b)|]. by destruct needs_dir.
Qed.
End MasterKey.

(** ** Two processes and a third *)

Definition key_a : bytes := replicate 32 Byte.x61.
Definition key_b : bytes := replicate 32 Byte.x62.
Definition key_path : string := "master.key".

(** The calls of two processes that both find no file, and of a third that comes later. *)
Definition schedule : list (nat * bytes) :=
  [(0, key_a); (1, key_b); (0, key_a); (1, key_b); (1, key_b); (0, key_a); (1, key_b); (1, key_b); (2, key_a)]%nat.
Definition play (s : System) (c : nat * bytes) : System :=
  match sy_procs s !! fst c with
  | Some ph => let '(ph', file') := call key_path (snd c) done_ok ph (sy_file s) in mkSystem file' (<[fst c := ph']> (sy_procs s))
  | None => s
  end.

Lemma play_step s c : key_ok (snd c) -> rtc (sys_step key_path) s (play s c).
Proof.
  intros Hk. unfold play. destruct (sy_procs s !! fst c) as [ph|] eqn:E; [|constructor]. destruct (call _ _ _ _ _) as [ph' file'] eqn:Ec.
  destruct s as [file procs]. by eapply rtc_once, sys_call.
Qed.
Lemma play_run cs s : Forall (fun c => key_ok (snd c)) cs -> rtc (sys_step key_path) s (foldl play s cs).
Proof. intros Hf. revert s. induction Hf as [|c cs Hc Hf IH]; intros s; [constructor|]. cbn [foldl]. etrans; [by apply play_step|]. apply IH. Qed.

Definition three : System := mkSystem None [at_read; at_read; at_read].

Lemma master_key_agreed_witness :
  let s := foldl play three (take 8 schedule) in let s' := foldl play three schedule in
  sy_procs s = [failed; returned key_b true; at_read] /\ sy_procs s' = [failed; returned key_b true; returned key_b false] /\ sy_file s' = Some key_b.
Proof.
  assert (Hp : sy_procs (foldl play three (take 8 schedule)) = [failed; returned key_b true; at_read]) by (vm_compute; reflexivity).
  assert (Hp' : sy_procs (foldl play three schedule) = [failed; returned key_b true; returned key_b false]) by (vm_compute; reflexivity).
  assert (Hkeys : Forall (fun c => key_ok (snd c)) schedule) by (repeat (constructor; [vm_compute; reflexivity|]); constructor).
  split; [exact Hp|]. split; [exact Hp'|].
  refine (proj1 (proj2 (proj2 (master_key_agreed key_path three (foldl play three (take 8 schedule)) (foldl play three schedule) 1 2 key_b key_b true false _ _ _ _ _)))).
  - repeat constructor.
  - apply play_run, Forall_take, Hkeys.
  - rewrite <- (take_drop 8 schedule) at 2. rewrite foldl_app. apply play_run, Forall_drop, Hkeys.
  - rewrite Hp. reflexivity.
  - rewrite Hp'. reflexivity.
Defined.
