(* ===== verification/Config.v ===== *)
(** * The configuration: package [config]

    Three sources, each over the one before: the defaults of the [envDefault] tags, the environment,
    the YAML file. Then the fields that are derived from others are filled in, relative paths are put
    next to the file, and the whole is checked. What [caarlos0/env] and [yaml.v3] read is a parameter,
    as are the files. *)

From S2P Require Import Prelude Text Hostport Duration Netip Names Keytab Model IdRange Db Principals PrincipalFacts Zone DockerDns.

(** ** The sections *)

Record ServerSection : Type := mkServerSection {
  sv_Realm : string;
  sv_BaseDN : string;
  sv_Domain : string;
  sv_DomainSID : string;
  sv_LDAPSPN : string;
  sv_NetBIOSName : string;
  sv_NameFormat : string;
  sv_GroupFormat : string;
  sv_SSHKeyAttrs : list string;
  sv_SSHKeyAttr : string;
  sv_AnonymousDSE : bool;
  sv_IDRangeBaseID : Z;
  sv_IDRangeSize : Z;
  sv_IDRangeBaseRID : Z;
  sv_IDRangeSecondaryBaseRID : Z;
}.

Definition sqliteScheme : string := "sqlite://".

Record DatabaseSection : Type := mkDatabaseSection { db_URL : string; db_MasterKeyFile : string }.

(** [LDAP] and [API]; [LDAPS] serves TLS always. *)
Record ListenerSection : Type := mkListenerSection {
  ls_Enabled : bool; ls_Listen : string; ls_TLS : bool; ls_CertPath : string; ls_KeyPath : string }.

Record KDCSection : Type := mkKDCSection {
  kc_Enabled : bool;
  kc_Listen : string;
  kc_MaxTicketLife : Duration;
  kc_MaxRenewableLife : Duration;
  kc_ClockSkew : Duration;
  kc_EncTypes : list string;
  kc_RequirePreAuth : bool;
  kc_IssuePAC : bool;
  kc_AllowS4U : bool;
  kc_UDPMaxSize : Z;
}.

Record KPasswdSection : Type := mkKPasswdSection { kps_Enabled : bool; kps_Listen : string; kps_MinPasswordLength : Z }.

Record DockerSection : Type := mkDockerSection {
  do_Enabled : bool; do_Endpoint : string; do_Networks : list string; do_ResyncEvery : Duration }.

Record DNSSection : Type := mkDNSSection {
  ds_Enabled : bool;
  ds_Listen : string;
  ds_Zone : string;
  ds_ExtraZones : list string;
  ds_ReverseZones : list string;
  ds_Hostname : string;
  ds_Addresses : list string;
  ds_Mailbox : string;
  ds_TTL : Duration;
  ds_Docker : DockerSection;
}.

Record APISection : Type := mkAPISection {
  as_Listener : ListenerSection;
  as_Token : string;
  as_TokenFile : string;
  as_Docs : bool;
  as_UI : bool;
  as_SPN : string;
  as_SessionLifetime : Duration;
}.

Record OIDCClient : Type := mkOIDCClient {
  ocl_ID : string; ocl_Name : string; ocl_Secret : string; ocl_SecretFile : string;
  ocl_RedirectURIs : list string; ocl_PostLogoutRedirect : list string }.

Record OIDCSection : Type := mkOIDCSection {
  os_Listener : ListenerSection;
  os_Issuer : string;
  os_AllowedOrigins : list string;
  os_SessionLifetime : Duration;
  os_SessionIdle : Duration;
  os_CodeLifetime : Duration;
  os_TokenLifetime : Duration;
  os_ServiceAccountGroup : string;
  os_Clients : list OIDCClient;
}.

Record BehaviorsSection : Type := mkBehaviorsSection {
  bh_IgnoreCapabilities : bool;
  bh_LimitFailedBinds : bool;
  bh_NumberOfFailedBinds : Z;
  bh_PeriodOfFailedBinds : Duration;
  bh_BlockFailedBindsFor : Duration;
  bh_PruneSourceTableEvery : Duration;
  bh_PruneSourcesOlderThan : Duration;
}.

Record Config : Type := mkConfig {
  cf_Debug : bool;
  cf_StructuredLog : bool;
  cf_Server : ServerSection;
  cf_Database : DatabaseSection;
  cf_LDAP : ListenerSection;
  cf_LDAPS : ListenerSection;
  cf_KDC : KDCSection;
  cf_KPasswd : KPasswdSection;
  cf_DNS : DNSSection;
  cf_API : APISection;
  cf_OIDC : OIDCSection;
  cf_BootstrapFile : string;
  cf_Behaviors : BehaviorsSection;
  cf_Path : string;
}.


(** What the [envDefault] tags say, with the zero value where there is none. *)
Definition default_config : Config := {|
  cf_Debug := false; cf_StructuredLog := false;
  cf_Server := mkServerSection "" "" "" "" "" "" "cn" "ou" ["sshPublicKey"; "ipaSshPubKey"] "" false 1 200000 1000 100000000;
  cf_Database := mkDatabaseSection "sqlite://ldap-kdc.db" "master.key";
  cf_LDAP := mkListenerSection true "0.0.0.0:389" false "" "";
  cf_LDAPS := mkListenerSection false "0.0.0.0:636" true "" "";
  cf_KDC := mkKDCSection true "0.0.0.0:88" (10 * hour) (168 * hour) (5 * minute)
    ["aes256-cts-hmac-sha1-96"; "aes128-cts-hmac-sha1-96"; "aes256-cts-hmac-sha384-192"; "aes128-cts-hmac-sha256-128"] true true true 4096;
  cf_KPasswd := mkKPasswdSection true "0.0.0.0:464" 8;
  cf_DNS := mkDNSSection false "0.0.0.0:53" "" [] [] "" [] "" hour (mkDockerSection false "unix:///var/run/docker.sock" [] minute);
  cf_API := mkAPISection (mkListenerSection true "127.0.0.1:5555" false "" "") "" "" true true "" hour;
  cf_OIDC := mkOIDCSection (mkListenerSection false "127.0.0.1:5557" false "" "") "" [] (12 * hour) (2 * hour) (5 * minute) hour "" [];
  cf_BootstrapFile := ""; 
  cf_Behaviors := mkBehaviorsSection false true 3 (10 * second) (60 * second) (10 * minute) (10 * minute);
  cf_Path := "" |}.

(** ** Filling in *)

(** [attributeNames]: trimmed, without the empty ones, each once whatever its case. *)
Fixpoint attribute_names (seen : gset string) (names : list string) : list string :=
  match names with
  | [] => []
  | raw :: rest =>
      let name := TrimSpace raw in
      if is_empty name || bool_decide (ToLower name ∈ seen) then attribute_names seen rest
      else name :: attribute_names ({[ToLower name]} ∪ seen) rest
  end.
Definition attributeNames (names : list string) : list string := attribute_names ∅ names.

Definition baseDNFromDomain (domain : string) : string :=
  Join "," ((fun p => "dc=" +:+ p) <$> filter (fun p => non_empty p = true) (split_char "."%char domain)).

(** [resolve]: a relative path is relative to the directory of the configuration file at [path]. *)
Definition resolve (path p : string) : string :=
  if is_empty p || IsAbs p || is_empty path then p else filepath_Join (Dir path) p.

Definition or_else (s fallback : string) : string := if is_empty s then fallback else s.

Definition normalize_server (s : ServerSection) : ServerSection :=
  let realm := ToUpper (TrimSpace (sv_Realm s)) in
  let domain := ToLower (or_else (sv_Domain s) (ToLower realm)) in
  let netbios := ToUpper (or_else (sv_NetBIOSName s) (default EmptyString (head (split_char "."%char realm)))) in
  let baseDN := ToLower (or_else (sv_BaseDN s) (baseDNFromDomain domain)) in
  let attrs := attributeNames (if non_empty (sv_SSHKeyAttr s) then [sv_SSHKeyAttr s] else sv_SSHKeyAttrs s) in
  mkServerSection realm baseDN domain (sv_DomainSID s) (sv_LDAPSPN s) netbios (sv_NameFormat s) (sv_GroupFormat s) attrs (sv_SSHKeyAttr s)
    (sv_AnonymousDSE s) (sv_IDRangeBaseID s) (sv_IDRangeSize s) (sv_IDRangeBaseRID s) (sv_IDRangeSecondaryBaseRID s).

Definition normalize_dns (domain : string) (s : DNSSection) : DNSSection :=
  mkDNSSection (ds_Enabled s) (ds_Listen s) (ToLower (or_else (ds_Zone s) domain)) (ds_ExtraZones s) (ds_ReverseZones s)
    (ToLower (ds_Hostname s)) (ds_Addresses s) (ds_Mailbox s) (ds_TTL s) (ds_Docker s).

Definition resolve_listener (path : string) (l : ListenerSection) : ListenerSection :=
  mkListenerSection (ls_Enabled l) (ls_Listen l) (ls_TLS l) (resolve path (ls_CertPath l)) (resolve path (ls_KeyPath l)).

Definition normalize_database (path : string) (s : DatabaseSection) : DatabaseSection :=
  mkDatabaseSection (match CutPrefix (db_URL s) sqliteScheme with
                     | Some p => sqliteScheme +:+ resolve path p
                     | None => db_URL s
                     end) (resolve path (db_MasterKeyFile s)).

(** Why a configuration is refused. *)
Inductive ConfigErr : Type :=
| ce_environment
| ce_read
| ce_parse
| ce_token_file
| ce_ssh_key_attrs
| ce_realm
| ce_realm_name
| ce_domain_sid
| ce_database_file
| ce_database_url
| ce_master_key
| ce_listen (name : string)
| ce_tls (name : string)
| ce_issuer
| ce_issuer_url
| ce_issuer_slash
| ce_no_clients
| ce_client_id
| ce_bootstrap_file
| ce_enc_types
| ce_ticket_life
| ce_renewable_life
| ce_clock_skew
| ce_udp_size
| ce_kpasswd_kdc
| ce_docker_dns
| ce_docker_endpoint
| ce_docker_networks
| ce_docker_network (n : string)
| ce_docker_resync
| ce_dns_hostname
| ce_dns_qualified
| ce_dns_addresses
| ce_dns_address (a : string)
| ce_dns_ttl.

(** [os.ReadFile] and [os.Stat]. *)
Class Files : Type := { ReadFile : string -> option bytes; Stat : string -> bool }.

(** What [env.Parse] makes of the defaults and the environment, and what [yaml.Decoder] makes of a
    document over them. *)
Inductive overlay : Type := overlaid (c : Config) | no_document | bad_document.
Class Sources : Type := { env_Parse : Config -> option Config; yaml_Decode : bytes -> Config -> overlay }.

Section Load.
Context `{Files, Sources, UrlLib}.

Definition api_token (path : string) (s : APISection) : outcome ConfigErr string :=
  if non_empty (as_TokenFile s) then
    b ← or_err ce_token_file (ReadFile (resolve path (as_TokenFile s)));
    Ok (TrimSpace (string_of_bytes b))
  else Ok (as_Token s).

Definition normalize_config (c : Config) : outcome ConfigErr Config :=
  let path := cf_Path c in
  let server := normalize_server (cf_Server c) in
  let dns := normalize_dns (sv_Domain server) (cf_DNS c) in
  token ← api_token path (cf_API c);
  let api := mkAPISection (resolve_listener path (as_Listener (cf_API c))) token (as_TokenFile (cf_API c)) (as_Docs (cf_API c))
               (as_UI (cf_API c)) (as_SPN (cf_API c)) (as_SessionLifetime (cf_API c)) in
  Ok (mkConfig (cf_Debug c) (cf_StructuredLog c) server (normalize_database path (cf_Database c)) (resolve_listener path (cf_LDAP c))
        (resolve_listener path (cf_LDAPS c)) (cf_KDC c) (cf_KPasswd c) dns api (cf_OIDC c) (resolve path (cf_BootstrapFile c))
        (cf_Behaviors c) path).

(** ** Checking *)

(** [realmRE]: [^[A-Z0-9][A-Z0-9.-]*[A-Z0-9]$]. *)
Definition realm_edge (c : ascii) : bool :=
  let n := nat_of_ascii c in ((48 <=? n) && (n <=? 57) || (65 <=? n) && (n <=? 90))%nat.
Definition realm_inner (c : ascii) : bool := realm_edge c || Ascii.eqb c "."%char || Ascii.eqb c "-"%char.
Definition edge_first (s : string) : bool := match s with String c _ => realm_edge c | EmptyString => false end.
Definition realmRE (s : string) : bool :=
  (2 <=? String.length s)%nat && edge_first s && edge_first (string_rev s) && all_chars realm_inner s.

Definition validateListeners (c : Config) : outcome ConfigErr unit :=
  let check (l : bool * string * string) (rest : outcome ConfigErr unit) :=
    let '(enabled, name, addr) := l in
    if negb enabled then rest
    else match SplitHostPort addr with Some _ => rest | None => Err (ce_listen name) end in
  foldr check (Ok tt)
    [(ls_Enabled (cf_LDAP c), "ldap.listen", ls_Listen (cf_LDAP c));
     (ls_Enabled (cf_LDAPS c), "ldaps.listen", ls_Listen (cf_LDAPS c));
     (kc_Enabled (cf_KDC c), "kdc.listen", kc_Listen (cf_KDC c));
     (kps_Enabled (cf_KPasswd c), "kpasswd.listen", kps_Listen (cf_KPasswd c));
     (ds_Enabled (cf_DNS c), "dns.listen", ds_Listen (cf_DNS c));
     (ls_Enabled (as_Listener (cf_API c)), "api.listen", ls_Listen (as_Listener (cf_API c)));
     (ls_Enabled (os_Listener (cf_OIDC c)), "oidc.listen", ls_Listen (os_Listener (cf_OIDC c)))].

Definition validateTLS (c : Config) : outcome ConfigErr unit :=
  let check (t : bool * string * ListenerSection) (rest : outcome ConfigErr unit) :=
    let '(enabled, name, l) := t in
    if negb enabled then rest
    else if String.eqb name "ldaps" && is_empty (ls_CertPath l) && is_empty (ls_KeyPath l) then rest
    else if is_empty (ls_CertPath l) || is_empty (ls_KeyPath l) then Err (ce_tls name)
    else rest in
  let api := as_Listener (cf_API c) in
  let oidc := os_Listener (cf_OIDC c) in
  foldr check (Ok tt)
    [(ls_Enabled (cf_LDAP c) && ls_TLS (cf_LDAP c), "ldap", cf_LDAP c);
     (ls_Enabled (cf_LDAPS c), "ldaps", cf_LDAPS c);
     (ls_Enabled api && ls_TLS api, "api", api);
     (ls_Enabled oidc && ls_TLS oidc, "oidc", oidc)].

Definition validateOIDC (c : Config) : outcome ConfigErr unit :=
  let o := cf_OIDC c in
  if negb (ls_Enabled (os_Listener o)) then Ok tt
  else
    _ ← err_if (is_empty (os_Issuer o)) ce_issuer;
    u ← or_err ce_issuer_url (url_Parse (os_Issuer o));
    _ ← err_if (is_empty (url_Scheme u) || is_empty (url_Host u)) ce_issuer_url;
    _ ← err_if (HasSuffix (os_Issuer o) "/") ce_issuer_slash;
    _ ← err_if (List.length (os_Clients o) =? 0)%nat ce_no_clients;
    err_if (existsb (fun cl => is_empty (ocl_ID cl)) (os_Clients o)) ce_client_id.

Definition docker_network (n : string) : bool :=
  non_empty n &&
  (negb (contains_char "/"%char n) || match ParsePrefix n with Some p => Is4 (pf_Addr p) | None => false end).

Definition validateDockerDiscovery (d : DockerSection) : outcome ConfigErr unit :=
  u ← or_err ce_docker_endpoint (url_Parse (do_Endpoint d));
  _ ← (if String.eqb (url_Scheme u) "unix" then err_if (is_empty (url_Path u)) ce_docker_endpoint
       else if String.eqb (url_Scheme u) "tcp" || String.eqb (url_Scheme u) "http" then err_if (is_empty (url_Host u)) ce_docker_endpoint
       else Err ce_docker_endpoint);
  _ ← err_if (List.length (do_Networks d) =? 0)%nat ce_docker_networks;
  _ ← foldr (fun n rest => if docker_network n then rest else Err (ce_docker_network n)) (Ok tt) (do_Networks d);
  err_if (do_ResyncEvery d <=? 0) ce_docker_resync.

Definition validateDNS (c : Config) : outcome ConfigErr unit :=
  let d := cf_DNS c in
  _ ← err_if (do_Enabled (ds_Docker d) && negb (ds_Enabled d)) ce_docker_dns;
  _ ← (if do_Enabled (ds_Docker d) then validateDockerDiscovery (ds_Docker d) else Ok tt);
  if negb (ds_Enabled d) then Ok tt
  else
    _ ← err_if (is_empty (ds_Hostname d)) ce_dns_hostname;
    _ ← err_if (negb (contains_char "."%char (ds_Hostname d))) ce_dns_qualified;
    _ ← err_if (List.length (ds_Addresses d) =? 0)%nat ce_dns_addresses;
    _ ← foldr (fun a rest => match ParseAddr a with Some _ => rest | None => Err (ce_dns_address a) end) (Ok tt) (ds_Addresses d);
    err_if (ds_TTL d <=? 0) ce_dns_ttl.

Definition validateKerberos (c : Config) : outcome ConfigErr unit :=
  let k := cf_KDC c in
  _ ← err_if (kc_Enabled k && (List.length (kc_EncTypes k) =? 0)%nat) ce_enc_types;
  _ ← err_if (kc_MaxTicketLife k <=? 0) ce_ticket_life;
  _ ← err_if (kc_MaxRenewableLife k <? kc_MaxTicketLife k) ce_renewable_life;
  _ ← err_if (kc_ClockSkew k <=? 0) ce_clock_skew;
  _ ← err_if (kc_UDPMaxSize k <? 576) ce_udp_size;
  _ ← err_if (kps_Enabled (cf_KPasswd c) && negb (kc_Enabled k)) ce_kpasswd_kdc;
  validateDNS c.

Definition validate_database (url : string) : outcome ConfigErr unit :=
  if HasPrefix url sqliteScheme then err_if (String.length url =? String.length sqliteScheme)%nat ce_database_file
  else err_if (negb (HasPrefix url "postgres://" || HasPrefix url "postgresql://")) ce_database_url.

Definition validate (checkFiles : bool) (c : Config) : outcome ConfigErr unit :=
  let s := cf_Server c in
  _ ← err_if (List.length (sv_SSHKeyAttrs s) =? 0)%nat ce_ssh_key_attrs;
  _ ← err_if (is_empty (sv_Realm s)) ce_realm;
  _ ← err_if (negb (realmRE (sv_Realm s))) ce_realm_name;
  _ ← err_if (non_empty (sv_DomainSID s) && negb (HasPrefix (sv_DomainSID s) "S-1-5-21-")) ce_domain_sid;
  _ ← validate_database (db_URL (cf_Database c));
  _ ← err_if (is_empty (db_MasterKeyFile (cf_Database c))) ce_master_key;
  _ ← validateListeners c;
  _ ← validateTLS c;
  _ ← validateOIDC c;
  _ ← err_if (checkFiles && non_empty (cf_BootstrapFile c) && negb (Stat (cf_BootstrapFile c))) ce_bootstrap_file;
  validateKerberos c.

Definition set_path (path : string) (c : Config) : Config :=
  mkConfig (cf_Debug c) (cf_StructuredLog c) (cf_Server c) (cf_Database c) (cf_LDAP c) (cf_LDAPS c) (cf_KDC c) (cf_KPasswd c) (cf_DNS c)
    (cf_API c) (cf_OIDC c) (cf_BootstrapFile c) (cf_Behaviors c) path.

(** [loadFile]: a file without a document changes nothing. *)
Definition loadFile (path : string) (c : Config) : outcome ConfigErr Config :=
  data ← or_err ce_read (ReadFile path);
  match yaml_Decode data c with
  | overlaid c' => Ok (set_path path c')
  | no_document => Ok (set_path path c)
  | bad_document => Err ce_parse
  end.

Definition load_config (path : string) (checkFiles : bool) : outcome ConfigErr Config :=
  cfg ← or_err ce_environment (env_Parse default_config);
  cfg ← (if non_empty path then loadFile path cfg else Ok cfg);
  cfg ← normalize_config cfg;
  _ ← validate checkFiles cfg;
  Ok cfg.

Definition Load (path : string) : outcome ConfigErr Config := load_config path true.
Definition LoadForClients (path : string) : outcome ConfigErr Config := load_config path false.
End Load.

Definition KrbTGTPrincipal (c : Config) : string := "krbtgt/" +:+ sv_Realm (cf_Server c).
