(* ===== verification/ConfigFacts.v ===== *)
(** * What a loaded configuration is known to satisfy *)

From S2P Require Import Prelude Text Hostport Duration Netip Names Keytab Model IdRange Db Principals PrincipalFacts Zone DockerDns Config.

(** ** Filling in twice is filling in once *)

Lemma attribute_names_spec seen names out : attribute_names seen names = out ->
  Forall (fun a => a <> EmptyString /\ TrimSpace a = a /\ ToLower a ∉ seen) out /\ NoDup (ToLower <$> out).
Proof.
  revert seen out. induction names as [|raw names IH]; intros seen out <-; cbn [attribute_names]; [split; constructor|].
  destruct (is_empty (TrimSpace raw)) eqn:He; cbn [orb]; [by apply IH|]. case_bool_decide as Hs; [by apply IH|].
  destruct (IH ({[ToLower (TrimSpace raw)]} ∪ seen) _ eq_refl) as [Hf Hn]. cbn [fmap list_fmap]. split.
  - constructor.
    + split; [intros E; by rewrite (proj2 (is_empty_spec _) E) in He|]. split; [apply TrimSpace_idemp|done].
    + eapply Forall_impl; [exact Hf|]. intros a (? & ? & Ha). split_and!; [done..|]. set_solver.
  - constructor; [|done]. intros (a & E & Ha)%list_elem_of_fmap. rewrite Forall_forall in Hf. destruct (Hf _ Ha) as (_ & _ & Hnot). set_solver.
Qed.

Lemma attribute_names_id seen names : Forall (fun a => a <> EmptyString /\ TrimSpace a = a /\ ToLower a ∉ seen) names -> NoDup (ToLower <$> names) ->
  attribute_names seen names = names.
Proof.
  revert seen. induction names as [|a names IH]; intros seen Hf Hn; [done|]. cbn [attribute_names]. apply Forall_cons in Hf as [(Hne & Ht & Hs) Hf].
  cbn [fmap list_fmap] in Hn. apply NoDup_cons in Hn as [Hnot Hn]. rewrite Ht. destruct (is_empty a) eqn:He; [by apply is_empty_spec in He|].
  cbn [orb]. rewrite bool_decide_false by done. f_equal. apply IH; [|done]. rewrite Forall_forall in Hf |- *. intros b Hb.
  destruct (Hf _ Hb) as (? & ? & ?). split_and!; [done..|]. intros [Heq%elem_of_singleton|?]%elem_of_union; [|done].
  apply Hnot. rewrite <- Heq. by apply list_elem_of_fmap_2.
Qed.

Lemma attributeNames_idemp names : attributeNames (attributeNames names) = attributeNames names.
Proof. unfold attributeNames. destruct (attribute_names_spec ∅ names _ eq_refl). by apply attribute_names_id. Qed.

Lemma or_else_fixed f s t : (forall x, f (f x) = f x) -> (forall x, is_empty (f x) = is_empty x) ->
  f (or_else (f (or_else s t)) t) = f (or_else s t).
Proof.
  intros Hf He. unfold or_else at 1. rewrite He. destruct (is_empty (or_else s t)) eqn:E; [|apply Hf].
  unfold or_else in *. destruct (is_empty s) eqn:Es; [done|]. congruence.
Qed.

Lemma is_empty_ToLower s : is_empty (ToLower s) = is_empty s.
Proof. by destruct s. Qed.
Lemma is_empty_ToUpper s : is_empty (ToUpper s) = is_empty s.
Proof. by destruct s. Qed.

Lemma normalize_server_idemp s : normalize_server (normalize_server s) = normalize_server s.
Proof.
  unfold normalize_server. cbn -[ToUpper ToLower TrimSpace or_else attributeNames baseDNFromDomain split_char non_empty].
  rewrite TrimSpace_ToUpper, TrimSpace_idemp, ToUpper_idemp.
  set (realm := ToUpper (TrimSpace (sv_Realm s))).
  rewrite (or_else_fixed ToLower) by (apply ToLower_idemp || apply is_empty_ToLower). set (domain := ToLower (or_else _ (ToLower realm))).
  rewrite (or_else_fixed ToLower) by (apply ToLower_idemp || apply is_empty_ToLower).
  rewrite (or_else_fixed ToUpper) by (apply ToUpper_idemp || apply is_empty_ToUpper).
  destruct (non_empty (sv_SSHKeyAttr s)); [done|]. by rewrite attributeNames_idemp.
Qed.

Lemma normalize_dns_idemp domain s : normalize_dns domain (normalize_dns domain s) = normalize_dns domain s.
Proof.
  unfold normalize_dns. cbn -[ToLower or_else]. rewrite ToLower_idemp. by rewrite (or_else_fixed ToLower) by (apply ToLower_idemp || apply is_empty_ToLower).
Qed.

(** The file the configuration comes from is named by its whole path, or there is none. *)
Definition whole_path (path : string) : Prop := path = EmptyString \/ IsAbs path = true.

(** A path is as it is to be used: nothing, or absolute when there is a file it could be relative to. *)
Definition settled (path p : string) : Prop := path = EmptyString \/ p = EmptyString \/ IsAbs p = true.

Lemma resolve_settled path p : whole_path path -> settled path (resolve path p).
Proof.
  intros [->|Hp]; [by left|]. right. unfold resolve. destruct (is_empty p) eqn:E1; [by left; apply is_empty_spec|].
  destruct (IsAbs p) eqn:E2; [by right|]. destruct (is_empty path) eqn:E3; [apply is_empty_spec in E3 as ->; done|]. right. by apply IsAbs_Join, IsAbs_Dir.
Qed.
Lemma settled_resolve path p : settled path p -> resolve path p = p.
Proof. intros H. unfold resolve. destruct H as [->|[->| ->]]; [|done|]; by rewrite ?orb_true_r. Qed.
Lemma resolve_idemp path p : whole_path path -> resolve path (resolve path p) = resolve path p.
Proof. intros. by apply settled_resolve, resolve_settled. Qed.

Lemma resolve_listener_idemp path l : whole_path path -> resolve_listener path (resolve_listener path l) = resolve_listener path l.
Proof. intros. unfold resolve_listener. cbn. by rewrite !resolve_idemp. Qed.

Lemma normalize_database_idemp path s : whole_path path -> normalize_database path (normalize_database path s) = normalize_database path s.
Proof.
  intros Hp. unfold normalize_database. cbn [db_URL db_MasterKeyFile]. rewrite (resolve_idemp _ (db_MasterKeyFile s)) by done. f_equal.
  destruct (CutPrefix (db_URL s) sqliteScheme) as [p|] eqn:E; [|by rewrite E]. by rewrite CutPrefix_app, resolve_idemp.
Qed.

(** ** The realm in the name of its own principal *)

Lemma realm_inner_char c : realm_inner c = true -> is_space c = false /\ c <> at_sign /\ c <> slash /\ c <> backslash.
Proof. by destruct c as [[] [] [] [] [] [] [] []]. Qed.

Lemma realmRE_chars s : realmRE s = true -> s <> EmptyString /\ all_chars realm_inner s = true.
Proof. unfold realmRE. intros [[[H1 _]%andb_true_iff _]%andb_true_iff H2]%andb_true_iff. split; [by intros ->|done]. Qed.

Lemma realm_no_char s c : all_chars realm_inner s = true -> realm_inner c = false -> contains_char c s = false.
Proof. intros H1 H2. by apply (all_chars_no_char realm_inner). Qed.

Lemma realm_plain s : all_chars realm_inner s = true -> s <> EmptyString -> plain_component s.
Proof.
  intros Hs Hne. split_and!; [done| | |by apply (realm_no_char s)..];
    (eapply all_chars_impl; [|exact Hs]; intros c Hc; by destruct (realm_inner_char c Hc) as (-> & _)) || by apply (realm_no_char s).
Qed.

Section Loaded.
Context `{Fs : Files, Sr : Sources, Ur : UrlLib}.

Lemma normalize_config_idemp c c' : whole_path (cf_Path c) -> normalize_config c = Ok c' -> normalize_config c' = Ok c'.
Proof.
  intros Hp Hn. unfold normalize_config in Hn. run_inv. unfold normalize_config.
  cbn -[normalize_server normalize_dns normalize_database resolve_listener resolve api_token mbind].
  rewrite normalize_server_idemp, normalize_dns_idemp, normalize_database_idemp, !resolve_listener_idemp, resolve_idemp by done.
  match goal with H : api_token _ _ = Ok ?t |- _ => assert (Ht : forall l d u p e, api_token (cf_Path c) (mkAPISection l t (as_TokenFile (cf_API c)) d u p e) = Ok t) end.
  { intros. unfold api_token in *. cbn [as_TokenFile as_Token]. by destruct (non_empty _). }
  rewrite Ht. reflexivity.
Qed.

(** ** What passes the checks *)

Lemma checked {X} (check : X -> outcome ConfigErr unit -> outcome ConfigErr unit) (good : X -> Prop) l u :
  (forall x rest, check x rest = Ok tt -> good x /\ rest = Ok tt) -> foldr check (Ok tt) l = Ok u -> Forall good l.
Proof. intros Hc. destruct u. induction l as [|x l IH]; cbn [foldr]; [constructor|]. intros [Hx Hl]%Hc. constructor; [done|]. by apply IH. Qed.

(** The listeners a configuration asks for. *)
Definition listeners (c : Config) : list string :=
  concat ((fun '(enabled, addr) => if enabled : bool then [addr] else []) <$>
    [(ls_Enabled (cf_LDAP c), ls_Listen (cf_LDAP c)); (ls_Enabled (cf_LDAPS c), ls_Listen (cf_LDAPS c));
     (kc_Enabled (cf_KDC c), kc_Listen (cf_KDC c)); (kps_Enabled (cf_KPasswd c), kps_Listen (cf_KPasswd c));
     (ds_Enabled (cf_DNS c), ds_Listen (cf_DNS c)); (ls_Enabled (as_Listener (cf_API c)), ls_Listen (as_Listener (cf_API c)));
     (ls_Enabled (os_Listener (cf_OIDC c)), ls_Listen (os_Listener (cf_OIDC c)))]).

(** A listener that is to serve TLS has both halves of a pair. *)
Definition tls_ready (l : ListenerSection) : Prop :=
  ls_Enabled l = true -> ls_TLS l = true -> ls_CertPath l <> EmptyString /\ ls_KeyPath l <> EmptyString.

Definition database_url (url : string) : Prop :=
  (exists file, file <> EmptyString /\ url = sqliteScheme +:+ file) \/ HasPrefix url "postgres://" = true \/ HasPrefix url "postgresql://" = true.

Record dns_wf (d : DNSSection) : Prop := {
  dw_hostname : contains_char "."%char (ds_Hostname d) = true /\ ToLower (ds_Hostname d) = ds_Hostname d;
  dw_addresses : ds_Addresses d <> [] /\ Forall (fun a => is_Some (ParseAddr a)) (ds_Addresses d);
  dw_TTL : 0 < ds_TTL d;
}.

Record docker_wf (d : DockerSection) : Prop := {
  kw_endpoint : exists u, url_Parse (do_Endpoint d) = Some u /\
    (url_Scheme u = "unix" /\ url_Path u <> EmptyString \/ (url_Scheme u = "tcp" \/ url_Scheme u = "http") /\ url_Host u <> EmptyString);
  kw_networks : do_Networks d <> [] /\ Forall (fun n => n <> EmptyString /\
    (contains_char "/"%char n = true -> exists p, ParsePrefix n = Some p /\ Is4 (pf_Addr p) = true)) (do_Networks d);
  kw_resync : 0 < do_ResyncEvery d;
}.

Record oidc_wf (o : OIDCSection) : Prop := {
  ow_named : os_Issuer o <> EmptyString;
  ow_issuer : exists u, url_Parse (os_Issuer o) = Some u /\ url_Scheme u <> EmptyString /\ url_Host u <> EmptyString;
  ow_slash : HasSuffix (os_Issuer o) "/" = false;
  ow_clients : os_Clients o <> [] /\ Forall (fun cl => ocl_ID cl <> EmptyString) (os_Clients o);
}.

Record config_wf (c : Config) : Prop := {
  cw_realm : realmRE (sv_Realm (cf_Server c)) = true /\ ToUpper (sv_Realm (cf_Server c)) = sv_Realm (cf_Server c);
  cw_domain : sv_Domain (cf_Server c) <> EmptyString /\ ToLower (sv_Domain (cf_Server c)) = sv_Domain (cf_Server c);
  cw_base : ToLower (sv_BaseDN (cf_Server c)) = sv_BaseDN (cf_Server c);
  cw_attrs : sv_SSHKeyAttrs (cf_Server c) <> [] /\ NoDup (ToLower <$> sv_SSHKeyAttrs (cf_Server c)) /\
    Forall (fun a => a <> EmptyString /\ TrimSpace a = a) (sv_SSHKeyAttrs (cf_Server c));
  cw_sid : sv_DomainSID (cf_Server c) = EmptyString \/ HasPrefix (sv_DomainSID (cf_Server c)) "S-1-5-21-" = true;
  cw_database : database_url (db_URL (cf_Database c)) /\ db_MasterKeyFile (cf_Database c) <> EmptyString;
  cw_listeners : Forall (fun addr => is_Some (SplitHostPort addr)) (listeners c);
  cw_tls : tls_ready (cf_LDAP c) /\ tls_ready (as_Listener (cf_API c)) /\ tls_ready (os_Listener (cf_OIDC c));
  cw_ldaps : ls_Enabled (cf_LDAPS c) = true -> (ls_CertPath (cf_LDAPS c) = EmptyString <-> ls_KeyPath (cf_LDAPS c) = EmptyString);
  cw_life : 0 < kc_MaxTicketLife (cf_KDC c) <= kc_MaxRenewableLife (cf_KDC c);
  cw_skew : 0 < kc_ClockSkew (cf_KDC c);
  cw_udp : 576 <= kc_UDPMaxSize (cf_KDC c);
  cw_enctypes : kc_Enabled (cf_KDC c) = true -> kc_EncTypes (cf_KDC c) <> [];
  cw_kpasswd : kps_Enabled (cf_KPasswd c) = true -> kc_Enabled (cf_KDC c) = true;
  cw_zone : ds_Zone (cf_DNS c) <> EmptyString /\ ToLower (ds_Zone (cf_DNS c)) = ds_Zone (cf_DNS c);
  cw_dns : ds_Enabled (cf_DNS c) = true -> dns_wf (cf_DNS c);
  cw_docker : do_Enabled (ds_Docker (cf_DNS c)) = true -> ds_Enabled (cf_DNS c) = true /\ docker_wf (ds_Docker (cf_DNS c));
  cw_oidc : ls_Enabled (os_Listener (cf_OIDC c)) = true -> oidc_wf (cf_OIDC c);
}.

Lemma validateListeners_ok c : validateListeners c = Ok tt -> Forall (fun addr => is_Some (SplitHostPort addr)) (listeners c).
Proof.
  intros Hv. unfold validateListeners in Hv.
  apply (checked _ (fun '(enabled, _, addr) => enabled = true -> is_Some (SplitHostPort addr))) in Hv.
  2: { intros [[[] ?] ?] rest; cbn; [|done]. destruct (SplitHostPort _); [|done]. intros ->. split; [|done]. eauto. }
  unfold listeners. repeat apply Forall_cons in Hv as [? Hv]. cbn [fmap list_fmap concat].
  repeat (apply Forall_app_2; [case_match; constructor; auto|]). constructor.
Qed.

Lemma validateTLS_ok c : validateTLS c = Ok tt ->
  (tls_ready (cf_LDAP c) /\ tls_ready (as_Listener (cf_API c)) /\ tls_ready (os_Listener (cf_OIDC c))) /\
  (ls_Enabled (cf_LDAPS c) = true -> (ls_CertPath (cf_LDAPS c) = EmptyString <-> ls_KeyPath (cf_LDAPS c) = EmptyString)).
Proof.
  intros Hv. unfold validateTLS in Hv. apply (checked _ (fun '(enabled, name, l) => enabled = true ->
    name = "ldaps" /\ ls_CertPath l = EmptyString /\ ls_KeyPath l = EmptyString \/ ls_CertPath l <> EmptyString /\ ls_KeyPath l <> EmptyString)) in Hv.
  2: { intros [[[] name] l] rest; cbn; [|done]. destruct (String.eqb_spec name "ldaps") as [->|]; cbn [andb];
       destruct (ls_CertPath l), (ls_KeyPath l); cbn; try done; intros ->; split; auto. }
  repeat apply Forall_cons in Hv as [? Hv]. split; [|naive_solver].
  unfold tls_ready. split_and!; intros E1 E2; rewrite E1, E2 in *; naive_solver.
Qed.

Lemma is_empty_no s : is_empty s = false <-> s <> EmptyString.
Proof. by destruct s. Qed.

Lemma validateOIDC_ok c : validateOIDC c = Ok tt -> ls_Enabled (os_Listener (cf_OIDC c)) = true -> oidc_wf (cf_OIDC c).
Proof.
  unfold validateOIDC. intros Hv Ho. rewrite Ho in Hv. cbn [negb] in Hv. run_inv. split; [by apply is_empty_no| |done|].
  - eexists. split; [done|]. rewrite <- !is_empty_no. by apply orb_false_iff.
  - split; [by destruct (os_Clients _)|]. apply Forall_forall. intros cl Hcl. apply is_empty_no.
    rewrite existsb_false in *. auto.
Qed.

Lemma validateDockerDiscovery_ok d : validateDockerDiscovery d = Ok tt -> docker_wf d.
Proof.
  unfold validateDockerDiscovery. intros Hv. run_inv. split.
  - eexists. split; [done|]. destruct (String.eqb_spec (url_Scheme x) "unix"); [left; run_inv; by rewrite <- is_empty_no|right].
    destruct (String.eqb_spec (url_Scheme x) "tcp"); [cbn [orb] in *; run_inv; rewrite <- is_empty_no; auto|].
    destruct (String.eqb_spec (url_Scheme x) "http"); [|done]. cbn [orb] in *; run_inv; rewrite <- is_empty_no; auto.
  - split; [by destruct (do_Networks d)|]. eapply checked; [|eassumption]. intros n rest. cbn beta. destruct (docker_network n) eqn:E; [|done]. intros ->.
    split; [|done]. unfold docker_network in E. apply andb_true_iff in E as [E1%non_empty_spec E2]. split; [done|]. intros Hs. rewrite Hs in E2. cbn [negb orb] in E2.
    destruct (ParsePrefix n) as [p|]; [|done]. by exists p.
  - apply Z.leb_gt. done.
Qed.

Lemma validateDNS_ok c : validateDNS c = Ok tt -> ToLower (ds_Hostname (cf_DNS c)) = ds_Hostname (cf_DNS c) ->
  (ds_Enabled (cf_DNS c) = true -> dns_wf (cf_DNS c)) /\
  (do_Enabled (ds_Docker (cf_DNS c)) = true -> ds_Enabled (cf_DNS c) = true /\ docker_wf (ds_Docker (cf_DNS c))).
Proof.
  unfold validateDNS. intros Hv Hh. run_inv. split.
  - intros He. rewrite He in *. cbn [negb] in *. run_inv. split; [|split|].
    + split; [by apply negb_false_iff|done].
    + by destruct (ds_Addresses _).
    + eapply checked; [|eassumption]. intros a rest. cbn. destruct (ParseAddr a); [|done]. eauto.
    + by apply Z.leb_gt.
  - intros Hd. rewrite Hd in *. cbn [andb] in *. split; [by apply negb_false_iff|]. apply validateDockerDiscovery_ok. by destruct x0.
Qed.

Lemma validateKerberos_ok c : validateKerberos c = Ok tt ->
  0 < kc_MaxTicketLife (cf_KDC c) <= kc_MaxRenewableLife (cf_KDC c) /\ 0 < kc_ClockSkew (cf_KDC c) /\ 576 <= kc_UDPMaxSize (cf_KDC c) /\
  (kc_Enabled (cf_KDC c) = true -> kc_EncTypes (cf_KDC c) <> []) /\
  (kps_Enabled (cf_KPasswd c) = true -> kc_Enabled (cf_KDC c) = true) /\ validateDNS c = Ok tt.
Proof.
  unfold validateKerberos. intros Hv. run_inv. rewrite ?Z.leb_gt, ?Z.ltb_ge in *. split_and!; try lia; try done.
  - intros E. rewrite E in *. by destruct (kc_EncTypes _).
  - intros E. rewrite E in *. by apply negb_false_iff.
Qed.

Lemma validate_database_ok url : validate_database url = Ok tt -> database_url url.
Proof.
  unfold validate_database. destruct (HasPrefix url sqliteScheme) eqn:E; intros Hv; run_inv.
  - left. apply HasPrefix_spec in E as [file ->]. exists file. split; [|done]. by intros ->.
  - right. apply negb_false_iff, orb_true_iff in Hv. done.
Qed.

Lemma or_else_ne s t : t <> EmptyString -> or_else s t <> EmptyString.
Proof. by destruct s. Qed.
Lemma ToLower_ne s : s <> EmptyString -> ToLower s <> EmptyString.
Proof. by destruct s. Qed.

(** What [normalize] leaves, given that what follows it succeeds. *)
Lemma validate_wf checkFiles c c' : normalize_config c = Ok c' -> validate checkFiles c' = Ok tt -> config_wf c'.
Proof.
  intros Hn Hv. unfold validate in Hv. run_inv.
  assert (Hs : cf_Server c' = normalize_server (cf_Server c) /\ cf_DNS c' = normalize_dns (sv_Domain (cf_Server c')) (cf_DNS c)).
  { unfold normalize_config in Hn. by run_inv. }
  destruct Hs as [Hs Hd]. repeat match goal with x : unit |- _ => destruct x end.
  match goal with H : validate_database _ = _ |- _ => apply validate_database_ok in H end.
  match goal with H : validateListeners _ = _ |- _ => apply validateListeners_ok in H end.
  match goal with H : validateTLS _ = _ |- _ => apply validateTLS_ok in H as [? ?] end.
  match goal with H : validateOIDC _ = _ |- _ => pose proof (validateOIDC_ok _ H) end.
  apply validateKerberos_ok in Hv as (? & ? & ? & ? & ? & Hdns).
  apply validateDNS_ok in Hdns as [? ?]; [|rewrite Hd; apply ToLower_idemp].
  assert (Hr : sv_Realm (cf_Server c') <> EmptyString) by (by apply is_empty_no).
  assert (Hdom : sv_Domain (cf_Server c') <> EmptyString) by (rewrite Hs in *; apply ToLower_ne, or_else_ne, ToLower_ne; exact Hr).
  split; try done.
  - split; [by apply negb_false_iff|]. rewrite Hs. apply ToUpper_idemp.
  - split; [done|]. rewrite Hs. apply ToLower_idemp.
  - rewrite Hs. apply ToLower_idemp.
  - split; [by destruct (sv_SSHKeyAttrs _)|]. rewrite Hs. cbn [sv_SSHKeyAttrs normalize_server].
    match goal with |- context [attributeNames ?l] => destruct (attribute_names_spec ∅ l _ eq_refl) as [Hf Hnd] end.
    split; [done|]. eapply Forall_impl; [exact Hf|]. by intros a (? & ? & _).
  - destruct (is_empty (sv_DomainSID (cf_Server c'))) eqn:E; [left; by apply is_empty_spec|right].
    apply is_empty_no, non_empty_spec in E. rewrite E in *. cbn [andb] in *. by apply negb_false_iff.
  - split; [done|]. by apply is_empty_no.
  - rewrite Hd. split; [apply ToLower_ne, or_else_ne, Hdom|apply ToLower_idemp].
Qed.

(** The paths [normalize] resolves. *)
Definition resolved_paths (c : Config) : list string :=
  [db_MasterKeyFile (cf_Database c); ls_CertPath (cf_LDAP c); ls_KeyPath (cf_LDAP c); ls_CertPath (cf_LDAPS c); ls_KeyPath (cf_LDAPS c);
   ls_CertPath (as_Listener (cf_API c)); ls_KeyPath (as_Listener (cf_API c)); cf_BootstrapFile c].

(** The field tagged [env:"-"] is not the environment's. *)
Class SourcesLaws : Prop := { env_path : forall c c', env_Parse c = Some c' -> cf_Path c' = cf_Path c }.

(** C14: a configuration that loads is well-formed: the realm is upper-case and of the form the pattern
    asks for, the domain, the base DN and the zone are lower-case, the names of the key attribute are
    trimmed and differ in more than case, every enabled listener has an address that splits, every TLS
    listener both halves of a pair, the lifetimes, the skew and the datagram bound are in order, the
    password service runs only beside the KDC, and the zone, the container registration and the
    provider have what they need. The realm's own principal parses to the components the KDC looks it up
    by. When the file is named by its whole path, every path next to it is absolute, and filling in
    again changes nothing. *)
Theorem load_wellformed `{!SourcesLaws} (path : string) (checkFiles : bool) (c : Config) :
  load_config path checkFiles = Ok c ->
  config_wf c /\ cf_Path c = path /\
  ParseName (KrbTGTPrincipal c) (sv_Realm (cf_Server c)) = Ok (mkName ["krbtgt"; sv_Realm (cf_Server c)] (sv_Realm (cf_Server c))) /\
  (checkFiles = true -> cf_BootstrapFile c = EmptyString \/ Stat (cf_BootstrapFile c) = true) /\
  (whole_path path -> Forall (settled path) (resolved_paths c) /\ normalize_config c = Ok c).
Proof.
  unfold load_config. intros Hl. run_inv. rename x into c0, x0 into c1, x1 into c. destruct x2.
  match goal with H : env_Parse _ = _ |- _ => apply env_path in H as He end.
  assert (Hp1 : cf_Path c1 = path).
  { destruct (non_empty path) eqn:Ep; [|run_inv; rewrite He; symmetry; by destruct path].
    match goal with H : loadFile _ _ = _ |- _ => unfold loadFile in H end. run_inv. case_match; by run_inv. }
  assert (Hp : cf_Path c = cf_Path c1) by (match goal with H : normalize_config _ = _ |- _ => unfold normalize_config in H end; by run_inv).
  match goal with H : normalize_config _ = _, H' : validate _ _ = _ |- _ => pose proof (validate_wf _ _ _ H H') as Hwf; rename H into Hn, H' into Hv end.
  destruct (cw_realm _ Hwf) as [Hre Hup]. split; [done|]. split; [congruence|]. split; [|split].
  - apply realmRE_chars in Hre as [Hne Hch]. unfold KrbTGTPrincipal. rewrite <- Hup at 4.
    apply (ParseName_plain "krbtgt" [_]); [|done]. constructor; [by vm_compute|]. constructor; [by apply realm_plain|constructor].
  - intros ->. unfold validate in Hv. run_inv. cbn [andb] in *. destruct (cf_BootstrapFile c); [by left|right]. by apply negb_false_iff.
  - intros Hw. rewrite <- Hp1 in Hw. split; [|by eapply normalize_config_idemp]. unfold normalize_config in Hn. run_inv.
    repeat (apply Forall_cons_2; [by apply resolve_settled|]). constructor.
Qed.
End Loaded.

(** ** A configuration from a file *)

Section ConfigSample.
(** Addresses of the form scheme://host/path. *)
#[local] Instance sample_url : UrlLib := {|
  URL := string * string * string;
  url_Parse s := match Cut ":"%char s with
                 | Some (scheme, rest) =>
                     rest ← CutPrefix rest "//";
                     Some (match Cut "/"%char rest with
                           | Some (host, p) => (scheme, host, "/" +:+ p)
                           | None => (scheme, rest, EmptyString)
                           end)
                 | None => None
                 end;
  url_Scheme u := fst (fst u); url_Host u := snd (fst u); url_Path u := snd u; url_Set _ u := u; url_String u := snd u;
  QueryEscape s := s; QueryUnescape := Some |}.

#[local] Instance sample_files : Files := {|
  ReadFile p := if String.eqb p "/etc/ldap-kdc/config.yaml" then Some (bytes_of_string "realm")
                else if String.eqb p "/etc/ldap-kdc/token" then Some (bytes_of_string "s3cret ")
                else if String.eqb p "/etc/ldap-kdc/plan.yaml" then Some [] else None;
  Stat p := String.eqb p "/etc/ldap-kdc/plan.yaml" |}.

(** What the file of the sample says, over whatever was there. *)
Definition sample_overlay (c : Config) : Config := {|
  cf_Debug := cf_Debug c; cf_StructuredLog := cf_StructuredLog c;
  cf_Server := mkServerSection " example.com " "" "" "" "" "" "cn" "ou" [" sshPublicKey"; "sshpublickey"; ""; "ipaSshPubKey"] "" false 1 200000 1000 100000000;
  cf_Database := cf_Database c; cf_LDAP := cf_LDAP c; cf_LDAPS := mkListenerSection true "0.0.0.0:636" true "tls/cert.pem" "/run/key.pem";
  cf_KDC := mkKDCSection true "0.0.0.0:88" (10 * hour) (168 * hour) (5 * minute) ["aes256-cts"; "aes128-cts"] true true true 4096; cf_KPasswd := cf_KPasswd c;
  cf_DNS := mkDNSSection true "0.0.0.0:53" "" [] ["2.0.192.in-addr.arpa"] "KDC.example.com" ["192.0.2.10"] "" hour
              (mkDockerSection true "unix:///var/run/docker.sock" ["bridge"; "172.16.0.0/12"] minute);
  cf_API := mkAPISection (as_Listener (cf_API c)) "" "token" true true "" hour;
  cf_OIDC := mkOIDCSection (mkListenerSection true "127.0.0.1:5557" false "" "") "https://id.example.com" [] (12 * hour) (2 * hour) (5 * minute) hour ""
               [mkOIDCClient "registry" "" "" "" [] []];
  cf_BootstrapFile := "plan.yaml"; cf_Behaviors := cf_Behaviors c; cf_Path := cf_Path c |}.

#[local] Instance sample_sources : Sources := {| env_Parse := Some; yaml_Decode _ c := overlaid (sample_overlay c) |}.
#[local] Instance sample_sources_laws : SourcesLaws.
Proof. split. by intros c c' [= <-]. Qed.

Definition loaded : outcome ConfigErr Config := load_config "/etc/ldap-kdc/config.yaml" true.

Example config_loaded : match loaded with
  | Ok c => (sv_Realm (cf_Server c), sv_BaseDN (cf_Server c), sv_NetBIOSName (cf_Server c)) = ("EXAMPLE.COM", "dc=example,dc=com", "EXAMPLE") /\
      sv_SSHKeyAttrs (cf_Server c) = ["sshPublicKey"; "ipaSshPubKey"] /\ (ds_Zone (cf_DNS c), ds_Hostname (cf_DNS c)) = ("example.com", "kdc.example.com") /\
      as_Token (cf_API c) = "s3cret" /\ db_URL (cf_Database c) = "sqlite:///etc/ldap-kdc/ldap-kdc.db" /\
      ls_CertPath (cf_LDAPS c) = "/etc/ldap-kdc/tls/cert.pem" /\ ls_KeyPath (cf_LDAPS c) = "/run/key.pem"
  | _ => False
  end.
Proof. vm_compute. by split_and!. Qed.

Lemma load_wellformed_witness : exists c, loaded = Ok c /\ config_wf c /\
  ParseName (KrbTGTPrincipal c) "EXAMPLE.COM" = Ok (mkName ["krbtgt"; "EXAMPLE.COM"] "EXAMPLE.COM") /\ Forall (settled "/etc/ldap-kdc/config.yaml") (resolved_paths c).
Proof.
  destruct loaded as [c|e|] eqn:E; [|vm_compute in E; discriminate E..].
  destruct (load_wellformed "/etc/ldap-kdc/config.yaml" true c E) as (Hwf & _ & Hn & _ & Hp).
  assert (Hr : sv_Realm (cf_Server c) = "EXAMPLE.COM") by (vm_compute in E; injection E as <-; reflexivity).
  exists c. split; [reflexivity|]. split; [exact Hwf|]. rewrite Hr in Hn. split; [exact Hn|]. apply Hp. right. reflexivity.
Defined.
End ConfigSample.
