(* ===== verification/Krb5conf.v ===== *)
(** * The client's configuration: package [krb5conf]

    [Render] writes the krb5.conf of the realm from the settings the service runs with. *)

From S2P Require Import Prelude Text Hostport Duration Netip Names Keytab Model IdRange Db Principals PrincipalFacts Zone DockerDns Config ConfigFacts.

Definition nl : ascii := "010"%char.
Definition newline : string := String nl EmptyString.

Record RenderOptions : Type := mkRenderOptions { ro_Host : string; ro_Source : string }.

Inductive RenderErr : Type :=
| re_realm | re_enctypes | re_disabled (name : string) | re_listen (name : string) | re_port (name : string) | re_all_addresses (name : string).

Definition duration (d : Duration) : string :=
  if Z.rem d hour =? 0 then pretty (Z.quot d hour) +:+ "h" else pretty (Z.quot d minute) +:+ "m".

Definition endpoint (listen : string) (enabled : bool) (name host : string) : outcome RenderErr string :=
  _ ← err_if (negb enabled) (re_disabled name);
  '(h, p) ← or_err (re_listen name) (SplitHostPort listen);
  _ ← or_err (re_port name) (Atoi p);
  let h := if non_empty host then host else h in
  _ ← err_if (is_empty h || String.eqb h "0.0.0.0" || String.eqb h "::") (re_all_addresses name);
  Ok (JoinHostPort h p).

(** A line of a section. *)
Definition entry (indent key value : string) : string := indent +:+ key +:+ " = " +:+ value.
Definition four : string := "    ".
Definition eight : string := "        ".

Definition heading (c : Config.Config) (o : RenderOptions) : list string :=
  ["# Kerberos client configuration for the realm " +:+ sv_Realm (cf_Server c) +:+ ", generated by ldap-kdc krb5conf" +:+
     (if is_empty (ro_Source o) then EmptyString else " from " +:+ ro_Source o) +:+ ".";
   if ds_Enabled (cf_DNS c) then "# The KDC and the realm come from the zone's records (SRV and TXT), so there is no [realms] block."
   else "# The KDC and the password service are named below: the name server is not enabled."].

Definition libdefaults (c : Config.Config) : list string :=
  let enc := Join " " (kc_EncTypes (cf_KDC c)) in
  ["[libdefaults]"; entry four "default_realm" (sv_Realm (cf_Server c))] ++
  (if ds_Enabled (cf_DNS c) then [entry four "dns_lookup_realm" "true"; entry four "dns_lookup_kdc" "true"] else []) ++
  [entry four "ticket_lifetime" (duration (kc_MaxTicketLife (cf_KDC c)));
   entry four "renew_lifetime" (duration (kc_MaxRenewableLife (cf_KDC c)));
   entry four "forwardable" "true";
   entry four "default_tkt_enctypes" enc; entry four "default_tgs_enctypes" enc; entry four "permitted_enctypes" enc].

Definition realms (c : Config.Config) (o : RenderOptions) : outcome RenderErr (list string) :=
  if ds_Enabled (cf_DNS c) then Ok []
  else
    kdc ← endpoint (kc_Listen (cf_KDC c)) (kc_Enabled (cf_KDC c)) "kdc.listen" (ro_Host o);
    pw ← (if kps_Enabled (cf_KPasswd c) then
            e ← endpoint (kps_Listen (cf_KPasswd c)) true "kpasswd.listen" (ro_Host o);
            Ok [entry eight "kpasswd_server" e]
          else Ok []);
    Ok ([EmptyString; "[realms]"; entry four (sv_Realm (cf_Server c)) "{"; entry eight "kdc" kdc] ++ pw ++ ["    }"]).

Definition domains (c : Config.Config) : list string :=
  let zone := if ds_Enabled (cf_DNS c) && non_empty (ds_Zone (cf_DNS c)) then [ds_Zone (cf_DNS c)] else [] in
  let domain := if is_empty (sv_Domain (cf_Server c)) then ToLower (sv_Realm (cf_Server c)) else sv_Domain (cf_Server c) in
  if existsb (String.eqb domain) zone then zone else zone ++ [domain].

Definition domain_realm (c : Config.Config) : list string :=
  let realm := sv_Realm (cf_Server c) in
  [EmptyString; "[domain_realm]"] ++ concat ((fun d => [entry four ("." +:+ d) realm; entry four d realm]) <$> domains c).

Definition written (lines : list string) : string := foldr (fun l rest => l +:+ newline +:+ rest) EmptyString lines.

Definition Render (c : Config.Config) (o : RenderOptions) : outcome RenderErr string :=
  _ ← err_if (is_empty (sv_Realm (cf_Server c))) re_realm;
  _ ← err_if (List.length (kc_EncTypes (cf_KDC c)) =? 0)%nat re_enctypes;
  rs ← realms c o;
  Ok (written (heading c o ++ libdefaults c ++ rs ++ domain_realm c)).

(** ** Reading it *)

(** The value of the first entry of a key, whatever its indentation. *)
Definition value_of (key line : string) : option string := CutPrefix (trim_left line) (key +:+ " = ").
Definition setting (key text : string) : option string :=
  head (omap (value_of key) (split_char nl text)).

(** A lifetime in hours or minutes. *)
Definition read_lifetime (s : string) : option Duration :=
  let '(n, unit) := (String.substring 0 (pred (String.length s)) s, String.substring (pred (String.length s)) 1 s) in
  v ← Atoi n;
  if String.eqb unit "h" then Some (v * hour) else if String.eqb unit "m" then Some (v * minute) else None.

Example lifetimes : duration (10 * hour) = "10h" /\ duration (10 * hour + 30 * minute) = "630m" /\ duration (90 * second) = "1m" /\ duration (59 * second) = "0m" /\
  read_lifetime "630m" = Some (630 * minute).
Proof. vm_compute. by split_and!. Qed.

(** What is written for a lifetime is it to the minute below. *)
Lemma duration_read d : 0 <= d <= max_int64 -> exists v, read_lifetime (duration d) = Some v /\ v <= d < v + minute.
Proof.
  intros Hd. assert (Hread : forall n u, min_int64 <= n <= max_int64 -> u = "h" \/ u = "m" ->
    read_lifetime (pretty n +:+ u) = Some (n * (if String.eqb u "h" then hour else minute))).
  { intros n u Hn Hu. unfold read_lifetime. assert (Hl : pred (String.length (pretty n +:+ u)) = String.length (pretty n)).
    { rewrite length_app_string. destruct Hu as [-> | ->]; cbn; lia. }
    rewrite Hl, substring_prefix.
    replace (String.substring (String.length (pretty n)) 1 (pretty n +:+ u)) with u.
    2: { symmetry. replace 1%nat with (String.length u) by (by destruct Hu as [-> | ->]). apply substring_suffix. }
    rewrite Atoi_pretty by done. cbn [mbind option_bind]. by destruct Hu as [-> | ->]. }
  unfold duration. assert (Hh : 0 < hour /\ 0 < minute /\ max_int64 = 9223372036854775807 /\ min_int64 = -9223372036854775808) by done. destruct Hh as (Hh & Hm & Emax & Emin).
  rewrite Z.rem_mod_nonneg, !Z.quot_div_nonneg by lia. destruct (Z.eqb_spec (d mod hour) 0) as [E|E].
  - exists (d / hour * hour). rewrite Hread; [|pose proof (Z.div_le_upper_bound d hour d); pose proof (Z.div_pos d hour); nia|by left]. split; [done|].
    pose proof (Z.div_mod d hour). lia.
  - exists (d / minute * minute). rewrite Hread; [|pose proof (Z.div_le_upper_bound d minute d); pose proof (Z.div_pos d minute); nia|by right]. split; [done|].
    pose proof (Z.div_mod d minute). pose proof (Z.mod_pos_bound d minute). lia.
Qed.

(** ** What the client reads is what the service does *)

Definition one_line (s : string) : Prop := contains_char nl s = false.

Lemma split_written lines : Forall one_line lines -> split_char nl (written lines) = lines ++ [EmptyString].
Proof.
  induction 1 as [|l lines Hl Hf IH]; [done|]. cbn [written foldr]. change (l +:+ newline +:+ written lines = ?x) with (l +:+ String nl (written lines) = x).
  change (foldr _ _ lines) with (written lines). change (newline +:+ written lines) with (String nl (written lines)). by rewrite split_char_app, IH.
Qed.

Lemma value_entry indent key v : all_chars is_space indent = true -> no_leading_space key -> key <> EmptyString -> value_of key (entry indent key v) = Some v.
Proof.
  intros Hi Hk Hne. unfold value_of, entry. assert (Ht : trim_left (indent +:+ key +:+ " = " +:+ v) = key +:+ " = " +:+ v).
  { induction indent as [|c indent IH].
    - apply trim_left_id. by destruct key.
    - cbn [all_chars] in Hi. apply andb_true_iff in Hi as [Hc Hi]. rewrite string_app_cons. cbn [trim_left]. rewrite Hc. by apply IH. }
  rewrite Ht, <- string_app_assoc. apply CutPrefix_app.
Qed.

Lemma head_skip {A B} (f : A -> option B) l ls : f l = None -> head (omap f (l :: ls)) = head (omap f ls).
Proof. intros E. cbn. by rewrite E. Qed.
Lemma head_hit {A B} (f : A -> option B) l ls v : f l = Some v -> head (omap f (l :: ls)) = Some v.
Proof. intros E. cbn. by rewrite E. Qed.

(** Down the lines to the one of the key. *)
Ltac find_line := repeat rewrite head_skip by (vm_compute; reflexivity); apply head_hit; by apply value_entry.

(** The realm is upper-case, the keys are not. *)
Lemma value_realm realm v : all_chars realm_inner realm = true -> realm <> EmptyString -> value_of "kdc" (entry four realm v) = None.
Proof.
  destruct realm as [|c realm]; [done|]. cbn [all_chars]. intros [Hc _]%andb_true_iff _.
  destruct c as [[] [] [] [] [] [] [] []]; first [discriminate Hc | reflexivity].
Qed.

(** What [endpoint] returns, taken apart. *)
Lemma endpoint_Ok listen enabled name host e : endpoint listen enabled name host = Ok e ->
  contains_char "["%char host = false -> contains_char "]"%char host = false ->
  exists h p, enabled = true /\ SplitHostPort listen = Some (h, p) /\ SplitHostPort e = Some (or_else host h, p) /\ or_else host h ∉ [EmptyString; "0.0.0.0"; "::"].
Proof.
  intros Hr Hb1 Hb2. unfold endpoint in Hr. run_inv. destruct x0 as [h p]. run_inv. exists h, p. split; [by apply negb_false_iff|]. split; [done|].
  match goal with H : SplitHostPort _ = _ |- _ => apply SplitHostPort_chars in H as ([? ?] & ? & ? & ?) end.
  assert (Eh : (if non_empty host then host else h) = or_else host h) by (by destruct host). rewrite Eh in *. split.
  - apply SplitHostPort_JoinHostPort; try done; unfold or_else; by destruct (is_empty host).
  - match goal with H : _ || _ || _ = false |- _ => apply orb_false_iff in H as [[E1%is_empty_no E2%String.eqb_neq]%orb_false_iff E3%String.eqb_neq] end. set_solver.
Qed.

Definition one_word (s : string) : Prop := one_line s /\ contains_char " "%char s = false.

(** What goes into the file is of one line each, the enctypes of one word. *)
Record printable (c : Config.Config) (o : RenderOptions) : Prop := {
  pn_source : one_line (ro_Source o);
  pn_host : one_line (ro_Host o) /\ contains_char "["%char (ro_Host o) = false /\ contains_char "]"%char (ro_Host o) = false;
  pn_listen : one_line (kc_Listen (cf_KDC c)) /\ one_line (kps_Listen (cf_KPasswd c));
  pn_names : one_line (ds_Zone (cf_DNS c)) /\ one_line (sv_Domain (cf_Server c));
  pn_enctypes : Forall one_word (kc_EncTypes (cf_KDC c));
}.

Lemma one_line_app s t : one_line s -> one_line t -> one_line (s +:+ t).
Proof. unfold one_line. intros H1 H2. by rewrite contains_char_app, H1. Qed.
Lemma one_line_Join ws : Forall one_line ws -> one_line (Join " " ws).
Proof.
  induction 1 as [|w ws Hw Hf IH]; [done|]. destruct ws as [|v ws]; [done|].
  change (Join " " (w :: v :: ws)) with (w +:+ " " +:+ Join " " (v :: ws)). repeat apply one_line_app; [done|done|exact IH].
Qed.
Lemma one_line_entry i k v : one_line i -> one_line k -> one_line v -> one_line (entry i k v).
Proof. intros. unfold entry. repeat apply one_line_app; done. Qed.
Lemma one_line_duration d : one_line (duration d).
Proof. unfold duration. destruct (_ =? 0); apply one_line_app; try done; apply pretty_Z_no_char; done. Qed.
Lemma one_line_endpoint listen enabled name host e : endpoint listen enabled name host = Ok e -> one_line listen -> one_line host -> one_line e.
Proof.
  intros Hr Hl Hh. unfold endpoint in Hr. run_inv. destruct x0 as [h p]. run_inv.
  match goal with H : SplitHostPort _ = _ |- _ => rename H into Hs end. unfold SplitHostPort in Hs.
  destruct (CutLast ":"%char listen) as [[b q]|] eqn:El; [|done]. apply CutLast_Some in El as [Es _]. cbn [mbind option_bind] in Hs.
  unfold one_line in *. rewrite Es, contains_char_app in Hl. apply orb_false_iff in Hl as [Hb Hq]. cbn in Hq.
  assert (Hhp : contains_char nl h = false /\ contains_char nl p = false).
  { destruct (decide (h = b /\ p = q)) as [[-> ->]|Hne]; [done|]. destruct listen as [|ch rest]; [by destruct b|].
    destruct (Ascii.eqb_spec ch "["%char) as [->|Hc].
    - destruct (Cut "]"%char rest) as [[inside after]|] eqn:Ec; [|done]. cbn [mbind option_bind] in Hs.
      destruct (String.eqb_spec b ("[" +:+ inside +:+ "]")) as [->|]; [|done]. cbn [andb] in Hs. destruct (negb _ && negb _) in Hs; [|done]. injection Hs as -> ->.
      split; [|done]. rewrite !contains_char_app in Hb. apply orb_false_iff in Hb as [_ Hb]. by apply orb_false_iff in Hb as [? _].
    - destruct ch as [[] [] [] [] [] [] [] []]; try (by destruct Hc); destruct (contains_char ":"%char b || _ || _) in Hs; simplify_eq; by destruct Hne. }
  destruct Hhp as [Hnh Hnp]. unfold JoinHostPort. assert (Hif : contains_char nl (if non_empty host then host else h) = false) by (by destruct (non_empty host)).
  set (hh := if non_empty host then host else h) in *. destruct (contains_char ":"%char hh); rewrite !contains_char_app, Hif, Hnp; done.
Qed.

Lemma realms_lines c o rs : printable c o -> one_line (sv_Realm (cf_Server c)) -> realms c o = Ok rs -> Forall one_line rs.
Proof.
  intros Hp Hr Hrs. unfold realms in Hrs. destruct (ds_Enabled (cf_DNS c)); [run_inv; constructor|]. run_inv.
  destruct (pn_listen _ _ Hp) as [Hk Hw]. destruct (pn_host _ _ Hp) as [Hh _].
  match goal with H : endpoint (kc_Listen _) _ _ _ = _ |- _ => apply one_line_endpoint in H as He; [|done..] end.
  apply Forall_app. split; [repeat constructor; try done; apply one_line_entry; done|]. apply Forall_app. split; [|by repeat constructor].
  destruct (kps_Enabled (cf_KPasswd c)); run_inv; [|constructor].
  match goal with H : endpoint (kps_Listen _) _ _ _ = _ |- _ => apply one_line_endpoint in H; [|done..] end. repeat constructor. by apply one_line_entry.
Qed.

Lemma rendered_lines c o rs : printable c o -> one_line (sv_Realm (cf_Server c)) -> realms c o = Ok rs ->
  Forall one_line (heading c o ++ libdefaults c ++ rs ++ domain_realm c).
Proof.
  intros Hp Hr Hrs. pose proof (realms_lines _ _ _ Hp Hr Hrs) as Hlr. destruct (pn_names _ _ Hp) as [Hz Hd].
  assert (Henc : one_line (Join " " (kc_EncTypes (cf_KDC c)))) by (apply one_line_Join; eapply Forall_impl; [apply (pn_enctypes _ _ Hp)|]; by intros w [? _]).
  repeat (apply Forall_app; split).
  - repeat constructor; [|by destruct (ds_Enabled _)]. repeat apply one_line_app; try done. destruct (is_empty _); [done|]. apply one_line_app; [done|apply Hp].
  - repeat constructor; by apply one_line_entry.
  - destruct (ds_Enabled _); repeat constructor.
  - repeat constructor; apply one_line_entry; try done; apply one_line_duration.
  - done.
  - repeat constructor.
  - assert (Hds : Forall one_line (domains c)).
    { unfold domains. assert (Hdom : one_line (if is_empty (sv_Domain (cf_Server c)) then ToLower (sv_Realm (cf_Server c)) else sv_Domain (cf_Server c))).
      { destruct (is_empty _); [|done]. unfold one_line. clear -Hr. unfold one_line in Hr. induction (sv_Realm (cf_Server c)) as [|ch s IH]; [done|].
        change (ToLower (String ch s)) with (String (lower_ascii ch) (ToLower s)). cbn [contains_char] in Hr |- *. apply orb_false_iff in Hr as [Hc0 Hs0]. rewrite IH by done. by destruct ch as [[] [] [] [] [] [] [] []]. }
      destruct (existsb _ _); [|apply Forall_app; split; [|by repeat constructor]]; destruct (_ && _); by repeat constructor. }
    induction Hds as [|d ds Hd0 _ IH]; [constructor|]. cbn. repeat (constructor; [by repeat apply one_line_app|]). exact IH.
Qed.


Section RenderSample.
#[local] Existing Instance sample_url.
#[local] Existing Instance sample_files.
#[local] Existing Instance sample_sources.

(** The configuration of the sample without its name server. *)
Definition nameless (c : Config.Config) : Config.Config :=
  mkConfig (cf_Debug c) (cf_StructuredLog c) (cf_Server c) (cf_Database c) (cf_LDAP c) (cf_LDAPS c) (cf_KDC c) (cf_KPasswd c)
    (mkDNSSection false "" (ds_Zone (cf_DNS c)) [] [] "" [] "" hour (mkDockerSection false "" [] 0))
    (cf_API c) (cf_OIDC c) (cf_BootstrapFile c) (cf_Behaviors c) (cf_Path c).
Definition client_conf : Config.Config := nameless (match loaded with Ok c => c | _ => default_config end).
Definition client_options : RenderOptions := mkRenderOptions "kdc.example.com" "/etc/ldap-kdc/config.yaml".

End RenderSample.

