(* ===== verification/Vault.v ===== *)
(** * Certificates from Vault: package [vaultpki]

    One enrollment with the requests it sends, the manager with the loop it runs in a goroutine of
    its own, and how long that loop sleeps. The loop, [Configure] and [Stop] interleave: the steps of
    the system are their critical sections. *)

From S2P Require Import Prelude Text Hostport Duration Base64 Netip.

(** ** Configuration *)

Record VaultConfig : Type := mkVaultConfig {
  vc_Address : string;
  vc_Plaintext : bool;
  vc_Principal : string;
  vc_ServicePrincipal : string;
  vc_PKIPath : string;
  vc_Role : string;
  vc_CommonName : string;
  vc_DNSNames : list string;
  vc_IPs : list Addr;
  vc_TTL : Duration;
  vc_RenewBefore : Duration;
  vc_RetryInterval : Duration;
}.

Definition defaultTTL : Duration := 720 * hour.
Definition defaultRenewBefore : Duration := 24 * hour.
Definition defaultRetryInterval : Duration := 5 * second.
Definition minRenewDelay : Duration := 10 * second.

(** The loop that takes the slashes off the end. *)
Definition trim_slashes (s : string) : string :=
  let fix strip (r : string) := match r with String "/" r' => strip r' | _ => r end in
  string_rev (strip (string_rev s)).

Definition or_default (s d : string) : string := if is_empty s then d else s.
Definition positive_or (d fallback : Duration) : Duration := if d <=? 0 then fallback else d.

Definition defaults (c : VaultConfig) : VaultConfig := {|
  vc_Address := trim_slashes (vc_Address c); vc_Plaintext := vc_Plaintext c; vc_Principal := vc_Principal c;
  vc_ServicePrincipal := vc_ServicePrincipal c; vc_PKIPath := or_default (vc_PKIPath c) "pki";
  vc_Role := or_default (vc_Role c) "ldaps"; vc_CommonName := vc_CommonName c; vc_DNSNames := vc_DNSNames c;
  vc_IPs := vc_IPs c; vc_TTL := positive_or (vc_TTL c) defaultTTL;
  vc_RenewBefore := positive_or (vc_RenewBefore c) defaultRenewBefore;
  vc_RetryInterval := positive_or (vc_RetryInterval c) defaultRetryInterval |}.

(** [CheckAddress]: whether there is no error. *)
Definition CheckAddress `{UrlLib} (c : VaultConfig) : bool :=
  match url_Parse (vc_Address c) with
  | None => false
  | Some u =>
      if is_empty (url_Host u) then false
      else if String.eqb (url_Scheme u) "https" then true
      else String.eqb (url_Scheme u) "http" && vc_Plaintext c
  end.

(** How long the loop sleeps after an enrollment; the products wrap as int64 does. *)
Definition renewDelay (notAfter : Time) (renewBefore : Duration) (now : Time) : Duration :=
  let remaining := Sub notAfter now in
  let d := swrap 64 (remaining - renewBefore) in
  if minRenewDelay <=? d then d
  else
    let d := Z.quot (swrap 64 (remaining * 2)) 3 in
    if minRenewDelay <=? d then d else minRenewDelay.

(** ** One enrollment *)

(** A request to Vault: where to, the header that carries a secret, and the body. *)
Record VaultRequest : Type := mkVaultRequest { vr_url : string; vr_header : string * string; vr_body : bytes }.

(** The answer of [loginKerberos] and of [signCSR] as [encoding/json] reads it, [crypto/ecdsa] with
    [crypto/x509] and [crypto/tls], the Kerberos client behind [tokenSource], and the network. The
    first argument of what is not a function of its arguments alone numbers the call. *)
Class VaultLib : Type := {
  TlsCertificate : Type;
  PKey : Type;
  Leaf_NotAfter : TlsCertificate -> Time;
  tokenSource : nat -> VaultConfig -> option bytes;
  http_Do : nat -> VaultRequest -> option (Z * bytes);
  login_answer : bytes -> option string;
  sign_body : bytes -> string -> string -> option bytes;
  sign_answer : bytes -> option (string * string);
  GenerateKey : nat -> option PKey;
  CreateCSR : VaultConfig -> PKey -> option bytes;
  X509KeyPair : string -> PKey -> option TlsCertificate;
}.

Section Enroll.
Context `{Ul : UrlLib, Vl : VaultLib}.

(** A computation that sends requests: those it sent, in order. *)
Abbreviation V := (M (list VaultRequest) unit).

(** [do]: an answer of 2xx, read. *)
Definition vault_do {A} (n : nat) (req : VaultRequest) (dst : bytes -> option A) : V A :=
  _ ← (fun sent => (Ok tt, sent ++ [req]));
  '(status, raw) ← lift (or_err tt (http_Do n req));
  _ ← throw_if ((status <? 200) || (299 <? status)) tt;
  lift (or_err tt (dst raw)).

Definition loginKerberos (n : nat) (address : string) (spnegoToken : bytes) : V string :=
  token ← vault_do n
    (mkVaultRequest (address +:+ "/v1/auth/kerberos/login")
       ("Authorization", "Negotiate " +:+ EncodeToString StdEncoding spnegoToken) (bytes_of_string "{}")) login_answer;
  _ ← throw_if (is_empty token) tt;
  mret token.

Definition signCSR (n : nat) (address token pkiPath role : string) (csr : bytes) (commonName : string) (ttl : Duration) : V string :=
  body ← lift (or_err tt (sign_body csr commonName (Duration_String ttl)));
  '(certificate, issuingCA) ← vault_do n
    (mkVaultRequest (address +:+ "/v1/" +:+ pkiPath +:+ "/sign/" +:+ role) ("X-Vault-Token", token) body) sign_answer;
  _ ← throw_if (is_empty certificate) tt;
  let nl := String (ascii_of_nat 10) EmptyString in
  let ca := TrimSpace issuingCA in
  mret (TrimSpace certificate +:+ nl +:+
        (if non_empty ca && negb (String.eqb ca (TrimSpace certificate)) then ca +:+ nl else EmptyString)).

Definition Enroll (n : nat) (c : VaultConfig) : V TlsCertificate :=
  let c := defaults c in
  _ ← throw_if (negb (CheckAddress c)) tt;
  token ← lift (or_err tt (tokenSource n c));
  clientToken ← loginKerberos n (vc_Address c) token;
  key ← lift (or_err tt (GenerateKey n));
  csr ← lift (or_err tt (CreateCSR c key));
  certPEM ← signCSR n (vc_Address c) clientToken (vc_PKIPath c) (vc_Role c) csr (vc_CommonName c) (vc_TTL c);
  lift (or_err tt (X509KeyPair certPEM key)).
End Enroll.

(** ** The manager *)

(** [Manager], and the certificate its holder serves with the configuration it was enrolled under. *)
Record Manager : Type := mkManager {
  m_cfg : option VaultConfig;
  m_enrolled : bool;
  m_notAfter : Time;
  m_lastErr : string;
  m_attempts : Z;
  m_cert : option (VaultConfig * Time);
}.

Definition NewManager : Manager := mkManager None false zeroTime EmptyString 0 None.

Record VaultStatus : Type := mkVaultStatus {
  vs_Configured : bool; vs_Enrolled : bool; vs_NotAfter : Time; vs_LastError : string; vs_Attempts : Z }.

Definition Status_vault (m : Manager) : VaultStatus :=
  mkVaultStatus (bool_decide (is_Some (m_cfg m))) (m_enrolled m) (m_notAfter m) (m_lastErr m) (m_attempts m).

(** What [Configure] and [Stop] record once the loop before has left. *)
Definition Configure (c : VaultConfig) (m : Manager) : Manager :=
  mkManager (Some (defaults c)) false (m_notAfter m) EmptyString (m_attempts m) (m_cert m).
Definition Stop (m : Manager) : Manager :=
  mkManager None false zeroTime EmptyString (m_attempts m) (m_cert m).

(** One round of [run]: the result of an enrollment recorded, a certificate handed to the holder; and
    how long the loop then waits. *)
Definition run_round (c : VaultConfig) (now : Time) (result : outcome string Time) (m : Manager) : Manager * Duration :=
  match result with
  | Ok notAfter =>
      (mkManager (m_cfg m) true notAfter EmptyString (m_attempts m + 1) (Some (c, notAfter)), renewDelay notAfter (vc_RenewBefore c) now)
  | Err e => (mkManager (m_cfg m) (m_enrolled m) (m_notAfter m) e (m_attempts m + 1) (m_cert m), vc_RetryInterval c)
  | Panic => (m, 0)
  end.

(** ** The loop beside its callers *)

Inductive lifecycle_call : Type := by_configure (c : VaultConfig) | by_stop.

(** The goroutines: every loop alive, with its configuration and whether its context is cancelled;
    [v_current] is the loop [m.cancel] and [m.done] belong to; [v_lifecycle] is who holds the mutex
    [lifecycle], and the loop whose [done] it waits for. *)
Record VSystem : Type := mkVSystem {
  v_manager : Manager;
  v_loops : gmap nat (VaultConfig * bool);
  v_current : option nat;
  v_lifecycle : option (lifecycle_call * option nat);
  v_next : nat;
}.

Definition cancel_loop (id : option nat) (loops : gmap nat (VaultConfig * bool)) : gmap nat (VaultConfig * bool) :=
  match id with Some i => alter (fun l => (fst l, true)) i loops | None => loops end.

Definition has_left (id : option nat) (loops : gmap nat (VaultConfig * bool)) : Prop :=
  match id with Some i => loops !! i = None | None => True end.

Inductive vstep : VSystem -> VSystem -> Prop :=
| vs_stop_loop m loops cur who next :
    (* the mutex is free: [stopLoop] takes [cancel] and [done] away, and cancels *)
    vstep (mkVSystem m loops cur None next) (mkVSystem m (cancel_loop cur loops) None (Some (who, cur)) next)
| vs_configured c m loops cur waits next :
    (* [done] is closed: [Configure] records and starts the loop *)
    has_left waits loops ->
    vstep (mkVSystem m loops cur (Some (by_configure c, waits)) next)
          (mkVSystem (Configure c m) (<[next := (defaults c, false)]> loops) (Some next) None (S next))
| vs_stopped m loops cur waits next :
    has_left waits loops ->
    vstep (mkVSystem m loops cur (Some (by_stop, waits)) next) (mkVSystem (Stop m) loops cur None next)
| vs_round i c cancelled m loops cur life next now result :
    (* an enrollment came back; a loop that is cancelled and failed records nothing *)
    loops !! i = Some (c, cancelled) -> result <> Panic -> (cancelled = true -> exists t, result = Ok t) ->
    vstep (mkVSystem m loops cur life next) (mkVSystem (fst (run_round c now result m)) loops cur life next)
| vs_leave i c m loops cur life next :
    loops !! i = Some (c, true) ->
    vstep (mkVSystem m loops cur life next) (mkVSystem m (delete i loops) cur life next).

Definition v_init : VSystem := mkVSystem NewManager ∅ None None 0.

(** ** What is proved *)

(** The loop alive, if any, runs the recorded configuration; it is the current one, or the one the
    holder of the mutex waits for. *)
Record vault_ok (s : VSystem) : Prop := {
  vo_loop i c b : v_loops s !! i = Some (c, b) ->
    (i < v_next s)%nat /\ m_cfg (v_manager s) = Some c /\
    match v_lifecycle s with
    | None => v_current s = Some i /\ b = false
    | Some (_, waits) => waits = Some i
    end;
  vo_held who waits : v_lifecycle s = Some (who, waits) -> v_current s = None;
  vo_enrolled : m_enrolled (v_manager s) = true ->
    exists c, m_cfg (v_manager s) = Some c /\ m_cert (v_manager s) = Some (c, m_notAfter (v_manager s));
}.

Lemma vstep_ok s s' : vstep s s' -> vault_ok s -> vault_ok s'.
Proof.
  intros Hstep [Hl Hh He]. destruct Hstep as [m loops cur who next|c m loops cur waits next Hleft|
    m loops cur waits next Hleft|i c cancelled m loops cur life next now result Hi Hp Hc|i c m loops cur life next Hi];
    cbn in *.
  - split; cbn; [|naive_solver|done]. intros i c b Hi. destruct cur as [j|]; cbn in Hi.
    + apply lookup_alter_Some in Hi as [(-> & [c' b'] & Hi & E)|[_ Hi]].
      * injection E as -> ->. destruct (Hl _ _ _ Hi) as (? & ? & ? & _). done.
      * destruct (Hl _ _ _ Hi) as (? & ? & ? & _). done.
    + destruct (Hl _ _ _ Hi) as (? & ? & ? & _). done.
  - split; cbn; [|done|done]. intros i c' b Hi. apply lookup_insert_Some in Hi as [[<- E]|[Hne Hi]].
    + injection E as <- <-. split_and!; [lia|done..].
    + destruct (Hl _ _ _ Hi) as (_ & _ & Hw). subst waits. cbn in Hleft. congruence.
  - split; cbn; [|done|done]. intros i c b Hi. destruct (Hl _ _ _ Hi) as (_ & _ & Hw). subst waits. cbn in Hleft. congruence.
  - destruct (Hl _ _ _ Hi) as (_ & Hcfg & _). destruct result as [t|e|]; [| |done]; cbn.
    + split; cbn; [done|done|]. intros _. by exists c.
    + split; cbn; done.
  - split; cbn; [|done|done]. intros j c' b Hj. apply lookup_delete_Some in Hj as [_ Hj]. by apply Hl.
Qed.

Lemma vsteps_ok s : rtc vstep v_init s -> vault_ok s.
Proof.
  intros Hr. assert (H0 : vault_ok v_init) by (split; cbn; [intros i c b; by rewrite lookup_empty|done|done]).
  induction Hr; eauto using vstep_ok.
Qed.


(** The loop never sleeps less than the floor, so it never spins; and when more than the floor
    is left it wakes before the certificate it enrolled expires. *)
Lemma renewDelay_bounds (notAfter now : Time) (renewBefore : Duration) :
  0 < renewBefore <= max_int64 ->
  minRenewDelay <= renewDelay notAfter renewBefore now /\
  (minRenewDelay <= notAfter - now -> renewDelay notAfter renewBefore now <= notAfter - now).
Proof.
  intros Hb. unfold renewDelay. set (rem := Sub notAfter now). split.
  - repeat case_if; simp_bool; lia.
  - intros Hpos. assert (Hrem : minRenewDelay <= rem <= notAfter - now /\ rem <= max_int64).
    { unfold rem, Sub, minRenewDelay, second, min_int64, max_int64 in *. lia. }
    destruct Hrem as [Hrem Hmax]. unfold max_int64, minRenewDelay, second in *. case_if; simp_bool.
    + rewrite swrap_small by lia. lia.
    + case_if; simp_bool; [|lia]. destruct (Z.lt_ge_cases (rem * 2) (2 ^ 63)) as [Hs|Hs].
      * rewrite swrap_small by lia. rewrite Z.quot_div_nonneg by lia.
        assert (rem * 2 / 3 <= rem) by (apply Z.div_le_upper_bound; lia). lia.
      * exfalso. assert (E : swrap 64 (rem * 2) = rem * 2 - 2 ^ 64).
        { unfold swrap. replace (rem * 2 + 2 ^ (64 - 1)) with (rem * 2 - 2 ^ 63 + 1 * 2 ^ 64) by lia.
          rewrite Z.mod_add, Z.mod_small by lia. lia. }
        rewrite E in *. assert (Z.quot (rem * 2 - 2 ^ 64) 3 <= 0) by (apply Z.quot_le_upper_bound; lia). lia.
Qed.

Section Confidential.
Context `{Ul : UrlLib, Vl : VaultLib}.

(** Requests that only add to those sent, all of one kind. *)
Definition sends {A} (P : VaultRequest -> Prop) (m : M (list VaultRequest) unit A) : Prop :=
  forall sent r sent', m sent = (r, sent') -> exists more, sent' = sent ++ more /\ Forall P more.

Lemma sends_bind {A B} P (m : M (list VaultRequest) unit A) (f : A -> M (list VaultRequest) unit B) :
  sends P m -> (forall a, sends P (f a)) -> sends P (x ← m; f x).
Proof.
  intros Hm Hf sent r sent'. unfold mbind, M_bind. destruct (m sent) as [res s1] eqn:E.
  destruct (Hm _ _ _ E) as (more & -> & Hmore). destruct res as [a|e|]; [|intros [= <- <-]; eauto..].
  intros Hrun. destruct (Hf a _ _ _ Hrun) as (more' & -> & Hmore'). exists (more ++ more'). split; [by rewrite app_assoc|].
  by apply Forall_app.
Qed.
Lemma sends_lift {A} P (o : outcome unit A) : sends P (lift o).
Proof. intros sent r sent' [= <- <-]. exists []. by rewrite app_nil_r. Qed.
Lemma sends_ret {A} P (a : A) : sends P (mret a).
Proof. intros sent r sent' [= <- <-]. exists []. by rewrite app_nil_r. Qed.
Lemma sends_throw_if P b : sends P (throw_if b tt).
Proof. apply sends_lift. Qed.

Lemma sends_do {A} (P : VaultRequest -> Prop) n req (dst : bytes -> option A) : P req -> sends P (vault_do n req dst).
Proof.
  intros HP. unfold vault_do. apply sends_bind.
  - intros sent r sent' [= <- <-]. exists [req]. by rewrite Forall_singleton.
  - intros _. apply sends_bind; [apply sends_lift|]. intros [status raw]. apply sends_bind; [apply sends_throw_if|].
    intros _. apply sends_lift.
Qed.

End Confidential.

(** ** Samples *)

(** After a second [Configure] the status reports the end of validity of a certificate it no longer
    counts as enrolled, where [Stop] forgets it. *)
Example stale_not_after (c c' : VaultConfig) (now t : Time) :
  let m := fst (run_round (defaults c) now (Ok t) (Configure c NewManager)) in
  Status_vault (Configure c' m) = mkVaultStatus true false t EmptyString 1 /\
  Status_vault (Stop m) = mkVaultStatus false false zeroTime EmptyString 1.
Proof. done. Qed.

Section VaultSample.
Definition vault_config (address : string) : VaultConfig :=
  mkVaultConfig address false "ldap-kdc" EmptyString EmptyString "ldaps" "ldap.example.com" [] [] 0 0 0.


Lemma renewDelay_bounds_witness :
  renewDelay (UnixTime 100) (24 * hour) 0 <= UnixTime 100 - 0 /\ renewDelay (UnixTime 100) (24 * hour) 0 = 66666666666.
Proof.
  split; [|reflexivity]. apply (renewDelay_bounds (UnixTime 100) 0 (24 * hour)); [split; reflexivity || (intros H; discriminate H)|].
  intros H; discriminate H.
Defined.

#[local] Instance vault_url : UrlLib := {|
  URL := string * string;
  url_Parse s := match CutPrefix s "https://" with Some h => Some ("https", h)
                 | None => match CutPrefix s "http://" with Some h => Some ("http", h) | None => None end end;
  url_Scheme := fst; url_Host := snd; url_Path _ := EmptyString; url_Set _ u := u; url_String u := fst u +:+ "://" +:+ snd u;
  QueryEscape s := s; QueryUnescape s := Some s |}.

#[local] Instance vault_lib : VaultLib := {|
  TlsCertificate := string; PKey := nat; Leaf_NotAfter _ := 0; tokenSource _ _ := Some [Byte.x01];
  http_Do _ _ := Some (200, []); login_answer _ := Some "s.1"; sign_body _ _ _ := Some []; sign_answer _ := Some ("PEM", "PEM");
  GenerateKey n := Some n; CreateCSR _ _ := Some []; X509KeyPair pem _ := Some pem |}.


(** Over plain http nothing is sent. *)
Example plain_http_refused : Enroll 0 (vault_config "http://vault") [] = (Err tt, []).
Proof. reflexivity. Qed.
End VaultSample.
