(* ===== verification/Api.v ===== *)
(** * The management API: package [api], sign-in and sessions (auth.go, server.go)

    What a request and a reply are, the state the handlers run in, the helpers they share, and who
    may use the interface: the sign-in with a password or a ticket, the session token, and the check
    of every request. An early return of a handler is a reply thrown. *)

From S2P Require Import Prelude Text Hostport Duration Names Keytab Failban Replay Model Secret IdRange Db Principals Directory Accounts Certs Zone LdapEntries Ldap Sasl Jws Vault.

(** ** Requests and replies *)

(** The path is split at its slashes and decoded, as the library's multiplexer does. *)
Record ApiReq : Type := mkApiReq {
  aq_Method : string;
  aq_Path : list string;
  aq_Query : Values;
  aq_Authorization : string;
  aq_RemoteAddr : string;
  aq_Body : bytes;
}.

Record certificateBody : Type := mkCertificateBody {
  cb_Issuer : string; cb_Serial : string; cb_Subject : string;
  cb_NotBefore : Time; cb_NotAfter : Time; cb_CreatedAt : Time }.

Record statsBody : Type := mkStatsBody {
  sb_Realm : string; sb_Total : Z; sb_Disabled : Z; sb_WithoutPassword : Z;
  sb_Groups : Z; sb_Principals : Z; sb_Trusts : Z; sb_EncTypes : list string }.

(** What [principalBody] adds when a single principal is read. *)
Record principalDetail : Type := mkPrincipalDetail {
  pd_EncTypes : list string; pd_MaxTicketLife : string; pd_MaxRenewableLife : string; pd_KrbTicketFlags : Z }.

Inductive ApiBody : Type :=
| rb_empty
| rb_error (text : string)
| rb_status (status realm reason : string)
| rb_stats (b : statsBody)
| rb_session (token subject method : string) (expiresAt : Time)
| rb_whoami (subject method : string) (expiresAt : option Time)
| rb_users (us : list User)
| rb_user (u : User) (dn : string) (ps : list Principal)
| rb_passwordSet (mustChange : bool)
| rb_appPasswords (aps : list AppPassword)
| rb_appPassword (ap : AppPassword) (password : string)
| rb_groups (gs : list Group)
| rb_group (g : Group)
| rb_members (names : list string)
| rb_principals (ps : list Principal)
| rb_principal (p : Principal) (detail : option principalDetail)
| rb_keytab (filename : string) (blob : bytes)
| rb_records (rs : list DNSRecord) (zones : list string)
| rb_record (r : DNSRecord)
| rb_trusts (ts : list Trust)
| rb_trust (t : Trust)
| rb_certificates (cs : list certificateBody)
| rb_certificate (c : certificateBody)
| rb_vault (s : VaultStatus)
| rb_document.

(** The status, whether a challenge goes with it, and the body. *)
Record ApiReply : Type := mkApiReply { re_status : Z; re_challenge : bool; re_body : ApiBody }.

Definition writeJSON (status : Z) (body : ApiBody) : ApiReply := mkApiReply status false body.

(** [writeError]: the text without the values a format puts into it. *)
Definition writeError (status : Z) (text : string) : ApiReply := writeJSON status (rb_error text).

Definition writeStoreError (e : StoreErr) : ApiReply :=
  match e with
  | ErrNotFound => writeError 404 "not found"
  | ErrConflict => writeError 409 "already exists"
  | ErrInvalidAttribute => writeError 400 "invalid attribute"
  | _ => writeError 500 "store"
  end.

Definition challenge (message : string) : ApiReply := mkApiReply 401 true (rb_error message).

(** ** Configuration and state *)

Record ApiConfig : Type := mkApiConfig {
  apc_Realm : string;
  apc_EncTypes : list Z;
  apc_Token : string;
  apc_BaseDN : string;
  apc_NameFormat : string;
  apc_GroupFormat : string;
  apc_SPN : string;
  apc_SessionLifetime : Duration;
  apc_Limits : Failban.Config;
  apc_UI : bool;
  apc_Docs : bool;
  apc_MinPasswordLength : Z;
  apc_DNSZones : list string;
  apc_DNSDefaultTTL : Z;
  apc_HashCost : Z;
}.

(** The store, the limiter it shares with the LDAP front end, and the enrollment manager. *)
Record AServer : Type := mkAServer { as_st : St; as_limiter : Limiter; as_vault : option Manager }.

Definition set_as_st (s : St) (a : AServer) : AServer := mkAServer s (as_limiter a) (as_vault a).
Definition set_as_limiter (l : Limiter) (a : AServer) : AServer := mkAServer (as_st a) l (as_vault a).
Definition set_as_vault (v : option Manager) (a : AServer) : AServer := mkAServer (as_st a) (as_limiter a) v.

Abbreviation A := (M AServer ApiReply).

Section Effects.
Context `{Ck : Clock} (limits : Failban.Config).

(** A call of the store, whose error the handler looks at. *)
Definition a_try {T} (m : Tx T) : A (StoreErr + T) := fun a =>
  match m (as_st a) with
  | (Ok x, s') => (Ok (inr x), set_as_st s' a)
  | (Err e, s') => (Ok (inl e), set_as_st s' a)
  | (Panic, s') => (Panic, set_as_st s' a)
  end.

(** [if err != nil { writeError(...); return }]. *)
Definition a_or {T} (reply : StoreErr -> ApiReply) (m : Tx T) : A T :=
  r ← a_try m;
  match r with inr x => mret x | inl e => throw (reply e) end.

(** [if err != nil { writeStoreError(w, err); return }]. *)
Definition a_call {T} (m : Tx T) : A T := a_or writeStoreError m.

Definition timeNow : A Time := fun a => (Ok (clock (st_tick (as_st a))), set_as_st (snd (time_now (as_st a))) a).

(** The limiter reads the clock itself. *)
Definition a_limiter {T} (f : Time -> Limiter -> T * Limiter) : A T := fun a =>
  let '(x, l) := f (clock (st_tick (as_st a))) (as_limiter a) in
  (Ok x, set_as_limiter l (set_as_st (snd (time_now (as_st a))) a)).

Definition a_Blocked (src : string) : A bool := a_limiter (fun now => Blocked limits now src).
Definition a_NoteFailure (src : string) : A unit := a_limiter (fun now l => (tt, NoteFailure limits now src l)).
Definition a_NoteSuccess (src : string) : A unit := a_limiter (fun now l => (tt, NoteSuccess limits now src l)).
End Effects.

(** ** Helpers of server.go *)

(** The first mebibyte, which is all the decoder is given. *)
Definition body_prefix (b : bytes) : bytes :=
  if Z.of_nat (List.length b) <=? 2 ^ 20 then b else take (Z.to_nat (2 ^ 20)) b.

(** [decode]; [dst] reads the first JSON value into the fields of a struct, and fails on a field the
    struct does not have. *)
Definition decode {T} (dst : bytes -> option T) (r : ApiReq) : A T :=
  lift (or_err (writeError 400 "malformed request body") (dst (body_prefix (aq_Body r)))).

Definition principalName (cfg : ApiConfig) (raw : string) : A Name :=
  lift (match ParseName raw (apc_Realm cfg) with
        | Ok n => Ok n
        | Err _ => Err (writeError 400 "principal name")
        | Panic => Panic
        end).

Definition checkPassword (cfg : ApiConfig) (password : string) : A unit :=
  if Z.of_nat (String.length password) <? apc_MinPasswordLength cfg then
    throw (writeError 400 "password must be at least")
  else if (72 <? String.length password)%nat then throw (writeError 400 "password must not exceed 72 bytes")
  else mret tt.

Definition clientIP (r : ApiReq) : string := default (aq_RemoteAddr r) (SplitHost (aq_RemoteAddr r)).

(** ** Sessions *)

Definition metaSigningKey : string := "api_signing_key".
Definition sessionIssuer : string := "ldap-kdc/api".
Definition sessionAudience : string := "ldap-kdc/admin".
Definition defaultSessionLifetime : Duration := hour.

Definition methodToken : string := "token".
Definition methodPassword : string := "password".
Definition methodKerberos : string := "kerberos".

Record caller : Type := mkCaller { ca_Subject : string; ca_Method : string; ca_Expires : Time }.

Record sessionClaims : Type := mkSessionClaims {
  cl_Iss : string; cl_Aud : string; cl_Sub : string; cl_Exp : Z; cl_Amr : list string }.

Definition list_field (k : string) (m : claims) : option (list string) :=
  match m !! k with
  | None => Some []
  | Some (c_list l) => Some l
  | Some _ => None
  end.

Definition read_session (m : claims) : option sessionClaims :=
  iss ← str_field "iss" m;
  aud ← str_field "aud" m;
  sub ← str_field "sub" m;
  exp ← int_field "exp" m;
  amr ← list_field "amr" m;
  Some (mkSessionClaims iss aud sub exp amr).

Definition session_claims (subject method : string) (iat exp : Z) : claims :=
  list_to_map [("iss", c_str sessionIssuer); ("aud", c_str sessionAudience); ("sub", c_str subject);
               ("iat", c_num iat); ("exp", c_num exp); ("amr", c_list [method])].

Record loginRequest : Type := mkLoginRequest { lr_Login : string; lr_Password : string }.

(** The packages spnego, keytab and identity of go-krb5 and of x: what a keytab file reads as, and a
    request authenticated with it, either answered by the library itself or handed on with an
    identity. What the library keeps for itself, a replay cache and its clock, is the first argument,
    the moment of the call. *)
Record Identity : Type := mkIdentity { id_UserName : string; id_Domain : string; id_Authenticated : bool }.
Inductive spnego_result : Type := sp_answered | sp_next (id : option Identity).

Class SpnegoLib : Type := {
  HttpKeytab : Type;
  httpKeytab_Unmarshal : bytes -> option HttpKeytab;
  SPNEGOKRB5Authenticate : nat -> HttpKeytab -> string -> string -> spnego_result;
}.

Section Sessions.
Context `{Ck : Clock, Rn : Rand, Ae : AEAD, Bc : Bcrypt, Tt : Totp, El : EncTypeLib, Js : JSON, Sh : Sha256, Ec : ECDSA, Sp : SpnegoLib}.
Context (json_login : bytes -> option loginRequest).
Context (cfg : ApiConfig) (sig : Signer) (spn : Name).

Definition is_admin (u : User) : Tx bool :=
  query_outcome (fun d => or_err ErrNoRows (IsDirectoryAdmin d (Some u) (apc_BaseDN cfg))).

(** [session]: the caller of a token that verifies and whose subject administers the directory now. *)
Definition session (token : string) : A (option caller) :=
  match Verify sig token read_session with
  | Panic => lift Panic
  | Err _ => mret None
  | Ok c =>
      if negb (String.eqb (cl_Iss c) sessionIssuer) then mret None
      else if negb (String.eqb (cl_Aud c) sessionAudience) then mret None
      else
        expired ← (if cl_Exp c =? 0 then mret true
                   else now ← timeNow; mret (negb (Before now (UnixTime (cl_Exp c)))));
        if expired : bool then mret None
        else if is_empty (cl_Sub c) then mret None
        else
          found ← a_try (GetUser (cl_Sub c));
          match found with
          | inl _ => mret None
          | inr u =>
              admin ← a_try (is_admin u);
              match admin with
              | inr true =>
                  mret (Some (mkCaller (u_Name u) (default methodPassword (head (cl_Amr c))) (UnixTime (cl_Exp c))))
              | _ => mret None
              end
          end
  end.

(** [authenticate] in front of the handler [next]. *)
Definition authenticate (next : caller -> A ApiReply) (r : ApiReq) : A ApiReply :=
  presented ← lift (match CutPrefix (aq_Authorization r) "Bearer " with
                    | Some t => if is_empty t then Err (challenge "sign in, or present the management token") else Ok t
                    | None => Err (challenge "sign in, or present the management token")
                    end);
  if non_empty (apc_Token cfg) && String.eqb presented (apc_Token cfg) then
    next (mkCaller "management token" methodToken zeroTime)
  else
    c ← session presented;
    match c with
    | None => throw (challenge "the session is not valid; sign in again")
    | Some c => next c
    end.

(** [admit_session]: a session for an account that administers the directory. *)
Definition admit_session (u : User) (method : string) : A ApiReply :=
  admin ← a_call (is_admin u);
  _ ← throw_if (negb admin) (writeError 403 "does not administer the directory");
  now ← timeNow;
  let expires := now + apc_SessionLifetime cfg in
  n ← a_call draw;
  token ← lift (or_err (writeError 500 "cannot sign the session") (Sign sig n (session_claims (u_Name u) method (Unix now) (Unix expires))));
  mret (writeJSON 200 (rb_session token (u_Name u) method (UnixTime (Unix expires)))).

Definition handleLogin (r : ApiReq) : A ApiReply :=
  let src := clientIP r in
  blocked ← a_Blocked (apc_Limits cfg) src;
  _ ← throw_if blocked (writeError 429 "too many failed sign-ins from this address; wait and try again");
  req ← decode json_login r;
  found ← a_try (UserByLogin (lr_Login req));
  result ← (match found with
            | inr u => now ← timeNow; mret (Some u, Authenticate now u (lr_Password req))
            | inl ErrNotFound => mret (None, OutcomeInvalid)
            | inl e => throw (writeStoreError e)
            end);
  match result with
  | (Some u, OutcomeOK) =>
      _ ← a_NoteSuccess (apc_Limits cfg) src;
      admit_session u methodPassword
  | _ =>
      _ ← a_NoteFailure (apc_Limits cfg) src;
      throw (writeError 401 "incorrect login or password")
  end.

(** ** Kerberos sign-in *)

(** [keytab]: the keys of the sign-in principal, those before them when they are still there, as the
    library reads them from a keytab file. *)
Definition spn_keytab : Tx HttpKeytab :=
  p ← GetPrincipal spn;
  prev ← previous_keys spn (p_KVNO p);
  current ← keytab_entries spn (p_KVNO p) (p_Keys p);
  older ← keytab_entries spn (p_KVNO p - 1) prev;
  raw ← marshalled (current ++ older);
  lift (or_err ErrMutate (httpKeytab_Unmarshal raw)).

Definition negotiated (id : option Identity) : A ApiReply :=
  id ← lift (or_err (writeError 401 "no Kerberos identity was established") id);
  _ ← throw_if (negb (id_Authenticated id)) (writeError 401 "no Kerberos identity was established");
  _ ← throw_if (negb (EqualFold (id_Domain id) (apc_Realm cfg))) (writeError 403 "does not sign in to this directory");
  name ← lift (match ParseName (id_UserName id) (apc_Realm cfg) with
               | Ok n => Ok n | Err _ => Err (writeError 403 "principal name") | Panic => Panic end);
  p ← a_or (fun _ => writeError 403 "is not a directory account") (GetPrincipal name);
  uid ← lift (or_err (writeError 403 "is not a directory account") (p_UserID p));
  u ← a_call (GetUserByID uid);
  admit_session u methodKerberos.

Definition handleNegotiate (r : ApiReq) : A ApiReply :=
  _ ← throw_if (List.length (Components spn) =? 0)%nat (writeError 404 "Kerberos sign-in is not configured on this service");
  kt ← a_or (fun _ => writeError 503 "Kerberos sign-in is unavailable") spn_keytab;
  n ← (fun a => (Ok (st_tick (as_st a)), a)) : A nat;
  match SPNEGOKRB5Authenticate n kt (Principal_of spn) (aq_Authorization r) with
  | sp_answered => mret (mkApiReply 401 true rb_empty)
  | sp_next id => negotiated id
  end.

Definition handleWhoAmI (c : caller) : A ApiReply :=
  mret (writeJSON 200 (rb_whoami (ca_Subject c) (ca_Method c) (if IsZero (ca_Expires c) then None else Some (ca_Expires c)))).

(** ** Start *)

(** [ensureSPN]: the name Kerberos sign-in is accepted for, whose principal exists. *)
Definition ensureSPN : M St SpnError Name :=
  if is_empty (apc_SPN cfg) then mret (mkName [] EmptyString)
  else
    name ← lift (match ParseName (apc_SPN cfg) (apc_Realm cfg) with Ok n => Ok n | Err e => Err (spn_name e) | Panic => Panic end);
    _ ← throw_if (match Components name with [c; _] => negb (String.eqb c "HTTP") | _ => true end) spn_shape;
    _ ← throw_if (negb (EqualFold (Realm name) (apc_Realm cfg))) spn_realm;
    _ ← ensure_spn (apc_EncTypes cfg) name;
    mret name.
End Sessions.

Inductive ApiStartErr : Type := start_realm | start_base | start_key (e : LoadErr) | start_spn (e : SpnError).

Definition with_lifetime (life : Duration) (c : ApiConfig) : ApiConfig := {|
  apc_Realm := apc_Realm c; apc_EncTypes := apc_EncTypes c; apc_Token := apc_Token c; apc_BaseDN := apc_BaseDN c;
  apc_NameFormat := apc_NameFormat c; apc_GroupFormat := apc_GroupFormat c; apc_SPN := apc_SPN c;
  apc_SessionLifetime := life; apc_Limits := apc_Limits c; apc_UI := apc_UI c; apc_Docs := apc_Docs c;
  apc_MinPasswordLength := apc_MinPasswordLength c; apc_DNSZones := apc_DNSZones c;
  apc_DNSDefaultTTL := apc_DNSDefaultTTL c; apc_HashCost := apc_HashCost c |}.

Definition mapped {S E E' T} (f : E -> E') (m : M S E T) : M S E' T := fun s =>
  match m s with (Ok x, s') => (Ok x, s') | (Err e, s') => (Err (f e), s') | (Panic, s') => (Panic, s') end.

(** [New], as far as the store is concerned: the configuration in force, the signer and the name. *)
Definition New_api `{Clock, Rand, AEAD, EncTypeLib, Sha256, ECDSA} (cfg : ApiConfig) : M St ApiStartErr (ApiConfig * Signer * Name) :=
  _ ← throw_if (is_empty (apc_Realm cfg)) start_realm;
  _ ← throw_if (is_empty (apc_BaseDN cfg)) start_base;
  let cfg := if apc_SessionLifetime cfg <=? 0 then with_lifetime defaultSessionLifetime cfg else cfg in
  sig ← mapped start_key (LoadOrCreate metaSigningKey);
  spn ← mapped start_spn (ensureSPN cfg);
  mret (cfg, sig, spn).
