(* ===== verification/ApiHandlers.v ===== *)
(** * The management API: requests, and the handlers of accounts and groups (users.go, groups.go)

    One definition per handler; the name in the path is an argument. *)

From S2P Require Import Prelude Text Hostport Duration Netip Names Keytab Failban Replay Model Secret IdRange Db Principals Directory Accounts Certs Zone Dns LdapEntries Ldap Sasl Jws Vault Api.

(** ** The bodies of requests *)

Record createUserRequest : Type := mkCreateUserRequest {
  cu_Name : string;
  cu_UIDNumber : Z;
  cu_PrimaryGroup : Z;
  cu_OtherGroups : list Z;
  cu_GivenName : string;
  cu_SN : string;
  cu_Mail : string;
  cu_LoginShell : string;
  cu_Homedir : string;
  cu_Disabled : bool;
  cu_SSHKeys : list string;
  cu_CustomAttrs : gmap string (list string);
  cu_Capabilities : list Capability;
  cu_OTPSecret : string;
  cu_Password : string;
  cu_ForceChange : option bool;
  cu_Aliases : list string;
}.

Record patchUserRequest : Type := mkPatchUserRequest {
  pu_UIDNumber : option Z;
  pu_PrimaryGroup : option Z;
  pu_OtherGroups : option (list Z);
  pu_GivenName : option string;
  pu_SN : option string;
  pu_Mail : option string;
  pu_LoginShell : option string;
  pu_Homedir : option string;
  pu_Disabled : option bool;
  pu_SSHKeys : option (list string);
  pu_CustomAttrs : option (gmap string (list string));
  pu_Capabilities : option (list Capability);
  pu_OTPSecret : option string;
}.

Record setPasswordRequest : Type := mkSetPasswordRequest {
  sp_Password : string; sp_ExpiresAt : option Time; sp_ForceChange : option bool }.

Record appPasswordRequest : Type := mkAppPasswordRequest { ar_Name : string; ar_Password : string }.

Record createGroupRequest : Type := mkCreateGroupRequest {
  cg_Name : string; cg_GIDNumber : Z; cg_Description : string; cg_IncludeGroups : list Z;
  cg_Capabilities : list Capability; cg_CustomAttrs : gmap string (list string) }.

Record patchGroupRequest : Type := mkPatchGroupRequest {
  pg_Name : option string; pg_GIDNumber : option Z; pg_Description : option string; pg_IncludeGroups : option (list Z);
  pg_Capabilities : option (list Capability); pg_CustomAttrs : option (gmap string (list string)) }.

Record createPrincipalRequest : Type := mkCreatePrincipalRequest {
  cp_Name : string;
  cp_UserName : string;
  cp_Enabled : option bool;
  cp_RequiresPreAuth : option bool;
  cp_AllowForwardable : option bool;
  cp_AllowProxiable : option bool;
  cp_AllowRenewable : option bool;
  cp_AllowPostdate : option bool;
  cp_OKAsDelegate : option bool;
  cp_OKToAuthAsDelegate : option bool;
  cp_AllowedToDelegateTo : list string;
  cp_AllowedToImpersonate : list string;
  cp_Aliases : list string;
  cp_MaxTicketLife : string;
  cp_MaxRenewableLife : string;
  cp_ExpiresAt : option Time;
  cp_Password : string;
}.

Record patchPrincipalRequest : Type := mkPatchPrincipalRequest {
  pp_UserName : option string;
  pp_Enabled : option bool;
  pp_RequiresPreAuth : option bool;
  pp_AllowForwardable : option bool;
  pp_AllowProxiable : option bool;
  pp_AllowRenewable : option bool;
  pp_AllowPostdate : option bool;
  pp_OKAsDelegate : option bool;
  pp_OKToAuthAsDelegate : option bool;
  pp_AllowedToDelegateTo : option (list string);
  pp_AllowedToImpersonate : option (list string);
  pp_Aliases : option (list string);
  pp_MaxTicketLife : option string;
  pp_MaxRenewableLife : option string;
  pp_ExpiresAt : option Time;
  pp_PasswordExpiresAt : option Time;
  pp_Unlock : option bool;
}.

Record principalPasswordRequest : Type := mkPrincipalPasswordRequest { pw_Password : string; pw_Randomize : bool }.
Record keytabRequest : Type := mkKeytabRequest { kq_Principals : list string; kq_RandKey : bool }.

Record createTrustRequest : Type := mkCreateTrustRequest {
  tq_RemoteRealm : string; tq_Direction : string; tq_Transitive : option bool; tq_Enabled : option bool; tq_Password : string }.
Record patchTrustRequest : Type := mkPatchTrustRequest {
  pt_Direction : option string; pt_Transitive : option bool; pt_Enabled : option bool }.

Record createDNSRecordRequest : Type := mkCreateDNSRecordRequest {
  dr_Name : string; dr_Type : string; dr_Value : string; dr_TTL : Z }.

Record vaultConfigRequest : Type := mkVaultConfigRequest {
  vq_Address : string;
  vq_Plaintext : bool;
  vq_Principal : string;
  vq_ServiceSPN : string;
  vq_PKIPath : string;
  vq_Role : string;
  vq_CommonName : string;
  vq_SANDNS : list string;
  vq_SANIPs : list string;
  vq_TTL : string;
  vq_RenewBefore : string;
  vq_RetryInterval : string;
}.

(** [encoding/json] with [DisallowUnknownFields], once for every struct the handlers read. *)
Class ApiJSON : Type := {
  json_login : bytes -> option loginRequest;
  json_createUser : bytes -> option createUserRequest;
  json_patchUser : bytes -> option patchUserRequest;
  json_setPassword : bytes -> option setPasswordRequest;
  json_appPassword : bytes -> option appPasswordRequest;
  json_createGroup : bytes -> option createGroupRequest;
  json_patchGroup : bytes -> option patchGroupRequest;
  json_createPrincipal : bytes -> option createPrincipalRequest;
  json_patchPrincipal : bytes -> option patchPrincipalRequest;
  json_principalPassword : bytes -> option principalPasswordRequest;
  json_keytab : bytes -> option keytabRequest;
  json_createTrust : bytes -> option createTrustRequest;
  json_patchTrust : bytes -> option patchTrustRequest;
  json_importCertificate : bytes -> option string;
  json_createDNSRecord : bytes -> option createDNSRecordRequest;
  json_vaultConfig : bytes -> option vaultConfigRequest;
}.

(** [crypto/x509] and [encoding/pem]: the bytes of the first block when it is a certificate, and the
    parts of a certificate. *)
Record X509 : Type := mkX509 {
  x_AuthorityKeyId : bytes; x_SerialNumber : Z; x_Subject : string; x_Raw : bytes; x_NotBefore : Time; x_NotAfter : Time }.
Class X509Lib : Type := {
  pem_certificate : bytes -> option bytes;
  ParseCertificate : bytes -> option X509;
}.

(** [etypeID.ETypesByName] as the table it is. *)
Class EncTypeTable : Type := etype_table : list (string * Z).

(** ** Text *)

(** [hex.EncodeToString], and [big.Int.Text(16)] of a positive number. *)
Definition hex_EncodeToString (b : bytes) : string :=
  foldr (fun x s => String (hex_char (Z_of_byte x / 16)) (String (hex_char (Z_of_byte x mod 16)) s)) EmptyString b.

Fixpoint hex_digits (fuel : nat) (z : Z) (acc : string) : string :=
  match fuel with
  | O => acc
  | S fuel => if z <=? 0 then acc else hex_digits fuel (z / 16) (String (hex_char (z mod 16)) acc)
  end.
Definition big_Text16 (z : Z) : string := hex_digits (Z.to_nat (Z.log2 z / 4 + 1)) z EmptyString.

Definition longer_first (a b : string) : bool :=
  (String.length b <? String.length a)%nat || (String.length a =? String.length b)%nat && string_le a b.

Definition EncTypeName `{EncTypeTable} (id : Z) : string :=
  match sort_by longer_first (fst <$> filter (fun e => snd e = id) etype_table) with
  | [] => "etype-" +:+ pretty id
  | n :: _ => n
  end.

Definition encTypeNames `{EncTypeTable} (ids : list Z) : list string := EncTypeName <$> ids.

Definition parseDuration (s : string) : option Duration := if is_empty (TrimSpace s) then Some 0 else ParseDuration s.
Definition durationString (d : Duration) : string := if d =? 0 then EmptyString else Duration_String d.
Definition parseVaultDuration (s : string) (def : Duration) : option Duration := if is_empty s then Some def else ParseDuration s.

(** [net.ParseIP]. *)
Definition ParseIP (s : string) : option Addr :=
  a ← ParseAddr s;
  match a with V6 _ zone => if is_empty zone then Some a else None | _ => Some a end.

Example text_samples :
  big_Text16 0xdeadbeef = "deadbeef" /\ hex_EncodeToString [Byte.x0a; Byte.xff] = "0aff" /\
  parseDuration "  " = Some 0 /\ ParseIP "fe80::1%eth0" = None.
Proof. vm_compute. by split_and!. Qed.

(** [applyIf], and [boolOr]. *)
Definition applyIf {T} (src : option T) (dst : T) : T := default dst src.
Definition boolOr (v : option bool) (fallback : bool) : bool := default fallback v.

(** [PathValue] of a number. *)
Definition ParseInt64 (s : string) : option Z := Atoi s.

Definition noContent : ApiReply := writeJSON 204 rb_empty.

Section Handlers.
Context `{Ck : Clock, Rn : Rand, Ae : AEAD, Bc : Bcrypt, Tt : Totp, El : EncTypeLib, Et : EncTypeTable, Dl : DnsLib, Ul : UrlLib, Xl : X509Lib, Aj : ApiJSON}.
Context (cfg : ApiConfig).

(** The database as a handler finds it. *)
Definition a_look {T} (f : DB -> T) : A T := fun a => (Ok (f (st_db (as_st a))), a).

(** ** users.go *)

Definition passwordExpiry (explicit : option Time) (forceChange : option bool) : A (option Time) :=
  match explicit, forceChange with
  | Some t, _ => mret (Some t)
  | None, Some false => mret None
  | None, _ => now ← timeNow; mret (Some now)
  end.

Definition handleListUsers : A ApiReply := us ← a_call ListUsers; mret (writeJSON 200 (rb_users us)).

(** The DN LDAP publishes the account under; a primary group that is gone has an empty name. *)
Definition userDN (u : User) : A string :=
  g ← a_try (GetGroupByGID (u_PrimaryGroup u));
  primary ← (match g with
             | inr g => mret (g_Name g)
             | inl ErrNotFound => mret EmptyString
             | inl e => throw (writeStoreError e)
             end);
  mret (UserDN (apc_BaseDN cfg) (apc_NameFormat cfg) (apc_GroupFormat cfg) (u_Name u) primary).

Definition handleGetUser (name : string) : A ApiReply :=
  u ← a_call (GetUser name);
  ps ← a_call (PrincipalsForUser (u_ID u));
  dn ← userDN u;
  mret (writeJSON 200 (rb_user u dn ps)).

Definition new_user (req : createUserRequest) : User := {|
  u_ID := 0; u_Name := cu_Name req; u_UIDNumber := cu_UIDNumber req; u_PrimaryGroup := cu_PrimaryGroup req;
  u_OtherGroups := cu_OtherGroups req; u_GivenName := cu_GivenName req; u_SN := cu_SN req; u_Mail := cu_Mail req;
  u_LoginShell := cu_LoginShell req; u_Homedir := cu_Homedir req; u_Disabled := cu_Disabled req;
  u_SSHKeys := cu_SSHKeys req; u_CustomAttrs := cu_CustomAttrs req; u_Capabilities := cu_Capabilities req;
  u_AppPasswords := []; u_CreatedAt := zeroTime; u_UpdatedAt := zeroTime; u_PassBcrypt := EmptyString;
  u_OTPSecret := cu_OTPSecret req; u_HasOTP := false; u_HasPassword := false |}.

Definition handleCreateUser (r : ApiReq) : A ApiReply :=
  req ← decode json_createUser r;
  _ ← throw_if (is_empty (cu_Name req)) (writeError 400 "name is required");
  _ ← (if non_empty (cu_Password req) then checkPassword cfg (cu_Password req) else mret tt);
  expiry ← passwordExpiry None (cu_ForceChange req);
  _ ← a_call (CreateAccount (apc_HashCost cfg)
        (mkNewAccount (Some (new_user req)) (apc_Realm cfg) (apc_EncTypes cfg) (cu_Password req) expiry (cu_Aliases req)));
  created ← a_call (GetUser (cu_Name req));
  dn ← userDN created;
  mret (writeJSON 201 (rb_user created dn [])).

Definition patch_user (req : patchUserRequest) (u : User) : User := {|
  u_ID := u_ID u; u_Name := u_Name u; u_UIDNumber := applyIf (pu_UIDNumber req) (u_UIDNumber u);
  u_PrimaryGroup := applyIf (pu_PrimaryGroup req) (u_PrimaryGroup u);
  u_OtherGroups := applyIf (pu_OtherGroups req) (u_OtherGroups u);
  u_GivenName := applyIf (pu_GivenName req) (u_GivenName u); u_SN := applyIf (pu_SN req) (u_SN u);
  u_Mail := applyIf (pu_Mail req) (u_Mail u); u_LoginShell := applyIf (pu_LoginShell req) (u_LoginShell u);
  u_Homedir := applyIf (pu_Homedir req) (u_Homedir u); u_Disabled := applyIf (pu_Disabled req) (u_Disabled u);
  u_SSHKeys := applyIf (pu_SSHKeys req) (u_SSHKeys u); u_CustomAttrs := applyIf (pu_CustomAttrs req) (u_CustomAttrs u);
  u_Capabilities := applyIf (pu_Capabilities req) (u_Capabilities u); u_AppPasswords := u_AppPasswords u;
  u_CreatedAt := u_CreatedAt u; u_UpdatedAt := u_UpdatedAt u; u_PassBcrypt := u_PassBcrypt u;
  u_OTPSecret := applyIf (pu_OTPSecret req) (u_OTPSecret u); u_HasOTP := u_HasOTP u; u_HasPassword := u_HasPassword u |}.

Definition with_enabled (enabled : bool) (p : Principal) : Principal := {|
  p_ID := p_ID p; p_Name := p_Name p; p_Realm := p_Realm p; p_UserID := p_UserID p;
  p_UserName := p_UserName p; p_KVNO := p_KVNO p; p_Enabled := enabled;
  p_RequiresPreAuth := p_RequiresPreAuth p; p_AllowForwardable := p_AllowForwardable p;
  p_AllowProxiable := p_AllowProxiable p; p_AllowRenewable := p_AllowRenewable p; p_AllowPostdate := p_AllowPostdate p;
  p_OKAsDelegate := p_OKAsDelegate p; p_OKToAuthAsDelegate := p_OKToAuthAsDelegate p;
  p_AllowedToDelegateTo := p_AllowedToDelegateTo p; p_Aliases := p_Aliases p;
  p_AllowedToImpersonate := p_AllowedToImpersonate p; p_MaxTicketLife := p_MaxTicketLife p;
  p_MaxRenewableLife := p_MaxRenewableLife p; p_PasswordLastSet := p_PasswordLastSet p;
  p_PasswordExpiresAt := p_PasswordExpiresAt p; p_ExpiresAt := p_ExpiresAt p; p_LockedUntil := p_LockedUntil p;
  p_FailCount := p_FailCount p; p_LastSuccess := p_LastSuccess p; p_LastFailure := p_LastFailure p;
  p_CreatedAt := p_CreatedAt p; p_UpdatedAt := p_UpdatedAt p; p_Keys := p_Keys p |}.

(** One round of the loop of [syncPrincipalEnabled]. *)
Definition sync_one (enabled : bool) (p : Principal) : A unit :=
  name ← lift (KrbName p);
  _ ← a_call (UpdatePrincipal name (fun p => Ok (with_enabled enabled p)));
  mret tt.

Definition syncPrincipalEnabled (u : User) : A unit :=
  ps ← a_call (PrincipalsForUser (u_ID u));
  for_each (sync_one (negb (u_Disabled u))) ps.

Definition handlePatchUser (r : ApiReq) (name : string) : A ApiReply :=
  req ← decode json_patchUser r;
  updated ← a_call (UpdateUser name (fun u => Ok (patch_user req u)));
  _ ← (match pu_Disabled req with Some _ => syncPrincipalEnabled updated | None => mret tt end);
  dn ← userDN updated;
  mret (writeJSON 200 (rb_user updated dn [])).

Definition handleDeleteUser (name : string) : A ApiReply := _ ← a_call (DeleteUser name); mret noContent.

Definition handleSetUserPassword (r : ApiReq) (name : string) : A ApiReply :=
  req ← decode json_setPassword r;
  _ ← checkPassword cfg (sp_Password req);
  expiry ← passwordExpiry (sp_ExpiresAt req) (sp_ForceChange req);
  _ ← a_call (SetUserPassword (apc_HashCost cfg) name (sp_Password req) (apc_EncTypes cfg) expiry);
  mustChange ← (match expiry with
                | Some t => now ← timeNow; mret (negb (After t now))
                | None => mret false
                end);
  mret (writeJSON 200 (rb_passwordSet mustChange)).

Definition handleListAppPasswords (name : string) : A ApiReply :=
  u ← a_call (GetUser name); mret (writeJSON 200 (rb_appPasswords (u_AppPasswords u))).

Definition handleCreateAppPassword (r : ApiReq) (name : string) : A ApiReply :=
  req ← decode json_appPassword r;
  _ ← throw_if (is_empty (ar_Name req)) (writeError 400 "name is required");
  let generated := is_empty (ar_Password req) in
  password ← (if generated then
                i ← a_call draw;
                lift (match RandomPassword 24 (rand 24 i) with
                      | Ok p => Ok p | Err _ => Err (writeError 500 "random password") | Panic => Panic end)
              else _ ← checkPassword cfg (ar_Password req); mret (ar_Password req));
  hash ← a_or (fun _ => writeError 400 "hash") (hashPassword password (apc_HashCost cfg));
  ap ← a_call (AddAppPassword name (ar_Name req) hash);
  mret (writeJSON 201 (rb_appPassword ap (if generated then password else EmptyString))).

Definition handleDeleteAppPassword (name id : string) : A ApiReply :=
  id ← lift (or_err (writeError 400 "application password id must be a number") (ParseInt64 id));
  _ ← a_call (DeleteAppPassword name id);
  mret noContent.

(** ** groups.go *)

Definition handleListGroups : A ApiReply := gs ← a_call ListGroups; mret (writeJSON 200 (rb_groups gs)).
Definition handleGetGroup (name : string) : A ApiReply := g ← a_call (GetGroup name); mret (writeJSON 200 (rb_group g)).

Definition handleCreateGroup (r : ApiReq) : A ApiReply :=
  req ← decode json_createGroup r;
  _ ← throw_if (is_empty (cg_Name req)) (writeError 400 "name is required");
  gid ← (if cg_GIDNumber req =? 0 then a_call NextGIDNumber else mret (cg_GIDNumber req));
  g ← a_call (CreateGroup (mkGroup 0 (cg_Name req) gid (cg_Description req) (cg_IncludeGroups req) (cg_Capabilities req)
                 (cg_CustomAttrs req) zeroTime zeroTime));
  mret (writeJSON 201 (rb_group g)).

Definition patch_group (req : patchGroupRequest) (g : Group) : Group :=
  mkGroup (g_ID g) (applyIf (pg_Name req) (g_Name g)) (applyIf (pg_GIDNumber req) (g_GIDNumber g))
    (applyIf (pg_Description req) (g_Description g)) (applyIf (pg_IncludeGroups req) (g_IncludeGroups g))
    (applyIf (pg_Capabilities req) (g_Capabilities g)) (applyIf (pg_CustomAttrs req) (g_CustomAttrs g))
    (g_CreatedAt g) (g_UpdatedAt g).

Definition handlePatchGroup (r : ApiReq) (name : string) : A ApiReply :=
  req ← decode json_patchGroup r;
  _ ← throw_if (match pg_Name req with Some n => is_empty n | None => false end) (writeError 400 "name must not be empty");
  g ← a_call (UpdateGroup name (fun g => Ok (patch_group req g)));
  mret (writeJSON 200 (rb_group g)).

Definition handleDeleteGroup (name : string) : A ApiReply := _ ← a_call (DeleteGroup name); mret noContent.

Definition handleGroupMembers (name : string) : A ApiReply :=
  g ← a_call (GetGroup name);
  ms ← a_call (group_members (g_GIDNumber g));
  mret (writeJSON 200 (rb_members ms)).
End Handlers.
