(* ===== verification/ApiKerberos.v ===== *)
(** * The management API: principals, keytabs, trusts, certificates, records, Vault and operations
    (principals.go, keytab.go, trusts.go, certificates.go, dns.go, vault.go, ops.go) *)

From S2P Require Import Prelude Text Hostport Duration Netip Names Keytab Failban Replay Model Secret IdRange Db Principals Directory Accounts Certs Zone Dns LdapEntries Ldap Sasl Jws Vault Api ApiHandlers.

Definition direction_of (s : string) : option TrustDirection :=
  if String.eqb s "inbound" then Some TrustInbound
  else if String.eqb s "outbound" then Some TrustOutbound
  else if String.eqb s "bidirectional" then Some TrustBidirectional
  else None.

(** [strings.ReplaceAll(s, "/", "_")]. *)
Definition slashes_out (s : string) : string := string_map (fun c => if Ascii.eqb c "/"%char then "_"%char else c) s.

Definition maxKeytabPrincipals : Z := 500.

Section Handlers.
Context `{Ck : Clock, Rn : Rand, Ae : AEAD, Bc : Bcrypt, Tt : Totp, El : EncTypeLib, Et : EncTypeTable, Dl : DnsLib, Ul : UrlLib, Xl : X509Lib, Aj : ApiJSON}.
Context (cfg : ApiConfig).

(** ** principals.go *)

Definition handleListPrincipals (r : ApiReq) : A ApiReply :=
  ps ← a_call (ListPrincipals (Get (aq_Query r) "realm"));
  mret (writeJSON 200 (rb_principals ps)).

(** The entries of the keys of one principal, each with the time it was written down; and the file. *)
Definition keytab_blob (entries : list KeytabEntry) : A bytes :=
  a_or (fun _ => writeError 500 "keytab") (marshalled entries).

Definition writeKeytab (raw : string) : A ApiReply :=
  name ← principalName cfg raw;
  p ← a_call (GetPrincipal name);
  _ ← throw_if (List.length (p_Keys p) =? 0)%nat (writeError 409 "principal has no keys");
  entries ← a_call (keytab_entries name (p_KVNO p) (p_Keys p));
  blob ← keytab_blob entries;
  mret (writeJSON 200 (rb_keytab (slashes_out (Principal_of name) +:+ ".keytab") blob)).

Definition handlePrincipalGet (raw : string) : A ApiReply :=
  match CutSuffix raw "/keytab" with
  | Some trimmed => writeKeytab trimmed
  | None =>
      name ← principalName cfg raw;
      p ← a_call (GetPrincipal name);
      flags ← lift (TicketFlags p);
      mret (writeJSON 200 (rb_principal p (Some (mkPrincipalDetail (encTypeNames (EncTypes p))
              (durationString (p_MaxTicketLife p)) (durationString (p_MaxRenewableLife p)) flags))))
  end.

Definition new_principal (req : createPrincipalRequest) (name : Name) (life renew : Duration) (uid : option Z) : Principal := {|
  p_ID := 0; p_Name := Principal_of name; p_Realm := Realm name; p_UserID := uid; p_UserName := EmptyString; p_KVNO := 0;
  p_Enabled := boolOr (cp_Enabled req) true; p_RequiresPreAuth := boolOr (cp_RequiresPreAuth req) true;
  p_AllowForwardable := boolOr (cp_AllowForwardable req) true; p_AllowProxiable := boolOr (cp_AllowProxiable req) true;
  p_AllowRenewable := boolOr (cp_AllowRenewable req) true; p_AllowPostdate := boolOr (cp_AllowPostdate req) false;
  p_OKAsDelegate := boolOr (cp_OKAsDelegate req) false; p_OKToAuthAsDelegate := boolOr (cp_OKToAuthAsDelegate req) false;
  p_AllowedToDelegateTo := cp_AllowedToDelegateTo req; p_Aliases := cp_Aliases req;
  p_AllowedToImpersonate := cp_AllowedToImpersonate req; p_MaxTicketLife := life; p_MaxRenewableLife := renew;
  p_PasswordLastSet := None; p_PasswordExpiresAt := None; p_ExpiresAt := cp_ExpiresAt req; p_LockedUntil := None;
  p_FailCount := 0; p_LastSuccess := None; p_LastFailure := None; p_CreatedAt := zeroTime; p_UpdatedAt := zeroTime; p_Keys := [] |}.

Definition derived (password : string) (name : Name) : Tx (list Key) :=
  lift (match DeriveKeys password name (apc_EncTypes cfg) with Ok ks => Ok ks | Err e => Err (ErrKey e) | Panic => Panic end).

Definition handleCreatePrincipal (r : ApiReq) : A ApiReply :=
  req ← decode json_createPrincipal r;
  name ← principalName cfg (cp_Name req);
  _ ← (if non_empty (cp_Password req) then checkPassword cfg (cp_Password req) else mret tt);
  life ← lift (or_err (writeError 400 "maxTicketLife") (parseDuration (cp_MaxTicketLife req)));
  renew ← lift (or_err (writeError 400 "maxRenewableLife") (parseDuration (cp_MaxRenewableLife req)));
  uid ← (if non_empty (cp_UserName req) then u ← a_call (GetUser (cp_UserName req)); mret (Some (u_ID u)) else mret None);
  keys ← a_or (fun _ => writeError 500 "keys")
           (if non_empty (cp_Password req) then derived (cp_Password req) name else random_keys (apc_EncTypes cfg));
  p ← a_call (CreatePrincipal (new_principal req name life renew uid) keys);
  mret (writeJSON 201 (rb_principal p None)).

(** The account a patch links to, [None] when it names no account. *)
Definition patch_account (d : DB) (req : patchPrincipalRequest) (p : Principal) : outcome StoreErr (option Z) :=
  match pp_UserName req with
  | None => Ok (p_UserID p)
  | Some n => if is_empty n then Ok None else u ← getUser d (user_named n); Ok (Some (u_ID u))
  end.

Definition patch_life (src : option string) (dst : Duration) : option Duration :=
  match src with None => Some dst | Some s => parseDuration s end.

(** The function [handlePatchPrincipal] gives to [UpdatePrincipal]; the account is read from the
    database as it was when the transaction began. *)
Definition patch_principal (d : DB) (req : patchPrincipalRequest) (p : Principal) : outcome StoreErr Principal :=
  uid ← patch_account d req p;
  life ← or_err ErrMutate (patch_life (pp_MaxTicketLife req) (p_MaxTicketLife p));
  renew ← or_err ErrMutate (patch_life (pp_MaxRenewableLife req) (p_MaxRenewableLife p));
  let unlock := boolOr (pp_Unlock req) false in
  Ok {| p_ID := p_ID p; p_Name := p_Name p; p_Realm := p_Realm p; p_UserID := uid; p_UserName := p_UserName p;
        p_KVNO := p_KVNO p; p_Enabled := applyIf (pp_Enabled req) (p_Enabled p);
        p_RequiresPreAuth := applyIf (pp_RequiresPreAuth req) (p_RequiresPreAuth p);
        p_AllowForwardable := applyIf (pp_AllowForwardable req) (p_AllowForwardable p);
        p_AllowProxiable := applyIf (pp_AllowProxiable req) (p_AllowProxiable p);
        p_AllowRenewable := applyIf (pp_AllowRenewable req) (p_AllowRenewable p);
        p_AllowPostdate := applyIf (pp_AllowPostdate req) (p_AllowPostdate p);
        p_OKAsDelegate := applyIf (pp_OKAsDelegate req) (p_OKAsDelegate p);
        p_OKToAuthAsDelegate := applyIf (pp_OKToAuthAsDelegate req) (p_OKToAuthAsDelegate p);
        p_AllowedToDelegateTo := applyIf (pp_AllowedToDelegateTo req) (p_AllowedToDelegateTo p);
        p_Aliases := applyIf (pp_Aliases req) (p_Aliases p);
        p_AllowedToImpersonate := applyIf (pp_AllowedToImpersonate req) (p_AllowedToImpersonate p);
        p_MaxTicketLife := life; p_MaxRenewableLife := renew; p_PasswordLastSet := p_PasswordLastSet p;
        p_PasswordExpiresAt := match pp_PasswordExpiresAt req with Some t => Some t | None => p_PasswordExpiresAt p end;
        p_ExpiresAt := match pp_ExpiresAt req with Some t => Some t | None => p_ExpiresAt p end;
        p_LockedUntil := if unlock then None else p_LockedUntil p; p_FailCount := if unlock then 0 else p_FailCount p;
        p_LastSuccess := p_LastSuccess p; p_LastFailure := p_LastFailure p; p_CreatedAt := p_CreatedAt p;
        p_UpdatedAt := p_UpdatedAt p; p_Keys := p_Keys p |}.

(** The reply to an error: what the function noted down before it failed comes first. *)
Definition patch_refusal (d : DB) (req : patchPrincipalRequest) (name : Name) (e : StoreErr) : ApiReply :=
  match getPrincipal d name 0 with
  | Ok p =>
      match patch_account d req p with
      | Err _ => writeError 400 "userName"
      | _ =>
          match patch_life (pp_MaxTicketLife req) 0, patch_life (pp_MaxRenewableLife req) 0 with
          | Some _, Some _ => writeStoreError e
          | _, _ => writeError 400 "is not a duration"
          end
      end
  | _ => writeStoreError e
  end.

Definition handlePatchPrincipal (r : ApiReq) (raw : string) : A ApiReply :=
  name ← principalName cfg raw;
  req ← decode json_patchPrincipal r;
  d ← a_look (fun d => d);
  p ← a_or (patch_refusal d req name) (UpdatePrincipal name (patch_principal d req));
  mret (writeJSON 200 (rb_principal p None)).

(** The name of the realm's own ticket-granting principal, in whatever realm. *)
Definition own_tgs (name : Name) : bool :=
  IsTGS name && match Components name with [_; c] => EqualFold c (apc_Realm cfg) | _ => false end.

Definition handleDeletePrincipal (raw : string) : A ApiReply :=
  name ← principalName cfg raw;
  _ ← throw_if (own_tgs name) (writeError 409 "the realm's own ticket-granting principal cannot be deleted");
  _ ← a_call (DeletePrincipal name);
  mret noContent.

Definition setPrincipalPassword (r : ApiReq) (raw : string) : A ApiReply :=
  name ← principalName cfg raw;
  req ← decode json_principalPassword r;
  _ ← throw_if (is_empty (pw_Password req) && negb (pw_Randomize req)) (writeError 400 "either password or randomize is required");
  _ ← (if non_empty (pw_Password req) then checkPassword cfg (pw_Password req) else mret tt);
  p ← a_call (if pw_Randomize req then RandomizePrincipalKeys name (apc_EncTypes cfg)
              else SetPrincipalPassword name (pw_Password req) (apc_EncTypes cfg));
  mret (writeJSON 200 (rb_principal p None)).

Definition handlePrincipalPost (r : ApiReq) (raw : string) : A ApiReply :=
  match CutSuffix raw "/password" with
  | None => throw (writeError 404 "no such action on a principal")
  | Some trimmed => setPrincipalPassword r trimmed
  end.

(** ** keytab.go *)

(** The loop that resolves every name, a principal named twice once. *)
Fixpoint resolve_all (raws : list string) (seen : gset string) : A (list Principal) :=
  match raws with
  | [] => mret []
  | raw :: raws' =>
      name ← principalName cfg raw;
      p ← a_call (GetPrincipal name);
      if bool_decide (FullName p ∈ seen) then resolve_all raws' seen
      else rest ← resolve_all raws' ({[FullName p]} ∪ seen); mret (p :: rest)
  end.

Fixpoint rekey_all (ps : list Principal) : A (list Principal) :=
  match ps with
  | [] => mret []
  | p :: ps' =>
      name ← lift (KrbName p);
      q ← a_call (RandomizePrincipalKeys name (apc_EncTypes cfg));
      rest ← rekey_all ps';
      mret (q :: rest)
  end.

Fixpoint all_entries (now : Time) (ps : list Principal) : outcome ApiReply (list KeytabEntry) :=
  match ps with
  | [] => mret []
  | p :: ps' =>
      _ ← err_if (List.length (p_Keys p) =? 0)%nat (writeError 409 "has no keys");
      canonical ← KrbName p;
      rest ← all_entries now ps';
      mret (((fun k => mkKeytabEntry canonical (p_KVNO p) k now) <$> p_Keys p) ++ rest)
  end.

Definition handleKeytab (r : ApiReq) : A ApiReply :=
  req ← decode json_keytab r;
  _ ← throw_if (List.length (kq_Principals req) =? 0)%nat (writeError 400 "name at least one principal");
  _ ← throw_if (maxKeytabPrincipals <? Z.of_nat (List.length (kq_Principals req))) (writeError 400 "principals per keytab");
  ps ← resolve_all (kq_Principals req) ∅;
  ps ← (if kq_RandKey req then rekey_all ps else mret ps);
  now ← timeNow;
  entries ← lift (all_entries now ps);
  blob ← keytab_blob entries;
  mret (writeJSON 200 (rb_keytab "ldap-kdc.keytab" blob)).

(** ** trusts.go *)

Definition handleListTrusts : A ApiReply := ts ← a_call ListTrusts; mret (writeJSON 200 (rb_trusts ts)).
Definition handleGetTrust (realm : string) : A ApiReply := t ← a_call (GetTrust realm); mret (writeJSON 200 (rb_trust t)).

Definition tgs_name (service realm : string) : Name := mkName ["krbtgt"; service] realm.

(** One round of the loop that gives a trust its keys. *)
Definition key_trust (password : string) (name : Name) : A unit :=
  keys ← a_or (fun _ => writeError 500 "keys") (derived password name);
  r ← a_try (CreatePrincipal (plain_principal name None true None []) keys);
  match r with
  | inr _ => mret tt
  | inl ErrConflict => now ← timeNow; _ ← a_call (SetKeys name keys now); mret tt
  | inl e => throw (writeStoreError e)
  end.

Definition handleCreateTrust (r : ApiReq) : A ApiReply :=
  req ← decode json_createTrust r;
  let remote := ToUpper (TrimSpace (tq_RemoteRealm req)) in
  _ ← throw_if (is_empty remote) (writeError 400 "remoteRealm is required");
  _ ← throw_if (EqualFold remote (apc_Realm cfg)) (writeError 400 "a realm cannot trust itself");
  _ ← checkPassword cfg (tq_Password req);
  direction ← lift (or_err (writeError 400 "direction must be one of inbound, outbound or bidirectional")
                (if is_empty (tq_Direction req) then Some TrustBidirectional else direction_of (tq_Direction req)));
  t ← a_call (CreateTrust (mkTrust 0 remote direction (boolOr (tq_Transitive req) true) (boolOr (tq_Enabled req) true) zeroTime zeroTime));
  let wanted := (if Allows t TrustOutbound then [tgs_name remote (apc_Realm cfg)] else []) ++
                (if Allows t TrustInbound then [tgs_name (apc_Realm cfg) remote] else []) in
  _ ← for_each (key_trust (tq_Password req)) wanted;
  mret (writeJSON 201 (rb_trust t)).

(** A direction that is none of the three breaks the constraint of its column, and the update is
    rolled back. *)
Definition patch_trust (req : patchTrustRequest) (t : Trust) : outcome StoreErr Trust :=
  direction ← (match pt_Direction req with None => Ok (t_Direction t) | Some s => or_err ErrMutate (direction_of s) end);
  Ok (mkTrust (t_ID t) (t_RemoteRealm t) direction (applyIf (pt_Transitive req) (t_Transitive t))
        (applyIf (pt_Enabled req) (t_Enabled t)) (t_CreatedAt t) (t_UpdatedAt t)).

Definition handlePatchTrust (r : ApiReq) (realm : string) : A ApiReply :=
  req ← decode json_patchTrust r;
  t ← a_call (UpdateTrust realm (patch_trust req));
  mret (writeJSON 200 (rb_trust t)).

Definition drop_principal (name : Name) : A unit :=
  r ← a_try (DeletePrincipal name);
  match r with
  | inr _ | inl ErrNotFound => mret tt
  | inl e => throw (writeStoreError e)
  end.

Definition handleDeleteTrust (realm : string) : A ApiReply :=
  let realm := ToUpper realm in
  _ ← a_call (DeleteTrust realm);
  _ ← for_each drop_principal [tgs_name realm (apc_Realm cfg); tgs_name (apc_Realm cfg) realm];
  mret noContent.

(** ** certificates.go *)

Definition certificate_body (c : Certificate) : certificateBody :=
  mkCertificateBody (ce_Issuer c) (ce_Serial c) (ce_Subject c) (ce_NotBefore c) (ce_NotAfter c) (ce_CreatedAt c).

Definition handleListUserCertificates (name : string) : A ApiReply :=
  cs ← a_call (ListUserCertificates name);
  mret (writeJSON 200 (rb_certificates (certificate_body <$> cs))).

Definition handleImportUserCertificate (r : ApiReq) (name : string) : A ApiReply :=
  pem ← decode json_importCertificate r;
  block ← lift (or_err (writeError 400 "the certificate must be a PEM-encoded X.509 certificate") (pem_certificate (bytes_of_string pem)));
  cert ← lift (or_err (writeError 400 "the certificate does not parse") (ParseCertificate block));
  _ ← throw_if (x_SerialNumber cert <=? 0) (writeError 400 "the certificate's serial number must be positive");
  c ← a_call (AddCertificate name (mkCertificate 0 EmptyString (hex_EncodeToString (x_AuthorityKeyId cert))
         (big_Text16 (x_SerialNumber cert)) (x_Subject cert) (x_Raw cert) (x_NotBefore cert) (x_NotAfter cert) zeroTime));
  mret (writeJSON 201 (rb_certificate (certificate_body c))).

(** ** dns.go *)

Definition handleListDNSRecords (r : ApiReq) : A ApiReply :=
  rs ← a_call ListDNSRecords;
  let name := Get (aq_Query r) "name" in
  rs ← (if non_empty name then a_call (LookupDNSRecords name) else mret rs);
  mret (writeJSON 200 (rb_records rs (apc_DNSZones cfg))).

Definition handleCreateDNSRecord (r : ApiReq) : A ApiReply :=
  req ← decode json_createDNSRecord r;
  let record := mkDNSRecord 0 (dr_Name req) (ToUpper (TrimSpace (dr_Type req)))
    (if dr_TTL req <=? 0 then apc_DNSDefaultTTL cfg else dr_TTL req) (dr_Value req) EmptyString zeroTime zeroTime in
  _ ← throw_if (negb (ValidateRecord record)) (writeError 400 "record");
  _ ← throw_if ((0 <? List.length (apc_DNSZones cfg))%nat && negb (InZone (r_Name record) (apc_DNSZones cfg)))
        (writeError 400 "is outside the zones this server answers for");
  rec ← a_call (CreateDNSRecord record);
  mret (writeJSON 201 (rb_record rec)).

Definition handleDeleteDNSRecord (id : string) : A ApiReply :=
  id ← lift (or_err (writeError 400 "record id must be a number") (ParseInt64 id));
  _ ← a_or (fun e => match e with
                     | ErrConflict => writeError 409 "is registered automatically and is removed by its source, not through the API"
                     | e => writeStoreError e
                     end) (DeleteDNSRecord id);
  mret noContent.

(** ** vault.go *)

Definition vaultManager : A Manager := fun a =>
  match as_vault a with
  | Some m => (Ok m, a)
  | None => (Err (writeError 503 "the vault pki integration is not available on this server"), a)
  end.

Definition set_manager (m : Manager) : A unit := fun a => (Ok tt, set_as_vault (Some m) a).

Fixpoint parse_ips (raws : list string) : outcome ApiReply (list Addr) :=
  match raws with
  | [] => mret []
  | raw :: raws' => ip ← or_err (writeError 400 "san_ips") (ParseIP raw); rest ← parse_ips raws'; mret (ip :: rest)
  end.

Definition handlePutVaultConfig (r : ApiReq) : A ApiReply :=
  m ← vaultManager;
  req ← decode json_vaultConfig r;
  _ ← throw_if (is_empty (vq_Address req)) (writeError 400 "address is required");
  _ ← throw_if (is_empty (vq_Principal req)) (writeError 400 "principal is required");
  _ ← throw_if (is_empty (vq_CommonName req)) (writeError 400 "common_name is required");
  _ ← throw_if (is_empty (vq_Role req)) (writeError 400 "role is required");
  _ ← throw_if (negb (CheckAddress (mkVaultConfig (vq_Address req) (vq_Plaintext req) "" "" "" "" "" [] [] 0 0 0))) (writeError 400 "address");
  name ← lift (match ParseName (vq_Principal req) (apc_Realm cfg) with
               | Ok n => Ok n | Err _ => Err (writeError 400 "principal name") | Panic => Panic end);
  _ ← a_or (fun e => match e with ErrNotFound => writeError 400 "unknown principal" | e => writeStoreError e end) (GetPrincipal name);
  ttl ← lift (or_err (writeError 400 "ttl") (parseVaultDuration (vq_TTL req) (720 * hour)));
  renewBefore ← lift (or_err (writeError 400 "renew_before") (parseVaultDuration (vq_RenewBefore req) (24 * hour)));
  retryInterval ← lift (or_err (writeError 400 "retry_interval") (parseVaultDuration (vq_RetryInterval req) (5 * second)));
  _ ← throw_if (ttl <=? renewBefore) (writeError 400 "ttl must be longer than renew_before");
  _ ← throw_if (retryInterval <=? 0) (writeError 400 "retry_interval must be positive");
  ips ← lift (parse_ips (vq_SANIPs req));
  let m := Configure (mkVaultConfig (vq_Address req) (vq_Plaintext req) (vq_Principal req) (vq_ServiceSPN req) (vq_PKIPath req)
             (vq_Role req) (vq_CommonName req) (vq_SANDNS req) ips ttl renewBefore retryInterval) m in
  _ ← set_manager m;
  mret (writeJSON 200 (rb_vault (Status_vault m))).

Definition handleGetVaultStatus : A ApiReply := m ← vaultManager; mret (writeJSON 200 (rb_vault (Status_vault m))).
Definition handleDeleteVaultConfig : A ApiReply := m ← vaultManager; _ ← set_manager (Stop m); mret noContent.

(** ** ops.go *)

Definition handleHealth : A ApiReply := mret (writeJSON 200 (rb_status "ok" EmptyString EmptyString)).

Definition handleReady : A ApiReply :=
  realm ← a_or (fun _ => writeJSON 503 (rb_status "unavailable" EmptyString "realm is not initialized")) (GetMeta MetaRealm);
  mret (writeJSON 200 (rb_status "ok" realm EmptyString)).

Definition count_if {T} (f : T -> bool) (l : list T) : Z := Z.of_nat (List.length (List.filter f l)).

Definition handleStats : A ApiReply :=
  us ← a_call ListUsers;
  gs ← a_call ListGroups;
  ps ← a_call (ListPrincipals EmptyString);
  ts ← a_call ListTrusts;
  mret (writeJSON 200 (rb_stats (mkStatsBody (apc_Realm cfg) (Z.of_nat (List.length us)) (count_if u_Disabled us)
          (count_if (fun u => negb (u_HasPassword u)) us) (Z.of_nat (List.length gs)) (Z.of_nat (List.length ps))
          (Z.of_nat (List.length ts)) (encTypeNames (apc_EncTypes cfg))))).
End Handlers.
