(* ===== verification/ApiRoutes.v ===== *)
(** * The management API: routes (server.go, docs.go, console.go)

    The tables of routes, the multiplexer they are registered with, and the whole service: what
    answers a request. *)

From S2P Require Import Prelude Text Hostport Duration Netip Names Keytab Failban Replay Model Secret IdRange Db Principals Directory Accounts Certs Zone Dns LdapEntries Ldap Sasl Jws Vault Api ApiHandlers ApiKerberos.

(** ** Patterns of [http.ServeMux] *)

(** A segment that has to be there, one that may be any, and the rest of the path. *)
Inductive seg : Type := Lit (s : string) | Wild (name : string) | Rest (name : string).

Record pattern : Type := mkPattern { pn_method : option string; pn_path : list seg }.

Definition segment (s : string) : seg :=
  match CutPrefix s "{" with
  | None => Lit s
  | Some inner =>
      let inner := TrimSuffix inner "}" in
      if String.eqb inner "$" then Lit EmptyString
      else match CutSuffix inner "..." with Some name => Rest name | None => Wild inner end
  end.

(** A trailing slash stands for everything below. *)
Fixpoint segments (l : list string) : list seg :=
  match l with
  | [] => []
  | [EmptyString] => [Rest EmptyString]
  | s :: l' => segment s :: segments l'
  end.

(** [METHOD /path], or [/path] for every method. *)
Definition parse_pattern (text : string) : pattern :=
  match Cut " "%char text with
  | Some (method, path) => mkPattern (Some method) (segments (drop 1 (split_char "/"%char path)))
  | None => mkPattern None (segments (drop 1 (split_char "/"%char text)))
  end.

(** A pattern for GET answers HEAD too. *)
Definition method_matches (p : pattern) (method : string) : bool :=
  match pn_method p with
  | None => true
  | Some m => String.eqb m method || String.eqb m "GET" && String.eqb method "HEAD"
  end.

Fixpoint match_path (p : list seg) (path : list string) (vals : Values) : option Values :=
  match p, path with
  | [], [] => Some vals
  | Lit s :: p', x :: path' => if String.eqb s x then match_path p' path' vals else None
  | Wild n :: p', x :: path' => if is_empty x then None else match_path p' path' (<[n := x]> vals)
  | Rest n :: _, _ :: _ => Some (<[n := Join "/" path]> vals)
  | _, _ => None
  end.

Record route (H : Type) : Type := mkRoute { rt_pattern : pattern; rt_handler : H }.
Arguments mkRoute {H}.
Arguments rt_pattern {H}.
Arguments rt_handler {H}.

Definition route_matches {H} (r : ApiReq) (rt : route H) : option Values :=
  if method_matches (rt_pattern rt) (aq_Method r) then match_path (pn_path (rt_pattern rt)) (aq_Path r) ∅ else None.

(** The handler of a request with the values of its path. No request matches two routes of a table
    ([api_route_unique]), so the order they are tried in does not matter. *)
Fixpoint mux_find {H} (table : list (route H)) (r : ApiReq) : option (H * Values) :=
  match table with
  | [] => None
  | rt :: table' => match route_matches r rt with Some vals => Some (rt_handler rt, vals) | None => mux_find table' r end
  end.

(** What the multiplexer answers itself: another method of a path it knows, or nothing. *)
Definition mux_refusal {H} (table : list (route H)) (r : ApiReq) : ApiReply :=
  if existsb (fun rt => bool_decide (is_Some (match_path (pn_path (rt_pattern rt)) (aq_Path r) ∅))) table
  then writeError 405 "Method Not Allowed" else writeError 404 "404 page not found".

(** ** The tables *)

Section Routes.
Context `{Ck : Clock, Rn : Rand, Ae : AEAD, Bc : Bcrypt, Tt : Totp, El : EncTypeLib, Et : EncTypeTable, Dl : DnsLib, Ul : UrlLib, Xl : X509Lib, Aj : ApiJSON, Js : JSON, Sh : Sha256, Ec : ECDSA, Sp : SpnegoLib}.
Context (cfg : ApiConfig) (sig : Signer) (spn : Name).

Abbreviation public := (route (ApiReq -> A ApiReply)).
Abbreviation private := (route (caller -> ApiReq -> Values -> A ApiReply)).

Definition on (text : string) {H} (h : H) : route H := mkRoute (parse_pattern text) h.

Definition document : ApiReply := writeJSON 200 rb_document.

Definition publicRoutes : list public := [
  on "GET /healthz" (fun _ => handleHealth);
  on "GET /readyz" (fun _ => handleReady);
  on "POST /api/v1/auth/login" (handleLogin json_login cfg sig);
  on "GET /api/v1/auth/negotiate" (handleNegotiate cfg sig spn);
  on "GET /metrics" (fun _ => mret document)
].

Definition docsRoutes : list public :=
  if negb (apc_Docs cfg) then []
  else [
    on "GET /api/openapi.json" (fun _ => mret document);
    on "GET /api/docs" (fun _ => mret (writeJSON 301 rb_document));
    on "GET /api/docs/{file...}" (fun _ => mret document)
  ].

Definition consoleRoutes : list public :=
  if negb (apc_UI cfg) then []
  else [
    on "GET /ui/" (fun _ => mret document);
    on "GET /{$}" (fun _ => mret (writeJSON 302 rb_document))
  ].

Definition plain (h : A ApiReply) : caller -> ApiReq -> Values -> A ApiReply := fun _ _ _ => h.
Definition with_req (h : ApiReq -> A ApiReply) : caller -> ApiReq -> Values -> A ApiReply := fun _ r _ => h r.
Definition with_path (k : string) (h : string -> A ApiReply) : caller -> ApiReq -> Values -> A ApiReply := fun _ _ v => h (Get v k).
Definition with_both (k : string) (h : ApiReq -> string -> A ApiReply) : caller -> ApiReq -> Values -> A ApiReply := fun _ r v => h r (Get v k).

Definition apiRoutes : list private := [
  on "GET /api/v1/auth/whoami" (fun c _ _ => handleWhoAmI c);
  on "GET /api/v1/openapi.json" (plain (mret document));
  on "GET /api/v1/stats" (plain (handleStats cfg));
  on "GET /api/v1/users" (plain handleListUsers);
  on "POST /api/v1/users" (with_req (handleCreateUser cfg));
  on "GET /api/v1/users/{name}" (with_path "name" (handleGetUser cfg));
  on "PATCH /api/v1/users/{name}" (with_both "name" (handlePatchUser cfg));
  on "DELETE /api/v1/users/{name}" (with_path "name" handleDeleteUser);
  on "POST /api/v1/users/{name}/password" (with_both "name" (handleSetUserPassword cfg));
  on "GET /api/v1/users/{name}/app-passwords" (with_path "name" handleListAppPasswords);
  on "POST /api/v1/users/{name}/app-passwords" (with_both "name" (handleCreateAppPassword cfg));
  on "DELETE /api/v1/users/{name}/app-passwords/{id}" (fun _ _ v => handleDeleteAppPassword (Get v "name") (Get v "id"));
  on "GET /api/v1/users/{name}/certificates" (with_path "name" handleListUserCertificates);
  on "POST /api/v1/users/{name}/certificates/import" (with_both "name" handleImportUserCertificate);
  on "GET /api/v1/groups" (plain handleListGroups);
  on "POST /api/v1/groups" (with_req handleCreateGroup);
  on "GET /api/v1/groups/{name}" (with_path "name" handleGetGroup);
  on "PATCH /api/v1/groups/{name}" (with_both "name" handlePatchGroup);
  on "DELETE /api/v1/groups/{name}" (with_path "name" handleDeleteGroup);
  on "GET /api/v1/groups/{name}/members" (with_path "name" handleGroupMembers);
  on "GET /api/v1/principals" (with_req handleListPrincipals);
  on "POST /api/v1/principals" (with_req (handleCreatePrincipal cfg));
  on "GET /api/v1/principals/{name...}" (with_path "name" (handlePrincipalGet cfg));
  on "POST /api/v1/principals/{name...}" (with_both "name" (handlePrincipalPost cfg));
  on "PATCH /api/v1/principals/{name...}" (with_both "name" (handlePatchPrincipal cfg));
  on "DELETE /api/v1/principals/{name...}" (with_path "name" (handleDeletePrincipal cfg));
  on "POST /api/v1/keytab" (with_req (handleKeytab cfg));
  on "GET /api/v1/dns/records" (with_req (handleListDNSRecords cfg));
  on "POST /api/v1/dns/records" (with_req (handleCreateDNSRecord cfg));
  on "DELETE /api/v1/dns/records/{id}" (with_path "id" handleDeleteDNSRecord);
  on "GET /api/v1/trusts" (plain handleListTrusts);
  on "POST /api/v1/trusts" (with_req (handleCreateTrust cfg));
  on "GET /api/v1/trusts/{realm}" (with_path "realm" handleGetTrust);
  on "PATCH /api/v1/trusts/{realm}" (with_both "realm" handlePatchTrust);
  on "DELETE /api/v1/trusts/{realm}" (with_path "realm" (handleDeleteTrust cfg));
  on "PUT /api/v1/vault/config" (with_req (handlePutVaultConfig cfg));
  on "GET /api/v1/vault/status" (plain handleGetVaultStatus);
  on "DELETE /api/v1/vault/config" (plain handleDeleteVaultConfig)
].

(** The multiplexer behind the token. *)
Definition api_mux (r : ApiReq) (c : caller) : A ApiReply :=
  match mux_find apiRoutes r with
  | Some (h, vals) => h c r vals
  | None => throw (mux_refusal apiRoutes r)
  end.

(** [routes]: every other pattern is more specific than [/api/] or apart from it. *)
Definition routes (r : ApiReq) : A ApiReply :=
  let table := publicRoutes ++ docsRoutes ++ consoleRoutes in
  match mux_find table r with
  | Some (h, _) => h r
  | None =>
      match match_path [Lit "api"; Rest EmptyString] (aq_Path r) ∅ with
      | Some _ => authenticate cfg sig (api_mux r) r
      | None => throw (mux_refusal table r)
      end
  end.

(** The reply to a request, and the state it leaves. *)
Definition serve (r : ApiReq) : AServer -> option ApiReply * AServer := returns (routes r).
End Routes.

(** ** No request has two handlers *)

Definition methods_meet (m m' : option string) : bool :=
  match m, m' with
  | Some a, Some b => String.eqb a b
  | _, _ => true
  end.

Definition seg_meets (a b : seg) : bool :=
  match a, b with
  | Lit s, Lit t => String.eqb s t
  | Lit s, Wild _ | Wild _, Lit s => non_empty s
  | _, _ => true
  end.

Fixpoint paths_meet (p q : list seg) : bool :=
  match p, q with
  | [], [] => true
  | Rest _ :: _, _ :: _ | _ :: _, Rest _ :: _ => true
  | a :: p', b :: q' => seg_meets a b && paths_meet p' q'
  | _, _ => false
  end.

Definition patterns_meet (p q : pattern) : bool := methods_meet (pn_method p) (pn_method q) && paths_meet (pn_path p) (pn_path q).

(** The methods of the table apart from GET do not answer for one another. *)
Lemma methods_meet_sound p q m :
  method_matches p m = true -> method_matches q m = true -> pn_method p <> Some "HEAD" -> pn_method q <> Some "HEAD" ->
  methods_meet (pn_method p) (pn_method q) = true.
Proof.
  unfold method_matches, methods_meet. destruct (pn_method p) as [a|], (pn_method q) as [b|]; try done.
  rewrite !orb_true_iff, !andb_true_iff, !String.eqb_eq. intros [->|[-> ->]] [->|[-> E]]; try done; congruence.
Qed.

Lemma paths_meet_sound p q path v1 v2 w1 w2 :
  match_path p path v1 = Some w1 -> match_path q path v2 = Some w2 -> paths_meet p q = true.
Proof.
  revert q path v1 v2. induction p as [|a p IH]; intros q path v1 v2.
  - destruct path; [|done]. destruct q as [|[] q]; done.
  - destruct path as [|x path]; [by destruct a|]. intros Hp Hq. destruct q as [|b q]; [done|].
    destruct a as [s|n|n], b as [t|m|m]; cbn in Hp, Hq |- *; try done;
      repeat match goal with H : (if ?c then _ else _) = Some _ |- _ => first [destruct c eqn:?; [|done] | destruct c eqn:?; [done|]] end;
      rewrite ?(IH _ _ _ _ Hp Hq), ?andb_true_r; simp_bool; subst; try (by apply String.eqb_refl).
    all: by destruct x.
Qed.

(** Two by two, apart. *)
Fixpoint all_apart (l : list pattern) : bool :=
  match l with
  | [] => true
  | p :: l' => forallb (fun q => negb (patterns_meet p q)) l' && all_apart l'
  end.

Lemma all_apart_unique {H} (table : list (route H)) (r : ApiReq) (i j : nat) (rt rt' : route H) (v v' : Values) :
  all_apart (rt_pattern <$> table) = true -> forallb (fun rt => negb (bool_decide (pn_method (rt_pattern rt) = Some "HEAD"))) table = true ->
  table !! i = Some rt -> table !! j = Some rt' -> route_matches r rt = Some v -> route_matches r rt' = Some v' -> i = j.
Proof.
  assert (Hmeet : forall a b : route H, pn_method (rt_pattern a) <> Some "HEAD" -> pn_method (rt_pattern b) <> Some "HEAD" ->
    route_matches r a = Some v \/ route_matches r a = Some v' -> route_matches r b = Some v \/ route_matches r b = Some v' ->
    patterns_meet (rt_pattern a) (rt_pattern b) = true).
  { intros a b Ha Hb Ma Mb. unfold route_matches in *.
    destruct (method_matches (rt_pattern a) _) eqn:E1; [|naive_solver]. destruct (method_matches (rt_pattern b) _) eqn:E2; [|naive_solver].
    apply andb_true_iff. split; [by eapply methods_meet_sound|]. destruct Ma, Mb; by eapply paths_meet_sound. }
  revert i j. induction table as [|x table IH]; intros i j Hap Hhead Hi Hj Mi Mj; [done|].
  cbn in Hap, Hhead. apply andb_true_iff in Hap as [Hx Hap]. apply andb_true_iff in Hhead as [Hhx Hhead].
  rewrite forallb_forall in Hx, Hhead. simp_bool.
  assert (Hfar : forall k y, table !! k = Some y -> patterns_meet (rt_pattern x) (rt_pattern y) = false /\ pn_method (rt_pattern y) <> Some "HEAD").
  { intros k y Hk%list_elem_of_lookup_2. split.
    - apply negb_true_iff, Hx, in_map. by apply list_elem_of_In.
    - apply list_elem_of_In, Hhead in Hk. by simp_bool. }
  destruct i as [|i], j as [|j]; cbn in Hi, Hj; [done| | |].
  - injection Hi as <-. destruct (Hfar _ _ Hj) as [Hf Hh]. rewrite (Hmeet x rt') in Hf; [done|done|done|tauto|tauto].
  - injection Hj as <-. destruct (Hfar _ _ Hi) as [Hf Hh]. rewrite (Hmeet x rt) in Hf; [done|done|done|tauto|tauto].
  - f_equal. apply IH; try done. by apply forallb_forall.
Qed.

Section Unique.
Context `{Ck : Clock, Rn : Rand, Ae : AEAD, Bc : Bcrypt, Tt : Totp, El : EncTypeLib, Et : EncTypeTable, Dl : DnsLib, Ul : UrlLib, Xl : X509Lib, Aj : ApiJSON, Js : JSON, Sh : Sha256, Ec : ECDSA, Sp : SpnegoLib}.
Context (cfg : ApiConfig) (sig : Signer) (spn : Name).

(** No request matches two routes behind the token. *)
Lemma api_route_unique (r : ApiReq) (i j : nat) rt rt' v v' :
  apiRoutes cfg !! i = Some rt -> apiRoutes cfg !! j = Some rt' ->
  route_matches r rt = Some v -> route_matches r rt' = Some v' -> i = j.
Proof. apply all_apart_unique; vm_compute; reflexivity. Qed.

(** Nor two of the routes outside it. *)
Lemma public_route_unique (r : ApiReq) (i j : nat) rt rt' v v' :
  (publicRoutes cfg sig spn ++ docsRoutes cfg ++ consoleRoutes cfg) !! i = Some rt ->
  (publicRoutes cfg sig spn ++ docsRoutes cfg ++ consoleRoutes cfg) !! j = Some rt' ->
  route_matches r rt = Some v -> route_matches r rt' = Some v' -> i = j.
Proof. apply all_apart_unique; unfold docsRoutes, consoleRoutes; destruct (apc_Docs cfg), (apc_UI cfg); vm_compute; reflexivity. Qed.
End Unique.
