(* ===== verification/ApiFacts.v ===== *)
(** * Who the management API serves

    Without the management token or a session of an account that administers the directory now, a
    request changes nothing and learns nothing; sessions go to administrators who proved who they
    are; a session is good until it ends and for as long as its account administers the directory. *)

From S2P Require Import Prelude Text Hostport Duration Netip Base64 Names Keytab Failban Replay Model Secret IdRange Db Principals PrincipalFacts Directory Accounts Certs Zone Dns LdapEntries Ldap LdapFacts LdapSearch Sasl SaslFacts Jws Vault Api ApiHandlers ApiKerberos ApiRoutes.

Definition same_data (a a' : AServer) : Prop := st_db (as_st a') = st_db (as_st a) /\ as_vault a' = as_vault a.

(** The bodies that say nothing about the directory. *)
Definition outsider (b : ApiBody) : bool :=
  match b with
  | rb_empty | rb_error _ | rb_status _ _ _ | rb_session _ _ _ _ | rb_document => true
  | _ => false
  end.

(** A computation that writes nothing and, when it ends in a reply, replies with such a body. *)
Definition calm {T} (Q : T -> Prop) (m : A T) : Prop := forall a r a', m a = (r, a') ->
  same_data a a' /\ match r with Ok x => Q x | Err e => outsider (re_body e) = true | Panic => True end.

Definition any {T} (_ : T) : Prop := True.
Definition replies_calmly (r : ApiReply) : Prop := outsider (re_body r) = true.

Lemma acalm_bind {T U} (P : T -> Prop) (Q : U -> Prop) (m : A T) (f : T -> A U) :
  calm P m -> (forall x, P x -> calm Q (f x)) -> calm Q (x ← m; f x).
Proof.
  intros Hm Hf a r a'. rewrite bind_run. destruct (m a) as [[x|e|] a1] eqn:E; destruct (Hm _ _ _ E) as [[E1 E2] HP].
  - intros Hrun. destruct (Hf x HP _ _ _ Hrun) as [[E3 E4] HQ]. split; [split; congruence|done].
  - by intros [= <- <-].
  - by intros [= <- <-].
Qed.

Lemma acalm_ret {T} (Q : T -> Prop) x : Q x -> calm Q (mret x).
Proof. by intros HQ a r a' [= <- <-]. Qed.
Lemma acalm_throw {T} (Q : T -> Prop) e : outsider (re_body e) = true -> calm Q (throw e).
Proof. by intros HQ a r a' [= <- <-]. Qed.
Lemma acalm_lift {T} (o : outcome ApiReply T) :
  match o with Err e => outsider (re_body e) = true | _ => True end -> calm any (lift o).
Proof. intros H a r a' [= <- <-]. by destruct o. Qed.
Lemma acalm_throw_if b e : outsider (re_body e) = true -> calm any (throw_if b e).
Proof. intros H. apply acalm_lift. by destruct b. Qed.
Lemma acalm_or_err {T} e (o : option T) : outsider (re_body e) = true -> calm any (lift (or_err e o)).
Proof. intros H. apply acalm_lift. by destruct o. Qed.

Section Calm.
Context `{Ck : Clock}.

Lemma acalm_try {T} (m : Tx T) : keeps_db m -> calm any (a_try m).
Proof.
  intros Hm a r a'. unfold a_try. destruct (m (as_st a)) as [[x|e|] s'] eqn:E; intros [= <- <-];
    (split; [split; [by apply Hm in E|done]|done]).
Qed.
Lemma writeStoreError_outsider e : outsider (re_body (writeStoreError e)) = true.
Proof. by destruct e. Qed.
Lemma acalm_or {T} reply (m : Tx T) : keeps_db m -> (forall e, outsider (re_body (reply e)) = true) -> calm any (a_or reply m).
Proof.
  intros Hm Hr. unfold a_or. eapply acalm_bind; [by apply acalm_try|]. intros [e|x] _; [by apply acalm_throw|by apply acalm_ret].
Qed.
Lemma acalm_call {T} (m : Tx T) : keeps_db m -> calm any (a_call m).
Proof. intros Hm. apply acalm_or; [done|apply writeStoreError_outsider]. Qed.
Lemma acalm_now : calm any timeNow.
Proof. by intros a r a' [= <- <-]. Qed.
Lemma acalm_limiter {T} (f : Time -> Limiter -> T * Limiter) : calm any (a_limiter f).
Proof. intros a r a'. unfold a_limiter. destruct (f _ _). by intros [= <- <-]. Qed.
End Calm.

Lemma keeps_UserByLogin login : keeps_db (UserByLogin login).
Proof.
  intros s r s'. unfold UserByLogin, GetUser, ListUsers, query_outcome, query.
  repeat case_match; intros; simplify_eq; done.
Qed.

(** ** Lifetimes as text *)

(** The lifetime a principal is shown with is the lifetime it gets when the text is sent back: for
    every number of whole seconds a duration holds, of either sign, [parseDuration] undoes
    [durationString]; the unlimited lifetime, zero, is shown as nothing and nothing is read as it. *)
Lemma durationString_roundtrip (n : Z) :
  Z.abs (n * second) <= max_int64 ->
  parseDuration (durationString (n * second)) = Some (n * second) /\ (durationString (n * second) = EmptyString <-> n = 0).
Proof.
  intros Hb. unfold durationString. destruct (Z.eqb_spec (n * second) 0) as [E|E].
  { rewrite E. unfold second in E. split; [done|]. split; [lia|done]. }
  assert (Hne : Duration_String (n * second) <> EmptyString).
  { intros H. pose proof (seconds_roundtrip n Hb) as Hr. rewrite H in Hr. vm_compute in Hr. discriminate. }
  split; [|split; [done|intros ->; lia]]. unfold parseDuration. destruct (is_empty (TrimSpace _)) eqn:Et; [|by apply seconds_roundtrip].
  exfalso. pose proof (seconds_text n ltac:(unfold second in E; lia)) as Hs. rewrite <- (contains_char_TrimSpace "s"%char) in Hs by done.
  by destruct (TrimSpace _).
Qed.

Lemma durationString_roundtrip_witness :
  durationString (36000 * second) = "10h0m0s" /\ parseDuration (durationString (36000 * second)) = Some (36000 * second).
Proof. split; [reflexivity|]. apply (durationString_roundtrip 36000). vm_compute. intros H. discriminate H. Defined.

Section Api.
Context `{Ck : Clock, Rn : Rand, Ae : AEAD, Bc : Bcrypt, Tt : Totp, El : EncTypeLib, Et : EncTypeTable, Dl : DnsLib, Ul : UrlLib, Xl : X509Lib, Aj : ApiJSON, Js : JSON, Sh : Sha256, Ec : ECDSA, Sp : SpnegoLib}.
Context (cfg : ApiConfig) (sig : Signer) (spn : Name).

(** ** Authority *)

(** The account administers the directory of the store. *)
Definition administers (d : DB) (u : User) : Prop := u_Disabled u = false /\ HasCapability d u "write" (apc_BaseDN cfg) = Some true.

Lemma is_admin_run u s r s' : is_admin cfg u s = (r, s') -> s' = s /\ (r = Ok true <-> administers (st_db s) u).
Proof.
  unfold is_admin, query_outcome, IsDirectoryAdmin, administers. intros [= <- <-]. split; [done|].
  destruct (u_Disabled u); [naive_solver|]. destruct (HasCapability _ _ _ _) as [[]|]; naive_solver.
Qed.

Lemma keeps_is_admin u : keeps_db (is_admin cfg u).
Proof. apply keeps_query_outcome. Qed.

(** A token that opens the API now: ours, not over, and of an account that administers the directory. *)
Record admin_session (token : string) (a : AServer) (c : sessionClaims) (u : User) : Prop := {
  se_verifies : Verify sig token read_session = Ok c;
  se_issuer : cl_Iss c = sessionIssuer;
  se_audience : cl_Aud c = sessionAudience;
  se_current : clock (st_tick (as_st a)) < UnixTime (cl_Exp c);
  se_subject : getUser (st_db (as_st a)) (user_named (cl_Sub c)) = Ok u;
  se_admin : administers (st_db (as_st a)) u;
}.


Lemma acalm_session token : calm any (session cfg sig token).
Proof.
  unfold session. destruct (Verify sig token read_session) as [c|e|]; [|by apply acalm_ret|by apply acalm_lift].
  repeat (case_match; [by apply acalm_ret|]). eapply (acalm_bind any).
  { case_match; [by apply acalm_ret|]. eapply acalm_bind; [apply acalm_now|]. intros now _. by apply acalm_ret. }
  intros expired _. repeat (case_match; [by apply acalm_ret|]).
  eapply acalm_bind; [apply acalm_try, keeps_query_outcome|]. intros [e|u] _; [by apply acalm_ret|].
  eapply acalm_bind; [apply acalm_try, keeps_is_admin|]. intros [e|[]] _; by apply acalm_ret.
Qed.

Lemma session_Some token a k a' : session cfg sig token a = (Ok (Some k), a') ->
  exists c u, admin_session token a c u /\ k = mkCaller (u_Name u) (default methodPassword (head (cl_Amr c))) (UnixTime (cl_Exp c)).
Proof.
  unfold session. destruct (Verify sig token read_session) as [c|e|] eqn:Hv; [|by intros [= ]|done].
  destruct (String.eqb (cl_Iss c) _) eqn:Hi; cbn [negb]; [|by intros [= ]].
  destruct (String.eqb (cl_Aud c) _) eqn:Ha; cbn [negb]; [|by intros [= ]].
  destruct (Z.eqb_spec (cl_Exp c) 0) as [Hz|Hz]; rewrite bind_run; [by intros [= ]|].
  rewrite bind_run. cbn [timeNow mret M_ret]. set (a1 := set_as_st _ a).
  destruct (Before (clock (st_tick (as_st a))) (UnixTime (cl_Exp c))) eqn:Hb; cbn [negb]; [|by intros [= ]].
  destruct (is_empty (cl_Sub c)); [by intros [= ]|]. rewrite bind_run. unfold a_try at 1, GetUser, query_outcome.
  change (st_db (as_st a1)) with (st_db (as_st a)).
  destruct (getUser (st_db (as_st a)) _) as [u|e|] eqn:Hu; [|by intros [= ]|done].
  rewrite bind_run. unfold a_try. destruct (is_admin cfg u _) as [res s1] eqn:Had. apply is_admin_run in Had as [-> Hadm].
  destruct res as [[]|e|]; [|by intros [= ]|by intros [= ]|done].
  intros [= <- <-]. exists c, u. split; [|done]. simp_bool. split; try done.
  - unfold Before in Hb. by apply Z.ltb_lt.
  - by apply Hadm.
Qed.

Definition authorised (r : ApiReq) (a : AServer) : Prop :=
  exists presented, CutPrefix (aq_Authorization r) "Bearer " = Some presented /\ presented <> EmptyString /\
    (presented = apc_Token cfg \/ exists c u, admin_session presented a c u).

(** ** The routes outside *)

Lemma acalm_admit u method : calm replies_calmly (admit_session cfg sig u method).
Proof.
  unfold admit_session. eapply acalm_bind; [apply acalm_call, keeps_is_admin|]. intros admin _.
  eapply acalm_bind; [by apply acalm_throw_if|]. intros _ _. eapply acalm_bind; [apply acalm_now|]. intros now _.
  eapply acalm_bind; [apply acalm_call, keeps_draw|]. intros n _. eapply acalm_bind; [by apply acalm_or_err|]. intros token _.
  by apply acalm_ret.
Qed.

Lemma acalm_handleLogin r : calm replies_calmly (handleLogin json_login cfg sig r).
Proof.
  unfold handleLogin. eapply acalm_bind; [apply acalm_limiter|]. intros blocked _.
  eapply acalm_bind; [by apply acalm_throw_if|]. intros _ _. eapply acalm_bind; [by apply acalm_or_err|]. intros req _.
  eapply acalm_bind; [apply acalm_try, keeps_UserByLogin|]. intros found _.
  eapply (acalm_bind any).
  { destruct found as [e|u]; [destruct e; first [by apply acalm_throw | by apply acalm_ret]|].
    eapply acalm_bind; [apply acalm_now|]. intros now _. by apply acalm_ret. }
  intros [[u|] o] _; [destruct o|]; (eapply acalm_bind; [apply acalm_limiter|]; intros _ _); try (by apply acalm_throw).
  apply acalm_admit.
Qed.

Lemma keeps_previous n kvno : keeps_db (previous_keys n kvno).
Proof.
  intros s r s'. unfold previous_keys, GetPrincipalKVNO, query_outcome. repeat case_match; intros; simplify_eq; done.
Qed.
Lemma keeps_entries n kvno keys : keeps_db (keytab_entries n kvno keys).
Proof.
  induction keys as [|k keys IH]; cbn [keytab_entries]; [apply keeps_ret|].
  apply keeps_bind; [apply keeps_time_now|]. intros now. apply keeps_bind; [done|]. intros rest. apply keeps_ret.
Qed.
Lemma keeps_marshalled entries : keeps_db (marshalled entries).
Proof. by intros s r s' [= _ <-]. Qed.

Lemma keeps_spn_keytab : keeps_db (spn_keytab spn).
Proof.
  unfold spn_keytab. apply keeps_bind; [apply keeps_query_outcome|]. intros p.
  apply keeps_bind; [apply keeps_previous|]. intros prev. apply keeps_bind; [apply keeps_entries|]. intros cur.
  apply keeps_bind; [apply keeps_entries|]. intros old. apply keeps_bind; [apply keeps_marshalled|]. intros raw. apply keeps_lift.
Qed.

Lemma acalm_handleNegotiate r : calm replies_calmly (handleNegotiate cfg sig spn r).
Proof.
  unfold handleNegotiate. eapply acalm_bind; [by apply acalm_throw_if|]. intros _ _.
  eapply acalm_bind; [apply acalm_or; [apply keeps_spn_keytab|done]|]. intros kt _.
  eapply (acalm_bind any); [by intros a x a' [= <- <-]|]. intros n _.
  destruct (SPNEGOKRB5Authenticate _ _ _ _) as [|id]; [by apply acalm_ret|]. unfold negotiated.
  eapply acalm_bind; [by apply acalm_or_err|]. intros id' _. eapply acalm_bind; [by apply acalm_throw_if|]. intros _ _.
  eapply acalm_bind; [by apply acalm_throw_if|]. intros _ _.
  eapply acalm_bind; [apply acalm_lift; by destruct (ParseName _ _)|]. intros name _.
  eapply acalm_bind; [apply acalm_or; [apply keeps_query_outcome|done]|]. intros p _.
  eapply acalm_bind; [by apply acalm_or_err|]. intros uid _.
  eapply acalm_bind; [apply acalm_call, keeps_query_outcome|]. intros u _. apply acalm_admit.
Qed.

Lemma acalm_public r h vals :
  mux_find (publicRoutes cfg sig spn ++ docsRoutes cfg ++ consoleRoutes cfg) r = Some (h, vals) -> calm replies_calmly (h r).
Proof.
  assert (Hall : Forall (fun rt => calm replies_calmly (rt_handler rt r)) (publicRoutes cfg sig spn ++ docsRoutes cfg ++ consoleRoutes cfg)).
  { rewrite !Forall_app. split_and!.
    - unfold publicRoutes. rewrite !Forall_cons, Forall_nil. cbn [rt_handler on].
      split_and!; try (by apply acalm_ret); [|apply acalm_handleLogin|apply acalm_handleNegotiate|done].
      unfold handleReady. eapply acalm_bind; [apply acalm_or; [apply keeps_query_outcome|done]|]. intros realm _. by apply acalm_ret.
    - unfold docsRoutes. case_match; rewrite ?Forall_cons, Forall_nil; split_and?; try (by apply acalm_ret); done.
    - unfold consoleRoutes. case_match; rewrite ?Forall_cons, Forall_nil; split_and?; try (by apply acalm_ret); done. }
  induction Hall as [|rt table Hrt _ IH]; [done|]. cbn [mux_find]. case_match; [|done]. by intros [= <- <-].
Qed.

Lemma mux_refusal_outsider {H} (table : list (route H)) r : outsider (re_body (mux_refusal table r)) = true.
Proof. unfold mux_refusal. by case_match. Qed.

(** C4: the management API answers to nobody but an administrator. Unless a request presents the
    management token, or a session token that verifies, is not over, and whose account is there,
    enabled and may write the whole directory at that moment, then whatever its method, path and body
    it leaves the database and the certificate enrollment alone, and the reply is an error, a probe's
    answer, the public document, or a session issued by a sign-in. *)
Theorem API_requires_admin (r : ApiReq) (a a' : AServer) (reply : option ApiReply) :
  serve cfg sig spn r a = (reply, a') ->
  authorised r a \/
  (st_db (as_st a') = st_db (as_st a) /\ as_vault a' = as_vault a /\
   match reply with Some re => outsider (re_body re) = true | None => True end).
Proof.
  unfold serve, returns. destruct (routes cfg sig spn r a) as [res a1] eqn:Hrun.
  assert (Hcalm : forall m, m a = (res, a1) -> calm replies_calmly m ->
    same_data a a1 /\ match res with Ok x | Err x => outsider (re_body x) = true | Panic => True end).
  { intros m E Hm. apply Hm in E as [Hs HP]. split; [done|]. by destruct res. }
  intros Hret. assert (Hgoal : authorised r a \/
    (same_data a a1 /\ match res with Ok x | Err x => outsider (re_body x) = true | Panic => True end)); cycle 1.
  { destruct Hgoal as [Hau|[[E1 E2] Hb]]; [by left|right]. destruct res; injection Hret as <- <-; done. }
  unfold routes in Hrun. destruct (mux_find _ r) as [[h vals]|] eqn:Hm.
  { right. apply acalm_public in Hm. by apply (Hcalm (h r)). }
  destruct (match_path _ _ _); [|right; apply (Hcalm _ Hrun), acalm_throw, mux_refusal_outsider].
  unfold authenticate in Hrun. rewrite bind_run in Hrun. unfold lift at 1 in Hrun.
  destruct (CutPrefix _ _) as [presented|] eqn:Hp; [|injection Hrun as <- <-; by right].
  destruct (is_empty presented) eqn:He; [injection Hrun as <- <-; by right|].
  assert (Hne : presented <> EmptyString) by (by intros ->).
  destruct (non_empty (apc_Token cfg) && String.eqb presented (apc_Token cfg)) eqn:Ht.
  { left. exists presented. simp_bool. auto. }
  rewrite bind_run in Hrun. destruct (session cfg sig presented a) as [[[k|]|e|] a2] eqn:Hs.
  - left. apply session_Some in Hs as (c & u & Hadm & _). exists presented. split; [done|]. split; [done|]. right. by exists c, u.
  - right. injection Hrun as <- <-. apply acalm_session in Hs as [Hd _]. by split.
  - right. injection Hrun as <- <-. by apply acalm_session in Hs.
  - right. injection Hrun as <- <-. by apply acalm_session in Hs.
Qed.

(** ** Sign-in *)

Lemma a_try_run {T} (m : Tx T) a x a' : a_try m a = (Ok x, a') ->
  exists s', a' = set_as_st s' a /\
    match x with inr y => m (as_st a) = (Ok y, s') | inl e => m (as_st a) = (Err e, s') end.
Proof. unfold a_try. destruct (m (as_st a)) as [[y|e|] s']; intros [= <- <-]; by exists s'. Qed.

Lemma a_or_run {T} reply (m : Tx T) a y a' : a_or reply m a = (Ok y, a') ->
  exists s', a' = set_as_st s' a /\ m (as_st a) = (Ok y, s').
Proof.
  unfold a_or. rewrite bind_run. destruct (a_try m a) as [[[e|x]|e|] a1] eqn:E; try done.
  intros [= <- <-]. apply a_try_run in E as (s' & -> & E). by exists s'.
Qed.

(** The session [admit_session] issues is signed, and says who, how and until when. *)
Lemma admit_run u method a reply a' : admit_session cfg sig u method a = (Ok reply, a') ->
  administers (st_db (as_st a)) u /\
  exists now n token, now = clock (st_tick (as_st a)) /\
    Sign sig n (session_claims (u_Name u) method (Unix now) (Unix (now + apc_SessionLifetime cfg))) = Some token /\
    reply = writeJSON 200 (rb_session token (u_Name u) method (UnixTime (Unix (now + apc_SessionLifetime cfg)))).
Proof.
  unfold admit_session. intros Hrun. run_inv.
  match goal with H : a_call (is_admin _ _) _ = _ |- _ => apply a_or_run in H as (s1 & -> & H); apply is_admin_run in H as [-> Had] end.
  simp_bool. subst. split; [by apply Had|].
  match goal with H : timeNow _ = _ |- _ => injection H as <- <- end. eauto 7.
Qed.

(** Who the identity of a ticket is an account of. *)
Definition ticket_account (d : DB) (id : Identity) (u : User) : Prop :=
  id_Authenticated id = true /\ EqualFold (id_Domain id) (apc_Realm cfg) = true /\
  exists name p uid, ParseName (id_UserName id) (apc_Realm cfg) = Ok name /\ getPrincipal d name 0 = Ok p /\
    p_UserID p = Some uid /\ getUser d (fun r => ur_id r =? uid) = Ok u.

(** Who gets a session. A sign-in with a password gives one only from a source that is not
    blocked, for the account its login names, whose own password (with the one-time code, never an
    application password) was presented and who is enabled; a sign-in with a ticket only for an
    identity the library verified against the service's keys, of this realm, whose principal belongs
    to an account. In both cases the account administers the directory, and the token is signed, names
    that account and ends with the configured lifetime. *)
Lemma session_issued (r : ApiReq) (a a' : AServer) (reply : ApiReply) (token subject method : string) (expires : Time) :
  handleLogin json_login cfg sig r a = (Ok reply, a') \/ handleNegotiate cfg sig spn r a = (Ok reply, a') ->
  re_body reply = rb_session token subject method expires ->
  exists u, u_Name u = subject /\ administers (st_db (as_st a)) u /\
    (exists now n, Sign sig n (session_claims subject method (Unix now) (Unix (now + apc_SessionLifetime cfg))) = Some token /\
       expires = UnixTime (Unix (now + apc_SessionLifetime cfg))) /\
    ((method = methodPassword /\ fst (Blocked (apc_Limits cfg) (clock (st_tick (as_st a))) (clientIP r) (as_limiter a)) = false /\
      exists req s now, json_login (body_prefix (aq_Body r)) = Some req /\ st_db s = st_db (as_st a) /\
        fst (UserByLogin (lr_Login req) s) = Ok u /\ Authenticate now u (lr_Password req) = OutcomeOK) \/
     (method = methodKerberos /\ Components spn <> [] /\
      exists n kt id, SPNEGOKRB5Authenticate n kt (Principal_of spn) (aq_Authorization r) = sp_next (Some id) /\
        ticket_account (st_db (as_st a)) id u)).
Proof.
  intros [Hrun|Hrun] Hbody.
  - unfold handleLogin in Hrun. run_inv.
    match goal with H : a_Blocked _ _ _ = _ |- _ => unfold a_Blocked, a_limiter in H; destruct (Blocked _ _ _ _) as [b l] eqn:Eb; injection H as <- <- end.
    match goal with H : a_try (UserByLogin _) _ = _ |- _ => rename H into Hl; pose proof (acalm_try _ (keeps_UserByLogin _) _ _ _ Hl) as [[Hd _] _]; apply a_try_run in Hl as (s2 & -> & Hl) end.
    match type of Hl with match ?x with _ => _ end => destruct x as [e|u] end; [destruct e; by run_inv|].
    match goal with H : decode _ _ _ = _ |- _ => unfold decode in H; run_inv end.
    run_inv.
    match goal with H : timeNow _ = _ |- _ => injection H as <- <- end.
    destruct (Authenticate _ u _) eqn:Hau; run_inv.
    match goal with H : a_NoteSuccess _ _ _ = _ |- _ => injection H as <- <- end.
    apply admit_run in Hrun as (Hadm & now & n & tok & _ & Hsign & ->). cbn in Hbody. injection Hbody as <- <- <- <-.
    exists u. cbn [as_st set_as_st set_as_limiter] in *. split; [done|]. cbn [st_db snd time_now] in *. rewrite Hd in Hadm. split; [exact Hadm|]. split; [eauto|].
    left. split; [done|]. split; [done|]. do 3 eexists. split; [eassumption|]. split; [|split; [|exact Hau]]; [|by rewrite Hl]. done.
  - unfold handleNegotiate in Hrun. run_inv.
    match goal with H : a_or _ (spn_keytab spn) _ = _ |- _ => apply a_or_run in H as (s1 & -> & Hd); apply keeps_spn_keytab in Hd end.
    destruct (SPNEGOKRB5Authenticate _ _ _ _) as [|id] eqn:Hsp; [by run_inv|]. unfold negotiated in Hrun. run_inv.
    repeat match goal with H : a_or _ _ _ = (Ok _, _) |- _ => apply a_or_run in H as (? & -> & H); unfold GetPrincipal, GetUserByID, query_outcome in H; injection H as H <-
      | H : a_call _ _ = (Ok _, _) |- _ => unfold a_call in H end.
    subst. apply admit_run in Hrun as (Hadm & now & n & tok & _ & Hsign & ->). cbn in Hbody. injection Hbody as <- <- <- <-.
    cbn [as_st set_as_st] in *. rewrite Hd in *. destruct (ParseName _ (apc_Realm cfg)) as [nm|e|] eqn:Hn; simplify_eq. simp_bool.
    eexists. split; [reflexivity|]. split; [exact Hadm|]. split; [eauto|]. right. split; [done|]. split.
    { intros E. by rewrite E in *. }
    do 3 eexists. split; [exact Hsp|]. split; [done|]. split; [done|].
    do 3 eexists. split; [exact Hn|]. eauto.
Qed.

(** ** The life of a session *)

Context `{JsL : !JSONLaws Js, EcL : !ECDSALaws Ec}.

Lemma session_claims_plain subject method iat exp :
  plain_text subject = true -> plain_text method = true -> min_int64 <= iat <= max_int64 -> min_int64 <= exp <= max_int64 ->
  plain_claims (session_claims subject method iat exp).
Proof.
  intros Hs Hm Hi He k c Hl. apply elem_of_list_to_map_2 in Hl. rewrite !elem_of_cons, elem_of_nil in Hl.
  destruct Hl as [[= -> ->]|[[= -> ->]|[[= -> ->]|[[= -> ->]|[[= -> ->]|[[= -> ->]|[]]]]]]]; split; try done; cbn.
  - apply andb_true_iff. rewrite !Z.leb_le. lia.
  - apply andb_true_iff. rewrite !Z.leb_le. lia.
  - by rewrite Hm.
Qed.

Lemma read_session_claims subject method iat exp : min_int64 <= exp <= max_int64 ->
  read_session (session_claims subject method iat exp) = Some (mkSessionClaims sessionIssuer sessionAudience subject exp [method]).
Proof.
  intros He. unfold read_session.
  change (str_field "iss" _) with (Some sessionIssuer). change (str_field "aud" _) with (Some sessionAudience).
  change (str_field "sub" _) with (Some subject). change (list_field "amr" _) with (Some [method]).
  change (int_field "exp" (session_claims subject method iat exp)) with (if (min_int64 <=? exp) && (exp <=? max_int64) then Some exp else None).
  rewrite (proj2 (andb_true_iff _ _)) by (rewrite !Z.leb_le; lia). done.
Qed.

(** A token whose claims are known is judged by the clock and by the directory. *)
Lemma session_of_claims token b subject method exp :
  Verify sig token read_session = Ok (mkSessionClaims sessionIssuer sessionAudience subject exp [method]) ->
  exp <> 0 -> subject <> EmptyString -> forall k,
  fst (session cfg sig token b) = Ok (Some k) <->
  clock (st_tick (as_st b)) < UnixTime exp /\
  exists v, getUser (st_db (as_st b)) (user_named subject) = Ok v /\ administers (st_db (as_st b)) v /\
    k = mkCaller (u_Name v) method (UnixTime exp).
Proof.
  intros Hv Hz Hne k. split.
  - destruct (session cfg sig token b) as [res b'] eqn:Hs. cbn [fst]. intros ->.
    apply session_Some in Hs as (c & v & [H1 H2 H3 H4 H5 H6] & ->). rewrite Hv in H1. injection H1 as <-. eauto.
  - intros (Hnow & v & Hu & Hadm & ->). unfold session. rewrite Hv. cbn [cl_Iss cl_Aud cl_Exp cl_Sub cl_Amr head default].
    rewrite !String.eqb_refl. cbn [negb]. rewrite (proj2 (Z.eqb_neq _ _) Hz). rewrite !bind_run. cbn [timeNow mret M_ret].
    unfold Before. rewrite (proj2 (Z.ltb_lt _ _) Hnow). cbn [negb]. destruct (is_empty subject) eqn:E; [by destruct subject|].
    rewrite bind_run. unfold a_try at 1, GetUser, query_outcome. cbn [as_st set_as_st st_db snd time_now] in *. rewrite Hu.
    rewrite bind_run. unfold a_try. destruct (is_admin cfg v _) as [res s1] eqn:Hi. apply is_admin_run in Hi as [-> Hi].
    rewrite (proj2 Hi Hadm). done.
Qed.

(** A session lasts until the moment it was given, and no longer than the authority it was given
    for. Whatever has happened to the service since, the token [admit_session] issued opens it exactly while
    the clock is before the end the caller was told and the account of that name is there, enabled and
    may write the whole directory; the caller it stands for is that account, signed in as it was. *)
Lemma session_lives (u : User) (method : string) (a a1 b : AServer) (reply : ApiReply) (token subject how : string) (expires : Time) :
  plain_text (sg_kid sig) = true -> plain_text (u_Name u) = true -> u_Name u <> EmptyString -> method = methodPassword \/ method = methodKerberos ->
  0 < clock (st_tick (as_st a)) -> 0 < Unix expires <= max_int64 -> 0 <= apc_SessionLifetime cfg ->
  admit_session cfg sig u method a = (Ok reply, a1) -> re_body reply = rb_session token subject how expires ->
  forall k, fst (session cfg sig token b) = Ok (Some k) <->
    clock (st_tick (as_st b)) < expires /\
    exists v, getUser (st_db (as_st b)) (user_named (u_Name u)) = Ok v /\ administers (st_db (as_st b)) v /\
      k = mkCaller (u_Name v) method expires.
Proof.
  intros Hkid Hname Hne Hm Hnow He Hlife Had Hbody k. apply admit_run in Had as (_ & now & n & tok & -> & Hsign & ->).
  cbn in Hbody. injection Hbody as <- <- <- <-.
  rewrite Unix_UnixTime in He. assert (Hexp := He). unfold Unix in Hexp.
  assert (Hb : min_int64 <= Unix (clock (st_tick (as_st a))) <= max_int64).
  { unfold Unix. pose proof (Z.div_le_mono (clock (st_tick (as_st a))) (clock (st_tick (as_st a)) + apc_SessionLifetime cfg) second).
    pose proof (Z.div_pos (clock (st_tick (as_st a))) second). unfold second, min_int64, max_int64 in *. lia. }
  apply session_of_claims; [|lia|done]. eapply sign_verifies; [done|apply session_claims_plain|apply read_session_claims|exact Hsign];
    try done; [by destruct Hm; subst|unfold min_int64 in *; lia..].
Qed.
End Api.
