(* ===== verification/ApiWrites.v ===== *)
(** * What the management API writes

    An account that is disabled is disabled for Kerberos too; the realm keeps its ticket-granting
    principal; a keytab holds the keys that are current. The proofs go through a frame: what every
    step of a computation respects, the computation respects. *)

From S2P Require Import Prelude Text Hostport Duration Netip Base64 Names Keytab Failban Replay Model Secret IdRange Db Principals PrincipalFacts Directory DirectoryFacts Accounts Certs AccountsOk Zone Dns LdapEntries Ldap LdapFacts LdapSearch Sasl SaslFacts Jws Vault Api ApiHandlers ApiKerberos ApiRoutes ApiFacts.

(** ** Frames of a handler *)

Section ApiFrame.
Context (R : relation DB) `{!PreOrder R}.

(** Whatever it answers, the handler moves the database along the relation. *)
Definition a_within {T} (m : A T) : Prop := forall a r a', m a = (r, a') -> R (st_db (as_st a)) (st_db (as_st a')).

Lemma a_within_bind {T U} (m : A T) (f : T -> A U) : a_within m -> (forall x, a_within (f x)) -> a_within (x ← m; f x).
Proof.
  intros Hm Hf s r s'. rewrite bind_run. destruct (m s) as [[x|e|] s1] eqn:E1; apply Hm in E1; [|by intros [= _ <-]..].
  intros E2%Hf. by etrans.
Qed.
Lemma a_within_ret {T} (x : T) : a_within (mret x).
Proof. by intros a r a' [= _ <-]. Qed.
Lemma a_within_lift {T} (o : outcome ApiReply T) : a_within (lift o).
Proof. by intros a r a' [= _ <-]. Qed.
Lemma a_within_throw {T} e : a_within (throw (A := T) e).
Proof. by intros a r a' [= _ <-]. Qed.
Lemma a_within_throw_if b e : a_within (throw_if b e).
Proof. by intros a r a' [= _ <-]. Qed.
Lemma a_within_guard {T} (b : bool) e (m : A T) : (b = false -> a_within m) -> a_within (_ ← throw_if b e; m).
Proof. intros Hm a r a'. rewrite bind_run. unfold throw_if, lift. destruct b; cbn [err_if]; [by intros [= _ <-]|]. by apply Hm. Qed.
Lemma a_within_try {T} (m : Tx T) : within R m -> a_within (a_try m).
Proof. intros Hm a r a'. unfold a_try. destruct (m (as_st a)) as [[x|e|] s'] eqn:E1; intros [= _ <-]; by apply Hm in E1. Qed.
Lemma a_within_or {T} reply (m : Tx T) : within R m -> a_within (a_or reply m).
Proof. intros Hm. apply a_within_bind; [by apply a_within_try|]. intros [e|x]; [apply a_within_throw|apply a_within_ret]. Qed.
Lemma a_within_call {T} (m : Tx T) : within R m -> a_within (a_call m).
Proof. apply a_within_or. Qed.
Lemma a_within_if {T} (b : bool) (m n : A T) : a_within m -> a_within n -> a_within (if b then m else n).
Proof. by destruct b. Qed.
Lemma a_within_for_each {X} (f : X -> A unit) l : (forall x, a_within (f x)) -> a_within (for_each f l).
Proof. intros Hf. induction l as [|x l IH]; cbn [for_each]; [apply a_within_ret|]. apply a_within_bind; [apply Hf|]. done. Qed.
Lemma a_within_calm {T} (Q : T -> Prop) (m : A T) : calm Q m -> a_within m.
Proof. intros Hm a r a' Hrun. apply Hm in Hrun as [[Hd _] _]. by rewrite Hd. Qed.
End ApiFrame.

(** Down to the steps that touch the tables. *)
Ltac a_frame_step :=
  match goal with
  | |- a_within _ (a_call _) => apply a_within_call; [tc_solve|]
  | |- a_within _ (a_or _ _) => apply a_within_or; [tc_solve|]
  | |- a_within _ (a_try _) => apply a_within_try
  | |- a_within _ (mbind _ _) => apply a_within_bind; [tc_solve| |intros ?]
  | |- a_within _ (if _ then _ else _) => apply a_within_if
  | |- a_within _ (for_each _ _) => apply a_within_for_each; [tc_solve|intros ?]
  | |- a_within _ (mret _) => apply a_within_ret; tc_solve
  | |- a_within _ (lift _) => apply a_within_lift; tc_solve
  | |- a_within _ (throw _) => apply a_within_throw; tc_solve
  | |- a_within _ (throw_if _ _) => apply a_within_throw_if; tc_solve
  end.
Ltac frame ::= repeat first [frame_step | a_frame_step].

(** ** Principals, changed one at a time *)

(** What leaves the rows of the principals and the directory alone. *)
Definition rows_kept (d d' : DB) : Prop :=
  principals (kt d') = principals (kt d) /\ dt d' = dt d /\ seq_principals (kt d') = seq_principals (kt d) /\ trusts (kt d') = trusts (kt d).
#[export] Instance rows_kept_preorder : PreOrder rows_kept.
Proof. split; [done|]. intros d1 d2 d3 (E1 & E2 & E3 & E4) (F1 & F2 & F3 & F4). unfold rows_kept. split_and!; congruence. Qed.

Section Writes.
Context `{Ck : Clock, Rn : Rand, Ae : AEAD, Bc : Bcrypt, Tt : Totp, El : EncTypeLib, Et : EncTypeTable, Dl : DnsLib, Ul : UrlLib, Xl : X509Lib, Aj : ApiJSON}.
Context (cfg : ApiConfig).

Lemma replaceAliases_rows p : within rows_kept (replaceAliases p).
Proof. unfold replaceAliases, insert_alias. frame. apply within_exec; [tc_solve|]. intros d d'. case_match; [done|]. by intros [= <-]. Qed.

Lemma UpdatePrincipal_run name f s q s' : UpdatePrincipal name f s = (Ok q, s') ->
  exists p p' now, getPrincipal (st_db s) name 0 = Ok p /\ f p = Ok p' /\ dt (st_db s') = dt (st_db s) /\
    seq_principals (kt (st_db s')) = seq_principals (kt (st_db s)) /\ trusts (kt (st_db s')) = trusts (kt (st_db s)) /\
    principals (kt (st_db s')) = map (fun r => if pr_id r =? p_ID p' then updated_row p' now r else r) (principals (kt (st_db s))).
Proof.
  unfold UpdatePrincipal, replacePrincipalLists. intros Hrun. tx_inv. if_ok Ex.
  match goal with H : replaceAliases _ _ = _ |- _ => apply replaceAliases_rows in H as (E1 & E2 & E3 & E4) end.
  do 3 eexists. split; [eassumption|]. split; [eassumption|]. rewrite E1, E2, E3, E4. done.
Qed.

(** A stored name leads back to its row: what it parses as is written as it is stored. *)
Definition reparses (r : PrincipalRow) : Prop :=
  exists n, ParseName (pr_name r) (pr_realm r) = Ok n /\ name_key n = (pr_name r, pr_realm r).

Definition same_identity (r r' : PrincipalRow) : Prop :=
  pr_id r' = pr_id r /\ pr_name r' = pr_name r /\ pr_realm r' = pr_realm r /\ pr_user_id r' = pr_user_id r.

(** The principals of the identifiers are enabled or not as told, the others as they were. *)
Definition synced (e : bool) (ids : list Z) (d d' : DB) : Prop :=
  dt d' = dt d /\
  Forall2 (fun r r' => same_identity r r' /\ (pr_id r ∈ ids -> pr_enabled r' = e) /\ (pr_id r ∉ ids -> r' = r))
    (principals (kt d)) (principals (kt d')).

Lemma sync_one_run e (p : Principal) (r0 : PrincipalRow) a a' :
  ktables_ok (kt (st_db (as_st a))) -> r0 ∈ principals (kt (st_db (as_st a))) -> reparses r0 ->
  p_Name p = pr_name r0 -> p_Realm p = pr_realm r0 -> p_ID p = pr_id r0 ->
  sync_one e p a = (Ok tt, a') ->
  ktables_ok (kt (st_db (as_st a'))) /\ synced e [p_ID p] (st_db (as_st a)) (st_db (as_st a')).
Proof.
  intros Hok Hr0 (n & Hn & Hkey) En Er Ei Hrun. unfold sync_one, KrbName, MustParseName in Hrun. rewrite En, Er, Hn in Hrun. run_inv.
  match goal with H : a_call _ _ = _ |- _ => apply a_or_run in H as (s1 & -> & H); rename H into Hup end.
  injection Hrun as <-. cbn [as_st set_as_st]. split; [eapply UpdatePrincipal_ok; [|exact Hup|done]; by intros q q2 [= <-]|].
  apply UpdatePrincipal_run in Hup as (p1 & p2 & now & Hg & [= <-] & Hdt & _ & _ & Hrows). split; [done|].
  apply getPrincipal_Ok in Hg as (r1 & keys & Hrow & _ & ->).
  assert (r1 = r0) as ->.
  { apply (lookup_exact _ n r0) in Hok. rewrite (proj2 Hok) in Hrow by (split; [done|by left]). by injection Hrow. }
  rewrite Hrows. apply Forall2_fmap_r, Forall_Forall2_diag, Forall_forall. intros r Hr. unfold compose. cbn [p_ID with_enabled loadPrincipalLists with_keys scanPrincipal with_lists].
  rewrite list_elem_of_singleton, Ei. destruct (Z.eqb_spec (pr_id r) (pr_id r0)) as [E|E]; [|done].
  assert (r = r0) as -> by (by apply (NoDup_key_inj pr_id _ _ _ (ok_ids _ Hok))). done.
Qed.

Lemma synced_trans e i ids d1 d2 d3 : synced e [i] d1 d2 -> synced e ids d2 d3 -> synced e (i :: ids) d1 d3.
Proof.
  intros [E1 H1] [E2 H2]. split; [congruence|]. revert H2. generalize (principals (kt d3)) as l3.
  induction H1 as [|r r' l l' Hr H1 IH]; intros l3; [intros ->%Forall2_nil_inv_l; constructor|].
  intros (r3 & l4 & Hr3 & H3 & ->)%Forall2_cons_inv_l. constructor; [|by apply IH].
  destruct Hr as ((I1 & I2 & I3 & I4) & Hin & Hout), Hr3 as ((J1 & J2 & J3 & J4) & Kin & Kout).
  split; [split_and!; congruence|]. split.
  - intros Hi%elem_of_cons. destruct (decide (pr_id r' ∈ ids)) as [Hd|Hd]; [by apply Kin|]. rewrite (Kout Hd).
    apply Hin, list_elem_of_singleton. destruct Hi as [Hi|Hi]; [done|]. by rewrite I1 in Hd.
  - intros [Hi Hn]%not_elem_of_cons. rewrite Kout by (by rewrite I1). apply Hout. by rewrite list_elem_of_singleton.
Qed.

Lemma sync_all_run e (ps : list Principal) (a a' : AServer) :
  ktables_ok (kt (st_db (as_st a))) ->
  Forall (fun p => exists r, r ∈ principals (kt (st_db (as_st a))) /\ reparses r /\ p_Name p = pr_name r /\ p_Realm p = pr_realm r /\ p_ID p = pr_id r) ps ->
  for_each (sync_one e) ps a = (Ok tt, a') ->
  synced e (p_ID <$> ps) (st_db (as_st a)) (st_db (as_st a')).
Proof.
  revert a. induction ps as [|p ps IH]; intros a Hok Hall Hrun; cbn [for_each] in Hrun.
  - injection Hrun as <-. split; [done|]. apply Forall_Forall2_diag, Forall_forall. intros r _. split; [done|]. split; [|done]. by intros ?%elem_of_nil.
  - apply Forall_cons in Hall as [(r0 & Hr0 & Hrep & En & Er & Ei) Hall]. run_inv.
    match goal with H : sync_one e p a = (Ok ?u, _) |- _ => destruct u; eapply sync_one_run in H as [Hok1 Hs1]; try done end.
    rewrite fmap_cons. eapply synced_trans; [exact Hs1|]. apply IH; [done| |done].
    eapply Forall_impl; [exact Hall|]. cbn beta. intros q (r & Hr & (n & Hn & Hk) & F1 & F2 & F3).
    apply list_elem_of_lookup in Hr as [j Hj]. destruct (Forall2_lookup_l _ _ _ _ _ (proj2 Hs1) Hj) as (r' & Hj' & (I1 & I2 & I3 & I4) & _).
    exists r'. split; [by eapply list_elem_of_lookup_2|]. split; [exists n; by rewrite I2, I3|]. split_and!; congruence.
Qed.

(** ** Accounts, changed one at a time *)

Definition users_kept (d d' : DB) : Prop := users (dt d') = users (dt d) /\ kt d' = kt d.
#[export] Instance users_kept_preorder : PreOrder users_kept.
Proof. split; [done|]. intros d1 d2 d3 [E1 E2] [E3 E4]. split; congruence. Qed.

Lemma insert_rid_users rid kind owner now : within users_kept (insert_rid rid kind owner now).
Proof. intros s r s'. unfold insert_rid. case_match; by intros [= _ <-]. Qed.

Lemma reallocateRID_users kind owner posix : within users_kept (reallocateRID kind owner posix).
Proof.
  unfold reallocateRID, releaseRID, allocateRID. frame.
  all: first [apply insert_rid_users | by intros s r s' [= _ <-]].
Qed.

Lemma writeUserChildren_users u : within users_kept (writeUserChildren u).
Proof. unfold writeUserChildren, replaceAttrs, deleteAttrs, replaceCapabilities. frame. Qed.

Lemma UpdateUser_run name f s u' s' : UpdateUser name f s = (Ok u', s') ->
  exists u v now d1, getUser (st_db s) (user_named name) = Ok u /\ f u = Ok v /\ u' = with_credential_state now v /\
    kt d1 = kt (st_db s) /\
    users (dt d1) = map (fun r => if ur_id r =? u_ID v then user_row v (ur_id r) (ur_created_at r) (Unix now) else r) (users (dt (st_db s))) /\
    rename_principals (u_ID v) (u_Name v) (Unix now) d1 = Ok (st_db s').
Proof.
  unfold UpdateUser. intros Hrun. tx_inv. unfold update_user_row in *. if_ok Ex.
  match goal with H : writeUserChildren _ _ = _ |- _ => apply writeUserChildren_users in H as [E1 E2] end.
  match goal with H : (if _ then reallocateRID _ _ _ else _) _ = _ |- _ => apply (within_if users_kept) in H as [E3 E4];
    [|apply reallocateRID_users|apply within_keeps; [tc_solve|apply keeps_ret]] end.
  cbn [st_db set_db kt set_kt dt set_dt] in *. do 4 eexists. split; [eassumption|]. split; [eassumption|]. split; [done|].
  split; [|split; [|eassumption]]; [congruence|]. rewrite E3, E1. done.
Qed.

(** Principals that have the name of their account already are left alone. *)
Lemma rename_same uid name now d d' :
  (forall r, r ∈ principals (kt d) -> pr_user_id r = Some uid -> pr_name r = name) ->
  rename_principals uid name now d = Ok d' -> principals (kt d') = principals (kt d) /\ kt d' = set_principals (fun _ => principals (kt d)) (kt d) /\ dt d' = dt d.
Proof.
  intros Hall. unfold rename_principals.
  assert (Hid : map (fun r => if bool_decide (pr_user_id r = Some uid) && negb (String.eqb (pr_name r) name) then renamed_row name now r else r)
    (principals (kt d)) = principals (kt d)).
  { induction (principals (kt d)) as [|r l IH]; [done|]. cbn [map]. f_equal; [|apply IH; intros r' Hr'; apply Hall; by right].
    case_bool_decide as E; [|done]. cbn [andb]. rewrite (Hall r); [by rewrite String.eqb_refl|by left|done]. }
  rewrite Hid. case_bool_decide; [|done]. by intros [= <-].
Qed.

Lemma userDN_keeps u : a_within (fun d d' => d' = d) (userDN cfg u).
Proof.
  assert (PreOrder (fun d d' : DB => d' = d)) by (split; [done|intros ???; congruence]).
  unfold userDN, GetGroupByGID. frame.
  destruct x as [[]|]; frame.
Qed.

(** Disabling an account is disabling it for Kerberos, and enabling it enabling it. When a PATCH
    that sets [disabled] succeeds, the account has that value, every principal linked to it is enabled
    exactly when the account is not disabled, and of the other principals nothing has changed; no
    principal has appeared, gone, or taken another name, realm or account. *)
Lemma disable_reaches_kerberos (r : ApiReq) (name : string) (req : patchUserRequest) (b : bool) (u : User) (a a' : AServer) (reply : ApiReply) :
  json_patchUser (body_prefix (aq_Body r)) = Some req -> pu_Disabled req = Some b ->
  getUser (st_db (as_st a)) (user_named name) = Ok u -> ktables_ok (kt (st_db (as_st a))) ->
  (forall row, row ∈ principals (kt (st_db (as_st a))) -> pr_user_id row = Some (u_ID u) -> pr_name row = u_Name u /\ reparses row) ->
  handlePatchUser cfg r name a = (Ok reply, a') ->
  (forall row, row ∈ users (dt (st_db (as_st a'))) -> ur_id row = u_ID u -> ur_disabled row = b) /\
  Forall2 (fun row row' => same_identity row row' /\
      (pr_user_id row = Some (u_ID u) -> pr_enabled row' = negb b) /\ (pr_user_id row <> Some (u_ID u) -> row' = row))
    (principals (kt (st_db (as_st a)))) (principals (kt (st_db (as_st a')))).
Proof.
  intros Hreq Hb Hu Hok Hlinked Hrun. unfold handlePatchUser, decode in Hrun. rewrite Hreq in Hrun. run_inv.
  match goal with H : Some req = Some _ |- _ => injection H as <- end. rewrite Hb in *.
  match goal with H : a_call (UpdateUser _ _) _ = _ |- _ => apply a_or_run in H as (s1 & -> & H); apply UpdateUser_run in H as (u0 & v & now & d1 & Hu0 & [= <-] & -> & Hk1 & Hus & Hren) end.
  cbn [as_st set_as_st] in *. rewrite Hu in Hu0. injection Hu0 as <-.
  cbn [u_ID u_Name patch_user] in *.
  apply rename_same in Hren as (Hp & Hkt & Hdt); [|rewrite Hk1; intros row Hrow Hid; by apply Hlinked].
  rewrite Hk1 in Hp, Hkt.
  match goal with H : userDN _ _ _ = _ |- _ => apply userDN_keeps in H; rename H into Hdn end.
  match goal with H : syncPrincipalEnabled _ _ = (Ok ?x, _) |- _ => destruct x; unfold syncPrincipalEnabled in H; run_inv end.
  match goal with H : a_call (PrincipalsForUser _) _ = _ |- _ => apply a_or_run in H as (s2 & -> & H); apply query_Ok in H as [Hps ->] end.
  cbn [as_st set_as_st u_ID u_Disabled with_credential_state patch_user] in *. rewrite Hb in *. cbn [applyIf default] in *.
  assert (Hok1 : ktables_ok (kt (st_db s1))) by (rewrite Hkt; by eapply (ktables_ok_ext (kt (st_db (as_st a))))).
  assert (Hids : forall row, row ∈ principals (kt (st_db (as_st a))) -> pr_id row ∈ p_ID <$> x <-> pr_user_id row = Some (u_ID u)).
  { intros row Hrow. subst x. rewrite <- list_fmap_compose, list_elem_of_fmap. setoid_rewrite elem_of_sort_by. setoid_rewrite list_elem_of_filter. rewrite Hp. split.
    - intros (row' & Hi & Hl & Hr'). by rewrite (NoDup_key_inj pr_id _ _ _ (ok_ids _ Hok) Hrow Hr' Hi).
    - intros Hl. by exists row. }
  match goal with H : for_each _ _ _ = _ |- _ => apply sync_all_run in H as [Hdt2 Hrows]; cbn [as_st set_as_st] in *; try done end.
  - rewrite Hdn. split.
    + rewrite Hdt2, Hdt, Hus. intros row (row0 & -> & _)%list_elem_of_fmap. destruct (Z.eqb_spec (ur_id row0) (u_ID u)) as [E|E]; cbn; [by rewrite Hb|by intros ?].
    + rewrite Hp in Hrows. apply Forall2_same_length_lookup. pose proof (Forall2_length _ _ _ Hrows) as Hlen. split; [done|].
      intros i row row' Hi Hi'. destruct (Forall2_lookup_lr _ _ _ _ _ _ Hrows Hi Hi') as (Hsame & Hin & Hout).
      rewrite (Hids row) in Hin, Hout by (by eapply list_elem_of_lookup_2). done.
  - subst x. apply Forall_fmap, Forall_forall. intros row. rewrite elem_of_sort_by, list_elem_of_filter. intros [Hl Hr]. rewrite Hp in Hr.
    exists row. rewrite Hp. split; [done|]. split; [by apply Hlinked|]. done.
Qed.

(** ** Keytabs *)

(** The principal a name of a request leads to. *)
Definition resolves (d : DB) (raw : string) (p : Principal) : Prop :=
  exists name, ParseName raw (apc_Realm cfg) = Ok name /\ getPrincipal d name 0 = Ok p.

Lemma resolve_all_keeps raws seen : a_within eq (resolve_all cfg raws seen).
Proof.
  revert seen. induction raws as [|raw raws IH]; intros seen; cbn [resolve_all]; unfold principalName, GetPrincipal; frame; apply IH.
Qed.

Lemma resolve_all_run raws seen a ps a' : resolve_all cfg raws seen a = (Ok ps, a') ->
  (forall p, p ∈ ps -> exists raw, raw ∈ raws /\ resolves (st_db (as_st a)) raw p) /\
  (forall raw, raw ∈ raws -> exists p, resolves (st_db (as_st a)) raw p /\ (FullName p ∈ seen \/ exists p0, p0 ∈ ps /\ FullName p0 = FullName p)).
Proof.
  revert seen a ps. induction raws as [|raw raws IH]; intros seen a ps Hrun; cbn [resolve_all] in Hrun.
  { injection Hrun as <- <-. split; by intros ? ?%elem_of_nil. }
  unfold principalName in Hrun. destruct (ParseName raw (apc_Realm cfg)) as [name|e|] eqn:Hn; [|by run_inv..]. run_inv.
  match goal with H : a_call (GetPrincipal _) _ = _ |- _ => apply a_or_run in H as (s1 & -> & H); apply query_outcome_Ok in H as [Hp ->] end.
  rename x1 into p. assert (Hres : resolves (st_db (as_st a)) raw p) by (by exists name).
  destruct (bool_decide _) eqn:Hseen; simp_bool.
  - apply IH in Hrun as [H1 H2]. split.
    + intros q Hq. destruct (H1 q Hq) as (raw' & Hin & Hr). exists raw'. split; [by right|done].
    + intros raw' [->|Hin]%elem_of_cons; [by exists p; eauto|by apply H2].
  - run_inv. match goal with H : resolve_all _ _ _ _ = _ |- _ => apply IH in H as [H1 H2] end. split.
    + intros q [->|Hq]%elem_of_cons; [exists raw; split; [left|done]|].
      destruct (H1 q Hq) as (raw' & Hin & Hr). exists raw'. split; [by right|done].
    + intros raw' [->|Hin]%elem_of_cons; [exists p; split; [done|right; exists p; split; [left|done]]|].
      destruct (H2 _ Hin) as (q & Hq & [Hs|(p0 & Hp0 & E)]); exists q; (split; [done|]).
      * apply elem_of_union in Hs as [->%elem_of_singleton|Hs]; [right; exists p; split; [left|done]|by left].
      * right. exists p0. split; [by right|done].
Qed.

Lemma all_entries_run now ps es : all_entries now ps = Ok es -> forall e,
  e ∈ es <-> exists p n k, p ∈ ps /\ KrbName p = Ok (E := ApiReply) n /\ k ∈ p_Keys p /\ e = mkKeytabEntry n (p_KVNO p) k now.
Proof.
  revert es. induction ps as [|p ps IH]; intros es Hrun e; cbn [all_entries] in Hrun.
  { injection Hrun as <-. split; [by intros ?%elem_of_nil|]. intros (p & n & k & Hp & _). by apply elem_of_nil in Hp. }
  run_inv. rewrite elem_of_app, list_elem_of_fmap, IH by done. setoid_rewrite elem_of_cons. split.
  - intros [(k & -> & Hk)|(q & n & k & Hq & Hn & Hk & ->)]; [|by exists q, n, k; auto]. do 3 eexists. split; [by left|]. done.
  - intros (q & n & k & [->|Hq] & Hn & Hk & ->); [left|right]; [exists k; split; congruence|]. by exists q, n, k.
Qed.

Lemma all_entries_named now ps es : all_entries now ps = Ok es -> forall p, p ∈ ps -> exists n, KrbName p = Ok (E := ApiReply) n.
Proof.
  revert es. induction ps as [|p ps IH]; intros es Hrun q; cbn [all_entries] in Hrun; [by intros ?%elem_of_nil|].
  run_inv. intros [->|Hq]%elem_of_cons; [eauto|by eapply IH].
Qed.

(** What a keytab request without new keys is answered with. *)
Definition keytab_of (d : DB) (raws : list string) (es : list KeytabEntry) : Prop :=
  (forall e, e ∈ es -> exists raw p, raw ∈ raws /\ resolves d raw p /\ kt_KVNO e = p_KVNO p /\ kt_Key e ∈ p_Keys p /\
     KrbName p = Ok (E := ApiReply) (kt_Name e)) /\
  (forall raw, raw ∈ raws -> exists p p0 n, resolves d raw p /\ FullName p0 = FullName p /\ KrbName p0 = Ok (E := ApiReply) n /\
     forall k, k ∈ p_Keys p0 -> exists t, mkKeytabEntry n (p_KVNO p0) k t ∈ es).

End Writes.
