(* ===== verification/ApiTgs.v ===== *)
(** * The realm keeps its ticket-granting principal

    A request through the management API leaves [krbtgt/REALM@REALM] in the database, as long as it
    belongs to no account and no path of a request escapes a character. What each step of a handler
    respects is a frame ([within] of PrincipalFacts.v). *)

From S2P Require Import Prelude Text Hostport Duration Netip Base64 Names Keytab Failban Replay Model Secret IdRange Db Principals PrincipalFacts Directory DirectoryFacts Accounts Certs AccountsOk Zone Dns LdapEntries Ldap LdapFacts LdapSearch Sasl SaslFacts Jws Vault Api ApiHandlers ApiKerberos ApiRoutes ApiFacts ApiWrites.

Create HintDb tgs.
Create HintDb api_reads.

(** ** Names without an escape *)

Lemma no_char_trim_left c s : no_char c s -> no_char c (trim_left s).
Proof. induction s as [|d s IH]; [done|]. intros H. cbn [trim_left]. case_match; [|done]. apply IH. apply contains_char_cons in H. apply H. Qed.

Lemma no_char_rev c s acc : no_char c s -> no_char c acc -> no_char c (string_rev_app s acc).
Proof.
  revert acc. induction s as [|d s IH]; intros acc H Hacc; [done|]. apply contains_char_cons in H as [Hd Hs]. apply IH; [done|].
  by apply contains_char_cons.
Qed.

Lemma no_char_TrimSpace c s : no_char c s -> no_char c (TrimSpace s).
Proof. intros H. unfold TrimSpace, string_rev. apply no_char_rev; [|done]. apply no_char_trim_left, no_char_rev; [|done]. by apply no_char_trim_left. Qed.

Lemma no_char_substring c n m s : no_char c s -> no_char c (String.substring n m s).
Proof.
  revert n m. induction s as [|d s IH]; intros n m H; [by destruct n, m|]. apply contains_char_cons in H as [Hd Hs].
  destruct n as [|n]; [destruct m as [|m]|]; cbn [String.substring]; [done| |by apply IH]. apply contains_char_cons. split; [done|by apply IH].
Qed.

Lemma Join_splitUnescaped s cur : no_char backslash s -> Join "/" (splitUnescaped_from s slash cur false) = cur +:+ s.
Proof.
  revert cur. induction s as [|c s IH]; intros cur H; [by rewrite string_app_nil_r|]. apply contains_char_cons in H as [Hc Hs].
  cbn [splitUnescaped_from]. rewrite (proj2 (Ascii.eqb_neq _ _) Hc). destruct (Ascii.eqb_spec c slash) as [->|Hn].
  - pose proof (IH EmptyString Hs) as E. destruct (splitUnescaped_from s slash EmptyString false) as [|w ws] eqn:Ew.
    + exfalso. revert Ew. clear. intros E. assert (forall t u b, splitUnescaped_from t slash u b <> []) as Hne; [|by apply Hne in E].
      induction t as [|d t IH]; intros u b; cbn [splitUnescaped_from]; [done|]. repeat (case_match; try done); by apply IH.
    + change (Join "/" (cur :: w :: ws)) with (cur +:+ "/" +:+ Join "/" (w :: ws)). by rewrite E.
  - rewrite IH by done. by rewrite string_app_assoc.
Qed.

Lemma splitUnescaped_one s cur : no_char backslash s -> no_char slash s -> splitUnescaped_from s slash cur false = [cur +:+ s].
Proof.
  revert cur. induction s as [|c s IH]; intros cur Hb Hs; [by rewrite string_app_nil_r|]. apply contains_char_cons in Hb as [Hb Hb'], Hs as [Hs Hs'].
  cbn [splitUnescaped_from]. rewrite (proj2 (Ascii.eqb_neq _ _) Hb), (proj2 (Ascii.eqb_neq _ _) Hs), IH by done. by rewrite string_app_assoc.
Qed.

(** A name read from text without an escape is the one its principal part is written as. *)
Lemma ParseName_unescaped raw default n : no_char backslash raw -> ParseName raw default = Ok n ->
  Components n = splitUnescaped (Principal_of n) slash.
Proof.
  intros Hraw. unfold ParseName. intros Hrun. run_inv. apply (no_char_TrimSpace backslash) in Hraw.
  destruct (lastUnescapedIndex (TrimSpace raw) at_sign) as [i|]; run_inv; unfold Principal_of, splitUnescaped; cbn [Components];
    by rewrite Join_splitUnescaped by (try apply no_char_substring; done).
Qed.

Section Tgs.
Context `{Ck : Clock, Rn : Rand, Ae : AEAD, Bc : Bcrypt, Tt : Totp, El : EncTypeLib, Et : EncTypeTable, Dl : DnsLib, Ul : UrlLib, Xl : X509Lib, Aj : ApiJSON, Js : JSON, Sh : Sha256, Ec : ECDSA, Sp : SpnegoLib}.
Context (cfg : ApiConfig) (sig : Signer) (spn : Name).

Abbreviation realm := (apc_Realm cfg).

Definition tgs_row (r : PrincipalRow) : Prop := pr_name r = "krbtgt/" +:+ realm /\ pr_realm r = realm.

(** The row of the principal is there and belongs to no account; the identifiers of the table are
    apart and counted; no trust is with the realm itself. *)
Record tgs_safe (k : KTables) : Prop := {
  ts_ids : NoDup (id_col k);
  ts_seq : forall i, i ∈ id_col k -> i <= seq_principals k;
  ts_row : exists r, r ∈ principals k /\ tgs_row r /\ pr_user_id r = None;
  ts_trusts : forall t, t ∈ trusts k -> EqualFold (tr_remote_realm t) realm = false;
}.

Definition keeps_tgs (d d' : DB) : Prop := tgs_safe (kt d) -> tgs_safe (kt d').
#[local] Instance keeps_tgs_preorder : PreOrder keeps_tgs.
Proof. split; [by intros d ?|]. intros d1 d2 d3 H1 H2 H. by apply H2, H1. Qed.

(** ** Rows *)

Lemma tgs_ext d d' : principals (kt d') = principals (kt d) -> seq_principals (kt d') = seq_principals (kt d) ->
  trusts (kt d') = trusts (kt d) -> keeps_tgs d d'.
Proof. intros E1 E2 E3 [H1 H2 H3 H4]. split; unfold id_col in *; rewrite ?E1, ?E2, ?E3; done. Qed.

Lemma tgs_map d d' g : principals (kt d') = map g (principals (kt d)) -> seq_principals (kt d') = seq_principals (kt d) ->
  trusts (kt d') = trusts (kt d) -> (forall r, pr_id (g r) = pr_id r) ->
  (tgs_safe (kt d) -> forall r, r ∈ principals (kt d) -> tgs_row r -> pr_user_id r = None -> tgs_row (g r) /\ pr_user_id (g r) = None) -> keeps_tgs d d'.
Proof.
  intros E1 E2 E3 Hid Hg Hs. specialize (Hg Hs). destruct Hs as [H1 H2 (r & Hr & Ht & Hu) H4].
  assert (Hcol : id_col (kt d') = id_col (kt d)).
  { unfold id_col. rewrite E1. clear -Hid. induction (principals (kt d)) as [|x l IH]; [done|]. cbn [map]. rewrite !fmap_cons. by f_equal. }
  split; rewrite ?Hcol, ?E2, ?E3; try done. exists (g r). split; [|by apply Hg]. rewrite E1. by apply list_elem_of_fmap_2.
Qed.

Lemma tgs_snoc d d' x : principals (kt d') = principals (kt d) ++ [x] -> pr_id x = seq_principals (kt d) + 1 ->
  seq_principals (kt d') = seq_principals (kt d) + 1 -> trusts (kt d') = trusts (kt d) -> keeps_tgs d d'.
Proof.
  intros E1 E2 E3 E4 [H1 H2 (r & Hr & Ht & Hu) H4]. split; unfold id_col in *; rewrite ?E1, ?E3, ?E4, ?fmap_app; try done.
  - apply NoDup_app. split; [done|]. split; [|apply NoDup_singleton]. intros i Hi ->%list_elem_of_singleton. apply H2 in Hi. lia.
  - intros i [Hi%H2|Hi%list_elem_of_singleton]%elem_of_app; lia.
  - exists r. split; [apply elem_of_app; by left|done].
Qed.

(** Rows that stay, in a table the others leave. *)
Lemma tgs_delete P d d' : principals (kt d') = filter (fun r => P r = false) (principals (kt d)) -> seq_principals (kt d') = seq_principals (kt d) ->
  trusts (kt d') = trusts (kt d) -> (forall r, r ∈ principals (kt d) -> tgs_row r -> pr_user_id r = None -> P r = false) -> keeps_tgs d d'.
Proof.
  intros E1 E2 E3 HP [H1 H2 (r & Hr & Ht & Hu) H4]. split; unfold id_col in *; rewrite ?E1, ?E2, ?E3; try done.
  - by apply NoDup_map_filter.
  - intros i (x & -> & Hx)%list_elem_of_fmap. apply list_elem_of_filter in Hx as [_ Hx]. apply H2, list_elem_of_fmap. eauto.
  - exists r. split; [|done]. apply list_elem_of_filter. auto.
Qed.

(** ** The store *)

Ltac other_tables := intros ? ? ?; try case_match; intros [= _ <-]; by intros ?.

Lemma tgs_insert_user mk : within keeps_tgs (insert_user mk).
Proof. unfold insert_user. other_tables. Qed.
Lemma tgs_insert_group mk : within keeps_tgs (insert_group mk).
Proof. unfold insert_group. other_tables. Qed.
Lemma tgs_insert_rid rid kind owner now : within keeps_tgs (insert_rid rid kind owner now).
Proof. unfold insert_rid. other_tables. Qed.
Lemma tgs_insert_certificate mk : within keeps_tgs (insert_certificate mk).
Proof. unfold insert_certificate. other_tables. Qed.
Lemma tgs_insert_dns r origin now : within keeps_tgs (insert_dns_row r origin now).
Proof. unfold insert_dns_row. other_tables. Qed.

Lemma tgs_allocate kind owner posix : within keeps_tgs (allocateRID kind owner posix).
Proof. unfold allocateRID. frame; first [apply tgs_insert_rid | by intros s r s' [= _ <-]]. Qed.
Lemma tgs_reallocate kind owner posix : within keeps_tgs (reallocateRID kind owner posix).
Proof. unfold reallocateRID, releaseRID. frame. apply tgs_allocate. Qed.
Lemma tgs_children u : within keeps_tgs (writeUserChildren u).
Proof. unfold writeUserChildren, replaceAttrs, deleteAttrs, replaceCapabilities. frame. Qed.

Lemma tgs_rename uid name now : within keeps_tgs (exec (rename_principals uid name now)).
Proof.
  apply within_exec; [tc_solve|]. intros d d'. unfold rename_principals. case_bool_decide; [|done]. intros [= <-].
  eapply tgs_map; [reflexivity|done|done|intros r; cbv beta; by case_match|]. intros _ r Hr Ht Hu. cbv beta. rewrite Hu. by case_bool_decide.
Qed.

Lemma tgs_CreateUser u : within keeps_tgs (CreateUser u).
Proof. unfold CreateUser. frame; first [apply tgs_insert_user | apply tgs_allocate | apply tgs_children]. Qed.

Lemma tgs_update_user u now : within keeps_tgs (exec (update_user_row u now)).
Proof. apply within_exec; [tc_solve|]. intros d d'. unfold update_user_row. case_match; [done|]. by intros [= <-] ?. Qed.
Lemma tgs_UpdateUser name f : within keeps_tgs (UpdateUser name f).
Proof. unfold UpdateUser. frame; first [apply tgs_update_user | apply tgs_children | apply tgs_reallocate | apply tgs_rename]. Qed.

Lemma tgs_DeleteUser name : within keeps_tgs (DeleteUser name).
Proof.
  unfold DeleteUser, releaseRID, deleteAttrs. frame. apply within_update. intros d.
  eapply (tgs_delete (fun r => bool_decide (pr_user_id r = Some (u_ID _)))); try done. intros r _ _ Hu. rewrite Hu. by case_bool_decide.
Qed.

Lemma tgs_CreateGroup g : within keeps_tgs (CreateGroup g).
Proof.
  unfold CreateGroup, replaceIncludes, replaceAttrs, deleteAttrs, replaceCapabilities.
  frame; first [apply tgs_insert_group | apply tgs_allocate].
Qed.
Lemma tgs_UpdateGroup name f : within keeps_tgs (UpdateGroup name f).
Proof.
  unfold UpdateGroup, replaceIncludes, replaceAttrs, deleteAttrs, replaceCapabilities. frame; [|apply tgs_reallocate].
  apply within_exec; [tc_solve|]. intros d d'. unfold update_group_row. case_match; [done|]. by intros [= <-] ?.
Qed.
Lemma tgs_DeleteGroup name : within keeps_tgs (DeleteGroup name).
Proof. unfold DeleteGroup, deleteAttrs, releaseRID. frame. Qed.

Lemma tgs_rows_kept {T} (m : Tx T) : within rows_kept m -> within keeps_tgs m.
Proof. intros Hm s r s' (E1 & _ & E2 & E3)%Hm. by apply tgs_ext. Qed.

Lemma tgs_insert_keys pid kvno now i keys : within keeps_tgs (insert_keys pid kvno now i keys).
Proof.
  revert i. induction keys as [|k keys IH]; intros i; cbn [insert_keys]; [frame|]. unfold insert_key. frame; [|apply IH].
  apply within_exec; [tc_solve|]. intros d d'. case_match; [done|]. intros [= <-]. by apply tgs_ext.
Qed.
Lemma tgs_writeKeys pid kvno keys : within keeps_tgs (writeKeys pid kvno keys).
Proof. unfold writeKeys. frame; [|apply tgs_insert_keys]. apply within_update. intros d. by apply tgs_ext. Qed.

Lemma tgs_lists p : within keeps_tgs (replacePrincipalLists p).
Proof. unfold replacePrincipalLists. frame; apply within_update; intros d; by apply tgs_ext. Qed.
Lemma tgs_aliases p : within keeps_tgs (replaceAliases p).
Proof. apply tgs_rows_kept, replaceAliases_rows. Qed.

Lemma tgs_insert_principal mk : (forall id, pr_id (mk id) = id) -> within keeps_tgs (insert_principal mk).
Proof.
  intros Hmk s r s'. unfold insert_principal. destruct (existsb _ _); [by intros [= _ <-]|]. destruct (negb _); [by intros [= _ <-]|].
  intros [= _ <-]. by eapply tgs_snoc.
Qed.

Lemma tgs_CreatePrincipal p keys : within keeps_tgs (CreatePrincipal p keys).
Proof. unfold CreatePrincipal. frame; first [by apply tgs_insert_principal | apply tgs_writeKeys | apply tgs_lists | apply tgs_aliases]. Qed.

(** A change that leaves the identity and the account of a principal alone. *)
Lemma tgs_UpdatePrincipal name f : (forall p q, f p = Ok q -> p_ID q = p_ID p /\ p_UserID q = p_UserID p) -> within keeps_tgs (UpdatePrincipal name f).
Proof.
  intros Hf s r s' Hrun. destruct r as [q|e|]; [|by rewrite (write_rollback _ _ _ _ Hrun) by done..].
  apply UpdatePrincipal_run in Hrun as (p & p' & now & Hg & Hp & _ & E1 & E2 & Hrows).
  apply getPrincipal_Ok in Hg as (r0 & keys & Hr0 & _ & ->). apply principal_row_elem in Hr0. apply Hf in Hp as [Hi Hu]. cbn in Hi, Hu.
  eapply tgs_map; [exact Hrows|done|done|intros r; cbv beta; by case_match|].
  intros Hs r Hr Ht Hn. cbv beta. destruct (Z.eqb_spec (pr_id r) (p_ID p')) as [E|E]; [|done].
  assert (r = r0) as -> by (apply (NoDup_key_inj pr_id _ _ _ (ts_ids _ Hs)); congruence).
  destruct Ht as [Ht1 Ht2]. cbn. split; [by split|congruence].
Qed.

Lemma tgs_update_row pid f : (forall r, same_identity r (f r)) -> within keeps_tgs (update_kt (update_row pid f)).
Proof.
  intros Hf. apply within_update. intros d. eapply tgs_map; [reflexivity|done|done| |].
  - intros r. cbv beta. case_match; [apply Hf|done].
  - intros _ r Hr Ht Hu. cbv beta. case_match; [|done]. destruct (Hf r) as (_ & E1 & E2 & E3). unfold tgs_row. by rewrite E1, E2, E3.
Qed.

Lemma tgs_rollKeys p keys pw : within keeps_tgs (rollKeys p keys pw).
Proof. unfold rollKeys. frame; [apply tgs_writeKeys|apply within_update; intros d; by apply tgs_ext|by apply tgs_update_row]. Qed.
Lemma tgs_SetKeys name keys pw : within keeps_tgs (SetKeys name keys pw).
Proof. unfold SetKeys. frame. apply tgs_rollKeys. Qed.
Lemma tgs_random_keys etypes : within keeps_tgs (random_keys etypes).
Proof. intros s r s'. unfold random_keys. case_match; by intros [= _ <-] ?. Qed.
Lemma tgs_Randomize name etypes : within keeps_tgs (RandomizePrincipalKeys name etypes).
Proof. unfold RandomizePrincipalKeys. frame; [apply tgs_random_keys|apply tgs_SetKeys]. Qed.
Lemma tgs_SetPrincipalPassword name pw etypes : within keeps_tgs (SetPrincipalPassword name pw etypes).
Proof. unfold SetPrincipalPassword, GetPrincipal. frame. apply tgs_SetKeys. Qed.
Lemma tgs_SetUserPassword cost name pw etypes expires : within keeps_tgs (SetUserPassword cost name pw etypes expires).
Proof.
  unfold SetUserPassword, hashPassword, set_digest, principalsForUserTx, rekey. frame; [apply tgs_rollKeys|by apply tgs_update_row].
Qed.

Lemma tgs_or_undo {T} name (m : Tx T) : within keeps_tgs m -> within keeps_tgs (or_undo name m).
Proof.
  intros Hm s r s'. unfold or_undo, undoAccount. destruct (m s) as [[x|e|] s1] eqn:E1; apply Hm in E1; [by intros [= _ <-]| |by intros [= _ <-]].
  intros [= _ <-]. etrans; [exact E1|]. destruct (DeleteUser name s1) as [r2 s2] eqn:E2. by apply tgs_DeleteUser in E2.
Qed.
Lemma tgs_CreateAccount cost na : within keeps_tgs (CreateAccount cost na).
Proof.
  unfold CreateAccount, NextUIDNumber.
  frame; first [apply tgs_CreateUser | apply tgs_random_keys | apply tgs_or_undo, tgs_CreatePrincipal | apply tgs_or_undo, tgs_SetUserPassword].
Qed.

Lemma EqualFold_ToUpper_l x y : EqualFold (ToUpper x) y = EqualFold x y.
Proof. unfold EqualFold. by rewrite ToLower_ToUpper. Qed.

Lemma tgs_CreateTrust t : EqualFold (t_RemoteRealm t) realm = false -> within keeps_tgs (CreateTrust t).
Proof.
  intros Ht. unfold CreateTrust. frame. intros s r s'. cbv zeta. destruct (existsb _ _); [by intros [= _ <-]|]. intros [= _ <-] [H1 H2 H3 H4].
  split; try done. cbn. intros q [Hq|Hq%list_elem_of_singleton]%elem_of_app; [by apply H4|]. subst q. cbn [tr_remote_realm]. by rewrite EqualFold_ToUpper_l.
Qed.
Lemma tgs_UpdateTrust name f : within keeps_tgs (UpdateTrust name f).
Proof.
  unfold UpdateTrust. frame. apply within_update. intros d [H1 H2 H3 H4]. split; try done. cbn.
  intros q (q0 & -> & Hq)%list_elem_of_fmap. apply H4 in Hq. by case_match.
Qed.
Lemma tgs_DeleteTrust name : within keeps_tgs (DeleteTrust name).
Proof.
  unfold DeleteTrust. frame. apply within_update. intros d [H1 H2 H3 H4]. split; try done. cbn. intros q [_ Hq]%list_elem_of_filter. by apply H4.
Qed.

Lemma tgs_DeletePrincipal name : name_key name <> ("krbtgt/" +:+ realm, realm) -> within keeps_tgs (DeletePrincipal name).
Proof.
  intros Hne. unfold DeletePrincipal. frame. apply within_update. intros d. eapply tgs_delete; [reflexivity|done|done|].
  intros r Hr [E1 E2] Hu. cbv beta. rewrite E1, E2. apply not_true_iff_false. rewrite andb_true_iff, !String.eqb_eq.
  intros [E3 E4]. apply Hne. unfold name_key. congruence.
Qed.

Lemma tgs_CreateDNSRecord r : within keeps_tgs (CreateDNSRecord r).
Proof. unfold CreateDNSRecord, insertDNSRecord, bumpZoneSerial. frame. apply tgs_insert_dns. Qed.
Lemma tgs_DeleteDNSRecord id : within keeps_tgs (DeleteDNSRecord id).
Proof. unfold DeleteDNSRecord, origin_of, deleteDNSRecordTx, bumpZoneSerial. frame. Qed.
Lemma tgs_AddCertificate name c : within keeps_tgs (AddCertificate name c).
Proof. unfold AddCertificate. frame. apply tgs_insert_certificate. Qed.
Lemma tgs_AddAppPassword u n h : within keeps_tgs (AddAppPassword u n h).
Proof. unfold AddAppPassword. frame. Qed.
Lemma tgs_DeleteAppPassword u id : within keeps_tgs (DeleteAppPassword u id).
Proof. unfold DeleteAppPassword. frame. Qed.

(** ** The handlers *)

#[local] Hint Resolve tgs_CreateAccount tgs_UpdateUser tgs_DeleteUser tgs_SetUserPassword tgs_AddAppPassword tgs_DeleteAppPassword
  tgs_CreateGroup tgs_UpdateGroup tgs_DeleteGroup tgs_CreatePrincipal tgs_random_keys tgs_Randomize tgs_SetPrincipalPassword tgs_SetKeys
  tgs_UpdateTrust tgs_DeleteTrust tgs_CreateDNSRecord tgs_DeleteDNSRecord tgs_AddCertificate : tgs.
#[local] Hint Unfold ListUsers GetUser GetUserByID PrincipalsForUser GetGroupByGID GetGroup ListGroups group_members NextGIDNumber GetPrincipal
  ListPrincipals ListTrusts GetTrust ListDNSRecords LookupDNSRecords ListUserCertificates readUser hashPassword derived GetMeta
  principalName checkPassword passwordExpiry userDN decode keytab_blob set_manager a_look : api_reads.

Lemma a_within_now : a_within keeps_tgs timeNow.
Proof. by intros a r a' [= _ <-] ?. Qed.

Ltac handler := try autounfold with api_reads;
  repeat first [ frame_step | a_frame_step | solve [apply a_within_now | auto with tgs | by intros ? ? ? [= _ <-] ?]
    | match goal with |- a_within _ (match ?x with _ => _ end) => destruct x
                    | |- a_within _ (match ?x with _ => _ end _) => destruct x
                    | |- within _ (match ?x with _ => _ end) => destruct x end ].

Lemma tgs_userDN u : a_within keeps_tgs (userDN cfg u).
Proof. intros a r a' ->%userDN_keeps. by intros ?. Qed.

Lemma tgs_sync u : a_within keeps_tgs (syncPrincipalEnabled u).
Proof. unfold syncPrincipalEnabled, sync_one. handler. apply tgs_UpdatePrincipal. by intros p q [= <-]. Qed.


Lemma tgs_handleCreateUser r : a_within keeps_tgs (handleCreateUser cfg r).
Proof. unfold handleCreateUser. handler. Qed.
Lemma tgs_handleGetUser n : a_within keeps_tgs (handleGetUser cfg n).
Proof. unfold handleGetUser. handler. Qed.
Lemma tgs_handlePatchUser r n : a_within keeps_tgs (handlePatchUser cfg r n).
Proof. unfold handlePatchUser. handler. apply tgs_sync. Qed.
Lemma tgs_handleSetUserPassword r n : a_within keeps_tgs (handleSetUserPassword cfg r n).
Proof. unfold handleSetUserPassword. handler. Qed.
Lemma tgs_handleCreateAppPassword r n : a_within keeps_tgs (handleCreateAppPassword cfg r n).
Proof. unfold handleCreateAppPassword. handler. Qed.
Lemma tgs_handleCreatePrincipal r : a_within keeps_tgs (handleCreatePrincipal cfg r).
Proof. unfold handleCreatePrincipal. handler. Qed.
Lemma tgs_writeKeytab raw : a_within keeps_tgs (writeKeytab cfg raw).
Proof. unfold writeKeytab. handler. apply within_keeps; [tc_solve|apply keeps_entries]. Qed.
Lemma tgs_handlePrincipalGet raw : a_within keeps_tgs (handlePrincipalGet cfg raw).
Proof. unfold handlePrincipalGet. case_match; [apply tgs_writeKeytab|]. handler. Qed.
Lemma tgs_handlePrincipalPost r raw : a_within keeps_tgs (handlePrincipalPost cfg r raw).
Proof. unfold handlePrincipalPost, setPrincipalPassword. handler. Qed.
Lemma tgs_rekey_all ps : a_within keeps_tgs (rekey_all cfg ps).
Proof. induction ps as [|p ps IH]; cbn [rekey_all]; handler. Qed.
Lemma tgs_handleKeytab r : a_within keeps_tgs (handleKeytab cfg r).
Proof.
  unfold handleKeytab. handler; [|apply tgs_rekey_all]. intros a res a' E%resolve_all_keeps. by rewrite E.
Qed.
Lemma tgs_key_trust pw name : a_within keeps_tgs (key_trust cfg pw name).
Proof. unfold key_trust. handler. Qed.
Lemma tgs_handleCreateTrust r : a_within keeps_tgs (handleCreateTrust cfg r).
Proof.
  unfold handleCreateTrust, decode. apply a_within_bind; [tc_solve|handler|]. intros req. cbv zeta.
  apply a_within_bind; [tc_solve|handler|intros _]. apply a_within_guard; [tc_solve|]. intros Hself.
  handler; [|apply tgs_key_trust]. by apply tgs_CreateTrust.
Qed.

Lemma name_key_tgs service rlm : name_key (tgs_name service rlm) = ("krbtgt/" +:+ realm, realm) -> service = realm /\ rlm = realm.
Proof. unfold name_key, tgs_name, Principal_of. intros E. injection E as E1 E2. split; [exact E1|exact E2]. Qed.

Lemma tgs_drop_principal name : name_key name <> ("krbtgt/" +:+ realm, realm) -> a_within keeps_tgs (drop_principal name).
Proof. intros Hne. unfold drop_principal. frame; [by apply tgs_DeletePrincipal|]. handler. Qed.

(** The trust that is gone was with another realm, and so are its principals. *)
Lemma tgs_handleDeleteTrust raw : a_within keeps_tgs (handleDeleteTrust cfg raw).
Proof.
  intros a res a' Hrun Hs. unfold handleDeleteTrust in Hrun. rewrite bind_run in Hrun.
  assert (Hw0 : a_within keeps_tgs (a_call (DeleteTrust (ToUpper raw)))) by (apply a_within_call; [tc_solve|apply tgs_DeleteTrust]).
  destruct (a_call (DeleteTrust (ToUpper raw)) a) as [[x|e|] a1] eqn:Ed;
    pose proof (Hw0 _ _ _ Ed Hs) as Hs1;
    [|by injection Hrun as <- <-..].
  assert (Hne : ToUpper raw <> realm).
  { intros E. apply a_or_run in Ed as (s1 & -> & Ed). unfold DeleteTrust in Ed. tx_inv. simp_bool.
    match goal with H : ?x = existsb _ _, H1 : ?x = true |- _ => rewrite H in H1; rename H1 into Hex end.
    apply existsb_exists in Hex as (t & Ht%list_elem_of_In & Erm%String.eqb_eq).
    apply (ts_trusts _ Hs) in Ht. rewrite Erm, EqualFold_ToUpper_l, E, EqualFold_refl in Ht. done. }
  revert Hs1. assert (Hw : a_within keeps_tgs (_ ← for_each drop_principal [tgs_name (ToUpper raw) realm; tgs_name realm (ToUpper raw)]; mret noContent)); [|by apply Hw in Hrun].
  cbn [for_each]. frame; apply tgs_drop_principal; intros E%name_key_tgs; naive_solver.
Qed.
Lemma tgs_vaultManager : a_within keeps_tgs vaultManager.
Proof. intros a r a'. unfold vaultManager. case_match; by intros [= _ <-] ?. Qed.
#[local] Hint Resolve tgs_vaultManager : tgs.
Lemma tgs_handlePutVaultConfig r : a_within keeps_tgs (handlePutVaultConfig cfg r).
Proof. unfold handlePutVaultConfig. handler. Qed.

(** ** Every request *)

(** The row is there, and nothing but an account it has been given to could take it away. *)
Definition tgs_there (k : KTables) : Prop := exists r, r ∈ principals k /\ tgs_row r /\ (pr_user_id r = None -> tgs_safe k).

Definition preserves (m : A ApiReply) : Prop := forall a res a', m a = (res, a') -> tgs_safe (kt (st_db (as_st a))) -> tgs_there (kt (st_db (as_st a'))).

Lemma safe_there k : tgs_safe k -> tgs_there k.
Proof. intros Hs. destruct (ts_row _ Hs) as (r & Hr & Ht & _). exists r. auto. Qed.

Lemma preserves_within m : a_within keeps_tgs m -> preserves m.
Proof. intros Hm a res a' Hrun Hs. by apply safe_there, (Hm _ _ _ Hrun). Qed.

Lemma preserves_after {T} (m : A T) (f : T -> A ApiReply) : a_within eq m -> (forall x, preserves (f x)) -> preserves (x ← m; f x).
Proof.
  intros Hm Hf a res a'. rewrite bind_run. destruct (m a) as [[x|e|] a1] eqn:E1; apply Hm in E1.
  - intros Hrun Hs. apply (Hf x _ _ _ Hrun). by rewrite <- E1.
  - intros [= <- <-]. rewrite <- E1. apply safe_there.
  - intros [= <- <-]. rewrite <- E1. apply safe_there.
Qed.

(** A patch may give the principal to an account. *)
Lemma preserves_handlePatchPrincipal r raw : preserves (handlePatchPrincipal cfg r raw).
Proof.
  unfold handlePatchPrincipal, principalName, decode, a_look. do 2 (apply preserves_after; [frame|intros ?]).
  apply preserves_after; [by intros a res a' [= _ <-]|]. intros d a res a' Hrun Hs. rewrite bind_run in Hrun. unfold a_or in Hrun. rewrite bind_run in Hrun.
  unfold a_try in Hrun. destruct (UpdatePrincipal _ _ (as_st a)) as [[q|e|] s1] eqn:Hup; injection Hrun as <- <-; cbn [as_st set_as_st];
    [|by rewrite (write_rollback _ _ _ _ Hup) by done; apply safe_there..].
  apply UpdatePrincipal_run in Hup as (p & p' & now & Hg & Hp & _ & E1 & E2 & Hrows).
  destruct Hs as [H1 H2 (row & Hrow & Ht & Hu) H4].
  set (g := fun r => if pr_id r =? p_ID p' then updated_row p' now r else r) in Hrows.
  exists (g row). assert (Hg2 : tgs_row (g row)) by (unfold g; destruct (_ =? _); [exact Ht|done]).
  assert (Hin : g row ∈ principals (kt (st_db s1))) by (rewrite Hrows; by apply list_elem_of_fmap_2).
  split; [done|]. split; [done|]. intros Hn.
  assert (Hcol : id_col (kt (st_db s1)) = id_col (kt (st_db (as_st a)))) by (unfold id_col; rewrite Hrows; by apply map_update_col).
  split; rewrite ?Hcol, ?E1, ?E2; try done. by exists (g row).
Qed.

Context (plain_realm : no_char backslash (apc_Realm cfg) /\ no_char slash (apc_Realm cfg)).

Lemma own_tgs_named raw n : no_char backslash raw -> ParseName raw realm = Ok n -> name_key n = ("krbtgt/" +:+ realm, realm) -> own_tgs cfg n = true.
Proof.
  intros Hraw Hn [= E1 E2]. apply ParseName_unescaped in Hn as Hc; [|done]. rewrite E1 in Hc. destruct plain_realm as [Hb Hs].
  change ("krbtgt/" +:+ realm) with (String "k" (String "r" (String "b" (String "t" (String "g" (String "t" (String "/" realm))))))) in Hc.
  unfold splitUnescaped in Hc. cbn [splitUnescaped_from] in Hc. cbn in Hc. rewrite splitUnescaped_one in Hc by done.
  unfold own_tgs, IsTGS. rewrite Hc. cbn. by rewrite EqualFold_refl.
Qed.

Lemma tgs_handleDeletePrincipal raw : no_char backslash raw -> a_within keeps_tgs (handleDeletePrincipal cfg raw).
Proof.
  intros Hraw. unfold handleDeletePrincipal, principalName. intros a res a'. rewrite bind_run. unfold lift at 1.
  destruct (ParseName raw realm) as [n|e|] eqn:Hn; [|by intros [= <- <-]..].
  assert (Hw : a_within keeps_tgs (_ ← throw_if (own_tgs cfg n) (writeError 409 "the realm's own ticket-granting principal cannot be deleted");
    _ ← a_call (DeletePrincipal n); mret noContent)); [|by apply Hw].
  apply a_within_guard; [tc_solve|]. intros Hown. frame. apply tgs_DeletePrincipal. intros E. by rewrite (own_tgs_named raw) in Hown.
Qed.

(** The values of a path come from its segments. *)
Lemma no_char_Join c l : c <> slash -> Forall (no_char c) l -> no_char c (Join "/" l).
Proof.
  intros Hc. induction 1 as [|w l Hw Hl IH]; [done|]. destruct l as [|w' l]; [done|].
  change (no_char c (w +:+ "/" +:+ Join "/" (w' :: l))). apply no_char_app; [done|]. apply no_char_app; [|done]. apply contains_char_cons. split; [|done]. by intros E.
Qed.

Lemma match_path_values c p path v v' k : c <> slash -> match_path p path v = Some v' -> Forall (no_char c) path ->
  (forall k, no_char c (Get v k)) -> no_char c (Get v' k).
Proof.
  intros Hc. revert path v. induction p as [|a p IH]; intros path v Hm Hall Hv; [destruct path; [|done]; injection Hm as <-; apply Hv|].
  destruct path as [|x path]; [by destruct a|]. apply Forall_cons in Hall as [Hx Hall]. destruct a as [s|n|n]; cbn in Hm.
  - destruct (String.eqb s x); [|done]. by eapply IH.
  - destruct (is_empty x); [done|]. eapply IH; [exact Hm|done|]. intros k'. unfold Get. destruct (decide (n = k')) as [->|Hk]; [by rewrite lookup_insert_eq|].
    rewrite lookup_insert_ne by done. apply Hv.
  - injection Hm as <-. unfold Get. destruct (decide (n = k)) as [->|Hk]; [rewrite lookup_insert_eq|rewrite lookup_insert_ne by done; apply Hv].
    cbn [default]. change (no_char c (Join "/" (x :: path))). apply no_char_Join; [done|]. by constructor.
Qed.

Lemma mux_find_elem {H} (table : list (route H)) r h vals : mux_find table r = Some (h, vals) ->
  exists rt, rt ∈ table /\ rt_handler rt = h /\ match_path (pn_path (rt_pattern rt)) (aq_Path r) ∅ = Some vals.
Proof.
  induction table as [|rt table IH]; [done|]. cbn [mux_find]. destruct (route_matches r rt) as [v|] eqn:E.
  - intros [= <- <-]. exists rt. split; [left|]. split; [done|]. unfold route_matches in E. by destruct (method_matches _ _).
  - intros (rt' & Hin & Hh & Hm)%IH. exists rt'. split; [by right|done].
Qed.

Lemma apiRoutes_preserve r c vals : no_char backslash (Get vals "name") -> Forall (fun rt => preserves (rt_handler rt c r vals)) (apiRoutes cfg).
Proof.
  intros Hname. unfold apiRoutes. repeat (apply Forall_cons_2); [..|by apply Forall_nil_2]; cbn [rt_handler on]; unfold plain, with_req, with_path, with_both;
  try (apply preserves_handlePatchPrincipal); apply preserves_within;
    first [ apply tgs_handleCreateUser | apply tgs_handleGetUser | apply tgs_handlePatchUser | apply tgs_handleSetUserPassword
          | apply tgs_handleCreateAppPassword | apply tgs_handleCreatePrincipal | apply tgs_handlePrincipalGet | apply tgs_handlePrincipalPost
          | apply tgs_handleKeytab | apply tgs_handleCreateTrust | apply tgs_handleDeleteTrust | apply tgs_handlePutVaultConfig
          | by apply tgs_handleDeletePrincipal
          | unfold handleWhoAmI, handleStats, handleListUsers, handleDeleteUser, handleListAppPasswords, handleDeleteAppPassword,
              handleListUserCertificates, handleImportUserCertificate, handleListGroups, handleCreateGroup, handleGetGroup, handlePatchGroup,
              handleDeleteGroup, handleGroupMembers, handleListPrincipals, handleListDNSRecords, handleCreateDNSRecord, handleDeleteDNSRecord,
              handleListTrusts, handleGetTrust, handlePatchTrust, handleGetVaultStatus, handleDeleteVaultConfig; solve [handler] ].
Qed.

Lemma tgs_session token : a_within eq (session cfg sig token).
Proof. apply (a_within_calm _ any), acalm_session. Qed.

(** C7: no request through the management API takes the realm's ticket-granting principal away.
    While it belongs to no account, no trust is with the realm itself and the path of the request has no
    backslash, the principal is there after the request, whatever the request and its caller; and unless
    the request gave it to an account, the next request finds it under the same conditions. *)
Theorem TGS_survives (r : ApiReq) (a a' : AServer) (reply : option ApiReply) :
  Forall (no_char backslash) (aq_Path r) -> tgs_safe (kt (st_db (as_st a))) -> serve cfg sig spn r a = (reply, a') ->
  exists row, row ∈ principals (kt (st_db (as_st a'))) /\ tgs_row row /\ (pr_user_id row = None -> tgs_safe (kt (st_db (as_st a')))).
Proof.
  intros Hpath Hs. unfold serve, returns. destruct (routes cfg sig spn r a) as [res a1] eqn:Hrun. intros Hret.
  assert (a' = a1) as -> by (destruct res; by injection Hret). clear Hret.
  assert (Hp : preserves (routes cfg sig spn r)); [|by apply (Hp _ _ _ Hrun)]. clear Hrun res.
  unfold routes. destruct (mux_find _ r) as [[h vals]|] eqn:Hm.
  { apply acalm_public in Hm. apply preserves_within. by apply (a_within_calm _ replies_calmly). }
  destruct (match_path _ _ _); [|apply preserves_within; frame]. unfold authenticate.
  apply preserves_after; [frame|]. intros presented.
  assert (Hmux : forall c, preserves (api_mux cfg r c)).
  { intros c. unfold api_mux. destruct (mux_find (apiRoutes cfg) r) as [[h vals]|] eqn:Hf; [|apply preserves_within; frame].
    apply mux_find_elem in Hf as (rt & Hin & <- & Hmp). assert (Hn : no_char backslash (Get vals "name")) by (by eapply match_path_values).
    by apply (proj1 (Forall_forall _ _) (apiRoutes_preserve r c vals Hn)). }
  destruct (_ && _); [apply Hmux|]. apply preserves_after; [apply tgs_session|]. intros [c|]; [apply Hmux|apply preserves_within; frame].
Qed.
End Tgs.
