(* ===== verification/ApiSample.v ===== *)
(** * The management API on a sample realm

    A realm with an administrator and an ordinary account; toy readers of request bodies. The theorems
    about the API are applied to requests of theirs, and two requests are shown that take the
    ticket-granting principal away outside the conditions of [TGS_survives]. *)

From S2P Require Import Prelude Text Hostport Duration Netip Base64 Names Keytab Failban Replay Model Secret IdRange Db Principals PrincipalFacts Directory DirectoryFacts Accounts Certs AccountsOk Zone Dns DnsFacts LdapEntries Ldap LdapFacts LdapSearch Sasl SaslFacts LdapSample Jws OidcSample Vault Api ApiHandlers ApiKerberos ApiRoutes ApiFacts ApiWrites ApiTgs.

Definition no_patch : patchUserRequest := mkPatchUserRequest None None None None None None None None None None None None None.
Definition patch_disabled (b : bool) : patchUserRequest :=
  mkPatchUserRequest None None None None None None None None (Some b) None None None None.
Definition patch_link (user : string) : patchPrincipalRequest :=
  mkPatchPrincipalRequest (Some user) None None None None None None None None None None None None None None None None.

(** Bodies as short texts: [login:password], [disable] or [enable], names with commas between, a name. *)
Definition text_json : ApiJSON := {|
  json_login b := '(l, p) ← Cut ":"%char (string_of_bytes b); Some (mkLoginRequest l p);
  json_createUser _ := None;
  json_patchUser b := Some (if String.eqb (string_of_bytes b) "disable" then patch_disabled true
                            else if String.eqb (string_of_bytes b) "enable" then patch_disabled false else no_patch);
  json_setPassword _ := None; json_appPassword _ := None; json_createGroup _ := None; json_patchGroup _ := None;
  json_createPrincipal _ := None;
  json_patchPrincipal b := Some (patch_link (string_of_bytes b));
  json_principalPassword _ := None;
  json_keytab b := Some (match split_char ","%char (string_of_bytes b) with
                         | "new" :: l => mkKeytabRequest l true
                         | l => mkKeytabRequest l false
                         end);
  json_createTrust _ := None; json_patchTrust _ := None; json_importCertificate _ := None;
  json_createDNSRecord _ := None; json_vaultConfig _ := None |}.

(** A keytab that reads as itself, and tickets named in the header: [Negotiate user]. *)
Definition toy_spnego : SpnegoLib := {|
  HttpKeytab := bytes;
  httpKeytab_Unmarshal b := Some b;
  SPNEGOKRB5Authenticate _ _ _ header :=
    match CutPrefix header "Negotiate " with
    | Some user => sp_next (Some (mkIdentity user "EXAMPLE.COM" true))
    | None => sp_answered
    end |}.

Section ApiSample.
#[local] Existing Instance sample_clock.
#[local] Existing Instance toy_rand.
#[local] Existing Instance toy_aead.
#[local] Existing Instance toy_enctypes.
#[local] Existing Instance toy_bcrypt.
#[local] Existing Instance no_totp.
#[local] Existing Instance toy_dns.
#[local] Existing Instance toy_url.
#[local] Existing Instance toy_json.
#[local] Existing Instance toy_ecdsa.
#[local] Existing Instance text_json.
#[local] Existing Instance toy_spnego.
#[local] Instance no_x509 : X509Lib := {| pem_certificate _ := None; ParseCertificate _ := None |}.
#[local] Instance two_etypes : EncTypeTable := [("aes256-cts-hmac-sha1-96", 18); ("aes128-cts-hmac-sha1-96", 17)].
#[local] Instance api_sha : Sha256 := fun b => b.

Definition api_config : ApiConfig := mkApiConfig "EXAMPLE.COM" [18; 17] "management" "dc=example,dc=com" "cn" "ou" "HTTP/dc.example.com"
  (3600 * second) Failban.sample_config true true 8 ["example.com"] 300 4.
Definition api_spn : Name := mkName ["HTTP"; "dc.example.com"] "EXAMPLE.COM".

(** The accounts of [office], the second of which administers the directory, with the principals of
    the realm, of the accounts and of the service. *)
Definition tgs : Name := mkName ["krbtgt"; "EXAMPLE.COM"] "EXAMPLE.COM".
Definition add_principal (n : Name) (uid : option Z) (b : Byte.byte) (s : St) : St :=
  snd (CreatePrincipal (plain_principal n uid true None []) (sample_keys b) s).
Definition realm1 : St := add_principal tgs None Byte.x01 office.
Definition realm2 : St := add_principal (mkName ["mallory"] "EXAMPLE.COM") (Some 1) Byte.x02 realm1.
Definition realm3 : St := add_principal (mkName ["root"] "EXAMPLE.COM") (Some 2) Byte.x03 realm2.
Definition realm4 : St := add_principal api_spn None Byte.x04 realm3.
Definition api0 : AServer := mkAServer realm4 (Failban.New 0) None.

Definition api_request (method : string) (path : list string) (authorization body : string) : ApiReq :=
  mkApiReq method path ∅ authorization "192.0.2.7:50000" (bytes_of_string body).
Definition ask_api (r : ApiReq) : AServer -> option ApiReply * AServer := serve api_config sample_signer api_spn r.
Definition body_of_reply (x : option ApiReply * AServer) : option ApiBody := re_body <$> fst x.

Definition login_as_root : ApiReq := api_request "POST" ["api"; "v1"; "auth"; "login"] "" "root:chief".
Definition signed_in := ask_api login_as_root api0.
Definition root_token : string := match body_of_reply signed_in with Some (rb_session t _ _ _) => t | _ => EmptyString end.
Definition as_root (method : string) (path : list string) (body : string) : ApiReq := api_request method path ("Bearer " +:+ root_token) body.

Example sample_runs :
  non_empty root_token = true /\
  body_of_reply (ask_api (api_request "POST" ["api"; "v1"; "auth"; "login"] "" "mallory:secret") api0) = Some (rb_error "does not administer the directory") /\
  body_of_reply (ask_api (as_root "GET" ["api"; "v1"; "groups"; "staff"; "members"] "") (snd signed_in)) = Some (rb_members ["mallory"]).
Proof. vm_compute. by split_and!. Qed.

Lemma add_principal_ok n uid b s : ktables_ok (kt (st_db s)) -> ktables_ok (kt (st_db (add_principal n uid b s))).
Proof.
  intros Hok. unfold add_principal. destruct (CreatePrincipal _ _ s) as [r s'] eqn:E. cbn [snd].
  destruct (proj1 atomic_ops _ _ _ _ _ E) as [[q Hq]|Hd]; [subst r; by eapply CreatePrincipal_ok|by rewrite Hd].
Qed.

Lemma realm_ok : ktables_ok (kt (st_db realm4)).
Proof. do 4 apply add_principal_ok. replace (kt (st_db office)) with empty_tables by (vm_compute; reflexivity). apply empty_tables_ok. Qed.

Lemma api0_st : as_st api0 = realm4.
Proof. reflexivity. Qed.

(** ** Authority *)

Lemma API_requires_admin_witness :
  let x := ask_api (api_request "DELETE" ["api"; "v1"; "users"; "root"] "" "") api0 in
  st_db (as_st (snd x)) = st_db (as_st api0) /\ match fst x with Some re => outsider (re_body re) = true | None => True end.
Proof.
  intros x. destruct (API_requires_admin api_config sample_signer api_spn (api_request "DELETE" ["api"; "v1"; "users"; "root"] "" "") api0 (snd x) (fst x))
    as [(p & Hp & _)|(H1 & _ & H2)]; [apply surjective_pairing|discriminate Hp|]. split; [exact H1|exact H2].
Defined.

Lemma session_issued_witness :
  exists u, u_Name u = "root" /\ administers api_config (st_db (as_st api0)) u /\ exists s, st_db s = st_db (as_st api0) /\ fst (UserByLogin "root" s) = Ok u.
Proof.
  destruct (handleLogin json_login api_config sample_signer login_as_root api0) as [[reply|e|] a'] eqn:E;
    [|exfalso; apply (f_equal fst) in E; vm_compute in E; discriminate E..].
  assert (Hb : match re_body reply with rb_session t s m x => (String.eqb s "root" && String.eqb m "password")%bool = true | _ => False end).
  { change (match re_body match Ok reply with Ok r => r | Err r => r | Panic => writeError 0 "" end with rb_session t s m x => (String.eqb s "root" && String.eqb m "password")%bool = true | _ => False end).
    rewrite <- (f_equal fst E : fst _ = Ok reply). vm_compute. reflexivity. }
  destruct (re_body reply) as [| | | |token subject method expires| | | | | | | | | | | | | | | | | | | |] eqn:Hbody; try exact (False_ind _ Hb).
  apply andb_true_iff in Hb as [Hs%String.eqb_eq Hm%String.eqb_eq]. subst.
  destruct (session_issued api_config sample_signer api_spn login_as_root api0 a' reply token "root" "password" expires (or_introl E) Hbody)
    as (u & Hn & Hadm & _ & [(_ & _ & req & s & now & Hreq & Hdb & Hl & _)|(Hk & _)]); [|discriminate Hk].
  exists u. split; [exact Hn|]. split; [exact Hadm|]. exists s. split; [exact Hdb|]. vm_compute in Hreq. injection Hreq as <-. exact Hl.
Defined.

Definition root_user : User :=
  match getUser (st_db realm4) (user_named "root") with Ok u => u | _ => sample_user "" 0 0 [] end.

Lemma session_lives_witness :
  exists token expires, fst (session api_config sample_signer token api0) = Ok (Some (mkCaller "root" "password" expires)).
Proof.
  destruct (admit_session api_config sample_signer root_user "password" api0) as [[reply|e|] a1] eqn:E;
    [|exfalso; apply (f_equal fst) in E; vm_compute in E; discriminate E..].
  assert (Hb : match re_body reply with rb_session t s m x => ((clock (st_tick (as_st api0)) <? x) && (0 <? Unix x) && (Unix x <=? max_int64))%bool = true | _ => False end).
  { change (match re_body match Ok reply with Ok r => r | Err r => r | Panic => writeError 0 "" end with
      rb_session t s m x => ((clock (st_tick (as_st api0)) <? x) && (0 <? Unix x) && (Unix x <=? max_int64))%bool = true | _ => False end).
    rewrite <- (f_equal fst E : fst _ = Ok reply). vm_compute. reflexivity. }
  destruct (re_body reply) as [| | | |token subject method expires| | | | | | | | | | | | | | | | | | | |] eqn:Hbody; try exact (False_ind _ Hb).
  exists token, expires. rewrite !andb_true_iff, Z.ltb_lt, Z.ltb_lt, Z.leb_le in Hb. destruct Hb as [[Hb1 Hb2] Hb3].
  apply (session_lives api_config sample_signer root_user "password" api0 a1 api0 reply token subject method expires).
  - reflexivity.
  - vm_compute. reflexivity.
  - intros H. vm_compute in H. discriminate H.
  - left. reflexivity.
  - vm_compute. reflexivity.
  - split; [exact Hb2|exact Hb3].
  - vm_compute. intros H. discriminate H.
  - exact E.
  - exact Hbody.
  - split; [exact Hb1|]. exists root_user. split; [vm_compute; reflexivity|]. split; [split; vm_compute; reflexivity|vm_compute; reflexivity].
Defined.

(** ** Writes *)

Definition disable_mallory : ApiReq := as_root "PATCH" ["api"; "v1"; "users"; "mallory"] "disable".
Definition mallory_user : User :=
  match getUser (st_db realm4) (user_named "mallory") with Ok u => u | _ => sample_user "" 0 0 [] end.

Lemma disable_reaches_kerberos_witness :
  exists reply a', handlePatchUser api_config disable_mallory "mallory" api0 = (Ok reply, a') /\
    Forall2 (fun row row' => pr_user_id row = Some 1 -> pr_enabled row' = false)
      (principals (kt (st_db (as_st api0)))) (principals (kt (st_db (as_st a')))).
Proof.
  destruct (handlePatchUser api_config disable_mallory "mallory" api0) as [[reply|e|] a'] eqn:E; [|exfalso; apply (f_equal fst) in E; vm_compute in E; discriminate E..].
  exists reply, a'. split; [reflexivity|].
  destruct (disable_reaches_kerberos api_config disable_mallory "mallory" (patch_disabled true) true mallory_user api0 a' reply) as [_ H].
  - vm_compute. reflexivity.
  - reflexivity.
  - vm_compute. reflexivity.
  - exact realm_ok.
  - assert (Hall : Forall (fun row => (bool_decide (pr_user_id row = Some 1) = false \/
       (pr_name row = "mallory" /\ pr_realm row = "EXAMPLE.COM"))) (principals (kt (st_db realm4)))) by (vm_compute; repeat constructor; auto).
    intros row Hin Hu. rewrite api0_st in Hin. destruct (proj1 (Forall_forall _ _) Hall row Hin) as [Hf|[Hn Hr]].
    + apply bool_decide_eq_false in Hf. exfalso. apply Hf. rewrite Hu. vm_compute. reflexivity.
    + rewrite Hn. split; [vm_compute; reflexivity|]. exists (mkName ["mallory"] "EXAMPLE.COM"). rewrite Hn, Hr. split; vm_compute; reflexivity.
  - exact E.
  - eapply Forall2_impl; [exact H|]. cbn beta. intros row row' (_ & Hin & _) Hu. apply Hin. rewrite Hu. vm_compute. reflexivity.
Defined.

Definition new_keys : ApiReq := as_root "POST" ["api"; "v1"; "keytab"] "new,HTTP/dc.example.com,nobody".
Definition old_keys : ApiReq := as_root "POST" ["api"; "v1"; "keytab"] "HTTP/dc.example.com,root".


Definition entries_of (reply : outcome ApiReply ApiReply) : list (string * Z * Z) :=
  match reply with
  | Ok r => match re_body r with
            | rb_keytab _ blob => match ParseKeytab blob with
                                  | Ok es => map (fun e => (Principal_of (kt_Name e), kt_KVNO e, EType (kt_Key e))) es
                                  | _ => []
                                  end
            | _ => []
            end
  | _ => []
  end.

Example keytab_served : entries_of (fst (handleKeytab api_config old_keys api0)) =
  [("HTTP/dc.example.com", 1, 18); ("HTTP/dc.example.com", 1, 17); ("root", 1, 18); ("root", 1, 17)].
Proof. vm_compute. reflexivity. Qed.

(** ** The ticket-granting principal *)

Lemma realm_safe : tgs_safe api_config (kt (st_db realm4)).
Proof.
  split.
  - apply realm_ok.
  - intros i Hi. apply (ok_seq _ realm_ok) in Hi as [_ Hi]. exact Hi.
  - destruct (List.find (fun r => String.eqb (pr_name r) "krbtgt/EXAMPLE.COM") (principals (kt (st_db realm4)))) as [r|] eqn:E; [|vm_compute in E; discriminate E].
    assert (Hr : pr_name r = "krbtgt/EXAMPLE.COM" /\ pr_realm r = "EXAMPLE.COM" /\ pr_user_id r = None).
    { apply (f_equal (fmap (fun r => (pr_name r, pr_realm r, pr_user_id r)))) in E. vm_compute in E. injection E as E1 E2 E3.
      split; [symmetry; exact E1|]. split; [symmetry; exact E2|symmetry; exact E3]. }
    apply find_Some_elem in E as [Hin _]. exists r. destruct Hr as (H1 & H2 & H3). split; [exact Hin|]. split; [|exact H3].
    unfold tgs_row. rewrite H1, H2. split; reflexivity.
  - assert (Ht : trusts (kt (st_db realm4)) = []) by (vm_compute; reflexivity). rewrite Ht. intros t Hin. destruct (not_elem_of_nil _ Hin).
Qed.

Definition delete_tgs : ApiReq := as_root "DELETE" ["api"; "v1"; "principals"; "krbtgt"; "EXAMPLE.COM"] "".

Lemma TGS_survives_witness :
  exists row, row ∈ principals (kt (st_db (as_st (snd (serve api_config sample_signer api_spn delete_tgs (snd signed_in)))))) /\ tgs_row api_config row.
Proof.
  destruct (serve api_config sample_signer api_spn delete_tgs (snd signed_in)) as [reply a'] eqn:E.
  destruct (TGS_survives api_config sample_signer api_spn (conj eq_refl eq_refl) delete_tgs (snd signed_in) a' reply) as (row & Hin & Ht & _).
  - vm_compute. repeat constructor.
  - assert (Ed : st_db (as_st (snd signed_in)) = st_db realm4) by (vm_compute; reflexivity). rewrite Ed. exact realm_safe.
  - exact E.
  - exists row. split; [exact Hin|exact Ht].
Defined.

Definition has_tgs (x : option ApiReply * AServer) : bool :=
  existsb (fun r => String.eqb (pr_name r) "krbtgt/EXAMPLE.COM") (principals (kt (st_db (as_st (snd x))))).

(** The name with its slash escaped is one component, so it is not a ticket-granting name, and it is
    written like one: the principal is deleted. *)
Example escaped_name_deletes_tgs :
  re_status <$> fst (ask_api delete_tgs (snd signed_in)) = Some 409 /\ has_tgs (ask_api delete_tgs (snd signed_in)) = true /\
  re_status <$> fst (ask_api (as_root "DELETE" ["api"; "v1"; "principals"; "krbtgt\"; "EXAMPLE.COM"] "") (snd signed_in)) = Some 204 /\
  has_tgs (ask_api (as_root "DELETE" ["api"; "v1"; "principals"; "krbtgt\"; "EXAMPLE.COM"] "") (snd signed_in)) = false.
Proof. vm_compute. by split_and!. Qed.

(** Given to an account, it goes with the account. *)
Definition linked := ask_api (as_root "PATCH" ["api"; "v1"; "principals"; "krbtgt"; "EXAMPLE.COM"] "mallory") (snd signed_in).
Definition unlinked := ask_api (as_root "DELETE" ["api"; "v1"; "users"; "mallory"] "") (snd linked).

Example linked_tgs_goes_with_account :
  re_status <$> fst linked = Some 200 /\ has_tgs linked = true /\ re_status <$> fst unlinked = Some 204 /\ has_tgs unlinked = false.
Proof. vm_compute. by split_and!. Qed.
End ApiSample.
