(* ===== verification/Pac.v ===== *)
(** * The privilege attribute certificate: package [kdc], pac.go

    The layout, the signatures and the re-signing of the PAC, and the structures it carries. The
    NDR encoding and the keyed checksums are the Kerberos library's. *)

From S2P Require Import Prelude Text Names Keytab Flags Model Messages Ticket Directory.

Definition pacTypeLogonInfo : Z := 1.
Definition pacTypeServerChecksum : Z := 6.
Definition pacTypeKDCChecksum : Z := 7.
Definition pacTypeClientInfo : Z := 10.
Definition pacTypeS4UDelegationInfo : Z := 11.
Definition groupAttributesEnabled : Z := 0x7.
Definition userAccountControlNormal : Z := 0x10.

(** ** The structures of the library *)

(** [mstypes.FileTime], [mstypes.RPCUnicodeString], [mstypes.RPCSID] and the rest of what
    [KERB_VALIDATION_INFO] is made of. *)
Record FileTime : Type := mkFileTime { LowDateTime : Z; HighDateTime : Z }.
Record RPCUnicodeString : Type := mkRPCUnicodeString { us_Length : Z; MaximumLength : Z; us_Value : string }.
Record RPCSID : Type := mkRPCSID {
  Revision : Z; SubAuthorityCount : Z; IdentifierAuthority : bytes; SubAuthority : list Z }.
Record GroupMembership : Type := mkGroupMembership { RelativeID : Z; Attributes : Z }.

Record KerbValidationInfo : Type := mkKerbValidationInfo {
  LogOnTime : FileTime;
  LogOffTime : FileTime;
  KickOffTime : FileTime;
  PasswordLastSet : FileTime;
  PasswordCanChange : FileTime;
  PasswordMustChange : FileTime;
  EffectiveName : RPCUnicodeString;
  FullNameOf : RPCUnicodeString;
  LogonScript : RPCUnicodeString;
  ProfilePath : RPCUnicodeString;
  HomeDirectory : RPCUnicodeString;
  HomeDirectoryDrive : RPCUnicodeString;
  UserID : Z;
  PrimaryGroupID : Z;
  GroupCount : Z;
  GroupIDs : list GroupMembership;
  LogonServer : RPCUnicodeString;
  LogonDomainName : RPCUnicodeString;
  LogonDomainID : RPCSID;
  UserAccountControl : Z;
}.

Record S4UDelegationInfo : Type := mkS4UDelegationInfo {
  S4U2proxyTarget : RPCUnicodeString;
  TransitedListSize : Z;
  S4UTransitedServices : list RPCUnicodeString;
}.

(** A buffer descriptor of [pac.PACType]. *)
Record InfoBuffer : Type := mkInfoBuffer { ULType : Z; CBBufferSize : Z; Offset : Z }.

(** The library: NDR, file times, and the checksum of an enctype or of a checksum type. *)
Class PacLib : Type := {
  PACType_Unmarshal : bytes -> option (list InfoBuffer);
  ndr_KerbValidationInfo : KerbValidationInfo -> option bytes;
  ndr_S4UDelegationInfo : S4UDelegationInfo -> option bytes;
  GetFileTime : Time -> FileTime;
  GetHMACBitLength : Z -> Z;
  GetHashID : Z -> Z;
  (** [crypto.GetEType(etype).GetChecksumHash(key, data, usage)] *)
  EType_ChecksumHash : Z -> bytes -> bytes -> Z -> option bytes;
  (** [crypto.GetChecksumEType(id).GetChecksumHash(key, data, usage)] *)
  Checksum_ChecksumHash : Z -> bytes -> bytes -> Z -> option bytes;
}.

Inductive PacError : Type :=
| PacParse | PacBounds | PacNoSignature | PacSigType | PacChecksum | PacMismatch | PacSizes | PacSID
| PacMarshal.

(** ** Strings on the wire *)

(** [\[\]rune(s)]: UTF-8 as Go decodes it; a byte that starts no well-formed sequence is U+FFFD. *)
Definition runeError : Z := 0xFFFD.
Definition continuation (lo hi b : Z) : bool := (lo <=? b) && (b <=? hi).

Definition decode_rune (b0 : Z) (rest : list Z) : Z * nat :=
  let bad := (runeError, 0%nat) in
  let second_range := if b0 =? 0xE0 then (0xA0, 0xBF) else if b0 =? 0xED then (0x80, 0x9F)
    else if b0 =? 0xF0 then (0x90, 0xBF) else if b0 =? 0xF4 then (0x80, 0x8F) else (0x80, 0xBF) in
  let ok1 b := continuation (fst second_range) (snd second_range) b in
  let ok b := continuation 0x80 0xBF b in
  if b0 <? 0x80 then (b0, 0%nat)
  else if (0xC2 <=? b0) && (b0 <=? 0xDF) then
    match rest with
    | b1 :: _ => if ok1 b1 then (Z.lor (Z.shiftl (Z.land b0 0x1F) 6) (Z.land b1 0x3F), 1%nat) else bad
    | _ => bad
    end
  else if (0xE0 <=? b0) && (b0 <=? 0xEF) then
    match rest with
    | b1 :: b2 :: _ =>
        if ok1 b1 && ok b2 then
          (Z.lor (Z.shiftl (Z.land b0 0xF) 12) (Z.lor (Z.shiftl (Z.land b1 0x3F) 6) (Z.land b2 0x3F)), 2%nat)
        else bad
    | _ => bad
    end
  else if (0xF0 <=? b0) && (b0 <=? 0xF4) then
    match rest with
    | b1 :: b2 :: b3 :: _ =>
        if ok1 b1 && ok b2 && ok b3 then
          (Z.lor (Z.shiftl (Z.land b0 7) 18) (Z.lor (Z.shiftl (Z.land b1 0x3F) 12)
             (Z.lor (Z.shiftl (Z.land b2 0x3F) 6) (Z.land b3 0x3F))), 3%nat)
        else bad
    | _ => bad
    end
  else bad.

(** [skip] counts the bytes of the sequence being read that are left to pass over. *)
Fixpoint runes (skip : nat) (bs : list Z) : list Z :=
  match bs, skip with
  | [], _ => []
  | _ :: bs', S n => runes n bs'
  | b :: bs', O => let '(r, n) := decode_rune b bs' in r :: runes n bs'
  end.

(** [utf16.Encode]. *)
Definition utf16_units (r : Z) : list Z :=
  if r <? 0x10000 then [r]
  else let r := r - 0x10000 in [0xD800 + Z.land (Z.shiftr r 10) 0x3FF; 0xDC00 + Z.land r 0x3FF].

Definition utf16_Encode (s : string) : list Z :=
  runes 0 (Z_of_byte <$> bytes_of_string s) ≫= utf16_units.

Definition unicodeString (s : string) : RPCUnicodeString :=
  let n := wrap 16 (Z.of_nat (List.length (utf16_Encode s)) * 2) in
  mkRPCUnicodeString n n s.

Definition utf16LE (s : string) : bytes := utf16_Encode s ≫= put_le 2.

Fixpoint parse_subs (parts : list string) : option (list Z) :=
  match parts with
  | [] => Some []
  | p :: parts' => v ← ParseUint 32 p; vs ← parse_subs parts'; Some (v :: vs)
  end.

Definition parseSID (s : string) : option RPCSID :=
  match split_char "-"%char (TrimSpace s) with
  | p0 :: p1 :: p2 :: rest =>
      if negb (EqualFold p0 "S") then None
      else
        rev ← ParseUint 8 p1;
        auth ← ParseUint 48 p2;
        subs ← parse_subs rest;
        if (15 <? List.length subs)%nat then None
        else Some (mkRPCSID rev (Z.of_nat (List.length subs)) (put_be 6 auth) subs)
  | _ => None
  end.

(** ** Layout *)

Record pacBuffer : Type := mkPacBuffer { pb_Type : Z; pb_Data : bytes }.

Definition align8 (n : nat) : nat :=
  let r := (n mod 8)%nat in if (r =? 0)%nat then n else (n + (8 - r))%nat.

(** The first loop of [assemblePAC]: the offset of each buffer, and the total. *)
Fixpoint place (total : nat) (bs : list pacBuffer) : list nat * nat :=
  match bs with
  | [] => ([], total)
  | b :: bs' =>
      let '(os, t) := place (align8 (total + List.length (pb_Data b))) bs' in (total :: os, t)
  end.

(** The second loop: the descriptor and the data of each buffer. *)
Fixpoint fill (i : nat) (bs : list pacBuffer) (offsets : list nat) (out : bytes) : bytes :=
  match bs, offsets with
  | b :: bs', o :: os' =>
      let d := (8 + 16 * i)%nat in
      let out := blit out d (put_le 4 (pb_Type b)) in
      let out := blit out (d + 4) (put_le 4 (wrap 32 (zlen (pb_Data b)))) in
      let out := blit out (d + 8) (put_le 8 (wrap 64 (Z.of_nat o))) in
      fill (S i) bs' os' (blit out o (pb_Data b))
  | _, _ => out
  end.

Definition assemblePAC (buffers : list pacBuffer) : bytes * list nat :=
  let '(offsets, total) := place (align8 (8 + 16 * List.length buffers)) buffers in
  let out := replicate total Byte.x00 in
  let out := blit out 0 (put_le 4 (wrap 32 (zlen buffers))) in
  let out := blit out 4 (put_le 4 0) in
  (fill 0 buffers offsets out, offsets).

(** [bufferBounds]; [offset] is a uint64 and [size] a uint32. *)
Definition bufferBounds (offset size total : Z) : option (Z * Z) :=
  if (total <? 0) || (wrap 64 total <? offset) || (wrap 64 (wrap 64 total - offset) <? size) then None
  else Some (swrap 64 offset, swrap 64 offset + size).

(** ** Signatures *)

Section Signing.
Context `{EncTypeLib, PacLib}.

Definition emptySignature (k : Key) : outcome PacError bytes :=
  if negb (GetEType (EType k)) then Err PacSigType
  else Ok (put_le 4 (wrap 32 (GetHashID (EType k))) ++
           replicate (Z.to_nat (Z.quot (GetHMACBitLength (EType k)) 8)) Byte.x00).

Definition checksum (k : Key) (data : bytes) : outcome PacError bytes :=
  if negb (GetEType (EType k)) then Err PacSigType
  else or_err PacChecksum (EType_ChecksumHash (EType k) (Value k) data KERB_NON_KERB_CKSUM_SALT).

(** [copy(b[lo:lo+len(src)], src)]: the slice expression panics when it leaves the array. *)
Definition copy_at (b : bytes) (lo : nat) (src : bytes) : outcome PacError bytes :=
  if (lo + List.length src <=? List.length b)%nat then Ok (blit b lo src) else Panic.

(** [copy(b[lo:hi], src)]: as much of [src] as the slice holds. *)
Definition copy_into (b : bytes) (lo hi : nat) (src : bytes) : outcome PacError bytes :=
  if (lo <=? hi)%nat && (hi <=? List.length b)%nat then Ok (blit b lo (take (hi - lo) src)) else Panic.

Record pacSubject : Type := mkPacSubject {
  ps_User : User; ps_Principal : option Principal; ps_IDs : SecurityIDs; ps_AuthTime : Time }.

Definition neverFileTime : FileTime := mkFileTime 0xFFFFFFFF 0x7FFFFFFF.
Definition zeroFileTime : FileTime := mkFileTime 0 0.

Definition logonInfo (cfg : Config) (sid : RPCSID) (subj : pacSubject) : KerbValidationInfo :=
  let u := ps_User subj in
  let groups := (fun rid => mkGroupMembership (wrap 32 rid) groupAttributesEnabled) <$> sid_Groups (ps_IDs subj) in
  let fullName := TrimSpace (u_GivenName u +:+ " " +:+ u_SN u) in
  let fullName := if (String.length fullName =? 0)%nat then u_Name u else fullName in
  {| LogOnTime := GetFileTime (ps_AuthTime subj);
     LogOffTime := neverFileTime;
     KickOffTime := neverFileTime;
     PasswordLastSet := match ps_Principal subj ≫= p_PasswordLastSet with
                        | Some t => GetFileTime t | None => zeroFileTime end;
     PasswordCanChange := zeroFileTime;
     PasswordMustChange := match ps_Principal subj ≫= p_PasswordExpiresAt with
                           | Some t => GetFileTime t | None => neverFileTime end;
     EffectiveName := unicodeString (u_Name u);
     FullNameOf := unicodeString fullName;
     LogonScript := unicodeString "";
     ProfilePath := unicodeString "";
     HomeDirectory := unicodeString (u_Homedir u);
     HomeDirectoryDrive := unicodeString "";
     UserID := wrap 32 (sid_User (ps_IDs subj));
     PrimaryGroupID := wrap 32 (sid_PrimaryGroup (ps_IDs subj));
     GroupCount := wrap 32 (zlen groups);
     GroupIDs := groups;
     LogonServer := unicodeString (cfg_NetBIOSName cfg);
     LogonDomainName := unicodeString (cfg_NetBIOSName cfg);
     LogonDomainID := sid;
     UserAccountControl := userAccountControlNormal |}.

Definition marshalLogonInfo (cfg : Config) (subj : pacSubject) : outcome PacError bytes :=
  sid ← or_err PacSID (parseSID (cfg_DomainSID cfg));
  or_err PacMarshal (ndr_KerbValidationInfo (logonInfo cfg sid subj)).

Definition marshalClientInfo (name : string) (authTime : Time) : bytes :=
  let nameBytes := utf16LE name in
  let ft := GetFileTime authTime in
  put_le 4 (LowDateTime ft) ++ put_le 4 (HighDateTime ft) ++ put_le 2 (wrap 16 (zlen nameBytes)) ++ nameBytes.

(** The buffers before the signatures. *)
Definition pac_contents (cfg : Config) (subj : pacSubject) (delegation : option S4UDelegationInfo) :
    outcome PacError (list pacBuffer) :=
  info ← marshalLogonInfo cfg subj;
  let buffers := [mkPacBuffer pacTypeLogonInfo info;
                  mkPacBuffer pacTypeClientInfo (marshalClientInfo (u_Name (ps_User subj)) (ps_AuthTime subj))] in
  match delegation with
  | Some d =>
      b ← or_err PacMarshal (ndr_S4UDelegationInfo d);
      mret (buffers ++ [mkPacBuffer pacTypeS4UDelegationInfo b])
  | None => mret buffers
  end.

Definition buildPAC (cfg : Config) (subj : pacSubject) (serverKey kdcKey : Key)
    (delegation : option S4UDelegationInfo) : outcome PacError bytes :=
  buffers ← pac_contents cfg subj delegation;
  serverSig ← emptySignature serverKey;
  kdcSig ← emptySignature kdcKey;
  let buffers := buffers ++ [mkPacBuffer pacTypeServerChecksum serverSig; mkPacBuffer pacTypeKDCChecksum kdcSig] in
  let '(blob, offsets) := assemblePAC buffers in
  let serverStart := (nth (List.length offsets - 2) offsets 0 + 4)%nat in
  let kdcStart := (nth (List.length offsets - 1) offsets 0 + 4)%nat in
  serverSum ← checksum serverKey blob;
  blob ← copy_at blob serverStart serverSum;
  kdcSum ← checksum kdcKey serverSum;
  copy_at blob kdcStart kdcSum.

(** The loop over the descriptors: the bounds of the last buffer of either signature type, as
    [(start, end)] pairs that start at [(0, 0)]. *)
Fixpoint find_signatures (total : Z) (bs : list InfoBuffer) (server kdc : Z * Z) :
    outcome PacError ((Z * Z) * (Z * Z)) :=
  match bs with
  | [] => Ok (server, kdc)
  | b :: bs' =>
      match bufferBounds (Offset b) (CBBufferSize b) total with
      | None => Err PacBounds
      | Some se =>
          if ULType b =? pacTypeServerChecksum then find_signatures total bs' se kdc
          else if ULType b =? pacTypeKDCChecksum then find_signatures total bs' server se
          else find_signatures total bs' server kdc
      end
  end.

(** [verifyPACKDCSignature]. The array of the PAC ends with it: it was copied out of the message it
    arrived in. *)
Definition verifyPACKDCSignature (blob : bytes) (kdcKey : Key) : outcome PacError unit :=
  bufs ← or_err PacParse (PACType_Unmarshal blob);
  '((ss, se), (ks, ke)) ← find_signatures (zlen blob) bufs (0, 0) (0, 0);
  if (se - ss <? 4) || (ke - ks <? 4) then Err PacNoSignature
  else
    match slice ks (ks + 4) blob, slice (ss + 4) se blob with
    | Some id, Some serverSig =>
        want ← or_err PacChecksum
          (Checksum_ChecksumHash (swrap 32 (get_le id)) (Value kdcKey) serverSig KERB_NON_KERB_CKSUM_SALT);
        match slice (ks + 4) (ks + 4 + zlen want) blob with
        | Some got => err_if (negb (bool_decide (want = got))) PacMismatch
        | None => Panic
        end
    | _, _ => Panic
    end.

Definition resignPAC (blob : bytes) (serverKey kdcKey : Key) : outcome PacError bytes :=
  bufs ← or_err PacParse (PACType_Unmarshal blob);
  '((ss, se), (ks, ke)) ← find_signatures (zlen blob) bufs (0, 0) (0, 0);
  if (se - ss <? 4) || (ke - ks <? 4) then Err PacNoSignature
  else
    newServer ← emptySignature serverKey;
    newKDC ← emptySignature kdcKey;
    if negb (zlen newServer =? se - ss) || negb (zlen newKDC =? ke - ks) then Err PacSizes
    else
      out ← copy_into blob (Z.to_nat ss) (Z.to_nat se) newServer;
      out ← copy_into out (Z.to_nat ks) (Z.to_nat ke) newKDC;
      serverSum ← checksum serverKey out;
      out ← copy_into out (Z.to_nat (ss + 4)) (Z.to_nat se) serverSum;
      kdcSum ← checksum kdcKey serverSum;
      copy_into out (Z.to_nat (ks + 4)) (Z.to_nat ke) kdcSum.
End Signing.

(** ** Wrapping *)

Section Wrapping.
Context `{KrbLib}.

Definition wrapPAC (blob : bytes) : option AuthorizationData :=
  b ← Marshal_AuthorizationData [mkADEntry ADWin2KPAC blob];
  Some [mkADEntry ADIfRelevant b].

(** [extractPAC]: [Some None] for no PAC. The recursion follows the nesting of AD-IF-RELEVANT, which
    [fuel] bounds. *)
Fixpoint extract_fuel (fuel : nat) : AuthorizationData -> option (option bytes) :=
  fix loop (ad : AuthorizationData) : option (option bytes) :=
    match ad with
    | [] => Some None
    | entry :: ad' =>
        if ADType entry =? ADWin2KPAC then Some (Some (ADData entry))
        else if ADType entry =? ADIfRelevant then
          match Unmarshal_AuthorizationData (ADData entry), fuel with
          | Some inner, S fuel' =>
              match extract_fuel fuel' inner with
              | Some None => loop ad'
              | r => r
              end
          | _, _ => None
          end
        else loop ad'
    end.

(** The nesting is shallower than the longest entry is long. *)
Definition ad_depth (ad : AuthorizationData) : nat := list_max ((fun e => List.length (ADData e)) <$> ad).

Definition extractPAC (ad : AuthorizationData) : option (option bytes) := extract_fuel (S (ad_depth ad)) ad.

Lemma ad_depth_le ad n : (ad_depth ad < n)%nat <-> (0 < n)%nat /\ forall e, e ∈ ad -> (List.length (ADData e) < n)%nat.
Proof.
  unfold ad_depth. induction ad as [|e ad IH]; cbn [fmap list_fmap list_max foldr].
  - split; [intros; split; [lia|by intros x Hx%elem_of_nil]|lia].
  - change (foldr Nat.max 0%nat) with list_max in *. rewrite Nat.max_lub_lt_iff, IH. setoid_rewrite elem_of_cons. naive_solver.
Qed.

(** Fuel beyond the depth changes nothing: the search always has enough. *)
Lemma extract_fuel_enough `{!KrbLibLaws H} n m ad :
  (ad_depth ad < n)%nat -> (ad_depth ad < m)%nat -> extract_fuel n ad = extract_fuel m ad.
Proof.
  revert m ad. induction n as [|n IH]; intros m ad Hn Hm; [lia|]. destruct m as [|m]; [lia|].
  apply ad_depth_le in Hn as [_ Hn], Hm as [_ Hm].
  induction ad as [|e ad IHad]; [done|]. cbn [extract_fuel].
  assert (Hrest : extract_fuel (S n) ad = extract_fuel (S m) ad).
  { apply IHad; intros x Hx; [apply Hn|apply Hm]; by right. }
  cbn [extract_fuel] in Hrest. rewrite Hrest.
  destruct (ADType e =? ADWin2KPAC); [done|]. destruct (ADType e =? ADIfRelevant); [|done].
  destruct (Unmarshal_AuthorizationData (ADData e)) as [inner|] eqn:Eu; [|done].
  pose proof (Hn e (list_elem_of_here _ _)). pose proof (Hm e (list_elem_of_here _ _)).
  assert (Hin : forall k, (List.length (ADData e) <= k)%nat -> (ad_depth inner < k)%nat).
  { intros k Hk. apply ad_depth_le. split.
    - destruct (ADData e) eqn:Ee; [|simpl in Hk; lia]. by apply AuthorizationData_nonempty in Eu.
    - intros x Hx. pose proof (AuthorizationData_shorter _ _ _ Eu Hx). lia. }
  rewrite (IH m inner) by (apply Hin; lia). done.
Qed.
End Wrapping.
