(* ===== verification/PacFacts.v ===== *)
(** * What the layout and the signatures of a PAC promise

    The blob [assemblePAC] writes in place is the concatenation the format describes, its
    descriptors lead back to the buffers, and the signatures [buildPAC] and [resignPAC] leave in it
    are the ones [verifyPACKDCSignature] accepts. *)

From S2P Require Import Prelude Names Keytab Flags Model Messages Ticket Directory Pac.

(** ** The image of a PAC *)

Lemma blit_app {A} (a b c src : list A) n :
  n = List.length a -> List.length src = List.length b -> blit (a ++ b ++ c) n src = a ++ src ++ c.
Proof.
  intros -> Hl. unfold blit. rewrite take_app_length, !length_app, Hl, <- drop_drop, !drop_app_length.
  rewrite take_ge by lia. done.
Qed.

Lemma replicate_split {A} (x : A) n m : replicate (n + m) x = replicate n x ++ replicate m x.
Proof. apply replicate_add. Qed.

Lemma align8_le n : (n <= align8 n)%nat.
Proof. unfold align8. case_match; lia. Qed.

Lemma align8_mod n : (align8 n mod 8 = 0)%nat.
Proof.
  unfold align8. destruct (Nat.eqb_spec (n mod 8) 0) as [?|Hr]; [done|].
  pose proof (Nat.mod_upper_bound n 8 ltac:(lia)).
  replace (n + (8 - n mod 8))%nat with ((n / 8 + 1) * 8)%nat by (pose proof (Nat.div_mod_eq n 8); lia).
  apply Nat.Div0.mod_mul.
Qed.

Lemma align8_add n m : (n mod 8 = 0)%nat -> align8 (n + m) = (n + align8 m)%nat.
Proof.
  intros Hn. unfold align8. assert (Hm : ((n + m) mod 8 = m mod 8)%nat).
  { rewrite <- Nat.Div0.add_mod_idemp_l, Hn. done. }
  rewrite Hm. case_match; lia.
Qed.

(** The reference: descriptors, then the data, each buffer filled up to a multiple of eight. *)
Definition descriptor (b : pacBuffer) (o : nat) : bytes :=
  put_le 4 (pb_Type b) ++ put_le 4 (wrap 32 (zlen (pb_Data b))) ++ put_le 8 (wrap 64 (Z.of_nat o)).

Definition padded (b : pacBuffer) : bytes :=
  pb_Data b ++ replicate (align8 (List.length (pb_Data b)) - List.length (pb_Data b)) Byte.x00.

Fixpoint descriptors (o : nat) (bs : list pacBuffer) : bytes :=
  match bs with
  | [] => []
  | b :: bs' => descriptor b o ++ descriptors (o + List.length (padded b)) bs'
  end.

Definition header_len (n : nat) : nat := (8 + 16 * n)%nat.

Definition pac_image (bs : list pacBuffer) : bytes :=
  put_le 4 (wrap 32 (zlen bs)) ++ put_le 4 0 ++ descriptors (header_len (List.length bs)) bs ++ concat (padded <$> bs).

Lemma length_padded b : List.length (padded b) = align8 (List.length (pb_Data b)).
Proof. unfold padded. rewrite length_app, length_replicate. pose proof (align8_le (List.length (pb_Data b))). lia. Qed.

Lemma length_descriptor b o : List.length (descriptor b o) = 16%nat.
Proof. unfold descriptor. by rewrite !length_app, !length_put_le. Qed.

Lemma length_descriptors o bs : List.length (descriptors o bs) = (16 * List.length bs)%nat.
Proof. revert o. induction bs as [|b bs IH]; intros o; [done|]. cbn [descriptors List.length]. rewrite length_app, length_descriptor, IH. lia. Qed.

(** The offsets of the first loop. *)
Fixpoint offsets_from (o : nat) (bs : list pacBuffer) : list nat :=
  match bs with
  | [] => []
  | b :: bs' => o :: offsets_from (o + List.length (padded b)) bs'
  end.

Lemma length_offsets o bs : List.length (offsets_from o bs) = List.length bs.
Proof. revert o. induction bs as [|b bs IH]; intros o; [done|]. cbn [offsets_from List.length]. by rewrite IH. Qed.

Lemma place_spec o bs : (o mod 8 = 0)%nat ->
  place o bs = (offsets_from o bs, (o + List.length (concat (padded <$> bs)))%nat).
Proof.
  revert o. induction bs as [|b bs IH]; intros o Ho; cbn [place offsets_from fmap list_fmap concat]; [f_equal; simpl; lia|].
  rewrite align8_add, IH, length_padded by (rewrite ?align8_add by done; rewrite <- ?align8_add; auto using align8_mod).
  rewrite length_app, length_padded. f_equal. lia.
Qed.

(** The second loop, run on a blob whose first descriptors and data are written. *)
Lemma fill_spec bs i (hd data : bytes) :
  List.length hd = header_len i ->
  let o := (List.length hd + 16 * List.length bs + List.length data)%nat in
  fill i bs (offsets_from o bs)
    (hd ++ replicate (16 * List.length bs) Byte.x00 ++ data ++ replicate (List.length (concat (padded <$> bs))) Byte.x00)
  = hd ++ descriptors o bs ++ data ++ concat (padded <$> bs).
Proof.
  revert i hd data. induction bs as [|b bs IH]; intros i hd data Hhd; cbn [fill offsets_from fmap list_fmap concat descriptors];
    [by rewrite !app_nil_l, !app_nil_r|].
  set (o := (List.length hd + 16 * List.length (b :: bs) + List.length data)%nat). unfold header_len in Hhd.
  rewrite length_app, replicate_split. cbn [List.length].
  replace (16 * S (List.length bs))%nat with (4 + (4 + (8 + 16 * List.length bs)))%nat by lia. rewrite !replicate_split, <- !app_assoc.
  rewrite (blit_app hd) by (rewrite ?length_put_le, ?length_replicate; lia).
  rewrite (app_assoc hd). rewrite blit_app by (rewrite ?length_app, ?length_put_le, ?length_replicate; lia).
  rewrite (app_assoc (hd ++ _)). rewrite blit_app by (rewrite ?length_app, ?length_put_le, ?length_replicate; lia).
  rewrite length_padded. pose proof (align8_le (List.length (pb_Data b))) as Ha.
  assert (Hrep : replicate (align8 (List.length (pb_Data b))) Byte.x00 = replicate (List.length (pb_Data b)) Byte.x00 ++
    replicate (align8 (List.length (pb_Data b)) - List.length (pb_Data b)) Byte.x00) by (rewrite <- replicate_split; f_equal; lia).
  rewrite Hrep.
  set (w1 := put_le 4 (pb_Type b)). set (w2 := put_le 4 (wrap 32 _)). set (w3 := put_le 8 _).
  set (pad := replicate (align8 _ - _) Byte.x00). set (tl := replicate (List.length (concat _)) Byte.x00). set (zs := replicate (16 * List.length bs) _).
  replace (((hd ++ w1) ++ w2) ++ w3 ++ zs ++ data ++ (replicate (List.length (pb_Data b)) Byte.x00 ++ pad) ++ tl)
    with ((((hd ++ w1) ++ w2) ++ w3 ++ zs ++ data) ++ replicate (List.length (pb_Data b)) Byte.x00 ++ (pad ++ tl))
    by (by rewrite <- !app_assoc).
  rewrite blit_app.
  2:{ subst o w1 w2 w3 zs. rewrite !length_app, !length_put_le, length_replicate. cbn [List.length]. lia. }
  2:{ by rewrite length_replicate. }
  specialize (IH (S i) (hd ++ descriptor b o) (data ++ padded b)). cbv zeta in IH.
  replace (o + align8 (List.length (pb_Data b)))%nat
    with (List.length (hd ++ descriptor b o) + 16 * List.length bs + List.length (data ++ padded b))%nat
    by (rewrite !length_app, length_descriptor, length_padded; subst o; cbn [List.length]; lia).
  transitivity ((hd ++ descriptor b o) ++ descriptors (List.length (hd ++ descriptor b o) + 16 * List.length bs + List.length (data ++ padded b)) bs
    ++ (data ++ padded b) ++ concat (padded <$> bs)); [|by rewrite <- !app_assoc].
  rewrite <- IH.
  2:{ rewrite length_app, length_descriptor. unfold header_len. lia. }
  f_equal. unfold descriptor, padded. fold w1 w2 w3 pad tl zs. by rewrite <- !app_assoc.
Qed.

Lemma assemblePAC_image bs :
  assemblePAC bs = (pac_image bs, offsets_from (header_len (List.length bs)) bs).
Proof.
  unfold assemblePAC. assert (Hal : align8 (8 + 16 * List.length bs) = header_len (List.length bs)).
  { unfold header_len. replace (8 + 16 * List.length bs)%nat with ((1 + 2 * List.length bs) * 8 + 0)%nat by lia.
    rewrite align8_add by apply Nat.Div0.mod_mul. done. }
  rewrite Hal, place_spec.
  2:{ unfold header_len. replace (8 + 16 * List.length bs)%nat with ((1 + 2 * List.length bs) * 8)%nat by lia. apply Nat.Div0.mod_mul. }
  f_equal. set (n := List.length (concat _)).
  replace (header_len (List.length bs) + n)%nat with (4 + (4 + (16 * List.length bs + n)))%nat by (unfold header_len; lia).
  rewrite !replicate_split.
  rewrite <- (app_nil_l (replicate 4 _ ++ _)), (blit_app []) by (rewrite ?length_put_le, ?length_replicate; done).
  rewrite app_nil_l.
  rewrite blit_app by (rewrite ?length_put_le, ?length_replicate; done).
  unfold pac_image.
  pose proof (fill_spec bs 0 (put_le 4 (wrap 32 (zlen bs)) ++ put_le 4 0) []) as Hf. cbv zeta in Hf.
  rewrite !app_nil_l, length_app, !length_put_le in Hf. fold n in Hf.
  replace (4 + 4 + 16 * List.length bs + List.length [])%nat with (header_len (List.length bs)) in Hf by (unfold header_len; simpl; lia).
  rewrite <- !app_assoc in Hf. by apply Hf.
Qed.

(** ** Reading it back *)

(** The PACTYPE structure of MS-PAC section 2.3: the descriptors a blob starts with. *)
Fixpoint read_descriptors (n : nat) (b : bytes) : option (list InfoBuffer) :=
  match n with
  | O => Some []
  | S n' =>
      if (List.length b <? 16)%nat then None
      else
        rest ← read_descriptors n' (drop 16 b);
        Some (mkInfoBuffer (get_le (take 4 b)) (get_le (take 4 (drop 4 b))) (get_le (take 8 (drop 8 b))) :: rest)
  end.

Definition pac_header (b : bytes) : option (list InfoBuffer) :=
  if (List.length b <? 8)%nat then None
  else read_descriptors (Z.to_nat (get_le (take 4 b))) (drop 8 b).

(** The descriptors of a list of buffers. *)
Fixpoint entries_of (o : nat) (bs : list pacBuffer) : list InfoBuffer :=
  match bs with
  | [] => []
  | b :: bs' => mkInfoBuffer (pb_Type b) (zlen (pb_Data b)) (Z.of_nat o) :: entries_of (o + List.length (padded b)) bs'
  end.

Definition type_fits (b : pacBuffer) : Prop := 0 <= pb_Type b < 2 ^ 32.

Lemma get_put_le_small n z : 0 <= z < 256 ^ Z.of_nat n -> get_le (put_le n z) = z.
Proof. intros. rewrite get_put_le. by apply Z.mod_small. Qed.

Lemma drop_app_le' {A} n (a b : list A) : n = List.length a -> drop n (a ++ b) = b.
Proof. intros ->. apply drop_app_length. Qed.

Lemma take_app_le' {A} n (a b : list A) : n = List.length a -> take n (a ++ b) = a.
Proof. intros ->. apply take_app_length. Qed.

Lemma read_descriptor b o rest :
  type_fits b -> zlen (pb_Data b) < 2 ^ 32 -> Z.of_nat o < 2 ^ 64 ->
  get_le (take 4 (descriptor b o ++ rest)) = pb_Type b /\
  get_le (take 4 (drop 4 (descriptor b o ++ rest))) = zlen (pb_Data b) /\
  get_le (take 8 (drop 8 (descriptor b o ++ rest))) = Z.of_nat o.
Proof.
  intros Ht Hl Ho. unfold descriptor. rewrite <- !app_assoc. unfold zlen in *. split_and!.
  - rewrite take_app_le' by (by rewrite length_put_le). by rewrite get_put_le_small.
  - rewrite drop_app_le', take_app_le', wrap_small by (rewrite ?length_put_le; lia). rewrite get_put_le_small; lia.
  - change 8%nat with (4 + 4)%nat at 2. rewrite <- drop_drop, drop_app_le', drop_app_le', take_app_le', wrap_small by (rewrite ?length_put_le; lia).
    rewrite get_put_le_small; lia.
Qed.

Lemma read_descriptors_spec o bs rest :
  Forall type_fits bs -> Z.of_nat (o + List.length (concat (padded <$> bs))) < 2 ^ 32 ->
  read_descriptors (List.length bs) (descriptors o bs ++ rest) = Some (entries_of o bs).
Proof.
  revert o. induction bs as [|b bs IH]; intros o Hf Ho; [done|]. apply Forall_cons in Hf as [Hb Hf].
  cbn [fmap list_fmap concat] in Ho. rewrite length_app in Ho. pose proof (align8_le (List.length (pb_Data b))). rewrite length_padded in Ho.
  cbn [List.length read_descriptors descriptors entries_of]. rewrite <- app_assoc.
  destruct (read_descriptor b o (descriptors (o + List.length (padded b)) bs ++ rest)) as (E1 & E2 & E3);
    [done|unfold zlen; lia|lia|]. rewrite E1, E2, E3.
  rewrite length_app, length_descriptor. destruct (Nat.ltb_spec (16 + List.length (descriptors (o + List.length (padded b)) bs ++ rest)) 16); [lia|].
  rewrite drop_app_le' by (by rewrite length_descriptor).
  rewrite IH; [done|done|rewrite length_padded; lia].
Qed.

Lemma length_image bs : List.length (pac_image bs) = (header_len (List.length bs) + List.length (concat (padded <$> bs)))%nat.
Proof. unfold pac_image, header_len. rewrite !length_app, !length_put_le, length_descriptors. lia. Qed.

Lemma pac_header_image bs :
  Forall type_fits bs -> zlen (pac_image bs) < 2 ^ 32 ->
  pac_header (pac_image bs) = Some (entries_of (header_len (List.length bs)) bs).
Proof.
  unfold pac_header, zlen. rewrite length_image. intros Hf Hl.
  destruct (Nat.ltb_spec (header_len (List.length bs) + List.length (concat (padded <$> bs))) 8) as [Hlt|_]; [unfold header_len in Hlt; lia|].
  unfold pac_image. rewrite take_app_le' by (by rewrite length_put_le).
  rewrite wrap_small, get_put_le_small by (unfold zlen, header_len in *; lia). unfold zlen. rewrite Nat2Z.id.
  rewrite app_assoc, drop_app_le' by (by rewrite length_app, !length_put_le).
  apply read_descriptors_spec; [done|lia].
Qed.

(** A buffer in the middle of the image. *)
Definition before (l : list pacBuffer) (n : nat) : nat := (header_len n + List.length (concat (padded <$> l)))%nat.

Lemma offsets_app o l1 l2 :
  offsets_from o (l1 ++ l2) = offsets_from o l1 ++ offsets_from (o + List.length (concat (padded <$> l1))) l2.
Proof.
  revert o. induction l1 as [|b l1 IH]; intros o; cbn [offsets_from app fmap list_fmap concat]; [f_equal; simpl; lia|].
  rewrite IH, length_app. do 3 f_equal. lia.
Qed.

Lemma entries_app o l1 l2 :
  entries_of o (l1 ++ l2) = entries_of o l1 ++ entries_of (o + List.length (concat (padded <$> l1))) l2.
Proof.
  revert o. induction l1 as [|b l1 IH]; intros o; cbn [entries_of app fmap list_fmap concat]; [f_equal; simpl; lia|].
  rewrite IH, length_app. do 3 f_equal. lia.
Qed.

Lemma image_split l1 b l2 :
  let n := List.length (l1 ++ b :: l2) in
  exists pre post, pac_image (l1 ++ b :: l2) = pre ++ pb_Data b ++ post /\ List.length pre = before l1 n.
Proof.
  intros n. unfold pac_image, before, header_len. fold n. rewrite fmap_app, concat_app, fmap_cons. cbn [concat].
  unfold padded at 2. set (pad := replicate _ _). set (tl := concat (padded <$> l2)).
  eexists (put_le 4 (wrap 32 (zlen (l1 ++ b :: l2))) ++ put_le 4 0 ++ descriptors (8 + 16 * n) (l1 ++ b :: l2) ++ concat (padded <$> l1)), (pad ++ tl).
  split; [by rewrite <- !app_assoc|]. rewrite !length_app, !length_put_le, length_descriptors. lia.
Qed.

Lemma slice_app {A} (pre mid post : list A) lo hi :
  lo = zlen pre -> hi = zlen pre + zlen mid -> slice lo hi (pre ++ mid ++ post) = Some mid.
Proof.
  intros -> ->. unfold slice, zlen. rewrite !length_app.
  rewrite (proj2 (Z.leb_le _ _)), (proj2 (Z.leb_le _ _)), (proj2 (Z.leb_le _ _)) by lia. cbn [andb].
  rewrite Nat2Z.id, drop_app_length. f_equal. apply take_app_le'. lia.
Qed.

Lemma slice_image l1 b l2 o :
  o = Z.of_nat (before l1 (List.length (l1 ++ b :: l2))) ->
  slice o (o + zlen (pb_Data b)) (pac_image (l1 ++ b :: l2)) = Some (pb_Data b).
Proof. intros ->. destruct (image_split l1 b l2) as (pre & post & -> & Hp). apply slice_app; unfold zlen; by rewrite Hp. Qed.

Lemma bufferBounds_ok offset size total :
  0 <= offset < 2 ^ 64 -> 0 <= size < 2 ^ 32 -> 0 <= total <= max_int64 ->
  bufferBounds offset size total = if offset + size <=? total then Some (offset, offset + size) else None.
Proof.
  unfold max_int64. intros Ho Hs Ht. unfold bufferBounds.
  rewrite (proj2 (Z.ltb_ge total 0)) by lia. rewrite (wrap_small 64 total) by lia. cbn [orb].
  destruct (Z.ltb_spec total offset).
  - cbn [orb]. destruct (Z.leb_spec (offset + size) total); [lia|done].
  - rewrite wrap_small by lia. cbn [orb]. destruct (Z.ltb_spec (total - offset) size), (Z.leb_spec (offset + size) total); try lia; [done|].
    rewrite swrap_small by lia. done.
Qed.

(** A descriptor of a PAC, whatever its 64-bit offset and 32-bit size, is resolved exactly when
    the buffer it describes lies inside the blob, and then to that buffer: slicing the blob at the
    bounds never leaves it, and no descriptor wraps around. *)
Lemma bufferBounds_safe (offset size : Z) (blob : bytes) :
  0 <= offset < 2 ^ 64 -> 0 <= size < 2 ^ 32 -> zlen blob <= max_int64 ->
  match bufferBounds offset size (zlen blob) with
  | Some (s, e) => s = offset /\ e = offset + size /\ exists b, slice s e blob = Some b /\ zlen b = size
  | None => zlen blob < offset + size
  end.
Proof.
  intros Ho Hs Hl. assert (0 <= zlen blob) by (unfold zlen; lia). rewrite bufferBounds_ok by lia.
  destruct (Z.leb_spec (offset + size) (zlen blob)) as [Hle|]; [|done]. split_and!; [done|done|].
  unfold slice. fold (zlen blob). rewrite !(proj2 (Z.leb_le _ _)) by lia. cbn [andb].
  eexists. split; [done|]. unfold zlen in *. rewrite length_take, length_drop. lia.
Qed.

Lemma bufferBounds_safe_witness :
  bufferBounds 8 4 (zlen (replicate 16 Byte.x00)) = Some (8, 12) /\
  bufferBounds (2 ^ 64 - 2) 4 (zlen (replicate 16 Byte.x00)) = None /\
  exists b, slice 8 12 (replicate 16 Byte.x00) = Some b /\ zlen b = 4.
Proof.
  split; [reflexivity|]. split; [reflexivity|].
  destruct (bufferBounds_safe 8 4 (replicate 16 Byte.x00)) as (_ & _ & H).
  - lia.
  - lia.
  - vm_compute. discriminate.
  - exact H.
Defined.

Lemma length_entries o bs : List.length (entries_of o bs) = List.length bs.
Proof. revert o. induction bs as [|b bs IH]; intros o; [done|]. cbn [entries_of List.length]. by rewrite IH. Qed.

Lemma before_mod l n : (before l n mod 8 = 0)%nat.
Proof.
  unfold before, header_len. rewrite <- Nat.Div0.add_mod_idemp_l.
  replace (8 + 16 * n)%nat with ((1 + 2 * n) * 8)%nat by lia. rewrite Nat.Div0.mod_mul, Nat.add_0_l.
  induction l as [|b l IH]; [done|]. cbn [fmap list_fmap concat].
  by rewrite length_app, <- Nat.Div0.add_mod_idemp_l, length_padded, align8_mod, Nat.add_0_l.
Qed.

(** The blob [assemblePAC] builds by writing into a zeroed array is well formed: its header
    reads back as one descriptor per buffer, in order, with its type and exact size, and the bytes
    each descriptor points at are that buffer's data, at an offset that is a multiple of eight and
    after the header. *)
Lemma assemblePAC_roundtrip (bs : list pacBuffer) :
  Forall type_fits bs -> zlen (fst (assemblePAC bs)) < 2 ^ 32 ->
  exists ds, pac_header (fst (assemblePAC bs)) = Some ds /\ List.length ds = List.length bs /\
    forall i b, bs !! i = Some b -> exists d o,
      ds !! i = Some d /\ snd (assemblePAC bs) !! i = Some o /\
      ULType d = pb_Type b /\ CBBufferSize d = zlen (pb_Data b) /\ Offset d = Z.of_nat o /\
      (o mod 8 = 0)%nat /\ (8 + 16 * List.length bs <= o)%nat /\
      slice (Offset d) (Offset d + CBBufferSize d) (fst (assemblePAC bs)) = Some (pb_Data b).
Proof.
  rewrite assemblePAC_image. cbn [fst snd]. intros Hf Hl. eexists. split; [by apply pac_header_image|]. split.
  { apply length_entries. }
  intros i b Hb. apply take_drop_middle in Hb as Hs.
  set (l1 := take i bs) in *. set (l2 := drop (S i) bs) in *.
  assert (Hi : i = List.length l1) by (unfold l1; rewrite length_take; apply lookup_lt_Some in Hb; lia).
  rewrite <- Hs. set (n := List.length (l1 ++ b :: l2)).
  exists (mkInfoBuffer (pb_Type b) (zlen (pb_Data b)) (Z.of_nat (before l1 n))), (before l1 n).
  rewrite entries_app, offsets_app. cbn [entries_of offsets_from]. fold (before l1 n).
  split; [by apply list_lookup_middle; rewrite length_entries|].
  split; [by apply list_lookup_middle; rewrite length_offsets|]. cbn [ULType CBBufferSize Offset].
  split_and!; [done|done|done|apply before_mod|unfold before, header_len; lia|by apply slice_image].
Qed.

Lemma assemblePAC_roundtrip_witness :
  exists ds, pac_header (fst (assemblePAC [mkPacBuffer 1 [Byte.x01; Byte.x02]; mkPacBuffer 6 [Byte.x03]])) = Some ds /\
    List.length ds = 2%nat.
Proof.
  destruct (assemblePAC_roundtrip [mkPacBuffer 1 [Byte.x01; Byte.x02]; mkPacBuffer 6 [Byte.x03]]) as (ds & Hd & Hl & _).
  - repeat constructor; unfold type_fits; cbn; lia.
  - vm_compute. reflexivity.
  - exists ds. split; [exact Hd|exact Hl].
Defined.

(** ** Signatures *)

(** What the library promises: a blob whose descriptors lie inside it parses to them (MS-PAC
    section 2.3), and what it parses has the widths of its fields; a checksum is as long as the enctype says and is the same whether it is reached by
    enctype or by its checksum type, whose number is 32 bits wide (RFC 3961 section 4). *)
Class PacLibLaws `(EncTypeLib) `(PacLib) : Prop := {
  PACType_Unmarshal_header b bs :
    pac_header b = Some bs -> get_le (take 4 (drop 4 b)) = 0 ->
    (forall d, d ∈ bs -> Offset d mod 8 = 0 /\ Offset d + CBBufferSize d <= zlen b) -> PACType_Unmarshal b = Some bs;
  PACType_Unmarshal_widths b bs d :
    PACType_Unmarshal b = Some bs -> d ∈ bs -> 0 <= Offset d < 2 ^ 64 /\ 0 <= CBBufferSize d < 2 ^ 32;
  ChecksumHash_length e k d u h : EType_ChecksumHash e k d u = Some h -> zlen h = Z.quot (GetHMACBitLength e) 8;
  Checksum_of_hash_id e k d u :
    GetEType e = true -> Checksum_ChecksumHash (GetHashID e) k d u = EType_ChecksumHash e k d u;
  GetHashID_range e : GetEType e = true -> - 2 ^ 31 <= GetHashID e < 2 ^ 31;
}.

(** A signature buffer holding a checksum. *)
Definition signature `{PacLib} (k : Key) (sum : bytes) : bytes := put_le 4 (wrap 32 (GetHashID (EType k))) ++ sum.

Definition signed_buffers `{PacLib} (bs : list pacBuffer) (serverKey kdcKey : Key) (serverSum kdcSum : bytes) : list pacBuffer :=
  bs ++ [mkPacBuffer pacTypeServerChecksum (signature serverKey serverSum);
         mkPacBuffer pacTypeKDCChecksum (signature kdcKey kdcSum)].

Definition zeroed (n : nat) : bytes := replicate n Byte.x00.

Definition not_signature (b : pacBuffer) : Prop :=
  pb_Type b <> pacTypeServerChecksum /\ pb_Type b <> pacTypeKDCChecksum.

Lemma descriptors_same o l l' :
  Forall2 (fun b b' => pb_Type b = pb_Type b' /\ List.length (pb_Data b) = List.length (pb_Data b')) l l' ->
  descriptors o l = descriptors o l'.
Proof.
  intros Hl. revert o. induction Hl as [|b b' l l' [Ht Hd] _ IH]; intros o; [done|]. cbn [descriptors].
  rewrite IH, !length_padded. unfold descriptor, zlen. by rewrite Ht, Hd.
Qed.

(** Overwriting part of a buffer in the image gives the image of the list with that buffer changed. *)
Lemma blit_image l1 l2 t (x y y' z : bytes) o :
  List.length y = List.length y' ->
  o = (before l1 (List.length (l1 ++ mkPacBuffer t (x ++ y ++ z) :: l2)) + List.length x)%nat ->
  blit (pac_image (l1 ++ mkPacBuffer t (x ++ y ++ z) :: l2)) o y' = pac_image (l1 ++ mkPacBuffer t (x ++ y' ++ z) :: l2).
Proof.
  intros Hy Ho. set (b := mkPacBuffer t (x ++ y ++ z)) in *. set (b' := mkPacBuffer t (x ++ y' ++ z)).
  assert (Hdata : List.length (pb_Data b) = List.length (pb_Data b')) by (cbn; by rewrite !length_app, Hy).
  unfold pac_image. rewrite (descriptors_same _ (l1 ++ b :: l2) (l1 ++ b' :: l2)).
  2:{ apply Forall2_app; [|constructor; [done|]]; apply Forall_Forall2_diag, Forall_forall; done. }
  unfold before, header_len in Ho. unfold zlen.
  assert (Hlen : List.length (l1 ++ b :: l2) = List.length (l1 ++ b' :: l2)) by (by rewrite !length_app). rewrite Hlen in *.
  set (hd := descriptors _ _). rewrite !fmap_app, !fmap_cons, !concat_app. cbn [concat].
  unfold padded at 2 5. rewrite <- Hdata. set (pad := replicate _ _). set (tl := concat (padded <$> l2)).
  cbn [pb_Data b b']. set (p1 := put_le 4 (wrap 32 _)).
  transitivity (blit ((p1 ++ put_le 4 0 ++ hd ++ concat (padded <$> l1) ++ x) ++ y ++ (z ++ pad ++ tl)) o y'); [by rewrite <- !app_assoc|].
  rewrite blit_app; [by rewrite <- !app_assoc| |done].
  rewrite Ho. unfold hd, p1. rewrite !length_app, !length_put_le, length_descriptors, !length_app. cbn [List.length]. lia.
Qed.

Section Signed.
Context `{El : EncTypeLib, Pl : PacLib, !PacLibLaws El Pl}.

Lemma emptySignature_Ok k sig :
  emptySignature k = Ok sig <->
  GetEType (EType k) = true /\ sig = signature k (zeroed (Z.to_nat (Z.quot (GetHMACBitLength (EType k)) 8))).
Proof. unfold emptySignature, signature, zeroed. destruct (GetEType (EType k)); cbn [negb]; naive_solver. Qed.

Lemma checksum_Ok k d h :
  checksum k d = Ok h <-> GetEType (EType k) = true /\ EType_ChecksumHash (EType k) (Value k) d KERB_NON_KERB_CKSUM_SALT = Some h.
Proof. unfold checksum. destruct (GetEType (EType k)); cbn [negb]; [rewrite or_err_Ok|]; naive_solver. Qed.

Lemma checksum_length k d h :
  checksum k d = Ok h -> List.length h = Z.to_nat (Z.quot (GetHMACBitLength (EType k)) 8).
Proof. intros [_ Hc]%checksum_Ok. apply ChecksumHash_length in Hc. rewrite <- Hc. unfold zlen. by rewrite Nat2Z.id. Qed.

Lemma length_signature k sum : List.length (signature k sum) = (4 + List.length sum)%nat.
Proof. unfold signature. by rewrite length_app, length_put_le. Qed.

(** The loop over the descriptors passes over buffers that are not signatures. *)
Lemma find_signatures_skip total o bs rest s k :
  Forall not_signature bs -> total <= max_int64 -> Z.of_nat (o + List.length (concat (padded <$> bs))) <= total ->
  Forall (fun b => zlen (pb_Data b) < 2 ^ 32) bs ->
  find_signatures total (entries_of o bs ++ rest) s k = find_signatures total rest s k.
Proof.
  intros Hn Ht. revert o. induction Hn as [|b bs [Hs Hk] _ IH]; intros o Ho Hf; [done|].
  apply Forall_cons in Hf as [Hb Hf]. cbn [fmap list_fmap concat] in Ho. rewrite length_app, length_padded in Ho.
  pose proof (align8_le (List.length (pb_Data b))). cbn [entries_of app find_signatures Offset CBBufferSize ULType].
  unfold zlen, max_int64 in *. rewrite bufferBounds_ok by (unfold max_int64; lia). rewrite (proj2 (Z.leb_le _ _)) by lia.
  rewrite (proj2 (Z.eqb_neq _ _) Hs), (proj2 (Z.eqb_neq _ _) Hk). apply IH; [|done]. rewrite length_padded. lia.
Qed.

Lemma data_le_image l1 b l2 : (before l1 (List.length (l1 ++ b :: l2)) + List.length (pb_Data b) <= List.length (pac_image (l1 ++ b :: l2)))%nat.
Proof. destruct (image_split l1 b l2) as (pre & post & -> & Hp). rewrite (length_app pre), (length_app (pb_Data b)), Hp. lia. Qed.

Lemma image_entries_inside bs d :
  d ∈ entries_of (header_len (List.length bs)) bs -> Offset d mod 8 = 0 /\ Offset d + CBBufferSize d <= zlen (pac_image bs).
Proof.
  intros (i & Hi)%list_elem_of_lookup. pose proof (lookup_lt_Some _ _ _ Hi) as Hlt. rewrite length_entries in Hlt.
  apply lookup_lt_is_Some in Hlt as [b Hb]. apply take_drop_middle in Hb as Hs.
  assert (Hli : i = List.length (take i bs)) by (rewrite length_take; apply lookup_lt_Some in Hb; lia).
  pose proof (data_le_image (take i bs) b (drop (S i) bs)) as Hle. rewrite Hs in Hle.
  rewrite <- Hs, entries_app, Hs in Hi. cbn [entries_of] in Hi.
  rewrite list_lookup_middle in Hi by (by rewrite length_entries). apply (inj Some) in Hi as <-. cbn [Offset CBBufferSize].
  fold (before (take i bs) (List.length bs)). unfold zlen. split; [|lia].
  rewrite <- (Nat2Z.inj_mod _ 8), before_mod. done.
Qed.

Lemma Unmarshal_image bs :
  Forall type_fits bs -> zlen (pac_image bs) < 2 ^ 32 ->
  PACType_Unmarshal (pac_image bs) = Some (entries_of (header_len (List.length bs)) bs).
Proof.
  intros Hf Hl. apply PACType_Unmarshal_header; [by apply pac_header_image| |apply image_entries_inside].
  unfold pac_image. rewrite drop_app_le', take_app_le' by (by rewrite length_put_le). by apply get_put_le_small.
Qed.

Lemma data_small bs b : b ∈ bs -> zlen (pac_image bs) < 2 ^ 32 -> zlen (pb_Data b) < 2 ^ 32.
Proof.
  intros (l1 & l2 & ->)%list_elem_of_split Hl. pose proof (data_le_image l1 b l2). unfold zlen in *. lia.
Qed.

(** Where the signatures of a signed image are found. *)
Lemma find_signed bs sk kk ssum ksum :
  let all := signed_buffers bs sk kk ssum ksum in
  let so := Z.of_nat (before bs (List.length all)) in
  let ko := Z.of_nat (before (bs ++ [mkPacBuffer pacTypeServerChecksum (signature sk ssum)]) (List.length all)) in
  Forall not_signature bs -> zlen (pac_image all) < 2 ^ 32 ->
  find_signatures (zlen (pac_image all)) (entries_of (header_len (List.length all)) all) (0, 0) (0, 0)
  = Ok ((so, so + zlen (signature sk ssum)), (ko, ko + zlen (signature kk ksum))).
Proof.
  intros all so ko Hn Hl.
  set (sb := mkPacBuffer pacTypeServerChecksum (signature sk ssum)) in *.
  set (kb := mkPacBuffer pacTypeKDCChecksum (signature kk ksum)).
  pose proof (data_le_image bs sb [kb]) as H1. pose proof (data_le_image (bs ++ [sb]) kb []) as H2.
  rewrite <- (app_assoc bs) in H2. change (bs ++ [sb] ++ [kb]) with all in H2. change (bs ++ [sb; kb]) with all in H1.
  assert (Hko : before (bs ++ [sb]) (List.length all) = (before bs (List.length all) + List.length (padded sb))%nat).
  { unfold before. rewrite fmap_app, concat_app, length_app. cbn [fmap list_fmap concat]. rewrite app_nil_r. lia. }
  unfold ko. fold sb. rewrite Hko in *. clear ko Hko. unfold zlen in *.
  set (total := List.length (pac_image all)) in *.
  unfold all at 2, signed_buffers. fold sb kb. rewrite entries_app.
  rewrite find_signatures_skip; [|done|unfold max_int64; lia|unfold before in *; lia|].
  2:{ apply Forall_forall. intros b Hb. apply (data_small all); [|done]. unfold all, signed_buffers. set_solver. }
  fold (before bs (List.length all)). set (o := before bs (List.length all)) in *.
  cbn [entries_of find_signatures Offset CBBufferSize ULType]. unfold zlen.
  change (pb_Type sb) with 6. change (pb_Type kb) with 7.
  change (pb_Data sb) with (signature sk ssum) in *. change (pb_Data kb) with (signature kk ksum) in *.
  rewrite !bufferBounds_ok by (unfold max_int64; lia).
  rewrite (proj2 (Z.leb_le _ _)) by lia. cbn [Z.eqb pacTypeServerChecksum pacTypeKDCChecksum Pos.eqb].
  rewrite (proj2 (Z.leb_le _ _)) by lia. done.
Qed.

Lemma signature_id k : GetEType (EType k) = true ->
  swrap 32 (get_le (put_le 4 (wrap 32 (GetHashID (EType k))))) = GetHashID (EType k).
Proof.
  intros Hr%GetHashID_range. rewrite get_put_le_small by (apply wrap_range; lia). unfold swrap, wrap.
  rewrite Z.add_mod_idemp_l by lia. rewrite Z.mod_small; lia.
Qed.

(** A blob that has the right signatures where its descriptors say verifies. *)
Lemma verify_at blob bufs ss se ks ke ssum ksum kk :
  PACType_Unmarshal blob = Some bufs -> find_signatures (zlen blob) bufs (0, 0) (0, 0) = Ok ((ss, se), (ks, ke)) ->
  4 <= se - ss -> 4 <= ke - ks -> slice (ss + 4) se blob = Some ssum ->
  slice ks (ks + 4) blob = Some (put_le 4 (wrap 32 (GetHashID (EType kk)))) ->
  slice (ks + 4) (ks + 4 + zlen ksum) blob = Some ksum -> checksum kk ssum = Ok ksum ->
  verifyPACKDCSignature blob kk = Ok tt.
Proof.
  intros Hu Hf Hs Hk Hss Hid Hks [Het Hc]%checksum_Ok. unfold verifyPACKDCSignature.
  rewrite Hu. unfold mbind at 1, outcome_bind at 1, or_err at 1. rewrite Hf. unfold mbind at 1, outcome_bind at 1.
  rewrite (proj2 (Z.ltb_ge _ _)), (proj2 (Z.ltb_ge _ _)) by lia. cbn [orb].
  rewrite Hid, Hss, signature_id, Checksum_of_hash_id, Hc by done. unfold mbind, outcome_bind, or_err. rewrite Hks.
  by rewrite bool_decide_true.
Qed.

Lemma signature_slices (all : bytes) l1 k sum l2 :
  all = pac_image (l1 ++ mkPacBuffer pacTypeKDCChecksum (signature k sum) :: l2) ->
  let o := Z.of_nat (before l1 (List.length (l1 ++ mkPacBuffer pacTypeKDCChecksum (signature k sum) :: l2))) in
  slice o (o + 4) all = Some (put_le 4 (wrap 32 (GetHashID (EType k)))) /\
  slice (o + 4) (o + 4 + zlen sum) all = Some sum.
Proof.
  intros -> o. destruct (image_split l1 (mkPacBuffer pacTypeKDCChecksum (signature k sum)) l2) as (pre & post & -> & Hp).
  cbn [pb_Data]. unfold signature. rewrite <- app_assoc. split.
  - apply slice_app; unfold zlen; rewrite ?length_put_le, Hp; lia.
  - rewrite app_assoc. apply slice_app; unfold zlen; rewrite length_app, length_put_le, Hp; lia.
Qed.

Lemma verify_signed bs sk kk ssum ksum :
  let blob := pac_image (signed_buffers bs sk kk ssum ksum) in
  Forall type_fits bs -> Forall not_signature bs -> zlen blob < 2 ^ 32 -> checksum kk ssum = Ok ksum ->
  verifyPACKDCSignature blob kk = Ok tt.
Proof.
  intros blob Hf Hn Hl Hc.
  assert (Hu : PACType_Unmarshal blob = Some (entries_of (header_len (List.length (signed_buffers bs sk kk ssum ksum))) (signed_buffers bs sk kk ssum ksum))).
  { apply Unmarshal_image; [apply Forall_app; split; [done|repeat constructor; unfold type_fits; done]|done]. }
  pose proof (find_signed bs sk kk ssum ksum Hn Hl) as Hfs. cbv zeta in Hfs. fold blob in Hfs.
  set (all := signed_buffers bs sk kk ssum ksum) in *.
  set (sb := mkPacBuffer pacTypeServerChecksum (signature sk ssum)) in *.
  set (so := Z.of_nat (before bs _)) in *. set (ko := Z.of_nat (before (bs ++ [sb]) _)) in *.
  assert (Hsb : all = bs ++ sb :: [mkPacBuffer pacTypeKDCChecksum (signature kk ksum)]) by done.
  assert (Hkb : all = (bs ++ [sb]) ++ mkPacBuffer pacTypeKDCChecksum (signature kk ksum) :: []) by (by rewrite <- app_assoc).
  assert (Hlen : forall k s, zlen (signature k s) = 4 + zlen s) by (intros; unfold zlen; rewrite length_signature; lia).
  assert (Hpos : forall s : bytes, 0 <= zlen s) by (unfold zlen; lia). rewrite !Hlen in Hfs.
  destruct (signature_slices blob (bs ++ [sb]) kk ksum []) as [Hid Hsum]; [unfold blob; by rewrite <- Hkb|].
  rewrite <- Hkb in Hid, Hsum. fold ko in Hid, Hsum.
  pose proof (Hpos ssum). pose proof (Hpos ksum).
  eapply (verify_at _ _ _ _ _ _ ssum ksum); [exact Hu|exact Hfs|lia|lia| |done|done|done].
  destruct (image_split bs sb [mkPacBuffer pacTypeKDCChecksum (signature kk ksum)]) as (pre & post & Himg & Hp).
  unfold blob. rewrite Hsb, Himg. cbn [pb_Data sb]. unfold signature. rewrite <- app_assoc, app_assoc. rewrite <- Hsb in Hp. fold all in Hp.
  apply slice_app; unfold so, zlen; rewrite length_app, length_put_le, Hp; lia.
Qed.

Lemma pac_contents_types cfg subj d bs :
  pac_contents cfg subj d = Ok bs -> Forall type_fits bs /\ Forall not_signature bs.
Proof.
  unfold pac_contents. intros Hr. run_inv. destruct d; run_inv; split; repeat constructor; unfold type_fits; done.
Qed.

Lemma copy_at_Ok b lo src r : copy_at b lo src = Ok r <-> (lo + List.length src <= List.length b)%nat /\ r = blit b lo src.
Proof. unfold copy_at. destruct (Nat.leb_spec (lo + List.length src) (List.length b)); [naive_solver|]. split; [done|]. intros [? _]. lia. Qed.

(** The two writes of [buildPAC] into the laid out blob. *)
Lemma write_signatures bs sk kk (ssum ksum z1 z2 : bytes) :
  List.length z1 = List.length ssum -> List.length z2 = List.length ksum ->
  let all := signed_buffers bs sk kk z1 z2 in
  let offsets := offsets_from (header_len (List.length all)) all in
  (blob ← copy_at (pac_image all) (nth (List.length offsets - 2) offsets 0 + 4)%nat ssum;
   copy_at blob (nth (List.length offsets - 1) offsets 0 + 4)%nat ksum)
  = Ok (pac_image (signed_buffers bs sk kk ssum ksum)).
Proof.
  intros H1 H2 all offsets. set (sb := mkPacBuffer pacTypeServerChecksum (signature sk z1)).
  set (kb := mkPacBuffer pacTypeKDCChecksum (signature kk z2)).
  assert (Hoff : offsets = offsets_from (header_len (List.length all)) bs ++
            [before bs (List.length all); before (bs ++ [sb]) (List.length all)]).
  { unfold offsets, all at 2, signed_buffers. rewrite offsets_app. fold sb kb. cbn [offsets_from]. unfold before.
    rewrite fmap_app, concat_app, length_app. cbn [fmap list_fmap concat]. rewrite app_nil_r. do 3 f_equal. lia. }
  rewrite Hoff, length_app, length_offsets. cbn [List.length].
  rewrite !app_nth2, !length_offsets by (rewrite length_offsets; lia).
  replace (List.length bs + 2 - 2 - List.length bs)%nat with 0%nat by lia.
  replace (List.length bs + 2 - 1 - List.length bs)%nat with 1%nat by lia. cbn [nth].
  pose proof (data_le_image bs sb [kb]) as L1. pose proof (data_le_image (bs ++ [sb]) kb []) as L2.
  rewrite <- (app_assoc bs) in L2. change (bs ++ [sb] ++ [kb]) with all in L2. change (bs ++ [sb; kb]) with all in L1.
  cbn [pb_Data sb kb] in L1, L2. rewrite length_signature in L1, L2.
  unfold mbind, outcome_bind, copy_at. rewrite (proj2 (Nat.leb_le _ _)) by lia.
  rewrite length_blit by lia. rewrite (proj2 (Nat.leb_le _ _)) by lia. f_equal.
  assert (Hlen : forall s k, List.length (signed_buffers bs sk kk s k) = List.length all)
    by (intros; unfold all, signed_buffers; by rewrite !length_app).
  assert (E1 : blit (pac_image all) (before bs (List.length all) + 4) ssum = pac_image (signed_buffers bs sk kk ssum z2)).
  { pose proof (blit_image bs [kb] pacTypeServerChecksum (put_le 4 (wrap 32 (GetHashID (EType sk)))) z1 ssum [] (before bs (List.length all) + 4)) as Hb.
    rewrite !app_nil_r in Hb. apply Hb; [done|]. by rewrite length_put_le. }
  rewrite E1.
  pose proof (blit_image (bs ++ [mkPacBuffer pacTypeServerChecksum (signature sk ssum)]) [] pacTypeKDCChecksum
    (put_le 4 (wrap 32 (GetHashID (EType kk)))) z2 ksum [] (before (bs ++ [sb]) (List.length all) + 4)) as Hb.
  rewrite !app_nil_r, <- !(app_assoc bs) in Hb. apply Hb; [done|]. rewrite length_put_le. f_equal.
  unfold before. rewrite !fmap_app, !concat_app, !length_app. cbn [fmap list_fmap concat]. rewrite !app_nil_r, !length_padded.
  unfold sb. cbn [pb_Data]. rewrite !length_signature, H1. unfold all, signed_buffers. by rewrite !length_app.
Qed.

(** A PAC [buildPAC] returns is the well-formed image of its contents and two signatures: the
    server's is the checksum, under the key of the service, of the image with both signatures
    zeroed, the KDC's the checksum of the server's signature under the key of the realm; the KDC
    later accepts it as its own; and building never runs out of the array. *)
Lemma buildPAC_signed (cfg : Config) (subj : pacSubject) (serverKey kdcKey : Key) (d : option S4UDelegationInfo) :
  match buildPAC cfg subj serverKey kdcKey d with
  | Ok blob =>
      exists bs ssum ksum z1 z2, pac_contents cfg subj d = Ok bs /\
        blob = pac_image (signed_buffers bs serverKey kdcKey ssum ksum) /\
        checksum serverKey (pac_image (signed_buffers bs serverKey kdcKey (zeroed z1) (zeroed z2))) = Ok ssum /\
        checksum kdcKey ssum = Ok ksum /\
        (zlen blob < 2 ^ 32 -> verifyPACKDCSignature blob kdcKey = Ok tt)
  | Err _ => True
  | Panic => False
  end.
Proof.
  unfold buildPAC. destruct (pac_contents cfg subj d) as [bs|e|] eqn:Ec; [|done|].
  2:{ exfalso. revert Ec. unfold pac_contents, marshalLogonInfo, mbind, outcome_bind, or_err. by repeat case_match. }
  unfold mbind at 1, outcome_bind at 1.
  destruct (emptySignature serverKey) as [s0|e|] eqn:Es; [|done|by revert Es; unfold emptySignature; case_match].
  destruct (emptySignature kdcKey) as [k0|e|] eqn:Ek; [|done|by revert Ek; unfold emptySignature; case_match].
  apply emptySignature_Ok in Es as [Het ->], Ek as [Hekt ->]. unfold mbind at 1 2, outcome_bind at 1 2.
  rewrite assemblePAC_image. set (z1 := Z.to_nat (Z.quot (GetHMACBitLength (EType serverKey)) 8)). set (z2 := Z.to_nat (Z.quot _ 8)).
  fold (signed_buffers bs serverKey kdcKey (zeroed z1) (zeroed z2)).
  destruct (checksum serverKey _) as [ssum|e|] eqn:Hs;
    [|done|revert Hs; unfold checksum, or_err; by repeat case_match].
  pose proof (write_signatures bs serverKey kdcKey ssum) as Hw.
  specialize (fun k Hk => Hw k (zeroed z1) (zeroed z2) ltac:(by rewrite (checksum_length _ _ _ Hs); apply length_replicate) Hk).
  cbv zeta in Hw. unfold mbind, outcome_bind in Hw |- *.
  destruct (copy_at _ _ ssum) as [blob1|e|]; [|done|by specialize (Hw _ eq_refl)].
  destruct (checksum kdcKey ssum) as [ksum|e|] eqn:Hk; [|done|revert Hk; unfold checksum, or_err; by repeat case_match].
  rewrite Hw by (rewrite (checksum_length _ _ _ Hk); apply length_replicate).
  exists bs, ssum, ksum, z1, z2. split_and!; try done. intros Hl.
  apply pac_contents_types in Ec as [Ht Hn]. by apply verify_signed.
Qed.

(** ** Re-signing *)

Definition inside (r : Z * Z) (total : Z) : Prop := 0 <= fst r /\ fst r <= snd r <= total.

Lemma find_signatures_inside total bs s k r :
  0 <= total <= max_int64 -> (forall d, d ∈ bs -> 0 <= Offset d < 2 ^ 64 /\ 0 <= CBBufferSize d < 2 ^ 32) ->
  find_signatures total bs s k = Ok r ->
  inside s total -> inside k total -> inside (fst r) total /\ inside (snd r) total.
Proof.
  intros Ht. revert s k. induction bs as [|d bs IH]; intros s k Hd Hr Hs Hk; cbn [find_signatures] in Hr.
  - apply Ok_inj in Hr as ->. done.
  - destruct (Hd d) as [Ho Hz]; [left|]. rewrite bufferBounds_ok in Hr by done.
    destruct (Z.leb_spec (Offset d + CBBufferSize d) total); [|done].
    assert (Hd' : forall x, x ∈ bs -> 0 <= Offset x < 2 ^ 64 /\ 0 <= CBBufferSize x < 2 ^ 32) by (intros; apply Hd; by right).
    repeat case_if; (eapply IH in Hr; [exact Hr|done|unfold inside in *; simpl in *; lia|unfold inside in *; simpl in *; lia]).
Qed.

Lemma copy_into_Ok b lo hi src r :
  copy_into b lo hi src = Ok r -> List.length src = (hi - lo)%nat ->
  (lo <= hi <= List.length b)%nat /\ r = blit b lo src.
Proof.
  unfold copy_into. destruct (Nat.leb_spec lo hi), (Nat.leb_spec hi (List.length b)); cbn [andb]; try done.
  intros Hr%Ok_inj Hl. split; [lia|]. by rewrite Hr, take_ge by lia.
Qed.

(** A slice by its elements. *)
Lemma slice_lookup {A} (b sub : list A) lo :
  (lo + List.length sub <= List.length b)%nat -> (forall i, (i < List.length sub)%nat -> b !! (lo + i)%nat = sub !! i) ->
  slice (Z.of_nat lo) (Z.of_nat lo + zlen sub) b = Some sub.
Proof.
  intros Hl Hi. unfold slice, zlen. rewrite !(proj2 (Z.leb_le _ _)) by lia. cbn [andb]. f_equal.
  rewrite Nat2Z.id. apply list_eq. intros i. destruct (decide (i < List.length sub)%nat) as [Hlt|Hge].
  - rewrite lookup_take_lt, lookup_drop by lia. by apply Hi.
  - rewrite (lookup_ge_None_2 sub) by lia. apply lookup_ge_None_2. rewrite length_take. lia.
Qed.

(** The four writes of [resignPAC]. *)
Definition resigned (blob : bytes) (s k : nat) (sig1 sig2 ssum ksum : bytes) : bytes :=
  blit (blit (blit (blit blob s sig1) k sig2) (s + 4) ssum) (k + 4) ksum.

Lemma resigned_out blob s k sig1 sig2 ssum ksum i :
  let n1 := List.length sig1 in let n2 := List.length sig2 in
  n1 = (4 + List.length ssum)%nat -> n2 = (4 + List.length ksum)%nat ->
  (s + n1 <= List.length blob)%nat -> (k + n2 <= List.length blob)%nat ->
  (i < s \/ s + n1 <= i)%nat -> (i < k \/ k + n2 <= i)%nat -> resigned blob s k sig1 sig2 ssum ksum !! i = blob !! i.
Proof.
  intros n1 n2 H1 H2 Hs Hk Hi Hj. unfold resigned. rewrite !lookup_blit_out; rewrite ?length_blit; rewrite ?length_blit; rewrite ?length_blit; try done; lia.
Qed.

Lemma length_resigned blob s k sig1 sig2 ssum ksum :
  (s + 4 <= List.length blob)%nat -> (k + 4 <= List.length blob)%nat ->
  List.length (resigned blob s k sig1 sig2 ssum ksum) = List.length blob.
Proof. intros. unfold resigned. rewrite !length_blit; rewrite ?length_blit; rewrite ?length_blit; rewrite ?length_blit; lia. Qed.

Lemma resigned_in blob s k id1 z1 id2 z2 ssum ksum :
  List.length id1 = 4%nat -> List.length id2 = 4%nat -> List.length z1 = List.length ssum -> List.length z2 = List.length ksum ->
  (s + 4 + List.length ssum <= List.length blob)%nat -> (k + 4 + List.length ksum <= List.length blob)%nat ->
  (s + 4 + List.length ssum <= k \/ k + 4 + List.length ksum <= s)%nat ->
  let out := resigned blob s k (id1 ++ z1) (id2 ++ z2) ssum ksum in
  slice (Z.of_nat (s + 4)) (Z.of_nat (s + 4) + zlen ssum) out = Some ssum /\
  slice (Z.of_nat k) (Z.of_nat k + zlen id2) out = Some id2 /\
  slice (Z.of_nat (k + 4)) (Z.of_nat (k + 4) + zlen ksum) out = Some ksum.
Proof.
  intros Hid1 Hid2 Hz1 Hz2 Hs Hk Hdis out.
  assert (Hlen : List.length out = List.length blob) by (apply length_resigned; lia).
  assert (L1 : List.length (id1 ++ z1) = (4 + List.length ssum)%nat) by (rewrite length_app; lia).
  assert (L2 : List.length (id2 ++ z2) = (4 + List.length ksum)%nat) by (rewrite length_app; lia).
  assert (B1 : List.length (blit blob s (id1 ++ z1)) = List.length blob) by (apply length_blit; lia).
  assert (B2 : List.length (blit (blit blob s (id1 ++ z1)) k (id2 ++ z2)) = List.length blob) by (rewrite length_blit; lia).
  assert (B3 : List.length (blit (blit (blit blob s (id1 ++ z1)) k (id2 ++ z2)) (s + 4) ssum) = List.length blob) by (rewrite length_blit; lia).
  split_and!; apply slice_lookup; rewrite ?Hlen, ?Hid2; try lia; intros i Hi; unfold out, resigned.
  - rewrite lookup_blit_out by lia. apply lookup_blit_in; lia.
  - rewrite !lookup_blit_out by lia. rewrite lookup_blit_in by lia. rewrite lookup_app_l by lia. done.
  - apply lookup_blit_in; lia.
Qed.

(** [resignPAC] relays the PAC of another realm unchanged: the blob keeps its length and every
    byte outside the two signature buffers; and where those buffers do not overlap each other or the
    header, the result carries a signature this realm accepts as its own. *)
Lemma resignPAC_relays (blob out : bytes) (serverKey kdcKey : Key) :
  zlen blob <= max_int64 -> resignPAC blob serverKey kdcKey = Ok out ->
  exists bufs ss se ks ke,
    PACType_Unmarshal blob = Some bufs /\ find_signatures (zlen blob) bufs (0, 0) (0, 0) = Ok ((ss, se), (ks, ke)) /\
    List.length out = List.length blob /\
    (forall i : nat, ~ (ss <= Z.of_nat i < se) -> ~ (ks <= Z.of_nat i < ke) -> out !! i = blob !! i) /\
    (se <= ks \/ ke <= ss -> PACType_Unmarshal out = Some bufs -> verifyPACKDCSignature out kdcKey = Ok tt).
Proof.
  intros Hmax Hr. unfold resignPAC in Hr. run_inv. destruct x0 as [[ss se] [ks ke]].
  rename x into bufs, H into Hu, H0 into Hf. exists bufs, ss, se, ks, ke. split; [done|]. split; [done|].
  assert (Hz : 0 <= zlen blob <= max_int64) by (unfold zlen in *; lia).
  destruct (find_signatures_inside _ _ _ _ _ Hz (fun d => PACType_Unmarshal_widths _ _ d Hu) Hf) as [[Is1 Is2] [Ik1 Ik2]];
    [unfold inside; simpl; lia..|]. cbn [fst snd] in *.
  destruct ((se - ss <? 4) || (ke - ks <? 4)) eqn:Eb; [done|]. simp_bool. run_inv.
  destruct (negb (zlen x =? se - ss) || negb (zlen x0 =? ke - ks)) eqn:Ez; [done|]. simp_bool. run_inv.
  repeat match goal with H : emptySignature _ = Ok _ |- _ => apply emptySignature_Ok in H as [? ->] end.
  match goal with H : checksum serverKey _ = Ok ?h, H' : checksum kdcKey _ = Ok ?h' |- _ =>
    rename h into ssum, h' into ksum; pose proof (checksum_length _ _ _ H) as Ls; pose proof (checksum_length _ _ _ H') as Lk; rename H' into Hk end.
  unfold zeroed in *. rewrite <- Ls in *. rewrite <- Lk in *.
  set (z1 := replicate (List.length ssum) Byte.x00) in *. set (z2 := replicate (List.length ksum) Byte.x00) in *.
  assert (Lz1 : List.length z1 = List.length ssum) by apply length_replicate.
  assert (Lz2 : List.length z2 = List.length ksum) by apply length_replicate.
  pose proof (length_signature serverKey z1) as Lg1. pose proof (length_signature kdcKey z2) as Lg2.
  unfold zlen in *.
  repeat match goal with H : copy_into _ _ _ _ = Ok _ |- _ => apply copy_into_Ok in H as [? ->]; [|lia] end.
  replace (Z.to_nat (ss + 4)) with (Z.to_nat ss + 4)%nat in * by lia.
  replace (Z.to_nat (ks + 4)) with (Z.to_nat ks + 4)%nat in * by lia.
  fold (resigned blob (Z.to_nat ss) (Z.to_nat ks) (signature serverKey z1) (signature kdcKey z2) ssum ksum).
  set (out := resigned _ _ _ _ _ _ _).
  assert (Lo : List.length out = List.length blob) by (apply length_resigned; lia).
  split; [done|]. split; [intros i Hi Hj; apply resigned_out; lia|]. intros Hdis Huo.
  destruct (resigned_in blob (Z.to_nat ss) (Z.to_nat ks) (put_le 4 (wrap 32 (GetHashID (EType serverKey)))) z1
    (put_le 4 (wrap 32 (GetHashID (EType kdcKey)))) z2 ssum ksum) as (S1 & S2 & S3); rewrite ?length_put_le; try lia; try done.
  fold (signature serverKey z1) (signature kdcKey z2) in S1, S2, S3. fold out in S1, S2, S3.
  apply (verify_at out bufs ss se ks ke ssum ksum); unfold zlen; rewrite ?Lo; try done; try lia.
  - replace (ss + 4) with (Z.of_nat (Z.to_nat ss + 4)) by lia. replace se with (Z.of_nat (Z.to_nat ss + 4) + zlen ssum) by (unfold zlen; lia). done.
  - replace ks with (Z.of_nat (Z.to_nat ks)) by lia. exact S2.
  - replace (ks + 4) with (Z.of_nat (Z.to_nat ks + 4)) by lia. exact S3.
Qed.
End Signed.

(** ** A library to run the definitions on *)

Definition toy_mac (key data : bytes) : bytes := put_le 12 (get_le key + get_le data).

Definition toy_pac : PacLib := {|
  PACType_Unmarshal := pac_header;
  ndr_KerbValidationInfo := fun i => Some (put_le 4 (UserID i) ++ put_le 4 (PrimaryGroupID i) ++ bytes_of_string (us_Value (EffectiveName i)));
  ndr_S4UDelegationInfo := fun d => Some (bytes_of_string (us_Value (S4U2proxyTarget d)));
  GetFileTime := fun t => mkFileTime (wrap 32 t) (wrap 32 (t / 2 ^ 32));
  GetHMACBitLength := fun _ => 96;
  GetHashID := fun e => if e =? 17 then 15 else 16;
  EType_ChecksumHash := fun _ k d _ => Some (toy_mac k d);
  Checksum_ChecksumHash := fun _ k d _ => Some (toy_mac k d);
|}.

Lemma get_le_range n (b : bytes) : (List.length b <= n)%nat -> 0 <= get_le b < 256 ^ Z.of_nat n.
Proof.
  intros Hn. unfold get_le. pose proof (get_be_range (rev b)) as Hr. rewrite length_rev in Hr.
  assert (256 ^ Z.of_nat (List.length b) <= 256 ^ Z.of_nat n) by (apply Z.pow_le_mono_r; lia). lia.
Qed.

Lemma read_descriptors_widths n b bs d :
  read_descriptors n b = Some bs -> d ∈ bs -> 0 <= Offset d < 2 ^ 64 /\ 0 <= CBBufferSize d < 2 ^ 32.
Proof.
  revert b bs. induction n as [|n IH]; intros b bs Hr Hd; cbn [read_descriptors] in Hr; [injection Hr as <-; by apply elem_of_nil in Hd|].
  destruct (List.length b <? 16)%nat; [done|]. destruct (read_descriptors n (drop 16 b)) as [rest|] eqn:E; [|done].
  apply (inj Some) in Hr as <-. apply elem_of_cons in Hd as [->|Hd]; [|by eapply IH].
  cbn [Offset CBBufferSize]. split; [apply (get_le_range 8)|apply (get_le_range 4)]; rewrite length_take; lia.
Qed.

#[export] Instance toy_pac_laws : PacLibLaws toy_enctypes toy_pac.
Proof.
  split.
  - done.
  - intros b bs d. cbn. unfold pac_header. destruct (List.length b <? 8)%nat; [done|]. apply read_descriptors_widths.
  - intros e k d u h [= <-]. unfold toy_mac, zlen. by rewrite length_put_le.
  - done.
  - intros e _. cbn. case_match; lia.
Qed.

Definition sample_subject : pacSubject :=
  mkPacSubject (mkUser 1 "alice" 10000 5000 [] "Alice" "Liddell" "" "" "/home/alice" false [] ∅ [] [] 0 0 "" "" false false)
    (Some (sample_principal 1 "alice" Byte.x01)) (mkSecurityIDs 1500 1600 [1600; 1601]) sample_now.

Definition sample_service_key : Key := mkKey 17 [Byte.x11] "" "".
Definition sample_realm_key : Key := mkKey 18 [Byte.x22] "" "".

Definition sample_pac : outcome PacError bytes :=
  buildPAC (H := toy_enctypes) (H0 := toy_pac) sample_cfg sample_subject sample_service_key sample_realm_key None.

Lemma buildPAC_signed_witness :
  exists blob, sample_pac = Ok blob /\
    verifyPACKDCSignature (H0 := toy_pac) blob sample_realm_key = Ok tt.
Proof.
  pose proof (buildPAC_signed (El := toy_enctypes) (Pl := toy_pac) sample_cfg sample_subject sample_service_key sample_realm_key None) as Hb.
  fold sample_pac in Hb. destruct sample_pac as [blob|e|] eqn:E; [|vm_compute in E; discriminate|contradiction].
  exists blob. split; [reflexivity|]. destruct Hb as (_ & _ & _ & _ & _ & _ & _ & _ & _ & Hv). apply Hv.
  vm_compute in E. injection E as <-. vm_compute. reflexivity.
Defined.

Lemma resignPAC_relays_witness :
  exists blob out, sample_pac = Ok blob /\
    resignPAC (H := toy_enctypes) (H0 := toy_pac) blob (mkKey 18 [Byte.x33] "" "") sample_service_key = Ok out /\
    List.length out = List.length blob.
Proof.
  destruct sample_pac as [blob|e|] eqn:E; [|vm_compute in E; discriminate..].
  destruct (resignPAC (H := toy_enctypes) (H0 := toy_pac) blob (mkKey 18 [Byte.x33] "" "") sample_service_key) as [out|e|] eqn:Er.
  2,3: vm_compute in E; injection E as <-; vm_compute in Er; discriminate.
  exists blob, out. split; [reflexivity|]. split; [exact Er|].
  destruct (resignPAC_relays (El := toy_enctypes) (Pl := toy_pac) blob out (mkKey 18 [Byte.x33] "" "") sample_service_key) as (_ & _ & _ & _ & _ & _ & _ & Hl & _).
  - vm_compute in E. injection E as <-. vm_compute. discriminate.
  - exact Er.
  - exact Hl.
Defined.

(** A PAC whose last buffer is a KDC signature of four bytes, no checksum after its type, passes the
    length test, and the comparison then slices past the end of the array. *)
Lemma verifyPACKDCSignature_short :
  verifyPACKDCSignature (H0 := toy_pac)
    (fst (assemblePAC [mkPacBuffer pacTypeServerChecksum (put_le 4 16 ++ zeroed 12); mkPacBuffer pacTypeKDCChecksum (put_le 4 16)]))
    sample_realm_key = Panic.
Proof. vm_compute. reflexivity. Qed.
