(* ===== verification/Sfu.v ===== *)
(** * Service for user: package [kdc], sfu.go

    PA-FOR-USER, the datum a service sends to ask for a ticket in the name of a user it has
    authenticated by other means, and the checksum that ties it to the service. The checksum is
    computed here, so the hash of [crypto/md5] and the construction of [crypto/hmac] it uses are
    spelled out. *)

From S2P Require Import Prelude Names Keytab Flags Messages.

(** ** MD5 (RFC 1321) *)

Definition md5_K : list Z := [
  0xd76aa478; 0xe8c7b756; 0x242070db; 0xc1bdceee; 0xf57c0faf; 0x4787c62a; 0xa8304613; 0xfd469501;
  0x698098d8; 0x8b44f7af; 0xffff5bb1; 0x895cd7be; 0x6b901122; 0xfd987193; 0xa679438e; 0x49b40821;
  0xf61e2562; 0xc040b340; 0x265e5a51; 0xe9b6c7aa; 0xd62f105d; 0x2441453; 0xd8a1e681; 0xe7d3fbc8;
  0x21e1cde6; 0xc33707d6; 0xf4d50d87; 0x455a14ed; 0xa9e3e905; 0xfcefa3f8; 0x676f02d9; 0x8d2a4c8a;
  0xfffa3942; 0x8771f681; 0x6d9d6122; 0xfde5380c; 0xa4beea44; 0x4bdecfa9; 0xf6bb4b60; 0xbebfbc70;
  0x289b7ec6; 0xeaa127fa; 0xd4ef3085; 0x4881d05; 0xd9d4d039; 0xe6db99e5; 0x1fa27cf8; 0xc4ac5665;
  0xf4292244; 0x432aff97; 0xab9423a7; 0xfc93a039; 0x655b59c3; 0x8f0ccc92; 0xffeff47d; 0x85845dd1;
  0x6fa87e4f; 0xfe2ce6e0; 0xa3014314; 0x4e0811a1; 0xf7537e82; 0xbd3af235; 0x2ad7d2bb; 0xeb86d391].

Definition md5_shifts : list Z :=
  concat (replicate 4 [7; 12; 17; 22]) ++ concat (replicate 4 [5; 9; 14; 20]) ++
  concat (replicate 4 [4; 11; 16; 23]) ++ concat (replicate 4 [6; 10; 15; 21]).

Definition mask32 : Z := 0xFFFFFFFF.
Definition not32 (x : Z) : Z := Z.lxor x mask32.
Definition rotl32 (x n : Z) : Z := Z.lor (Z.land (Z.shiftl x n) mask32) (Z.shiftr x (32 - n)).

Definition md5_round (words : list Z) (abcd : Z * Z * Z * Z) (i : nat) : Z * Z * Z * Z :=
  let '(a, b, c, d) := abcd in
  let '(f, g) :=
    match (i / 16)%nat with
    | 0%nat => (Z.lor (Z.land b c) (Z.land (not32 b) d), i)
    | 1%nat => (Z.lor (Z.land d b) (Z.land (not32 d) c), ((5 * i + 1) mod 16)%nat)
    | 2%nat => (Z.lxor b (Z.lxor c d), ((3 * i + 5) mod 16)%nat)
    | _ => (Z.lxor c (Z.lor b (not32 d)), ((7 * i) mod 16)%nat)
    end in
  let f := wrap 32 (f + a + nth i md5_K 0 + nth g words 0) in
  (d, wrap 32 (b + rotl32 f (nth i md5_shifts 0)), b, c).

Fixpoint le_words (n : nat) (b : bytes) : list Z :=
  match n with O => [] | S n' => get_le (take 4 b) :: le_words n' (drop 4 b) end.

Definition md5_block (st : Z * Z * Z * Z) (block : bytes) : Z * Z * Z * Z :=
  let '(a, b, c, d) := fold_left (md5_round (le_words 16 block)) (seq 0 64) st in
  let '(a0, b0, c0, d0) := st in
  (wrap 32 (a0 + a), wrap 32 (b0 + b), wrap 32 (c0 + c), wrap 32 (d0 + d)).

Definition md5_pad (msg : bytes) : bytes :=
  let n := List.length msg in
  let zeros := ((55 - Z.of_nat n) mod 64) in
  msg ++ [Byte.x80] ++ replicate (Z.to_nat zeros) Byte.x00 ++ put_le 8 (wrap 64 (8 * Z.of_nat n)).

Fixpoint blocks (n : nat) (b : bytes) : list bytes :=
  match n with O => [] | S n' => take 64 b :: blocks n' (drop 64 b) end.

Definition md5 (msg : bytes) : bytes :=
  let p := md5_pad msg in
  let '(a, b, c, d) := fold_left md5_block (blocks (List.length p / 64) p) (0x67452301, 0xefcdab89, 0x98badcfe, 0x10325476) in
  put_le 4 a ++ put_le 4 b ++ put_le 4 c ++ put_le 4 d.

(** HMAC over MD5, whose block is 64 bytes. *)
Definition xor_with (z : Z) (b : bytes) : bytes := (fun x => byte_of_Z (Z.lxor (Z_of_byte x) z)) <$> b.

Definition hmac_md5 (key msg : bytes) : bytes :=
  let key := if (64 <? List.length key)%nat then md5 key else key in
  let key := key ++ replicate (64 - List.length key) Byte.x00 in
  md5 (xor_with 0x5c key ++ md5 (xor_with 0x36 key ++ msg)).

(** ** sfu.go *)

Definition translateUsage (usage : Z) : Z :=
  if (usage =? 3) || (usage =? 9) then 8 else if usage =? 23 then 13 else usage.

Definition hmacMD5Checksum (key : bytes) (usage : Z) (data : bytes) : bytes :=
  let ksign := hmac_md5 key (bytes_of_string "signaturekey" ++ [Byte.x00]) in
  let t := put_le 4 (translateUsage usage) in
  hmac_md5 ksign (md5 (t ++ data)).

Definition checksumData (p : paForUser) : bytes :=
  put_le 4 (wrap 32 (NameType (fu_UserName p))) ++
  concat (bytes_of_string <$> NameString (fu_UserName p)) ++
  bytes_of_string (fu_UserRealm p) ++ bytes_of_string (fu_AuthPackage p).

Definition verify_paForUser `{KrbLib} (p : paForUser) (sessionKey : EncryptionKey) : bool :=
  let data := checksumData p in
  if CksumType (fu_Cksum p) =? KERB_CHECKSUM_HMAC_MD5 then
    bool_decide (hmacMD5Checksum (KeyValue sessionKey) KERB_NON_KERB_CKSUM_SALT data = ck_Checksum (fu_Cksum p))
  else
    GetChecksumEType (CksumType (fu_Cksum p)) &&
    VerifyChecksum (CksumType (fu_Cksum p)) (KeyValue sessionKey) data (ck_Checksum (fu_Cksum p)) KERB_NON_KERB_CKSUM_SALT.

(** The test vectors of RFC 1321 appendix A.5 and RFC 2202 section 2. *)
Definition hex_nibble (n : Z) : ascii := ascii_of_nat (Z.to_nat (if n <? 10 then 48 + n else 87 + n)).
Fixpoint hex_of (b : bytes) : string :=
  match b with
  | [] => EmptyString
  | x :: b' => String (hex_nibble (Z_of_byte x / 16)) (String (hex_nibble (Z_of_byte x mod 16)) (hex_of b'))
  end.

Example md5_abc : hex_of (md5 (bytes_of_string "abc")) = "900150983cd24fb0d6963f7d28e17f72".
Proof. vm_compute. reflexivity. Qed.

Example md5_long :
  hex_of (md5 (bytes_of_string "12345678901234567890123456789012345678901234567890123456789012345678901234567890"))
  = "57edf4a22be3c955ac49da2e2107b67a".
Proof. vm_compute. reflexivity. Qed.

Example hmac_md5_jefe :
  hex_of (hmac_md5 (bytes_of_string "Jefe") (bytes_of_string "what do ya want for nothing?")) = "750c783e6ab0b503eaa86e310a5db738".
Proof. vm_compute. reflexivity. Qed.
