(* ===== verification/Kdc.v ===== *)
(** * The state of the KDC: package [kdc], server.go, errors.go, pac.go

    What the exchanges of the KDC run in: the store, through the interface the KDC uses of it, and
    the replay cache. Every exchange is a computation in [K], which a protocol error ends. *)

From S2P Require Import Prelude Names Keytab Replay Flags Model Messages Ticket Secret Db Principals PrincipalFacts Directory Pac.

(** ** What the KDC uses of the store *)

(** The queries and the one update the KDC makes, over an abstract state [W] of the process, which
    also carries the clock and the random source. *)
Class KdcStore (W : Type) : Type := {
  st_GetPrincipal : W -> Name -> outcome StoreErr Principal;
  st_GetPrincipalKVNO : W -> Name -> Z -> outcome StoreErr Principal;
  st_GetUserByID : W -> Z -> outcome StoreErr User;
  st_UserGIDs : W -> User -> outcome StoreErr (list Z);
  st_SecurityIDsForUser : W -> User -> list Z -> outcome StoreErr (option SecurityIDs);
  st_GetTrust : W -> string -> outcome StoreErr Trust;
  st_ListTrusts : W -> outcome StoreErr (list Trust);
  st_RecordAuthResult : Z -> bool -> LockoutPolicy -> W -> outcome StoreErr unit * W;
  (** [time.Now] *)
  st_Now : W -> Time * W;
  (** the number of the first of [n] draws of the random source *)
  st_Draws : nat -> W -> nat * W;
  (** the last reading of the clock *)
  st_lastTime : W -> Time;
}.

(** What the KDC relies on: the clock does not run backwards, and neither it nor the random source
    is part of what the queries see. *)
Class KdcStoreLaws {W} `(KdcStore W) : Prop := {
  Now_time w : st_lastTime w <= fst (st_Now w) /\ st_lastTime (snd (st_Now w)) = fst (st_Now w);
  Now_GetPrincipal w n : st_GetPrincipal (snd (st_Now w)) n = st_GetPrincipal w n;
  Now_GetPrincipalKVNO w n v : st_GetPrincipalKVNO (snd (st_Now w)) n v = st_GetPrincipalKVNO w n v;
  Now_GetTrust w r : st_GetTrust (snd (st_Now w)) r = st_GetTrust w r;
  Draws_time k w : st_lastTime (snd (st_Draws k w)) = st_lastTime w;
  Record_time i ok p w : st_lastTime w <= st_lastTime (snd (st_RecordAuthResult i ok p w));
}.

(** ** The exchanges *)

Record KDC (W : Type) : Type := mkKDC { k_st : W; k_replay : replayCache }.
Arguments mkKDC {W} _ _.
Arguments k_st {W} _.
Arguments k_replay {W} _.

Section Exchanges.
Context {W : Type} `{KdcStore W}.

Abbreviation K := (M (KDC W) protocolError).

Definition on_store {A} (f : W -> A * W) : K A := fun k =>
  let '(a, w) := f (k_st k) in (Ok a, mkKDC w (k_replay k)).

Definition kdc_now : K Time := on_store st_Now.
Definition kdc_draws (n : nat) : K nat := on_store (st_Draws n).

(** A query, with the answer to a missing row and to any other error. *)
Definition ask {A} (f : W -> outcome StoreErr A) (missing other : protocolError) : K A := fun k =>
  match f (k_st k) with
  | Ok a => (Ok a, k)
  | Err ErrNotFound => (Err missing, k)
  | Err _ => (Err other, k)
  | Panic => (Panic, k)
  end.

(** An error the caller logs and goes on from. *)
Definition record_result (id : Z) (ok : bool) (policy : LockoutPolicy) : K unit := fun k =>
  let '(r, w) := st_RecordAuthResult id ok policy (k_st k) in
  (match r with Panic => Panic | _ => Ok tt end, mkKDC w (k_replay k)).

(** A step of a library that may return an error. *)
Definition try {A} (e : protocolError) (o : option A) : K A := lift (or_err e o).

Definition generic : protocolError := krbErr KRB_ERR_GENERIC.

(** [if perr != nil { return nil, withClient(perr, name) }]. *)
Definition as_client {A} (name : Name) (m : K A) : K A := fun k =>
  match m k with
  | (Err e, k') => (Err (withClient e name), k')
  | r => r
  end.

(** [clientStatusError] and [serverStatusError]. *)
Definition clientStatusError (s : PrincipalStatus) : protocolError :=
  krbErr (match s with PrincipalExpired => KDC_ERR_NAME_EXP | _ => KDC_ERR_CLIENT_REVOKED end).
Definition serverStatusError (s : PrincipalStatus) : protocolError :=
  krbErr (match s with PrincipalExpired => KDC_ERR_SERVICE_EXP | _ => KDC_ERR_S_PRINCIPAL_UNKNOWN end).

Context `{EncTypeLib, KrbLib, PacLib} (cfg : Config).

Definition tgsName : Name := mkName ["krbtgt"; cfg_Realm cfg] (cfg_Realm cfg).

Definition krbtgtKey : K Key :=
  tgt ← ask (fun w => st_GetPrincipal w tgsName) generic generic;
  try (krbErr KDC_ERR_SVC_UNAVAILABLE) (selectKey tgt (cfg_EncTypes cfg) None).

(** A computation of pac.go, its error answered as [e]. *)
Definition of_pac {A} (e : protocolError) (o : outcome PacError A) : K A := lift (
  match o with Ok a => Ok a | Err _ => Err e | Panic => Panic end).

Definition authorizationData (client : Principal) (server : Principal) (authTime : Time)
    (delegation : option S4UDelegationInfo) : K AuthorizationData :=
  match cfg_IssuePAC cfg, p_UserID client with
  | true, Some uid =>
      user ← ask (fun w => st_GetUserByID w uid) generic generic;
      gids ← ask (fun w => st_UserGIDs w user) generic generic;
      ids ← ask (fun w => st_SecurityIDsForUser w user gids) generic generic;
      match ids with
      | None => mret []
      | Some ids =>
          serverKey ← try (krbErr KDC_ERR_SVC_UNAVAILABLE) (selectKey server (cfg_EncTypes cfg) None);
          kdcKey ← krbtgtKey;
          blob ← of_pac generic (buildPAC cfg (mkPacSubject user (Some client) ids authTime) serverKey kdcKey delegation);
          try generic (wrapPAC blob)
      end
  | _, _ => mret []
  end.

(** [mintTicket], with two draws: the session key and the encryption. *)
Definition mint (spec : ticketSpec) : K (Ticket * EncryptionKey) :=
  seed ← kdc_draws 2;
  try generic (mintTicket seed spec).

(** [crypto.GetEncryptedData], with a draw for its confounder. *)
Definition encrypt (plain : bytes) (key : EncryptionKey) (usage kvno : Z) : K EncryptedData :=
  n ← kdc_draws 1;
  try generic (GetEncryptedData n plain key usage kvno).

Definition findPAData (pas : list PAData) (want : Z) : option PAData :=
  List.find (fun p => PADataType p =? want) pas.
End Exchanges.

Abbreviation K W := (M (KDC W) protocolError).

(** ** The store of this repository implements the interface *)

Section Implementation.
Context `{Ck : Clock, Rn : Rand, Ae : AEAD}.

#[export] Instance store_kdc : KdcStore St := {|
  st_GetPrincipal := fun s n => getPrincipal (st_db s) n 0;
  st_GetPrincipalKVNO := fun s n v => getPrincipal (st_db s) n v;
  st_GetUserByID := fun s id => fst (GetUserByID id s);
  st_UserGIDs := fun s u => or_err ErrNoRows (UserGIDs (st_db s) u);
  st_SecurityIDsForUser := fun s u gids => Ok (SecurityIDsForUser (st_db s) u gids);
  st_GetTrust := fun s r => getTrust (st_db s) r;
  st_ListTrusts := fun s => fst (ListTrusts s);
  st_RecordAuthResult := RecordAuthResult;
  st_Now := fun s => (clock (st_tick s), mkSt (st_db s) (S (st_tick s)) (st_draw s) (st_idRange s));
  st_Draws := fun n s => (st_draw s, mkSt (st_db s) (st_tick s) (st_draw s + n) (st_idRange s));
  st_lastTime := fun s => clock (Nat.pred (st_tick s));
|}.

Lemma RecordAuthResult_ticks i ok p s : st_tick (snd (RecordAuthResult i ok p s)) = S (st_tick s).
Proof.
  unfold RecordAuthResult, write, time_now, mbind, M_bind, query_outcome, update_kt, update.
  destruct ok; [done|]. cbn. by destruct (List.find _ _).
Qed.

#[export] Instance store_kdc_laws `{!MonotoneClock Ck} : KdcStoreLaws store_kdc.
Proof.
  split; try done.
  - intros s. cbn. split; [apply clock_monotone; lia|done].
  - intros i ok p s. cbn [st_lastTime store_kdc st_RecordAuthResult]. rewrite RecordAuthResult_ticks. apply clock_monotone. lia.
Qed.
End Implementation.
