(* ===== verification/As.v ===== *)
(** * The AS exchange: package [kdc], as.go

    A client proves that it knows its long-term key and gets a ticket, normally the ticket-granting
    ticket of the realm. *)

From S2P Require Import Prelude Text Names Keytab Flags Model Messages Ticket Db Directory Pac Kdc.

(** [hex.DecodeString]. *)
Fixpoint hex_DecodeString (s : string) : option bytes :=
  match s with
  | EmptyString => Some []
  | String a (String b s') =>
      x ← hex_digit a; y ← hex_digit b; rest ← hex_DecodeString s';
      Some (byte_of_Z (x * 16 + y) :: rest)
  | _ => None
  end.

Section AS.
Context {W : Type} `{KdcStore W, KrbFlags, EncTypeLib, KrbLib, PacLib} (cfg : Config).

Definition entry_of (k : Key) : option ETypeInfo2Entry :=
  if (0 <? String.length (S2KParams k))%nat then
    raw ← hex_DecodeString (S2KParams k); Some (mkETypeInfo2Entry (EType k) (Salt k) raw)
  else Some (mkETypeInfo2Entry (EType k) (Salt k) []).

(** The loop of [etypeInfo2PAData] over the enctypes of the realm. *)
Fixpoint info_entries (client : Principal) (offered : option (list Z)) (etypes : list Z) : option (list ETypeInfo2Entry) :=
  match etypes with
  | [] => Some []
  | want :: etypes' =>
      if match offered with Some l => negb (contains_Z want l) | None => false end
      then info_entries client offered etypes'
      else match KeyFor client want with
           | None => info_entries client offered etypes'
           | Some k =>
               entry ← entry_of k; rest ← info_entries client offered etypes'; Some (entry :: rest)
           end
  end.

Definition etypeInfo2PAData (client : Principal) (offered : option (list Z)) : option (list PAData) :=
  entries ← info_entries client offered (cfg_EncTypes cfg);
  match entries with
  | [] => Some []
  | _ => b ← Marshal_ETypeInfo2 entries; Some [mkPAData PA_ETYPE_INFO2 b]
  end.

Definition preAuthHint (client : Principal) (offered : option (list Z)) : option bytes :=
  info ← etypeInfo2PAData client offered;
  Marshal_MethodData (mkPAData PA_ENC_TIMESTAMP [] :: info).

(** The hint an error carries, as [EData]. *)
Definition hinted {A} (code : errorcode) (client : Principal) (clientName : Name) (body : KDCReqBody) : K W A :=
  edata ← try generic (preAuthHint client (bd_EType body));
  throw (mkProtocolError code edata (Some clientName)).

Definition recordFailure (client : Principal) : K W unit := record_result (p_ID client) false (cfg_Lockout cfg).

Definition failed {A} (client : Principal) (clientName : Name) : K W A :=
  _ ← recordFailure client;
  throw (withClient (krbErr KDC_ERR_PREAUTH_FAILED) clientName).

Definition checkPreAuth (req : KDCReq) (client : Principal) (clientName : Name) (body : KDCReqBody) (now : Time) : K W bool :=
  let required := cfg_RequirePreAuth cfg || p_RequiresPreAuth client in
  match findPAData (rq_PAData req) PA_ENC_TIMESTAMP with
  | None => if negb required then mret false else hinted KDC_ERR_PREAUTH_REQUIRED client clientName body
  | Some pa =>
      ts ← try (withClient (krbErr KDC_ERR_PREAUTH_FAILED) clientName) (Unmarshal_PAEncTimestamp (PADataValue pa));
      match KeyFor client (ed_EType ts) with
      | None => hinted KDC_ERR_PREAUTH_FAILED client clientName body
      | Some key =>
          match DecryptEncPart ts (EncryptionKey_of key) AS_REQ_PA_ENC_TIMESTAMP with
          | None => failed client clientName
          | Some plain =>
              match Unmarshal_PAEncTSEnc plain with
              | None => failed client clientName
              | Some paTimestamp =>
                  _ ← throw_if (skewed now paTimestamp (cfg_ClockSkew cfg)) (withClient (krbErr KRB_AP_ERR_SKEW) clientName);
                  mret true
              end
          end
      end
  end.

(** The part of the exchange after the client is authenticated: policy, the ticket, the reply. *)
Definition issueAS (body : KDCReqBody) (client server : Principal) (clientName serverName : Name)
    (sessionEType : Z) (replyKey : Key) (preAuthDone : bool) (now : Time) : K W bytes :=
  times ← as_client clientName (lift (computeTimes cfg body client server now));
  let tktFlags := ticketFlags body client server times true preAuthDone in
  authzData ← as_client clientName (authorizationData cfg client server (tt_AuthTime times) None);
  serverKey ← try (withClient (krbErr KDC_ERR_SVC_UNAVAILABLE) clientName) (selectKey server (cfg_EncTypes cfg) None);
  '(tkt, sessionKey) ← mint (mkTicketSpec clientName serverName serverKey (p_KVNO server) sessionEType tktFlags
      (tt_AuthTime times) (tt_StartTime times) (tt_EndTime times) (tt_RenewTill times) (Addresses body) authzData
      (mkTransitedEncoding 0 []));
  let encPart := mkEncKDCRepPart sessionKey [mkLastReq 0 now] (Nonce body)
      (default zeroTime (p_PasswordExpiresAt client)) tktFlags (tt_AuthTime times) (tt_StartTime times)
      (tt_EndTime times) (tt_RenewTill times) (Realm serverName) (PrincipalName_of serverName) (Addresses body) in
  encBytes ← try generic (marshalEncKDCRepPart encPart tag_EncASRepPart);
  encData ← encrypt encBytes (EncryptionKey_of replyKey) AS_REP_ENCPART (p_KVNO client);
  paData ← try generic (etypeInfo2PAData client (bd_EType body));
  try generic (Marshal_ASRep (mkKDCRep PVNO KRB_AS_REP paData (Realm clientName) (PrincipalName_of clientName) tkt encData)).

Definition handleASReq (raw : bytes) : K W bytes :=
  req ← try generic (Unmarshal_ASReq raw);
  let body := ReqBody req in
  now ← kdc_now;
  _ ← throw_if (negb (EqualFold (bd_Realm body) (cfg_Realm cfg))) (krbErr KDC_ERR_WRONG_REALM);
  _ ← throw_if (List.length (NameString (bd_CName body)) =? 0)%nat (krbErr KDC_ERR_C_PRINCIPAL_UNKNOWN);
  let clientName := NameFromPrincipalName (bd_CName body) (cfg_Realm cfg) in
  let serverName := if (0 <? List.length (NameString (bd_SName body)))%nat
                    then NameFromPrincipalName (bd_SName body) (cfg_Realm cfg) else tgsName cfg in
  client ← ask (fun w => st_GetPrincipal w clientName)
             (withClient (krbErr KDC_ERR_C_PRINCIPAL_UNKNOWN) clientName) generic;
  server ← ask (fun w => st_GetPrincipal w serverName)
             (withClient (krbErr KDC_ERR_S_PRINCIPAL_UNKNOWN) clientName) generic;
  '(clientName, serverName) ← lift (if has (KDCOptions body) Canonicalize
     then c ← KrbName client; s ← KrbName server; Ok (c, s)
     else Ok (clientName, serverName));
  _ ← throw_if (negb (bool_decide (Status client now = PrincipalOK)))
        (withClient (clientStatusError (Status client now)) clientName);
  _ ← throw_if (negb (bool_decide (Status server now = PrincipalOK)))
        (withClient (serverStatusError (Status server now)) clientName);
  _ ← throw_if (PasswordExpired client now && negb (IsChangePW serverName))
        (withClient (krbErr KDC_ERR_KEY_EXPIRED) clientName);
  sessionEType ← try (withClient (krbErr KDC_ERR_ETYPE_NOSUPP) clientName) (selectSessionEType cfg (bd_EType body));
  replyKey ← try (withClient (krbErr KDC_ERR_ETYPE_NOSUPP) clientName) (selectKey client (cfg_EncTypes cfg) (bd_EType body));
  preAuthDone ← checkPreAuth req client clientName body now;
  _ ← (if preAuthDone then record_result (p_ID client) true (cfg_Lockout cfg) else mret tt);
  issueAS body client server clientName serverName sessionEType replyKey preAuthDone now.
End AS.
