(* ===== verification/Tgs.v ===== *)
(** * The TGS exchange: package [kdc], tgs.go

    A client presents a ticket-granting ticket and gets a further ticket: for a service of the
    realm, for the ticket-granting service of a trusted realm, in another user's name (S4U2Self,
    S4U2Proxy), or the same ticket renewed or validated. *)

From S2P Require Import Prelude Names Keytab Replay Flags Model Messages Ticket Db Directory Pac Sfu Kdc.

(** [tgsAuth]. *)
Record tgsAuth : Type := mkTgsAuth {
  ta_APReq : APReq;
  ta_TGT : EncTicketPart;
  ta_TicketServer : Name;
  ta_Client : Name;
  ta_SessionKey : EncryptionKey;
  ta_ReplyKey : EncryptionKey;
  ta_ReplyUsage : Z;
  ta_CrossRealm : bool;
}.

(** [forwardability]: who decides whether a ticket is forwardable. *)
Inductive forwardability : Type :=
| forwardableAsRequested | forwardableAlways | forwardableUnlessBarred | forwardableNever.

(** [issueSpec]; the address a request came from and the label for metrics are left out. *)
Record issueSpec : Type := mkIssueSpec {
  is_Auth : tgsAuth;
  is_Body : KDCReqBody;
  is_Client : Name;
  is_Target : Name;
  is_Now : Time;
  is_SourceTGT : option EncTicketPart;
  is_Forwardable : forwardability;
  is_Delegation : option S4UDelegationInfo;
}.

(** [finishSpec]. *)
Record finishSpec : Type := mkFinishSpec {
  fs_Auth : tgsAuth;
  fs_Body : KDCReqBody;
  fs_Client : Name;
  fs_Target : Name;
  fs_Server : Principal;
  fs_Flags : BitString;
  fs_AuthTime : Time;
  fs_StartTime : Time;
  fs_EndTime : Time;
  fs_RenewTill : Time;
  fs_Transited : TransitedEncoding;
  fs_AuthzData : AuthorizationData;
  fs_ReuseAuthz : bool;
  fs_Delegation : option S4UDelegationInfo;
  fs_Now : Time;
}.

(** ** The pure parts *)

Definition authTimeFor (spec : issueSpec) : Time :=
  match is_SourceTGT spec with
  | Some t => if negb (IsZero (et_AuthTime t)) then et_AuthTime t else is_Now spec
  | None => is_Now spec
  end.

Definition ticketWasPreAuthenticated `{KrbFlags} (t : option EncTicketPart) : bool :=
  match t with Some t => has (et_Flags t) PreAuthent | None => false end.

(** An entry of a delegation or impersonation list against a name. *)
Definition entry_matches (n : Name) (a : string) : bool :=
  EqualFold a (String_of n) || (negb (contains_char at_sign a) && EqualFold a (Principal_of n)).

Definition delegationAllowed (allowed : list string) (target : Name) : bool :=
  existsb (entry_matches target) allowed.

Definition impersonationAllowed (requester : Principal) (subject : Name) : outcome protocolError unit :=
  if (List.length (p_AllowedToImpersonate requester) =? 0)%nat then Ok tt
  else if existsb (entry_matches subject) (p_AllowedToImpersonate requester) then Ok tt
  else Err (krbErr KDC_ERR_BADOPTION).

Definition appendTransited (t : TransitedEncoding) (realm : string) : TransitedEncoding :=
  let existing := string_of_bytes (Contents t) in
  if existsb (fun r => EqualFold (TrimSpace r) realm) (split_char ","%char existing) then t
  else
    let existing := if (String.length existing =? 0)%nat then realm else existing +:+ "," +:+ realm in
    mkTransitedEncoding 1 (bytes_of_string existing).

(** One round of the loop of [realmForHostBasedName]. *)
Definition better_realm (host : string) (best : string) (t : Trust) : string :=
  let domain := ToLower (t_RemoteRealm t) in
  if negb (Allows t TrustOutbound) then best
  else if negb (String.eqb host domain) && negb (HasSuffix host ("." +:+ domain)) then best
  else if (String.length best <? String.length domain)%nat then t_RemoteRealm t else best.

(** The FORWARDABLE flag where the request may not decide it. *)
Definition decide_forwardable `{KrbFlags} (f : forwardability) (client : Principal) (b : BitString) : BitString :=
  match f with
  | forwardableAsRequested => b
  | forwardableAlways => set Forwardable b
  | forwardableUnlessBarred => if p_AllowForwardable client then set Forwardable b else unset Forwardable b
  | forwardableNever => unset Forwardable b
  end.

(** The stand-in [loadPolicyPrincipal] returns for a client of another realm. *)
Definition foreign_principal (name : Name) : Principal := {|
  p_ID := 0; p_Name := Principal_of name; p_Realm := Realm name; p_UserID := None; p_UserName := "";
  p_KVNO := 0; p_Enabled := true; p_RequiresPreAuth := false; p_AllowForwardable := true;
  p_AllowProxiable := true; p_AllowRenewable := true; p_AllowPostdate := false; p_OKAsDelegate := false;
  p_OKToAuthAsDelegate := false; p_AllowedToDelegateTo := []; p_Aliases := [];
  p_AllowedToImpersonate := []; p_MaxTicketLife := 0; p_MaxRenewableLife := 0;
  p_PasswordLastSet := None; p_PasswordExpiresAt := None; p_ExpiresAt := None; p_LockedUntil := None;
  p_FailCount := 0; p_LastSuccess := None; p_LastFailure := None; p_CreatedAt := zeroTime;
  p_UpdatedAt := zeroTime; p_Keys := [] |}.

Section TGS.
Context {W : Type} `{KdcStore W, KrbFlags, EncTypeLib, KrbLib, PacLib, Sha256} (cfg : Config).

Definition err_for {A} (code : errorcode) (name : Name) : K W A := throw (withClient (krbErr code) name).
Definition deny_if (b : bool) (code : errorcode) (name : Name) : K W unit := throw_if b (withClient (krbErr code) name).

(** ** Authentication *)

Definition checkTicketValidity (tkt : EncTicketPart) (now : Time) (client : Name) (allowInvalid : bool) : outcome protocolError unit :=
  let deny code := Err (withClient (krbErr code) client) in
  if negb (IsZero (et_StartTime tkt)) && Before (now + cfg_ClockSkew cfg) (et_StartTime tkt) then deny KRB_AP_ERR_TKT_NYV
  else if negb (IsZero (et_EndTime tkt)) && After (now - cfg_ClockSkew cfg) (et_EndTime tkt) then deny KRB_AP_ERR_TKT_EXPIRED
  else if negb allowInvalid && has (et_Flags tkt) Invalid then deny KRB_AP_ERR_TKT_NYV
  else Ok tt.

Definition verifyBodyChecksum (raw : bytes) (authn : Authenticator) (sessionKey : EncryptionKey) (client : Name) :
    outcome protocolError unit :=
  let deny code := Err (withClient (krbErr code) client) in
  let sum := au_Cksum authn in
  if (CksumType sum =? 0) || (List.length (ck_Checksum sum) =? 0)%nat then deny KRB_AP_ERR_INAPP_CKSUM
  else match Unmarshal_ReqBody raw with
       | None => deny KRB_ERR_GENERIC
       | Some bodyBytes =>
           if negb (GetChecksumEType (CksumType sum)) then deny KDC_ERR_SUMTYPE_NOSUPP
           else if negb (VerifyChecksum (CksumType sum) (KeyValue sessionKey) bodyBytes (ck_Checksum sum)
                           TGS_REQ_PA_TGS_REQ_AP_REQ_AUTHENTICATOR_CHKSUM)
           then deny KRB_AP_ERR_MODIFIED
           else Ok tt
       end.

(** [s.replay.seen], which reads the clock itself. The window of the cache is twice the skew. *)
Definition seen_before (a : authenticator) : K W bool := fun k =>
  let '(now, w) := st_Now (k_st k) in
  let '(dup, c) := seen (2 * cfg_ClockSkew cfg) now a (k_replay k) in
  (Ok dup, mkKDC w c).

Definition authenticateTGS (req : KDCReq) (raw : bytes) (now : Time) (allowInvalid : bool) : K W tgsAuth :=
  pa ← try (krbErr KDC_ERR_PADATA_TYPE_NOSUPP) (findPAData (rq_PAData req) PA_TGS_REQ);
  apReq ← try (krbErr KDC_ERR_PADATA_TYPE_NOSUPP) (Unmarshal_APReq (PADataValue pa));
  let tkt := ap_Ticket apReq in
  let ticketServer := NameFromPrincipalName (tkt_SName tkt) (tkt_Realm tkt) in
  _ ← throw_if (negb (IsTGS ticketServer)) (krbErr KDC_ERR_POLICY);
  let crossRealm := negb (EqualFold (Realm ticketServer) (cfg_Realm cfg)) in
  tgtPrincipal ← ask (fun w => st_GetPrincipalKVNO w ticketServer (ed_KVNO (tkt_EncPart tkt)))
                   (krbErr KDC_ERR_S_PRINCIPAL_UNKNOWN) generic;
  tgtKey ← try (krbErr KDC_ERR_ETYPE_NOSUPP) (KeyFor tgtPrincipal (ed_EType (tkt_EncPart tkt)));
  tgt ← try (krbErr KRB_AP_ERR_BAD_INTEGRITY) (Ticket_Decrypt tkt (EncryptionKey_of tgtKey));
  let client := NameFromPrincipalName (et_CName tgt) (et_CRealm tgt) in
  authn ← try (withClient (krbErr KRB_AP_ERR_BAD_INTEGRITY) client)
            (DecryptEncPart (EncryptedAuthenticator apReq) (et_Key tgt) TGS_REQ_PA_TGS_REQ_AP_REQ_AUTHENTICATOR
             ≫= Unmarshal_Authenticator);
  _ ← deny_if (negb (EqualFold (au_CRealm authn) (et_CRealm tgt)) || negb (PrincipalName_Equal (au_CName authn) (et_CName tgt)))
        KRB_AP_ERR_BADMATCH client;
  _ ← deny_if (skewed now (au_CTime authn) (cfg_ClockSkew cfg)) KRB_AP_ERR_SKEW client;
  dup ← seen_before (mkAuthenticator (au_CRealm authn) (Principal_of client) (au_CTime authn) (au_Cusec authn)
                       (sha256 (ed_Cipher (tkt_EncPart tkt))));
  _ ← deny_if dup KRB_AP_ERR_REPEAT client;
  _ ← lift (checkTicketValidity tgt now client allowInvalid);
  _ ← lift (verifyBodyChecksum raw authn (et_Key tgt) client);
  let sub := au_SubKey authn in
  let '(replyKey, replyUsage) :=
    if negb (KeyType sub =? 0) && (0 <? List.length (KeyValue sub))%nat
    then (sub, TGS_REP_ENCPART_AUTHENTICATOR_SUB_KEY) else (et_Key tgt, TGS_REP_ENCPART_SESSION_KEY) in
  mret (mkTgsAuth apReq tgt ticketServer client (et_Key tgt) replyKey replyUsage crossRealm).

(** ** Principals and trusts *)

(** [loadTarget]; the hint it logs for an unknown service is left out. *)
Definition loadTarget (target requester : Name) : K W Principal :=
  server ← ask (fun w => st_GetPrincipal w target) (withClient (krbErr KDC_ERR_S_PRINCIPAL_UNKNOWN) requester) generic;
  now ← kdc_now;
  _ ← throw_if (negb (bool_decide (Status server now = PrincipalOK))) (withClient (serverStatusError (Status server now)) requester);
  mret server.

Definition loadPolicyPrincipal (name : Name) : K W Principal :=
  if negb (EqualFold (Realm name) (cfg_Realm cfg)) then mret (foreign_principal name)
  else
    p ← ask (fun w => st_GetPrincipal w name) (withClient (krbErr KDC_ERR_C_PRINCIPAL_UNKNOWN) name) generic;
    now ← kdc_now;
    _ ← throw_if (negb (bool_decide (Status p now = PrincipalOK))) (withClient (clientStatusError (Status p now)) name);
    mret p.

Definition checkOutboundTrust (remote : string) : K W unit :=
  let remote := ToUpper remote in
  trust ← ask (fun w => st_GetTrust w remote) (krbErr KDC_ERR_S_PRINCIPAL_UNKNOWN) generic;
  throw_if (negb (Allows trust TrustOutbound)) (krbErr KDC_ERR_PATH_NOT_ACCEPTED).

Definition referralName (remote : string) : K W Name :=
  let remote := ToUpper remote in
  _ ← checkOutboundTrust remote;
  mret (mkName ["krbtgt"; remote] (cfg_Realm cfg)).

(** [realmForHostBasedName]: an error of the store is logged and means no realm. *)
Definition realmForHostBasedName (target : Name) : K W (option string) := fun k =>
  if (List.length (Components target) <? 2)%nat then (Ok None, k)
  else match st_GetPrincipal (k_st k) target with
       | Err ErrNotFound =>
           let host := ToLower (List.last (Components target) EmptyString) in
           match st_ListTrusts (k_st k) with
           | Ok trusts =>
               let best := fold_left (better_realm host) trusts EmptyString in
               (Ok (if (0 <? String.length best)%nat then Some best else None), k)
           | Err _ => (Ok None, k)
           | Panic => (Panic, k)
           end
       | Panic => (Panic, k)
       | _ => (Ok None, k)
       end.

Definition transitedFor (spec : issueSpec) : K W TransitedEncoding :=
  match is_SourceTGT spec with
  | None => mret (mkTransitedEncoding 0 [])
  | Some source =>
      let transited := et_Transited source in
      if negb (ta_CrossRealm (is_Auth spec)) then mret transited
      else
        let issuing := ToUpper (Realm (ta_TicketServer (is_Auth spec))) in
        let clientRealm := ToUpper (Realm (is_Client spec)) in
        trust ← ask (fun w => st_GetTrust w issuing) (krbErr KDC_ERR_PATH_NOT_ACCEPTED) generic;
        _ ← throw_if (negb (Allows trust TrustInbound)) (krbErr KDC_ERR_PATH_NOT_ACCEPTED);
        _ ← throw_if ((0 <? List.length (Contents transited))%nat && negb (t_Transitive trust)) (krbErr KDC_ERR_PATH_NOT_ACCEPTED);
        mret (if negb (String.eqb issuing clientRealm) && negb (String.eqb issuing (ToUpper (cfg_Realm cfg)))
              then appendTransited transited issuing else transited)
  end.

(** ** Issuing *)

Definition tgsAuthorizationData (spec : finishSpec) : K W AuthorizationData :=
  if negb (cfg_IssuePAC cfg) then mret []
  else if EqualFold (Realm (fs_Client spec)) (cfg_Realm cfg) then
    client ← ask (fun w => st_GetPrincipal w (fs_Client spec))
               (withClient (krbErr KDC_ERR_C_PRINCIPAL_UNKNOWN) (ta_Client (fs_Auth spec))) generic;
    authorizationData cfg client (fs_Server spec) (fs_AuthTime spec) (fs_Delegation spec)
  else
    match extractPAC (et_AuthorizationData (ta_TGT (fs_Auth spec))) with
    | Some (Some blob) =>
        kdcKey ← krbtgtKey cfg;
        serverKey ← try (withClient (krbErr KDC_ERR_SVC_UNAVAILABLE) (ta_Client (fs_Auth spec)))
                      (selectKey (fs_Server spec) (cfg_EncTypes cfg) None);
        match resignPAC blob serverKey kdcKey with
        | Ok resigned => try generic (wrapPAC resigned)
        | Err _ => mret []
        | Panic => lift Panic
        end
    | _ => mret []
    end.

Definition finishTicket (spec : finishSpec) : K W bytes :=
  let auth := fs_Auth spec in
  let body := fs_Body spec in
  sessionEType ← try (withClient (krbErr KDC_ERR_ETYPE_NOSUPP) (ta_Client auth)) (selectSessionEType cfg (bd_EType body));
  serverKey ← try (withClient (krbErr KDC_ERR_SVC_UNAVAILABLE) (ta_Client auth)) (selectKey (fs_Server spec) (cfg_EncTypes cfg) None);
  authzData ← (if fs_ReuseAuthz spec then mret (fs_AuthzData spec) else tgsAuthorizationData spec);
  '(tkt, sessionKey) ← mint (mkTicketSpec (fs_Client spec) (fs_Target spec) serverKey (p_KVNO (fs_Server spec)) sessionEType
      (fs_Flags spec) (fs_AuthTime spec) (fs_StartTime spec) (fs_EndTime spec) (fs_RenewTill spec) (Addresses body) authzData
      (fs_Transited spec));
  let encPart := mkEncKDCRepPart sessionKey [mkLastReq 0 (fs_Now spec)] (Nonce body) zeroTime (fs_Flags spec) (fs_AuthTime spec)
      (fs_StartTime spec) (fs_EndTime spec) (fs_RenewTill spec) (Realm (fs_Target spec)) (PrincipalName_of (fs_Target spec))
      (Addresses body) in
  encBytes ← try generic (marshalEncKDCRepPart encPart tag_EncTGSRepPart);
  encData ← encrypt encBytes (ta_ReplyKey auth) (ta_ReplyUsage auth) 0;
  try generic (Marshal_TGSRep (mkKDCRep PVNO KRB_TGS_REP [] (Realm (fs_Client spec)) (PrincipalName_of (fs_Client spec)) tkt encData)).

(** [times.EndTime] clamped to the ticket it is derived from. *)
Definition clamp_end (source : option EncTicketPart) (end_ : Time) : Time :=
  match source with
  | Some t => if negb (IsZero (et_EndTime t)) && After end_ (et_EndTime t) then et_EndTime t else end_
  | None => end_
  end.

Definition with_target (target : Name) (spec : issueSpec) : issueSpec :=
  mkIssueSpec (is_Auth spec) (is_Body spec) (is_Client spec) target (is_Now spec) (is_SourceTGT spec)
    (is_Forwardable spec) (is_Delegation spec).

Definition issueTicket (spec : issueSpec) : K W bytes :=
  server ← loadTarget (is_Target spec) (ta_Client (is_Auth spec));
  spec ← (if has (KDCOptions (is_Body spec)) Canonicalize
          then n ← lift (KrbName server); mret (with_target n spec) else mret spec);
  client ← loadPolicyPrincipal (is_Client spec);
  times ← as_client (ta_Client (is_Auth spec)) (lift (computeTimes cfg (is_Body spec) client server (is_Now spec)));
  let end_ := clamp_end (is_SourceTGT spec) (tt_EndTime times) in
  let tktFlags := ticketFlags (is_Body spec) client server times false (ticketWasPreAuthenticated (is_SourceTGT spec)) in
  let tktFlags := decide_forwardable (is_Forwardable spec) client tktFlags in
  transited ← transitedFor spec;
  finishTicket (mkFinishSpec (is_Auth spec) (is_Body spec) (is_Client spec) (is_Target spec) server tktFlags
    (authTimeFor spec) (tt_StartTime times) end_ (tt_RenewTill times) transited [] false (is_Delegation spec) (is_Now spec)).

(** ** The kinds of request *)

Definition serviceTicket (auth : tgsAuth) (body : KDCReqBody) (target : Name) (now : Time) : K W bytes :=
  let remote_tgs := match Components target with
                    | [_; c1] => if IsTGS target && negb (EqualFold c1 (cfg_Realm cfg)) then Some c1 else None
                    | _ => None
                    end in
  target ← match remote_tgs with
    | Some c1 =>
        _ ← as_client (ta_Client auth) (checkOutboundTrust c1);
        mret (mkName (Components target) (cfg_Realm cfg))
    | None =>
        if negb (EqualFold (Realm target) (cfg_Realm cfg)) then as_client (ta_Client auth) (referralName (Realm target))
        else
          remote ← realmForHostBasedName target;
          match remote with
          | Some r => as_client (ta_Client auth) (referralName r)
          | None => mret target
          end
    end;
  issueTicket (mkIssueSpec auth body (ta_Client auth) target now (Some (ta_TGT auth)) forwardableAsRequested None).

Definition s4u2Self (auth : tgsAuth) (pa : PAData) (body : KDCReqBody) (target : Name) (now : Time) : K W bytes :=
  _ ← deny_if (negb (cfg_AllowS4U cfg)) KDC_ERR_BADOPTION (ta_Client auth);
  pfu ← try (withClient (krbErr KDC_ERR_PADATA_TYPE_NOSUPP) (ta_Client auth)) (Unmarshal_paForUser (PADataValue pa));
  _ ← deny_if (negb (verify_paForUser pfu (ta_SessionKey auth))) KRB_AP_ERR_MODIFIED (ta_Client auth);
  _ ← deny_if (negb (Equal target (ta_Client auth))) KDC_ERR_BADOPTION (ta_Client auth);
  let unknown := withClient (krbErr KDC_ERR_C_PRINCIPAL_UNKNOWN) (ta_Client auth) in
  requester ← ask (fun w => st_GetPrincipal w (ta_Client auth)) unknown unknown;
  let subject := NameFromPrincipalName (fu_UserName pfu) (fu_UserRealm pfu) in
  _ ← deny_if (negb (EqualFold (Realm subject) (cfg_Realm cfg))) KDC_ERR_POLICY (ta_Client auth);
  _ ← as_client (ta_Client auth) (lift (impersonationAllowed requester subject));
  let forwardable := if p_OKToAuthAsDelegate requester then forwardableUnlessBarred else forwardableNever in
  issueTicket (mkIssueSpec auth body subject target now None forwardable None).

(** The check of the authorization data of an evidence ticket. *)
Definition check_evidence_pac (ad : AuthorizationData) (client : Name) : K W unit :=
  if negb (cfg_IssuePAC cfg) then mret tt
  else match extractPAC ad with
       | None => err_for KDC_ERR_BADOPTION client
       | Some None => mret tt
       | Some (Some blob) =>
           kdcKey ← krbtgtKey cfg;
           of_pac (withClient (krbErr KRB_AP_ERR_MODIFIED) client) (verifyPACKDCSignature blob kdcKey)
       end.

Definition s4u2Proxy (auth : tgsAuth) (body : KDCReqBody) (target : Name) (now : Time) : K W bytes :=
  _ ← deny_if (negb (cfg_AllowS4U cfg)) KDC_ERR_BADOPTION (ta_Client auth);
  evidence ← try (withClient (krbErr KDC_ERR_BADOPTION) (ta_Client auth)) (head (AdditionalTickets body));
  let unknown code := withClient (krbErr code) (ta_Client auth) in
  requester ← ask (fun w => st_GetPrincipal w (ta_Client auth)) (unknown KDC_ERR_C_PRINCIPAL_UNKNOWN) (unknown KDC_ERR_C_PRINCIPAL_UNKNOWN);
  _ ← deny_if (negb (delegationAllowed (p_AllowedToDelegateTo requester) target)) KDC_ERR_BADOPTION (ta_Client auth);
  let evidenceServer := NameFromPrincipalName (tkt_SName evidence) (tkt_Realm evidence) in
  _ ← deny_if (negb (Equal evidenceServer (ta_Client auth))) KDC_ERR_BADOPTION (ta_Client auth);
  evidencePrincipal ← ask (fun w => st_GetPrincipalKVNO w evidenceServer (ed_KVNO (tkt_EncPart evidence)))
                        (unknown KDC_ERR_S_PRINCIPAL_UNKNOWN) (unknown KDC_ERR_S_PRINCIPAL_UNKNOWN);
  evidenceKey ← try (unknown KDC_ERR_ETYPE_NOSUPP) (KeyFor evidencePrincipal (ed_EType (tkt_EncPart evidence)));
  inner ← try (unknown KRB_AP_ERR_BAD_INTEGRITY) (Ticket_Decrypt evidence (EncryptionKey_of evidenceKey));
  _ ← deny_if (negb (has (et_Flags inner) Forwardable)) KDC_ERR_BADOPTION (ta_Client auth);
  _ ← lift (checkTicketValidity inner now (ta_Client auth) false);
  _ ← check_evidence_pac (et_AuthorizationData inner) (ta_Client auth);
  let subject := NameFromPrincipalName (et_CName inner) (et_CRealm inner) in
  _ ← as_client (ta_Client auth) (lift (impersonationAllowed requester subject));
  issueTicket (mkIssueSpec auth body subject target now (Some inner) forwardableAlways
    (Some (mkS4UDelegationInfo (unicodeString (String_of target)) 1 [unicodeString (String_of (ta_Client auth))]))).

Definition renewTicket (auth : tgsAuth) (body : KDCReqBody) (target : Name) (now : Time) : K W bytes :=
  let tgt := ta_TGT auth in
  _ ← deny_if (negb (has (et_Flags tgt) Renewable)) KDC_ERR_BADOPTION (ta_Client auth);
  _ ← deny_if (IsZero (et_RenewTill tgt) || negb (Before now (et_RenewTill tgt))) KRB_AP_ERR_TKT_EXPIRED (ta_Client auth);
  _ ← deny_if (negb (Equal target (ta_TicketServer auth))) KDC_ERR_BADOPTION (ta_Client auth);
  server ← loadTarget target (ta_Client auth);
  client ← loadPolicyPrincipal (ta_Client auth);
  let end_ := now + effectiveLife (p_MaxTicketLife client) (p_MaxTicketLife server) (cfg_MaxTicketLife cfg) in
  let end_ := if After end_ (et_RenewTill tgt) then et_RenewTill tgt else end_ in
  let newFlags := unset Initial (copyFlags (et_Flags tgt)) in
  finishTicket (mkFinishSpec auth body (ta_Client auth) target server newFlags (et_AuthTime tgt) now end_ (et_RenewTill tgt)
    (et_Transited tgt) (et_AuthorizationData tgt) true None now).

Definition validateTicket (auth : tgsAuth) (body : KDCReqBody) (target : Name) (now : Time) : K W bytes :=
  let tgt := ta_TGT auth in
  _ ← deny_if (negb (has (et_Flags tgt) Invalid)) KDC_ERR_BADOPTION (ta_Client auth);
  _ ← deny_if (negb (IsZero (et_StartTime tgt)) && Before (now + cfg_ClockSkew cfg) (et_StartTime tgt)) KRB_AP_ERR_TKT_NYV (ta_Client auth);
  _ ← deny_if (negb (Equal target (ta_TicketServer auth))) KDC_ERR_BADOPTION (ta_Client auth);
  server ← loadTarget target (ta_Client auth);
  let newFlags := unset Invalid (copyFlags (et_Flags tgt)) in
  finishTicket (mkFinishSpec auth body (ta_Client auth) target server newFlags (et_AuthTime tgt) (et_StartTime tgt) (et_EndTime tgt)
    (et_RenewTill tgt) (et_Transited tgt) (et_AuthorizationData tgt) true None now).

(** ** The exchange *)

Definition dispatchTGS (req : KDCReq) (auth : tgsAuth) (target : Name) (now : Time) : K W bytes :=
  let body := ReqBody req in
  let asks := has (KDCOptions body) in
  if asks Renew then renewTicket auth body target now
  else if asks Validate then validateTicket auth body target now
  else if asks EncTktInSkey then err_for KDC_ERR_BADOPTION (ta_Client auth)
  else if asks CNameInAddlTkt then s4u2Proxy auth body target now
  else match findPAData (rq_PAData req) PA_FOR_USER with
       | Some pa => s4u2Self auth pa body target now
       | None => serviceTicket auth body target now
       end.

Definition target_of (body : KDCReqBody) : Name :=
  let realm := ToUpper (bd_Realm body) in
  mkName (NameString (bd_SName body)) (if (String.length realm =? 0)%nat then cfg_Realm cfg else realm).

Definition handleTGSReq (raw : bytes) : K W bytes :=
  req ← try generic (Unmarshal_TGSReq raw);
  let body := ReqBody req in
  now ← kdc_now;
  let allowInvalid := has (KDCOptions body) Validate in
  auth ← authenticateTGS req raw now allowInvalid;
  _ ← deny_if (List.length (NameString (bd_SName body)) =? 0)%nat KDC_ERR_S_PRINCIPAL_UNKNOWN (ta_Client auth);
  dispatchTGS req auth (target_of body) now.
End TGS.
