(* ===== verification/Server.v ===== *)
(** * The KDC server: package [kdc], server.go, errors.go

    One request in, one reply out, over a TCP connection or a UDP datagram. The sockets, the
    goroutines and the metrics are left out: a connection is the bytes the peer sends before it
    closes, and requests are handled one at a time. *)

From S2P Require Import Prelude Names Keytab Replay Flags Model Messages Ticket Db Directory Pac Sfu Kdc As Tgs.

(** [New]: what a configuration must have. *)
Definition New_ok (cfg : Config) : bool :=
  negb (String.length (cfg_Realm cfg) =? 0)%nat && negb (List.length (cfg_EncTypes cfg) =? 0)%nat && (0 <? cfg_ClockSkew cfg).

Definition newServer {W} (w : W) : KDC W := mkKDC w newReplayCache.

Section Server.
Context {W : Type} `{KdcStore W, KrbFlags, EncTypeLib, KrbLib, PacLib, Sha256} (cfg : Config).

(** [errorReply]; a reply that does not marshal is nil, and nothing is sent. *)
Definition errorReply (perr : protocolError) (sname : PrincipalName) (srealm : string) : bytes :=
  let srealm := if (String.length srealm =? 0)%nat then cfg_Realm cfg else srealm in
  let sname := if (List.length (NameString sname) =? 0)%nat then PrincipalName_of (tgsName cfg) else sname in
  let '(cname, crealm) := match pe_Client perr with
                          | Some n => (PrincipalName_of n, Realm n)
                          | None => (mkPrincipalName 0 [], EmptyString)
                          end in
  default [] (Marshal_KRBError (mkKRBError sname srealm (Code perr) (EData perr) cname crealm zeroTime)).

Definition refuse (perr : protocolError) : bytes := errorReply perr (PrincipalName_of (tgsName cfg)) (cfg_Realm cfg).

(** [messageType]: the tag of an application-tagged value. *)
Definition messageType (b : bytes) : option Z :=
  match Unmarshal_RawValue b with
  | Some (true, tag) => Some tag
  | _ => None
  end.

(** [timed]: a protocol error becomes the reply. *)
Definition timed (m : K W bytes) : M (KDC W) protocolError bytes := fun k =>
  match m k with
  | (Err perr, k') => (Ok (refuse perr), k')
  | r => r
  end.

Definition Handle (req : bytes) : M (KDC W) protocolError bytes :=
  match messageType req with
  | None => mret (refuse generic)
  | Some mt =>
      if mt =? KRB_AS_REQ then timed (handleASReq cfg req)
      else if mt =? KRB_TGS_REQ then timed (handleTGSReq cfg req)
      else mret (refuse generic)
  end.

Definition maxRequest : Z := 2 ^ 20.

(** [handleTCPConn] on what the peer sends: what is written back, [None] for nothing. *)
Definition handleTCPConn (sent : bytes) : M (KDC W) protocolError (option bytes) :=
  if (List.length sent <? 4)%nat then mret None
  else
    let size := Z.land (get_be (take 4 sent)) (Z.lnot 0x80000000) in
    if (size =? 0) || (maxRequest <? size) then mret None
    else
      let rest := drop 4 sent in
      if (List.length rest <? Z.to_nat size)%nat then mret None
      else
        reply ← Handle (take (Z.to_nat size) rest);
        mret (if (List.length reply =? 0)%nat then None
              else Some (put_be 4 (wrap 32 (zlen reply)) ++ reply)).

(** One round of [serveUDP]. *)
Definition handleDatagram (req : bytes) : M (KDC W) protocolError (option bytes) :=
  reply ← Handle req;
  mret (if (List.length reply =? 0)%nat then None
        else if cfg_UDPMaxSize cfg <? zlen reply then Some (refuse (krbErr KRB_ERR_RESPONSE_TOO_BIG))
        else Some reply).
End Server.

(** ** What the transports of the KDC promise *)

Section Transports.
Context {W : Type} `{Ks : KdcStore W, Kf : KrbFlags, El : EncTypeLib, Kl : KrbLib, Pl : PacLib, Sh : Sha256} (cfg : Config).

(** A length prefix, its reserved top bit ignored. *)
Definition frame_size (prefix : bytes) : Z := get_be prefix mod 2 ^ 31.

Lemma mask_top x : 0 <= x < 2 ^ 32 -> Z.land x (Z.lnot 0x80000000) = x mod 2 ^ 31.
Proof.
  intros Hx. rewrite <- Z.land_ones by lia. apply Z.bits_inj'. intros n Hn.
  rewrite !Z.land_spec, Z.lnot_spec by lia. change 0x80000000 with (2 ^ 31). rewrite Z.pow2_bits_eqb by lia.
  destruct (Z.eqb_spec 31 n) as [<-|]; cbn [negb].
  - rewrite Z.ones_spec_high by lia. done.
  - destruct (Z.lt_ge_cases n 31); [rewrite Z.ones_spec_low by lia; done|].
    rewrite Z.ones_spec_high by lia. rewrite andb_true_r, andb_false_r.
    destruct (Z.eq_dec x 0) as [->|]; [apply Z.bits_0|]. apply Z.bits_above_log2; [lia|].
    apply Z.log2_lt_pow2; [lia|]. assert (2 ^ 32 <= 2 ^ n) by (apply Z.pow_le_mono_r; lia). lia.
Qed.

(** What a connection sent is a whole request: a length of one to a million bytes, and as many
    bytes. *)
Definition framed (sent req : bytes) : Prop :=
  exists prefix rest, sent = prefix ++ req ++ rest /\ List.length prefix = 4%nat /\
    frame_size prefix = zlen req /\ 0 < zlen req <= maxRequest.

(** A TCP connection is served exactly when it carries a whole request within the limit: then
    the request is handled, once, and what goes back is the reply behind its length, or nothing for
    an empty reply; anything else (a short prefix, a length of zero or over the limit, a truncated
    request) is answered with nothing and changes nothing. *)
Lemma handleTCPConn_frames (sent : bytes) (k : KDC W) :
  (exists req, framed sent req /\
     handleTCPConn cfg sent k =
       (reply ← Handle cfg req; mret (if (List.length reply =? 0)%nat then None else Some (put_be 4 (wrap 32 (zlen reply)) ++ reply))) k) \/
  ((forall req, ~ framed sent req) /\ handleTCPConn cfg sent k = (Ok None, k)).
Proof.
  unfold handleTCPConn. destruct (Nat.ltb_spec (List.length sent) 4) as [Hs|Hs].
  { right. split; [|done]. intros req (p & r & -> & Hp & _). rewrite !length_app in Hs. lia. }
  assert (Hr : 0 <= get_be (take 4 sent) < 2 ^ 32).
  { pose proof (get_be_range (take 4 sent)) as H0. rewrite length_take, Nat.min_l in H0 by lia. exact H0. }
  rewrite mask_top by done. fold (frame_size (take 4 sent)).
  assert (Hf : forall req, framed sent req -> zlen req = frame_size (take 4 sent) /\ exists rest, drop 4 sent = req ++ rest).
  { intros req (p & r & -> & Hp & Hz & _). rewrite take_app_length', drop_app_length' by done. rewrite Hz. eauto. }
  destruct ((frame_size (take 4 sent) =? 0) || (maxRequest <? frame_size (take 4 sent))) eqn:Eb.
  { right. split; [|done]. intros req Hreq. destruct (Hf _ Hreq) as [Hz _]. destruct Hreq as (p & r & _ & _ & _ & Hlim).
    rewrite Hz in Hlim. apply orb_true_iff in Eb as [?|?]; simp_bool; lia. }
  simp_bool. assert (0 <= frame_size (take 4 sent)) by (apply Z.mod_pos_bound; lia).
  destruct (Nat.ltb_spec (List.length (drop 4 sent)) (Z.to_nat (frame_size (take 4 sent)))) as [Hl|Hl].
  - right. split; [|done]. intros req Hreq. destruct (Hf _ Hreq) as [Hz (r & Hd)]. rewrite Hd, length_app in Hl. unfold zlen in Hz. lia.
  - left. exists (take (Z.to_nat (frame_size (take 4 sent))) (drop 4 sent)). split; [|done].
    assert (Hz : zlen (take (Z.to_nat (frame_size (take 4 sent))) (drop 4 sent)) = frame_size (take 4 sent))
      by (unfold zlen; rewrite length_take, Nat.min_l by lia; lia).
    exists (take 4 sent), (drop (Z.to_nat (frame_size (take 4 sent))) (drop 4 sent)). rewrite Hz.
    rewrite (take_drop (Z.to_nat _)), take_drop. split_and!; [done|rewrite length_take; lia|done|lia|lia].
Qed.
End Transports.
