(* ===== verification/KdcFacts.v ===== *)
(** * What the exchanges of the KDC have in common

    Inversion of a successful computation in [K], the ticket and the reply it leaves, and what no
    exchange does to the clock and to the replay cache. *)

From S2P Require Import Prelude Names Keytab Replay Flags Model Messages Ticket Db Directory Pac Sfu Kdc As Tgs Server.

Section Inversion.
Context {W : Type} `{KdcStore W}.

Lemma try_Ok {A} e (o : option A) (k k' : KDC W) a : try e o k = (Ok a, k') -> o = Some a /\ k' = k.
Proof. unfold try, lift. intros [= Ho ->]. by apply or_err_Ok in Ho. Qed.

Lemma ask_Ok {A} (f : W -> outcome StoreErr A) e1 e2 (k k' : KDC W) a :
  ask f e1 e2 k = (Ok a, k') -> f (k_st k) = Ok a /\ k' = k.
Proof. unfold ask. destruct (f (k_st k)) as [|[]|]; naive_solver. Qed.

Lemma on_store_Ok {A} (f : W -> A * W) (k k' : KDC W) a :
  on_store f k = (Ok a, k') -> a = fst (f (k_st k)) /\ k' = mkKDC (snd (f (k_st k))) (k_replay k).
Proof. unfold on_store. destruct (f (k_st k)). naive_solver. Qed.

Lemma as_client_Ok {A} n (m : K W A) (k k' : KDC W) a : as_client n m k = (Ok a, k') -> m k = (Ok a, k').
Proof. unfold as_client. destruct (m k) as [[] ?]; naive_solver. Qed.

Lemma deny_if_Ok b c n (k k' : KDC W) u : deny_if b c n k = (Ok u, k') -> b = false /\ k' = k.
Proof. unfold deny_if. apply M_throw_if_Ok. Qed.

Lemma of_pac_Ok {A} e (o : outcome PacError A) (k k' : KDC W) a : of_pac e o k = (Ok a, k') -> o = Ok a /\ k' = k.
Proof. unfold of_pac, lift. destruct o; naive_solver. Qed.

Lemma record_result_Ok i ok p (k k' : KDC W) u :
  record_result i ok p k = (Ok u, k') -> k' = mkKDC (snd (st_RecordAuthResult i ok p (k_st k))) (k_replay k).
Proof. unfold record_result. destruct (st_RecordAuthResult i ok p (k_st k)) as [[] ?]; naive_solver. Qed.
End Inversion.

(** Decompose a successful run of an exchange. *)
Ltac k_step :=
  match goal with
  | H : try _ _ _ = (Ok _, _) |- _ => apply try_Ok in H as [? ->]
  | H : ask _ _ _ _ = (Ok _, _) |- _ => apply ask_Ok in H as [? ->]; cbv beta in *
  | H : kdc_now _ = (Ok _, _) |- _ => apply on_store_Ok in H as [? ->]
  | H : kdc_draws _ _ = (Ok _, _) |- _ => apply on_store_Ok in H as [? ->]
  | H : as_client _ _ _ = (Ok _, _) |- _ => apply as_client_Ok in H
  | H : deny_if _ _ _ _ = (Ok _, _) |- _ => apply deny_if_Ok in H as [? ->]
  | H : err_for _ _ _ = (Ok _, _) |- _ => discriminate H
  | H : of_pac _ _ _ = (Ok _, _) |- _ => apply of_pac_Ok in H as [? ->]
  end.
Ltac k_inv := repeat (progress run_inv || k_step); cbn [k_st k_replay] in *.

(** ** Tickets and replies *)

Section Replies.
Context {W : Type} `{KdcStore W, EncTypeLib, KrbLib, PacLib} (cfg : Config).

(** [tkt] names the service and carries [etp], sealed with the key of the service. *)
Definition sealed (server : Principal) (name : Name) (etp : EncTicketPart) (tkt : Ticket) : Prop :=
  exists key n b ed, selectKey server (cfg_EncTypes cfg) None = Some key /\ Marshal_EncTicketPart etp = Some b /\
    GetEncryptedData n (AddASNAppTag b tag_EncTicketPart) (EncryptionKey_of key) KDC_REP_TICKET (p_KVNO server) = Some ed /\
    tkt = mkTicket PVNO (Realm name) (PrincipalName_of name) ed.

(** The encrypted part of a reply tells the client what the ticket tells the service. *)
Definition agrees (part : EncKDCRepPart) (etp : EncTicketPart) (tkt : Ticket) : Prop :=
  ek_Key part = et_Key etp /\ ek_Flags part = et_Flags etp /\ ek_AuthTime part = et_AuthTime etp /\
  ek_StartTime part = et_StartTime etp /\ ek_EndTime part = et_EndTime etp /\ ek_RenewTill part = et_RenewTill etp /\
  ek_SRealm part = tkt_Realm tkt /\ ek_SName part = tkt_SName tkt.

Definition reply_part (part : EncKDCRepPart) (tag : Z) (key : EncryptionKey) (usage kvno : Z) (ed : EncryptedData) : Prop :=
  exists n b, Marshal_EncKDCRepPart part = Some b /\ GetEncryptedData n (AddASNAppTag b tag) key usage kvno = Some ed.

Lemma mint_Ok spec (k k' : KDC W) tkt sk :
  mint spec k = (Ok (tkt, sk), k') ->
  exists n b ed, Marshal_EncTicketPart (encTicketPart spec sk) = Some b /\
    GetEncryptedData n (AddASNAppTag b tag_EncTicketPart) (EncryptionKey_of (ts_ServerKey spec)) KDC_REP_TICKET (ts_ServerKVNO spec) = Some ed /\
    tkt = mkTicket PVNO (Realm (ts_Server spec)) (PrincipalName_of (ts_Server spec)) ed.
Proof.
  unfold mint. intros Hm. k_inv. match goal with H : mintTicket _ _ = Some _ |- _ => revert H end.
  unfold mintTicket. destruct (GetEType (ts_SessionEType spec)); cbn [negb]; [|done].
  destruct (GenerateEncryptionKey _ _) as [sk0|]; [|done]. cbn.
  destruct (Marshal_EncTicketPart _) as [b|] eqn:Eb; [|done]. cbn.
  destruct (GetEncryptedData _ _ _ _ _) as [ed|] eqn:Ed; [|done]. cbn. intros [= <- <-]. eauto 10.
Qed.

Lemma encrypt_Ok plain key usage kvno (k k' : KDC W) ed :
  encrypt plain key usage kvno k = (Ok ed, k') -> exists n, GetEncryptedData n plain key usage kvno = Some ed.
Proof. unfold encrypt. intros Hm. k_inv. eauto. Qed.

Lemma marshalEncKDCRepPart_Some part tag b :
  marshalEncKDCRepPart part tag = Some b -> exists b0, Marshal_EncKDCRepPart part = Some b0 /\ b = AddASNAppTag b0 tag.
Proof. unfold marshalEncKDCRepPart. destruct (Marshal_EncKDCRepPart part); cbn; naive_solver. Qed.
End Replies.
