(* ===== verification/AsFacts.v ===== *)
(** * What the AS exchange promises

    A ticket is issued only to a requester that proved it knows the client's key, where that is
    required, and only for principals in good standing; what it says obeys policy and is sealed for
    the service and for the client alone; a wrong key is counted towards lockout. *)

From S2P Require Import Prelude Names Keytab Replay Flags Model Messages Ticket Db Directory Pac Sfu Kdc As Tgs Server KdcFacts.

Section ASFacts.
Context {W : Type} `{Ks : KdcStore W, Kf : KrbFlags, El : EncTypeLib, Kl : KrbLib, Pl : PacLib} (cfg : Config).

(** The request carries a timestamp encrypted with a key of the client, and it is recent. *)
Definition preauthenticated (req : KDCReq) (client : Principal) (now : Time) : Prop :=
  exists pa ts key plain t,
    findPAData (rq_PAData req) PA_ENC_TIMESTAMP = Some pa /\ Unmarshal_PAEncTimestamp (PADataValue pa) = Some ts /\
    KeyFor client (ed_EType ts) = Some key /\
    DecryptEncPart ts (EncryptionKey_of key) AS_REQ_PA_ENC_TIMESTAMP = Some plain /\
    Unmarshal_PAEncTSEnc plain = Some t /\ skewed now t (cfg_ClockSkew cfg) = false.

Lemma checkPreAuth_Ok req client n body now (k k' : KDC W) b :
  checkPreAuth cfg req client n body now k = (Ok b, k') ->
  k' = k /\ if b then preauthenticated req client now
            else cfg_RequirePreAuth cfg = false /\ p_RequiresPreAuth client = false.
Proof.
  unfold checkPreAuth, hinted, failed. destruct (findPAData _ _) as [pa|] eqn:Epa.
  - intros Hr. k_inv. destruct (KeyFor client _) as [key|] eqn:Ek; [|k_inv].
    destruct (DecryptEncPart _ _ _) as [plain|] eqn:Ed; [|k_inv].
    destruct (Unmarshal_PAEncTSEnc plain) as [t|] eqn:Et; [|k_inv]. k_inv. split; [done|]. unfold preauthenticated. eauto 20.
  - destruct (cfg_RequirePreAuth cfg || p_RequiresPreAuth client) eqn:Er; cbn [negb]; intros Hr; k_inv. split; [done|]. by simp_bool.
Qed.

(** What stands behind a reply. *)
Record ASIssue : Type := mkASIssue {
  ai_req : KDCReq;
  ai_client : Principal;
  ai_server : Principal;
  ai_clientName : Name;
  ai_serverName : Name;
  ai_now : Time;
  ai_times : ticketTimes;
  ai_preAuth : bool;
  ai_etp : EncTicketPart;
  ai_part : EncKDCRepPart;
  ai_rep : KDCRep;
}.

(** The names a request asks about. *)
Definition as_client_name (body : KDCReqBody) : Name := NameFromPrincipalName (bd_CName body) (cfg_Realm cfg).
Definition as_server_name (body : KDCReqBody) : Name :=
  if (0 <? List.length (NameString (bd_SName body)))%nat then NameFromPrincipalName (bd_SName body) (cfg_Realm cfg) else tgsName cfg.

(** The name a reply uses: the one of the request, or the stored one when the client asked for it. *)
Definition answered_name (body : KDCReqBody) (p : Principal) (asked answer : Name) : Prop :=
  if has (KDCOptions body) Canonicalize then KrbName (E := protocolError) p = Ok answer else answer = asked.

Record as_issued (k : KDC W) (raw out : bytes) (i : ASIssue) : Prop := {
  (** the request, for this realm, about principals the store holds and that may be used now *)
  ai_ok_req : Unmarshal_ASReq raw = Some (ai_req i);
  ai_ok_realm : EqualFold (bd_Realm (ReqBody (ai_req i))) (cfg_Realm cfg) = true;
  ai_ok_now : ai_now i = fst (st_Now (k_st k));
  ai_ok_client : st_GetPrincipal (snd (st_Now (k_st k))) (as_client_name (ReqBody (ai_req i))) = Ok (ai_client i);
  ai_ok_server : st_GetPrincipal (snd (st_Now (k_st k))) (as_server_name (ReqBody (ai_req i))) = Ok (ai_server i);
  ai_ok_cname : answered_name (ReqBody (ai_req i)) (ai_client i) (as_client_name (ReqBody (ai_req i))) (ai_clientName i);
  ai_ok_sname : answered_name (ReqBody (ai_req i)) (ai_server i) (as_server_name (ReqBody (ai_req i))) (ai_serverName i);
  ai_ok_status : Status (ai_client i) (ai_now i) = PrincipalOK /\ Status (ai_server i) (ai_now i) = PrincipalOK;
  ai_ok_password : PasswordExpired (ai_client i) (ai_now i) = true -> IsChangePW (ai_serverName i) = true;
  (** the proof of the client's key *)
  ai_ok_preauth : if ai_preAuth i then preauthenticated (ai_req i) (ai_client i) (ai_now i)
                  else cfg_RequirePreAuth cfg = false /\ p_RequiresPreAuth (ai_client i) = false;
  (** what the ticket says *)
  ai_ok_times : times_ok cfg (ReqBody (ai_req i)) (ai_client i) (ai_server i) (ai_now i) (ai_times i);
  ai_ok_window : et_AuthTime (ai_etp i) = tt_AuthTime (ai_times i) /\ et_StartTime (ai_etp i) = tt_StartTime (ai_times i) /\
                 et_EndTime (ai_etp i) = tt_EndTime (ai_times i) /\ et_RenewTill (ai_etp i) = tt_RenewTill (ai_times i);
  ai_ok_flags : et_Flags (ai_etp i) = ticketFlags (ReqBody (ai_req i)) (ai_client i) (ai_server i) (ai_times i) true (ai_preAuth i);
  ai_ok_names : et_CName (ai_etp i) = PrincipalName_of (ai_clientName i) /\ et_CRealm (ai_etp i) = Realm (ai_clientName i);
  (** who can read it: the ticket the service, the reply the client *)
  ai_ok_rep : Marshal_ASRep (ai_rep i) = Some out;
  ai_ok_sealed : sealed cfg (ai_server i) (ai_serverName i) (ai_etp i) (rp_Ticket (ai_rep i));
  ai_ok_agrees : agrees (ai_part i) (ai_etp i) (rp_Ticket (ai_rep i)) /\ ek_Nonce (ai_part i) = Nonce (ReqBody (ai_req i));
  ai_ok_reply : exists key, selectKey (ai_client i) (cfg_EncTypes cfg) (bd_EType (ReqBody (ai_req i))) = Some key /\
      reply_part (ai_part i) tag_EncASRepPart (EncryptionKey_of key) AS_REP_ENCPART (p_KVNO (ai_client i)) (rp_EncPart (ai_rep i));
}.

Lemma answered_names body client server a b x :
  (if has (KDCOptions body) Canonicalize then c ← KrbName client; s ← KrbName server; Ok (c, s) else Ok (a, b))
    = Ok (E := protocolError) x ->
  answered_name body client a (fst x) /\ answered_name body server b (snd x).
Proof.
  unfold answered_name. intros Hr. destruct (has (KDCOptions body) Canonicalize); k_inv; done.
Qed.

(** The reply an issued ticket comes in. *)
Lemma issueAS_Ok body client server cn sn se replyKey pre now (k k' : KDC W) out :
  issueAS cfg body client server cn sn se replyKey pre now k = (Ok out, k') ->
  exists t etp part rep,
    computeTimes cfg body client server now = Ok t /\ Marshal_ASRep rep = Some out /\
    sealed cfg server sn etp (rp_Ticket rep) /\ agrees part etp (rp_Ticket rep) /\ ek_Nonce part = Nonce body /\
    reply_part part tag_EncASRepPart (EncryptionKey_of replyKey) AS_REP_ENCPART (p_KVNO client) (rp_EncPart rep) /\
    et_Flags etp = ticketFlags body client server t true pre /\
    et_CName etp = PrincipalName_of cn /\ et_CRealm etp = Realm cn /\
    et_AuthTime etp = tt_AuthTime t /\ et_StartTime etp = tt_StartTime t /\
    et_EndTime etp = tt_EndTime t /\ et_RenewTill etp = tt_RenewTill t.
Proof.
  unfold issueAS. intros Hr. k_inv.
  match goal with H : mint _ _ = (Ok ?x, _) |- _ => destruct x as [tkt sk]; apply mint_Ok in H as (n & b & ed & Hb & He & ->) end.
  k_inv. match goal with H : encrypt _ _ _ _ _ = _ |- _ => apply encrypt_Ok in H as [m Hm] end.
  match goal with H : marshalEncKDCRepPart _ _ = Some _ |- _ => apply marshalEncKDCRepPart_Some in H as (b0 & Hp & ->) end.
  match goal with H : computeTimes _ _ _ _ _ = Ok ?t |- _ => exists t end.
  do 3 eexists. split; [done|]. split; [eassumption|]. split; [|split; [|split; [|split]]].
  4:{ do 2 eexists. split; [exact Hp|exact Hm]. }
  - do 4 eexists. split; [eassumption|]. split; [exact Hb|]. split; [exact He|reflexivity].
  - repeat split.
  - done.
  - repeat split.
Qed.

Lemma handleASReq_issued raw (k k' : KDC W) out :
  handleASReq cfg raw k = (Ok out, k') -> exists i, as_issued k raw out i.
Proof.
  unfold handleASReq. intros Hr. k_inv. rename x into req.
  match goal with H : _ = Ok ?x |- _ => is_var x; destruct x as [cn sn]; apply answered_names in H as [Hcn Hsn] end.
  k_inv. match goal with H : checkPreAuth _ _ _ _ _ _ _ = (Ok ?b, _) |- _ => rename b into pre; apply checkPreAuth_Ok in H as [-> Hpre] end.
  match goal with H : issueAS _ _ ?c ?s _ _ _ _ _ ?n _ = _ |- _ => rename c into client, s into server;
    apply issueAS_Ok in H as (t & etp & part & rep & Ht & Hrep & Hseal & Hag & Hno & Hpart & Hfl & Hn1 & Hn2 & Hw) end.
  subst. exists (mkASIssue req client server cn sn (fst (st_Now (k_st k))) t pre etp part rep). simp_bool.
  split; cbn [ai_req ai_client ai_server ai_clientName ai_serverName ai_now ai_times ai_preAuth ai_etp ai_part ai_rep]; try done.
  - intros Hp. match goal with H : _ && negb _ = false |- _ => rewrite Hp in H end. by destruct (IsChangePW sn).
  - by apply computeTimes_sound.
  - eauto.
Qed.


(** C27: a ticket the AS exchange issues is for a client and a service in good standing (enabled,
    neither expired nor locked, holding keys), an expired password buys one for the password service
    only, it lives no longer than any limit of the client, the service and the realm and no longer
    than was asked, it is sealed with the key of the service, and the reply, sealed with a key of the
    client, repeats what the ticket says. *)
Theorem AS_obeys_policy (raw out : bytes) (k k' : KDC W) :
  0 < cfg_MaxTicketLife cfg -> handleASReq cfg raw k = (Ok out, k') ->
  exists i, as_issued k raw out i /\
    (forall p, p ∈ [ai_client i; ai_server i] -> p_Enabled p = true /\ p_Keys p <> [] /\
       (0 < p_MaxTicketLife p -> et_EndTime (ai_etp i) - et_StartTime (ai_etp i) <= p_MaxTicketLife p)) /\
    et_StartTime (ai_etp i) < et_EndTime (ai_etp i) /\
    et_EndTime (ai_etp i) - et_StartTime (ai_etp i) <= cfg_MaxTicketLife cfg /\
    (isRequestedTime (Till (ReqBody (ai_req i))) = true -> et_EndTime (ai_etp i) <= Till (ReqBody (ai_req i))).
Proof.
  intros Hmax (i & Hi)%handleASReq_issued. exists i. split; [done|].
  destruct Hi as [_ _ _ _ _ _ _ [Hc Hs] _ _ [_ _ Hw Hl Ht _] (_ & -> & -> & _) _ _ _ _ _ _].
  apply Status_OK in Hc, Hs.
  set (e := tt_EndTime (ai_times i) - tt_StartTime (ai_times i)) in *.
  pose proof (effectiveLife_le (p_MaxTicketLife (ai_client i)) (p_MaxTicketLife (ai_server i)) (cfg_MaxTicketLife cfg)) as Hle.
  split_and!; [|done|lia|done]. intros p Hp. rewrite !elem_of_cons in Hp.
  destruct Hp as [->|[->|[]%elem_of_nil]].
  - split_and!; [apply Hc|apply Hc|]. intros Hpos.
    pose proof (effectiveLife_client (p_MaxTicketLife (ai_client i)) (p_MaxTicketLife (ai_server i)) _ Hpos Hmax). lia.
  - split_and!; [apply Hs|apply Hs|]. intros Hpos.
    pose proof (effectiveLife_server (p_MaxTicketLife (ai_client i)) (p_MaxTicketLife (ai_server i)) _ Hpos Hmax). lia.
Qed.

(** The attempt was made with a key that is not the client's: its datum does not decrypt to a
    timestamp. *)
Definition wrong_key (req : KDCReq) (client : Principal) : Prop :=
  exists pa ts key, findPAData (rq_PAData req) PA_ENC_TIMESTAMP = Some pa /\
    Unmarshal_PAEncTimestamp (PADataValue pa) = Some ts /\ KeyFor client (ed_EType ts) = Some key /\
    (DecryptEncPart ts (EncryptionKey_of key) AS_REQ_PA_ENC_TIMESTAMP ≫= Unmarshal_PAEncTSEnc) = None.

(** An attempt with a wrong key is counted against the principal and refused as
    KDC_ERR_PREAUTH_FAILED; every other answer to pre-authentication, whatever it is, leaves the
    store and the replay cache as they were. *)
Lemma checkPreAuth_counts (req : KDCReq) (client : Principal) (name : Name) (body : KDCReqBody) (now : Time) (k : KDC W) :
  let '(r, k') := checkPreAuth cfg req client name body now k in
  k_replay k' = k_replay k /\
  (wrong_key req client /\ k_st k' = snd (st_RecordAuthResult (p_ID client) false (cfg_Lockout cfg) (k_st k)) /\
   (forall e, r = Err e -> Code e = KDC_ERR_PREAUTH_FAILED) /\ (forall b, r <> Ok b) \/
   ~ wrong_key req client /\ k' = k).
Proof.
  assert (Hhint : forall code, ~ wrong_key req client ->
    let '(r, k') := hinted (A := bool) cfg code client name body k in
    k_replay k' = k_replay k /\
    (wrong_key req client /\ k_st k' = snd (st_RecordAuthResult (p_ID client) false (cfg_Lockout cfg) (k_st k)) /\
     (forall e, r = Err e -> Code e = KDC_ERR_PREAUTH_FAILED) /\ (forall b, r <> Ok b) \/ ~ wrong_key req client /\ k' = k)).
  { intros code Hw. unfold hinted, try, lift, mbind, M_bind, or_err, throw.
    destruct (preAuthHint cfg client (bd_EType body)); (split; [done|]); by right. }
  unfold checkPreAuth. destruct (findPAData _ _) as [pa|] eqn:Ep.
  2:{ assert (~ wrong_key req client) by (unfold wrong_key; naive_solver).
      destruct (negb _); [split; [done|by right]|by apply Hhint]. }
  unfold mbind at 1, M_bind at 1, try at 1, lift at 1, or_err at 1.
  destruct (Unmarshal_PAEncTimestamp _) as [ts|] eqn:Et; [|split; [done|]; right; split; [unfold wrong_key; naive_solver|done]].
  destruct (KeyFor client (ed_EType ts)) as [key|] eqn:Ek; [|by apply Hhint; unfold wrong_key; naive_solver].
  assert (Hfail : (DecryptEncPart ts (EncryptionKey_of key) AS_REQ_PA_ENC_TIMESTAMP ≫= Unmarshal_PAEncTSEnc) = None ->
    let '(r, k') := failed (A := bool) cfg client name k in
    k_replay k' = k_replay k /\
    (wrong_key req client /\ k_st k' = snd (st_RecordAuthResult (p_ID client) false (cfg_Lockout cfg) (k_st k)) /\
     (forall e, r = Err e -> Code e = KDC_ERR_PREAUTH_FAILED) /\ (forall b, r <> Ok b) \/ ~ wrong_key req client /\ k' = k)).
  { intros Hd. unfold failed, recordFailure, record_result, mbind, M_bind, throw.
    destruct (st_RecordAuthResult _ _ _ _) as [[] w]; (split; [done|]); left; split_and!; try done; unfold wrong_key; eauto 10; naive_solver. }
  destruct (DecryptEncPart ts _ _) as [plain|] eqn:Ed; [|by apply Hfail].
  cbn in Hfail. destruct (Unmarshal_PAEncTSEnc plain) as [t|] eqn:Eu; [|by apply Hfail].
  unfold throw_if, err_if, lift, mbind, M_bind. destruct (skewed now t (cfg_ClockSkew cfg)); (split; [done|]); right; (split; [|done]); unfold wrong_key;
    intros (? & ? & ? & ? & ? & ? & Hw); simplify_eq; by rewrite Ed in Hw; cbn in Hw; rewrite Eu in Hw.
Qed.
End ASFacts.
