(* ===== verification/TgsFacts.v ===== *)
(** * What the TGS exchange promises

    Who is let in, what a derived ticket inherits, and the limits of impersonation, delegation,
    renewal, validation and of paths through other realms. *)

From S2P Require Import Prelude Names Keytab Replay Flags Model Messages Ticket Db Directory Pac Sfu Kdc As Tgs Server KdcFacts.

Section TGSFacts.
Context {W : Type} `{Ks : KdcStore W, Kf : KrbFlags, El : EncTypeLib, Kl : KrbLib, Pl : PacLib, Sh : Sha256} (cfg : Config).

(** ** Authentication *)

(** What is behind an authenticated request. *)
Record tgs_authenticated (k : KDC W) (req : KDCReq) (raw : bytes) (now : Time) (allowInvalid : bool)
    (auth : tgsAuth) (authn : Authenticator) : Prop := {
  au_ok_req : exists pa, findPAData (rq_PAData req) PA_TGS_REQ = Some pa /\ Unmarshal_APReq (PADataValue pa) = Some (ta_APReq auth);
  au_ok_server : ta_TicketServer auth = NameFromPrincipalName (tkt_SName (ap_Ticket (ta_APReq auth))) (tkt_Realm (ap_Ticket (ta_APReq auth)));
  (** the ticket: of a ticket-granting service, opened with the key of the version it names *)
  au_ok_tgs : IsTGS (ta_TicketServer auth) = true;
  au_ok_key : exists p key, st_GetPrincipalKVNO (k_st k) (ta_TicketServer auth) (ed_KVNO (tkt_EncPart (ap_Ticket (ta_APReq auth)))) = Ok p /\
      KeyFor p (ed_EType (tkt_EncPart (ap_Ticket (ta_APReq auth)))) = Some key /\
      Ticket_Decrypt (ap_Ticket (ta_APReq auth)) (EncryptionKey_of key) = Some (ta_TGT auth);
  au_ok_client : ta_Client auth = NameFromPrincipalName (et_CName (ta_TGT auth)) (et_CRealm (ta_TGT auth));
  au_ok_cross : ta_CrossRealm auth = negb (EqualFold (Realm (ta_TicketServer auth)) (cfg_Realm cfg));
  au_ok_session : ta_SessionKey auth = et_Key (ta_TGT auth);
  (** the authenticator: made with the session key, in the name of the ticket, and recent *)
  au_ok_authn : exists plain, DecryptEncPart (EncryptedAuthenticator (ta_APReq auth)) (et_Key (ta_TGT auth))
      TGS_REQ_PA_TGS_REQ_AP_REQ_AUTHENTICATOR = Some plain /\ Unmarshal_Authenticator plain = Some authn;
  au_ok_match : EqualFold (au_CRealm authn) (et_CRealm (ta_TGT auth)) = true /\ PrincipalName_Equal (au_CName authn) (et_CName (ta_TGT auth)) = true;
  au_ok_skew : skewed now (au_CTime authn) (cfg_ClockSkew cfg) = false;
  (** the ticket is in its window, and valid unless validation is what is asked *)
  au_ok_window : (et_StartTime (ta_TGT auth) <> zeroTime -> et_StartTime (ta_TGT auth) <= now + cfg_ClockSkew cfg) /\
      (et_EndTime (ta_TGT auth) <> zeroTime -> now - cfg_ClockSkew cfg <= et_EndTime (ta_TGT auth));
  au_ok_valid : allowInvalid = false -> has (et_Flags (ta_TGT auth)) Invalid = false;
  (** the body is the one the authenticator was made for *)
  au_ok_body : exists body, Unmarshal_ReqBody raw = Some body /\
      VerifyChecksum (CksumType (au_Cksum authn)) (KeyValue (et_Key (ta_TGT auth))) body (ck_Checksum (au_Cksum authn))
        TGS_REQ_PA_TGS_REQ_AP_REQ_AUTHENTICATOR_CHKSUM = true;
  (** the reply goes out under a key only the two of them have *)
  au_ok_reply : ta_ReplyKey auth = et_Key (ta_TGT auth) \/ ta_ReplyKey auth = au_SubKey authn;
}.

(** What identifies an authenticator to the replay cache. *)
Definition replay_id (auth : tgsAuth) (authn : Authenticator) : authenticator :=
  mkAuthenticator (au_CRealm authn) (Principal_of (ta_Client auth)) (au_CTime authn) (au_Cusec authn)
    (sha256 (ed_Cipher (tkt_EncPart (ap_Ticket (ta_APReq auth))))).

Lemma checkTicketValidity_Ok tkt now client inv :
  checkTicketValidity cfg tkt now client inv = Ok tt ->
  (et_StartTime tkt <> zeroTime -> et_StartTime tkt <= now + cfg_ClockSkew cfg) /\
  (et_EndTime tkt <> zeroTime -> now - cfg_ClockSkew cfg <= et_EndTime tkt) /\
  (inv = false -> has (et_Flags tkt) Invalid = false).
Proof.
  unfold checkTicketValidity, IsZero, Before, After.
  destruct (Z.eqb_spec (et_StartTime tkt) zeroTime), (Z.eqb_spec (et_EndTime tkt) zeroTime); cbn [negb andb];
    repeat case_match; simp_bool; try done; intros _; split_and!; try done; try lia;
    intros ->; simpl in *; by destruct (has (et_Flags tkt) Invalid).
Qed.

Lemma verifyBodyChecksum_Ok raw authn key client :
  verifyBodyChecksum raw authn key client = Ok tt ->
  exists body, Unmarshal_ReqBody raw = Some body /\
    VerifyChecksum (CksumType (au_Cksum authn)) (KeyValue key) body (ck_Checksum (au_Cksum authn))
      TGS_REQ_PA_TGS_REQ_AP_REQ_AUTHENTICATOR_CHKSUM = true.
Proof.
  unfold verifyBodyChecksum. case_match; [done|]. destruct (Unmarshal_ReqBody raw) as [b|]; [|done].
  destruct (negb (GetChecksumEType _)); [done|]. destruct (VerifyChecksum _ _ _ _ _) eqn:E; [|done]. eauto.
Qed.

Lemma seen_before_Ok a (k k' : KDC W) dup :
  seen_before cfg a k = (Ok dup, k') ->
  dup = fst (seen (2 * cfg_ClockSkew cfg) (fst (st_Now (k_st k))) a (k_replay k)) /\
  k' = mkKDC (snd (st_Now (k_st k))) (snd (seen (2 * cfg_ClockSkew cfg) (fst (st_Now (k_st k))) a (k_replay k))).
Proof.
  unfold seen_before. destruct (st_Now (k_st k)) as [t w]. cbn [fst snd].
  destruct (seen _ t a (k_replay k)). naive_solver.
Qed.

Lemma authenticateTGS_Ok req raw now inv (k k' : KDC W) auth :
  authenticateTGS cfg req raw now inv k = (Ok auth, k') ->
  exists authn, tgs_authenticated k req raw now inv auth authn /\
    fst (seen (2 * cfg_ClockSkew cfg) (fst (st_Now (k_st k))) (replay_id auth authn) (k_replay k)) = false /\
    k' = mkKDC (snd (st_Now (k_st k))) (snd (seen (2 * cfg_ClockSkew cfg) (fst (st_Now (k_st k))) (replay_id auth authn) (k_replay k))).
Proof.
  unfold authenticateTGS. intros Hr. k_inv.
  match goal with H : seen_before _ _ _ = _ |- _ => apply seen_before_Ok in H as [Hdup ->] end.
  match goal with H : (_ ≫= Unmarshal_Authenticator) = Some ?a |- _ => rename a into authn; rename H into Hau end.
  match goal with H : Ticket_Decrypt _ _ = Some ?t |- _ => rename t into tgt end.
  destruct (DecryptEncPart _ _ _) as [plain|] eqn:Hpl; [|done]. cbn in Hau.
  exists authn. match goal with u : unit |- _ => idtac end.
  repeat match goal with u : unit |- _ => destruct u end.
  match goal with H : checkTicketValidity _ _ _ _ _ = _ |- _ => apply checkTicketValidity_Ok in H as (Hv1 & Hv2 & Hv3) end.
  match goal with H : verifyBodyChecksum _ _ _ _ = _ |- _ => apply verifyBodyChecksum_Ok in H end.
  simp_bool. subst.
  destruct (negb (KeyType (au_SubKey authn) =? 0) && _); k_inv;
    (split; [split; cbn [ta_APReq ta_TGT ta_TicketServer ta_Client ta_SessionKey ta_ReplyKey ta_CrossRealm]; eauto 10|by split]).
Qed.

(** ** Issuing *)

(** [out] is the reply that gives the requester, under its reply key, a ticket for [target] that
    says [etp], sealed with the key of [server]. *)
Definition tgs_issued (auth : tgsAuth) (body : KDCReqBody) (server : Principal) (target : Name) (etp : EncTicketPart) (out : bytes) : Prop :=
  exists part rep, Marshal_TGSRep rep = Some out /\ sealed cfg server target etp (rp_Ticket rep) /\
    agrees part etp (rp_Ticket rep) /\ ek_Nonce part = Nonce body /\
    rp_CName rep = et_CName etp /\ rp_CRealm rep = et_CRealm etp /\
    reply_part part tag_EncTGSRepPart (ta_ReplyKey auth) (ta_ReplyUsage auth) 0 (rp_EncPart rep).

Lemma finishTicket_Ok spec (k k' : KDC W) out :
  finishTicket cfg spec k = (Ok out, k') ->
  exists etp, tgs_issued (fs_Auth spec) (fs_Body spec) (fs_Server spec) (fs_Target spec) etp out /\
    et_Flags etp = fs_Flags spec /\ et_CName etp = PrincipalName_of (fs_Client spec) /\ et_CRealm etp = Realm (fs_Client spec) /\
    et_Transited etp = fs_Transited spec /\ et_AuthTime etp = fs_AuthTime spec /\ et_StartTime etp = fs_StartTime spec /\
    et_EndTime etp = fs_EndTime spec /\ et_RenewTill etp = fs_RenewTill spec /\
    (fs_ReuseAuthz spec = true -> et_AuthorizationData etp = fs_AuthzData spec).
Proof.
  unfold finishTicket. intros Hr. k_inv.
  match goal with H : mint _ _ = (Ok ?x, _) |- _ => destruct x as [tkt sk]; apply mint_Ok in H as (n & b & ed & Hb & He & ->) end.
  k_inv. match goal with H : encrypt _ _ _ _ _ = _ |- _ => apply encrypt_Ok in H as [m Hm] end.
  match goal with H : marshalEncKDCRepPart _ _ = Some _ |- _ => apply marshalEncKDCRepPart_Some in H as (b0 & Hp & ->) end.
  match goal with H : (if fs_ReuseAuthz spec then _ else _) _ = (Ok ?a, _) |- _ => rename a into ad, H into Had end.
  eexists. split; [match type of Hp with _ ?part = _ => exists part end; eexists; split; [eassumption|]|].
  - split; [do 4 eexists; split; [eassumption|]; split; [exact Hb|]; split; [exact He|reflexivity]|].
    split; [repeat split|]. split; [done|]. split; [done|]. split; [done|]. do 2 eexists. split; [exact Hp|exact Hm].
  - split_and!; try done. intros Hre. rewrite Hre in Had. k_inv. done.
Qed.

Lemma loadTarget_Ok target req (k k' : KDC W) p :
  loadTarget target req k = (Ok p, k') ->
  st_GetPrincipal (k_st k) target = Ok p /\ Status p (fst (st_Now (k_st k))) = PrincipalOK /\
  k' = mkKDC (snd (st_Now (k_st k))) (k_replay k).
Proof. unfold loadTarget. intros Hr. k_inv. simp_bool. subst. done. Qed.

(** The principal whose limits apply: the one of the store, in good standing, or the stand-in for
    another realm's. *)
Definition policy_principal (w : W) (name : Name) (p : Principal) : Prop :=
  if EqualFold (Realm name) (cfg_Realm cfg) then st_GetPrincipal w name = Ok p /\ exists t, Status p t = PrincipalOK
  else p = foreign_principal name.

Lemma loadPolicyPrincipal_Ok name (k k' : KDC W) p :
  loadPolicyPrincipal cfg name k = (Ok p, k') -> policy_principal (k_st k) name p /\ k_replay k' = k_replay k /\
  (k' = k \/ k' = mkKDC (snd (st_Now (k_st k))) (k_replay k)).
Proof.
  unfold loadPolicyPrincipal, policy_principal. destruct (EqualFold (Realm name) (cfg_Realm cfg)); cbn [negb]; intros Hr; k_inv; simp_bool.
  - split; [|auto]. eauto.
  - auto.
Qed.

(** The name a ticket is issued in: the requested one, or the stored one. *)
Definition ticket_name (body : KDCReqBody) (server : Principal) (asked answer : Name) : Prop :=
  if has (KDCOptions body) Canonicalize then KrbName (E := protocolError) server = Ok answer else answer = asked.

(** A ticket issued under policy. *)
Record policy_ticket (k : KDC W) (spec : issueSpec) (out : bytes) (server client : Principal) (t : ticketTimes) (etp : EncTicketPart) : Prop := {
  pt_server : st_GetPrincipal (k_st k) (is_Target spec) = Ok server /\ Status server (fst (st_Now (k_st k))) = PrincipalOK;
  pt_client : policy_principal (snd (st_Now (k_st k))) (is_Client spec) client;
  pt_issued : exists name, ticket_name (is_Body spec) server (is_Target spec) name /\
      tgs_issued (is_Auth spec) (is_Body spec) server name etp out;
  pt_names : et_CName etp = PrincipalName_of (is_Client spec) /\ et_CRealm etp = Realm (is_Client spec);
  pt_times : times_ok cfg (is_Body spec) client server (is_Now spec) t;
  pt_start : et_StartTime etp = tt_StartTime t;
  pt_end : et_EndTime etp = clamp_end (is_SourceTGT spec) (tt_EndTime t);
  pt_renew : et_RenewTill etp = tt_RenewTill t;
  pt_auth : et_AuthTime etp = authTimeFor spec;
  pt_flags : et_Flags etp = decide_forwardable (is_Forwardable spec) client
      (ticketFlags (is_Body spec) client server t false (ticketWasPreAuthenticated (is_SourceTGT spec)));
  pt_transited : exists k1 k2, transitedFor cfg spec k1 = (Ok (et_Transited etp), k2) /\
      (k_st k1 = snd (st_Now (k_st k)) \/ k_st k1 = snd (st_Now (snd (st_Now (k_st k)))));
}.

Lemma transitedFor_target target spec : transitedFor (W := W) cfg (with_target target spec) = transitedFor cfg spec.
Proof. done. Qed.

Lemma issueTicket_Ok spec (k k' : KDC W) out :
  issueTicket cfg spec k = (Ok out, k') -> exists server client t etp, policy_ticket k spec out server client t etp.
Proof.
  unfold issueTicket. intros Hr. k_inv.
  match goal with H : loadTarget _ _ _ = (Ok ?p, _) |- _ => rename p into server; apply loadTarget_Ok in H as (Hs1 & Hs2 & ->) end.
  match goal with H : _ _ = (Ok ?sp, ?st) |- _ => match type of sp with issueSpec => rename sp into spec', H into Hspec, st into k1 end end.
  assert (Hsp : exists n, spec' = with_target n spec /\ ticket_name (is_Body spec) server (is_Target spec) n /\
            k1 = mkKDC (snd (st_Now (k_st k))) (k_replay k)).
  { unfold ticket_name. destruct (has (KDCOptions (is_Body spec)) Canonicalize); k_inv; [eauto|].
    exists (is_Target spec). destruct spec. done. }
  destruct Hsp as (n & -> & Hn & ->). cbn [with_target is_Auth is_Body is_Client is_Target is_Now is_SourceTGT is_Forwardable is_Delegation] in *.
  match goal with H : loadPolicyPrincipal _ _ _ = (Ok ?p, ?st) |- _ => rename p into client; apply loadPolicyPrincipal_Ok in H as (Hc & _ & Hst) end.
  match goal with H : computeTimes _ _ _ _ _ = Ok ?t |- _ => rename t into times; apply computeTimes_sound in H as Ht end.
  apply finishTicket_Ok in Hr as (etp & Hi & Hf & Hn1 & Hn2 & Htr & Hau & Hstart & Hend & Hren & _).
  cbn [fs_Auth fs_Body fs_Server fs_Target fs_Flags fs_Client fs_Transited fs_AuthTime fs_StartTime fs_EndTime fs_RenewTill] in *.
  exists server, client, times, etp. split; try done; eauto.
  match goal with H : transitedFor _ _ ?a = (Ok _, ?b) |- _ => rewrite transitedFor_target in H; exists a, b; rewrite Htr; split; [exact H|] end.
  cbn [k_st] in Hst. destruct Hst as [->| ->]; auto.
Qed.

(** ** Claims about the exchange *)

(** A successful exchange is an authenticated request and what its kind asks for. *)
Lemma handleTGSReq_run raw (k k' : KDC W) out :
  handleTGSReq cfg raw k = (Ok out, k') ->
  exists req auth authn k1, Unmarshal_TGSReq raw = Some req /\
    tgs_authenticated (mkKDC (snd (st_Now (k_st k))) (k_replay k)) req raw (fst (st_Now (k_st k)))
      (has (KDCOptions (ReqBody req)) Validate) auth authn /\
    NameString (bd_SName (ReqBody req)) <> [] /\
    dispatchTGS cfg req auth (target_of cfg (ReqBody req)) (fst (st_Now (k_st k))) k1 = (Ok out, k').
Proof.
  unfold handleTGSReq. intros Hr. k_inv.
  match goal with H : authenticateTGS _ _ _ _ _ _ = _ |- _ => apply authenticateTGS_Ok in H as (authn & Ha & _) end.
  subst. do 4 eexists. split_and!; try eassumption. intros Hn. by rewrite Hn in *.
Qed.

(** C17: every reply of the TGS exchange answers a request that presented a ticket-granting ticket
    opened with the key of the ticket-granting principal and version it names, inside its validity
    window, with an authenticator made with the ticket's session key in the ticket's own name, no
    older than the clock skew, whose checksum covers the request as it arrived; and a ticket that is
    not yet valid was presented only to be validated. *)
Theorem TGS_authenticates (raw out : bytes) (k k' : KDC W) :
  handleTGSReq cfg raw k = (Ok out, k') ->
  exists req auth authn, Unmarshal_TGSReq raw = Some req /\
    tgs_authenticated (mkKDC (snd (st_Now (k_st k))) (k_replay k)) req raw (fst (st_Now (k_st k)))
      (has (KDCOptions (ReqBody req)) Validate) auth authn.
Proof. intros (req & auth & authn & _ & Hreq & Ha & _)%handleTGSReq_run. eauto. Qed.

(** What a request may see of the ticket its ticket derives from. *)
Lemma clamp_end_le source e : clamp_end source e <= e.
Proof. unfold clamp_end, After. destruct source; [|lia]. destruct (_ && _) eqn:E; simp_bool; lia. Qed.

Lemma clamp_end_source t e : et_EndTime t <> zeroTime -> clamp_end (Some t) e <= et_EndTime t.
Proof.
  intros Hz. unfold clamp_end, After, IsZero. rewrite (proj2 (Z.eqb_neq _ _) Hz). cbn [negb andb].
  destruct (Z.ltb_spec (et_EndTime t) e); lia.
Qed.

Lemma decide_forwardable_has `{!KrbFlagsLaws Kf} f client b g :
  has (decide_forwardable f client b) g =
  if bool_decide (g = Forwardable) then
    match f with
    | forwardableAsRequested => has b Forwardable
    | forwardableAlways => true
    | forwardableUnlessBarred => p_AllowForwardable client
    | forwardableNever => false
    end
  else has b g.
Proof.
  unfold decide_forwardable. destruct f; [|rewrite has_set|destruct (p_AllowForwardable client); [rewrite has_set|rewrite has_unset]|rewrite has_unset].
  all: destruct g; simpl; try done; by rewrite ?orb_true_r, ?andb_false_r.
Qed.

(** What a ticket derived from [source] inherits and does not exceed. *)
Record derived_from (source : EncTicketPart) (now : Time) (etp : EncTicketPart) : Prop := {
  dv_end : et_EndTime source <> zeroTime -> et_EndTime etp <= et_EndTime source;
  dv_life : et_EndTime etp - et_StartTime etp <= cfg_MaxTicketLife cfg;
  dv_auth : et_AuthTime source <> zeroTime -> et_AuthTime etp = et_AuthTime source;
  dv_preauth : has (et_Flags etp) PreAuthent = has (et_Flags source) PreAuthent;
  dv_initial : has (et_Flags etp) Initial = false;
}.

Lemma policy_derived `{!KrbFlagsLaws Kf} k spec out server client t etp source :
  policy_ticket k spec out server client t etp -> is_SourceTGT spec = Some source -> derived_from source (is_Now spec) etp.
Proof.
  intros [_ _ _ _ Ht Hst He _ Hau Hf _] Hs. rewrite Hs in *. split.
  - intros Hz. rewrite He. by apply clamp_end_source.
  - rewrite He, Hst. pose proof (clamp_end_le (Some source) (tt_EndTime t)). destruct Ht as [_ _ _ Hl _ _].
    pose proof (effectiveLife_le (p_MaxTicketLife client) (p_MaxTicketLife server) (cfg_MaxTicketLife cfg)). lia.
  - intros Hz. rewrite Hau. unfold authTimeFor, IsZero. rewrite Hs, (proj2 (Z.eqb_neq _ _) Hz). done.
  - rewrite Hf, decide_forwardable_has, !ticketFlags_exact. done.
  - rewrite Hf, decide_forwardable_has, !ticketFlags_exact. done.
Qed.


(** A principal may act for [subject]: it has no list, or an entry of the list matches. *)
Definition may_impersonate (requester : Principal) (subject : Name) : Prop :=
  p_AllowedToImpersonate requester = [] \/ exists a, a ∈ p_AllowedToImpersonate requester /\ entry_matches subject a = true.

Lemma impersonationAllowed_Ok requester subject u : impersonationAllowed requester subject = Ok u -> may_impersonate requester subject.
Proof.
  unfold impersonationAllowed, may_impersonate.
  destruct (p_AllowedToImpersonate requester) as [|a l] eqn:Eli; [by left|]. rewrite <- Eli. rewrite Eli at 1. cbn [List.length Nat.eqb].
  destruct (existsb _ _) eqn:Ee; [|done]. intros _. right.
  apply existsb_exists in Ee as (x0 & Hin & Hm). exists x0. split; [by apply list_elem_of_In|done].
Qed.

(** C18: S4U2Self gives a service a ticket to itself and to no other, in the name of a user of this
    realm that its impersonation list does not exclude, and only with a checksum made with its own
    session key; the ticket is forwardable, and so fit for delegation, exactly when the service is
    trusted to authenticate for delegation and the user may be forwarded, whatever was asked. *)
Theorem S4U2Self_constrained `{!KrbFlagsLaws Kf} (auth : tgsAuth) (pa : PAData) (body : KDCReqBody) (target : Name) (now : Time)
    (k k' : KDC W) (out : bytes) :
  s4u2Self cfg auth pa body target now k = (Ok out, k') ->
  cfg_AllowS4U cfg = true /\ Components target = Components (ta_Client auth) /\ ToUpper (Realm target) = ToUpper (Realm (ta_Client auth)) /\
  exists pfu requester server client name etp,
    Unmarshal_paForUser (PADataValue pa) = Some pfu /\ verify_paForUser pfu (ta_SessionKey auth) = true /\
    st_GetPrincipal (k_st k) (ta_Client auth) = Ok requester /\ st_GetPrincipal (k_st k) target = Ok server /\
    let subject := NameFromPrincipalName (fu_UserName pfu) (fu_UserRealm pfu) in
    EqualFold (Realm subject) (cfg_Realm cfg) = true /\
    may_impersonate requester subject /\
    st_GetPrincipal (snd (st_Now (k_st k))) subject = Ok client /\
    tgs_issued auth body server name etp out /\ et_CName etp = PrincipalName_of subject /\
    has (et_Flags etp) Forwardable = p_OKToAuthAsDelegate requester && p_AllowForwardable client.
Proof.
  unfold s4u2Self. intros Hr. k_inv. simp_bool.
  match goal with H : Equal _ _ = true |- _ => apply Equal_spec in H as [? ?] end.
  split_and!; [done..|].
  match goal with H : Unmarshal_paForUser _ = Some ?p, H' : st_GetPrincipal _ _ = Ok ?q |- _ => rename p into pfu, q into requester, H' into Hreq end.
  apply issueTicket_Ok in Hr as (server & client & t & etp & [[Hs _] Hc (name & _ & Hi) [Hn1 _] _ _ _ _ _ Hf _]).
  cbn [is_Auth is_Body is_Client is_Target is_Forwardable is_SourceTGT is_Now] in *.
  unfold policy_principal in Hc. match goal with H : EqualFold _ (cfg_Realm cfg) = true |- _ => rewrite H in Hc end. destruct Hc as [Hc _].
  exists pfu, requester, server, client, name, etp. split_and!; try done.
  - by eapply impersonationAllowed_Ok.
  - rewrite Hf, decide_forwardable_has, bool_decide_true by done. by destruct (p_OKToAuthAsDelegate requester).
Qed.

Lemma check_evidence_pac_Ok ad client (k k' : KDC W) u :
  check_evidence_pac cfg ad client k = (Ok u, k') ->
  k' = k /\ (cfg_IssuePAC cfg = true -> forall blob, extractPAC ad = Some (Some blob) ->
    exists tgt key, st_GetPrincipal (k_st k) (tgsName cfg) = Ok tgt /\ selectKey tgt (cfg_EncTypes cfg) None = Some key /\
      verifyPACKDCSignature blob key = Ok tt).
Proof.
  unfold check_evidence_pac, krbtgtKey. destruct (cfg_IssuePAC cfg); cbn [negb]; [|intros Hr; k_inv; done].
  destruct (extractPAC ad) as [[blob|]|]; intros Hr; k_inv; [|done]. split; [done|]. intros _ blob' [= <-]. destruct u. eauto.
Qed.



(** Validation gives back the very ticket it was given, INVALID cleared and nothing else
    changed, once the start time of the ticket has arrived (the clock skew allowed for). *)
Lemma validateTicket_exact `{!KrbFlagsLaws Kf} (auth : tgsAuth) (body : KDCReqBody) (target : Name) (now : Time)
    (k k' : KDC W) (out : bytes) :
  validateTicket cfg auth body target now k = (Ok out, k') ->
  has (et_Flags (ta_TGT auth)) Invalid = true /\
  (et_StartTime (ta_TGT auth) <> zeroTime -> et_StartTime (ta_TGT auth) <= now + cfg_ClockSkew cfg) /\
  Components target = Components (ta_TicketServer auth) /\
  exists server etp, tgs_issued auth body server target etp out /\
    et_CName etp = PrincipalName_of (ta_Client auth) /\ et_AuthTime etp = et_AuthTime (ta_TGT auth) /\
    et_StartTime etp = et_StartTime (ta_TGT auth) /\ et_EndTime etp = et_EndTime (ta_TGT auth) /\
    et_RenewTill etp = et_RenewTill (ta_TGT auth) /\ et_Transited etp = et_Transited (ta_TGT auth) /\
    et_AuthorizationData etp = et_AuthorizationData (ta_TGT auth) /\
    (forall f, has (et_Flags etp) f = negb (bool_decide (f = Invalid)) && has (et_Flags (ta_TGT auth)) f).
Proof.
  unfold validateTicket. intros Hr. k_inv. simp_bool.
  match goal with H : Equal _ _ = true |- _ => apply Equal_spec in H as [Hc _] end.
  split; [done|]. split.
  { intros Hz. match goal with H : negb (IsZero _) && _ = false |- _ => revert H end.
    unfold IsZero, Before. rewrite (proj2 (Z.eqb_neq _ _) Hz). cbn. intros. simp_bool. lia. }
  split; [done|].
  apply finishTicket_Ok in Hr as (etp & Hi & Hf & Hn1 & _ & Htr & Hau & Hst & He & Hrn & Had).
  cbn [fs_Auth fs_Body fs_Server fs_Target fs_Flags fs_Client fs_Transited fs_AuthTime fs_StartTime fs_EndTime fs_RenewTill fs_ReuseAuthz fs_AuthzData] in *.
  eexists _, etp. split_and!; try done; [by auto|]. intros f. rewrite Hf, has_unset, has_copyFlags. by destruct f.
Qed.

(** ** Paths between realms *)

(** A trust of the store that allows clients through in a direction. *)
Definition trusts_realm (w : W) (realm : string) (d : TrustDirection) (t : Trust) : Prop :=
  st_GetTrust w (ToUpper realm) = Ok t /\ Allows t d = true.

Lemma checkOutboundTrust_Ok r (k k' : KDC W) u :
  checkOutboundTrust r k = (Ok u, k') -> k' = k /\ exists t, trusts_realm (k_st k) r TrustOutbound t.
Proof. unfold checkOutboundTrust, trusts_realm. intros Hr. k_inv. simp_bool. eauto. Qed.

Lemma referralName_Ok r (k k' : KDC W) n :
  referralName cfg r k = (Ok n, k') ->
  k' = k /\ n = mkName ["krbtgt"; ToUpper r] (cfg_Realm cfg) /\ exists t, trusts_realm (k_st k) r TrustOutbound t.
Proof.
  unfold referralName. intros Hr. k_inv.
  match goal with H : checkOutboundTrust _ _ = _ |- _ => apply checkOutboundTrust_Ok in H as [-> (t & Ht)] end.
  split_and!; [done|done|]. exists t. unfold trusts_realm in *. by rewrite ToUpper_idemp in Ht.
Qed.

Lemma realmForHostBasedName_Ok target (k k' : KDC W) o : realmForHostBasedName target k = (Ok o, k') -> k' = k.
Proof. unfold realmForHostBasedName. repeat case_match; naive_solver. Qed.

(** Where a ticket leads: to a service of this realm, or to the ticket-granting service of a realm
    this one sends clients to. *)
Definition leads_to (w : W) (target target' : Name) : Prop :=
  (target' = target /\ EqualFold (Realm target) (cfg_Realm cfg) = true /\
   (IsTGS target = true -> exists c0 c1, Components target = [c0; c1] /\ EqualFold c1 (cfg_Realm cfg) = true)) \/
  (exists r t, Components target' = ["krbtgt"; r] /\ Realm target' = cfg_Realm cfg /\ trusts_realm w r TrustOutbound t).

(** The path a ticket records when its client came through another realm. *)
Definition path_of (auth : tgsAuth) (client : Name) (source : EncTicketPart) : TransitedEncoding :=
  let issuing := ToUpper (Realm (ta_TicketServer auth)) in
  if negb (String.eqb issuing (ToUpper (Realm client))) && negb (String.eqb issuing (ToUpper (cfg_Realm cfg)))
  then appendTransited (et_Transited source) issuing else et_Transited source.

Lemma transitedFor_Ok spec source (k k' : KDC W) tr :
  transitedFor cfg spec k = (Ok tr, k') -> is_SourceTGT spec = Some source ->
  if ta_CrossRealm (is_Auth spec) then
    tr = path_of (is_Auth spec) (is_Client spec) source /\
    exists t, trusts_realm (k_st k) (Realm (ta_TicketServer (is_Auth spec))) TrustInbound t /\
      (Contents (et_Transited source) <> [] -> t_Transitive t = true)
  else tr = et_Transited source.
Proof.
  unfold transitedFor, trusts_realm, path_of. intros Hr Hs. rewrite Hs in Hr. destruct (ta_CrossRealm (is_Auth spec)); cbn [negb] in Hr; k_inv; [|done].
  simp_bool. split; [done|]. eexists. split; [split; eassumption|]. intros Hc.
  destruct (Contents (et_Transited source)); [done|]. match goal with H : _ && negb (t_Transitive ?t) = false |- _ => by destruct (t_Transitive t) end.
Qed.

Lemma serviceTicket_target auth body target now (k k' : KDC W) out :
  serviceTicket cfg auth body target now k = (Ok out, k') ->
  exists target', leads_to (k_st k) target target' /\
    issueTicket cfg (mkIssueSpec auth body (ta_Client auth) target' now (Some (ta_TGT auth)) forwardableAsRequested None) k = (Ok out, k').
Proof.
  unfold serviceTicket. set (remote := match Components target with [_; c1] => _ | _ => _ end). intros Hr. k_inv.
  match goal with H : _ k = (Ok ?t, ?st) |- _ => rename t into target', H into Hpick end. exists target'.
  assert (Hlocal : remote = None -> EqualFold (Realm target) (cfg_Realm cfg) = true -> leads_to (k_st k) target target).
  { intros Hn Hre. left. split_and!; [done|done|]. intros Htgs. revert Hn. unfold remote, IsTGS in *.
    destruct (Components target) as [|c0 [|c1 [|]]]; try done. rewrite Htgs. destruct (EqualFold c1 (cfg_Realm cfg)) eqn:E1; [eauto|done]. }
  destruct remote as [c1|] eqn:Er.
  - k_inv. match goal with H : checkOutboundTrust _ _ = _ |- _ => apply checkOutboundTrust_Ok in H as [-> (t & Ht)] end.
    split; [|done]. right. exists c1, t. revert Er. unfold remote, IsTGS. destruct (Components target) as [|c0 [|c [|]]]; try done.
    destruct (String.eqb c0 "krbtgt") eqn:E0; [|done]. cbn [andb]. destruct (negb _); [|done]. intros [= ->]. simp_bool. subst. done.
  - destruct (EqualFold (Realm target) (cfg_Realm cfg)) eqn:Ee; cbn [negb] in Hpick; k_inv.
    + match goal with H : realmForHostBasedName _ _ = (Ok ?o, _) |- _ => apply realmForHostBasedName_Ok in H as ->; destruct o as [r|] end; k_inv.
      * apply referralName_Ok in Hpick as (-> & -> & t & Ht). split; [|done]. right. exists (ToUpper r), t. unfold trusts_realm in *. by rewrite ToUpper_idemp.
      * split; [by apply Hlocal|done].
    + apply referralName_Ok in Hpick as (-> & -> & t & Ht). split; [|done]. right. exists (ToUpper (Realm target)), t. unfold trusts_realm in *. by rewrite ToUpper_idemp.
Qed.

(** No ticket crosses a realm without a trust. A ticket for another realm's ticket-granting
    service is issued only where this realm has an enabled trust that sends clients there; a client
    that came through another realm is served only where an enabled trust accepts clients from it,
    and one that came through more than one only where that trust is transitive; and the realm it
    came from is recorded in the path. *)
Lemma serviceTicket_paths `{!KdcStoreLaws Ks} (auth : tgsAuth) (body : KDCReqBody) (target : Name) (now : Time)
    (k k' : KDC W) (out : bytes) :
  serviceTicket cfg auth body target now k = (Ok out, k') ->
  exists target' server name etp, leads_to (k_st k) target target' /\ st_GetPrincipal (k_st k) target' = Ok server /\
    tgs_issued auth body server name etp out /\
    if ta_CrossRealm auth then
      et_Transited etp = path_of auth (ta_Client auth) (ta_TGT auth) /\
      exists t, trusts_realm (k_st k) (Realm (ta_TicketServer auth)) TrustInbound t /\
        (Contents (et_Transited (ta_TGT auth)) <> [] -> t_Transitive t = true)
    else et_Transited etp = et_Transited (ta_TGT auth).
Proof.
  intros (target' & Hl & Hr)%serviceTicket_target.
  apply issueTicket_Ok in Hr as (server & client & t & etp & [[Hs _] _ (name & _ & Hi) _ _ _ _ _ _ _ (k1 & k2 & Htr & Hk1)]).
  exists target', server, name, etp. split_and!; try done.
  apply transitedFor_Ok with (source := ta_TGT auth) in Htr; [|done]. cbn [is_Auth is_Client] in Htr.
  destruct (ta_CrossRealm auth); [|done]. destruct Htr as [Htr (tr & [Hg Ha] & Htt)]. split; [done|]. exists tr. split; [|done]. split; [|done].
  rewrite <- Hg. destruct Hk1 as [->| ->]; by rewrite !Now_GetTrust.
Qed.
End TGSFacts.
