(* ===== verification/NoReplay.v ===== *)
(** * No authenticator is accepted twice

    The replay cache, the clock skew and the exchanges together: between two requests the KDC may
    handle any others, and the second use of an authenticator is refused. *)

From S2P Require Import Prelude Names Keytab Replay Flags Model Messages Ticket Db Directory Pac Sfu Kdc As Tgs Server KdcFacts TgsFacts.

Section NoReplay.
Context {W : Type} `{Ks : KdcStore W, Kf : KrbFlags, El : EncTypeLib, Kl : KrbLib, Pl : PacLib, Sh : Sha256,
  !KdcStoreLaws Ks} (cfg : Config).

(** A computation that lets time pass and forgets no authenticator younger than the window. *)
Definition keeps_young {A} (m : K W A) : Prop := forall k r k', m k = (r, k') ->
  st_lastTime (k_st k) <= st_lastTime (k_st k') /\
  forall key t, entries (k_replay k) !! key = Some t -> st_lastTime (k_st k') <= t + 2 * cfg_ClockSkew cfg ->
    entries (k_replay k') !! key = Some t.

Lemma ky_pure {A} (m : K W A) : (forall k, snd (m k) = k) -> keeps_young m.
Proof. intros Hm k r k' Hr. specialize (Hm k). rewrite Hr in Hm. cbn in Hm. subst. split; [lia|done]. Qed.

Lemma ky_bind {A B} (m : K W A) (f : A -> K W B) : keeps_young m -> (forall a, keeps_young (f a)) -> keeps_young (x ← m; f x).
Proof.
  intros Hm Hf k r k' Hr. unfold mbind, M_bind in Hr. destruct (m k) as [[a|e|] k1] eqn:E; try (injection Hr as <- <-; by eapply Hm).
  apply Hm in E as [E1 E2]. apply Hf in Hr as [H1 H2]. split; [lia|]. intros key t Hk Ht. apply H2; [|done]. apply E2; [done|lia].
Qed.

Lemma ky_ret {A} (a : A) : keeps_young (mret a). Proof. by apply ky_pure. Qed.
Lemma ky_lift {A} (o : outcome protocolError A) : keeps_young (lift o). Proof. by apply ky_pure. Qed.
Lemma ky_throw {A} e : keeps_young (throw (A := A) e). Proof. by apply ky_pure. Qed.
Lemma ky_throw_if b e : keeps_young (throw_if b e). Proof. by apply ky_pure. Qed.
Lemma ky_try {A} e (o : option A) : keeps_young (try e o). Proof. by apply ky_pure. Qed.
Lemma ky_of_pac {A} e (o : outcome PacError A) : keeps_young (of_pac e o). Proof. by apply ky_pure. Qed.
Lemma ky_deny b c n : keeps_young (deny_if b c n). Proof. by apply ky_pure. Qed.
Lemma ky_err_for {A} c n : keeps_young (err_for (A := A) c n). Proof. by apply ky_pure. Qed.
Lemma ky_ask {A} (f : W -> outcome StoreErr A) e1 e2 : keeps_young (ask f e1 e2).
Proof. apply ky_pure. intros k. unfold ask. by destruct (f (k_st k)) as [|[]|]. Qed.
Lemma ky_host target : keeps_young (realmForHostBasedName target).
Proof. apply ky_pure. intros k. unfold realmForHostBasedName. by repeat case_match. Qed.

Lemma ky_now : keeps_young kdc_now.
Proof.
  intros k r k'. unfold kdc_now, on_store. pose proof (Now_time (k_st k)) as Ht. destruct (st_Now (k_st k)). cbn in Ht.
  intros [= <- <-]. cbn. split; [lia|done].
Qed.
Lemma ky_draws n : keeps_young (kdc_draws n).
Proof.
  intros k r k'. unfold kdc_draws, on_store. pose proof (Draws_time n (k_st k)) as Ht. destruct (st_Draws n (k_st k)). cbn in Ht.
  intros [= <- <-]. cbn. split; [lia|done].
Qed.
Lemma ky_record i ok p : keeps_young (record_result i ok p).
Proof.
  intros k r k'. unfold record_result. pose proof (Record_time i ok p (k_st k)) as Ht. destruct (st_RecordAuthResult _ _ _ _) as [x w].
  cbn in Ht. intros [= <- <-]. cbn. split; [lia|done].
Qed.
Lemma ky_as_client {A} n (m : K W A) : keeps_young m -> keeps_young (as_client n m).
Proof. intros Hm k r k'. unfold as_client. destruct (m k) as [[]] eqn:E; intros [= <- <-]; by eapply Hm. Qed.
Lemma ky_seen a : keeps_young (seen_before cfg a).
Proof.
  intros k r k'. unfold seen_before. pose proof (Now_time (k_st k)) as Ht. destruct (st_Now (k_st k)) as [t w]. cbn in Ht.
  destruct (seen _ t a (k_replay k)) as [b c] eqn:Es. intros [= <- <-]. cbn. split; [lia|]. intros key u Hk Hu.
  replace c with (snd (seen (2 * cfg_ClockSkew cfg) t a (k_replay k))) by (by rewrite Es). apply seen_keeps; [done|lia].
Qed.
#[local] Hint Resolve ky_bind ky_ret ky_lift ky_throw ky_throw_if ky_try ky_of_pac ky_deny ky_err_for ky_ask ky_host ky_now ky_draws
  ky_record ky_as_client ky_seen : ldapkdc.

(** Follow the structure of a computation. *)
Ltac young := repeat first
  [ progress (auto with ldapkdc)
  | apply ky_bind; [|intros ?]
  | apply ky_as_client
  | match goal with |- keeps_young (match ?x with _ => _ end) => destruct x end
  | match goal with |- keeps_young (let '(_, _) := ?x in _) => destruct x end ].

Lemma ky_authorizationData c s t d : keeps_young (authorizationData cfg c s t d).
Proof. unfold authorizationData, krbtgtKey. young. Qed.
Lemma ky_mint spec : keeps_young (mint spec).
Proof. unfold mint. young. Qed.
Lemma ky_encrypt p key u v : keeps_young (encrypt p key u v).
Proof. unfold encrypt. young. Qed.
#[local] Hint Resolve ky_authorizationData ky_mint ky_encrypt : ldapkdc.

Lemma ky_handleASReq raw : keeps_young (handleASReq cfg raw).
Proof. unfold handleASReq, issueAS, checkPreAuth, hinted, failed, recordFailure. young. Qed.

Lemma ky_finish spec : keeps_young (finishTicket cfg spec).
Proof. unfold finishTicket, tgsAuthorizationData, krbtgtKey. young. Qed.
Lemma ky_loadTarget t r : keeps_young (loadTarget t r).
Proof. unfold loadTarget. young. Qed.
Lemma ky_loadPolicy n : keeps_young (loadPolicyPrincipal cfg n).
Proof. unfold loadPolicyPrincipal. young. Qed.
#[local] Hint Resolve ky_finish ky_loadTarget ky_loadPolicy : ldapkdc.

Lemma ky_issue spec : keeps_young (issueTicket cfg spec).
Proof. unfold issueTicket, transitedFor. young. Qed.
#[local] Hint Resolve ky_issue : ldapkdc.

Lemma ky_dispatch req auth target now : keeps_young (dispatchTGS cfg req auth target now).
Proof.
  unfold dispatchTGS, renewTicket, validateTicket, s4u2Proxy, check_evidence_pac, krbtgtKey, s4u2Self, serviceTicket, referralName, checkOutboundTrust.
  young.
Qed.
Lemma ky_authenticate req raw now inv : keeps_young (authenticateTGS cfg req raw now inv).
Proof. unfold authenticateTGS. young. Qed.
#[local] Hint Resolve ky_dispatch ky_authenticate : ldapkdc.

Lemma ky_handleTGSReq raw : keeps_young (handleTGSReq cfg raw).
Proof. unfold handleTGSReq. young. Qed.

Lemma ky_Handle raw : keeps_young (Handle cfg raw).
Proof.
  assert (Ht : forall m, keeps_young m -> keeps_young (timed cfg m)).
  { intros m Hm k r k'. unfold timed. destruct (m k) as [[]] eqn:E; intros [= <- <-]; by eapply Hm. }
  unfold Handle. repeat case_match; auto using ky_ret, ky_handleASReq, ky_handleTGSReq.
Qed.

(** One handled request. *)
Definition kstep (k k' : KDC W) : Prop := exists raw r, Handle cfg raw k = (r, k').

Lemma ksteps_young k k' : rtc kstep k k' ->
  st_lastTime (k_st k) <= st_lastTime (k_st k') /\
  forall key t, entries (k_replay k) !! key = Some t -> st_lastTime (k_st k') <= t + 2 * cfg_ClockSkew cfg ->
    entries (k_replay k') !! key = Some t.
Proof.
  induction 1 as [k|k k1 k2 (raw & r & Hs) _ [IH1 IH2]]; [split; [lia|done]|].
  apply ky_Handle in Hs as [H1 H2]. split; [lia|]. intros key t Hk Ht. apply IH2; [|done]. apply H2; [done|lia].
Qed.

(** The two readings of the clock a TGS request makes: on arrival, and at the replay cache. *)
Definition arrival (k : KDC W) : Time := fst (st_Now (k_st k)).
Definition arrived (k : KDC W) : KDC W := mkKDC (snd (st_Now (k_st k))) (k_replay k).
Definition checked (k : KDC W) : Time := fst (st_Now (k_st (arrived k))).

(** The request and the store decide who the requester is and what the authenticator says. *)
Lemma authenticated_unique k req raw1 raw2 n1 n2 i1 i2 a1 a2 au1 au2 :
  tgs_authenticated cfg k req raw1 n1 i1 a1 au1 -> tgs_authenticated cfg k req raw2 n2 i2 a2 au2 -> replay_id a1 au1 = replay_id a2 au2.
Proof.
  intros [(pa & Hp & Ha) Hs _ (p & key & Hg & Hk & Hd) Hc _ _ (pl & Hpl & Hau) _ _ _ _ _ _]
         [(pa' & Hp' & Ha') Hs' _ (p' & key' & Hg' & Hk' & Hd') Hc' _ _ (pl' & Hpl' & Hau') _ _ _ _ _ _].
  assert (pa' = pa) as -> by congruence. assert (Eap : ta_APReq a2 = ta_APReq a1) by congruence. rewrite Eap in *.
  assert (ta_TicketServer a2 = ta_TicketServer a1) as Es by congruence. rewrite Es in *.
  assert (p' = p) as -> by congruence. assert (key' = key) as -> by congruence.
  assert (Et : ta_TGT a2 = ta_TGT a1) by congruence. rewrite Et in *.
  assert (pl' = pl) as -> by congruence. assert (au2 = au1) as -> by congruence.
  unfold replay_id. by rewrite Hc, Hc', Eap.
Qed.

(** An accepted request leaves its authenticator in the cache, and did not find it there. *)
Lemma handleTGSReq_recorded raw (k k' : KDC W) out req auth authn :
  handleTGSReq cfg raw k = (Ok out, k') -> Unmarshal_TGSReq raw = Some req ->
  tgs_authenticated cfg (arrived k) req raw (arrival k) (has (KDCOptions (ReqBody req)) Validate) auth authn ->
  let key := sha256 (authenticator_bytes (replay_id auth authn)) in
  (forall t, entries (k_replay k) !! key = Some t -> t + 2 * cfg_ClockSkew cfg < checked k) /\
  (st_lastTime (k_st k') <= checked k + 2 * cfg_ClockSkew cfg -> entries (k_replay k') !! key = Some (checked k)) /\
  checked k <= st_lastTime (k_st k').
Proof.
  intros Hr Hreq Hau key. unfold handleTGSReq in Hr. k_inv. fold (arrival k) (arrived k) in *.
  match goal with H : Unmarshal_TGSReq raw = Some ?r |- _ => assert (r = req) as -> by congruence end. subst.
  match goal with H : authenticateTGS _ _ _ _ _ _ = (Ok ?a, ?st) |- _ => apply authenticateTGS_Ok in H as (authn' & Hau' & Hns & ->) end.
  rewrite (authenticated_unique _ _ _ _ _ _ _ _ _ _ _ _ Hau' Hau) in *. fold (checked k) in *. cbn [arrived k_replay] in *.
  apply ky_dispatch in Hr as [Ht Hk]. cbn [arrived k_st k_replay] in *.
  pose proof (Now_time (snd (st_Now (k_st k)))) as [_ Hl]. change (fst (st_Now (snd (st_Now (k_st k))))) with (checked k) in Hl.
  split_and!; [|intros Hw; apply Hk; [by apply seen_recorded|done]|lia].
  intros t Hin. destruct (Z.lt_ge_cases (t + 2 * cfg_ClockSkew cfg) (checked k)) as [|Hge]; [done|].
  by rewrite (seen_known _ _ _ _ t) in Hns by (done || lia).
Qed.

(** C2: the KDC never accepts an authenticator a second time, whatever requests it handles in
    between and however its clock advances: the second request would have to arrive while the
    authenticator is recent and so, unless it waits longer between arrival and the check of the
    replay cache than the first did, while the cache still holds it. *)
Theorem TGS_no_replay (raw1 raw2 out1 out2 : bytes) (k0 k1 k2 k3 : KDC W) (req1 req2 : KDCReq)
    (auth1 auth2 : tgsAuth) (authn1 authn2 : Authenticator) :
  0 <= cfg_ClockSkew cfg < max_int64 ->
  handleTGSReq cfg raw1 k0 = (Ok out1, k1) -> rtc kstep k1 k2 -> handleTGSReq cfg raw2 k2 = (Ok out2, k3) ->
  Unmarshal_TGSReq raw1 = Some req1 -> Unmarshal_TGSReq raw2 = Some req2 ->
  tgs_authenticated cfg (arrived k0) req1 raw1 (arrival k0) (has (KDCOptions (ReqBody req1)) Validate) auth1 authn1 ->
  tgs_authenticated cfg (arrived k2) req2 raw2 (arrival k2) (has (KDCOptions (ReqBody req2)) Validate) auth2 authn2 ->
  checked k2 - arrival k2 <= checked k0 - arrival k0 ->
  replay_id auth1 authn1 <> replay_id auth2 authn2.
Proof.
  intros Hskew H1 Hsteps H2 Hr1 Hr2 Ha1 Ha2 Hdelay Heq.
  apply ksteps_young in Hsteps as [Hle Hyoung].
  destruct (handleTGSReq_recorded _ _ _ _ _ _ _ H1 Hr1 Ha1) as (_ & Hrec & _).
  destruct (handleTGSReq_recorded _ _ _ _ _ _ _ H2 Hr2 Ha2) as (Hold & _ & _). rewrite <- Heq in Hold.
  pose proof (au_ok_skew _ _ _ _ _ _ _ _ Ha1) as S1. pose proof (au_ok_skew _ _ _ _ _ _ _ _ Ha2) as S2.
  apply skewed_false in S1, S2; [|done..].
  assert (Hct : au_CTime authn2 = au_CTime authn1) by (symmetry; by apply (f_equal a_ctime) in Heq).
  pose proof (Now_time (k_st k2)) as [T1 _]. fold (arrival k2) in T1.
  assert (T2 : arrival k0 <= checked k0).
  { unfold arrival. pose proof (Now_time (k_st k0)) as [_ <-]. apply (Now_time (k_st (arrived k0))). }
  assert (Hin : entries (k_replay k2) !! sha256 (authenticator_bytes (replay_id auth1 authn1)) = Some (checked k0)).
  { apply Hyoung; [apply Hrec|]; lia. }
  apply Hold in Hin. lia.
Qed.
End NoReplay.
