(* ===== verification/KdcSample.v ===== *)
(** * A realm to run the KDC on

    A store with a user, a service and the ticket-granting principals, and a Kerberos library that
    answers from a script; the exchanges run on it, and their properties are applied to the runs. *)

From S2P Require Import Prelude Names Keytab Replay Flags Model Messages Ticket Secret Db Principals PrincipalFacts Directory Pac PacFacts Sfu Kdc As Tgs Server KdcFacts AsFacts TgsFacts NoReplay.

(** What the library reads out of the messages of a run. *)
Record script : Type := mkScript {
  sc_options : BitString;
  sc_padata : Z;
  sc_sname : list string;
  sc_tgt : EncTicketPart;
  sc_ticket_server : list string;
  sc_ticket_realm : string;
  sc_evidence : EncTicketPart;
  sc_ctime : Time;
}.

Definition sample_req (sc : script) (raw : bytes) : KDCReq :=
  mkKDCReq [mkPAData PA_ENC_TIMESTAMP raw; mkPAData PA_TGS_REQ raw; mkPAData (sc_padata sc) raw]
    (mkKDCReqBody (sc_options sc) (mkPrincipalName 1 ["alice"]) "EXAMPLE.COM" (mkPrincipalName 2 (sc_sname sc)) zeroTime
       (sc_ctime sc + 4 * hour) zeroTime 7 (Some [18; 17]) []
       [mkTicket 5 "EXAMPLE.COM" (mkPrincipalName 2 ["http"; "web"]) (mkEncryptedData 18 1 [Byte.xee])]).

(** Ciphertexts are their plaintexts; the authenticator of a request tells its length. *)
Definition toy_krb (sc : script) : KrbLib := {|
  Unmarshal_ASReq := fun raw => Some (sample_req sc raw);
  Unmarshal_TGSReq := fun raw => Some (sample_req sc raw);
  Unmarshal_APReq := fun b => Some (mkAPReq
    (mkTicket 5 (sc_ticket_realm sc) (mkPrincipalName 2 (sc_ticket_server sc)) (mkEncryptedData 18 1 [Byte.x99])) (mkEncryptedData 18 0 b));
  Unmarshal_Authenticator := fun b => Some (mkAuthenticatorMsg (et_CRealm (sc_tgt sc)) (et_CName (sc_tgt sc))
    (mkChecksum 16 [Byte.x01]) (zlen b) (sc_ctime sc) (mkEncryptionKey 0 []));
  Unmarshal_PAEncTimestamp := fun b => Some (mkEncryptedData 18 1 b);
  Unmarshal_PAEncTSEnc := fun _ => Some (sc_ctime sc);
  Unmarshal_AuthorizationData := fun _ => None;
  Unmarshal_paForUser := fun _ => Some (mkPaForUser (mkPrincipalName 1 ["alice"]) "EXAMPLE.COM" (mkChecksum 16 [Byte.x01]) "Kerberos");
  Marshal_EncTicketPart := fun _ => Some [Byte.x03];
  Marshal_EncKDCRepPart := fun _ => Some [Byte.x19];
  Marshal_ASRep := fun _ => Some [Byte.x0b];
  Marshal_TGSRep := fun _ => Some [Byte.x0d];
  Marshal_MethodData := fun _ => Some [];
  Marshal_ETypeInfo2 := fun _ => Some [];
  Marshal_AuthorizationData := fun _ => Some [];
  Marshal_KRBError := fun _ => Some [Byte.x1e];
  Unmarshal_RawValue := fun _ => Some (true, KRB_TGS_REQ);
  Unmarshal_ReqBody := fun b => Some b;
  AddASNAppTag := fun b t => byte_of_Z t :: b;
  GenerateEncryptionKey := fun n e => Some (mkEncryptionKey e (put_be 4 (Z.of_nat n)));
  GetEncryptedData := fun _ b key _ kvno => Some (mkEncryptedData (KeyType key) kvno b);
  DecryptEncPart := fun ed _ _ => Some (ed_Cipher ed);
  Ticket_Decrypt := fun t _ => Some (if bool_decide (ed_Cipher (tkt_EncPart t) = [Byte.xee]) then sc_evidence sc else sc_tgt sc);
  GetChecksumEType := fun _ => true;
  VerifyChecksum := fun _ _ _ _ _ => true;
  PrincipalName_Equal := fun a b => bool_decide (NameString a = NameString b);
|}.

#[export] Instance toy_krb_laws sc : KrbLibLaws (toy_krb sc).
Proof. split; [|done|done]. intros a b. apply bool_decide_eq_true. Qed.

Definition toy_sha : Sha256 := fun b => b.

#[export] Instance sample_clock_monotone : MonotoneClock sample_clock.
Proof. intros i j Hij. unfold clock, sample_clock, UnixTime, second. lia. Qed.

Section Sample.
#[local] Existing Instance sample_clock.
#[local] Existing Instance toy_rand.
#[local] Existing Instance toy_aead.
#[local] Existing Instance toy_enctypes.
#[local] Existing Instance toy_pac.
#[local] Existing Instance rfc_flags.
#[local] Existing Instance toy_sha.

Definition add_principal (name : string) (targets : list string) (s : St) : St :=
  snd (CreatePrincipal (with_lists targets [] [] (with_keys [] (sample_principal 0 name Byte.x00))) (sample_keys Byte.x01) s).

(** The realm: a user, a service that may delegate to another, the ticket-granting services of this
    realm and of one it trusts. *)
Definition realm_store : St :=
  let s := foldl (fun s n => add_principal n [] s) empty_state ["alice"; "krbtgt/EXAMPLE.COM"; "krbtgt/PARTNER.COM"; "db/data"] in
  snd (CreateTrust (mkTrust 0 "PARTNER.COM" TrustBidirectional true true 0 0) (add_principal "http/web" ["db/data"] s)).

Definition kdc0 : KDC St := newServer realm_store.
Definition t0 : Time := UnixTime 1700000010.

Definition tkt_for (cname : list string) (crealm : string) (flags : BitString) : EncTicketPart :=
  mkEncTicketPart flags (mkEncryptionKey 18 [Byte.x55]) crealm (mkPrincipalName 1 cname) (mkTransitedEncoding 0 [])
    (t0 - hour) (t0 - hour) (t0 + hour) (t0 + 100 * hour) [] [].

Definition no_flags : BitString := NewKrbFlags.
Definition flags_of (fs : list Flag) : BitString := foldr set NewKrbFlags fs.

(** A script for each kind of request. *)
Definition base (options : list Flag) (pa : Z) (sname : list string) (tgt : EncTicketPart) : script :=
  mkScript (flags_of options) pa sname tgt ["krbtgt"; "EXAMPLE.COM"] "EXAMPLE.COM"
    (tkt_for ["alice"] "EXAMPLE.COM" (flags_of [Forwardable])) t0.

Definition plain_sc : script := base [Forwardable] 0 ["http"; "web"] (tkt_for ["alice"] "EXAMPLE.COM" (flags_of [Forwardable; PreAuthent; Initial])).
Definition as_sc : script := base [] 0 ["krbtgt"; "EXAMPLE.COM"] (tkt_for ["alice"] "EXAMPLE.COM" no_flags).
Definition renew_sc : script := base [Renew] 0 ["krbtgt"; "EXAMPLE.COM"] (tkt_for ["alice"] "EXAMPLE.COM" (flags_of [Renewable; Initial])).
Definition validate_sc : script := base [Validate] 0 ["krbtgt"; "EXAMPLE.COM"] (tkt_for ["alice"] "EXAMPLE.COM" (flags_of [Invalid; Initial])).
Definition self_sc : script := base [Forwardable] PA_FOR_USER ["http"; "web"] (tkt_for ["http"; "web"] "EXAMPLE.COM" no_flags).
Definition proxy_sc : script := base [CNameInAddlTkt] 0 ["db"; "data"] (tkt_for ["http"; "web"] "EXAMPLE.COM" no_flags).

Abbreviation run_tgs sc raw := (handleTGSReq (W := St) (H2 := toy_krb sc) sample_cfg raw).
Abbreviation run_as sc raw := (handleASReq (W := St) (H2 := toy_krb sc) sample_cfg raw).

Example tgs_runs :
  (fst ∘ (fun sc => run_tgs sc [Byte.x00] kdc0)) <$> [plain_sc; renew_sc; validate_sc; self_sc; proxy_sc]
  = replicate 5 (Ok [Byte.x0d]).
Proof. vm_compute. reflexivity. Qed.


(** ** The properties at these runs *)

(** The requester behind a presented ticket. *)
Definition auth_of (sc : script) : tgsAuth :=
  let t := sc_tgt sc in
  mkTgsAuth (mkAPReq (mkTicket 5 (sc_ticket_realm sc) (mkPrincipalName 2 (sc_ticket_server sc)) (mkEncryptedData 18 1 [Byte.x99]))
               (mkEncryptedData 18 0 [])) t
    (mkName (sc_ticket_server sc) (sc_ticket_realm sc)) (NameFromPrincipalName (et_CName t) (et_CRealm t))
    (et_Key t) (et_Key t) TGS_REP_ENCPART_SESSION_KEY (negb (String.eqb (sc_ticket_realm sc) "EXAMPLE.COM")).

Definition body_of (sc : script) : KDCReqBody := ReqBody (sample_req sc []).
Definition target_for (sc : script) : Name := mkName (sc_sname sc) "EXAMPLE.COM".

(** A client of the trusted realm asks for a service of this one. *)
Definition cross_sc : script :=
  mkScript no_flags 0 ["http"; "web"] (tkt_for ["carol"] "PARTNER.COM" no_flags) ["krbtgt"; "EXAMPLE.COM"] "PARTNER.COM"
    (tkt_for ["alice"] "EXAMPLE.COM" no_flags) t0.

Lemma split_run {A B} (m : A * B) a : fst m = a -> m = (a, snd m).
Proof. by destruct m; intros <-. Qed.

(** The runs of the handlers themselves. *)
Abbreviation run_service sc := (serviceTicket (H2 := toy_krb sc) sample_cfg (auth_of sc) (body_of sc) (target_for sc) t0 kdc0).
Abbreviation run_self := (s4u2Self (H2 := toy_krb self_sc) sample_cfg (auth_of self_sc) (mkPAData PA_FOR_USER []) (body_of self_sc) (target_for self_sc) t0 kdc0).
Abbreviation run_proxy := (s4u2Proxy (H2 := toy_krb proxy_sc) sample_cfg (auth_of proxy_sc) (body_of proxy_sc) (target_for proxy_sc) t0 kdc0).
Abbreviation run_renew := (renewTicket (H2 := toy_krb renew_sc) sample_cfg (auth_of renew_sc) (body_of renew_sc) (target_for renew_sc) t0 kdc0).
Abbreviation run_validate := (validateTicket (H2 := toy_krb validate_sc) sample_cfg (auth_of validate_sc) (body_of validate_sc) (target_for validate_sc) t0 kdc0).
Definition kdc1 : KDC St := snd (run_tgs plain_sc [Byte.x00] kdc0).

Lemma as_run : exists k', run_as as_sc [Byte.x00] kdc0 = (Ok [Byte.x0b], k').
Proof. eexists. apply split_run. vm_compute. reflexivity. Qed.
Lemma tgs_run : run_tgs plain_sc [Byte.x00] kdc0 = (Ok [Byte.x0d], kdc1).
Proof. unfold kdc1. apply split_run. vm_compute. reflexivity. Qed.
Lemma tgs_run_ok : exists k', run_tgs plain_sc [Byte.x00] kdc0 = (Ok [Byte.x0d], k').
Proof. eexists. apply split_run. vm_compute. reflexivity. Qed.
Lemma second_run : exists k', run_tgs plain_sc [Byte.x00; Byte.x00] kdc1 = (Ok [Byte.x0d], k').
Proof. eexists. apply split_run. vm_compute. reflexivity. Qed.
Lemma service_run : exists k', run_service plain_sc = (Ok [Byte.x0d], k').
Proof. eexists. apply split_run. vm_compute. reflexivity. Qed.
Lemma cross_run : exists k', run_service cross_sc = (Ok [Byte.x0d], k').
Proof. eexists. apply split_run. vm_compute. reflexivity. Qed.
Lemma self_run : exists k', run_self = (Ok [Byte.x0d], k').
Proof. eexists. apply split_run. vm_compute. reflexivity. Qed.
Lemma proxy_run : exists k', run_proxy = (Ok [Byte.x0d], k').
Proof. eexists. apply split_run. vm_compute. reflexivity. Qed.
Lemma renew_run : exists k', run_renew = (Ok [Byte.x0d], k').
Proof. eexists. apply split_run. vm_compute. reflexivity. Qed.
Lemma validate_run : exists k', run_validate = (Ok [Byte.x0d], k').
Proof. eexists. apply split_run. vm_compute. reflexivity. Qed.
Lemma delays : (checked kdc1 - arrival kdc1 <=? checked kdc0 - arrival kdc0) = true.
Proof. vm_compute. reflexivity. Qed.

(** The same request a second time. *)
Example replayed : fst (run_tgs plain_sc [Byte.x00] kdc1) = Err (withClient (krbErr KRB_AP_ERR_REPEAT) alice).
Proof. vm_compute. reflexivity. Qed.



Lemma AS_obeys_policy_witness :
  exists out k' i, run_as as_sc [Byte.x00] kdc0 = (Ok out, k') /\
    et_EndTime (ai_etp i) - et_StartTime (ai_etp i) <= 10 * hour.
Proof.
  destruct as_run as [k' Hrun].
  destruct (AS_obeys_policy (Kl := toy_krb as_sc) sample_cfg [Byte.x00] [Byte.x0b] kdc0 k') as (i & _ & _ & _ & Hl & _).
  - vm_compute. reflexivity.
  - exact Hrun.
  - eexists _, _, i. split; [exact Hrun|exact Hl].
Defined.

Lemma TGS_authenticates_witness :
  exists out k' auth, run_tgs plain_sc [Byte.x00] kdc0 = (Ok out, k') /\ IsTGS (ta_TicketServer auth) = true.
Proof.
  destruct tgs_run_ok as [k' Hrun].
  destruct (TGS_authenticates (Kl := toy_krb plain_sc) sample_cfg [Byte.x00] [Byte.x0d] kdc0 k' Hrun) as (req & auth & authn & _ & Ha).
  eexists _, _, auth. split; [exact Hrun|]. exact (au_ok_tgs _ _ _ _ _ _ _ _ Ha).
Defined.


Lemma serviceTicket_paths_witness :
  exists out k' t, run_service cross_sc = (Ok out, k') /\
    trusts_realm (k_st kdc0) "PARTNER.COM" TrustInbound t.
Proof.
  destruct cross_run as [k' Hrun].
  destruct (serviceTicket_paths (Kl := toy_krb cross_sc) (KdcStoreLaws0 := store_kdc_laws) sample_cfg _ _ _ _ _ _ _ Hrun)
    as (_ & _ & _ & etp & _ & _ & _ & _ & t & Ht & _).
  eexists _, _, t. split; [exact Hrun|exact Ht].
Defined.

Lemma S4U2Self_constrained_witness :
  exists out k' etp, run_self = (Ok out, k') /\
    NameString (et_CName etp) = ["alice"].
Proof.
  destruct self_run as [k' Hrun].
  destruct (S4U2Self_constrained (Kl := toy_krb self_sc) (KrbFlagsLaws0 := rfc_flags_laws) sample_cfg _ _ _ _ _ _ _ _ Hrun)
    as (_ & _ & _ & pfu & _ & _ & _ & _ & etp & Hpfu & _ & _ & _ & _ & _ & _ & _ & Hn & _).
  eexists _, _, etp. split; [exact Hrun|]. rewrite Hn. injection Hpfu as <-. reflexivity.
Defined.



Lemma validateTicket_exact_witness :
  exists out k' etp, run_validate = (Ok out, k') /\
    has (et_Flags etp) Invalid = false /\ has (et_Flags etp) Initial = true.
Proof.
  destruct validate_run as [k' Hrun].
  destruct (validateTicket_exact (Kl := toy_krb validate_sc) (KrbFlagsLaws0 := rfc_flags_laws) sample_cfg _ _ _ _ _ _ _ Hrun)
    as (_ & _ & _ & server & etp & _ & _ & _ & _ & _ & _ & _ & _ & Hf).
  eexists _, _, etp. split; [exact Hrun|]. rewrite !Hf. split; vm_compute; reflexivity.
Defined.

Lemma TGS_no_replay_witness :
  exists out1 out2 k2 auth1 auth2 authn1 authn2,
    run_tgs plain_sc [Byte.x00] kdc0 = (Ok out1, kdc1) /\ run_tgs plain_sc [Byte.x00; Byte.x00] kdc1 = (Ok out2, k2) /\
    replay_id auth1 authn1 <> replay_id auth2 authn2.
Proof.
  pose proof tgs_run as H1. destruct second_run as [k2 H2].
  destruct (handleTGSReq_run (Kl := toy_krb plain_sc) sample_cfg _ _ _ _ H1) as (req1 & auth1 & authn1 & _ & Hq1 & Ha1 & _).
  destruct (handleTGSReq_run (Kl := toy_krb plain_sc) sample_cfg _ _ _ _ H2) as (req2 & auth2 & authn2 & _ & Hq2 & Ha2 & _).
  eexists _, _, k2, auth1, auth2, authn1, authn2. split; [exact H1|]. split; [exact H2|].
  apply (TGS_no_replay (Kl := toy_krb plain_sc) (KdcStoreLaws0 := store_kdc_laws) sample_cfg [Byte.x00] [Byte.x00; Byte.x00] [Byte.x0d] [Byte.x0d] kdc0 kdc1 kdc1 k2 req1 req2).
  - split; [apply Z.leb_le|apply Z.ltb_lt]; vm_compute; reflexivity.
  - exact H1.
  - apply rtc_refl.
  - exact H2.
  - exact Hq1.
  - exact Hq2.
  - exact Ha1.
  - exact Ha2.
  - apply Z.leb_le. exact delays.
Defined.
End Sample.
