(* ===== verification/Kpasswd.v ===== *)
(** * The password service: package [kpasswd], server.go

    RFC 3244: the framing of its messages, the authentication of a request by a fresh ticket for
    [kadmin/changepw], and the change of the requester's own password on both sides of the store. *)

From S2P Require Import Prelude Names Keytab Flags Model Messages Ticket Secret IdRange Sfu Db Principals PrincipalFacts Directory DirectoryFacts Accounts PacFacts KdcSample.

Definition resultSuccess : Z := 0.
Definition resultMalformed : Z := 1.
Definition resultHardError : Z := 2.
Definition resultAuthError : Z := 3.
Definition resultSoftError : Z := 4.
Definition resultAccessDenied : Z := 5.
Definition resultBadVersion : Z := 6.
Definition resultInitialFlagNeeded : Z := 7.

Definition versionChangePassword : Z := 0x0001.
Definition versionSetPassword : Z := 0xff80.
Definition AP_REP_ENCPART : Z := 12.

(** [Config] of the service. *)
Record KpConfig : Type := mkKpConfig {
  kp_Realm : string;
  kp_ClockSkew : Duration;
  kp_EncTypes : list Z;
  kp_MinPasswordLength : Z;
  kp_HashCost : Z;
}.

(** [changePasswdData]. *)
Record changePasswdData : Type := mkChangePasswdData {
  NewPasswd : bytes; TargName : PrincipalName; TargRealm : string }.

(** What the service uses of the Kerberos library beyond the KDC. *)
Class KpLib : Type := {
  DecryptAuthenticator : APReq -> EncryptionKey -> option Authenticator;
  (** [KRBPriv.Unmarshal], and [DecryptEncPart] to the user data *)
  Unmarshal_KRBPriv : bytes -> option EncryptedData;
  DecryptPriv : EncryptedData -> EncryptionKey -> option bytes;
  Unmarshal_changePasswdData : bytes -> option changePasswdData;
  Marshal_EncAPRepPart : Time -> Z -> Z -> option bytes;
  Marshal_APRep : EncryptedData -> option bytes;
  (** [NewKRBPriv], [EncryptEncPart] and [Marshal] of a message with the user data, the time, the
      microseconds, the sequence number and the sender *)
  Seal_KRBPriv : nat -> bytes -> Time -> Z -> Z -> HostAddress -> EncryptionKey -> option bytes;
  (** a KRB-ERROR of the service with the text and the data *)
  Marshal_KpError : string -> string -> bytes -> option bytes;
}.

(** ** Framing *)

Inductive FrameError : Type := TooShort | WrongLength (declared carried : Z) | PastEnd.

Definition frame_text (e : FrameError) : string :=
  match e with
  | TooShort => "message is too short"
  | WrongLength d c => "message declares " +:+ pretty d +:+ " bytes but carries " +:+ pretty c
  | PastEnd => "AP-REQ length runs past the end of the message"
  end.

Definition parseRequest (b : bytes) : outcome FrameError (Z * bytes * bytes) :=
  if (List.length b <? 6)%nat then Err TooShort
  else
    let length := get_be (take 2 b) in
    if negb (length =? zlen b) then Err (WrongLength length (zlen b))
    else
      let version := get_be (take 2 (drop 2 b)) in
      let apReqLen := get_be (take 2 (drop 4 b)) in
      if zlen b - 6 <? apReqLen then Err PastEnd
      else Ok (version, take (Z.to_nat apReqLen) (drop 6 b), drop (6 + Z.to_nat apReqLen) b).

Definition assemble (version : Z) (apRep rest : bytes) : bytes :=
  let total := (6 + List.length apRep + List.length rest)%nat in
  put_be 2 (wrap 16 (Z.of_nat total)) ++ put_be 2 version ++ put_be 2 (wrap 16 (zlen apRep)) ++ apRep ++ rest.

(** The three two-byte fields a message starts with. *)
Lemma frame_fields (p1 p2 p3 x : bytes) :
  List.length p1 = 2%nat -> List.length p2 = 2%nat -> List.length p3 = 2%nat ->
  let b := p1 ++ p2 ++ p3 ++ x in
  take 2 b = p1 /\ take 2 (drop 2 b) = p2 /\ take 2 (drop 4 b) = p3 /\ drop 6 b = x.
Proof.
  destruct p1 as [|? [|? [|]]], p2 as [|? [|? [|]]], p3 as [|? [|? [|]]]; done.
Qed.

Lemma frame_split (b : bytes) :
  (6 <= List.length b)%nat -> b = take 2 b ++ take 2 (drop 2 b) ++ take 2 (drop 4 b) ++ drop 6 b.
Proof.
  do 6 (destruct b as [|? b]; [simpl; lia|]). intros _. done.
Qed.

Lemma put_get_be_take n (b : bytes) : List.length b = n -> put_be n (get_be b) = b.
Proof. intros <-. apply put_get_be. Qed.

(** The framing of RFC 3244 is lossless both ways: a message that fits its 16-bit length parses
    to the parts it was assembled from, and what parses is exactly the assembly of its parts. *)
Lemma parse_assemble (version : Z) (ap rest b : bytes) :
  0 <= version < 2 ^ 16 ->
  (6 + zlen ap + zlen rest < 2 ^ 16 -> parseRequest (assemble version ap rest) = Ok (version, ap, rest)) /\
  (parseRequest b = Ok (version, ap, rest) -> assemble version ap rest = b).
Proof.
  intros Hv. split.
  - intros Hl. unfold assemble, parseRequest, zlen in *.
    set (p1 := put_be 2 (wrap 16 _)). set (p2 := put_be 2 version). set (p3 := put_be 2 (wrap 16 _)).
    assert (Hp : List.length p1 = 2%nat /\ List.length p2 = 2%nat /\ List.length p3 = 2%nat) by (by split_and!; apply length_put_be).
    destruct Hp as (H1 & H2 & H3). destruct (frame_fields p1 p2 p3 (ap ++ rest) H1 H2 H3) as (-> & -> & -> & E6).
    rewrite <- drop_drop, E6, !length_app, H1, H2, H3.
    destruct (Nat.ltb_spec (2 + (2 + (2 + (List.length ap + List.length rest)))) 6); [lia|].
    subst p1 p2 p3. rewrite !get_put_be, !wrap_small by lia. change (256 ^ Z.of_nat 2) with (2 ^ 16). rewrite !Z.mod_small by lia.
    destruct (Z.eqb_spec (Z.of_nat (6 + List.length ap + List.length rest)) (Z.of_nat (2 + (2 + (2 + (List.length ap + List.length rest)))))); [|lia].
    cbn [negb]. rewrite (proj2 (Z.ltb_ge _ _)) by lia. rewrite Nat2Z.id, take_app_length, drop_app_length. done.
  - unfold parseRequest. destruct (Nat.ltb_spec (List.length b) 6) as [|Hb]; [done|].
    destruct (Z.eqb_spec (get_be (take 2 b)) (zlen b)) as [Hl|]; cbn [negb]; [|done].
    destruct (Z.ltb_spec (zlen b - 6) (get_be (take 2 (drop 4 b)))) as [|Ha]; [done|]. intros Heq.
    assert (E1 : get_be (take 2 (drop 2 b)) = version) by congruence.
    assert (E2 : take (Z.to_nat (get_be (take 2 (drop 4 b)))) (drop 6 b) = ap) by congruence.
    assert (E3 : drop (6 + Z.to_nat (get_be (take 2 (drop 4 b)))) b = rest) by congruence. clear Heq.
    pose proof (get_be_range (take 2 b)) as R1. pose proof (get_be_range (take 2 (drop 4 b))) as R3.
    rewrite length_take, Nat.min_l in R1 by lia. rewrite length_take, length_drop, Nat.min_l in R3 by lia.
    set (n := Z.to_nat (get_be (take 2 (drop 4 b)))) in *. unfold zlen in *.
    assert (Hap : List.length ap = n) by (rewrite <- E2, length_take, length_drop; lia).
    assert (Hrest : List.length rest = (List.length b - 6 - n)%nat) by (rewrite <- E3, length_drop; lia).
    unfold assemble, zlen. rewrite Hap, Hrest.
    replace (Z.of_nat (6 + n + (List.length b - 6 - n))) with (get_be (take 2 b)) by lia.
    replace (Z.of_nat n) with (get_be (take 2 (drop 4 b))) by lia. change (256 ^ Z.of_nat 2) with (2 ^ 16) in *.
    rewrite !wrap_small by lia. rewrite <- E1, !put_get_be_take by (rewrite length_take, ?length_drop; lia).
    transitivity (take 2 b ++ take 2 (drop 2 b) ++ take 2 (drop 4 b) ++ drop 6 b); [|by rewrite <- frame_split].
    do 3 f_equal. rewrite <- E2, <- E3, <- drop_drop. apply take_drop.
Qed.

Lemma parse_assemble_witness :
  parseRequest (assemble versionChangePassword [Byte.x01; Byte.x02] [Byte.x03]) = Ok (versionChangePassword, [Byte.x01; Byte.x02], [Byte.x03]).
Proof.
  apply (parse_assemble versionChangePassword [Byte.x01; Byte.x02] [Byte.x03] []).
  - unfold versionChangePassword. lia.
  - vm_compute. reflexivity.
Defined.

(** ** The service *)

(** A refusal: the result code, the text, and what a reply can be sealed with once the requester is
    known: the AP-REP, the key and the sequence number. *)
Record Refusal : Type := mkRefusal { rf_code : Z; rf_text : string; rf_seal : option (bytes * EncryptionKey * Z) }.

Section Service.
Context `{Ck : Clock, Rn : Rand, Ae : AEAD, Bc : Bcrypt, El : EncTypeLib, Kf : KrbFlags, Kl : KrbLib, Kp : KpLib} (cfg : KpConfig).

Abbreviation P := (M St Refusal).

(** An operation of the store, its error answered as [e]. *)
Definition attempt {A} (m : Tx A) (e : Refusal) : P A := fun s =>
  match m s with
  | (Ok a, s') => (Ok a, s')
  | (Err _, s') => (Err e, s')
  | (Panic, s') => (Panic, s')
  end.

Definition need {A} (o : option A) (e : Refusal) : P A := lift (or_err e o).
Definition bare (code : Z) (text : string) : Refusal := mkRefusal code text None.

Definition parsePayload (version : Z) (data : bytes) (requester : Name) : option (string * Name) :=
  if version =? versionChangePassword then Some (string_of_bytes data, requester)
  else
    cpd ← Unmarshal_changePasswdData data;
    let subject :=
      if (0 <? List.length (NameString (TargName cpd)))%nat then
        NameFromPrincipalName (TargName cpd) (if (String.length (TargRealm cpd) =? 0)%nat then kp_Realm cfg else TargRealm cpd)
      else requester in
    Some (string_of_bytes (NewPasswd cpd), subject).

Definition checkPolicy (password : string) : option (Z * string) :=
  if Z.of_nat (String.length password) <? kp_MinPasswordLength cfg then
    Some (resultSoftError, "password must be at least " +:+ pretty (kp_MinPasswordLength cfg) +:+ " characters")
  else if (72 <? String.length password)%nat then Some (resultSoftError, "password must not exceed 72 bytes")
  else None.

(** The refusal a store error in [applyPassword] becomes is completed by the caller. *)
Definition applyPassword (subject : Name) (password : string) (refusal : string -> Refusal) : P unit :=
  principal ← attempt (GetPrincipal subject) (refusal "principal not found");
  match p_UserID principal with
  | Some uid =>
      user ← attempt (GetUserByID uid) (refusal "could not load the account");
      attempt (SetUserPassword (kp_HashCost cfg) (u_Name user) password (kp_EncTypes cfg) None) (refusal "could not store the new password")
  | None =>
      _ ← attempt (SetPrincipalPassword subject password (kp_EncTypes cfg)) (refusal "could not store the new password");
      mret tt
  end.

(** [newSequenceNumber]: a number under [2^30] from a draw. *)
Definition newSequenceNumber : P Z := fun s =>
  (Ok (get_be (rand 4 (st_draw s)) mod 2 ^ 30), mkSt (st_db s) (st_tick s) (S (st_draw s)) (st_idRange s)).

Definition kp_now : P Time := attempt time_now (bare resultHardError "").
Definition kp_draw : P nat := attempt draw (bare resultHardError "").

Definition buildAPRep (authn : Authenticator) (key : EncryptionKey) (seq : Z) (refusal : Refusal) : P bytes :=
  b ← need (Marshal_EncAPRepPart (au_CTime authn) (au_Cusec authn) seq) refusal;
  n ← kp_draw;
  ed ← need (GetEncryptedData n b key AP_REP_ENCPART 0) refusal;
  need (Marshal_APRep ed) refusal.

(** The authentication of a request: who asks, the key both sides seal with, and the authenticator. *)
Definition kp_authenticate (apReqBytes : bytes) : P (EncTicketPart * Authenticator) :=
  apReq ← need (Unmarshal_APReq apReqBytes) (bare resultMalformed "malformed AP-REQ");
  let tkt := ap_Ticket apReq in
  let target := NameFromPrincipalName (tkt_SName tkt) (tkt_Realm tkt) in
  _ ← throw_if (negb (IsChangePW target)) (bare resultAuthError "the ticket was not issued for kadmin/changepw");
  changepw ← attempt (GetPrincipalKVNO target (ed_KVNO (tkt_EncPart tkt))) (bare resultHardError "the password service principal is unavailable");
  svcKey ← need (KeyFor changepw (ed_EType (tkt_EncPart tkt))) (bare resultHardError "no key of the ticket's enctype");
  inner ← need (Ticket_Decrypt tkt (EncryptionKey_of svcKey)) (bare resultAuthError "the ticket did not decrypt");
  _ ← throw_if (negb (has (et_Flags inner) Initial)) (bare resultInitialFlagNeeded "the ticket must be obtained with the current password");
  now ← kp_now;
  _ ← throw_if (negb (IsZero (et_EndTime inner)) && After now (et_EndTime inner)) (bare resultAuthError "the ticket has expired");
  authn ← need (DecryptAuthenticator apReq (et_Key inner)) (bare resultAuthError "the authenticator did not decrypt");
  _ ← throw_if (skewed now (au_CTime authn) (kp_ClockSkew cfg)) (bare resultAuthError "clock skew too great");
  mret (inner, authn).

(** [process]: what seals the reply to a change that was made. *)
Definition process (version : Z) (apReqBytes privBytes : bytes) : P (bytes * EncryptionKey * Z) :=
  '(tkt, authn) ← kp_authenticate apReqBytes;
  let requester := NameFromPrincipalName (et_CName tkt) (et_CRealm tkt) in
  let sub := au_SubKey authn in
  let privKey := if negb (KeyType sub =? 0) && (0 <? List.length (KeyValue sub))%nat then sub else et_Key tkt in
  seq ← newSequenceNumber;
  apRep ← buildAPRep authn (et_Key tkt) seq (bare resultHardError "could not build AP-REP");
  let seal := (apRep, privKey, seq) in
  let refuse code text := mkRefusal code text (Some seal) in
  priv ← need (Unmarshal_KRBPriv privBytes) (refuse resultMalformed "malformed KRB-PRIV");
  data ← need (DecryptPriv priv privKey) (refuse resultAuthError "the request body did not decrypt");
  '(newPassword, subject) ← need (parsePayload version data requester) (refuse resultMalformed "malformed ChangePasswdData");
  _ ← throw_if (negb (Equal subject requester))
        (refuse resultAccessDenied "this service only changes the requester's own password; use the management API for others");
  _ ← lift (match checkPolicy newPassword with Some (code, text) => Err (refuse code text) | None => Ok tt end);
  _ ← applyPassword subject newPassword (refuse resultHardError);
  mret seal.

Definition errorMessage (code : Z) (text : string) : bytes :=
  let body := put_be 2 code ++ bytes_of_string text in
  match Marshal_KpError (kp_Realm cfg) text body with
  | Some b => assemble versionChangePassword [] b
  | None => []
  end.

(** [successMessage]; [addr] is the local address in its Kerberos form. *)
Definition successMessage (code : Z) (text : string) (seal : bytes * EncryptionKey * Z) (addr : option HostAddress) : P bytes :=
  let '(apRep, key, seq) := seal in
  let hard := bare resultHardError "internal error" in
  a ← need addr hard;
  now ← kp_now;
  n ← kp_draw;
  privBytes ← need (Seal_KRBPriv n (put_be 2 code ++ bytes_of_string text) now (now mod second / 1000) seq a key) hard;
  mret (assemble versionChangePassword apRep privBytes).

(** The reply to an authenticated request, or the error that it could not be built. *)
Definition sealed_reply (addr : option HostAddress) (code : Z) (text : string) (seal : bytes * EncryptionKey * Z) : P bytes := fun s =>
  match successMessage code text seal addr s with
  | (Err _, s') => (Ok (errorMessage resultHardError "internal error"), s')
  | r => r
  end.

(** [Handle]: always a reply, unless a panic ends the process. *)
Definition KpHandle (req : bytes) (addr : option HostAddress) : P bytes := fun s =>
  match parseRequest req with
  | Err e => (Ok (errorMessage resultMalformed (frame_text e)), s)
  | Panic => (Panic, s)
  | Ok (version, apReqBytes, privBytes) =>
      if negb (version =? versionChangePassword) && negb (version =? versionSetPassword) then
        (Ok (errorMessage resultBadVersion ("unsupported protocol version 0x" +:+ hex_of (put_be 2 version))), s)
      else
        match process version apReqBytes privBytes s with
        | (Ok seal, s') => sealed_reply addr resultSuccess "password changed" seal s'
        | (Err r, s') =>
            match rf_seal r with
            | None => (Ok (errorMessage (rf_code r) (rf_text r)), s')
            | Some seal => sealed_reply addr (rf_code r) (rf_text r) seal s'
            end
        | (Panic, s') => (Panic, s')
        end
  end.

(** [New]: what a configuration must have. *)
Definition kp_New_ok : bool := negb (String.length (kp_Realm cfg) =? 0)%nat && negb (List.length (kp_EncTypes cfg) =? 0)%nat.

(** A connection of [serveTCP], on what the peer sends: what is written back, [None] for nothing. The
    reply is written with its length, an empty one too. *)
Definition kp_handleTCPConn (sent : bytes) (addr : option HostAddress) : P (option bytes) :=
  if (List.length sent <? 4)%nat then mret None
  else
    let size := get_be (take 4 sent) in
    if (size =? 0) || (64 * 1024 <? size) then mret None
    else
      let rest := drop 4 sent in
      if (List.length rest <? Z.to_nat size)%nat then mret None
      else
        reply ← KpHandle (take (Z.to_nat size) rest) addr;
        mret (Some (put_be 4 (wrap 32 (zlen reply)) ++ reply)).

(** A datagram of [serveUDP]. *)
Definition kp_handleDatagram (req : bytes) (addr : option HostAddress) : P (option bytes) :=
  reply ← KpHandle req addr;
  mret (if (List.length reply =? 0)%nat then None else Some reply).

(** ** Only one's own password *)

Lemma keeps_attempt {A} (m : Tx A) e : keeps_db m -> keeps_db (attempt m e).
Proof. intros Hm s r s'. unfold attempt. destruct (m s) as [[] ?] eqn:Er; intros [= _ <-]; by eapply Hm. Qed.
Lemma atomic_attempt {A} (m : Tx A) e : atomic m -> atomic (attempt m e).
Proof. intros Hm s r s'. unfold attempt. destruct (m s) as [[] ?] eqn:Er; intros [= <- <-]; eapply Hm in Er as [[? ?]|]; naive_solver. Qed.
Lemma keeps_need {A} (o : option A) e : keeps_db (need o e).
Proof. apply keeps_lift. Qed.
Lemma keeps_newSequence : keeps_db newSequenceNumber.
Proof. by intros s r s' [= _ <-]. Qed.
Lemma atomic_then {A B} (m : P A) (f : A -> B) : atomic m -> atomic (x ← m; mret (f x)).
Proof.
  intros Hm s r s'. unfold mbind, M_bind, mret, M_ret. destruct (m s) as [[a|e|] s1] eqn:Er; intros [= <- <-]; eapply Hm in Er as [[? ?]|]; naive_solver.
Qed.
#[local] Hint Resolve keeps_attempt atomic_attempt keeps_need keeps_newSequence atomic_then : ldapkdc.

Lemma keeps_authenticate ap : keeps_db (kp_authenticate ap).
Proof. unfold kp_authenticate, kp_now, GetPrincipalKVNO. auto 40 with ldapkdc. Qed.
Lemma keeps_buildAPRep authn key seq e : keeps_db (buildAPRep authn key seq e).
Proof. unfold buildAPRep, kp_draw. auto 20 with ldapkdc. Qed.
#[local] Hint Resolve keeps_authenticate keeps_buildAPRep : ldapkdc.

Lemma atomic_applyPassword subject pw e : atomic (applyPassword subject pw e).
Proof.
  unfold applyPassword, GetPrincipal, GetUserByID, SetPrincipalPassword, SetUserPassword, hashPassword, SetKeys.
  apply atomic_bind; [auto with ldapkdc|]. intros p. destruct (p_UserID p); [auto 20 with ldapkdc|].
  apply atomic_then, atomic_attempt. unfold GetPrincipal. auto 20 with ldapkdc.
Qed.
#[local] Hint Resolve atomic_applyPassword : ldapkdc.

Lemma atomic_process v ap priv : atomic (process v ap priv).
Proof.
  unfold process. apply atomic_bind; [auto with ldapkdc|]. intros [tkt authn].
  do 4 (apply atomic_bind; [auto with ldapkdc|]; intros ?). apply atomic_bind; [auto with ldapkdc|]. intros [pw subject].
  do 2 (apply atomic_bind; [auto with ldapkdc|]; intros ?). auto with ldapkdc.
Qed.

Lemma need_Ok {A} (o : option A) e s s' a : need o e s = (Ok a, s') -> o = Some a /\ s' = s.
Proof. unfold need, lift. intros [= Ho ->]. by apply or_err_Ok in Ho. Qed.
Lemma attempt_Ok {A} (m : Tx A) e s s' a : attempt m e s = (Ok a, s') -> m s = (Ok a, s').
Proof. unfold attempt. destruct (m s) as [[] ?]; naive_solver. Qed.

Ltac p_inv := repeat (progress run_inv || match goal with
  | H : need _ _ _ = (Ok _, _) |- _ => apply need_Ok in H as [? ->]
  | H : attempt _ _ _ = (Ok _, _) |- _ => apply attempt_Ok in H
  end).

(** Who may change a password: the holder of a ticket for the password service that came straight
    from an AS exchange, has not expired, and that a recent authenticator goes with. *)
Record may_change (d : DB) (apReqBytes : bytes) (tkt : EncTicketPart) (authn : Authenticator) : Prop := {
  mc_ticket : exists apReq p key, Unmarshal_APReq apReqBytes = Some apReq /\
      let server := NameFromPrincipalName (tkt_SName (ap_Ticket apReq)) (tkt_Realm (ap_Ticket apReq)) in
      IsChangePW server = true /\ getPrincipal d server (ed_KVNO (tkt_EncPart (ap_Ticket apReq))) = Ok p /\
      KeyFor p (ed_EType (tkt_EncPart (ap_Ticket apReq))) = Some key /\
      Ticket_Decrypt (ap_Ticket apReq) (EncryptionKey_of key) = Some tkt /\
      DecryptAuthenticator apReq (et_Key tkt) = Some authn;
  mc_initial : has (et_Flags tkt) Initial = true;
  mc_recent : exists t, (et_EndTime tkt <> zeroTime -> t <= et_EndTime tkt) /\ skewed t (au_CTime authn) (kp_ClockSkew cfg) = false;
}.

Lemma kp_authenticate_Ok ap s s' tkt authn : kp_authenticate ap s = (Ok (tkt, authn), s') -> may_change (st_db s) ap tkt authn.
Proof.
  unfold kp_authenticate, kp_now, GetPrincipalKVNO. intros Hr. p_inv. simp_bool.
  apply M_ret_Ok in Hr as [Hr _].
  match goal with H : query_outcome _ _ = _ |- _ => apply query_outcome_Ok in H as [Hg ->] end.
  match goal with H : time_now _ = _ |- _ => apply time_now_Ok in H as [Ht ->] end.
  simplify_eq. split; [eauto 10|done|].
  exists (clock (st_tick s)). split; [|done]. intros Hz. match goal with H : negb (IsZero _) && _ = false |- _ => revert H end.
  unfold IsZero, After. rewrite (proj2 (Z.eqb_neq _ _) Hz). cbn. intros. simp_bool. lia.
Qed.

Lemma process_Ok v ap priv s s' seal :
  process v ap priv s = (Ok seal, s') ->
  exists tkt authn pw subject e s1, may_change (st_db s) ap tkt authn /\
    Equal subject (NameFromPrincipalName (et_CName tkt) (et_CRealm tkt)) = true /\ checkPolicy pw = None /\
    st_db s1 = st_db s /\ applyPassword subject pw e s1 = (Ok tt, s').
Proof.
  unfold process. intros Hr. apply M_bind_Ok in Hr as ([tkt authn] & s0 & Ha & Hr). cbv beta iota zeta in Hr.
  pose proof (keeps_authenticate _ _ _ _ Ha) as K0. apply kp_authenticate_Ok in Ha.
  apply M_bind_Ok in Hr as (seq & s1 & Hs & Hr). pose proof (keeps_newSequence _ _ _ Hs) as K1.
  apply M_bind_Ok in Hr as (rep & s2 & Hb & Hr). pose proof (keeps_buildAPRep _ _ _ _ _ _ _ Hb) as K2.
  p_inv. match goal with H : parsePayload _ _ _ = Some ?x |- _ => destruct x as [pw subject] end. p_inv.
  match goal with H : applyPassword _ _ _ _ = (Ok ?u, _) |- _ => destruct u; exists tkt, authn, pw, subject; do 2 eexists; split_and!; [done| | | |exact H] end.
  - by simp_bool.
  - match goal with H : context [checkPolicy pw] |- _ => revert H end. by destruct (checkPolicy pw) as [[]|].
  - congruence.
Qed.

Lemma keeps_successMessage code text seal addr : keeps_db (successMessage code text seal addr).
Proof. unfold successMessage, kp_now, kp_draw. destruct seal as [[? ?] ?]. auto 20 with ldapkdc. Qed.


(** A request of up to 64 KiB sent behind its length is handled, whatever follows it, and its reply goes
    back behind the reply's length. *)
Lemma kp_frame_served (req rest : bytes) (addr : option HostAddress) (s : St) : 0 < zlen req <= 64 * 1024 ->
  kp_handleTCPConn (put_be 4 (zlen req) ++ req ++ rest) addr s =
  (reply ← KpHandle req addr; mret (Some (put_be 4 (wrap 32 (zlen reply)) ++ reply))) s.
Proof.
  intros Hz. unfold kp_handleTCPConn. rewrite length_app, length_put_be. destruct (Nat.ltb_spec (4 + List.length (req ++ rest)) 4); [lia|].
  rewrite take_app_length', drop_app_length' by (symmetry; apply length_put_be). rewrite get_put_be. change (256 ^ Z.of_nat 4) with (2 ^ 32).
  rewrite Z.mod_small by lia. destruct (Z.eqb_spec (zlen req) 0); [lia|]. destruct (Z.ltb_spec (64 * 1024) (zlen req)); [lia|]. cbn [orb].
  unfold zlen in *. rewrite Nat2Z.id, length_app. destruct (Nat.ltb_spec (List.length req + List.length rest) (List.length req)); [lia|].
  by rewrite take_app_length.
Qed.
End Service.

(** ** A change of password *)

Definition toy_kp : KpLib := {|
  DecryptAuthenticator := fun _ _ => Some (mkAuthenticatorMsg "EXAMPLE.COM" (mkPrincipalName 1 ["alice"]) (mkChecksum 0 []) 0 t0 (mkEncryptionKey 0 []));
  Unmarshal_KRBPriv := fun b => Some (mkEncryptedData 18 0 b);
  DecryptPriv := fun ed _ => Some (ed_Cipher ed);
  Unmarshal_changePasswdData := fun _ => None;
  Marshal_EncAPRepPart := fun _ _ _ => Some [];
  Marshal_APRep := fun ed => Some [Byte.x0f];
  Seal_KRBPriv := fun _ b _ _ _ _ _ => Some b;
  Marshal_KpError := fun _ _ b => Some b;
|}.

Section KpSample.
#[local] Existing Instance sample_clock.
#[local] Existing Instance toy_rand.
#[local] Existing Instance toy_aead.
#[local] Existing Instance toy_enctypes.
#[local] Existing Instance toy_bcrypt.
#[local] Existing Instance rfc_flags.
#[local] Existing Instance toy_kp.

Definition kp_script : script :=
  mkScript no_flags 0 [] (tkt_for ["alice"] "EXAMPLE.COM" (flags_of [Initial])) ["kadmin"; "changepw"] "EXAMPLE.COM" (tkt_for [] "" no_flags) t0.
Definition kp_cfg : KpConfig := mkKpConfig "EXAMPLE.COM" (300 * second) [18; 17] 8 4.
Definition kp_store : St := add_principal "kadmin/changepw" [] realm_store.
Definition kp_request : bytes := assemble versionChangePassword [Byte.x00] (bytes_of_string "correct horse").

Abbreviation kp_run := (KpHandle (Kl := toy_krb kp_script) kp_cfg kp_request (Some (mkHostAddress 2 [])) kp_store).
Definition kp_after : St := snd kp_run.

Definition kvno_of (s : St) : outcome StoreErr Z := p ← getPrincipal (st_db s) alice 0; Ok (p_KVNO p).

Lemma kp_run_ok : exists out, kp_run = (Ok out, kp_after).
Proof. eexists. unfold kp_after. apply split_run. vm_compute. reflexivity. Qed.
Lemma kvno_before : kvno_of kp_store = Ok 1.
Proof. vm_compute. reflexivity. Qed.
Lemma kvno_after : kvno_of kp_after = Ok 2.
Proof. vm_compute. reflexivity. Qed.

End KpSample.
