(* ===== verification/Serving.v ===== *)
(** * Serving and stopping: the goroutines of kdc/server.go and kpasswd/server.go

    [Start] leaves two loops running, one per transport. Each waits for the next request and hands it
    to a goroutine of its own, all of them counted by one [WaitGroup]. [Shutdown] raises [closing],
    closes the sockets and waits for the count to come down. The two packages have the same text but
    for the handler; here a request is a number, and the handler's answer is written when it is done. *)

From S2P Require Import Prelude.

Inductive transport : Type := over_tcp | over_udp.

(** [Shutdown], of the caller that got past the exchange: before each close, waiting, or returned. *)
Inductive stop_phase : Type := sp_none | sp_close_tcp | sp_close_udp | sp_wait | sp_drained | sp_expired.

Record Serving : Type := mkServing {
  sg_closing : bool;
  sg_tcp : bool;
  sg_udp : bool;
  sg_tcp_loop : bool;
  sg_udp_loop : bool;
  sg_wg : nat;
  sg_inflight : list (transport * nat);
  sg_taken : list (transport * nat);
  sg_done : list (transport * nat * bool);
  sg_stop : stop_phase;
}.

(** The end of [Start]: both sockets bound, [s.wg.Add(2)], the loops. *)
Definition Serving_start : Serving := mkServing false true true true true 2 [] [] [] sp_none.

(** [s.wg.Go] with the handler of a request. *)
Definition spawn (r : transport * nat) (s : Serving) : Serving :=
  mkServing (sg_closing s) (sg_tcp s) (sg_udp s) (sg_tcp_loop s) (sg_udp_loop s) (S (sg_wg s)) (r :: sg_inflight s) (r :: sg_taken s)
    (sg_done s) (sg_stop s).

(** One round of [serveTCP]: a connection, or an error of [Accept], which a closed listener gives. *)
Definition serveTCP (conn : option nat) (s : Serving) : option Serving :=
  if negb (sg_tcp_loop s) then None
  else match conn with
       | Some n => if sg_tcp s then Some (spawn (over_tcp, n) s) else None
       | None =>
           if sg_closing s then
             Some (mkServing (sg_closing s) (sg_tcp s) (sg_udp s) false (sg_udp_loop s) (pred (sg_wg s)) (sg_inflight s) (sg_taken s) (sg_done s) (sg_stop s))
           else Some s
       end.

(** One round of [serveUDP]. *)
Definition serveUDP (packet : option nat) (s : Serving) : option Serving :=
  if negb (sg_udp_loop s) then None
  else match packet with
       | Some n => if sg_udp s then Some (spawn (over_udp, n) s) else None
       | None =>
           if sg_closing s then
             Some (mkServing (sg_closing s) (sg_tcp s) (sg_udp s) (sg_tcp_loop s) false (pred (sg_wg s)) (sg_inflight s) (sg_taken s) (sg_done s) (sg_stop s))
           else Some s
       end.

(** The end of a handler. A connection is open until its handler closes it; a datagram is answered
    through the socket all of them share. *)
Definition reply_written (t : transport) (s : Serving) : bool := match t with over_tcp => true | over_udp => sg_udp s end.

Definition finish (i : nat) (s : Serving) : option Serving :=
  r ← sg_inflight s !! i;
  Some (mkServing (sg_closing s) (sg_tcp s) (sg_udp s) (sg_tcp_loop s) (sg_udp_loop s) (pred (sg_wg s)) (delete i (sg_inflight s)) (sg_taken s)
          ((r, reply_written (fst r) s) :: sg_done s) (sg_stop s)).

(** [Shutdown], one call of it at a time. Whoever comes second finds [closing] raised and returns. *)
Definition Shutdown_call (s : Serving) : Serving :=
  if sg_closing s then s
  else mkServing true (sg_tcp s) (sg_udp s) (sg_tcp_loop s) (sg_udp_loop s) (sg_wg s) (sg_inflight s) (sg_taken s) (sg_done s) sp_close_tcp.

Definition Shutdown_step (expired : bool) (s : Serving) : option Serving :=
  let go tcp udp ph := Some (mkServing (sg_closing s) tcp udp (sg_tcp_loop s) (sg_udp_loop s) (sg_wg s) (sg_inflight s) (sg_taken s) (sg_done s) ph) in
  match sg_stop s with
  | sp_close_tcp => go false (sg_udp s) sp_close_udp
  | sp_close_udp => go (sg_tcp s) false sp_wait
  | sp_wait => if (sg_wg s =? 0)%nat then go (sg_tcp s) (sg_udp s) sp_drained
               else if expired then go (sg_tcp s) (sg_udp s) sp_expired else None
  | _ => None
  end.

(** A step of a goroutine of the server, and a step of it or of a caller of [Shutdown]. *)
Inductive work_step : Serving -> Serving -> Prop :=
| ws_tcp conn s s' : serveTCP conn s = Some s' -> work_step s s'
| ws_udp packet s s' : serveUDP packet s = Some s' -> work_step s s'
| ws_finish i s s' : finish i s = Some s' -> work_step s s'.

Inductive serving_step : Serving -> Serving -> Prop :=
| sv_work s s' : work_step s s' -> serving_step s s'
| sv_call s : serving_step s (Shutdown_call s)
| sv_stop expired s s' : Shutdown_step expired s = Some s' -> serving_step s s'.

(** ** What holds at any time *)

Definition one (b : bool) : nat := if b then 1 else 0.

Record serving_ok (s : Serving) : Prop := {
  so_count : sg_wg s = (one (sg_tcp_loop s) + one (sg_udp_loop s) + List.length (sg_inflight s))%nat;
  so_all : sg_taken s ≡ₚ sg_inflight s ++ (fst <$> sg_done s);
  so_closing : sg_stop s <> sp_none -> sg_closing s = true;
  so_open : sg_closing s = false -> sg_stop s = sp_none /\ sg_tcp s = true /\ sg_udp s = true;
  so_tcp : sg_tcp s = true -> sg_stop s = sp_none \/ sg_stop s = sp_close_tcp;
  so_udp : sg_udp s = true -> sg_stop s = sp_none \/ sg_stop s = sp_close_tcp \/ sg_stop s = sp_close_udp;
  so_drained : sg_stop s = sp_drained -> sg_wg s = 0%nat;
  so_written : forall r b, (r, b) ∈ sg_done s -> b = true \/ (fst r = over_udp /\ sg_udp s = false);
}.

Lemma start_ok : serving_ok Serving_start.
Proof. split; cbn; try done; auto. intros r b Hr. by apply elem_of_nil in Hr. Qed.

Lemma spawn_ok r s : (1 <= sg_wg s)%nat -> serving_ok s -> serving_ok (spawn r s).
Proof.
  intros Hw [Hc Ha H1 H2 H3 H4 H5 H6]. split; cbn in *; try done.
  - lia.
  - by rewrite Ha.
  - intros Hd%H5. lia.
Qed.

Lemma serveTCP_ok conn s s' : serveTCP conn s = Some s' -> serving_ok s -> serving_ok s'.
Proof.
  unfold serveTCP. intros Hs Hok. destruct (sg_tcp_loop s) eqn:El; [|discriminate Hs]. assert (Hc := so_count s Hok). rewrite El in Hc. cbn in Hs, Hc.
  destruct conn; [destruct (sg_tcp s); [|done]; injection Hs as <-; apply spawn_ok; [lia|done]|].
  destruct (sg_closing s); injection Hs as <-; [|done]. destruct Hok as [_ ? ? ? ? ? H5 ?]. split; cbn in *; try done; [lia|intros Hd%H5; lia].
Qed.
Lemma serveUDP_ok packet s s' : serveUDP packet s = Some s' -> serving_ok s -> serving_ok s'.
Proof.
  unfold serveUDP. intros Hs Hok. destruct (sg_udp_loop s) eqn:El; [|discriminate Hs]. assert (Hc := so_count s Hok). rewrite El in Hc. cbn in Hs, Hc.
  destruct packet; [destruct (sg_udp s); [|done]; injection Hs as <-; apply spawn_ok; [lia|done]|].
  destruct (sg_closing s); injection Hs as <-; [|done]. destruct Hok as [_ ? ? ? ? ? H5 ?]. split; cbn in *; try done; [lia|intros Hd%H5; lia].
Qed.

Lemma finish_ok i s s' : finish i s = Some s' -> serving_ok s -> serving_ok s'.
Proof.
  unfold finish. intros Hs Hok. destruct (sg_inflight s !! i) as [r|] eqn:Ei; [|discriminate Hs]. injection Hs as <-.
  assert (Hl := lookup_lt_Some _ _ _ Ei). destruct Hok as [Hc Ha ? ? ? ? H5 H6]. split; cbn in *; try done.
  - rewrite length_delete by eauto. lia.
  - etrans; [exact Ha|]. etrans; [apply Permutation_app_tail, (delete_Permutation _ _ _ Ei)|]. apply Permutation_middle.
  - intros Hd%H5. lia.
  - intros r' b [[= -> ->]|Hin]%elem_of_cons; [|by apply H6]. destruct (fst r); [by left|]. cbn. destruct (sg_udp s); auto.
Qed.

Lemma Shutdown_call_ok s : serving_ok s -> serving_ok (Shutdown_call s).
Proof.
  intros Hok. unfold Shutdown_call. destruct (sg_closing s) eqn:Ec; [done|]. destruct (so_open s Hok Ec) as (Hp & _ & _).
  destruct Hok as [? ? ? ? H3 H4 ? ?]. split; cbn; try done; auto.
Qed.

Lemma Shutdown_step_ok e s s' : Shutdown_step e s = Some s' -> serving_ok s -> serving_ok s'.
Proof.
  unfold Shutdown_step. intros Hs Hok. destruct (sg_stop s) eqn:Ep; try discriminate Hs.
  all: assert (Ec : sg_closing s = true) by (apply (so_closing s Hok); by rewrite Ep).
  all: destruct Hok as [? ? H1 H2 H3 H4 H5 H6]; rewrite Ep in *.
  - injection Hs as <-. split; cbn; try done; auto. by rewrite Ec.
  - injection Hs as <-. split; cbn; try done; auto; [by rewrite Ec| |].
    + intros [?|?]%H3; done.
    + intros r b [?|[? ?]]%H6; auto.
  - destruct (Nat.eqb_spec (sg_wg s) 0) as [E|E]; [|destruct e; [|discriminate Hs]]; injection Hs as <-;
      (split; cbn; try done; auto; [by rewrite Ec|by intros [?|?]%H3|by intros [?|[?|?]]%H4]).
Qed.

Lemma serving_step_ok s s' : serving_step s s' -> serving_ok s -> serving_ok s'.
Proof. intros [? ? []| |]; eauto using serveTCP_ok, serveUDP_ok, finish_ok, Shutdown_call_ok, Shutdown_step_ok. Qed.

Lemma serving_run_ok s : rtc serving_step Serving_start s -> serving_ok s.
Proof.
  intros Hr. assert (Hok := start_ok). revert Hok. induction Hr as [|? ? ? Hs _ IH]; [done|]. intros Hok. apply IH. by eapply serving_step_ok.
Qed.

(** Once the sockets are closed a goroutine of the server only ever leaves. *)
Lemma work_leaves s s' : sg_closing s = true -> sg_tcp s = false -> sg_udp s = false -> serving_ok s -> work_step s s' ->
  sg_wg s = S (sg_wg s') /\ sg_taken s' = sg_taken s /\ sg_tcp s' = false /\ sg_udp s' = false /\ sg_closing s' = true /\ sg_stop s' = sg_stop s.
Proof.
  intros Hc Ht Hu Hok Hs. assert (Hn := so_count s Hok). destruct Hs as [conn s s' Hs|packet s s' Hs|i s s' Hs].
  - unfold serveTCP in Hs. rewrite Ht, Hc in Hs. destruct (sg_tcp_loop s); [|discriminate Hs]. destruct conn; [discriminate Hs|]. injection Hs as <-. cbn in *. split_and!; try done; lia.
  - unfold serveUDP in Hs. rewrite Hu, Hc in Hs. destruct (sg_udp_loop s); [|discriminate Hs]. destruct packet; [discriminate Hs|]. injection Hs as <-. cbn in *. split_and!; try done; lia.
  - unfold finish in Hs. destruct (sg_inflight s !! i) eqn:Ei; [|discriminate Hs]. apply lookup_lt_Some in Ei. injection Hs as <-. cbn in *. split_and!; try done; lia.
Qed.

(** And as long as one is there it can. *)
Lemma work_left s : sg_closing s = true -> serving_ok s -> (0 < sg_wg s)%nat -> exists s', work_step s s'.
Proof.
  intros Hc Hok Hw. rewrite (so_count s Hok) in Hw. destruct (sg_tcp_loop s) eqn:Et.
  { eexists. apply (ws_tcp None). unfold serveTCP. by rewrite Et, Hc. }
  destruct (sg_udp_loop s) eqn:Eu.
  { eexists. apply (ws_udp None). unfold serveUDP. by rewrite Eu, Hc. }
  destruct (sg_inflight s) as [|r l] eqn:Ei; cbn in Hw; [lia|]. eexists. apply (ws_finish 0). unfold finish. by rewrite Ei.
Qed.

Lemma drains n s : sg_wg s = n -> sg_closing s = true -> sg_tcp s = false -> sg_udp s = false -> serving_ok s ->
  exists s', nsteps work_step n s s' /\ sg_wg s' = 0%nat /\ sg_stop s' = sg_stop s.
Proof.
  revert s. induction n as [|n IH]; intros s Hn Hc Ht Hu Hok; [exists s; split; [constructor|done]|].
  destruct (work_left s Hc Hok) as [s1 Hs]; [lia|]. destruct (work_leaves s s1 Hc Ht Hu Hok Hs) as (Hw & _ & Ht1 & Hu1 & Hc1 & Hp1).
  destruct (IH s1) as (s' & Hr & Hz & Hp); [lia|done..| |]; [eapply serving_step_ok; [by apply sv_work|done]|].
  exists s'. split; [by eapply nsteps_l|]. split; [done|congruence].
Qed.


(** ** Stopped between two requests *)

Inductive move : Type := mv_tcp (c : option nat) | mv_udp (c : option nat) | mv_finish (i : nat) | mv_call | mv_stop (expired : bool).

Definition make_move (s : Serving) (m : move) : Serving :=
  default s match m with
            | mv_tcp c => serveTCP c s
            | mv_udp c => serveUDP c s
            | mv_finish i => finish i s
            | mv_call => Some (Shutdown_call s)
            | mv_stop e => Shutdown_step e s
            end.

Lemma moves_run ms s : rtc serving_step s (foldl make_move s ms).
Proof.
  revert s. induction ms as [|m ms IH]; intros s; [constructor|]. cbn [foldl]. etrans; [|apply IH]. unfold make_move.
  destruct m as [c|c|i| |e]; cbn [default].
  - destruct (serveTCP c s) eqn:E; [|constructor]. by eapply rtc_once, sv_work, ws_tcp.
  - destruct (serveUDP c s) eqn:E; [|constructor]. by eapply rtc_once, sv_work, ws_udp.
  - destruct (finish i s) eqn:E; [|constructor]. by eapply rtc_once, sv_work, ws_finish.
  - apply rtc_once, sv_call.
  - destruct (Shutdown_step e s) eqn:E; [|constructor]. by eapply rtc_once, sv_stop.
Qed.

(** A connection and a datagram are in hand when the service is stopped. *)
Definition stopped : Serving :=
  foldl make_move Serving_start
    [mv_tcp (Some 1%nat); mv_udp (Some 2%nat); mv_call; mv_stop false; mv_stop false; mv_finish 1; mv_finish 0; mv_udp None; mv_tcp None; mv_call; mv_stop false].

(** The request that came by datagram is carried out, and its reply has no socket to go out on. *)
Example datagram_reply_lost : sg_stop stopped = sp_drained /\ sg_done stopped = [((over_udp, 2%nat), false); ((over_tcp, 1%nat), true)].
Proof. vm_compute. done. Qed.

