(* ===== verification/Startup.v ===== *)
(** * Starting and stopping: cmd/ldap-kdc/main.go

    [run] brings the realm, the domain identifier, the identifier range and the provisioning plan into
    place, starts one server after the other on the addresses of the configuration, waits for a signal
    and stops them in reverse; an error on the way stops what has been started. A process is the store,
    the sockets it has bound and the servers that run. What the master key file and the database driver
    do before the store is open is in Masterkey.v; logging and metrics are left out. *)

From S2P Require Import Prelude Text Hostport Duration Netip Names Keytab Failban Replay Model Secret IdRange Db Principals Zone Dns DockerDns Directory Accounts Sidgen Certs LdapEntries Sasl Jws Oidc Bootstrap Config Vault Api Messages Ticket Kdc Server Kpasswd.

(** ** What the servers are given *)

Definition listenPort (listen : string) : Z :=
  match SplitHostPort listen with
  | Some (_, port) => default 0 (Atoi port)
  | None => 0
  end.

Definition kdcClientAddress (listen : string) : string :=
  match SplitHostPort listen with
  | Some (_, port) => if is_empty port then listen else JoinHostPort "127.0.0.1" port
  | None => listen
  end.

(** [add] of [discoveryServices]. *)
Definition advertised (enabled : bool) (listen : string) (names : list string) : list Service :=
  if enabled && negb (listenPort listen =? 0) then [mkService names (listenPort listen)] else [].

Definition discoveryServices (c : Config.Config) : list Service :=
  advertised (kc_Enabled (cf_KDC c)) (kc_Listen (cf_KDC c))
    ["_kerberos._udp"; "_kerberos._tcp"; "_kerberos-master._udp"; "_kerberos-master._tcp"] ++
  advertised (kps_Enabled (cf_KPasswd c)) (kps_Listen (cf_KPasswd c)) ["_kpasswd._udp"; "_kpasswd._tcp"; "_kerberos-adm._tcp"] ++
  advertised (ls_Enabled (cf_LDAP c)) (ls_Listen (cf_LDAP c)) ["_ldap._tcp"] ++
  advertised (ls_Enabled (cf_LDAPS c)) (ls_Listen (cf_LDAPS c)) ["_ldaps._tcp"].

Definition servedZones (c : Config.Config) : list string :=
  if ds_Enabled (cf_DNS c) then ds_Zone (cf_DNS c) :: ds_ExtraZones (cf_DNS c) ++ ds_ReverseZones (cf_DNS c) else [].

Definition shareOIDCListener (c : Config.Config) : bool :=
  let api := as_Listener (cf_API c) in
  let oidc := os_Listener (cf_OIDC c) in
  ls_Enabled api && ls_Enabled oidc && non_empty (ls_Listen api) && String.eqb (ls_Listen api) (ls_Listen oidc).

Definition limiter_config (c : Config.Config) : Failban.Config :=
  let b := cf_Behaviors c in
  Failban.mkConfig (bh_LimitFailedBinds b) (bh_NumberOfFailedBinds b) (bh_PeriodOfFailedBinds b) (bh_BlockFailedBindsFor b)
    (bh_PruneSourceTableEvery b) (bh_PruneSourcesOlderThan b).

Definition id_range (c : Config.Config) : IDRange :=
  let s := cf_Server c in mkIDRange (sv_IDRangeBaseID s) (sv_IDRangeSize s) (sv_IDRangeBaseRID s) (sv_IDRangeSecondaryBaseRID s).

(** A positive number of seconds, cut off. The container registration is given the float of
    [TTL.Seconds] cut off, which is the same number for a TTL below 2^22 seconds. *)
Definition whole_seconds (d : Duration) : Z := Z.quot d second.

Definition plan_options (c : Config.Config) (encTypes : list Z) : PlanOptions :=
  mkPlanOptions (sv_Realm (cf_Server c)) encTypes (kps_MinPasswordLength (cf_KPasswd c)) (whole_seconds (ds_TTL (cf_DNS c))).

Definition kdc_config (c : Config.Config) (domainSID : string) (encTypes : list Z) : Ticket.Config := {|
  cfg_Realm := sv_Realm (cf_Server c); cfg_NetBIOSName := sv_NetBIOSName (cf_Server c); cfg_DomainSID := domainSID;
  cfg_MaxTicketLife := kc_MaxTicketLife (cf_KDC c); cfg_MaxRenewableLife := kc_MaxRenewableLife (cf_KDC c);
  cfg_ClockSkew := kc_ClockSkew (cf_KDC c); cfg_EncTypes := encTypes; cfg_RequirePreAuth := kc_RequirePreAuth (cf_KDC c);
  cfg_IssuePAC := kc_IssuePAC (cf_KDC c); cfg_AllowS4U := kc_AllowS4U (cf_KDC c); cfg_UDPMaxSize := kc_UDPMaxSize (cf_KDC c);
  cfg_Lockout := mkLockoutPolicy (bh_NumberOfFailedBinds (cf_Behaviors c)) (bh_PeriodOfFailedBinds (cf_Behaviors c))
                   (bh_BlockFailedBindsFor (cf_Behaviors c)) |}.

Definition kpasswd_config (c : Config.Config) (encTypes : list Z) : KpConfig :=
  mkKpConfig (sv_Realm (cf_Server c)) (kc_ClockSkew (cf_KDC c)) encTypes (kps_MinPasswordLength (cf_KPasswd c)) DefaultPasswordHashCost.

Definition dns_config (c : Config.Config) : DnsConfig :=
  let d := cf_DNS c in
  mkDnsConfig (sv_Realm (cf_Server c)) (ds_Zone d) EmptyString (ds_ExtraZones d) (ds_ReverseZones d) (ds_Hostname d) (ds_Addresses d)
    (ds_Mailbox d) (ds_TTL d) (discoveryServices c).

Definition ldap_config (c : Config.Config) (domainSID : string) (encTypes : list Z) : LdapConfig :=
  let s := cf_Server c in
  mkLdapConfig (sv_BaseDN s) (sv_NameFormat s) (sv_GroupFormat s) (sv_SSHKeyAttrs s) (sv_Realm s) domainSID (sv_AnonymousDSE s)
    (bh_IgnoreCapabilities (cf_Behaviors c)) encTypes (sv_LDAPSPN s) (limiter_config c) DefaultPasswordHashCost.

Definition api_config (c : Config.Config) (encTypes : list Z) : ApiConfig :=
  let s := cf_Server c in
  let a := cf_API c in
  mkApiConfig (sv_Realm s) encTypes (as_Token a) (sv_BaseDN s) (sv_NameFormat s) (sv_GroupFormat s) (as_SPN a) (as_SessionLifetime a)
    (limiter_config c) (as_UI a) (as_Docs a) (kps_MinPasswordLength (cf_KPasswd c)) (servedZones c) (whole_seconds (ds_TTL (cf_DNS c)))
    DefaultPasswordHashCost.

Definition oidc_config (c : Config.Config) (clients : list Client) : OidcConfig :=
  let o := cf_OIDC c in
  mkOidcConfig (os_Issuer o) (os_AllowedOrigins o) clients (os_ServiceAccountGroup o) (os_SessionLifetime o) (os_SessionIdle o)
    (os_CodeLifetime o) (os_TokenLifetime o).

(** ** Sockets and servers *)

Inductive proto : Type := tcp | udp.
Abbreviation socket := (proto * string)%type.
#[export] Instance proto_eq_dec : EqDecision proto.
Proof. solve_decision. Defined.

(** [net.Listen] and [net.ListenPacket]: the address bound, given what this process has bound; and
    [tls.LoadX509KeyPair]. *)
Class Net : Type := { net_Listen : proto -> string -> list socket -> option string }.
Class TlsFiles : Type := { KeyPair : Type; LoadX509KeyPair : string -> string -> option KeyPair }.

(** Where a listener's certificate comes from: the files, or what the Vault enrollment delivers. *)
Inductive tls_source `{TlsFiles} : Type := tls_plain | tls_pair (p : KeyPair) | tls_holder.

Inductive service `{TlsFiles, ECDSA} : Type :=
| run_vaultpki (realm addr : string)
| run_ldap (cfg : LdapConfig) (startTLS ldapsTLS : tls_source)
| run_kdc (cfg : Ticket.Config)
| run_kpasswd (cfg : KpConfig)
| run_dns (cfg : DnsConfig)
| run_dockerdns (cfg : DockerConfig) (base : string)
| run_api (cfg : ApiConfig) (sig : Signer) (spn : Name) (tls : tls_source)
| run_oidc (cfg : OidcConfig) (sig : Signer) (secure : bool) (mount : option (ApiConfig * Signer * Name)) (tls : tls_source).

Inductive StartErr : Type :=
| se_enctypes (e : KeyError)
| se_store (e : StoreErr)
| se_plan_file
| se_plan (e : PlanErr)
| se_tls (path : string)
| se_ldap
| se_spn (e : SpnError)
| se_listen (p : proto) (addr : string)
| se_kdc
| se_kpasswd
| se_dns
| se_docker
| se_api (e : ApiStartErr)
| se_secret (client : string)
| se_oidc (e : NewErr)
| se_nothing.

Section Start.
Context `{Ck : Clock, Rn : Rand, Ae : AEAD, Bc : Bcrypt, El : EncTypeLib, Dl : DnsLib, Ul : UrlLib, Js : JSON, Sh : Sha256, Ec : ECDSA}.
Context `{Fs : Files, Nt : Net, Tl : TlsFiles} (plan_yaml : bytes -> decoded).

Record Proc : Type := mkProc { pr_st : St; pr_bound : list socket; pr_services : list (service * list socket) }.

Abbreviation R := (M Proc StartErr).

(** A call of the store. *)
Definition in_store {E T} (f : E -> StartErr) (m : M St E T) : R T := fun p =>
  let '(r, s) := m (pr_st p) in
  (match r with Ok x => Ok x | Err e => Err (f e) | Panic => Panic end, mkProc s (pr_bound p) (pr_services p)).

(** ** Before any listener *)

Definition applyBootstrap (c : Config.Config) (encTypes : list Z) : R (option Summary) :=
  if is_empty (cf_BootstrapFile c) then mret None
  else
    plan ← lift (or_err se_plan_file (Load_plan ReadFile plan_yaml (cf_BootstrapFile c)));
    sum ← in_store se_plan (Apply DefaultPasswordHashCost (plan_options c encTypes) plan);
    mret (Some sum).

(** What the servers are started with. *)
Record Realm_state : Type := mkRealmState { rs_encTypes : list Z; rs_domainSID : string; rs_idRange : IDRange; rs_summary : option Summary }.

Definition prepare (c : Config.Config) : R Realm_state :=
  encTypes ← lift (match ResolveEncTypes (kc_EncTypes (cf_KDC c)) with Ok l => Ok l | Err e => Err (se_enctypes e) | Panic => Panic end);
  _ ← in_store se_store (EnsureRealm (sv_Realm (cf_Server c)) encTypes);
  domainSID ← in_store se_store (EnsureDomainSID (sv_DomainSID (cf_Server c)));
  idRange ← in_store se_store (EnsureIDRange (id_range c));
  sum ← applyBootstrap c encTypes;
  mret (mkRealmState encTypes domainSID idRange sum).

(** ** Binding and releasing *)

Definition listen (p : proto) (addr : string) : R string := fun pr =>
  match net_Listen p addr (pr_bound pr) with
  | Some a => (Ok a, mkProc (pr_st pr) ((p, a) :: pr_bound pr) (pr_services pr))
  | None => (Err (se_listen p addr), pr)
  end.

Definition close (sockets : list socket) (pr : Proc) : Proc :=
  mkProc (pr_st pr) (filter (fun s => s ∉ sockets) (pr_bound pr)) (pr_services pr).

(** [m], the sockets released should it fail. *)
Definition or_close {T} (sockets : list socket) (m : R T) : R T := fun pr =>
  match m pr with
  | (Err e, pr') => (Err e, close sockets pr')
  | r => r
  end.

(** [Start] of the KDC, the password service and the name server: both transports on one port. *)
Definition start_both (addr : string) : R (list socket) :=
  a ← listen tcp addr;
  let udpAddr := match SplitHostPort addr with Some (_, port) => if String.eqb port "0" then a else addr | None => addr end in
  b ← or_close [(tcp, a)] (listen udp udpAddr);
  mret [(tcp, a); (udp, b)].

Definition start_one (addr : string) : R (list socket) :=
  a ← listen tcp addr;
  mret [(tcp, a)].

(** [services = append(services, ...)]. *)
Definition started (s : service) (sockets : list socket) : R unit := fun pr =>
  (Ok tt, mkProc (pr_st pr) (pr_bound pr) (pr_services pr ++ [(s, sockets)])).

Definition tls_Load (certPath keyPath : string) : R tls_source :=
  p ← lift (or_err (se_tls certPath) (LoadX509KeyPair certPath keyPath));
  mret (tls_pair p).

(** ** The servers, one by one *)

(** [startLDAP], with [New] and [Start] of ldapsrv/server.go. *)
Definition startLDAP (c : Config.Config) (domainSID : string) (encTypes : list Z) : R unit :=
  let plain := cf_LDAP c in
  let secure := cf_LDAPS c in
  startTLS ← (if ls_Enabled plain && ls_TLS plain then tls_Load (ls_CertPath plain) (ls_KeyPath plain) else mret tls_plain);
  ldapsTLS ← (if ls_Enabled secure then
                if is_empty (ls_CertPath secure) then mret tls_holder else tls_Load (ls_CertPath secure) (ls_KeyPath secure)
              else mret tls_plain);
  let cfg := ldap_config c domainSID encTypes in
  _ ← throw_if (is_empty (lc_BaseDN cfg)) se_ldap;
  _ ← in_store se_spn (EnsureServicePrincipal (NewHandler cfg));
  a ← (if ls_Enabled plain then start_one (ls_Listen plain) else mret []);
  b ← (if ls_Enabled secure then or_close a (start_one (ls_Listen secure)) else mret []);
  started (run_ldap (NewHandler cfg) startTLS ldapsTLS) (a ++ b).

Definition startKDC (c : Config.Config) (domainSID : string) (encTypes : list Z) : R unit :=
  let cfg := kdc_config c domainSID encTypes in
  _ ← throw_if (negb (New_ok cfg)) se_kdc;
  sockets ← start_both (kc_Listen (cf_KDC c));
  started (run_kdc cfg) sockets.

Definition startKPasswd (c : Config.Config) (encTypes : list Z) : R unit :=
  let cfg := kpasswd_config c encTypes in
  _ ← throw_if (negb (kp_New_ok cfg)) se_kpasswd;
  sockets ← start_both (kps_Listen (cf_KPasswd c));
  started (run_kpasswd cfg) sockets.

Definition startDocker (c : Config.Config) : R unit :=
  let d := ds_Docker (cf_DNS c) in
  '(_, base) ← lift (or_err se_docker (dialer (do_Endpoint d)));
  cfg ← lift (or_err se_docker (newDiscovery (do_Networks d) (ds_Zone (cf_DNS c)) (whole_seconds (ds_TTL (cf_DNS c)))));
  started (run_dockerdns cfg base) [].

Definition startDNS (c : Config.Config) : R unit :=
  cfg ← lift (or_err se_dns (Dns.normalize (dns_config c)));
  sockets ← start_both (ds_Listen (cf_DNS c));
  _ ← started (run_dns cfg) sockets;
  if do_Enabled (ds_Docker (cf_DNS c)) then startDocker c else mret tt.

(** The handler to mount under the provider, when one listener serves both. *)
Definition startAPI (c : Config.Config) (encTypes : list Z) : R (option (ApiConfig * Signer * Name)) :=
  let l := as_Listener (cf_API c) in
  tls ← (if ls_TLS l then tls_Load (ls_CertPath l) (ls_KeyPath l) else mret tls_plain);
  '(cfg, sig, spn) ← in_store se_api (New_api (api_config c encTypes));
  if shareOIDCListener c then mret (Some (cfg, sig, spn))
  else
    sockets ← start_one (ls_Listen l);
    _ ← started (run_api cfg sig spn tls) sockets;
    mret None.

Definition oidc_client (cl : OIDCClient) : R Client :=
  secret ← (if non_empty (ocl_SecretFile cl) then
              raw ← lift (or_err (se_secret (ocl_ID cl)) (ReadFile (ocl_SecretFile cl)));
              mret (TrimSpace (string_of_bytes raw))
            else mret (ocl_Secret cl));
  mret (mkClient (ocl_ID cl) (ocl_Name cl) secret (ocl_RedirectURIs cl) (ocl_PostLogoutRedirect cl)).

Fixpoint oidc_clients (cls : list OIDCClient) : R (list Client) :=
  match cls with
  | [] => mret []
  | cl :: cls' => x ← oidc_client cl; xs ← oidc_clients cls'; mret (x :: xs)
  end.

Definition startOIDC (c : Config.Config) (mount : option (ApiConfig * Signer * Name)) : R unit :=
  let l := os_Listener (cf_OIDC c) in
  tls ← (if ls_TLS l then tls_Load (ls_CertPath l) (ls_KeyPath l) else mret tls_plain);
  clients ← oidc_clients (os_Clients (cf_OIDC c));
  '(sig, secure) ← in_store se_oidc (Oidc.New (oidc_config c clients));
  sockets ← start_one (ls_Listen l);
  started (run_oidc (oidc_config c clients) sig secure mount tls) sockets.

(** ** [run] *)

Definition start_servers (c : Config.Config) (rs : Realm_state) : R unit :=
  let domainSID := rs_domainSID rs in
  let encTypes := rs_encTypes rs in
  _ ← started (run_vaultpki (sv_Realm (cf_Server c)) (kdcClientAddress (kc_Listen (cf_KDC c)))) [];
  _ ← (if ls_Enabled (cf_LDAP c) || ls_Enabled (cf_LDAPS c) then startLDAP c domainSID encTypes else mret tt);
  _ ← (if kc_Enabled (cf_KDC c) then startKDC c domainSID encTypes else mret tt);
  _ ← (if kps_Enabled (cf_KPasswd c) then startKPasswd c encTypes else mret tt);
  _ ← (if ds_Enabled (cf_DNS c) then startDNS c else mret tt);
  mount ← ((if ls_Enabled (as_Listener (cf_API c)) then startAPI c encTypes else mret None) : R (option (ApiConfig * Signer * Name)));
  _ ← (if ls_Enabled (os_Listener (cf_OIDC c)) then startOIDC c mount else mret tt);
  ((fun pr => if (List.length (pr_services pr) =? 0)%nat then (Err se_nothing, pr) else (Ok tt, pr)) : R unit).

(** The deferred loop: the servers in the reverse of the order they were started. *)
Definition shutdown_all (pr : Proc) : Proc :=
  foldr (fun x p => close (snd x) p) (mkProc (pr_st pr) (pr_bound pr) []) (pr_services pr).

(** The realm, the process while it waits for the signal, or the error; and the process it leaves. *)
Definition run (c : Config.Config) (pr : Proc) : outcome StartErr Proc * Proc :=
  match (rs ← prepare c; start_servers c rs) pr with
  | (Ok _, pr') => (Ok pr', shutdown_all pr')
  | (Err e, pr') => (Err e, shutdown_all pr')
  | (Panic, pr') => (Panic, pr')
  end.
End Start.
