(* ===== verification/StartupFacts.v ===== *)
(** * What starting and stopping promise *)

From S2P Require Import Prelude Text Hostport Duration Netip Names Keytab Failban Replay Model Secret IdRange Db Principals PrincipalFacts Zone Dns DockerDns Directory Accounts Sidgen Certs LdapEntries Sasl Jws Oidc Bootstrap Config ConfigFacts Vault Api Messages Ticket Kdc Server Kpasswd Startup.

(** ** Sockets: what is bound is released *)

(** A socket that is bound is not bound again. *)
Class NetLaws (Nt : Net) : Prop := { net_fresh : forall p addr bound a, net_Listen p addr bound = Some a -> (p, a) ∉ bound }.

Section Sockets.
Context `{Ck : Clock, Rn : Rand, Ae : AEAD, Bc : Bcrypt, El : EncTypeLib, Dl : DnsLib, Ul : UrlLib, Js : JSON, Sh : Sha256, Ec : ECDSA}.
Context `{Fs : Files, Nt : Net, Tl : TlsFiles, !NetLaws Nt} (plan_yaml : bytes -> decoded).

Abbreviation R := (M Proc StartErr).

(** The name a server is logged under when it does not stop. *)
Definition service_name (s : service) : string :=
  match s with
  | run_vaultpki _ _ => "vaultpki" | run_ldap _ _ _ => "ldap" | run_kdc _ => "kdc" | run_kpasswd _ => "kpasswd" | run_dns _ => "dns"
  | run_dockerdns _ _ => "dockerdns" | run_api _ _ _ _ => "api" | run_oidc _ _ _ _ _ => "oidc"
  end.

Definition owned (pr : Proc) : list socket := concat (snd <$> pr_services pr).
Definition names (pr : Proc) : list string := service_name ∘ fst <$> pr_services pr.

(** Besides the sockets [b0] that were there before, the servers' and those in hand are bound. *)
Definition holds (b0 extra : list socket) (pr : Proc) : Prop :=
  exists l, pr_bound pr = l ++ b0 /\ NoDup (l ++ b0) /\ l ≡ₚ extra ++ owned pr.

(** A step that starts with the sockets [extra] in hand: should it fail, those of [err] are left in
    hand; a result of it has those of [Post] in hand, and [adds] are the servers started. *)
Definition guards {T} (err extra : list socket) (m : R T) (Post : T -> list socket) (adds : list string) : Prop :=
  forall b0 pr r pr', holds b0 extra pr -> m pr = (r, pr') ->
    match r with
    | Ok x => holds b0 (Post x) pr' /\ names pr' = names pr ++ adds
    | Err _ => holds b0 err pr'
    | Panic => True
    end.

Lemma holds_perm b0 e1 e2 pr : e1 ≡ₚ e2 -> holds b0 e1 pr -> holds b0 e2 pr.
Proof. intros He (l & E & Hn & Hp). exists l. by rewrite <- He. Qed.
Lemma guards_perm {T} err extra (m : R T) P Q adds : (forall x, P x ≡ₚ Q x) -> guards err extra m P adds -> guards err extra m Q adds.
Proof. intros HP Hm b0 pr r pr' Hh Hrun. specialize (Hm _ _ _ _ Hh Hrun). destruct r; [|done..]. split; [eapply holds_perm; [apply HP|]|]; apply Hm. Qed.

Lemma guards_bind {T U} err extra (m : R T) (f : T -> R U) Mid Post adds1 adds2 :
  guards err extra m Mid adds1 -> (forall x, guards err (Mid x) (f x) Post adds2) -> guards err extra (x ← m; f x) Post (adds1 ++ adds2).
Proof.
  intros Hm Hf b0 pr r pr' Hh. rewrite bind_run. destruct (m pr) as [[x|e|] pr1] eqn:E1; pose proof (Hm _ _ _ _ Hh E1) as H1; cbn in H1;
    [|by intros [= <- <-]..]. destruct H1 as [H1 N1]. intros E2. specialize (Hf _ _ _ _ _ H1 E2). destruct r; [|done..].
  destruct Hf as [H2 N2]. split; [done|]. by rewrite N2, N1, app_assoc.
Qed.
Lemma guards_ret {T} (x : T) err extra Post : extra ≡ₚ Post x -> guards err extra (mret x) Post [].
Proof. intros Hp b0 pr r pr' Hh [= <- <-]. split; [by eapply holds_perm|]. by rewrite app_nil_r. Qed.
Lemma guards_if {T} (b : bool) err extra (m n : R T) Post adds1 adds2 :
  guards err extra m Post adds1 -> guards err extra n Post adds2 -> guards err extra (if b then m else n) Post (if b then adds1 else adds2).
Proof. by destruct b. Qed.

(** Steps that touch neither the sockets nor the servers. *)
Definition aside {T} (m : R T) : Prop := forall pr r pr', m pr = (r, pr') -> pr_bound pr' = pr_bound pr /\ pr_services pr' = pr_services pr.

Lemma guards_aside {T} (m : R T) extra : aside m -> guards extra extra m (fun _ => extra) [].
Proof.
  intros Hm b0 pr r pr' (l & E1 & Hn & Hp) Hrun. apply Hm in Hrun as [E2 E3].
  assert (holds b0 extra pr') by (exists l; unfold owned; by rewrite E2, E3). destruct r; [|done..]. split; [done|].
  unfold names. by rewrite E3, app_nil_r.
Qed.

Lemma aside_lift {T} (o : outcome StartErr T) : aside (lift o).
Proof. by intros pr r pr' [= <- <-]. Qed.
Lemma aside_ret {T} (x : T) : aside (mret x).
Proof. by intros pr r pr' [= <- <-]. Qed.
Lemma aside_throw_if b e : aside (throw_if b e).
Proof. by intros pr r pr' [= <- <-]. Qed.
Lemma aside_in_store {E T} (f : E -> StartErr) (m : M St E T) : aside (in_store f m).
Proof. intros pr r pr'. unfold in_store. destruct (m (pr_st pr)). by intros [= <- <-]. Qed.
Lemma aside_bind {T U} (m : R T) (f : T -> R U) : aside m -> (forall x, aside (f x)) -> aside (x ← m; f x).
Proof.
  intros Hm Hf pr r pr'. rewrite bind_run. destruct (m pr) as [[x|e|] pr1] eqn:E1; apply Hm in E1 as [E1 F1]; [|by intros [= <- <-]..].
  intros [E2 F2]%Hf. by rewrite E2, F2.
Qed.
Lemma aside_if {T} (b : bool) (m n : R T) : aside m -> aside n -> aside (if b then m else n).
Proof. by destruct b. Qed.
Lemma aside_tls cert key : aside (tls_Load cert key).
Proof. apply aside_bind; [apply aside_lift|]. intros. apply aside_ret. Qed.

Ltac aside :=
  repeat match goal with
  | |- aside (mbind _ _) => apply aside_bind; [|intros ?]
  | |- aside (if _ then _ else _) => apply aside_if
  | |- aside (match ?x with (_, _) => _ end) => destruct x
  | |- aside _ => first [apply aside_lift | apply aside_ret | apply aside_throw_if | apply aside_in_store | apply aside_tls]
  end.

Lemma aside_clients cls : aside (oidc_clients cls).
Proof. induction cls as [|cl cls IH]; cbn [oidc_clients]; [aside|]. unfold oidc_client. aside. apply IH. Qed.

Lemma aside_prepare c : aside (prepare plan_yaml c).
Proof. unfold prepare, applyBootstrap. aside. Qed.

Lemma guards_listen extra p addr : guards extra extra (listen p addr) (fun a => (p, a) :: extra) [].
Proof.
  intros b0 pr r pr' Hh. unfold listen. destruct (net_Listen p addr (pr_bound pr)) as [a|] eqn:En; intros [= <- <-]; [|done].
  destruct Hh as (l & E & Hn & Hp). split; [|symmetry; apply app_nil_r]. apply net_fresh in En. exists ((p, a) :: l). cbn [pr_bound]. rewrite E in *.
  split; [done|]. split; [by constructor|]. unfold owned in *. cbn. by rewrite Hp.
Qed.

Lemma filter_taken (a b : list socket) : NoDup (a ++ b) -> filter (fun s => s ∉ a) (a ++ b) = b.
Proof.
  intros (_ & Hd & _)%NoDup_app. rewrite filter_app, filter_none, filter_all; [done| |].
  - intros x Hx Hin. by destruct (Hd x Hin).
  - intros x Hx Hin. by apply Hin.
Qed.

Lemma close_holds b0 extra pr : holds b0 extra pr -> holds b0 [] (close extra pr).
Proof.
  intros (l & E & Hn & Hp). pose proof Hn as (Hl & Hd & Hb)%NoDup_app. exists (filter (fun s => s ∉ extra) l). unfold close. cbn [pr_bound].
  rewrite E, filter_app, (filter_all _ b0).
  2: { intros x Hx Hin. apply (Hd x); [|done]. rewrite Hp. apply elem_of_app. by left. }
  split; [done|]. split.
  - apply NoDup_app. split; [by apply NoDup_filter|]. split; [|done]. intros x [_ Hx]%list_elem_of_filter. by apply Hd.
  - change ([] ++ owned _) with (owned pr). etrans; [apply (filter_Permutation _ _ _ Hp)|]. rewrite filter_taken; [done|]. by rewrite <- Hp.
Qed.

Lemma guards_or_close {T} extra (m : R T) Post adds : guards extra extra m Post adds -> guards [] extra (or_close extra m) Post adds.
Proof.
  intros Hm b0 pr r pr' Hh. unfold or_close. destruct (m pr) as [[x|e|] pr1] eqn:E1; intros [= <- <-]; specialize (Hm _ _ _ _ Hh E1); [done| |done].
  by apply close_holds.
Qed.

Lemma guards_started s socks : guards [] socks (started s socks) (fun _ => []) [service_name s].
Proof.
  intros b0 pr r pr' (l & E & Hn & Hp) [= <- <-]. unfold names. cbn. rewrite fmap_app. split; [|done]. exists l. split; [done|]. split; [done|].
  unfold owned in *. cbn. rewrite fmap_app, concat_app. cbn. rewrite app_nil_r, Hp. apply Permutation_app_comm.
Qed.

Lemma guards_one extra addr : guards extra extra (start_one addr) (fun l => extra ++ l) [].
Proof.
  unfold start_one. eapply (guards_bind _ _ _ _ _ _ [] []); [apply guards_listen|]. intros a. apply guards_ret. by rewrite Permutation_app_comm.
Qed.

Lemma guards_both addr : guards [] [] (start_both addr) id [].
Proof.
  unfold start_both. eapply (guards_bind _ _ _ _ _ _ [] []); [apply guards_listen|]. intros a.
  eapply (guards_bind _ _ _ _ _ _ [] []); [apply guards_or_close, guards_listen|]. intros b. apply guards_ret. apply perm_swap.
Qed.

(** ** The servers a configuration asks for *)

Definition expected (c : Config.Config) : list string :=
  ["vaultpki"] ++ (if ls_Enabled (cf_LDAP c) || ls_Enabled (cf_LDAPS c) then ["ldap"] else []) ++
  (if kc_Enabled (cf_KDC c) then ["kdc"] else []) ++ (if kps_Enabled (cf_KPasswd c) then ["kpasswd"] else []) ++
  (if ds_Enabled (cf_DNS c) then ["dns"] ++ (if do_Enabled (ds_Docker (cf_DNS c)) then ["dockerdns"] else []) else []) ++
  (if ls_Enabled (as_Listener (cf_API c)) then (if shareOIDCListener c then [] else ["api"]) else []) ++
  (if ls_Enabled (os_Listener (cf_OIDC c)) then ["oidc"] else []).

(** One step aside, then the rest. *)
Lemma guards_then {T U} extra (m : R T) (f : T -> R U) Post adds :
  aside m -> (forall x, guards extra extra (f x) Post adds) -> guards extra extra (x ← m; f x) Post adds.
Proof. intros Hm Hf. eapply (guards_bind _ _ _ _ _ _ [] adds); [by apply guards_aside|done]. Qed.

Ltac step_aside := apply guards_then; [solve [aside]|intros ?; repeat match goal with x : _ * _ |- _ => destruct x end].

Lemma guards_LDAP c sid encs : guards [] [] (startLDAP c sid encs) (fun _ => []) ["ldap"].
Proof.
  unfold startLDAP. do 4 step_aside.
  apply (guards_bind _ _ _ _ id _ [] ["ldap"]); [apply (guards_perm _ _ _ (fun l => [] ++ l)); [done|]|].
  { pose proof (guards_if (ls_Enabled (cf_LDAP c)) [] [] (start_one (ls_Listen (cf_LDAP c))) (mret []) (fun l => [] ++ l) [] []) as Hi.
    destruct (ls_Enabled (cf_LDAP c)); (apply Hi; [apply guards_one|by apply guards_ret]). }
  intros a. apply (guards_bind _ _ _ _ (fun b => a ++ b) _ [] ["ldap"]); [|intros b; apply guards_started].
  destruct (ls_Enabled (cf_LDAPS c)); [apply guards_or_close, guards_one|apply guards_ret]. by rewrite app_nil_r.
Qed.

Lemma guards_KDC c sid encs : guards [] [] (startKDC c sid encs) (fun _ => []) ["kdc"].
Proof. unfold startKDC. step_aside. apply (guards_bind _ _ _ _ id _ [] ["kdc"]); [apply guards_both|]. intros l. apply guards_started. Qed.
Lemma guards_KPasswd c encs : guards [] [] (startKPasswd c encs) (fun _ => []) ["kpasswd"].
Proof. unfold startKPasswd. step_aside. apply (guards_bind _ _ _ _ id _ [] ["kpasswd"]); [apply guards_both|]. intros l. apply guards_started. Qed.
Lemma guards_Docker c : guards [] [] (startDocker c) (fun _ => []) ["dockerdns"].
Proof. unfold startDocker. do 2 step_aside. apply guards_started. Qed.
Lemma guards_DNS c : guards [] [] (startDNS c) (fun _ => []) (["dns"] ++ (if do_Enabled (ds_Docker (cf_DNS c)) then ["dockerdns"] else [])).
Proof.
  unfold startDNS. step_aside. apply (guards_bind _ _ _ _ id _ [] (["dns"] ++ _)); [apply guards_both|]. intros l.
  apply (guards_bind _ _ _ _ (fun _ => [])); [apply guards_started|]. intros _. apply guards_if; [apply guards_Docker|by apply guards_ret].
Qed.
Lemma guards_API c encs : guards [] [] (startAPI c encs) (fun _ => []) (if shareOIDCListener c then [] else ["api"]).
Proof.
  unfold startAPI. do 2 step_aside. apply guards_if; [by apply guards_ret|].
  apply (guards_bind _ _ _ _ id _ [] ["api"]); [apply guards_one|]. intros l. apply (guards_bind _ _ _ _ (fun _ => []) _ ["api"] []); [apply guards_started|].
  intros _. by apply guards_ret.
Qed.
Lemma guards_OIDC c mount : guards [] [] (startOIDC c mount) (fun _ => []) ["oidc"].
Proof.
  unfold startOIDC. step_aside. apply guards_then; [apply aside_clients|]. intros cls. step_aside.
  apply (guards_bind _ _ _ _ id _ [] ["oidc"]); [apply guards_one|]. intros l. apply guards_started.
Qed.

Lemma guards_servers c rs : guards [] [] (start_servers c rs) (fun _ => []) (expected c).
Proof.
  unfold start_servers, expected.
  apply (guards_bind _ _ _ _ (fun _ => [])); [apply guards_started|]. intros _.
  apply (guards_bind _ _ _ _ (fun _ => [])); [apply guards_if; [apply guards_LDAP|by apply guards_ret]|]. intros _.
  apply (guards_bind _ _ _ _ (fun _ => [])); [apply guards_if; [apply guards_KDC|by apply guards_ret]|]. intros _.
  apply (guards_bind _ _ _ _ (fun _ => [])); [apply guards_if; [apply guards_KPasswd|by apply guards_ret]|]. intros _.
  apply (guards_bind _ _ _ _ (fun _ => [])); [apply guards_if; [apply guards_DNS|by apply guards_ret]|]. intros _.
  apply (guards_bind _ _ _ _ (fun _ => [])); [apply guards_if; [apply guards_API|by apply guards_ret]|]. intros mount.
  rewrite <- (app_nil_r (if ls_Enabled (os_Listener _) then _ else _)).
  apply (guards_bind _ _ _ _ (fun _ => [])); [apply guards_if; [apply guards_OIDC|by apply guards_ret]|]. intros _.
  intros b0 pr r pr' Hh. destruct (_ =? 0)%nat; intros [= <- <-]; [done|]. split; [done|]. by rewrite app_nil_r.
Qed.

Lemma shutdown_bound (services : list (service * list socket)) (p : Proc) : pr_bound (foldr (fun x p => close (snd x) p) p services)
  = filter (fun s => s ∉ concat (snd <$> services)) (pr_bound p).
Proof.
  induction services as [|x services IH]; cbn [foldr]; [cbn; symmetry; apply filter_all; intros; apply not_elem_of_nil|].
  unfold close at 1. cbn [pr_bound]. rewrite IH, list_filter_filter. apply list_filter_iff. intros s. cbn. set_solver.
Qed.

End Sockets.

(** ** A configuration that loads starts *)

Section Starts.
Context `{Ck : Clock, Rn : Rand, Ae : AEAD, Bc : Bcrypt, El : EncTypeLib, Dl : DnsLib, Ul : UrlLib, Js : JSON, Sh : Sha256, Ec : ECDSA}.
Context `{Fs : Files, Nt : Net, Tl : TlsFiles} (plan_yaml : bytes -> decoded).

Abbreviation R := (M Proc StartErr).

(** The errors that lie in the configuration alone. *)
Definition foreseen (e : StartErr) : bool :=
  match e with
  | se_ldap | se_kdc | se_kpasswd | se_dns | se_docker | se_nothing => true
  | se_api start_realm | se_api start_base => true
  | se_oidc (ne_key _) => false
  | se_oidc _ => true
  | _ => false
  end.

(** Servers are only added, and once there are [n] no error of these is met. *)
Definition sound {T} (n : nat) (m : R T) : Prop := forall pr r pr', m pr = (r, pr') ->
  (List.length (pr_services pr) <= List.length (pr_services pr'))%nat /\
  forall e, r = Err e -> (n <= List.length (pr_services pr))%nat -> foreseen e = false.

Lemma sound_bind {T U} n (m : R T) (f : T -> R U) : sound n m -> (forall x pr pr', m pr = (Ok x, pr') -> sound n (f x)) -> sound n (x ← m; f x).
Proof.
  intros Hm Hf pr r pr'. rewrite bind_run. destruct (m pr) as [[x|e|] pr1] eqn:E1; destruct (Hm _ _ _ E1) as [L1 H1].
  - intros E2. destruct (Hf _ _ _ E1 _ _ _ E2) as [L2 H2]. split; [lia|]. intros e Ee Hl. apply H2; [done|lia].
  - intros [= <- <-]. split; [done|]. intros e' [= <-]. by apply H1.
  - by intros [= <- <-].
Qed.
Lemma sound_ret {T} n (x : T) : sound n (mret x).
Proof. by intros pr r pr' [= <- <-]. Qed.
Lemma sound_lift {T} n (o : outcome StartErr T) : (forall e, o = Err e -> foreseen e = false) -> sound n (lift o).
Proof. intros Ho pr r pr' [= <- <-]. split; [done|]. auto. Qed.
Lemma sound_or_err {T} n e (o : option T) : is_Some o \/ foreseen e = false -> sound n (lift (or_err e o)).
Proof. intros Ho. apply sound_lift. intros e'. destruct o; [done|]. intros [= <-]. by destruct Ho as [[? ?]|?]. Qed.
Lemma sound_throw_if n b e : b = false \/ foreseen e = false -> sound n (throw_if b e).
Proof. intros Hb. apply sound_lift. intros e'. destruct b; [|done]. intros [= <-]. by destruct Hb. Qed.
Lemma sound_in_store {E T} n (f : E -> StartErr) (m : M St E T) : (forall s e s', m s = (Err e, s') -> foreseen (f e) = false) -> sound n (in_store f m).
Proof.
  intros Hm pr r pr'. unfold in_store. destruct (m (pr_st pr)) as [[x|e|] s'] eqn:E1; intros [= <- <-]; (split; [done|]); try done.
  intros e' [= <-] _. by eapply Hm.
Qed.
Lemma sound_if {T} n (b : bool) (m m' : R T) : (b = true -> sound n m) -> (b = false -> sound n m') -> sound n (if b then m else m').
Proof. destruct b; auto. Qed.
Lemma sound_listen n p addr : sound n (listen p addr).
Proof. intros pr r pr'. unfold listen. destruct (net_Listen _ _ _); intros [= <- <-]; (split; [done|]); [done|]. by intros e [= <-]. Qed.
Lemma sound_or_close {T} n socks (m : R T) : sound n m -> sound n (or_close socks m).
Proof.
  intros Hm pr r pr'. unfold or_close. destruct (m pr) as [[x|e|] pr1] eqn:E1; destruct (Hm _ _ _ E1) as [L H]; intros [= <- <-]; done.
Qed.
Lemma sound_started n s socks : sound n (started s socks).
Proof. intros pr r pr' [= <- <-]. cbn. rewrite length_app. split; [lia|done]. Qed.
Lemma sound_one n addr : sound n (start_one addr).
Proof. apply sound_bind; [apply sound_listen|]. intros. apply sound_ret. Qed.
Lemma sound_both n addr : sound n (start_both addr).
Proof. apply sound_bind; [apply sound_listen|]. intros. apply sound_bind; [apply sound_or_close, sound_listen|]. intros. apply sound_ret. Qed.
Lemma sound_tls n cert key : sound n (tls_Load cert key).
Proof. apply sound_bind; [apply sound_or_err; by right|]. intros. apply sound_ret. Qed.

(** The step at hand; what is left are the checks of the configuration. *)
Ltac sound :=
  repeat match goal with
  | |- sound _ (mbind _ _) => apply sound_bind; [|intros ? ? ? ?; repeat match goal with x : _ * _ |- _ => destruct x end]
  | |- sound _ (if _ then _ else _) => apply sound_if; intros ?
  | |- sound _ (mret _) => apply sound_ret
  | |- sound _ (started _ _) => apply sound_started
  | |- sound _ (start_one _) => apply sound_one
  | |- sound _ (start_both _) => apply sound_both
  | |- sound _ (tls_Load _ _) => apply sound_tls
  | |- sound _ (or_close _ _) => apply sound_or_close
  | |- sound _ (throw_if _ _) => apply sound_throw_if
  | |- sound _ (lift (or_err _ _)) => apply sound_or_err
  end.

Lemma select_networks_ok nets : Forall (fun n => n <> EmptyString /\
    (contains_char "/"%char n = true -> exists p, ParsePrefix n = Some p /\ Is4 (pf_Addr p) = true)) nets -> is_Some (select_networks nets).
Proof.
  induction 1 as [|n nets [_ Hn] Hf [[names prefixes] IH]]; [done|]. cbn [select_networks]. destruct (contains_char "/"%char n).
  - destruct Hn as (p & -> & _); [done|]. cbn. rewrite IH. eauto.
  - rewrite IH. eauto.
Qed.

Lemma oidc_clients_ids cls pr l pr' : oidc_clients cls pr = (Ok l, pr') -> cl_ID <$> l = ocl_ID <$> cls.
Proof.
  revert pr l pr'. induction cls as [|cl cls IH]; intros pr l pr' Hrun; cbn [oidc_clients] in Hrun; [by run_inv|].
  unfold oidc_client in Hrun. run_inv. cbn. f_equal. by eapply IH.
Qed.

Lemma sound_clients n cls : sound n (oidc_clients cls).
Proof. induction cls as [|cl cls IH]; cbn [oidc_clients]; unfold oidc_client; sound; [by right|done]. Qed.

Lemma checkConfig_ok c clients : oidc_wf (cf_OIDC c) -> cl_ID <$> clients = ocl_ID <$> os_Clients (cf_OIDC c) ->
  exists secure, checkConfig (oidc_config c clients) = Ok secure.
Proof.
  intros [Hi (u & Hu & Hs & Hh) Hsl [Hne Hids]] Hcl. unfold checkConfig. cbn [oidc_config oc_Issuer oc_Clients].
  rewrite (proj2 (is_empty_no _) Hi). cbn [err_if mbind outcome_bind]. rewrite Hu. cbn [or_err mbind outcome_bind].
  rewrite (proj2 (is_empty_no _) Hs), (proj2 (is_empty_no _) Hh), Hsl. cbn [orb err_if].
  destruct clients as [|cl clients]; [by destruct (os_Clients (cf_OIDC c))|]. cbn [List.length Nat.eqb err_if].
  rewrite (proj2 (existsb_false _ _)); [by eexists|]. intros x Hx. apply is_empty_no.
  assert (Hin : cl_ID x ∈ ocl_ID <$> os_Clients (cf_OIDC c)) by (rewrite <- Hcl; by apply list_elem_of_fmap_2).
  apply list_elem_of_fmap in Hin as (y & -> & Hy). rewrite Forall_forall in Hids. by apply Hids.
Qed.

Lemma New_oidc_err cfg secure s e s' : checkConfig cfg = Ok secure -> Oidc.New cfg s = (Err e, s') -> foreseen (se_oidc e) = false.
Proof.
  intros Hc. unfold Oidc.New. rewrite bind_run. unfold lift at 1. rewrite Hc, bind_run. destruct (LoadOrCreate _ _) as [[]]; by intros [= <- <-].
Qed.

Lemma New_api_err cfg s e s' : apc_Realm cfg <> EmptyString -> apc_BaseDN cfg <> EmptyString -> New_api cfg s = (Err e, s') -> foreseen (se_api e) = false.
Proof.
  intros Hr Hb. unfold New_api. rewrite bind_run. unfold throw_if, lift, err_if. rewrite (proj2 (is_empty_no _) Hr), bind_run, (proj2 (is_empty_no _) Hb), bind_run.
  unfold mapped. destruct (LoadOrCreate _ s) as [[sig|e1|] s1]; [|by intros [= <- <-]..]. rewrite bind_run.
  destruct (ensureSPN _ s1) as [[n|e1|] s2]; by intros [= <- <-].
Qed.

(** The configuration, with names that are more than dots. *)
Record startable (c : Config.Config) : Prop := {
  sb_wf : config_wf c;
  sb_base : sv_BaseDN (cf_Server c) <> EmptyString;
  sb_names : ds_Enabled (cf_DNS c) = true -> NormalizeDNSName (ds_Zone (cf_DNS c)) <> EmptyString /\ NormalizeDNSName (ds_Hostname (cf_DNS c)) <> EmptyString;
}.

Section Servers.
Context (c : Config.Config) (Hc : startable c) (encs : list Z) (Hencs : encs <> []).

Lemma realm_ne : sv_Realm (cf_Server c) <> EmptyString.
Proof. destruct (cw_realm _ (sb_wf _ Hc)) as [[? _]%realmRE_chars _]. done. Qed.

Lemma sound_LDAP sid n : sound n (startLDAP c sid encs).
Proof.
  unfold startLDAP. sound; [left; apply is_empty_no, sb_base, Hc|by apply sound_in_store].
Qed.
Lemma sound_KDC sid n : sound n (startKDC c sid encs).
Proof.
  unfold startKDC. sound. left. apply negb_false_iff. unfold New_ok. cbn [kdc_config cfg_Realm cfg_EncTypes cfg_ClockSkew].
  pose proof realm_ne as Hr. pose proof (cw_skew _ (sb_wf _ Hc)) as Hk%Z.ltb_lt. rewrite Hk. destruct (sv_Realm _); [done|]. by destruct encs.
Qed.
Lemma sound_KPasswd n : sound n (startKPasswd c encs).
Proof.
  unfold startKPasswd. sound. left. apply negb_false_iff. unfold kp_New_ok. cbn [kpasswd_config kp_Realm kp_EncTypes].
  pose proof realm_ne as Hr. destruct (sv_Realm _); [done|]. by destruct encs.
Qed.
Lemma sound_Docker n : do_Enabled (ds_Docker (cf_DNS c)) = true -> sound n (startDocker c).
Proof.
  intros He. destruct (cw_docker _ (sb_wf _ Hc) He) as [_ [(u & Hu & Hs) [_ Hn] _]]. unfold startDocker. sound; left.
  - unfold dialer. rewrite Hu. cbn [mbind option_bind]. destruct Hs as [[-> _]|[[-> | ->] _]]; cbn; eauto.
  - unfold newDiscovery. destruct (select_networks_ok _ Hn) as [[names prefixes] ->]. cbn. eauto.
Qed.
Lemma sound_DNS n : ds_Enabled (cf_DNS c) = true -> sound n (startDNS c).
Proof.
  intros He. unfold startDNS. sound; [left|by apply sound_Docker]. destruct (sb_names _ Hc He) as [Hz Hh]. destruct (cw_dns _ (sb_wf _ Hc) He) as [_ [_ Ha] _].
  unfold Dns.normalize. cbn [dns_config dc_Zone dc_Hostname dc_Addresses]. rewrite (proj2 (is_empty_no _) Hz), (proj2 (is_empty_no _) Hh).
  replace (forallb _ _) with true; [by eexists|]. symmetry. apply forallb_forall. intros a Hin%list_elem_of_In. rewrite Forall_forall in Ha.
  by apply bool_decide_eq_true, Ha.
Qed.
Lemma sound_API n : sound n (startAPI c encs).
Proof.
  unfold startAPI. sound. apply sound_in_store. intros s e s'. apply New_api_err; [apply realm_ne|apply sb_base, Hc].
Qed.
Lemma sound_OIDC mount n : ls_Enabled (os_Listener (cf_OIDC c)) = true -> sound n (startOIDC c mount).
Proof.
  intros He. unfold startOIDC. sound; [apply sound_clients|]. apply sound_in_store. intros s e s'.
  match goal with H : oidc_clients _ _ = _ |- _ => apply oidc_clients_ids in H as Hids end.
  destruct (checkConfig_ok c _ (cw_oidc _ (sb_wf _ Hc) He) Hids) as [secure Hk]. by apply (New_oidc_err _ secure).
Qed.

Lemma start_servers_err sid range sum pr e pr' : start_servers c (mkRealmState encs sid range sum) pr = (Err e, pr') -> foreseen e = false.
Proof.
  unfold start_servers. rewrite bind_run. cbn beta zeta. unfold started at 1. set (pr1 := mkProc _ _ _).
  match goal with |- ?m pr1 = _ -> _ => assert (Hm : sound 1 m) end.
  { sound; auto using sound_LDAP, sound_KDC, sound_KPasswd, sound_DNS, sound_API, sound_OIDC.
    intros p r p'. destruct (_ =? 0)%nat eqn:E0; intros [= <- <-]; (split; [done|]); [|done]. intros e' [= <-] Hl.
    apply Nat.eqb_eq in E0. lia. }
  intros Hrun. apply Hm in Hrun as [_ Herr]. apply Herr; [done|]. unfold pr1. cbn. rewrite length_app. cbn. lia.
Qed.
End Servers.

Lemma prepare_err c pr e pr' : prepare plan_yaml c pr = (Err e, pr') -> foreseen e = false.
Proof.
  assert (H : sound 0 (prepare plan_yaml c)).
  { unfold prepare, applyBootstrap. sound; try (by apply sound_in_store); [|by right]. apply sound_lift. intros e'. destruct (ResolveEncTypes _); by intros [= <-]. }
  intros Hrun. apply H in Hrun as [_ Herr]. apply Herr; [done|lia].
Qed.

(** C25: what the checks of a configuration are for: when [run] fails under a configuration that is
    well-formed as a loaded one is, whose base DN is not empty and whose zone and host name are more
    than dots, the cause lies outside it: an enctype the library does not have, a file, an address that
    cannot be bound, a service principal, or the store. No server refuses the settings it is given. *)
Theorem loaded_starts (c : Config.Config) (pr pr' : Proc) (e : StartErr) :
  startable c -> run plan_yaml c pr = (Err e, pr') -> foreseen e = false.
Proof.
  intros Hc. unfold run. rewrite bind_run. destruct (prepare plan_yaml c pr) as [[rs|e1|] pr1] eqn:E1.
  - destruct rs as [encs sid range sum]. assert (Hne : encs <> []).
    { unfold prepare in E1. run_inv. destruct (ResolveEncTypes _) as [l|?|] eqn:E2; [|done..]. run_inv. injection E1 as <- _ _ _ _. by apply ResolveEncTypes_spec in E2 as [? _]. }
    destruct (start_servers _ _ _) as [[u|e2|] pr2] eqn:E2; [done| |done]. intros [= <- _]. by eapply start_servers_err.
  - intros [= <- _]. by eapply prepare_err.
  - done.
Qed.
End Starts.
