(* ===== verification/Restart.v ===== *)
(** * Starting again

    What a start brings into place is found by the next one, which changes nothing; and no later start
    succeeds under another realm, another domain identifier or another identifier range. *)

From S2P Require Import Prelude Text Hostport Duration Netip Names Keytab Failban Replay Model Secret IdRange Db Principals PrincipalFacts Zone ZoneFacts Dns DnsFacts DockerDns Directory DirectoryFacts Accounts Sidgen Certs AccountsOk LdapEntries Sasl Jws Oidc Bootstrap BootstrapFacts BootstrapTwice Config ConfigFacts Vault Api Messages Ticket Kdc Server Kpasswd Startup StartupFacts.

(** ** What the invariants look at *)

Lemma ready_ext d d' : same_accounts d d' -> kt d' = kt d -> ready d -> ready d'.
Proof.
  intros Hs Ek (Ha & Hk & Hl). split; [by eapply same_accounts_ok|]. rewrite Ek. split; [done|]. unfold linked in *. rewrite Ek.
  destruct Hs as (_ & _ & -> & _). done.
Qed.
Lemma ready_meta_moved keys d d' : meta_moved keys d d' -> ready d -> ready d'.
Proof. intros [[= E1 E2 E3] _]. apply ready_ext; [|done]. unfold same_accounts. by rewrite E2, E3. Qed.
Lemma sids_grow_facts d d' : sids_grow d d' -> same_accounts d d' /\ kt d' = kt d /\ zt d' = zt d /\ meta d' = meta d.
Proof. intros (E1 & E2 & [= Em Ek Ez Es1 Es2] & _). unfold same_accounts. by rewrite Ez. Qed.

Section Restart.
Context `{Ck : Clock, Rn : Rand, Ae : AEAD, Bc : Bcrypt, El : EncTypeLib, Dl : DnsLib, Ul : UrlLib, Js : JSON, Sh : Sha256, Ec : ECDSA}.
Context `{Fs : Files, Nt : Net, Tl : TlsFiles, !RandLaws Rn, !AEADLaws Ae} (plan_yaml : bytes -> decoded).

Lemma has_principal_kt n d d' : kt d' = kt d -> has_principal n d -> has_principal n d'.
Proof.
  intros Ek (p & (r & keys & Hr & Hk & _)%getPrincipal_Ok). eexists. apply getPrincipal_Ok. exists r, keys. rewrite Ek. split; [done|]. split; [|done].
  unfold loadKeys in *. by rewrite Ek.
Qed.
Lemma described_kept opts plan d d' : users (dt d') = users (dt d) -> groups (dt d') = groups (dt d) -> kt d' = kt d -> zt d' = zt d ->
  described opts plan d -> described opts plan d'.
Proof.
  intros E1 E2 Ek Ez (Hg & Hu & Hp & Hd). unfold described, has_group, has_user, has_record in *. rewrite E1, E2, Ez. split_and!; [done..| |done].
  intros p Hin n Hn. eapply has_principal_kt; [done|]. by apply (Hp p Hin).
Qed.

(** ** The realm and its two principals *)

Definition krbtgt_name (realm : string) : Name := mkName ["krbtgt"; realm] realm.
Definition changepw_name (realm : string) : Name := mkName ["kadmin"; "changepw"] realm.

Lemma ensureServicePrincipal_leads n encs s b s' : ParseName (Principal_of n) (Realm n) = Ok n -> ready (st_db s) ->
  ensureServicePrincipal n encs s = (Ok b, s') -> leads (has_principal n) (st_db s) (st_db s').
Proof.
  intros Hn Hr. unfold ensureServicePrincipal, GetPrincipal, query_outcome. destruct (getPrincipal (st_db s) n 0) as [p|[]|] eqn:Eg; try done.
  { intros [= <- <-]. left. split; [done|]. by exists p. }
  intros Hrun. run_inv. match goal with H : random_keys _ _ = _ |- _ => apply keeps_random_keys in H as E1 end.
  match goal with H : time_now _ = _ |- _ => apply keeps_time_now in H as E2 end.
  match goal with H : CreatePrincipal _ _ _ = _ |- _ => eapply (CreatePrincipal_step _ _ n) in H as (H1 & H2 & H3); [|done|by rewrite E2, E1] end.
  right. rewrite E2, E1 in H2. done.
Qed.
Lemma ensureServicePrincipal_known n encs t : has_principal n (st_db t) -> ensureServicePrincipal n encs t = (Ok false, t).
Proof. intros [p Hp]. unfold ensureServicePrincipal, GetPrincipal, query_outcome. by rewrite Hp. Qed.

Lemma leads_ready (H : DB -> Prop) d d' : ready d -> leads H d d' -> ready d' /\ H d' /\ meta d' = meta d /\ forall P, stable P -> P d -> P d'.
Proof.
  intros Hr [[-> Hh]|(H1 & H2 & H3)]; [done|]. split; [done|]. split; [done|]. split; [apply (so_meta _ _ _ _ _ _ H2)|]. intros P HP. by apply HP.
Qed.

Section Realm.
Context (realm : string) (Hre : realmRE realm = true) (Hup : ToUpper realm = realm).

Lemma tgs_parses : ParseName ("krbtgt/" +:+ realm) realm = Ok (krbtgt_name realm).
Proof.
  destruct (realmRE_chars _ Hre) as [Hne Hch]. unfold krbtgt_name. rewrite <- Hup at 4. apply (ParseName_plain "krbtgt" [realm]); [|done].
  constructor; [by vm_compute|]. constructor; [by apply realm_plain|constructor].
Qed.
Lemma changepw_parses : ParseName "kadmin/changepw" realm = Ok (changepw_name realm).
Proof.
  destruct (realmRE_chars _ Hre) as [Hne _]. unfold changepw_name. rewrite <- Hup at 2. apply (ParseName_plain "kadmin" ["changepw"]); [|done].
  repeat (constructor; [by vm_compute|]). constructor.
Qed.

Lemma EnsureRealm_unfold encs s : EnsureRealm realm encs s =
  (initialized ← (fun s => match GetMeta MetaRealm s with
    | (Ok existing, s1) => if String.eqb existing realm then (Ok false, s1) else (Err ErrMeta, s1)
    | (Err ErrNotFound, s1) => (_ ← SetMeta MetaRealm realm; mret true) s1
    | (Err e, s1) => (Err e, s1)
    | (Panic, s1) => (Panic, s1)
    end) : Tx bool;
   c1 ← ensureServicePrincipal (krbtgt_name realm) encs;
   c2 ← ensureServicePrincipal (changepw_name realm) encs;
   mret (initialized || c1 || c2)) s.
Proof. unfold EnsureRealm. rewrite Hup. unfold MustParseName. rewrite tgs_parses, changepw_parses. reflexivity. Qed.

Definition realm_there (d : DB) : Prop :=
  meta d !! MetaRealm = Some realm /\ has_principal (krbtgt_name realm) d /\ has_principal (changepw_name realm) d.

Lemma EnsureRealm_first encs s b s' : ready (st_db s) -> EnsureRealm realm encs s = (Ok b, s') ->
  ready (st_db s') /\ realm_there (st_db s') /\ forall key, key <> MetaRealm -> meta (st_db s') !! key = meta (st_db s) !! key.
Proof.
  intros Hr. rewrite EnsureRealm_unfold. intros Hrun. apply M_bind_Ok in Hrun as (i & s1 & Hi & Hrun).
  assert (Hm : meta_moved [MetaRealm] (st_db s) (st_db s1) /\ meta (st_db s1) !! MetaRealm = Some realm).
  { unfold GetMeta, query_outcome in Hi. destruct (meta (st_db s) !! MetaRealm) as [v|] eqn:Ev; cbn [or_err] in Hi.
    - destruct (String.eqb_spec v realm) as [->|]; [|done]. by injection Hi as <- <-.
    - injection Hi as <- <-. split; [|cbn; apply lookup_insert_eq]. split; [done|]. intros key Hk. cbn. rewrite lookup_insert_ne; [done|]. set_solver. }
  destruct Hm as [Hm Hv]. apply (ready_meta_moved _ _ _ Hm) in Hr. destruct Hm as [_ Hm].
  apply M_bind_Ok in Hrun as (c1 & s2 & H1 & Hrun). apply M_bind_Ok in Hrun as (c2 & s3 & H2 & Hrun). injection Hrun as <- <-.
  apply ensureServicePrincipal_leads in H1; [|apply tgs_parses|done]. apply leads_ready in H1 as (R1 & P1 & M1 & _); [|done].
  apply ensureServicePrincipal_leads in H2; [|apply changepw_parses|done]. apply leads_ready in H2 as (R2 & P2 & M2 & K2); [|done].
  split; [done|]. unfold realm_there. rewrite M2, M1. split; [split_and!; [done|by apply K2; [apply stable_principal|]|done]|].
  intros key Hk. apply Hm. set_solver.
Qed.

Lemma EnsureRealm_again encs t : realm_there (st_db t) -> EnsureRealm realm encs t = (Ok false, t).
Proof.
  intros (Hv & H1 & H2). rewrite EnsureRealm_unfold, bind_run. unfold GetMeta, query_outcome. rewrite Hv. cbn [or_err]. rewrite String.eqb_refl, bind_run.
  rewrite ensureServicePrincipal_known by done. by rewrite bind_run, ensureServicePrincipal_known.
Qed.
End Realm.

(** ** The domain identifier *)

Definition sid_there (configured sid : string) (d : DB) : Prop :=
  meta d !! MetaDomainSID = Some sid /\ sid <> EmptyString /\ (configured = EmptyString \/ configured = sid).

Lemma sid_text (s : string) : negb (String.length s =? 0)%nat = true <-> s <> EmptyString.
Proof. by destruct s. Qed.

Lemma EnsureDomainSID_first configured s sid s' : EnsureDomainSID configured s = (Ok sid, s') ->
  meta_moved [MetaDomainSID] (st_db s) (st_db s') /\ sid_there configured sid (st_db s').
Proof.
  unfold EnsureDomainSID. intros Hrun. apply M_bind_Ok in Hrun as (stored & s1 & Hst & Hrun).
  assert (s1 = s /\ (stored <> EmptyString -> meta (st_db s) !! MetaDomainSID = Some stored)) as [-> Hstored].
  { unfold GetMeta, query_outcome in Hst. destruct (meta (st_db s) !! MetaDomainSID) as [v|]; cbn in Hst; by injection Hst as <- <-. }
  assert (Hset : forall v, v <> EmptyString -> (configured = EmptyString \/ configured = v) -> forall s1, st_db s1 = st_db s ->
    let d' := st_db (snd (SetMeta MetaDomainSID v s1)) in meta_moved [MetaDomainSID] (st_db s) d' /\ sid_there configured v d').
  { intros v Hv Hcv s1 Es. cbn. rewrite Es. split; [split; [done|]; intros key Hk; cbn; apply lookup_insert_ne; set_solver|].
    split; [cbn; apply lookup_insert_eq|]. by split. }
  cbv zeta in Hrun. destruct (negb (String.length configured =? 0)%nat) eqn:Ecf, (negb (String.length stored =? 0)%nat) eqn:Es; cbn [andb] in Hrun.
  - destruct (String.eqb_spec configured stored) as [->|]; [|done]. injection Hrun as <- <-. split; [done|]. apply sid_text in Es. split; [by apply Hstored|]. auto.
  - injection Hrun as <- <-. apply (Hset configured); [by apply sid_text|auto|done].
  - injection Hrun as <- <-. split; [done|]. apply sid_text in Es. split; [by apply Hstored|]. split; [done|]. left. by destruct configured.
  - unfold generateDomainSID in Hrun. run_inv. match goal with H : draw _ = _ |- _ => apply keeps_draw in H end.
    match goal with H : SetMeta _ _ ?s1 = (_, ?s2) |- _ => apply (f_equal snd) in H; cbn [snd] in H; rewrite <- H end.
    apply (Hset _); [done|left; by destruct configured|done].
Qed.

Lemma EnsureDomainSID_again configured sid t : sid_there configured sid (st_db t) -> EnsureDomainSID configured t = (Ok sid, t).
Proof.
  intros (Hv & Hne & Hc). unfold EnsureDomainSID, GetMeta, query_outcome. rewrite bind_run, Hv. cbn [or_err]. apply sid_text in Hne as Hs. rewrite Hs.
  destruct Hc as [-> | ->]; [done|]. by rewrite Hs, String.eqb_refl.
Qed.

(** A later start accepts no other identifier. *)
Lemma EnsureDomainSID_other configured sid t sid' t' : meta (st_db t) !! MetaDomainSID = Some sid -> sid <> EmptyString ->
  EnsureDomainSID configured t = (Ok sid', t') -> sid' = sid.
Proof.
  intros Hv Hne. unfold EnsureDomainSID, GetMeta, query_outcome. rewrite bind_run, Hv. cbn [or_err]. apply sid_text in Hne as ->. cbv zeta.
  destruct (negb (String.length configured =? 0)%nat); cbn [andb]; [|by intros [= <- <-]].
  destruct (String.eqb_spec configured sid) as [->|]; [|done]. by intros [= <- <-].
Qed.

(** ** What leaves the metadata *)

Definition meta_kept (d d' : DB) : Prop := meta d' = meta d.
#[local] Instance meta_kept_preorder : PreOrder meta_kept.
Proof. split; [done|]. unfold meta_kept. intros d1 d2 d3. congruence. Qed.

Lemma meta_insert_keys pid kvno now i keys : within meta_kept (insert_keys pid kvno now i keys).
Proof.
  revert i. induction keys as [|k keys IH]; intros i; cbn [insert_keys]; [frame|]. unfold insert_key. frame; [|apply IH].
  apply within_exec; [tc_solve|]. intros d d'. case_match; [done|]. by intros [= <-].
Qed.
Lemma meta_CreatePrincipal p keys : within meta_kept (CreatePrincipal p keys).
Proof.
  unfold CreatePrincipal, writeKeys, replacePrincipalLists, replaceAliases, insert_alias. frame; [| apply meta_insert_keys|].
  - intros s r s'. unfold insert_principal. destruct (existsb _ _); [by intros [= _ <-]|]. destruct (negb _); by intros [= _ <-].
  - apply within_exec; [tc_solve|]. intros d d'. destruct (existsb _ _); [done|]. by intros [= <-].
Qed.
Lemma meta_service n encs : within meta_kept (ensureServicePrincipal n encs).
Proof.
  intros s r s'. unfold ensureServicePrincipal, GetPrincipal, query_outcome. destruct (getPrincipal (st_db s) n 0) as [p|[]|]; try by intros [= <- <-].
  assert (Hw : within meta_kept (keys ← random_keys encs; now ← time_now; _ ← CreatePrincipal (plain_principal n None true (Some now) []) keys; mret true)).
  { frame; [apply within_keeps; [tc_solve|apply keeps_random_keys]|apply meta_CreatePrincipal]. }
  apply Hw.
Qed.

(** ** The whole *)

Lemma in_store_Ok {E T} (f : E -> StartErr) (m : M St E T) pr x pr' : in_store f m pr = (Ok x, pr') ->
  m (pr_st pr) = (Ok x, pr_st pr') /\ pr_bound pr' = pr_bound pr /\ pr_services pr' = pr_services pr.
Proof. unfold in_store. destruct (m (pr_st pr)) as [[y|e|] s]; [|done..]. by intros [= <- <-]. Qed.
Lemma in_store_run {E T} (f : E -> StartErr) (m : M St E T) pr x s : m (pr_st pr) = (Ok x, s) ->
  in_store f m pr = (Ok x, mkProc s (pr_bound pr) (pr_services pr)).
Proof. unfold in_store. by intros ->. Qed.

(** What the plan did, if there is one. *)
Definition planned (c : Config.Config) (encs : list Z) (s : St) (sum : option Summary) (s' : St) : Prop :=
  if is_empty (cf_BootstrapFile c) then sum = None /\ s' = s
  else exists plan x, Load_plan ReadFile plan_yaml (cf_BootstrapFile c) = Some plan /\ sum = Some x /\
    Apply DefaultPasswordHashCost (plan_options c encs) plan s = (Ok x, s').

(** A successful [prepare] is its parts in their order. *)
Lemma prepare_Ok c pr rs pr' : prepare plan_yaml c pr = (Ok rs, pr') <-> exists b s1 s2 s3,
  ResolveEncTypes (kc_EncTypes (cf_KDC c)) = Ok (rs_encTypes rs) /\
  EnsureRealm (sv_Realm (cf_Server c)) (rs_encTypes rs) (pr_st pr) = (Ok b, s1) /\
  EnsureDomainSID (sv_DomainSID (cf_Server c)) s1 = (Ok (rs_domainSID rs), s2) /\
  EnsureIDRange (id_range c) s2 = (Ok (rs_idRange rs), s3) /\
  planned c (rs_encTypes rs) s3 (rs_summary rs) (pr_st pr') /\
  pr_bound pr' = pr_bound pr /\ pr_services pr' = pr_services pr.
Proof.
  unfold prepare, planned, applyBootstrap. split.
  - intros Hrun. apply M_bind_Ok in Hrun as (encs & p0 & [He ->]%M_lift_Ok & Hrun).
    destruct (ResolveEncTypes _) as [l|?|] eqn:Er; [|done..]. injection He as ->.
    apply M_bind_Ok in Hrun as (b & p1 & (H1 & B1 & S1)%in_store_Ok & Hrun). apply M_bind_Ok in Hrun as (sid & p2 & (H2 & B2 & S2)%in_store_Ok & Hrun).
    apply M_bind_Ok in Hrun as (range & p3 & (H3 & B3 & S3)%in_store_Ok & Hrun). apply M_bind_Ok in Hrun as (sum & p4 & H4 & Hrun).
    injection Hrun as <- <-. exists b, (pr_st p1), (pr_st p2), (pr_st p3). cbn [rs_encTypes rs_domainSID rs_idRange rs_summary]. do 4 (split; [done|]).
    destruct (is_empty (cf_BootstrapFile c)); [injection H4 as <- <-; split; [done|]; split; congruence|].
    apply M_bind_Ok in H4 as (plan & p5 & [Hp%or_err_Ok ->]%M_lift_Ok & H4). apply M_bind_Ok in H4 as (x & p6 & (H5 & B5 & S5)%in_store_Ok & H4).
    injection H4 as <- <-. split; [by exists plan, x|]. split; congruence.
  - intros (b & s1 & s2 & s3 & He & H1 & H2 & H3 & H4 & Hb & Hs). destruct rs as [encs sid range sum]. cbn [rs_encTypes rs_domainSID rs_idRange rs_summary] in *.
    rewrite bind_run, He. cbn [lift]. rewrite bind_run, (in_store_run _ _ _ _ _ H1), bind_run, (in_store_run _ _ (mkProc s1 _ _) _ _ H2), bind_run,
      (in_store_run _ _ (mkProc s2 _ _) _ _ H3), bind_run. cbn [pr_bound pr_services].
    assert (Hpr : pr' = mkProc (pr_st pr') (pr_bound pr) (pr_services pr)) by (rewrite <- Hb, <- Hs; by destruct pr').
    destruct (is_empty (cf_BootstrapFile c)).
    + destruct H4 as [-> E4]. rewrite E4 in Hpr. by rewrite Hpr.
    + destruct H4 as (plan & x & Hp & -> & Ha). rewrite bind_run, Hp. cbn [or_err lift]. rewrite bind_run, (in_store_run _ _ (mkProc s3 _ _) _ _ Ha).
      by rewrite Hpr.
Qed.

(** Applying a plan leaves the metadata. *)
Lemma Apply_meta cost opts plan s r s' : ready (st_db s) -> Apply cost opts plan s = (r, s') -> meta (st_db s') = meta (st_db s).
Proof.
  intros (Hok & _ & Hl) Hrun. set (d := st_db s) in *. set (gids := bg_GIDNumber <$> pl_Groups plan).
  destruct (t_Apply (seq_users (dt d)) (seq_principals (kt d)) (seq_groups (dt d)) (list_to_set (gr_id <$> groups (dt d))) gids cost opts plan) with (2 := Hrun) as [HR _].
  - intros g Hg. apply list_elem_of_fmap. eauto.
  - split; [apply counted_now; [done..|]|done]. intros y Hy _. by apply elem_of_list_to_set, list_elem_of_fmap_2.
  - apply (so_meta _ _ _ _ _ _ HR).
Qed.

(** What a start leaves for the next one. *)
Lemma prepare_leaves c pr rs pr' : config_wf c -> ready (st_db (pr_st pr)) -> range_int (id_range c) -> prepare plan_yaml c pr = (Ok rs, pr') ->
  exists s3, planned c (rs_encTypes rs) s3 (rs_summary rs) (pr_st pr') /\ ready (st_db s3) /\ realm_there (sv_Realm (cf_Server c)) (st_db s3) /\
    sid_there (sv_DomainSID (cf_Server c)) (rs_domainSID rs) (st_db s3) /\ rs_idRange rs = id_range c /\ Validate_range (id_range c) = None /\
    (forall t, meta (st_db t) = meta (st_db s3) -> readIDRange t = (Ok (id_range c), t)) /\ meta (st_db (pr_st pr')) = meta (st_db s3).
Proof.
  intros Hwf Hr Hint (b & s1 & s2 & s3 & _ & H1 & H2 & H3 & H4 & _)%prepare_Ok. destruct (cw_realm _ Hwf) as [Hre Hup].
  apply EnsureRealm_first in H1 as (R1 & (M1 & P1 & P2) & _); [|done..]. apply EnsureDomainSID_first in H2 as [Hm2 Hs2].
  apply (ready_meta_moved _ _ _ Hm2) in R1 as R2. apply EnsureIDRange_first in H3 as (Erange & Hv & Hread & s2' & Hm3 & Hr3 & H3); [|done].
  destruct (EnsureIDRange_later _ _ Hv Hr3) as (t' & E3 & _ & G & _). rewrite H3 in E3. injection E3 as <-. apply sids_grow_facts in G as (Ga & Gk & Gz & Gm).
  assert (R3 : ready (st_db s3)) by (eapply ready_ext; [exact Ga|exact Gk|]; by eapply ready_meta_moved).
  destruct Hm2 as [[= Ek2 _ _] Hm2], Hm3 as [[= Ek3 _ _] Hm3].
  assert (Hkey : forall key, key ∉ range_keys -> meta (st_db s3) !! key = meta (st_db s2) !! key) by (intros key Hk; rewrite Gm; by apply Hm3).
  exists s3. split; [done|]. split; [done|]. split; [|split].
  - split; [rewrite Hkey by (vm_compute; set_solver); rewrite Hm2 by (vm_compute; set_solver); done|].
    split; (eapply has_principal_kt; [rewrite Gk, Ek3; exact Ek2|done]).
  - destruct Hs2 as [Hs2 Hs3]. split; [|done]. by rewrite Hkey by (vm_compute; set_solver).
  - split; [done|]. split; [done|]. split; [done|]. unfold planned in H4. destruct (is_empty _); [by destruct H4 as [_ ->]|].
    destruct H4 as (plan & x & _ & _ & Ha). by eapply Apply_meta.
Qed.


(** C36: the identity of the realm is decided once: whatever has become of the rest of the database, as
    long as its metadata are what a start left, no later start succeeds with another realm, another
    domain identifier or another identifier range. *)
Theorem identity_pinned (c c2 : Config.Config) (pr pr' q q' : Proc) (rs rs2 : Realm_state) :
  config_wf c -> config_wf c2 -> ready (st_db (pr_st pr)) -> range_int (id_range c) ->
  prepare plan_yaml c pr = (Ok rs, pr') -> meta (st_db (pr_st q)) = meta (st_db (pr_st pr')) ->
  prepare plan_yaml c2 q = (Ok rs2, q') ->
  sv_Realm (cf_Server c2) = sv_Realm (cf_Server c) /\ rs_domainSID rs2 = rs_domainSID rs /\ rs_idRange rs2 = rs_idRange rs.
Proof.
  intros Hwf Hwf2 Hr Hint Hrun Eq Hrun2. destruct (cw_realm _ Hwf2) as [Hre2 Hup2].
  destruct (prepare_leaves _ _ _ _ Hwf Hr Hint Hrun) as (s3 & _ & _ & (Hm & _) & (Hs & Hne & _) & Erange & Hv & Hread & Em).
  apply prepare_Ok in Hrun2 as (b & s1 & s2 & s4 & _ & H1 & H2 & H3 & _). rewrite <- Em, <- Eq in Hm, Hs.
  assert (Hmeta : sv_Realm (cf_Server c2) = sv_Realm (cf_Server c) /\ meta (st_db s1) = meta (st_db (pr_st q))).
  { rewrite EnsureRealm_unfold in H1 by done. apply M_bind_Ok in H1 as (i & t1 & Hi & H1). unfold GetMeta, query_outcome in Hi. rewrite Hm in Hi. cbn [or_err] in Hi.
    destruct (String.eqb_spec (sv_Realm (cf_Server c)) (sv_Realm (cf_Server c2))) as [->|]; [|done]. injection Hi as <- <-. split; [done|].
    apply M_bind_Ok in H1 as (c1 & t1 & K1%meta_service & H1). apply M_bind_Ok in H1 as (c3 & t2 & K2%meta_service & H1). injection H1 as <- <-. unfold meta_kept in *. congruence. }
  destruct Hmeta as [-> Em1]. split; [done|]. rewrite <- Em1 in Hs. apply (EnsureDomainSID_other _ _ _ _ _ Hs Hne) in H2 as Esid. split; [done|].
  apply EnsureDomainSID_first in H2 as [[_ Hm2] (Hs2 & _)].
  assert (Em2 : meta (st_db s2) = meta (st_db s3)).
  { apply map_eq. intros key. destruct (decide (key = MetaDomainSID)) as [->|Hk].
    - rewrite Hs2, Esid, <- Em, <- Eq, <- Em1. done.
    - rewrite Hm2 by set_solver. by rewrite Em1, Eq, Em. }
  rewrite Erange. unfold EnsureIDRange in H3. rewrite bind_run in H3. unfold lift in H3. destruct (Validate_range (id_range c2)); [done|].
  rewrite bind_run, (Hread _ Em2) in H3. case_bool_decide as Hw; [|done]. run_inv. congruence.
Qed.
End Restart.

(** ** A start to run: the configuration of ConfigFacts.v with the plan of BootstrapTwice.v *)

Section StartupSample.
#[local] Existing Instance sample_clock.
#[local] Existing Instance toy_rand.
#[local] Existing Instance toy_aead.
#[local] Existing Instance toy_enctypes.
#[local] Existing Instance toy_bcrypt.
#[local] Existing Instance toy_dns.
#[local] Existing Instance toy_json.
#[local] Existing Instance toy_ecdsa.
#[local] Existing Instance sample_url.
#[local] Existing Instance sample_files.
#[local] Existing Instance sample_sources.
#[local] Instance plain_sha : Sha256 := fun b => b.

(** Every address can be bound that is not, but for one that is taken. *)
Definition net_without (taken : string) : Net := {|
  net_Listen p addr bound := if bool_decide ((p, addr) ∈ bound) || String.eqb addr taken then None else Some addr |}.
#[local] Instance net_without_laws taken : NetLaws (net_without taken).
Proof. split. intros p addr bound a. cbn. case_bool_decide; [done|]. cbn. by case_match; intros [= <-]. Qed.
#[local] Instance any_pair : TlsFiles := {| KeyPair := string * string; LoadX509KeyPair c k := Some (c, k) |}.

Definition conf : Config.Config := match loaded with Ok c => c | _ => default_config end.
Definition yaml_sample (_ : bytes) : decoded := yaml_plan sample_plan.
Definition fresh : Proc := mkProc empty_state [(tcp, "127.0.0.1:22")] [].

Lemma conf_wf : config_wf conf.
Proof. apply (validate_wf true conf); vm_compute; reflexivity. Qed.

Definition whole_run := run (Nt := net_without "") yaml_sample conf fresh.
(** With the port of the provider taken, everything before it has been started. *)
Definition failed_run := run (Nt := net_without "127.0.0.1:5557") yaml_sample conf fresh.


Lemma loaded_starts_witness : exists pr', failed_run = (Err (se_listen tcp "127.0.0.1:5557"), pr') /\ foreseen (se_listen tcp "127.0.0.1:5557") = false.
Proof.
  destruct failed_run as [r pr'] eqn:E.
  assert (Hr : r = Err (se_listen tcp "127.0.0.1:5557")) by (apply (f_equal fst) in E; cbn [fst] in E; rewrite <- E; vm_compute; reflexivity). subst r.
  exists pr'. split; [reflexivity|].
  refine (loaded_starts (Nt := net_without "127.0.0.1:5557") yaml_sample conf fresh pr' (se_listen tcp "127.0.0.1:5557") _ E).
  split; [exact conf_wf|vm_compute; discriminate|]. intros _. split; vm_compute; discriminate.
Defined.

Definition first_start := prepare yaml_sample conf fresh.

Lemma first_ok : exists rs pr', first_start = (Ok rs, pr') /\ rs_summary rs = Some (mkSummary 6 0 0) /\ rs_encTypes rs = [18; 17].
Proof.
  destruct first_start as [r pr'] eqn:E.
  assert (Hr : match r with Ok rs => (rs_summary rs, rs_encTypes rs) = (Some (mkSummary 6 0 0), [18; 17]) | _ => False end)
    by (apply (f_equal fst) in E; cbn [fst] in E; rewrite <- E; vm_compute; reflexivity).
  destruct r as [rs| |]; [|destruct Hr..]. exists rs, pr'. injection Hr as H1 H2. split; [reflexivity|]. split; [exact H1|exact H2].
Qed.

Lemma sample_names (opts : PlanOptions) : po_Realm opts = "EXAMPLE.COM" -> forall plan p, Load_plan ReadFile yaml_sample (cf_BootstrapFile conf) = Some plan ->
  p ∈ pl_Principals plan -> name_stable opts (bp_Name p).
Proof.
  intros Hr plan p Hl Hp. vm_compute in Hl. injection Hl as <-. apply list_elem_of_singleton in Hp. subst p. intros n Hn. rewrite Hr in Hn. vm_compute in Hn. injection Hn as <-.
  exists (mkName ["HTTP"; "www.example.com"] "EXAMPLE.COM"). vm_compute. split; reflexivity.
Qed.

Lemma conf_range : range_int (id_range conf).
Proof.
  assert (E : id_range conf = mkIDRange 1 200000 1000 100000000) by (vm_compute; reflexivity). rewrite E. repeat constructor; vm_compute; discriminate.
Qed.


Lemma identity_pinned_witness : exists rs pr' rs2 q', first_start = (Ok rs, pr') /\ prepare yaml_sample conf pr' = (Ok rs2, q') /\
  rs_domainSID rs2 = rs_domainSID rs /\ rs_idRange rs2 = rs_idRange rs.
Proof.
  destruct first_ok as (rs & pr' & E & _).
  destruct (prepare yaml_sample conf pr') as [r q'] eqn:E2.
  assert (Hr : match r with Ok _ => true | _ => false end = true).
  { apply (f_equal fst) in E2. cbn [fst] in E2. rewrite <- E2. apply (f_equal snd) in E. cbn [snd] in E. rewrite <- E. vm_compute. reflexivity. }
  destruct r as [rs2| |]; [|discriminate Hr..].
  destruct (identity_pinned yaml_sample conf conf fresh pr' pr' q' rs rs2 conf_wf conf_wf empty_ready conf_range E eq_refl E2) as (_ & H1 & H2).
  exists rs, pr', rs2, q'. split; [exact E|]. split; [exact E2|]. split; [exact H1|exact H2].
Defined.

(** ** What the checks let through *)

Definition with_hostname (h : string) (c : Config.Config) : Config.Config :=
  let d := cf_DNS c in
  Config.mkConfig (cf_Debug c) (cf_StructuredLog c) (cf_Server c) (cf_Database c) (cf_LDAP c) (cf_LDAPS c) (cf_KDC c) (cf_KPasswd c)
    (mkDNSSection (ds_Enabled d) (ds_Listen d) (ds_Zone d) (ds_ExtraZones d) (ds_ReverseZones d) h (ds_Addresses d) (ds_Mailbox d) (ds_TTL d) (ds_Docker d))
    (cf_API c) (cf_OIDC c) (cf_BootstrapFile c) (cf_Behaviors c) (cf_Path c).

(** A host name that is only the dot is qualified, and the name server does not start under it. *)
Example dot_passes : validate true (with_hostname "." conf) = Ok tt /\
  fst (run (Nt := net_without "") yaml_sample (with_hostname "." conf) fresh) = Err se_dns.
Proof. vm_compute. split; reflexivity. Qed.
End StartupSample.
