(* ===== verification/Ktadd.v ===== *)
(** * The commands beside the service: cmd/ldap-kdc, ktadd.go, krb5conf.go and health.go

    [runKtadd] adds the keys of principals to a keytab file, working on the database beside the
    service; [writeFileAtomic] and [writeConfigAtomic] replace a file through a temporary one;
    [probeAddress] is where the health check asks. The flags are taken as read, and the store as
    opened. *)

From S2P Require Import Prelude Text Hostport Duration Netip Names Keytab Model Secret IdRange Db Principals PrincipalFacts Zone Dns Directory Accounts Masterkey DnsFacts DockerDns Config ConfigFacts Startup Restart.

(** ** Replacing a file *)

(** A file with its mode; the target and the temporary file beside it. *)
Record Target : Type := mkTarget { tg_file : option (bytes * Z); tg_tmp : option (bytes * Z) }.

(** Before the call named, or out of the function. *)
Inductive replace_phase : Type := rp_create | rp_write | rp_chmod | rp_sync | rp_close | rp_rename | rp_done | rp_failed.

(** A call that fails is the last one but for the deferred [os.Remove]. *)
Definition give_over (t : Target) : replace_phase * Target := (rp_failed, mkTarget (tg_file t) None).

Definition replace_call (mode : Z) (data : bytes) (a : answer) (ph : replace_phase) (t : Target) : replace_phase * Target :=
  match ph, a with
  | rp_done, _ | rp_failed, _ => (ph, t)
  | rp_create, done_ok => (rp_write, mkTarget (tg_file t) (Some ([], 0x180)))
  | rp_create, _ => (rp_failed, t)
  | rp_write, done_ok => (rp_chmod, mkTarget (tg_file t) ((fun f => (data, snd f)) <$> tg_tmp t))
  | rp_chmod, done_ok => (rp_sync, mkTarget (tg_file t) ((fun f => (fst f, mode)) <$> tg_tmp t))
  | rp_sync, done_ok => (rp_close, t)
  | rp_close, done_ok => (rp_rename, t)
  | rp_rename, done_ok => (rp_done, mkTarget (tg_tmp t) None)
  | _, _ => give_over t
  end.

(** The calls as far as the answers go: where they end before the function does, so did the process. *)
Definition replace_run (mode : Z) (data : bytes) (answers : list answer) (ph : replace_phase) (t : Target) : replace_phase * Target :=
  foldl (fun '(ph, t) a => replace_call mode data a ph t) (ph, t) answers.

Definition writeFileAtomic (data : bytes) (answers : list answer) (t : Target) : replace_phase * Target :=
  replace_run 0x180 data answers rp_create t.
Definition writeConfigAtomic (data : bytes) (answers : list answer) (t : Target) : replace_phase * Target :=
  replace_run 0x1a4 data answers rp_create t.

(** What the temporary file holds on the way, and that the target is the old one until the end. *)
Definition replace_ok (mode : Z) (data : bytes) (file0 : option (bytes * Z)) (ph : replace_phase) (t : Target) : Prop :=
  match ph with
  | rp_create | rp_write => tg_file t = file0
  | rp_chmod => tg_file t = file0 /\ (exists m, tg_tmp t = Some (data, m))
  | rp_sync | rp_close | rp_rename => tg_file t = file0 /\ tg_tmp t = Some (data, mode)
  | rp_done => t = mkTarget (Some (data, mode)) None
  | rp_failed => tg_file t = file0
  end.

Lemma replace_call_ok mode data file0 a ph t ph' t' :
  (ph = rp_write -> is_Some (tg_tmp t)) -> replace_ok mode data file0 ph t -> replace_call mode data a ph t = (ph', t') ->
  replace_ok mode data file0 ph' t' /\ (ph' = rp_write -> is_Some (tg_tmp t')).
Proof.
  intros Hw Hok Hc. destruct ph, a; cbn in Hc; injection Hc as <- <-; cbn in *; try (by split);
    try (by split; [apply Hok|]); try (by split; eauto).
  - destruct (Hw eq_refl) as [[b m] Hm]. rewrite Hm. split; [|done]. split; [done|]. by exists m.
  - destruct Hok as [Hf [m Hm]]. rewrite Hm. by split.
  - destruct Hok as [Hf Hm]. rewrite Hm. by split.
Qed.

Lemma replace_run_ok mode data answers t : let '(ph, t') := replace_run mode data answers rp_create t in replace_ok mode data (tg_file t) ph t'.
Proof.
  assert (H : forall ph t1 ph' t', (ph = rp_write -> is_Some (tg_tmp t1)) -> replace_ok mode data (tg_file t) ph t1 ->
    replace_run mode data answers ph t1 = (ph', t') -> replace_ok mode data (tg_file t) ph' t').
  { unfold replace_run. induction answers as [|a answers IH]; intros ph t1 ph' t' Hw Hok; cbn [foldl]; [by intros [= <- <-]|].
    destruct (replace_call mode data a ph t1) as [ph2 t2] eqn:Ec. destruct (replace_call_ok _ _ _ _ _ _ _ _ Hw Hok Ec) as [Hok2 Hw2]. by apply IH. }
  destruct (replace_run mode data answers rp_create t) as [ph t'] eqn:E. by eapply (H rp_create t).
Qed.

(** A file is replaced whole or not at all, however many of the calls the process lives to make and
    however they end. *)
Lemma replaced_whole mode data answers t ph t' : replace_run mode data answers rp_create t = (ph, t') ->
  (ph = rp_done /\ t' = mkTarget (Some (data, mode)) None) \/ (ph <> rp_done /\ tg_file t' = tg_file t).
Proof.
  intros Hr. pose proof (replace_run_ok mode data answers t) as H. rewrite Hr in H. destruct ph; cbn in H; auto; right; split; try done; by destruct H.
Qed.

(** ** ktadd *)

Inductive KtaddErr : Type :=
| ka_no_file | ka_no_principals | ka_enctypes (e : KeyError) | ka_master_key
| ka_name (e : NameError) | ka_store (raw : string) (e : StoreErr) | ka_no_keys (raw : string)
| ka_read | ka_keytab (e : KeytabError) | ka_write.

Section Ktadd.
Context `{Clock, Rand, AEAD, EncTypeLib, Files} (c : Config.Config).

(** [existingSealer]: the key is read and never made. *)
Definition existingSealer (path : string) : outcome KtaddErr bytes :=
  key ← or_err ka_master_key (ReadFile path);
  _ ← err_if (negb (master_key_ok key)) ka_master_key;
  Ok key.

(** [readKeytab], on a file that is not there, cannot be read or holds those bytes. *)
Inductive found : Type := not_there | unreadable | holds (b : bytes).

Definition readKeytab (f : found) : outcome KtaddErr (list KeytabEntry) :=
  match f with
  | not_there => Ok []
  | unreadable => Err ka_read
  | holds raw => match ParseKeytab raw with Ok es => Ok es | Err e => Err (ka_keytab e) | Panic => Panic end
  end.

Abbreviation KA := (M St KtaddErr).

Definition ka_call {T} (raw : string) (m : Tx T) : KA T := fun s =>
  let '(r, s') := m s in (match r with Ok x => Ok x | Err e => Err (ka_store raw e) | Panic => Panic end, s').

(** One round of the loop. *)
Definition keys_of (randKey : bool) (encTypes : list Z) (now : Time) (raw : string) : KA (list KeytabEntry) :=
  name ← lift (match ParseName raw (sv_Realm (cf_Server c)) with Ok n => Ok n | Err e => Err (ka_name e) | Panic => Panic end);
  p ← ka_call raw (if randKey then RandomizePrincipalKeys name encTypes else GetPrincipal name);
  _ ← throw_if (List.length (p_Keys p) =? 0)%nat (ka_no_keys raw);
  canonical ← lift (KrbName p);
  mret ((fun k => mkKeytabEntry canonical (p_KVNO p) k now) <$> p_Keys p).

Fixpoint added_keys (randKey : bool) (encTypes : list Z) (now : Time) (raws : list string) : KA (list KeytabEntry) :=
  match raws with
  | [] => mret []
  | raw :: raws' =>
      es ← keys_of randKey encTypes now raw;
      rest ← added_keys randKey encTypes now raws';
      mret (es ++ rest)
  end.

(** What is to be written, and how many keys were added. *)
Definition ktadd_blob (keytabPath : string) (randKey : bool) (raws : list string) (f : found) : KA (bytes * nat) :=
  _ ← throw_if (is_empty keytabPath) ka_no_file;
  _ ← throw_if (List.length raws =? 0)%nat ka_no_principals;
  encTypes ← lift (match ResolveEncTypes (kc_EncTypes (cf_KDC c)) with Ok l => Ok l | Err e => Err (ka_enctypes e) | Panic => Panic end);
  _ ← lift (existingSealer (db_MasterKeyFile (cf_Database c)));
  now ← ka_call EmptyString time_now;
  added ← added_keys randKey encTypes now raws;
  existing ← lift (readKeytab f);
  blob ← (fun s => (match MarshalKeytab (fun i => clock (st_tick s + i)) (MergeKeytab existing added) with
                    | Ok b => Ok b | Err e => Err (ka_keytab e) | Panic => Panic end, s)) : KA bytes;
  mret (blob, List.length added).

Definition found_at (t : Target) : found := match tg_file t with Some (b, _) => holds b | None => not_there end.

Definition runKtadd (keytabPath : string) (randKey : bool) (raws : list string) (answers : list answer) (s : St) (t : Target) :
    outcome KtaddErr nat * St * Target :=
  match ktadd_blob keytabPath randKey raws (found_at t) s with
  | (Ok (blob, n), s') =>
      match writeFileAtomic blob answers t with
      | (rp_done, t') => (Ok n, s', t')
      | (_, t') => (Err ka_write, s', t')
      end
  | (Err e, s') => (Err e, s', t)
  | (Panic, s') => (Panic, s', t)
  end.

(** ** What the file holds afterwards *)

Lemma keeps_ka_call {T} raw (m : Tx T) : keeps_db m -> keeps_db (ka_call raw m).
Proof. intros Hm s r s'. unfold ka_call. destruct (m s) as [r0 s0] eqn:E. intros [= _ <-]. by eapply Hm. Qed.

Lemma keeps_keys_of encTypes now raw : keeps_db (keys_of false encTypes now raw).
Proof.
  unfold keys_of. apply keeps_bind; [apply keeps_lift|]. intros n. apply keeps_bind; [apply keeps_ka_call, keeps_query_outcome|].
  intros p. apply keeps_bind; [apply keeps_throw_if|]. intros _. apply keeps_bind; [apply keeps_lift|]. intros k. apply keeps_ret.
Qed.
Lemma keeps_added_keys encTypes now raws : keeps_db (added_keys false encTypes now raws).
Proof.
  induction raws as [|raw raws IH]; cbn [added_keys]; [apply keeps_ret|]. apply keeps_bind; [apply keeps_keys_of|]. intros es.
  apply keeps_bind; [done|]. intros rest. apply keeps_ret.
Qed.
Lemma keeps_ktadd_blob path raws f : keeps_db (ktadd_blob path false raws f).
Proof.
  unfold ktadd_blob. repeat (apply keeps_bind; [first [apply keeps_throw_if|apply keeps_lift|apply keeps_added_keys|apply keeps_ka_call, keeps_time_now]|intros ?]).
  apply keeps_bind; [by intros s r s' [= _ <-]|]. intros b. apply keeps_ret.
Qed.

(** A name given leads to a principal of the database. *)
Definition leads_to (d : DB) (raw : string) (p : Principal) : Prop :=
  exists name, ParseName raw (sv_Realm (cf_Server c)) = Ok name /\ getPrincipal d name 0 = Ok p.

(** The entries are the keys of the principals named, all of them and no others. *)
Definition current_keys (d : DB) (raws : list string) (es : list KeytabEntry) : Prop :=
  (forall e, e ∈ es -> exists raw p, raw ∈ raws /\ leads_to d raw p /\ KrbName p = Ok (E := KtaddErr) (kt_Name e) /\
     kt_KVNO e = p_KVNO p /\ kt_Key e ∈ p_Keys p) /\
  (forall raw, raw ∈ raws -> exists p, leads_to d raw p /\ p_Keys p <> [] /\
     forall k, k ∈ p_Keys p -> exists e, e ∈ es /\ kt_Key e = k /\ kt_KVNO e = p_KVNO p).

Lemma keys_of_current encTypes now raw s es s' : keys_of false encTypes now raw s = (Ok es, s') ->
  current_keys (st_db s) [raw] es /\ st_db s' = st_db s.
Proof.
  intros Hrun. split; [|by eapply keeps_keys_of]. unfold keys_of in Hrun. run_inv.
  match goal with H : ka_call _ _ _ = _ |- _ => unfold ka_call, GetPrincipal, query_outcome in H; destruct (getPrincipal _ _ 0) as [p|e|] eqn:Ep; simplify_eq end.
  match goal with H : match ParseName ?a ?b with _ => _ end = Ok _ |- _ => destruct (ParseName a b) as [n|e|] eqn:En; simplify_eq end.
  match goal with H : getPrincipal _ ?n0 0 = Ok ?p0 |- _ => rename p0 into p, n0 into name end. split.
  - intros e (k & -> & Hk)%list_elem_of_fmap. exists raw, p. split; [left|]. split; [by exists name|]. done.
  - intros raw' ->%list_elem_of_singleton. exists p. split; [by exists name|]. split; [by destruct (p_Keys p)|]. intros k Hk.
    eexists. split; [by apply list_elem_of_fmap; exists k|done].
Qed.

Lemma added_keys_current encTypes now raws s es s' : added_keys false encTypes now raws s = (Ok es, s') -> current_keys (st_db s) raws es.
Proof.
  revert s es s'. induction raws as [|raw raws IH]; intros s es s'; cbn [added_keys]; intros Hrun; run_inv.
  { split; [intros e He|intros r Hr]; by apply elem_of_nil in He || apply elem_of_nil in Hr. }
  match goal with H : keys_of _ _ _ _ _ = _ |- _ => apply keys_of_current in H as [[F1 F2] Hd] end.
  match goal with H : added_keys _ _ _ _ _ = _ |- _ => apply IH in H as [G1 G2]; rewrite Hd in G1, G2 end. split.
  - intros e [(r & p & ->%list_elem_of_singleton & Hp)%F1|(r & p & Hr & Hp)%G1]%elem_of_app; [exists raw, p|exists r, p]; (split; [|exact Hp]); [left|by right].
  - intros r [->|Hr]%elem_of_cons.
    + destruct (F2 raw ltac:(left)) as (p & Hp & Hne & Hk). exists p. split; [done|]. split; [done|]. intros k (e & He & ?)%Hk.
      exists e. split; [apply elem_of_app; by left|done].
    + destruct (G2 r Hr) as (p & Hp & Hne & Hk). exists p. split; [done|]. split; [done|]. intros k (e & He & ?)%Hk.
      exists e. split; [apply elem_of_app; by right|done].
Qed.

Definition same_key (e e' : KeytabEntry) : Prop :=
  kt_Name e = kt_Name e' /\ kt_KVNO e = kt_KVNO e' /\ EType (kt_Key e) = EType (kt_Key e') /\ Value (kt_Key e) = Value (kt_Key e').

(** The entries that are kept are read as they were, and those added as they were added. *)
Lemma merged_read clk existing added blob : Forall as_read existing -> Forall entry_fits added -> zlen blob <= 2 ^ 31 ->
  MarshalKeytab clk (MergeKeytab existing added) = Ok blob ->
  exists added', ParseKeytab blob = Ok (filter (fun e => keytabEntryID e ∉ keytabEntryID <$> added) existing ++ added') /\
    Forall2 same_key added' added.
Proof.
  intros He Ha Hl Hm. assert (Hmerge : MergeKeytab existing added = filter (fun e => keytabEntryID e ∉ keytabEntryID <$> added) existing ++ added).
  { unfold MergeKeytab. f_equal. apply list_filter_iff. intros e. by rewrite elem_of_list_to_set. }
  rewrite Hmerge in Hm. set (kept := filter _ existing) in *.
  assert (Hk : Forall as_read kept) by (apply Forall_forall; intros e [_ Hin]%list_elem_of_filter; by eapply (proj1 (Forall_forall _ _)) in He).
  apply parse_marshalled in Hm; [|apply Forall_app; split; [by eapply Forall_impl; [exact Hk|intros e []]|done]|done].
  rewrite imap_app in Hm. eexists. split; [etrans; [exact Hm|]; f_equal; f_equal|].
  - clear -Hk. generalize clk. induction Hk as [|e kept [_ Hw] _ IH]; intros clk'; [done|]. cbn. rewrite Hw. f_equal. apply (IH (fun i => clk' (S i))).
  - clear. generalize (List.length kept). induction added as [|e added IH]; intros n; cbn; [constructor|]. constructor; [done|].
    rewrite (imap_ext _ (fun i x => written_form (clk (S n + i)%nat) x)) by (intros; cbn; do 2 f_equal; lia). apply IH.
Qed.

(** C39: ktadd is safe to interrupt and to repeat. Unless it reports success the keytab is the file it
    was, whichever call fails or is the last the process lives to make; without new keys the database
    is never changed. When it reports success the file is whole and for its owner only: read again it
    gives the entries that were there and are not replaced, as they were and in their order, and after
    them those that were added, which without new keys are the current keys of the principals named,
    all of them and no others. *)
Theorem ktadd_adds (path : string) (randKey : bool) (raws : list string) (answers : list answer) (s s' : St) (t t' : Target)
    (r : outcome KtaddErr nat) :
  runKtadd path randKey raws answers s t = (r, s', t') ->
  (randKey = false -> st_db s' = st_db s) /\
  match r with
  | Ok n =>
      exists existing added blob, readKeytab (found_at t) = Ok existing /\ t' = mkTarget (Some (blob, 0x180)) None /\ n = List.length added /\
        (randKey = false -> current_keys (st_db s) raws added) /\
        (Forall entry_fits added -> zlen blob <= 2 ^ 31 -> exists added',
           ParseKeytab blob = Ok (filter (fun e => keytabEntryID e ∉ keytabEntryID <$> added) existing ++ added') /\ Forall2 same_key added' added)
  | _ => tg_file t' = tg_file t
  end.
Proof.
  unfold runKtadd. destruct (ktadd_blob path randKey raws (found_at t) s) as [[[blob n]|e|] s1] eqn:Eb;
    [|intros [= <- <- <-]; split; [intros ->; by eapply keeps_ktadd_blob|done]..].
  destruct (writeFileAtomic blob answers t) as [ph t1] eqn:Ew. pose proof (replaced_whole _ _ _ _ _ _ Ew) as Hw. intros Hrun.
  assert (Es : s' = s1) by (destruct ph; by injection Hrun). subst s'. split; [intros ->; by eapply keeps_ktadd_blob|].
  destruct Hw as [[-> ->]|[Hne Hf]]; [|destruct ph; try (by destruct Hne); injection Hrun as <- <-; exact Hf]. injection Hrun as <- <-.
  unfold ktadd_blob in Eb. run_inv.
  match goal with H : added_keys _ _ _ _ _ = (Ok ?a, _) |- _ => rename a into added, H into Hadd end.
  match goal with H : readKeytab _ = Ok ?x |- _ => rename x into existing, H into Hex end.
  match goal with H : (match MarshalKeytab ?clk _ with _ => _ end, _) = _ |- _ =>
    destruct (MarshalKeytab clk (MergeKeytab existing added)) as [b| |] eqn:Em; simplify_eq end.
  injection Eb as <- <- <-. exists existing, added. eexists. split; [done|]. split; [done|]. split; [done|]. split.
  - intros ->. apply added_keys_current in Hadd. match goal with H : ka_call _ time_now _ = _ |- _ => apply (keeps_ka_call _ _ keeps_time_now) in H as <- end. exact Hadd.
  - intros Hfit Hl. eapply merged_read; [|done|done|exact Em]. unfold readKeytab, found_at in Hex. destruct (tg_file t) as [[f m]|]; [|by injection Hex as <-].
    destruct (ParseKeytab f) as [es| |] eqn:Ep; simplify_eq. by eapply ParseKeytab_as_read.
Qed.
End Ktadd.

(** ** health *)

(** [net.ParseIP], which takes no zone, and [IsUnspecified], which holds of 0.0.0.0 in its IPv6 form
    too. *)
Definition unspecified (b : bytes) : bool :=
  forallb (Byte.eqb Byte.x00) b || bool_decide (b = replicate 10 Byte.x00 ++ [Byte.xff; Byte.xff] ++ replicate 4 Byte.x00).
Definition specific_ip (host : string) : bool :=
  match ParseAddr host with
  | Some a => negb (contains_char "%"%char host) && negb (unspecified (AsSlice a))
  | None => false
  end.

(** [probeAddress]: where the probes are served, and whether over TLS. *)
Definition probeAddress (c : Config.Config) : option (string * bool) :=
  let api := as_Listener (cf_API c) in
  if negb (ls_Enabled api) then None
  else
    let l := if shareOIDCListener c then os_Listener (cf_OIDC c) else api in
    '(host, port) ← SplitHostPort (ls_Listen l);
    Some (JoinHostPort (if specific_ip host then host else "127.0.0.1") port, ls_TLS l).

(** ** Keys of the realm of Restart.v *)

Section KtaddSample.
#[local] Existing Instance sample_clock.
#[local] Existing Instance toy_rand.
#[local] Existing Instance toy_aead.
#[local] Existing Instance toy_enctypes.
#[local] Instance key_file : Files := {| ReadFile _ := Some (replicate 32 Byte.x07); Stat _ := true |}.

Definition realm_db : St := pr_st (snd whole_run).
Definition host_entry : KeytabEntry :=
  mkKeytabEntry (mkName ["host"; "www.example.com"] "EXAMPLE.COM") 3 (mkKey 18 [Byte.x01] EmptyString EmptyString) (UnixTime 1600000000).
Definition old_file : Target := mkTarget (match MarshalKeytab (fun _ => 0) [host_entry] with Ok b => Some (b, 0x1a4) | _ => None end) None.

Definition kvno_at (raw : string) (s : St) : option Z :=
  match ParseName raw "EXAMPLE.COM" with
  | Ok n => match getPrincipal (st_db s) n 0 with Ok p => Some (p_KVNO p) | _ => None end
  | _ => None
  end.

(** A misspelled second name with -randkey: the first principal has new keys, and no file has them. *)
Example rekeyed_in_vain :
  let '(r, s', t') := runKtadd conf "/etc/krb5.keytab" true ["HTTP/www"; "HTTP/wwv"] (replicate 6 done_ok) realm_db old_file in
  r = Err (ka_store "HTTP/wwv" ErrNotFound) /\ kvno_at "HTTP/www" realm_db = Some 1 /\ kvno_at "HTTP/www" s' = Some 2 /\ tg_file t' = tg_file old_file.
Proof. vm_compute. split_and!; reflexivity. Qed.

Definition ktadd_run := runKtadd conf "/etc/krb5.keytab" false ["HTTP/www"] (replicate 6 done_ok) realm_db old_file.
Definition ids_of (f : option (bytes * Z)) : list string :=
  match f with
  | Some (b, _) => match ParseKeytab b with Ok es => keytabEntryID <$> es | _ => [] end
  | None => []
  end.

Lemma ktadd_adds_witness :
  ids_of (tg_file (snd ktadd_run)) = ["host/www.example.com@EXAMPLE.COM|3|18"; "HTTP/www.example.com@EXAMPLE.COM|1|18"; "HTTP/www.example.com@EXAMPLE.COM|1|17"] /\
  st_db (snd (fst ktadd_run)) = st_db realm_db /\
  exists added, current_keys conf (st_db realm_db) ["HTTP/www"] added /\ List.length added = 2%nat.
Proof.
  split; [vm_compute; reflexivity|]. destruct ktadd_run as [[r s'] t'] eqn:E.
  destruct (ktadd_adds conf "/etc/krb5.keytab" false ["HTTP/www"] (replicate 6 done_ok) realm_db s' old_file t' r E) as [Hd H].
  split; [exact (Hd eq_refl)|].
  assert (Hr : r = Ok 2%nat) by (apply (f_equal (fun x => fst (fst x))) in E; cbn [fst] in E; rewrite <- E; vm_compute; reflexivity).
  rewrite Hr in H. destruct H as (existing & added & blob & _ & _ & Hn & Hk & _). exists added. split; [exact (Hk eq_refl)|symmetry; exact Hn].
Defined.
End KtaddSample.
